(* ===== verification/_CoqProject ===== *)
-Q . S2P
Prelude.v
Float64.v
CircuitBreaker.v
GoStrings.v
Utf8.v
ContextPlanner.v
NamedLocks.v
Encoding.v
Regex.v
TurnSignals.v
Middleware.v
Disk.v
PaymentModels.v
PaymentVault.v
PaymentRuntime.v
Goal.v
GoalAgent.v
Tokenizer.v
Ipam.v
Pipeline.v
Cron.v
Loops.v
CronScheduler.v
ChatCommands.v
Security.v
Pairing.v
Mqtt.v
PathPolicy.v
Paths.v
RecentSenders.v
ApplyPatch.v
SemVer.v
BundleUpdater.v
BundleUpdaterSpec.v
Json.v
MetaCondition.v
MetaPlan.v
MetaLoader.v
MetaPolicy.v
MetaRun.v
MetaRunSpec.v
ToolApproval.v
ToolPolicy.v
ExternalCli.v
ExternalCliPresets.v
ExternalCliTemplates.v
ExternalCliRegistry.v
ExternalCliSpec.v
ExternalCliTool.v
ExternalCliToolSpec.v
Chat.v
Effects.v
ToolRouting.v
ToolExecutor.v
Hooks.v
AgentTurn.v
MetaInvoke.v
RoutingPolicy.v
AgentTurnSpec.v
RoutingPolicySpec.v
SessionModels.v
FileStore.v
FileStoreSpec.v
Sessions.v
SessionsSpec.v
SessionLocks.v
