(* ===== verification/Prelude.v ===== *)
(** * A verification development for goproject-archived

    The repository is a collection of Go programs.  This library models the
    core logic of several of them, as the code has it, and proves what makes it
    correct, or, where the code does something else than it means to, what it
    does instead.  Paths below are relative to [src/].

    ** Parts and files

    openclaw, an assistant gateway, is most of it.  A message passes the
    middleware, the session manager gives it its session, a turn of the agent
    talks to the model and runs tools through the executor, whose gates decide.

    The turn and its tools:
    - [AgentTurn.v], [MetaInvoke.v], [AgentTurnSpec.v]: [RunTurn] of
      [openclaw/agent/agent_runtime.go] and [runtime.go]: the request, trimming
      and compaction of the history, tool batches and their checkpoints,
      routing, budgets, and what the meta skills that tool calls start ask of
      tools and of the model.  The world answers through the class [TurnWorld];
      the theorems carry a property of single events through a whole turn.  The
      events of a meta skill are kept with its call, in [EvMeta]; [everything]
      lists them too.
    - [ToolExecutor.v], [ToolRouting.v], [ToolPolicy.v], [ToolApproval.v],
      [Hooks.v]: [tool_executor.go], [execution.go], [agent.go] of
      [openclaw/agent], and [pipeline.go], [governance_service.go],
      [governance_ledger_models.go], [sandbox_config.go] of [openclaw/core].
      A tool runs only past every gate; a required sandbox is never left; the
      workspace is kept; a request for approval is decided at most once, however
      its callers interleave.
    - [TurnSignals.v], [RoutingPolicy.v], [RoutingPolicySpec.v]:
      [openclaw/agent/routing.go], [openclaw/routingdecision],
      [openclaw/core/validation_routing.go].  Signals of a message, the
      classifier's proposal and its guardrails, the circuit and the slots.
    - [ExternalCli.v], [ExternalCliPresets.v], [ExternalCliTemplates.v],
      [ExternalCliRegistry.v], [ExternalCliSpec.v], [ExternalCliTool.v],
      [ExternalCliToolSpec.v]: [openclaw/core/models_external_cli.go],
      [openclaw/core/external_cli.go] and [agent/tool/externalcli/tool.go]:
      configurations merged into presets, templates of arguments, the registry
      that prepares commands, the runner and the tool.  Presets stay governed;
      every argument is a checked value in its template; fingerprints identify
      commands; what runs is what was described.
    - [Chat.v]: contents of messages ([extensions_ai/abstractions/contents]),
      media markers, the estimate of tokens.
    - [Goal.v], [GoalAgent.v]: [openclaw/core/goal_models.go], [goal.go] (the
      in-memory service), [openclaw/agent/goal.go] and
      [agent/tool/goal/update.go].  The agent is proved against the class
      [IGoalService] with [GoalServiceLaws]; the in-memory service is an
      instance.  Completion is final, the continuation logic refines a pure
      decision, the limit of ten, the deadlock of [UpdateModelStatus].

    Sessions and memory:
    - [SessionModels.v], [Sessions.v], [SessionsSpec.v], [SessionLocks.v]:
      [openclaw/core/session_models.go] and [session.go].  The manager is proved
      against the class [IMemoryStore] with [MemoryStoreLaws]; active sessions
      are counted and limited; leases exclude each other.  [AgentTurn.v] takes
      sessions with counters, as [DefaultSession] makes them;
      [managed_sessions_panic] shows that the manager gives none.
    - [FileStore.v], [FileStoreSpec.v]: [FileMemoryStore] of
      [openclaw/core/memory_store.go], the instance of the interface.  Saved
      sessions survive failing saves and restarts; which keys of notes do.
    - [Middleware.v]: [openclaw/core/middleware.go].  The pipeline, token and
      cost budgets, and the rate limit, which is a sliding window however calls
      overlap ([rate_step]), but for one race that an example shows.
    - [NamedLocks.v], [RecentSenders.v]: [openclaw/util/locker.go] as a step
      relation of any number of goroutines, and [RecentSendersStore] of
      [openclaw/core/pipeline.go], whose recordings run under such locks: none
      is lost.
    - [ContextPlanner.v]: [openclaw/core/memory_planner.go].  What is recalled
      for a prompt stays within its budget of characters, also when it is cut.

    Meta-skill plans, programs of steps a skill consists of:
    - [MetaPlan.v], [MetaCondition.v], [MetaLoader.v]: the data, validation and
      route planner, conditions ([openclaw/core/skills_meta.go],
      [openclaw/agent/agent_runtime.go]), and the loading of plans
      ([openclaw/core/skills_loader.go]).  The validation accepts exactly the
      well-formed plans; loaded plans are typed; conditions are disjunctions of
      conjunctions.
    - [MetaPolicy.v], [MetaRun.v], [MetaRunSpec.v]: running a plan
      ([ExecuteMetaSkill]).  The sets of the run move in two ways only; plans
      without routes end.

    Services and policies:
    - [CircuitBreaker.v]: [openclaw/circuitbreaker/circuit.go].  The record
      [CircuitBreaker] is the struct; [exec_admit] and [exec_finish] are the two
      critical sections of [Execute], and [cb_step] interleaves any number of
      calls.
    - [PaymentModels.v], [PaymentVault.v], [PaymentRuntime.v]:
      [openclaw/payments/models.go], [vault.go], and [policy.go], [audit.go],
      [payment.go].  The runtime calls the vault, a policy (class
      [IPaymentPolicy] with [PaymentPolicyLaws]), providers and an approval
      service; calls to the outside are recorded in a trace.
    - [Security.v], [Pairing.v]: [openclaw/core/security.go].  The glob matcher
      decides the declarative glob language; a sender is paired only by list,
      administrator or code, with at most seven wrong codes counted per code.
    - [PathPolicy.v], [Paths.v], [Disk.v], [ApplyPatch.v]:
      [openclaw/agent/tool/pathpolicy/policy.go], [openclaw/util/file_dir.go]
      (the functions used), [openclaw/agent/tool/applypatch/tool.go].
    - [SemVer.v], [BundleUpdater.v], [BundleUpdaterSpec.v]:
      [openclaw/core/bundle_updater.go].  Versions are compared as the semantic
      versions they are printed from; what is
      installed was signed and checked, extraction stays inside, failing
      installations keep what is there, a rollback undoes a rollback.
    - [Mqtt.v]: [openclaw/agent/tool/mqtt] and [agent/integration_mqtt.go].
    - [Cron.v], [Loops.v], [CronScheduler.v]: [openclaw/util/cron.go],
      [openclaw/core/loops.go] with [agent/tool/loopcontrol], and [CronScheduler]
      and [SessionAbortRegistry] of [openclaw/core/pipeline.go].  The schedules
      of the cron library are an argument; loops run when the next instant of
      theirs is reached; the overlap guard of the scheduler is inverted.
    - [ChatCommands.v]: [ChatCommandProcessor] of [openclaw/core/pipeline.go],
      over the goal service as an interface: commands keep settings valid and
      save what they change.

    The other programs:
    - [Tokenizer.v]: [2025/openai-tokenizer].  The expression that splits a text
      covers all of it; encoding and decoding are inverse; byte-pair encoding refines the greedy least-rank merge.
    - [Ipam.v]: [2026/container/network/ipam.go].  Releasing undoes allocating;
      successive addresses are distinct until the subnet is full.
    - [Pipeline.v]: [kernel_memory/abstractions/pipeline/datapipeline.go] and
      [kernel_memory/core/pipeline].  The run loop invokes each step once in
      order and stores the completed status, or runs for ever on a failing
      step.

    Shared: this file (Go effects: a value, a panic, a goroutine blocked for
    ever; [(value, error)] pairs, the state monad [GoM], machine integers, step
    relations, hints and tactics); [GoStrings.v], [Encoding.v], [Utf8.v],
    [Regex.v], [Float64.v], [Json.v] (the standard library's strings, SHA-256 and base-64,
    regular expressions, doubles, decoded JSON); [Effects.v] (a state monad over
    a world that keeps a trace).

    ** Conventions

    A struct is a record, a method a function of the receiver, error paths are
    [Fail], run-time panics [Panic], a mutex waited for by its holder
    [Deadlock].  [int] is [Z] with [wrap64] where a result can leave the range,
    durations and times are nanoseconds with [sat64] for differences.  Code
    outside the repository, clocks, random draws and devices are arguments,
    section variables or the operations of a class; what is assumed of them is a
    named hypothesis or class law, and a theorem with hypotheses has a closed
    instance next to it.

    ** Fuel

    Recursion on fuel and why it is enough:
    - loops over strings ([GoStrings], [Security.glob_loop],
      [Cron.IsValidCronField], [Tokenizer.bpe_loop] and the splitting of a text
      into words, the search loops of
      [Regex], [Loops.whole_keyword_from]): the length, since every round consumes a byte or merges two
      symbols; [Encoding.sha_blocks]: the length, 64 bytes a block;
    - [MetaPlan]: the depth-first search of cycles has the number of steps and
      one more, the blocking of dependents the number of dependencies and one
      more; both are enough for every plan;
    - [MetaRun.run_loop] and [Pipeline.run_loop] answer [None] while they still
      run; that they end, or never do, are theorems;
    - [MetaInvoke.ExecuteMetaSkill]: how deep meta skills nest; theorems hold for
      every depth, and whatever returns nests to some depth;
    - [Middleware.next]: the number of middlewares, since the shared index only
      grows; [Sessions.evict_loop]: the limit and one more, since every round
      but the last takes a session out;
    - [PathPolicy.resolveRealPathInternal] recurses on the code's own bound.

    ** Not modelled

    Network, process and terminal code, the codecs of structs, databases and
    generated code; the Postgres and SQLite stores and the Postgres goal
    service; floating-point statistics; interleavings inside methods of
    [PairingManager], of the goal service and of the file store.  An executor
    with tools cannot be constructed by [NewOpenClawToolExecutor], because
    [CreateDeclaration] panics; [ToolExecutor.v] takes one that is there.
    How the capability executor picks steps; process backends; [RunStreaming]
    and the texts injected for memories and profiles; retention,
    the channels of the message pipeline and the validation of the configuration
    of openclaw; the chunkers and queues of kernel_memory; the parser of
    server-sent events. *)

From stdpp Require Export prelude gmap strings list.
From Stdlib Require Export ZArith Lia.

#[global] Set Default Goal Selector "!".


(** ** Outcomes of a Go statement

    [Done] is normal completion.  [Panic] is a run-time panic (nil
    dereference, index out of range, assignment to a nil map, division by
    zero).  [Deadlock] is a goroutine that waits for a [sync.Mutex] it already
    holds: [sync.Mutex] is not re-entrant, so it never continues. *)
Inductive go (A : Type) : Type :=
  | Done (a : A)
  | Panic
  | Deadlock.
Arguments Done {A} a.
Arguments Panic {A}.
Arguments Deadlock {A}.

#[export] Instance go_ret : MRet go := λ A a, Done a.
#[export] Instance go_bind : MBind go := λ A B f m,
  match m with Done a => f a | Panic => Panic | Deadlock => Deadlock end.

(** ** The pair [(value, error)] of a Go function

    Exactly one of the two is meaningful at every return of the modelled
    functions, so the pair is a sum.  Errors are carried by their text. *)
Inductive res (A : Type) : Type :=
  | Ok (a : A)
  | Fail (e : string).
Arguments Ok {A} a.
Arguments Fail {A} e.

#[export] Instance res_ret : MRet res := λ A a, Ok a.
#[export] Instance res_bind : MBind res := λ A B f m,
  match m with Ok a => f a | Fail e => Fail e end.

#[export] Instance res_eq_dec `{EqDecision A} : EqDecision (res A).
Proof. solve_decision. Defined.
#[export] Instance go_eq_dec `{EqDecision A} : EqDecision (go A).
Proof. solve_decision. Defined.

Definition is_ok {A} (r : res A) : bool := match r with Ok _ => true | Fail _ => false end.

(** ** State and panic

    A method on a mutable receiver of type [S] that returns an [A]. *)
Definition GoM (S A : Type) : Type := S → go (A * S).

#[export] Instance GoM_ret S : MRet (GoM S) := λ A a s, Done (a, s).
#[export] Instance GoM_bind S : MBind (GoM S) := λ A B f m s,
  match m s with
  | Done (a, s') => f a s'
  | Panic => Panic
  | Deadlock => Deadlock
  end.

Definition gets {S A} (f : S → A) : GoM S A := λ s, Done (f s, s).
Definition modifies {S} (f : S → S) : GoM S () := λ s, Done (tt, f s).

(** Waiting for a mutex the goroutine already holds. *)
Definition deadlocked {S A} : GoM S A := λ _, Deadlock.

(** A computation given fuel: [None] when the fuel ran out. *)
Definition fueled_bind {A B} (m : option (go A)) (f : A → option (go B)) : option (go B) :=
  match m with
  | Some (Done a) => f a
  | Some Panic => Some Panic
  | Some Deadlock => Some Deadlock
  | None => None
  end.
Notation "x ←! m ; k" := (fueled_bind m (λ x, k))
  (at level 20, m at level 100, k at level 200, right associativity).
Notation "' x ←! m ; k" := (fueled_bind m (λ y, match y with x => k end))
  (at level 20, x pattern, m at level 100, k at level 200, right associativity).
Definition finish {A} (a : A) : option (go A) := Some (Done a).

Lemma GoM_bind_done {S A B} (m : GoM S A) (f : A → GoM S B) s a s1 :
  m s = Done (a, s1) → (m ≫= f) s = f a s1.
Proof. intros H. unfold mbind, GoM_bind. by rewrite H. Qed.

Lemma GoM_bind_inv {S A B} (m : GoM S A) (f : A → GoM S B) s b s2 :
  (m ≫= f) s = Done (b, s2) → ∃ a s1, m s = Done (a, s1) ∧ f a s1 = Done (b, s2).
Proof. unfold mbind, GoM_bind. destruct (m s) as [[a s1] | |]; [eauto | done..]. Qed.

(** ** Machine integers *)

(** [int]/[int64] arithmetic wraps modulo [2^64] into [[-2^63, 2^63)]. *)
Definition min_int64 : Z := -2^63.
Definition max_int64 : Z := 2^63 - 1.
Definition in_int64 (z : Z) : Prop := (min_int64 ≤ z ≤ max_int64)%Z.
#[export] Instance in_int64_dec z : Decision (in_int64 z).
Proof. unfold in_int64. apply _. Defined.
Definition wrap64 (z : Z) : Z := ((z + 2^63) mod 2^64 - 2^63)%Z.

(** [time.Duration] differences ([Time.Sub], [time.Since], [time.Until])
    saturate instead of wrapping. *)
Definition sat64 (z : Z) : Z := Z.max min_int64 (Z.min max_int64 z).

(** [uint8] arithmetic. *)
Definition wrap8 (z : Z) : Z := (z mod 2^8)%Z.

Lemma wrap64_id z : in_int64 z → wrap64 z = z.
Proof.
  unfold in_int64, wrap64, min_int64, max_int64. intros H.
  rewrite Z.mod_small; lia.
Qed.

Lemma wrap64_range z : in_int64 (wrap64 z).
Proof.
  unfold in_int64, wrap64, min_int64, max_int64.
  pose proof (Z.mod_pos_bound (z + 2^63) (2^64)). lia.
Qed.

Lemma wrap8_range z : (0 ≤ wrap8 z < 256)%Z.
Proof. unfold wrap8. apply (Z.mod_pos_bound z 256). lia. Qed.

Lemma wrap8_id z : (0 ≤ z < 256)%Z → wrap8 z = z.
Proof. intros H. unfold wrap8. apply Z.mod_small. exact H. Qed.

(** Comparing a saturated difference with a duration is comparing the exact
    difference with it. *)
Lemma sat64_ge z d : (min_int64 < d ≤ max_int64)%Z → (d ≤ sat64 z ↔ d ≤ z)%Z.
Proof. unfold sat64, min_int64, max_int64. lia. Qed.

Lemma sat64_id z : in_int64 z → sat64 z = z.
Proof. unfold in_int64, sat64, min_int64, max_int64. lia. Qed.

(** ** Automation *)

Create HintDb goproj.
Create Rewrite HintDb goproj.
#[export] Hint Resolve wrap64_range wrap8_range : goproj.
#[export] Hint Rewrite wrap64_id wrap8_id sat64_id using (unfold in_int64, min_int64, max_int64 in *; lia) : goproj.

(** Split every boolean test of the goal and the context into its two cases,
    with the arithmetic or equality fact it decides. *)
Ltac case_bool :=
  match goal with
  | |- context [Z.ltb ?a ?b] => destruct (Z.ltb_spec a b)
  | |- context [Z.leb ?a ?b] => destruct (Z.leb_spec a b)
  | |- context [Z.eqb ?a ?b] => destruct (Z.eqb_spec a b)
  | |- context [bool_decide ?P] => case_bool_decide
  | H : context [Z.ltb ?a ?b] |- _ => destruct (Z.ltb_spec a b)
  | H : context [Z.leb ?a ?b] |- _ => destruct (Z.leb_spec a b)
  | H : context [Z.eqb ?a ?b] |- _ => destruct (Z.eqb_spec a b)
  | H : context [bool_decide ?P] |- _ => case_bool_decide
  end.

(** Case on the scrutinee of the next [match] or [if] of the goal. *)
Ltac case_next :=
  match goal with
  | |- context [match ?x with _ => _ end] => destruct x eqn:?
  end.

(** The same in a hypothesis. *)
Ltac case_hyp H :=
  match type of H with
  | context [match ?x with _ => _ end] => destruct x eqn:?
  end.

(** ** Reachability

    [steps R s l s'] runs the labelled transitions [l] from [s]. *)
Section Steps.
Context {S L : Type} (R : S → L → S → Prop).

Inductive steps : S → list L → S → Prop :=
  | steps_nil s : steps s [] s
  | steps_cons s1 l s2 ls s3 : R s1 l s2 → steps s2 ls s3 → steps s1 (l :: ls) s3.

(** An invariant of every transition is an invariant of every run. *)
Lemma steps_invariant (I : S → Prop) :
  (∀ s l s', I s → R s l s' → I s') →
  ∀ s ls s', steps s ls s' → I s → I s'.
Proof. intros Hstep s ls s' Hrun. induction Hrun; eauto. Qed.

Lemma steps_app s1 l1 s2 l2 s3 :
  steps s1 l1 s2 → steps s2 l2 s3 → steps s1 (l1 ++ l2) s3.
Proof. intros H1 H2. induction H1; simpl; [done | econstructor; eauto]. Qed.

(** The same for a transition restricted to some labels. *)
Lemma steps_invariant_on (P : L → Prop) (I : S → Prop) :
  (∀ s l s', P l → I s → R s l s' → I s') →
  ∀ s ls s', Forall P ls → steps s ls s' → I s → I s'.
Proof.
  intros Hstep s ls s' HP Hrun. induction Hrun; [done |].
  inversion HP; subst. eauto.
Qed.
End Steps.
#[export] Hint Constructors steps : goproj.
