(* ===== verification/Float64.v ===== *)
(** The [float64] of Go: IEEE 754 doubles as the Standard Library specifies
    them.  Comparisons, difference, sum and magnitude, and the order of the
    numbers that are not NaN. *)

From S2P Require Import Prelude.
From Stdlib Require Import SpecFloat.

Definition float64 : Type := spec_float.

(** 53 bits, exponents up to 1024. *)
Definition f_sub (x y : float64) : float64 := SFsub 53 1024 x y.
Definition f_add (x y : float64) : float64 := SFadd 53 1024 x y.
Definition f_abs (x : float64) : float64 := SFabs x.
Definition f_ltb (x y : float64) : bool := SFltb x y.
Definition f_leb (x y : float64) : bool := SFleb x y.

Definition f_zero : float64 := S754_zero false.
Definition f_one : float64 := S754_finite false (2^52) (-52).

Definition f_minus_one : float64 := S754_finite true (2^52) (-52).
Definition f_infinity : float64 := S754_infinity false.

(** An integer constant, and a decimal one, [n / 10 ^ d], as the compiler rounds
    them. *)
Definition f_integer (n : positive) : float64 := binary_normalize 53 1024 (Zpos n) 0 false.
Definition f_decimal (n d : positive) : float64 := SFdiv 53 1024 (f_integer n) (f_integer (10 ^ d)).
Definition f_eqb (x y : float64) : bool := SFeqb x y.

Definition is_number (x : float64) : Prop := match x with S754_nan => False | _ => True end.

#[export] Instance float64_eq_dec : EqDecision float64.
Proof. intros x y. unfold Decision, float64 in *. decide equality; try apply Z.eq_dec; try apply Bool.bool_dec; apply Pos.eq_dec. Defined.

(** ** The order *)

Definition descending (x y : float64) : Prop := Is_true (f_leb y x).
#[export] Instance descending_dec : RelDecision descending.
Proof. intros x y. unfold descending. apply _. Defined.

(** Numbers compare as the triples of a sign, a signed exponent and a signed
    mantissa. *)
Definition rank (x : float64) : Z * Z * Z :=
  match x with
  | S754_infinity true => (-2, 0, 0)
  | S754_finite true m e => (-1, - e, Z.neg m)
  | S754_zero _ | S754_nan => (0, 0, 0)
  | S754_finite false m e => (1, e, Z.pos m)
  | S754_infinity false => (2, 0, 0)
  end%Z.

Definition rank_compare (a b : Z * Z * Z) : comparison :=
  match (a.1.1 ?= b.1.1)%Z with
  | Eq => match (a.1.2 ?= b.1.2)%Z with Eq => (a.2 ?= b.2)%Z | c => c end
  | c => c
  end.

Lemma SFcompare_rank x y : is_number x → is_number y → SFcompare x y = Some (rank_compare (rank x) (rank y)).
Proof.
  intros Hx Hy. destruct x as [sx | [] | | [] mx ex], y as [sy | [] | | [] my ey]; try done; unfold rank_compare; simpl.
  - rewrite Z.compare_opp, (Z.compare_antisym ex ey). by destruct (ex ?= ey)%Z.
Qed.

Lemma rank_compare_antisym a b : rank_compare b a = CompOpp (rank_compare a b).
Proof.
  unfold rank_compare. rewrite (Z.compare_antisym a.1.1 b.1.1), (Z.compare_antisym a.1.2 b.1.2), (Z.compare_antisym a.2 b.2).
  by destruct (a.1.1 ?= b.1.1)%Z, (a.1.2 ?= b.1.2)%Z.
Qed.

Lemma rank_compare_lt a b : rank_compare a b = Lt ↔
  (a.1.1 < b.1.1 ∨ a.1.1 = b.1.1 ∧ (a.1.2 < b.1.2 ∨ a.1.2 = b.1.2 ∧ a.2 < b.2))%Z.
Proof.
  unfold rank_compare. destruct (Z.compare_spec a.1.1 b.1.1), (Z.compare_spec a.1.2 b.1.2), (Z.compare_spec a.2 b.2);
    split; try done; lia.
Qed.

Lemma f_ltb_rank x y : is_number x → is_number y → f_ltb x y = true ↔ rank_compare (rank x) (rank y) = Lt.
Proof. intros Hx Hy. unfold f_ltb, SFltb. rewrite SFcompare_rank by done. by destruct (rank_compare _ _). Qed.

Lemma f_leb_ltb x y : is_number x → is_number y → f_leb x y = negb (f_ltb y x).
Proof.
  intros Hx Hy. unfold f_leb, f_ltb, SFleb, SFltb. rewrite !SFcompare_rank by done.
  rewrite (rank_compare_antisym (rank x) (rank y)). by destruct (rank_compare _ _).
Qed.

Lemma f_ltb_trans x y z : is_number x → is_number y → is_number z → f_ltb x y = true → f_ltb y z = true → f_ltb x z = true.
Proof. intros Hx Hy Hz. rewrite !f_ltb_rank, !rank_compare_lt by done. lia. Qed.

Lemma f_ltb_irrefl x : f_ltb x x = false.
Proof.
  destruct x as [| | | s m e]; try done.
  { by destruct s. }
  destruct (f_ltb _ _) eqn:H; [| done]. apply f_ltb_rank, rank_compare_lt in H; [lia | done..].
Qed.

Lemma f_leb_refl x : is_number x → f_leb x x = true.
Proof. intros H. by rewrite f_leb_ltb, f_ltb_irrefl. Qed.

Lemma f_leb_trans x y z : is_number x → is_number y → is_number z → f_leb x y = true → f_leb y z = true → f_leb x z = true.
Proof.
  intros Hx Hy Hz. rewrite !f_leb_ltb, !negb_true_iff by done. rewrite <- !not_true_iff_false, !f_ltb_rank, !rank_compare_lt by done.
  lia.
Qed.

Lemma f_leb_total x y : is_number x → is_number y → f_leb x y = true ∨ f_leb y x = true.
Proof.
  intros Hx Hy. rewrite !f_leb_ltb, !negb_true_iff by done. rewrite <- !not_true_iff_false, !f_ltb_rank, !rank_compare_lt by done.
  lia.
Qed.

(** Comparing with NaN is false. *)
Lemma f_leb_number x y : f_leb x y = true → is_number x ∧ is_number y.
Proof. by destruct x, y. Qed.
