(* ===== verification/CircuitBreaker.v ===== *)
(** The circuit breaker of [openclaw/circuitbreaker/circuit.go].

    State: the record [CircuitBreaker], one field per field of the Go struct
    (the mutex and the logger aside).  Every method body runs under the mutex,
    so it is one atomic function of the breaker and the clock reading.
    [Execute] is two such functions, [exec_admit] before the action and
    [exec_finish] after it, because the mutex is released while the action
    runs; [cb_step] interleaves any number of them with the other methods.

    Times and durations are nanoseconds.  The conversion of an out-of-range
    float to [time.Duration] is implementation-dependent in Go, so its value
    is the parameter [f2i_undef]. *)

From S2P Require Import Prelude.
Local Open Scope Z_scope.

Inductive CircuitState := StateClosed | StateOpen | StateHalfOpen.

#[export] Instance CircuitState_eq_dec : EqDecision CircuitState.
Proof. solve_decision. Defined.

Definition CircuitState_String (s : CircuitState) : string :=
  match s with
  | StateClosed => "Closed"
  | StateOpen => "Open"
  | StateHalfOpen => "HalfOpen"
  end.

Record CircuitBreaker := mkCB {
  failureThreshold : Z;
  baseCooldown : Z;
  maxCooldown : Z;
  consecutiveFailures : Z;
  probeFailures : Z;
  openedAt : Z;
  currentCooldown : Z;
  state : CircuitState;
  halfOpenProbeActive : bool
}.

#[export] Instance CircuitBreaker_eq_dec : EqDecision CircuitBreaker.
Proof. solve_decision. Defined.

(** [ErrCircuitOpen]: the only error the breaker itself produces. *)
Record ErrCircuitOpen := mkErrOpen { RetryAfter : Z }.

Definition second : Z := 1000000000.
Definition minute : Z := 60 * second.

(** ** Construction *)

(** [type Option func( *CircuitBreaker)] *)
Inductive Option :=
  | WithFailureThreshold (threshold : Z)
  | WithCooldown (cooldown : Z).

Definition apply_option (cb : CircuitBreaker) (o : Option) : CircuitBreaker :=
  match o with
  | WithFailureThreshold threshold =>
      mkCB (if threshold <? 1 then 1 else threshold)
        (baseCooldown cb) (maxCooldown cb) (consecutiveFailures cb)
        (probeFailures cb) (openedAt cb) (currentCooldown cb) (state cb)
        (halfOpenProbeActive cb)
  | WithCooldown cooldown =>
      mkCB (failureThreshold cb) cooldown (maxCooldown cb)
        (consecutiveFailures cb) (probeFailures cb) (openedAt cb) cooldown
        (state cb) (halfOpenProbeActive cb)
  end.

Definition New (opts : list Option) : CircuitBreaker :=
  fold_left apply_option opts
    (mkCB 5 (30 * second) (5 * minute) 0 0 0 (30 * second) StateClosed false).

(** ** Time *)

(** [time.Since(cb.openedAt) >= cb.currentCooldown] *)
Definition cooldown_elapsed (cb : CircuitBreaker) (now : Z) : bool :=
  currentCooldown cb <=? sat64 (now - openedAt cb).

(** [time.Until(cb.openedAt.Add(cb.currentCooldown))] *)
Definition retry_after (cb : CircuitBreaker) (now : Z) : Z :=
  sat64 (openedAt cb + currentCooldown cb - now).

(** ** Methods *)

Definition set_state (s : CircuitState) (probe : bool) (cb : CircuitBreaker) : CircuitBreaker :=
  mkCB (failureThreshold cb) (baseCooldown cb) (maxCooldown cb)
    (consecutiveFailures cb) (probeFailures cb) (openedAt cb)
    (currentCooldown cb) s probe.

Definition Reset (cb : CircuitBreaker) : CircuitBreaker :=
  mkCB (failureThreshold cb) (baseCooldown cb) (maxCooldown cb) 0 0
    (openedAt cb) (baseCooldown cb) StateClosed false.

Definition ThrowIfOpen (cb : CircuitBreaker) (now : Z) : CircuitBreaker * option ErrCircuitOpen :=
  match state cb with
  | StateOpen =>
      if cooldown_elapsed cb now
      then (set_state StateHalfOpen (halfOpenProbeActive cb) cb, None)
      else (cb, Some (mkErrOpen (retry_after cb now)))
  | _ => (cb, None)
  end.

(** The guarded section at the head of [Execute]. *)
Definition exec_admit (cb : CircuitBreaker) (now : Z) : CircuitBreaker * option ErrCircuitOpen :=
  match state cb with
  | StateOpen =>
      if cooldown_elapsed cb now
      then (set_state StateHalfOpen true cb, None)
      else (cb, Some (mkErrOpen (retry_after cb now)))
  | StateHalfOpen =>
      if halfOpenProbeActive cb
      then (cb, Some (mkErrOpen (retry_after cb now)))
      else (set_state StateHalfOpen true cb, None)
  | StateClosed => (cb, None)
  end.

Definition onSuccess (cb : CircuitBreaker) : CircuitBreaker :=
  if bool_decide (state cb = StateClosed) && (consecutiveFailures cb =? 0)
  then cb
  else Reset cb.

Section Backoff.
(** Value of a [float64] to [int64] conversion whose operand (the base
    cooldown times [2^k]) does not fit. *)
Variable f2i_undef : Z → Z → Z.

(** [float64(z)]: round to 53 significant bits, ties to even. *)
Definition float64_of_int (z : Z) : Z :=
  let a := Z.abs z in
  let e := Z.max 0 (Z.log2 a - 52) in
  let q := a / 2^e in
  let r := a mod 2^e in
  let half := 2^e / 2 in
  let q' := if e =? 0 then q
            else if r <? half then q
            else if half <? r then q + 1
            else if Z.even q then q else q + 1 in
  Z.sgn z * (q' * 2^e).

(** [time.Duration(float64(base) * math.Pow(2, float64(k)))].  The product
    is exact, and [math.Pow(2, k)] is infinite from [k = 1024] on. *)
Definition scaled_duration (base k : Z) : Z :=
  let x := float64_of_int base * 2^k in
  if (k <? 1024) && (min_int64 <=? x) && (x <=? max_int64) then x
  else f2i_undef base k.

Definition computeBackoffCooldown (cb : CircuitBreaker) (probes : Z) : Z :=
  let probes := if probes <? 1 then 1 else probes in
  let cooldown := scaled_duration (baseCooldown cb) probes in
  if maxCooldown cb <? cooldown then maxCooldown cb else cooldown.

Definition onFailure (cb : CircuitBreaker) (now : Z) : CircuitBreaker :=
  let cf := wrap64 (consecutiveFailures cb + 1) in
  match state cb with
  | StateHalfOpen =>
      let pf := wrap64 (probeFailures cb + 1) in
      mkCB (failureThreshold cb) (baseCooldown cb) (maxCooldown cb) cf pf now
        (computeBackoffCooldown cb pf) StateOpen false
  | StateClosed =>
      if failureThreshold cb <=? cf
      then mkCB (failureThreshold cb) (baseCooldown cb) (maxCooldown cb) cf 0
             now (baseCooldown cb) StateOpen false
      else mkCB (failureThreshold cb) (baseCooldown cb) (maxCooldown cb) cf
             (probeFailures cb) (openedAt cb) (currentCooldown cb)
             StateClosed (halfOpenProbeActive cb)
  | StateOpen =>
      mkCB (failureThreshold cb) (baseCooldown cb) (maxCooldown cb) cf
        (probeFailures cb) (openedAt cb) (currentCooldown cb) StateOpen
        (halfOpenProbeActive cb)
  end.

Definition RecordSuccess (cb : CircuitBreaker) : CircuitBreaker := onSuccess cb.
Definition RecordFailure (cb : CircuitBreaker) (now : Z) : CircuitBreaker := onFailure cb now.

(** How the user's action can end: a value, an error for which
    [errors.Is(err, context.Canceled) || errors.Is(err, context.DeadlineExceeded)]
    holds, any other error, a panic. *)
Inductive Action (T : Type) :=
  | ActValue (v : T)
  | ActCancelled (e : string)
  | ActError (e : string)
  | ActPanic.

(** What [Execute] hands back. *)
Inductive ExecResult (T : Type) :=
  | ExecRejected (e : ErrCircuitOpen)
  | ExecErr (e : string)
  | ExecOk (v : T).

(** The part of [Execute] after the action returned, at time [now]. *)
Definition exec_finish {T} (cb : CircuitBreaker) (now : Z) (a : Action T) : CircuitBreaker :=
  match a with
  | ActValue _ _ => onSuccess cb
  | ActError _ _ => onFailure cb now
  | ActCancelled _ _ | ActPanic _ => cb
  end.

(** [Execute] when nothing else touches the breaker meanwhile: admission at
    [t0], the action, its outcome recorded at [t1]. *)
Definition Execute {T} (cb : CircuitBreaker) (t0 t1 : Z) (action : Action T)
    : CircuitBreaker * go (ExecResult T) :=
  match exec_admit cb t0 with
  | (cb, Some e) => (cb, Done (ExecRejected T e))
  | (cb, None) =>
      (exec_finish cb t1 action,
       match action with
       | ActValue _ v => Done (ExecOk T v)
       | ActCancelled _ e | ActError _ e => Done (ExecErr T e)
       | ActPanic _ => Panic
       end)
  end.

(** ** Concurrent use

    [running] holds the calls of [Execute] whose action is in progress.  A
    label names the call and its observable outcome. *)
Record Config := mkConfig { breaker : CircuitBreaker; running : gset nat }.

Inductive Outcome := OValue | OCancelled | OError | OPanic.

Definition outcome_action (o : Outcome) : Action () :=
  match o with
  | OValue => ActValue () ()
  | OCancelled => ActCancelled () "context canceled"
  | OError => ActError () "error"
  | OPanic => ActPanic ()
  end.

Inductive Event :=
  | EvAdmitted (call : nat) (now : Z)
  | EvRejected (call : nat) (now : Z)
  | EvFinished (call : nat) (now : Z) (o : Outcome)
  | EvThrowIfOpen (now : Z)
  | EvRecordSuccess
  | EvRecordFailure (now : Z)
  | EvReset.

Inductive cb_step : Config → Event → Config → Prop :=
  | step_admit cb run c now cb' :
      c ∉ run → exec_admit cb now = (cb', None) →
      cb_step (mkConfig cb run) (EvAdmitted c now) (mkConfig cb' ({[c]} ∪ run))
  | step_reject cb run c now cb' e :
      c ∉ run → exec_admit cb now = (cb', Some e) →
      cb_step (mkConfig cb run) (EvRejected c now) (mkConfig cb' run)
  | step_finish cb run c now o :
      c ∈ run →
      cb_step (mkConfig cb run) (EvFinished c now o)
        (mkConfig (exec_finish cb now (outcome_action o)) (run ∖ {[c]}))
  | step_throw cb run now :
      cb_step (mkConfig cb run) (EvThrowIfOpen now)
        (mkConfig (fst (ThrowIfOpen cb now)) run)
  | step_success cb run :
      cb_step (mkConfig cb run) EvRecordSuccess (mkConfig (RecordSuccess cb) run)
  | step_failure cb run now :
      cb_step (mkConfig cb run) (EvRecordFailure now) (mkConfig (RecordFailure cb now) run)
  | step_reset cb run :
      cb_step (mkConfig cb run) EvReset (mkConfig (Reset cb) run).

Definition reachable (opts : list Option) (c : Config) : Prop :=
  ∃ evs, steps cb_step (mkConfig (New opts) ∅) evs c.
End Backoff.

(** ** Specification vocabulary *)

Section Specification.
Variable f2i_undef : Z → Z → Z.

(** The cooldown recorded with a trip: the base one for a trip out of
    Closed, the backed-off one for a failed probe. *)
Definition cooldown_ok (cb : CircuitBreaker) : Prop :=
  (probeFailures cb = 0 ∧ currentCooldown cb = baseCooldown cb) ∨
  currentCooldown cb = computeBackoffCooldown f2i_undef cb (probeFailures cb).

(** The invariant of the breaker. *)
Definition wf (cb : CircuitBreaker) : Prop :=
  1 ≤ failureThreshold cb ∧
  (halfOpenProbeActive cb = true → state cb = StateHalfOpen) ∧
  match state cb with
  | StateClosed =>
      consecutiveFailures cb < failureThreshold cb ∧ probeFailures cb = 0 ∧
      currentCooldown cb = baseCooldown cb ∧ halfOpenProbeActive cb = false
  | _ => cooldown_ok cb
  end.
End Specification.

(** Events that record an outcome or reset the breaker. *)
Definition records_outcome (e : Event) : bool :=
  match e with
  | EvFinished _ _ (OValue | OError) | EvRecordSuccess | EvRecordFailure _ | EvReset => true
  | _ => false
  end.

Definition is_admission (e : Event) : bool :=
  match e with EvAdmitted _ _ => true | _ => false end.

(** Half-open with the probe out. *)
Definition probing (cb : CircuitBreaker) : Prop :=
  state cb = StateHalfOpen ∧ halfOpenProbeActive cb = true.

Definition admissions (evs : list Event) : nat := length (filter (λ e, is_admission e = true) evs).

(** Events callers of [Execute] and [ThrowIfOpen] can cause. *)
Definition caller_event (e : Event) : bool :=
  match e with
  | EvRecordSuccess | EvRecordFailure _ | EvReset => false
  | _ => true
  end.

(** ** Helper lemmas *)

Lemma cooldown_elapsed_spec cb now :
  in_int64 (currentCooldown cb) → min_int64 < currentCooldown cb →
  cooldown_elapsed cb now = true ↔ openedAt cb + currentCooldown cb ≤ now.
Proof.
  intros Hc Hm. unfold cooldown_elapsed. rewrite Z.leb_le.
  rewrite sat64_ge by (unfold in_int64 in Hc; lia). lia.
Qed.

Lemma float64_of_int_exact z : Z.abs z < 2^53 → float64_of_int z = z.
Proof.
  intros Hz. unfold float64_of_int.
  assert (Hlog : Z.log2 (Z.abs z) ≤ 52).
  { destruct (Z.eq_dec (Z.abs z) 0) as [-> | Hnz]; [done |].
    assert (Z.log2 (Z.abs z) < 53); [| lia].
    apply Z.log2_lt_pow2; lia. }
  rewrite Z.max_l by lia. simpl. rewrite Z.div_1_r, Z.mul_1_r.
  rewrite Z.mul_comm. apply Z.abs_sgn.
Qed.

Lemma New_fields opts :
  let cb := New opts in
  1 ≤ failureThreshold cb ∧ maxCooldown cb = 5 * minute ∧
  consecutiveFailures cb = 0 ∧ probeFailures cb = 0 ∧
  currentCooldown cb = baseCooldown cb ∧ state cb = StateClosed ∧
  halfOpenProbeActive cb = false.
Proof.
  unfold New. cbv zeta.
  pose (I cb := 1 ≤ failureThreshold cb ∧ maxCooldown cb = 5 * minute ∧
    consecutiveFailures cb = 0 ∧ probeFailures cb = 0 ∧
    currentCooldown cb = baseCooldown cb ∧ state cb = StateClosed ∧
    halfOpenProbeActive cb = false).
  change (I (fold_left apply_option opts
    (mkCB 5 (30 * second) (5 * minute) 0 0 0 (30 * second) StateClosed false))).
  assert (I (mkCB 5 (30 * second) (5 * minute) 0 0 0 (30 * second) StateClosed false)) as HI.
  { unfold I. simpl. repeat split; try done; lia. }
  revert HI. generalize (mkCB 5 (30 * second) (5 * minute) 0 0 0 (30 * second) StateClosed false).
  induction opts as [| o opts IH]; intros cb HI; simpl; [done |].
  apply IH. destruct HI as (? & ? & ? & ? & ? & ? & ?).
  destruct o; unfold I; simpl; repeat split; try done; case_bool; lia.
Qed.

Section BackoffProofs.
Variable f2i_undef : Z → Z → Z.

Local Abbreviation compute := (computeBackoffCooldown f2i_undef).
Local Abbreviation wf := (wf f2i_undef).
Local Abbreviation fail := (onFailure f2i_undef).
Local Abbreviation finish := (exec_finish f2i_undef).

Lemma wf_New opts : wf (New opts).
Proof.
  pose proof (New_fields opts) as (? & ? & Hcf & ? & ? & Hs & Hp).
  unfold CircuitBreaker.wf. rewrite Hs, Hp, Hcf. repeat split; try done; lia.
Qed.

Lemma wf_Reset cb : 1 ≤ failureThreshold cb → wf (Reset cb).
Proof. intros H. unfold CircuitBreaker.wf; simpl. repeat split; try done; lia. Qed.

(** Under the invariant the early return of [onSuccess] is not observable. *)
Lemma onSuccess_Reset cb : wf cb → onSuccess cb = Reset cb.
Proof.
  intros (_ & _ & Hst). unfold onSuccess.
  case_bool_decide as Hs; simpl; [| done].
  destruct (Z.eqb_spec (consecutiveFailures cb) 0) as [Hcf |]; [| done].
  rewrite Hs in Hst. destruct Hst as (_ & Hpf & Hcc & Hp).
  destruct cb; unfold Reset; simpl in *; subst; done.
Qed.

Lemma wf_onSuccess cb : wf cb → wf (onSuccess cb).
Proof. intros H. rewrite onSuccess_Reset by done. apply wf_Reset, H. Qed.

Lemma wf_set_HalfOpen b cb : wf cb → state cb ≠ StateClosed → wf (set_state StateHalfOpen b cb).
Proof.
  unfold CircuitBreaker.wf, cooldown_ok. intros (Ht & _ & Hst) Hs. simpl.
  destruct (state cb); try done; repeat split; try done;
    destruct cb; simpl in *; tauto.
Qed.

Lemma wf_onFailure cb now : wf cb → wf (fail cb now).
Proof.
  intros (Ht & Hp & Hst). unfold CircuitBreaker.wf, onFailure, cooldown_ok in *.
  destruct (state cb) eqn:Hs; simpl.
  - destruct (Z.leb_spec (failureThreshold cb) (wrap64 (consecutiveFailures cb + 1)));
      simpl; repeat split; try done; try lia; try tauto.
  - repeat split; done.
  - repeat split; try done. by right.
Qed.

Lemma wf_finish {T} cb now (a : Action T) : wf cb → wf (finish cb now a).
Proof. destruct a; simpl; auto using wf_onSuccess, wf_onFailure. Qed.

Lemma wf_admit cb now cb' r : wf cb → exec_admit cb now = (cb', r) → wf cb'.
Proof.
  unfold exec_admit. intros Hwf.
  destruct (state cb) eqn:Hs; repeat case_match; intros; simplify_eq; try done;
    apply wf_set_HalfOpen; congruence.
Qed.

Lemma wf_ThrowIfOpen cb now : wf cb → wf (fst (ThrowIfOpen cb now)).
Proof.
  unfold ThrowIfOpen. intros Hwf.
  destruct (state cb) eqn:Hs; try done. case_match; simpl; [| done].
  apply wf_set_HalfOpen; congruence.
Qed.

#[local] Hint Resolve wf_New wf_onSuccess wf_onFailure wf_finish wf_admit wf_ThrowIfOpen wf_Reset : goproj.

Lemma wf_step c e c' : wf (breaker c) → cb_step f2i_undef c e c' → wf (breaker c').
Proof.
  intros Hwf Hstep. destruct Hstep; simpl in *; eauto with goproj.
  apply wf_Reset, Hwf.
Qed.

Lemma wf_reachable opts c : reachable f2i_undef opts c → wf (breaker c).
Proof.
  intros [evs Hrun].
  refine (steps_invariant _ (λ c, wf (breaker c)) _ _ _ _ Hrun _); simpl; auto with goproj.
  intros. by eapply wf_step.
Qed.

(** *** A half-open breaker whose probe is out *)

Lemma probing_admit cb now : probing cb → exec_admit cb now = (cb, Some (mkErrOpen (retry_after cb now))).
Proof. intros [Hs Hp]. unfold exec_admit. by rewrite Hs, Hp. Qed.

Lemma probing_step c e c' :
  records_outcome e = false → probing (breaker c) → cb_step f2i_undef c e c' →
  breaker c' = breaker c ∧ is_admission e = false.
Proof.
  intros He Hpr Hstep. destruct Hstep; simpl in *; try done;
    try (rewrite probing_admit in * by done; by simplify_eq).
  - by destruct o.
  - destruct Hpr as [Hs _]. unfold ThrowIfOpen. by rewrite Hs.
Qed.

Lemma probing_run c evs c' :
  Forall (λ e, records_outcome e = false) evs → probing (breaker c) →
  steps (cb_step f2i_undef) c evs c' →
  breaker c' = breaker c ∧ Forall (λ e, is_admission e = false) evs.
Proof.
  intros Hev Hpr Hrun. induction Hrun as [| s1 l s2 ls s3 Hstep Hrun IH]; [done |].
  inversion Hev as [| ? ? Hl Hls]; subst.
  destruct (probing_step _ _ _ Hl Hpr Hstep) as [Heq Hadm].
  rewrite Heq in IH. destruct (IH Hls Hpr) as [-> Hall]. by split; [| constructor].
Qed.

Lemma no_admissions evs : Forall (λ e, is_admission e = false) evs → admissions evs = 0%nat.
Proof.
  unfold admissions. induction 1 as [| e evs He _ IH]; [done |].
  rewrite filter_cons_False; [done | congruence].
Qed.

(** Admission in a half-open breaker always takes the probe. *)
Lemma halfopen_step c e c' :
  records_outcome e = false → state (breaker c) = StateHalfOpen →
  cb_step f2i_undef c e c' →
  state (breaker c') = StateHalfOpen ∧ (is_admission e = true → probing (breaker c')).
Proof.
  intros He Hs Hstep. destruct Hstep as [cb run cl now cb' ? Ha | cb run cl now cb' er ? Ha
    | cb run cl now o | cb run now | | |]; simpl in *; try done.
  - unfold exec_admit in Ha. rewrite Hs in Ha. case_match; simplify_eq. done.
  - unfold exec_admit in Ha. rewrite Hs in Ha. case_match; simplify_eq. done.
  - by destruct o.
  - unfold ThrowIfOpen. by rewrite Hs.
Qed.

Lemma fold_failures_closed cb ts :
  state cb = StateClosed → consecutiveFailures cb = 0 →
  in_int64 (failureThreshold cb) → Z.of_nat (length ts) < failureThreshold cb →
  let cb' := fold_left fail ts cb in
  state cb' = StateClosed ∧ consecutiveFailures cb' = Z.of_nat (length ts) ∧
  failureThreshold cb' = failureThreshold cb ∧ baseCooldown cb' = baseCooldown cb.
Proof.
  intros Hs Hcf Hth. cbv zeta. induction ts as [| t ts IH] using rev_ind; intros Hlen; [done |].
  rewrite length_app in Hlen. simpl in Hlen.
  rewrite fold_left_app. simpl. destruct IH as (Hs' & Hcf' & Hth' & Hb'); [lia |].
  set (cb1 := fold_left fail ts cb) in *.
  unfold onFailure. rewrite Hs', Hcf', Hth', Hb'.
  unfold in_int64 in Hth. rewrite wrap64_id by (unfold in_int64, min_int64 in *; lia).
  rewrite length_app. simpl. destruct (Z.leb_spec (failureThreshold cb) (Z.of_nat (length ts) + 1)); simpl;
    [lia |]. repeat split; lia || done.
Qed.

Lemma compute_in_range cb k :
  0 < baseCooldown cb < 2^53 → 1 ≤ k → baseCooldown cb * 2^k ≤ max_int64 →
  compute cb k = Z.min (baseCooldown cb * 2^k) (maxCooldown cb).
Proof.
  intros Hb Hk Hfit. unfold computeBackoffCooldown, scaled_duration.
  destruct (Z.ltb_spec k 1); [lia |].
  rewrite float64_of_int_exact by lia.
  assert (Hk64 : k < 64).
  { destruct (Z.lt_ge_cases k 64) as [| Hge]; [done | exfalso].
    assert (2^64 ≤ 2^k) by (apply Z.pow_le_mono_r; lia).
    unfold max_int64 in Hfit. nia. }
  assert (0 < 2^k) by (apply Z.pow_pos_nonneg; lia).
  replace (k <? 1024) with true by (symmetry; apply Z.ltb_lt; lia).
  replace (min_int64 <=? baseCooldown cb * 2^k) with true
    by (symmetry; apply Z.leb_le; unfold min_int64; nia).
  replace (baseCooldown cb * 2^k <=? max_int64) with true by (symmetry; by apply Z.leb_le).
  simpl. case_bool; lia.
Qed.
(** Without running calls only rejections and [ThrowIfOpen] remain. *)
Lemma wedged_step c e c' :
  probing (breaker c) → running c = ∅ → caller_event e = true →
  cb_step f2i_undef c e c' →
  probing (breaker c') ∧ running c' = ∅ ∧ is_admission e = false.
Proof.
  intros Hpr Hrun He Hstep.
  assert (records_outcome e = false) as Hrec.
  { destruct Hstep; simpl in *; try done. set_solver. }
  destruct (probing_step _ _ _ Hrec Hpr Hstep) as [-> Hadm].
  split; [done |]. split; [| done].
  destruct Hstep; simpl in *; try done; set_solver.
Qed.

Lemma wedged_run c evs c' :
  probing (breaker c) → running c = ∅ → Forall (λ e, caller_event e = true) evs →
  steps (cb_step f2i_undef) c evs c' →
  probing (breaker c') ∧ Forall (λ e, is_admission e = false) evs.
Proof.
  intros Hpr Hrun Hev Hsteps.
  induction Hsteps as [| s1 l s2 ls s3 Hstep Hrest IH]; [done |].
  inversion Hev as [| ? ? Hl Hls]; subst.
  destruct (wedged_step _ _ _ Hpr Hrun Hl Hstep) as (Hpr' & Hrun' & Hadm).
  destruct (IH Hpr' Hrun' Hls). by split; [| constructor].
Qed.
End BackoffProofs.

(** ** Properties *)

(** C39: In every state the breaker can reach, under any interleaving of
    [Execute] calls with the other methods, the trip threshold is positive,
    the probe flag is only set in half-open state, a closed breaker is below
    its failure threshold with its counters and cooldown at their base
    values, and a tripped breaker carries either the base cooldown or exactly
    the backoff of its failed-probe count. *)
Theorem breaker_invariant f2i_undef opts c :
  reachable f2i_undef opts c → wf f2i_undef (breaker c).
Proof. apply wf_reachable. Qed.

Lemma breaker_invariant_witness :
  wf (λ _ _, min_int64) (Reset (New [WithFailureThreshold 3])).
Proof.
  apply (breaker_invariant _ [WithFailureThreshold 3]
    (mkConfig (Reset (New [WithFailureThreshold 3])) ∅)).
  exists [EvReset]. repeat econstructor.
Defined.

(** While a half-open breaker has no outcome recorded (no value or error
    of a finished call, no [RecordSuccess], [RecordFailure] or [Reset]), at most
    one call of [Execute] is admitted, whatever the interleaving with
    rejected calls, cancelled calls and [ThrowIfOpen]. *)
Theorem half_open_admits_at_most_one f2i_undef c evs c' :
  state (breaker c) = StateHalfOpen →
  Forall (λ e, records_outcome e = false) evs →
  steps (cb_step f2i_undef) c evs c' →
  (admissions evs ≤ 1)%nat ∧ state (breaker c') = StateHalfOpen.
Proof.
  intros Hs Hev Hrun. induction Hrun as [| s1 l s2 ls s3 Hstep Hrun IH]; [split; [cbv; lia | done] |].
  inversion Hev as [| ? ? Hl Hls]; subst.
  destruct (halfopen_step _ _ _ _ Hl Hs Hstep) as [Hs2 Hpr].
  destruct (is_admission l) eqn:Hadm.
  - destruct (probing_run _ _ _ _ Hls (Hpr eq_refl) Hrun) as [Heq Hno].
    rewrite Heq. split; [| done].
    unfold admissions. rewrite filter_cons_True by done. simpl.
    fold (admissions ls). rewrite no_admissions by done. lia.
  - destruct (IH Hs2 Hls). split; [| done].
    unfold admissions. rewrite filter_cons_False by congruence. done.
Qed.

Definition half_open_example : CircuitBreaker :=
  mkCB 5 (30 * second) (5 * minute) 5 0 0 (30 * second) StateHalfOpen false.

Lemma half_open_admits_at_most_one_witness :
  (admissions [EvAdmitted 1 7; EvRejected 2 8] ≤ 1)%nat.
Proof.
  refine (proj1 (half_open_admits_at_most_one (λ _ _, min_int64)
    (mkConfig half_open_example ∅) [EvAdmitted 1 7; EvRejected 2 8]
    (mkConfig (set_state StateHalfOpen true half_open_example) ({[1%nat]} ∪ ∅)) _ _ _)).
  - reflexivity.
  - repeat constructor.
  - econstructor; [apply (step_admit _ half_open_example ∅ 1%nat 7); [set_solver | reflexivity] |].
    econstructor; [eapply step_reject; [set_solver | reflexivity] | constructor].
Defined.

(** A probe that ends by context cancellation or by a panic wedges the
    breaker: when it was the only running call, then in every later run made
    of [Execute] and [ThrowIfOpen] calls, at any times, no call is ever
    admitted again and the breaker stays half-open. *)
Theorem cancelled_probe_wedges f2i_undef cb call t0 t1 o evs c' :
  state cb = StateOpen →
  o = OCancelled ∨ o = OPanic →
  Forall (λ e, caller_event e = true) evs →
  steps (cb_step f2i_undef) (mkConfig cb ∅)
    (EvAdmitted call t0 :: EvFinished call t1 o :: evs) c' →
  admissions evs = 0%nat ∧ probing (breaker c').
Proof.
  intros Hs Ho Hev Hrun.
  inversion Hrun as [| ? ? s2 ? ? Hadm Hrun2]; subst.
  inversion Hrun2 as [| ? ? s3 ? ? Hfin Hrun3]; subst.
  inversion Hadm as [? ? ? ? cb' Hc Hex | | | | | |]; subst.
  inversion Hfin; subst.
  assert (probing cb') as Hpr.
  { unfold exec_admit in Hex. rewrite Hs in Hex. case_match; by simplify_eq. }
  assert (exec_finish f2i_undef cb' t1 (outcome_action o) = cb') as Heq.
  { by destruct Ho; subst. }
  rewrite Heq in Hrun3.
  apply wedged_run in Hrun3; [| done | simpl; set_solver | done].
  destruct Hrun3. split; [by apply no_admissions | done].
Qed.

Definition open_example : CircuitBreaker :=
  mkCB 5 (30 * second) (5 * minute) 5 0 0 (30 * second) StateOpen false.

Lemma cancelled_probe_wedges_witness :
  admissions [EvRejected 2 (90 * minute)] = 0%nat.
Proof.
  refine (proj1 (cancelled_probe_wedges (λ _ _, min_int64) open_example 1%nat
    minute (2 * minute) OCancelled [EvRejected 2 (90 * minute)]
    (mkConfig (set_state StateHalfOpen true open_example) (({[1%nat]} ∪ ∅) ∖ {[1%nat]})) _ _ _ _)).
  - reflexivity.
  - left; reflexivity.
  - repeat constructor.
  - econstructor; [apply (step_admit _ open_example ∅ 1%nat minute); [set_solver | reflexivity] |].
    econstructor; [eapply (step_finish _ _ _ _ _ OCancelled); set_solver |].
    econstructor; [eapply step_reject; [set_solver | reflexivity] | constructor].
Defined.

(** A closed breaker with no failure on record stays closed for fewer
    consecutive failures than its threshold, counting them, and the failure
    that reaches the threshold opens it at that moment with the base
    cooldown, so that [Execute] is refused from then on until the cooldown
    has passed. *)
Theorem opens_exactly_at_threshold f2i_undef cb ts now t :
  state cb = StateClosed → consecutiveFailures cb = 0 →
  in_int64 (failureThreshold cb) → in_int64 (baseCooldown cb) → min_int64 < baseCooldown cb →
  Z.of_nat (length ts) < failureThreshold cb →
  let before := fold_left (onFailure f2i_undef) ts cb in
  let after := onFailure f2i_undef before now in
  state before = StateClosed ∧ consecutiveFailures before = Z.of_nat (length ts) ∧
  (Z.of_nat (length ts) + 1 < failureThreshold cb → state after = StateClosed) ∧
  (Z.of_nat (length ts) + 1 = failureThreshold cb →
     state after = StateOpen ∧ openedAt after = now ∧
     (snd (exec_admit after t) = None ↔ now + baseCooldown cb ≤ t)).
Proof.
  intros Hs Hcf Hth Hb Hbm Hlen before after.
  destruct (fold_failures_closed f2i_undef cb ts Hs Hcf Hth Hlen) as (Hs' & Hcf' & Hth' & Hb').
  fold before in Hs', Hcf', Hth', Hb'.
  assert (after = (let cf := Z.of_nat (length ts) + 1 in
    if failureThreshold cb <=? cf
    then mkCB (failureThreshold cb) (baseCooldown cb) (maxCooldown before) cf 0 now (baseCooldown cb) StateOpen false
    else mkCB (failureThreshold cb) (baseCooldown cb) (maxCooldown before) cf (probeFailures before)
           (openedAt before) (currentCooldown before) StateClosed (halfOpenProbeActive before))) as ->.
  { subst after. unfold onFailure. rewrite Hs', Hcf', Hth', Hb'.
    unfold in_int64 in Hth. rewrite wrap64_id by (unfold in_int64, min_int64 in *; lia). done. }
  cbv zeta. split; [done |]. split; [done |]. split.
  - intros H. destruct (Z.leb_spec (failureThreshold cb) (Z.of_nat (length ts) + 1)); [lia | done].
  - intros H. destruct (Z.leb_spec (failureThreshold cb) (Z.of_nat (length ts) + 1)); [| lia].
    simpl. split; [done |]. split; [done |]. unfold exec_admit. simpl.
    match goal with |- context [cooldown_elapsed ?c t] =>
      pose proof (cooldown_elapsed_spec c t Hb Hbm) as Hel; simpl in Hel;
      destruct (cooldown_elapsed c t) end; simpl; [tauto |].
    split; [done |]. intros Hle. by apply Hel in Hle.
Qed.

Lemma opens_exactly_at_threshold_witness :
  state (onFailure (λ _ _, min_int64)
    (fold_left (onFailure (λ _ _, min_int64)) [1; 2] (New [WithFailureThreshold 3])) 3) = StateOpen.
Proof.
  destruct (opens_exactly_at_threshold (λ _ _, min_int64) (New [WithFailureThreshold 3])
    [1; 2] 3 4 eq_refl eq_refl ltac:(cbv; split; discriminate) ltac:(cbv; split; discriminate)
    ltac:(cbv; done) ltac:(cbv; done)) as (_ & _ & _ & H).
  exact (proj1 (H eq_refl)).
Defined.

(** The cooldown after the [k]-th failed probe is [base * 2^k] capped at the
    maximum, as long as that product is representable; beyond that the
    conversion is implementation-dependent, and where it yields the minimal
    integer (amd64) the breaker stops failing fast: the very next call is
    admitted as a probe. *)
Theorem backoff_schedule f2i_undef cb k :
  0 < baseCooldown cb < 2^53 → 1 ≤ k →
  (baseCooldown cb * 2^k ≤ max_int64 →
     computeBackoffCooldown f2i_undef cb k = Z.min (baseCooldown cb * 2^k) (maxCooldown cb)) ∧
  (max_int64 < baseCooldown cb * 2^k → f2i_undef (baseCooldown cb) k = min_int64 →
   min_int64 ≤ maxCooldown cb →
     ∀ s now cb', s = mkCB (failureThreshold cb) (baseCooldown cb) (maxCooldown cb)
          (consecutiveFailures cb) k now (computeBackoffCooldown f2i_undef cb k) StateOpen false →
     exec_admit s now = (cb', None) ↔ cb' = set_state StateHalfOpen true s).
Proof.
  intros Hb Hk. split; [by apply compute_in_range |].
  intros Hbig Hundef Hmax s now cb' ->.
  assert (computeBackoffCooldown f2i_undef cb k = min_int64) as ->.
  { unfold computeBackoffCooldown, scaled_duration.
    destruct (Z.ltb_spec k 1); [lia |].
    rewrite float64_of_int_exact by lia.
    replace (baseCooldown cb * 2^k <=? max_int64) with false by (symmetry; apply Z.leb_gt; lia).
    rewrite andb_false_r, Hundef. case_bool; lia. }
  unfold exec_admit, cooldown_elapsed. simpl.
  replace (min_int64 <=? sat64 (now - now)) with true; [split; congruence |].
  rewrite Z.sub_diag. done.
Qed.

Lemma backoff_schedule_witness :
  computeBackoffCooldown (λ _ _, min_int64) (New []) 3 = 4 * minute ∧
  computeBackoffCooldown (λ _ _, min_int64) (New []) 4 = 5 * minute ∧
  snd (exec_admit (mkCB 5 (30 * second) (5 * minute) 34 29 77
         (computeBackoffCooldown (λ _ _, min_int64) (New []) 29) StateOpen false) 77) = None.
Proof.
  split; [| split].
  - destruct (backoff_schedule (λ _ _, min_int64) (New []) 3 ltac:(cbv; done) ltac:(lia)) as [H _].
    rewrite H; [reflexivity | vm_compute; discriminate].
  - destruct (backoff_schedule (λ _ _, min_int64) (New []) 4 ltac:(cbv; done) ltac:(lia)) as [H _].
    rewrite H; [reflexivity | vm_compute; discriminate].
  - vm_compute. reflexivity.
Defined.

(** What one call of [Execute] does when nothing interferes.  Open before
    the cooldown: the action is not run, the breaker is unchanged and the error
    carries the remaining time.  Open after it, or half-open with the probe
    free: the action runs as the probe; a value closes the breaker and clears
    all counters, an error reopens it at that time with the next backoff. *)
Theorem Execute_probe_cycle {T} f2i_undef (cb : CircuitBreaker) t0 t1 (action : Action T) :
  wf f2i_undef cb → in_int64 (currentCooldown cb) → min_int64 < currentCooldown cb →
  in_int64 (probeFailures cb + 1) →
  (state cb = StateOpen → t0 < openedAt cb + currentCooldown cb →
     Execute f2i_undef cb t0 t1 action =
       (cb, Done (ExecRejected T (mkErrOpen (sat64 (openedAt cb + currentCooldown cb - t0)))))) ∧
  ((state cb = StateOpen ∧ openedAt cb + currentCooldown cb ≤ t0) ∨
   (state cb = StateHalfOpen ∧ halfOpenProbeActive cb = false) →
     match action with
     | ActValue _ v =>
         Execute f2i_undef cb t0 t1 action = (Reset cb, Done (ExecOk T v))
     | ActError _ e =>
         ∃ cb', Execute f2i_undef cb t0 t1 action = (cb', Done (ExecErr T e)) ∧
           state cb' = StateOpen ∧ openedAt cb' = t1 ∧ probeFailures cb' = probeFailures cb + 1 ∧
           currentCooldown cb' = computeBackoffCooldown f2i_undef cb (probeFailures cb + 1)
     | _ => fst (Execute f2i_undef cb t0 t1 action) = set_state StateHalfOpen true cb
     end).
Proof.
  intros Hwf Hcd Hcm Hpf. pose proof (cooldown_elapsed_spec cb t0 Hcd Hcm) as Hel. split.
  - intros Hs Hlt. unfold Execute, exec_admit. rewrite Hs.
    destruct (cooldown_elapsed cb t0); [exfalso; destruct Hel as [Hel _]; specialize (Hel eq_refl); lia | done].
  - intros Hcase.
    assert (exec_admit cb t0 = (set_state StateHalfOpen true cb, None)) as Hadm.
    { unfold exec_admit. destruct Hcase as [[Hs Hle] | [Hs Hp]]; rewrite Hs.
      - by rewrite (proj2 Hel Hle).
      - by rewrite Hp. }
    unfold Execute. rewrite Hadm. destruct action; simpl; try done.
    + eexists. split; [reflexivity |]. unfold onFailure; simpl.
      rewrite wrap64_id by done. done.
Qed.

Lemma Execute_probe_cycle_witness :
  Execute (λ _ _, min_int64) open_example minute (2 * minute) (ActValue nat 7%nat) =
    (Reset open_example, Done (ExecOk nat 7%nat)).
Proof.
  refine (proj2 (Execute_probe_cycle (λ _ _, min_int64) open_example minute (2 * minute)
    (ActValue nat 7%nat) _ _ _ _) _).
  - split; [vm_compute; discriminate |]. split; [discriminate |]. left. split; reflexivity.
  - vm_compute; split; discriminate.
  - reflexivity.
  - vm_compute; split; discriminate.
  - left. split; [reflexivity | vm_compute; discriminate].
Defined.
