(* ===== verification/GoStrings.v ===== *)
(** The functions of Go's [strings], [strconv] and [unicode] packages the
    modelled code calls, on byte strings.

    A Go string is a sequence of bytes: [string] of 8-bit [ascii]s.  Functions
    that look at runes ([TrimSpace], [EqualFold]) are written on the UTF-8
    encodings they accept. *)

From S2P Require Import Prelude.
From Stdlib Require Export Ascii.
From stdpp Require Export pretty.

Abbreviation bytes := (list ascii).
Abbreviation to_bytes := String.list_ascii_of_string.
Abbreviation of_bytes := String.string_of_list_ascii.

Definition byte (n : N) : ascii := ascii_of_N n.
Definition code (c : ascii) : N := N_of_ascii c.

(** [l] without its prefix [p]. *)
Fixpoint strip_prefix (p l : bytes) : option bytes :=
  match p, l with
  | [], _ => Some l
  | c :: p, d :: l => if decide (c = d) then strip_prefix p l else None
  | _ :: _, [] => None
  end.

(** The UTF-8 encodings of the code points with [unicode.IsSpace]. *)
Definition space_runes : list bytes :=
  map (map byte)
    ([[9]; [10]; [11]; [12]; [13]; [32]; [194; 133]; [194; 160]; [225; 154; 128];
      [226; 128; 128]; [226; 128; 129]; [226; 128; 130]; [226; 128; 131];
      [226; 128; 132]; [226; 128; 133]; [226; 128; 134]; [226; 128; 135];
      [226; 128; 136]; [226; 128; 137]; [226; 128; 138]; [226; 128; 168];
      [226; 128; 169]; [226; 128; 175]; [226; 129; 159]; [227; 128; 128]])%N.

(** The first of the prefixes [ps] that [l] starts with, removed. *)
Fixpoint strip_any (ps : list bytes) (l : bytes) : option bytes :=
  match ps with
  | [] => None
  | p :: ps => match strip_prefix p l with Some r => Some r | None => strip_any ps l end
  end.

Fixpoint trim_left (fuel : nat) (ps : list bytes) (l : bytes) : bytes :=
  match fuel with
  | O => l
  | S fuel => match strip_any ps l with Some r => trim_left fuel ps r | None => l end
  end.

Definition trim_bytes (l : bytes) : bytes :=
  let l1 := trim_left (length l) space_runes l in
  rev (trim_left (length l1) (map (@rev _) space_runes) (rev l1)).

(** [strings.TrimSpace] *)
Definition TrimSpace (s : string) : string := of_bytes (trim_bytes (to_bytes s)).

(** ASCII lower case of a byte. *)
Definition lower (c : ascii) : ascii :=
  if ((65 <=? code c) && (code c <=? 90))%N then byte (code c + 32) else c.

(** [strings.EqualFold s t] for an ASCII [t]: simple folding also equates [s]
    with U+017F and [k] with U+212A. *)
Fixpoint equal_fold_bytes (s t : bytes) : bool :=
  match t, s with
  | [], [] => true
  | [], _ :: _ => false
  | c :: t, b :: s' =>
      if (code b <? 128)%N && bool_decide (lower b = lower c) then equal_fold_bytes s' t
      else if bool_decide (lower c = byte 115) then
        match strip_prefix [byte 197; byte 191] s with
        | Some r => equal_fold_bytes r t | None => false end
      else if bool_decide (lower c = byte 107) then
        match strip_prefix [byte 226; byte 132; byte 170] s with
        | Some r => equal_fold_bytes r t | None => false end
      else false
  | _ :: _, [] => false
  end.
Definition EqualFold (s t : string) : bool := equal_fold_bytes (to_bytes s) (to_bytes t).

(** [util.IsBlank] of [openclaw/util/helper.go]. *)
Definition IsBlank (s : string) : bool := bool_decide (TrimSpace s = "").

(** [strings.HasPrefix] and [strings.HasSuffix] *)
Definition has_prefix (p l : bytes) : bool :=
  match strip_prefix p l with Some _ => true | None => false end.
Definition HasPrefix (s p : string) : bool := has_prefix (to_bytes p) (to_bytes s).
Definition HasSuffix (s p : string) : bool := has_prefix (rev (to_bytes p)) (rev (to_bytes s)).

(** [strings.Index]: the first position at which [p] occurs. *)
Fixpoint index_bytes (p l : bytes) : option nat :=
  if has_prefix p l then Some 0%nat
  else match l with
       | [] => None
       | _ :: l => S <$> index_bytes p l
       end.
Definition Contains (s p : string) : bool :=
  match index_bytes (to_bytes p) (to_bytes s) with Some _ => true | None => false end.

(** [strings.Index] and [strings.LastIndex], [None] for [-1]. *)
Definition Index (s p : string) : option nat := index_bytes (to_bytes p) (to_bytes s).
Definition LastIndex (s p : string) : option nat :=
  (λ i, String.length s - i - String.length p) <$> index_bytes (rev (to_bytes p)) (rev (to_bytes s)).

(** [s[i:]] and [s[:i]] for an [i] in range. *)
Definition slice_from (s : string) (i : nat) : string := of_bytes (drop i (to_bytes s)).
Definition slice_to (s : string) (i : nat) : string := of_bytes (take i (to_bytes s)).

(** [strings.Trim s cutset] for a cutset of ASCII characters *)
Fixpoint trim_left_set (cutset l : bytes) : bytes :=
  match l with
  | [] => []
  | c :: r => if bool_decide (c ∈ cutset) then trim_left_set cutset r else l
  end.
Definition Trim (s cutset : string) : string :=
  let c := to_bytes cutset in
  of_bytes (rev (trim_left_set c (rev (trim_left_set c (to_bytes s))))).

(** [strings.Split(s, sep)] for a one-byte separator. *)
Fixpoint split_bytes (sep : ascii) (l : bytes) : list bytes :=
  match l with
  | [] => [[]]
  | c :: l =>
      if decide (c = sep) then [] :: split_bytes sep l
      else match split_bytes sep l with
           | [] => [[c]]
           | w :: ws => (c :: w) :: ws
           end
  end.
Definition Split (s : string) (sep : ascii) : list string := of_bytes <$> split_bytes sep (to_bytes s).

Definition is_digit (c : ascii) : bool := ((48 <=? code c) && (code c <=? 57))%N.

(** Value of a string of decimal digits. *)
Fixpoint digits_value (acc : Z) (l : bytes) : option Z :=
  match l with
  | [] => Some acc
  | c :: l => if is_digit c then digits_value (acc * 10 + (Z.of_N (code c) - 48)) l else None
  end.

(** [strconv.Atoi]: optional sign, at least one digit, in range. *)
Definition Atoi (s : string) : option Z :=
  let mag l := match l with [] => None | _ => digits_value 0 l end in
  let v := match to_bytes s with
           | c :: l => if decide (c = byte 43) then mag l
                       else if decide (c = byte 45) then Z.opp <$> mag l
                       else mag (c :: l)
           | [] => None
           end in
  match v with
  | Some z => if bool_decide (in_int64 z) then Some z else None
  | None => None
  end.

(** [strconv.Itoa], the [%d] verb. *)
Definition Itoa (z : Z) : string := pretty z.

(** ** Runes

    A rune is a code point, an [N].  [decode_rune] is [utf8.DecodeRune]: the
    first rune of a non-empty byte string and what follows it; an invalid
    encoding is U+FFFD of width one. *)
Definition RuneError : N := 65533.

Definition cont_byte (lo hi : N) (c : ascii) : bool := ((lo <=? code c) && (code c <=? hi))%N.

(** The number of continuation bytes a first byte asks for and the range of the
    first of them. *)
Definition lead_byte (b : N) : option (nat * N * N) :=
  if (b <? 194)%N then None
  else if (b <? 224)%N then Some (1%nat, 128%N, 191%N)
  else if (b =? 224)%N then Some (2%nat, 160%N, 191%N)
  else if (b =? 237)%N then Some (2%nat, 128%N, 159%N)
  else if (b <? 240)%N then Some (2%nat, 128%N, 191%N)
  else if (b =? 240)%N then Some (3%nat, 144%N, 191%N)
  else if (b <? 244)%N then Some (3%nat, 128%N, 191%N)
  else if (b =? 244)%N then Some (3%nat, 128%N, 143%N)
  else None.

Definition decode_rune (l : bytes) : option (N * bytes) :=
  match l with
  | [] => None
  | c :: r =>
      let b := code c in
      if (b <? 128)%N then Some (b, r)
      else Some (match lead_byte b, r with
           | Some (1%nat, lo, hi), c1 :: r1 =>
               if cont_byte lo hi c1
               then ((b - 192) * 64 + (code c1 - 128), r1)%N else (RuneError, r)
           | Some (2%nat, lo, hi), c1 :: c2 :: r1 =>
               if cont_byte lo hi c1 && cont_byte 128 191 c2
               then ((b - 224) * 4096 + (code c1 - 128) * 64 + (code c2 - 128), r1)%N
               else (RuneError, r)
           | Some (3%nat, lo, hi), c1 :: c2 :: c3 :: r1 =>
               if cont_byte lo hi c1 && cont_byte 128 191 c2 && cont_byte 128 191 c3
               then ((b - 240) * 262144 + (code c1 - 128) * 4096 + (code c2 - 128) * 64 +
                     (code c3 - 128), r1)%N
               else (RuneError, r)
           | _, _ => (RuneError, r)
           end)
  end.

Fixpoint decode_runes (fuel : nat) (l : bytes) : list N :=
  match fuel with
  | O => []
  | S fuel => match decode_rune l with
              | None => []
              | Some (r, l) => r :: decode_runes fuel l
              end
  end.

(** [[]rune(s)], and the runes of [for _, ch := range s]. *)
Definition runes (s : string) : list N := decode_runes (String.length s) (to_bytes s).

(** [strings.EqualFold] of any two strings: equal up to simple folding, rune by
    rune.  [fold_table] is the least rune of the orbit of [unicode.SimpleFold]. *)
Definition fold_rune (fold_table : N → N) (r : N) : N :=
  (if r <? 128 then (if (97 <=? r) && (r <=? 122) then r - 32 else r)
   else if r =? 383 then 83 else if r =? 8490 then 75 else fold_table r)%N.
Definition folded (fold_table : N → N) (s : string) : list N := fold_rune fold_table <$> runes s.
Definition EqualFoldRunes (fold_table : N → N) (s t : string) : bool := bool_decide (folded fold_table s = folded fold_table t).

Lemma EqualFoldRunes_refl fold_table s : EqualFoldRunes fold_table s s = true.
Proof. by apply bool_decide_eq_true. Qed.
Lemma EqualFoldRunes_sym fold_table s t : EqualFoldRunes fold_table s t = EqualFoldRunes fold_table t s.
Proof. apply bool_decide_ext. split; congruence. Qed.
Lemma EqualFoldRunes_trans fold_table s t u :
  EqualFoldRunes fold_table s t = true → EqualFoldRunes fold_table t u = true → EqualFoldRunes fold_table s u = true.
Proof. unfold EqualFoldRunes. rewrite !bool_decide_eq_true. congruence. Qed.

(** [utf8.AppendRune]; surrogates and values past U+10FFFF are written as
    U+FFFD. *)
Definition encode_rune (r : N) : bytes :=
  map byte
    (if r <? 128 then [r]
     else if r <? 2048 then [192 + r / 64; 128 + r mod 64]
     else if (1114111 <? r) || ((55296 <=? r) && (r <? 57344)) then [239; 191; 189]
     else if r <? 65536 then [224 + r / 4096; 128 + (r / 64) mod 64; 128 + r mod 64]
     else [240 + r / 262144; 128 + (r / 4096) mod 64; 128 + (r / 64) mod 64; 128 + r mod 64])%N.

(** [string(rs)] of a rune slice. *)
Definition of_runes (rs : list N) : string := of_bytes (concat (map encode_rune rs)).

(** Valid UTF-8. *)
Definition utf8 (s : string) : Prop := of_runes (runes s) = s.

(** [unicode.IsSpace] *)
Definition IsSpace (r : N) : bool :=
  bool_decide (r ∈ [9; 10; 11; 12; 13; 32; 133; 160; 5760; 8192; 8193; 8194; 8195; 8196; 8197; 8198;
                    8199; 8200; 8201; 8202; 8232; 8233; 8239; 8287; 12288]%N).

(** [util.Truncate] of [openclaw/util/helper.go]. *)
Definition Truncate (text : string) (max : nat) : string :=
  let rs := runes text in
  if decide (length rs ≤ max)%nat then text
  else of_runes (take max rs) +:+ "..."%string.

(** The loop of [util.NormalizeForComparison] in [openclaw/util/cron.go]. *)
Fixpoint collapse_spaces (wasSpace : bool) (rs : list N) : bytes :=
  match rs with
  | [] => []
  | ch :: rs =>
      if IsSpace ch then
        (if wasSpace then [] else [byte 32]) ++ collapse_spaces true rs
      else encode_rune ch ++ collapse_spaces false rs
  end.

Definition NormalizeForComparison (text : string) : string :=
  let trimmed := TrimSpace text in
  if decide (trimmed = ""%string) then ""%string else of_bytes (collapse_spaces false (runes trimmed)).

(** [strings.ToLower]: ASCII letters by [lower]; other runes by the Unicode
    table [lower_rune], which stays a parameter. *)
Definition ToLower (lower_rune : N → N) (s : string) : string :=
  if forallb (λ c, (code c <? 128)%N) (to_bytes s) then of_bytes (map lower (to_bytes s))
  else of_runes (map (λ r, if (r <? 128)%N then code (lower (byte r)) else lower_rune r) (runes s)).

(** [util.IsLetterOrDigit] *)
Definition IsLetterOrDigit (b : ascii) : bool :=
  (((97 <=? code b) && (code b <=? 122)) || ((65 <=? code b) && (code b <=? 90)) || ((48 <=? code b) && (code b <=? 57)))%N.

(** [strings.Fields], of which the number of fields is used: the runs of runes
    that are not white space. *)
Fixpoint count_fields (inside : bool) (rs : list N) : nat :=
  match rs with
  | [] => 0
  | r :: rs => if IsSpace r then count_fields false rs else (if inside then 0 else 1) + count_fields true rs
  end.
Definition Fields_count (s : string) : nat := count_fields false (runes s).

(** [strings.ToUpper] likewise. *)
Definition upper (c : ascii) : ascii :=
  if ((97 <=? code c) && (code c <=? 122))%N then byte (code c - 32) else c.
Definition ToUpper (upper_rune : N → N) (s : string) : string :=
  if forallb (λ c, (code c <? 128)%N) (to_bytes s) then of_bytes (map upper (to_bytes s))
  else of_runes (map (λ r, if (r <? 128)%N then code (upper (byte r)) else upper_rune r) (runes s)).

(** [strings.Join] *)
Fixpoint JoinStrings (ws : list string) (sep : string) : string :=
  match ws with
  | [] => ""%string
  | [w] => w
  | w :: ws => (w +:+ sep +:+ JoinStrings ws sep)%string
  end.

(** [strings.Compare] *)
Fixpoint compare_bytes (l r : bytes) : comparison :=
  match l, r with
  | [], [] => Eq
  | [], _ => Lt
  | _, [] => Gt
  | a :: l, b :: r => match (code a ?= code b)%N with Eq => compare_bytes l r | c => c end
  end.
Definition string_le (s t : string) : Prop := compare_bytes (to_bytes s) (to_bytes t) ≠ Gt.
#[global] Instance string_le_dec s t : Decision (string_le s t) := _.

(** ** Lemmas *)

Lemma strip_prefix_Some p l r : strip_prefix p l = Some r ↔ l = p ++ r.
Proof.
  revert l. induction p as [| c p IH]; intros [| d l]; simpl; try (split; congruence).
  case_decide as Hc; [subst; rewrite IH; split; congruence |].
  split; [done | intros [=]; congruence].
Qed.

Lemma has_prefix_spec p l : has_prefix p l = true ↔ p `prefix_of` l.
Proof.
  unfold has_prefix. destruct (strip_prefix p l) as [r |] eqn:Hr.
  - apply strip_prefix_Some in Hr. split; [by exists r | done].
  - split; [done |]. intros [r Hl]. apply strip_prefix_Some in Hl. congruence.
Qed.

(** [index_bytes] finds the first place. *)
Lemma index_bytes_Some p l n : index_bytes p l = Some n →
  l = (take n l ++ p ++ drop (n + length p) l)%list ∧
  ∀ k w, l = (k ++ p ++ w)%list → (n ≤ length k)%nat.
Proof.
  revert n. induction l as [| c l IH]; intros n; cbn [index_bytes].
  - destruct (has_prefix p []) eqn:Hp; [| done]. intros [= <-].
    apply has_prefix_spec in Hp as [k Hk]. split; [| intros; lia].
    symmetry in Hk. apply app_eq_nil in Hk as [-> ->]. done.
  - destruct (has_prefix p (c :: l)) eqn:Hp.
    + intros [= <-]. apply has_prefix_spec in Hp as [k Hk]. split; [| intros; lia].
      rewrite Hk. simpl. by rewrite drop_app_length.
    + destruct (index_bytes p l) as [m |] eqn:Hm; [| done]. intros [= <-].
      destruct (IH m eq_refl) as [H1 H2]. split; [simpl; by rewrite <- H1 |].
      intros [| d k] w Hk.
      * exfalso. assert (has_prefix p (c :: l) = true); [| congruence]. apply has_prefix_spec. by exists w.
      * injection Hk as -> Hk. simpl. specialize (H2 k w Hk). lia.
Qed.

Lemma index_bytes_None p l : index_bytes p l = None → ∀ k w, l ≠ (k ++ p ++ w)%list.
Proof.
  induction l as [| c l IH]; cbn [index_bytes].
  - destruct (has_prefix p []) eqn:Hp; [done |]. intros _ k w Hk.
    symmetry in Hk. apply app_eq_nil in Hk as [_ Hk]. apply app_eq_nil in Hk as [-> _]. discriminate Hp.
  - destruct (has_prefix p (c :: l)) eqn:Hp; [done |].
    destruct (index_bytes p l) eqn:Hm; [done |]. intros _ [| d k] w Hk.
    + assert (has_prefix p (c :: l) = true); [| congruence]. apply has_prefix_spec. by exists w.
    + injection Hk as -> Hk. by apply (IH eq_refl k w).
Qed.

Lemma HasPrefix_refl s : HasPrefix s s = true.
Proof. unfold HasPrefix. by apply has_prefix_spec. Qed.

Lemma strip_any_Some ps l r : strip_any ps l = Some r → ∃ p, p ∈ ps ∧ l = p ++ r.
Proof.
  induction ps as [| p ps IH]; simpl; [done |].
  destruct (strip_prefix p l) eqn:Hp.
  - intros [= ->]. exists p. split; [left | by apply strip_prefix_Some].
  - intros H. destruct (IH H) as (q & ? & ?). exists q. split; [by right | done].
Qed.

Lemma strip_any_None ps l : strip_any ps l = None ↔ ∀ p, p ∈ ps → strip_prefix p l = None.
Proof.
  induction ps as [| p ps IH]; simpl.
  - split; [intros _ p Hp; by apply elem_of_nil in Hp | done].
  - destruct (strip_prefix p l) eqn:Hp.
    + split; [done |]. intros H. by rewrite (H p) in Hp by left.
    + rewrite IH. split.
      * intros H q [-> | Hq]%elem_of_cons; auto.
      * intros H q Hq. apply H. by right.
Qed.

Lemma strip_any_None_prefix ps l k : strip_any ps (l ++ k) = None → strip_any ps l = None.
Proof.
  rewrite !strip_any_None. intros H p Hp. specialize (H p Hp).
  destruct (strip_prefix p l) as [r |] eqn:Hr; [| done].
  apply strip_prefix_Some in Hr. subst.
  rewrite (proj2 (strip_prefix_Some p ((p ++ r) ++ k) (r ++ k))) in H by (by rewrite app_assoc).
  done.
Qed.

Lemma trim_left_suffix fuel ps l : ∃ k, l = k ++ trim_left fuel ps l.
Proof.
  revert l. induction fuel as [| fuel IH]; intros l; simpl; [by exists [] |].
  destruct (strip_any ps l) as [r |] eqn:Hr; [| by exists []].
  apply strip_any_Some in Hr as (p & _ & ->). destruct (IH r) as [k Hk].
  exists (p ++ k). by rewrite <- app_assoc, <- Hk.
Qed.

Lemma trim_left_done fuel ps l :
  [] ∉ ps → (length l ≤ fuel)%nat → strip_any ps (trim_left fuel ps l) = None.
Proof.
  intros Hne. revert l. induction fuel as [| fuel IH]; intros l Hl; simpl.
  - destruct l; [| simpl in Hl; lia]. apply strip_any_None. intros p Hp.
    destruct p; [done | done].
  - destruct (strip_any ps l) as [r |] eqn:Hr; [| done].
    apply IH. apply strip_any_Some in Hr as (p & Hp & ->).
    destruct p; [done |]. rewrite length_app in Hl. simpl in Hl. lia.
Qed.

Lemma trim_left_id fuel ps l : strip_any ps l = None → trim_left fuel ps l = l.
Proof. intros H. destruct fuel; simpl; [done |]. by rewrite H. Qed.

Lemma trim_bytes_idemp l : trim_bytes (trim_bytes l) = trim_bytes l.
Proof.
  unfold trim_bytes at 2 3.
  set (l1 := trim_left (length l) space_runes l).
  set (r := trim_left (length l1) (map (@rev _) space_runes) (rev l1)).
  assert (strip_any space_runes l1 = None) as H1.
  { apply trim_left_done; [| done]. by vm_compute; inversion 1; repeat match goal with H : _ ∈ _ |- _ => inversion H; clear H end. }
  assert (strip_any (map (@rev _) space_runes) r = None) as H2.
  { apply trim_left_done; [| by rewrite length_rev].
    by vm_compute; inversion 1; repeat match goal with H : _ ∈ _ |- _ => inversion H; clear H end. }
  destruct (trim_left_suffix (length l1) (map (@rev _) space_runes) (rev l1)) as [k Hk].
  fold r in Hk. assert (l1 = rev r ++ rev k) as Hl1.
  { rewrite <- rev_app_distr, <- Hk. symmetry. apply rev_involutive. }
  assert (strip_any space_runes (rev r) = None) as H3.
  { rewrite Hl1 in H1. by eapply strip_any_None_prefix. }
  unfold trim_bytes. rewrite (trim_left_id _ _ (rev r)) by done.
  rewrite rev_involutive. by rewrite (trim_left_id _ _ r) by done.
Qed.

Lemma TrimSpace_idemp s : TrimSpace (TrimSpace s) = TrimSpace s.
Proof.
  unfold TrimSpace. rewrite String.list_ascii_of_string_of_list_ascii.
  by rewrite trim_bytes_idemp.
Qed.
#[export] Hint Rewrite TrimSpace_idemp : goproj.

Lemma split_bytes_nonempty sep l : split_bytes sep l ≠ [].
Proof. destruct l as [| c l]; simpl; [done |]. case_decide; [done |]. by destruct (split_bytes sep l). Qed.

(** [strings.Join(strings.Split(s, sep), sep)] is [s]. *)
Fixpoint join_bytes (sep : ascii) (ws : list bytes) : bytes :=
  match ws with
  | [] => []
  | [w] => w
  | w :: ws => w ++ sep :: join_bytes sep ws
  end.

Lemma join_split_bytes sep l : join_bytes sep (split_bytes sep l) = l.
Proof.
  induction l as [| c l IH]; simpl; [done |].
  pose proof (split_bytes_nonempty sep l).
  case_decide; subst; simpl; destruct (split_bytes sep l) as [| w ws]; simpl in *; try done.
  - by rewrite IH.
  - destruct ws; simpl in *; by rewrite <- IH.
Qed.

Lemma to_bytes_length s : length (to_bytes s) = String.length s.
Proof. induction s as [| c s IH]; simpl; [done |]. by rewrite IH. Qed.

Lemma to_bytes_of_bytes l : to_bytes (of_bytes l) = l.
Proof. apply String.list_ascii_of_string_of_list_ascii. Qed.

Lemma of_bytes_to_bytes s : of_bytes (to_bytes s) = s.
Proof. apply String.string_of_list_ascii_of_string. Qed.

Lemma of_bytes_app l k : of_bytes (l ++ k) = (of_bytes l +:+ of_bytes k)%string.
Proof. induction l as [| c l IH]; simpl; [done |]. by rewrite IH. Qed.

Lemma to_bytes_append s t : to_bytes (s +:+ t) = to_bytes s ++ to_bytes t.
Proof. induction s as [| c s IH]; simpl; [done |]. by rewrite IH. Qed.

(** Splitting at the separators a string is made of. *)
Lemma split_bytes_app sep w k : (sep ∉ w) → split_bytes sep (w ++ sep :: k) = w :: split_bytes sep k.
Proof.
  induction w as [| c w IH]; intros Hw; simpl; [by rewrite decide_True |].
  apply not_elem_of_cons in Hw as [Hc Hw]. rewrite decide_False by congruence. by rewrite IH.
Qed.

Lemma split_bytes_none sep w : (sep ∉ w) → split_bytes sep w = [w].
Proof.
  induction w as [| c w IH]; intros Hw; simpl; [done |].
  apply not_elem_of_cons in Hw as [Hc Hw]. rewrite decide_False by congruence. by rewrite IH.
Qed.

Lemma split_bytes_parts sep l : Forall (λ w, sep ∉ w) (split_bytes sep l).
Proof.
  induction l as [| c l IH]; simpl; [repeat constructor; by intros ?%elem_of_nil |].
  case_decide; [constructor; [by intros ?%elem_of_nil | done] |].
  destruct (split_bytes sep l) as [| w ws].
  - constructor; [| constructor]. intros ?%list_elem_of_singleton. congruence.
  - apply Forall_cons in IH as [Hw Hws]. constructor; [| done].
    apply not_elem_of_cons. split; [congruence | done].
Qed.

Lemma Split_no_sep s sep : Forall (λ w, sep ∉ to_bytes w) (Split s sep).
Proof.
  unfold Split. apply Forall_fmap. eapply Forall_impl; [apply split_bytes_parts |].
  intros w Hw. simpl. by rewrite to_bytes_of_bytes.
Qed.

#[export] Hint Rewrite to_bytes_of_bytes of_bytes_to_bytes to_bytes_append : goproj.

(** ** Printing and parsing integers *)

Lemma code_digit d : (d < 10)%N → is_digit (pretty_N_char d) = true ∧ Z.of_N (code (pretty_N_char d)) = (48 + Z.of_N d)%Z.
Proof.
  intros H. assert (d ∈ [0; 1; 2; 3; 4; 5; 6; 7; 8; 9]%N) as Hd.
  { destruct d as [| p]; [set_solver |]. do 4 (destruct p as [p | p |]; try set_solver; try lia). }
  set_unfold in Hd. repeat destruct Hd as [-> | Hd]; try done; by split.
Qed.

Lemma digits_value_pretty_go x : ∀ s,
  digits_value 0 (to_bytes (pretty_N_go x s)) = digits_value (Z.of_N x) (to_bytes s).
Proof.
  induction (N.lt_wf_0 x) as [x _ IH]. intros s.
  destruct (decide (x = 0%N)) as [-> | Hx]; [by rewrite pretty_N_go_0 |].
  rewrite pretty_N_go_step by lia. rewrite IH by (apply N.div_lt; lia). simpl.
  destruct (code_digit (x mod 10)) as [-> ->]; [apply N.mod_lt; lia |].
  f_equal. pose proof (N.div_mod x 10 ltac:(lia)). lia.
Qed.

Lemma pretty_go_digits x : ∀ s, Forall (λ c, is_digit c = true) (to_bytes s) →
  Forall (λ c, is_digit c = true) (to_bytes (pretty_N_go x s)) ∧
  (String.length s ≤ String.length (pretty_N_go x s))%nat.
Proof.
  induction (N.lt_wf_0 x) as [x _ IH]. intros s Hs.
  destruct (decide (x = 0%N)) as [-> | Hx]; [by rewrite pretty_N_go_0 |].
  rewrite pretty_N_go_step by lia.
  destruct (IH (x `div` 10)%N ltac:(apply N.div_lt; lia) (String (pretty_N_char (x mod 10)) s)) as [H1 H2].
  { simpl. constructor; [| done]. apply code_digit, N.mod_lt. lia. }
  split; [done |]. simpl in H2. lia.
Qed.

(** A printed positive number is a non-empty string of digits with its value. *)
Lemma Itoa_pos z : (0 < z)%Z →
  to_bytes (Itoa z) ≠ [] ∧ Forall (λ c, is_digit c = true) (to_bytes (Itoa z)) ∧
  digits_value 0 (to_bytes (Itoa z)) = Some z.
Proof.
  intros Hz. destruct z as [| p | p]; [lia | | lia].
  change (Itoa (Z.pos p)) with (pretty_N_go (N.pos p) "").
  destruct (pretty_go_digits (N.pos p) ""%string) as [Hd _]; [constructor |].
  split; [| split; [done |]].
  - rewrite pretty_N_go_step by lia.
    destruct (pretty_go_digits (N.pos p `div` 10) (String (pretty_N_char (N.pos p mod 10)) "")) as [_ Hl].
    { constructor; [apply code_digit, N.mod_lt; lia | constructor]. }
    intros He. rewrite <- (to_bytes_length (pretty_N_go _ _)), He in Hl. simpl in Hl. lia.
  - by rewrite digits_value_pretty_go.
Qed.

Lemma Atoi_digits l v : l ≠ [] → Forall (λ c, is_digit c = true) l → digits_value 0 l = Some v →
  in_int64 v → Atoi (of_bytes l) = Some v.
Proof.
  intros Hne Hd Hv Hin. unfold Atoi. rewrite to_bytes_of_bytes.
  destruct l as [| c l]; [done |]. inversion Hd as [| ? ? Hc _]; subst.
  assert (c ≠ byte 43 ∧ c ≠ byte 45) as [H1 H2] by (split; intros ->; done).
  rewrite !decide_False by done. rewrite Hv. by rewrite bool_decide_eq_true_2.
Qed.

(** [strconv.Atoi] reads what [%d] prints. *)
Lemma Atoi_Itoa z : (0 < z ≤ max_int64)%Z → Atoi (Itoa z) = Some z.
Proof.
  intros Hz. destruct (Itoa_pos z) as (H1 & H2 & H3); [lia |].
  rewrite <- (of_bytes_to_bytes (Itoa z)). apply Atoi_digits; try done.
  unfold in_int64, min_int64, max_int64 in *. lia.
Qed.

(** ** The order of strings *)

#[global] Instance to_bytes_inj : Inj (=) (=) to_bytes.
Proof. intros s t Heq. by rewrite <- (of_bytes_to_bytes s), Heq, of_bytes_to_bytes. Qed.

Lemma code_inj a b : code a = code b → a = b.
Proof. intros Heq. rewrite <- (ascii_N_embedding a), <- (ascii_N_embedding b). unfold code in Heq. by rewrite Heq. Qed.

Lemma compare_bytes_eq l : ∀ r, compare_bytes l r = Eq ↔ l = r.
Proof.
  induction l as [| a l IH]; intros [| b r]; cbn [compare_bytes]; [done | done | done |].
  destruct (N.compare_spec (code a) (code b)) as [Heq | Hlt | Hgt].
  - apply code_inj in Heq as ->. rewrite IH. naive_solver.
  - split; [done |]. intros [= -> ->]. lia.
  - split; [done |]. intros [= -> ->]. lia.
Qed.

Lemma compare_bytes_opp l : ∀ r, compare_bytes r l = CompOpp (compare_bytes l r).
Proof.
  induction l as [| a l IH]; intros [| b r]; cbn [compare_bytes]; [done.. |].
  rewrite (N.compare_antisym (code a) (code b)). destruct (code a ?= code b)%N; cbn; [apply IH | done | done].
Qed.

Lemma compare_bytes_trans l : ∀ m r, compare_bytes l m = Lt → compare_bytes m r = Lt → compare_bytes l r = Lt.
Proof.
  induction l as [| a l IH]; intros [| b m] [| c r]; cbn [compare_bytes]; try done.
  destruct (N.compare_spec (code a) (code b)), (N.compare_spec (code b) (code c)); try done;
    destruct (N.compare_spec (code a) (code c)); try done; try lia. apply IH.
Qed.

#[global] Instance string_le_total : Total string_le.
Proof. intros s t. unfold string_le. rewrite (compare_bytes_opp (to_bytes s) (to_bytes t)). destruct (compare_bytes _ _); cbn; naive_solver. Qed.

#[global] Instance string_le_trans : Transitive string_le.
Proof.
  intros s t u. unfold string_le. destruct (compare_bytes (to_bytes s) (to_bytes t)) eqn:H1; [| | done].
  - apply compare_bytes_eq in H1 as ->. done.
  - destruct (compare_bytes (to_bytes t) (to_bytes u)) eqn:H2; [| | done].
    + apply compare_bytes_eq in H2 as <-. by rewrite H1.
    + by rewrite (compare_bytes_trans _ _ _ H1 H2).
Qed.

#[global] Instance string_le_antisym : AntiSymm (=) string_le.
Proof.
  intros s t. unfold string_le. rewrite (compare_bytes_opp (to_bytes s) (to_bytes t)).
  destruct (compare_bytes (to_bytes s) (to_bytes t)) eqn:H1; [| done..]. apply compare_bytes_eq in H1. intros _ _.
  by rewrite <- (of_bytes_to_bytes s), H1, of_bytes_to_bytes.
Qed.
