(* ===== verification/Utf8.v ===== *)
(** UTF-8: decoding undoes encoding, for code points that are not surrogates;
    decoding gives such code points only. *)

From S2P Require Import Prelude GoStrings.
Local Ltac Zify.zify_post_hook ::= Z.to_euclidean_division_equations.
Local Open Scope N_scope.
Local Open Scope list_scope.

Definition valid_rune (r : N) : Prop := r < 55296 ∨ 57344 ≤ r ≤ 1114111.
#[export] Instance valid_rune_dec r : Decision (valid_rune r).
Proof. unfold valid_rune. apply _. Defined.

Lemma code_byte n : n < 256 → code (byte n) = n.
Proof. apply N_ascii_embedding. Qed.

Lemma cont_byte_spec lo hi n : n < 256 → lo ≤ n ≤ hi → cont_byte lo hi (byte n) = true.
Proof. intros Hn H. unfold cont_byte. rewrite code_byte by done. apply andb_true_iff. rewrite !N.leb_le. lia. Qed.

(** One rune of each length. *)
Lemma decode_two b c1 l : 194 ≤ b < 224 → 128 ≤ c1 ≤ 191 →
  decode_rune (byte b :: byte c1 :: l) = Some ((b - 192) * 64 + (c1 - 128), l).
Proof.
  intros Hb H1. unfold decode_rune. rewrite !code_byte by lia. rewrite (proj2 (N.ltb_ge _ _)) by lia.
  unfold lead_byte. rewrite (proj2 (N.ltb_ge b 194)), (proj2 (N.ltb_lt b 224)) by lia.
  by rewrite cont_byte_spec by lia.
Qed.

Lemma lead_three b : 224 ≤ b < 240 →
  lead_byte b = Some (2%nat, if b =? 224 then 160 else 128, if b =? 237 then 159 else 191).
Proof.
  intros Hb. unfold lead_byte. rewrite (proj2 (N.ltb_ge b 194)), (proj2 (N.ltb_ge b 224)) by lia.
  destruct (N.eqb_spec b 224) as [-> |]; [done |]. destruct (N.eqb_spec b 237); [done |].
  by rewrite (proj2 (N.ltb_lt b 240)) by lia.
Qed.

Lemma decode_three b c1 c2 l : 224 ≤ b < 240 → 128 ≤ c1 ≤ 191 → 128 ≤ c2 ≤ 191 →
  (b = 224 → 160 ≤ c1) → (b = 237 → c1 ≤ 159) →
  decode_rune (byte b :: byte c1 :: byte c2 :: l) = Some ((b - 224) * 4096 + (c1 - 128) * 64 + (c2 - 128), l).
Proof.
  intros Hb H1 H2 Hlo Hhi. unfold decode_rune. rewrite !code_byte by lia. rewrite (proj2 (N.ltb_ge _ _)) by lia.
  rewrite lead_three by done. rewrite !cont_byte_spec; try lia; [done |].
  destruct (N.eqb_spec b 224), (N.eqb_spec b 237); lia.
Qed.

Lemma lead_four b : 240 ≤ b ≤ 244 →
  lead_byte b = Some (3%nat, if b =? 240 then 144 else 128, if b =? 244 then 143 else 191).
Proof.
  intros Hb. unfold lead_byte. rewrite (proj2 (N.ltb_ge b 194)), (proj2 (N.ltb_ge b 224)), (proj2 (N.ltb_ge b 240)) by lia.
  rewrite (proj2 (N.eqb_neq b 224)), (proj2 (N.eqb_neq b 237)) by lia.
  destruct (N.eqb_spec b 240) as [-> |]; [done |]. destruct (N.eqb_spec b 244) as [-> |]; [done |].
  by rewrite (proj2 (N.ltb_lt b 244)) by lia.
Qed.

Lemma decode_four b c1 c2 c3 l : 240 ≤ b ≤ 244 → 128 ≤ c1 ≤ 191 → 128 ≤ c2 ≤ 191 → 128 ≤ c3 ≤ 191 →
  (b = 240 → 144 ≤ c1) → (b = 244 → c1 ≤ 143) →
  decode_rune (byte b :: byte c1 :: byte c2 :: byte c3 :: l) =
    Some ((b - 240) * 262144 + (c1 - 128) * 4096 + (c2 - 128) * 64 + (c3 - 128), l).
Proof.
  intros Hb H1 H2 H3 Hlo Hhi. unfold decode_rune. rewrite !code_byte by lia. rewrite (proj2 (N.ltb_ge _ _)) by lia.
  rewrite lead_four by done. rewrite !cont_byte_spec; try lia; [done |].
  destruct (N.eqb_spec b 240), (N.eqb_spec b 244); lia.
Qed.

Lemma decode_encode r l : valid_rune r → decode_rune (encode_rune r ++ l) = Some (r, l).
Proof.
  unfold valid_rune, encode_rune. intros Hr.
  destruct (N.ltb_spec r 128); cbn [map app].
  { unfold decode_rune. rewrite code_byte by lia. by rewrite (proj2 (N.ltb_lt _ _)) by done. }
  destruct (N.ltb_spec r 2048); cbn [map app].
  { rewrite decode_two by lia. do 2 f_equal. lia. }
  rewrite (proj2 (N.ltb_ge 1114111 r)) by lia.
  destruct (N.leb_spec 55296 r), (N.ltb_spec r 57344); cbn [andb orb]; try lia.
  - destruct (N.ltb_spec r 65536); cbn [map app]; [rewrite decode_three by lia | rewrite decode_four by lia]; do 2 f_equal; lia.
  - rewrite (proj2 (N.ltb_lt r 65536)) by lia. cbn [map app]. rewrite decode_three by lia. do 2 f_equal. lia.
Qed.

Lemma encode_not_empty r : encode_rune r ≠ [].
Proof. unfold encode_rune. by repeat case_match. Qed.

(** Strings of valid runes. *)
Lemma decode_runes_app rs l : Forall valid_rune rs → ∀ fuel, (length (concat (map encode_rune rs) ++ l) ≤ fuel)%nat →
  decode_runes fuel (concat (map encode_rune rs) ++ l) = rs ++ decode_runes (fuel - length rs) l.
Proof.
  induction 1 as [| r rs Hr Hrs IH]; intros fuel Hf; cbn [map concat app] in *.
  { by rewrite Nat.sub_0_r. }
  rewrite <- app_assoc in *. pose proof (encode_not_empty r) as Hne.
  destruct fuel as [| fuel]. { rewrite length_app in Hf. destruct (encode_rune r); [done | simpl in Hf; lia]. }
  cbn [decode_runes]. rewrite decode_encode by done. rewrite IH; [done |].
  rewrite length_app in Hf. destruct (encode_rune r); [done | simpl in Hf; lia].
Qed.

Lemma decode_shorter l r l' : decode_rune l = Some (r, l') → (length l' < length l)%nat.
Proof.
  unfold decode_rune. destruct l as [| c l]; [done |]. intros H.
  repeat case_match; simplify_eq; simpl; lia.
Qed.

Lemma decode_fuel fuel fuel' l : (length l ≤ fuel)%nat → (length l ≤ fuel')%nat → decode_runes fuel l = decode_runes fuel' l.
Proof.
  revert fuel' l. induction fuel as [| fuel IH]; intros fuel' l Hl Hl'.
  - destruct l; [by destruct fuel' | simpl in Hl; lia].
  - destruct fuel' as [| fuel']; [destruct l; [done | simpl in Hl'; lia] |]. cbn [decode_runes].
    destruct (decode_rune l) as [[r l'] |] eqn:Hd; [| done]. apply decode_shorter in Hd. f_equal. apply IH; lia.
Qed.

Lemma runes_append rs s : Forall valid_rune rs → runes (of_runes rs +:+ s) = rs ++ runes s.
Proof.
  intros Hrs. unfold runes, of_runes. rewrite to_bytes_append, to_bytes_of_bytes, decode_runes_app; [| done |].
  - f_equal. apply decode_fuel; rewrite to_bytes_length; [| done].
    assert (length rs ≤ length (concat (map encode_rune rs)))%nat.
    { clear Hrs. induction rs as [| r rs IH]; [done |]. cbn. rewrite length_app. pose proof (encode_not_empty r).
      destruct (encode_rune r); [done | simpl in *; lia]. }
    rewrite <- (to_bytes_length (_ +:+ _)), to_bytes_append, to_bytes_of_bytes, length_app, to_bytes_length. lia.
  - by rewrite <- (to_bytes_length (_ +:+ _)), to_bytes_append, to_bytes_of_bytes.
Qed.

Lemma runes_of_runes rs : Forall valid_rune rs → runes (of_runes rs) = rs.
Proof.
  intros Hrs. pose proof (runes_append rs "" Hrs) as H. rewrite app_nil_r in H.
  rewrite <- H at 2. f_equal. rewrite <- (of_bytes_to_bytes (of_runes rs +:+ "")), to_bytes_append, app_nil_r.
  by rewrite of_bytes_to_bytes.
Qed.

Lemma code_below_256 c : code c < 256.
Proof. apply N_ascii_bounded. Qed.

Lemma cont_byte_inv lo hi c : cont_byte lo hi c = true → lo ≤ code c ≤ hi.
Proof. unfold cont_byte. rewrite andb_true_iff, !N.leb_le. done. Qed.

Lemma lead_byte_inv b n lo hi : lead_byte b = Some (n, lo, hi) →
  (n = 1%nat ∧ 194 ≤ b < 224 ∧ lo = 128 ∧ hi = 191) ∨
  (n = 2%nat ∧ 224 ≤ b < 240 ∧ 128 ≤ lo ∧ hi ≤ 191 ∧ (b = 224 → lo = 160) ∧ (b = 237 → hi = 159)) ∨
  (n = 3%nat ∧ 240 ≤ b ≤ 244 ∧ 128 ≤ lo ∧ hi ≤ 191 ∧ (b = 240 → lo = 144) ∧ (b = 244 → hi = 143)).
Proof.
  unfold lead_byte. destruct (N.ltb_spec b 194); [done |].
  destruct (N.ltb_spec b 224); [intros [= <- <- <-]; lia |].
  destruct (N.eqb_spec b 224); [intros [= <- <- <-]; lia |].
  destruct (N.eqb_spec b 237); [intros [= <- <- <-]; lia |].
  destruct (N.ltb_spec b 240); [intros [= <- <- <-]; lia |].
  destruct (N.eqb_spec b 240); [intros [= <- <- <-]; lia |].
  destruct (N.ltb_spec b 244); [intros [= <- <- <-]; lia |].
  destruct (N.eqb_spec b 244); [intros [= <- <- <-]; lia | done].
Qed.

Lemma decode_valid l r l' : decode_rune l = Some (r, l') → valid_rune r.
Proof.
  unfold decode_rune. destruct l as [| c l]; [done |].
  destruct (N.ltb_spec (code c) 128); [intros [= <- <-]; left; lia |]. intros [= Hd]. revert Hd.
  assert (valid_rune RuneError) as He by (right; unfold RuneError; lia).
  destruct (lead_byte (code c)) as [[[n lo] hi] |] eqn:Hlead; [| by intros [= <- <-]].
  apply lead_byte_inv in Hlead as [(-> & Hb & -> & ->) | [(-> & Hb & Hlo & Hhi & H1 & H2) | (-> & Hb & Hlo & Hhi & H1 & H2)]].
  - destruct l as [| c1 l]; [by intros [= <- <-] |].
    destruct (cont_byte _ _ c1) eqn:Hc1; [| by intros [= <- <-]]. apply cont_byte_inv in Hc1. intros [= <- <-]. left. lia.
  - destruct l as [| c1 [| c2 l]]; [by intros [= <- <-].. |].
    destruct (cont_byte lo hi c1 && cont_byte 128 191 c2) eqn:Hc; [| by intros [= <- <-]].
    apply andb_true_iff in Hc as [Hc1%cont_byte_inv Hc2%cont_byte_inv]. intros [= <- <-]. unfold valid_rune. lia.
  - destruct l as [| c1 [| c2 [| c3 l]]]; [by intros [= <- <-].. |].
    destruct (cont_byte lo hi c1 && cont_byte 128 191 c2 && cont_byte 128 191 c3) eqn:Hc; [| by intros [= <- <-]].
    apply andb_true_iff in Hc as [[Hc1%cont_byte_inv Hc2%cont_byte_inv]%andb_true_iff Hc3%cont_byte_inv].
    intros [= <- <-]. right. lia.
Qed.

Lemma runes_valid s : Forall valid_rune (runes s).
Proof.
  unfold runes. generalize (String.length s), (to_bytes s). induction n as [| fuel IH]; intros l; cbn [decode_runes]; [done |].
  destruct (decode_rune l) as [[r l'] |] eqn:Hd; [| done]. constructor; [by eapply decode_valid | done].
Qed.

(** Cutting a string at a rune, and reading the runes of the piece. *)
Lemma runes_take n s : runes (of_runes (take n (runes s))) = take n (runes s).
Proof. apply runes_of_runes, Forall_take, runes_valid. Qed.

(** A rune below 128 is a byte of the string. *)
Lemma decode_ascii l r l' : decode_rune l = Some (r, l') → r < 128 → l = byte r :: l'.
Proof.
  unfold decode_rune. destruct l as [| c l]; [done |].
  destruct (N.ltb_spec (code c) 128).
  { intros [= <- <-] _. unfold byte, code. by rewrite ascii_N_embedding. }
  intros [= Hd] Hr. exfalso. revert Hd.
  assert (∀ x, (RuneError, x) = (r, l') → False) as He by (intros x [= <- _]; unfold RuneError in Hr; lia).
  destruct (lead_byte (code c)) as [[[n lo] hi] |] eqn:Hlead; [| apply He].
  apply lead_byte_inv in Hlead as [(-> & Hb & -> & ->) | [(-> & Hb & Hlo & Hhi & H1 & H2) | (-> & Hb & Hlo & Hhi & H1 & H2)]].
  - destruct l as [| c1 l]; [apply He |].
    destruct (cont_byte _ _ c1) eqn:Hc1; [| apply He]. apply cont_byte_inv in Hc1. intros [= <- <-]. lia.
  - destruct l as [| c1 [| c2 l]]; [apply He.. |].
    destruct (cont_byte lo hi c1 && cont_byte 128 191 c2) eqn:Hc; [| apply He].
    apply andb_true_iff in Hc as [Hc1%cont_byte_inv Hc2%cont_byte_inv]. intros [= <- <-]. lia.
  - destruct l as [| c1 [| c2 [| c3 l]]]; [apply He.. |].
    destruct (cont_byte lo hi c1 && cont_byte 128 191 c2 && cont_byte 128 191 c3) eqn:Hc; [| apply He].
    apply andb_true_iff in Hc as [[Hc1%cont_byte_inv Hc2%cont_byte_inv]%andb_true_iff Hc3%cont_byte_inv].
    intros [= <- <-]. lia.
Qed.

Lemma decode_suffix l r l' : decode_rune l = Some (r, l') → l' `suffix_of` l.
Proof.
  unfold decode_rune. destruct l as [| c l]; [done |]. intros H.
  repeat case_match; simplify_eq; first [by apply suffix_cons_r | by do 2 apply suffix_cons_r | by do 3 apply suffix_cons_r | by do 4 apply suffix_cons_r].
Qed.

Lemma ascii_runes s r : r ∈ runes s → r < 128 → byte r ∈ to_bytes s.
Proof.
  unfold runes. generalize (String.length s), (to_bytes s). induction n as [| fuel IH]; intros l; cbn [decode_runes].
  { intros H. by apply not_elem_of_nil in H. }
  destruct (decode_rune l) as [[r' l'] |] eqn:Hd; [| intros H; by apply not_elem_of_nil in H].
  intros [-> | Hin]%elem_of_cons Hr.
  - apply decode_ascii in Hd as ->; [by left | done].
  - destruct (decode_suffix _ _ _ Hd) as [k ->]. apply elem_of_app. right. by apply IH.
Qed.

(** The bytes of other runes than ASCII are not ASCII. *)
Lemma encode_high r c : 128 ≤ r → c ∈ encode_rune r → 128 ≤ code c.
Proof.
  intros Hr. unfold encode_rune. rewrite (proj2 (N.ltb_ge _ _)) by done.
  assert (∀ n, 128 ≤ n < 256 → 128 ≤ code (byte n)) as Hb by (intros n Hn; rewrite code_byte; lia).
  destruct (N.ltb_spec r 2048); [| destruct (N.ltb_spec 1114111 r); [| destruct (N.leb_spec 55296 r), (N.ltb_spec r 57344), (N.ltb_spec r 65536)]];
    cbn [map andb orb]; rewrite !elem_of_cons; intros Hin; repeat destruct Hin as [-> | Hin]; try (by apply not_elem_of_nil in Hin);
    apply Hb; lia.
Qed.
