(* ===== verification/NamedLocks.v ===== *)
(** Locks by name: [NamedLockManager] of [openclaw/util/locker.go].

    A lock is a channel of one place with a count of the goroutines that refer
    to it; it leaves the map [gates] with the last of them.  Locks live on a
    heap, since a goroutine keeps its pointer between the critical sections.
    The steps are the critical sections of [Lock] and of the function it
    returns, and the two ways out of its [select]. *)

From S2P Require Import Prelude.

Record countedLock := mkLock { ch : bool; refCount : Z }.

(** What a goroutine that called [Lock] is doing: waiting at a lock, or holding
    it; it knows the key and the pointer. *)
Record client := mkClient { ckey : string; gate : nat; holds : bool }.

Record manager := mkManager { gates : gmap string nat; locks : gmap nat countedLock; clients : gmap nat client }.

Definition NewNamedLockManager : manager := mkManager ∅ ∅ ∅.

Definition add_ref (d : Z) (lock : countedLock) : countedLock := mkLock (ch lock) (refCount lock + d).
Definition set_ch (b : bool) (lock : countedLock) : countedLock := mkLock b (refCount lock).

(** [lock.refCount--], and the entry of [key] is deleted when it gets to zero. *)
Definition drop_ref (key : string) (l : nat) (gs : gmap string nat) (ls : gmap nat countedLock) : gmap string nat * gmap nat countedLock :=
  let ls := alter (add_ref (-1)) l ls in
  (if bool_decide (refCount <$> ls !! l = Some 0%Z) then delete key gs else gs, ls).

Inductive lock_label :=
  | Arrive (i : nat) (key : string)   (** the first critical section of [Lock] *)
  | Enter (i : nat)                   (** the channel takes the token *)
  | Abandon (i : nat)                  (** the context is done *)
  | Unlock (i : nat).                 (** the returned function *)

Definition arrive (i : nat) (key : string) (m : manager) : manager :=
  match gates m !! key with
  | Some l => mkManager (gates m) (alter (add_ref 1) l (locks m)) (<[i := mkClient key l false]> (clients m))
  | None =>
      let l := fresh (dom (locks m)) in
      mkManager (<[key := l]> (gates m)) (<[l := mkLock false 1]> (locks m)) (<[i := mkClient key l false]> (clients m))
  end.

Definition abandon (i : nat) (c : client) (m : manager) : manager :=
  let '(gs, ls) := drop_ref (ckey c) (gate c) (gates m) (locks m) in
  mkManager gs ls (delete i (clients m)).

Definition enter (i : nat) (c : client) (m : manager) : manager :=
  mkManager (gates m) (alter (set_ch true) (gate c) (locks m)) (<[i := mkClient (ckey c) (gate c) true]> (clients m)).

Definition unlock (i : nat) (c : client) (m : manager) : manager :=
  let '(gs, ls) := drop_ref (ckey c) (gate c) (gates m) (alter (set_ch false) (gate c) (locks m)) in
  mkManager gs ls (delete i (clients m)).

(** Goroutines are numbered in the order of their calls; each function [Lock]
    returns is called once. *)
Inductive lock_step (m : manager) : lock_label → manager → Prop :=
  | step_arrive i key : clients m !! i = None → lock_step m (Arrive i key) (arrive i key m)
  | step_enter i c lock : clients m !! i = Some c → holds c = false → locks m !! gate c = Some lock → ch lock = false →
      lock_step m (Enter i) (enter i c m)
  | step_abandon i c : clients m !! i = Some c → holds c = false → lock_step m (Abandon i) (abandon i c m)
  | step_unlock i c lock : clients m !! i = Some c → holds c = true → locks m !! gate c = Some lock → ch lock = true →
      lock_step m (Unlock i) (unlock i c m).

(** ** The invariant *)

(** The clients of a lock. *)
Definition users (l : nat) (cs : gmap nat client) : gmap nat client := filter (λ ic, gate ic.2 = l) cs.

Record manager_ok (m : manager) : Prop := {
  (** every client's lock is the one under its key *)
  ok_gate i c : clients m !! i = Some c → gates m !! ckey c = Some (gate c);
  (** every lock in the map is counted, and has a client *)
  ok_lock key l : gates m !! key = Some l → ∃ lock, locks m !! l = Some lock ∧
    refCount lock = Z.of_nat (size (users l (clients m))) ∧ (0 < refCount lock)%Z ∧
    (ch lock = true ↔ ∃ i c, clients m !! i = Some c ∧ gate c = l ∧ holds c = true);
  (** under its own key *)
  ok_inj key key' l : gates m !! key = Some l → gates m !! key' = Some l → key = key';
  (** one client holds it *)
  ok_one i j c d : clients m !! i = Some c → clients m !! j = Some d → gate c = gate d →
    holds c = true → holds d = true → i = j
}.

Lemma users_insert l i c cs : cs !! i = None →
  size (users l (<[i := c]> cs)) = size (users l cs) + (if bool_decide (gate c = l) then 1 else 0).
Proof.
  intros Hi. unfold users. case_bool_decide.
  - rewrite map_filter_insert_True by done. rewrite map_size_insert_None; [lia |]. by apply map_lookup_filter_None_2; left.
  - rewrite map_filter_insert_False by done. rewrite delete_id by done. lia.
Qed.

Lemma users_delete l i c cs : cs !! i = Some c →
  size (users l cs) = size (users l (delete i cs)) + (if bool_decide (gate c = l) then 1 else 0).
Proof.
  intros Hi. rewrite <- (insert_delete_id cs i c Hi) at 1. apply users_insert. apply lookup_delete_eq.
Qed.

Lemma users_alter l i c d cs : cs !! i = Some c → gate d = gate c → size (users l (<[i := d]> cs)) = size (users l cs).
Proof.
  intros Hi Hg. rewrite <- (insert_delete_eq cs i d), users_insert by apply lookup_delete_eq.
  rewrite (users_delete l i c cs Hi). by rewrite Hg.
Qed.

(** One client leaves its lock, whose channel becomes [f] of it. *)
Lemma ok_leave m i c f : manager_ok m → clients m !! i = Some c →
  (∀ lock, refCount (f lock) = refCount lock) →
  (∀ lock, locks m !! gate c = Some lock →
     ch (f lock) = true ↔ ∃ j d, delete i (clients m) !! j = Some d ∧ gate d = gate c ∧ holds d = true) →
  let '(gs, ls) := drop_ref (ckey c) (gate c) (gates m) (alter f (gate c) (locks m)) in
  manager_ok (mkManager gs ls (delete i (clients m))).
Proof.
  intros Hok Hi Hf Hch. specialize (ok_gate m Hok i c Hi) as Hg.
  destruct (ok_lock m Hok _ _ Hg) as (lock & Hlock & Href & Hpos & _).
  specialize (Hch lock Hlock). rewrite (users_delete _ _ _ _ Hi), bool_decide_true in Href by done.
  unfold drop_ref. rewrite !lookup_alter_eq, Hlock. cbn [fmap option_fmap option_map add_ref refCount]. rewrite Hf.
  set (gs := if bool_decide _ then _ else _).
  assert (∀ key l, gs !! key = Some l ↔ gates m !! key = Some l ∧ (key = ckey c → refCount lock ≠ 1%Z)) as Hgs.
  { intros key l. subst gs. case_bool_decide as H0.
    - rewrite lookup_delete_Some. injection H0 as H0. split; [naive_solver | intros [? H]; split; [| done]; intros <-; apply H; [done | lia]].
    - split; [intros H; split; [done | intros _ H1; apply H0; f_equal; lia] | by intros [? _]]. }
  split; cbn [gates locks clients].
  - intros j d Hj. apply Hgs. apply lookup_delete_Some in Hj as [Hne Hj]. split; [by apply (ok_gate m Hok j) |].
    intros Hkey Hone. specialize (ok_gate m Hok j d Hj) as Hd. rewrite Hkey, Hg in Hd. injection Hd as Hd.
    assert (size (users (gate c) (delete i (clients m))) = 0) as H0%map_size_empty_inv by lia.
    assert (users (gate c) (delete i (clients m)) !! j = Some d) as Hin; [| by rewrite H0 in Hin].
    apply map_lookup_filter_Some. by rewrite lookup_delete_ne by done.
  - intros key l [Hkey Hone]%Hgs. destruct (ok_lock m Hok _ _ Hkey) as (lock' & Hlock' & Href' & Hpos' & Hch').
    destruct (decide (l = gate c)) as [-> | Hne].
    + rewrite Hlock in Hlock'. injection Hlock' as <-. eexists. rewrite !lookup_alter_eq, Hlock. split; [done |]. cbn. rewrite Hf.
      assert (key = ckey c) as -> by by eapply ok_inj. specialize (Hone eq_refl). split; [lia |]. split; [lia |].
      rewrite Hch. done.
    + exists lock'. rewrite !lookup_alter_ne by done. split; [done |]. split; [| split; [done |]].
      * rewrite Href', (users_delete l i c) by done. rewrite bool_decide_false by done. lia.
      * rewrite Hch'. split; intros (j & d & Hj & Hd & Hh); exists j, d; (split; [| done]).
        -- rewrite lookup_delete_ne; [done |]. intros ->. rewrite Hi in Hj. by injection Hj as ->.
        -- by apply lookup_delete_Some in Hj as [_ Hj].
  - intros key key' l [H1 _]%Hgs [H2 _]%Hgs. by eapply ok_inj.
  - intros j k d e Hj Hk. apply lookup_delete_Some in Hj as [_ Hj], Hk as [_ Hk]. by eapply ok_one.
Qed.

Lemma drop_ref_id c m : drop_ref (ckey c) (gate c) (gates m) (locks m) = drop_ref (ckey c) (gate c) (gates m) (alter id (gate c) (locks m)).
Proof. by rewrite alter_id. Qed.

Lemma ok_arrive m i key : manager_ok m → clients m !! i = None → manager_ok (arrive i key m).
Proof.
  intros Hok Hi. unfold arrive. destruct (gates m !! key) as [l |] eqn:Hkey.
  - split; cbn.
    + intros j d. rewrite lookup_insert_Some. intros [[<- <-] | [_ Hj]]; [done | by apply (ok_gate m Hok j)].
    + intros key' l' Hl'. destruct (ok_lock m Hok _ _ Hl') as (lock & Hlock & Href & Hpos & Hch).
      assert ((∃ j d, <[i:=mkClient key l false]> (clients m) !! j = Some d ∧ gate d = l' ∧ holds d = true) ↔
        ∃ j d, clients m !! j = Some d ∧ gate d = l' ∧ holds d = true) as Hsame.
      { split; intros (j & d & Hj & Hd & Hh); exists j, d; (split; [| done]).
        - apply lookup_insert_Some in Hj as [[<- <-] | [_ Hj]]; done.
        - rewrite lookup_insert_ne; [done |]. intros <-. by rewrite Hi in Hj. }
      rewrite users_insert by done. cbn [gate]. destruct (decide (l = l')) as [<- | Hne].
      * rewrite lookup_alter_eq, Hlock, bool_decide_true by done. eexists. split; [done |]. cbn. split; [lia |]. split; [lia |]. by rewrite Hsame.
      * rewrite lookup_alter_ne, bool_decide_false by done. exists lock. split; [done |]. split; [lia |]. split; [done |]. by rewrite Hsame.
    + apply (ok_inj m Hok).
    + intros j k d e Hj Hk. apply lookup_insert_Some in Hj as [[<- <-] | [_ Hj]]; [done |].
      apply lookup_insert_Some in Hk as [[<- <-] | [_ Hk]]; [done |]. by eapply ok_one.
  - set (l := fresh (dom (locks m))).
    assert (locks m !! l = None) as Hfresh by apply not_elem_of_dom, is_fresh.
    assert (∀ key', gates m !! key' ≠ Some l) as Hnew.
    { intros key' H. destruct (ok_lock m Hok _ _ H) as (lock & Hlock & _). congruence. }
    assert (∀ j d, clients m !! j = Some d → gate d ≠ l ∧ ckey d ≠ key) as Hcl.
    { intros j d Hj. specialize (ok_gate m Hok j d Hj) as Hd. split; [intros <-; by eapply Hnew | intros <-; congruence]. }
    split; cbn.
    + intros j d. rewrite lookup_insert_Some. intros [[<- <-] | [_ Hj]]; cbn; [by rewrite lookup_insert_eq |].
      rewrite lookup_insert_ne by (symmetry; by eapply Hcl). by apply (ok_gate m Hok j).
    + intros key' l' Hl'. apply lookup_insert_Some in Hl' as [[<- <-] | [Hne Hl']].
      * rewrite lookup_insert_eq. eexists. split; [done |]. cbn. rewrite users_insert, bool_decide_true by done.
        assert (users l (clients m) = ∅) as ->.
        { apply map_empty. intros j. apply map_lookup_filter_None_2. destruct (clients m !! j) as [d |] eqn:Hj; [right; intros ? [= <-]; by eapply Hcl | by left]. }
        rewrite map_size_empty. split; [done |]. split; [done |]. split; [done |].
        intros (j & d & Hj & Hd & Hh). apply lookup_insert_Some in Hj as [[<- <-] | [_ Hj]]; [done |]. by destruct (Hcl j d Hj).
      * destruct (ok_lock m Hok _ _ Hl') as (lock & Hlock & Href & Hpos & Hch).
        assert (l ≠ l') as Hll by (intros <-; by eapply Hnew).
        rewrite lookup_insert_ne by done. exists lock. split; [done |]. rewrite users_insert, bool_decide_false by done. split; [lia |]. split; [done |].
        rewrite Hch. split; intros (j & d & Hj & Hd & Hh); exists j, d; (split; [| done]).
        -- rewrite lookup_insert_ne; [done |]. intros <-. by rewrite Hi in Hj.
        -- apply lookup_insert_Some in Hj as [[<- <-] | [_ Hj]]; done.
    + intros k1 k2 l' H1 H2. apply lookup_insert_Some in H1 as [[<- <-] | [Hn1 H1]], H2 as [[<- Hl2] | [Hn2 H2]]; [done | by destruct (Hnew k2) | by subst; destruct (Hnew k1) | by eapply ok_inj].
    + intros j k d e Hj Hk. apply lookup_insert_Some in Hj as [[<- <-] | [_ Hj]]; [done |].
      apply lookup_insert_Some in Hk as [[<- <-] | [_ Hk]]; [done |]. by eapply ok_one.
Qed.

Lemma ok_enter m i c lock : manager_ok m → clients m !! i = Some c → holds c = false →
  locks m !! gate c = Some lock → ch lock = false → manager_ok (enter i c m).
Proof.
  intros Hok Hi Hh Hlock Hch. specialize (ok_gate m Hok i c Hi) as Hg.
  assert (∀ j d, clients m !! j = Some d → gate d = gate c → holds d = false) as Hnone.
  { intros j d Hj Hd. destruct (holds d) eqn:H; [| done]. destruct (ok_lock m Hok _ _ Hg) as (lock' & Hlock' & _ & _ & Hiff).
    rewrite Hlock in Hlock'. injection Hlock' as <-. rewrite (proj2 Hiff) in Hch; [done |]. by exists j, d. }
  unfold enter. split; cbn.
  - intros j d. rewrite lookup_insert_Some. intros [[<- <-] | [_ Hj]]; [done | by apply (ok_gate m Hok j)].
  - intros key l Hl. destruct (ok_lock m Hok _ _ Hl) as (lock' & Hlock' & Href & Hpos & Hiff).
    rewrite (users_alter l i c) by done. destruct (decide (l = gate c)) as [-> | Hne].
    + rewrite lookup_alter_eq, Hlock'. eexists. split; [done |]. cbn. split; [done |]. split; [done |]. split; [intros _ | done].
      eexists i, _. by rewrite lookup_insert_eq.
    + rewrite lookup_alter_ne by done. exists lock'. split; [done |]. split; [done |]. split; [done |].
      rewrite Hiff. split; intros (j & d & Hj & Hd & Hdh); exists j, d; (split; [| done]).
      * rewrite lookup_insert_ne; [done |]. intros <-. rewrite Hi in Hj. injection Hj as <-. by rewrite Hh in Hdh.
      * apply lookup_insert_Some in Hj as [[<- <-] | [_ Hj]]; [by subst | done].
  - apply (ok_inj m Hok).
  - intros j k d e Hj Hk Hde Hdh Heh. apply lookup_insert_Some in Hj as [[<- <-] | [Hnj Hj]], Hk as [[<- <-] | [Hnk Hk]]; [done | | | by eapply ok_one].
    + rewrite (Hnone k e) in Heh; done.
    + rewrite (Hnone j d) in Hdh; done.
Qed.

Lemma ok_step m l m' : manager_ok m → lock_step m l m' → manager_ok m'.
Proof.
  intros Hok Hstep. destruct Hstep as [i key Hi | i c lock Hi Hh Hl Hc | i c Hi Hh | i c lock Hi Hh Hl Hc].
  - by apply ok_arrive.
  - by eapply ok_enter.
  - unfold abandon. rewrite drop_ref_id. apply (ok_leave m i c id Hok Hi); [done |]. intros lock Hlock.
    destruct (ok_lock m Hok _ _ (ok_gate m Hok i c Hi)) as (lock' & Hlock' & _ & _ & Hiff). rewrite Hlock in Hlock'. injection Hlock' as <-.
    cbn. rewrite Hiff. split; intros (j & d & Hj & Hd & Hdh); exists j, d; (split; [| done]).
    + rewrite lookup_delete_ne; [done |]. intros ->. rewrite Hi in Hj. injection Hj as <-. by rewrite Hh in Hdh.
    + by apply lookup_delete_Some in Hj as [_ Hj].
  - apply (ok_leave m i c (set_ch false) Hok Hi); [done |]. intros lock' _. cbn. split; [done |].
    intros (j & d & Hj & Hd & Hdh). apply lookup_delete_Some in Hj as [Hne Hj]. destruct Hne. by eapply (ok_one m Hok).
Qed.

Lemma ok_new : manager_ok NewNamedLockManager.
Proof. split; cbn; [intros i c | intros key l | intros key key' l | intros i j c d]; by rewrite lookup_empty. Qed.

Lemma ok_reachable ls m : steps lock_step NewNamedLockManager ls m → manager_ok m.
Proof. intros H. eapply (steps_invariant lock_step manager_ok); [intros ????; by apply ok_step | exact H | apply ok_new]. Qed.

(** Whatever goroutines do and in whichever order they run, a named lock is
    held by at most one of them; one that waits can take it exactly when no
    other holds that name; and the map keeps a name exactly as long as somebody
    waits for it or holds it. *)
Theorem named_locks_exclude ls m :
  steps lock_step NewNamedLockManager ls m →
  (∀ i j c d, clients m !! i = Some c → clients m !! j = Some d → ckey c = ckey d → holds c = true → holds d = true → i = j) ∧
  (∀ i c, clients m !! i = Some c → holds c = false →
     (∃ m', lock_step m (Enter i) m') ↔ ∀ j d, clients m !! j = Some d → ckey d = ckey c → holds d = false) ∧
  (∀ i c, clients m !! i = Some c → holds c = true → ∃ m', lock_step m (Unlock i) m') ∧
  ∀ key, is_Some (gates m !! key) ↔ ∃ i c, clients m !! i = Some c ∧ ckey c = key.
Proof.
  intros Hok%ok_reachable.
  assert (∀ i j c d, clients m !! i = Some c → clients m !! j = Some d → ckey c = ckey d → gate c = gate d) as Hgate.
  { intros i j c d Hi Hj Hk. apply (ok_gate m Hok) in Hi, Hj. rewrite Hk in Hi. congruence. }
  split; [| split; [| split]].
  - intros i j c d Hi Hj Hk. apply (ok_one m Hok i j c d); [done.. | by eapply Hgate].
  - intros i c Hi Hh. destruct (ok_lock m Hok _ _ (ok_gate m Hok i c Hi)) as (lock & Hlock & _ & _ & Hiff). split.
    + intros [m' Hm'] j d Hj Hk. inversion Hm' as [| ? c' lock' Hi' _ Hlock' Hch | |]; subst. destruct (holds d) eqn:Hd; [| done].
      rewrite Hi in Hi'. injection Hi' as <-. rewrite Hlock in Hlock'. injection Hlock' as <-.
      rewrite (proj2 Hiff) in Hch; [done |]. exists j, d. split; [done |]. split; [by eapply Hgate | done].
    + intros Hnone. exists (enter i c m). apply (step_enter m i c lock); [done.. |]. destruct (ch lock) eqn:Hch; [| done].
      destruct Hiff as [Hiff _]. destruct (Hiff eq_refl) as (j & d & Hj & Hd & Hdh). rewrite (Hnone j d) in Hdh; [done | done |].
      eapply (ok_inj m Hok); [by apply (ok_gate m Hok j) |]. rewrite Hd. by apply (ok_gate m Hok i).
  - intros i c Hi Hh. destruct (ok_lock m Hok _ _ (ok_gate m Hok i c Hi)) as (lock & Hlock & _ & _ & Hiff).
    exists (unlock i c m). apply (step_unlock m i c lock); [done.. |]. apply Hiff. by exists i, c.
  - intros key. split.
    + intros [l Hl]. destruct (ok_lock m Hok _ _ Hl) as (lock & _ & Href & Hpos & _).
      destruct (map_choose (users l (clients m))) as (i & c & Hc).
      { intros He. rewrite He, map_size_empty in Href. lia. }
      apply map_lookup_filter_Some in Hc as [Hc Hg]. exists i, c. split; [done |]. eapply (ok_inj m Hok); [by apply (ok_gate m Hok i) | by cbn in Hg; rewrite Hg].
    + intros (i & c & Hi & <-). rewrite (ok_gate m Hok i c Hi). by eexists.
Qed.

(** Two goroutines at one name: while the first holds it, the second waits. *)
Definition two_at_a_lock : manager :=
  mkManager {["a" := 0]} {[0 := mkLock true 2]} {[0 := mkClient "a" 0 true; 1 := mkClient "a" 0 false]}.

Lemma two_reached : steps lock_step NewNamedLockManager [Arrive 0 "a"; Arrive 1 "a"; Enter 0] two_at_a_lock.
Proof.
  set (m1 := mkManager {["a" := 0]} {[0 := mkLock false 1]} {[0 := mkClient "a" 0 false]}).
  set (m2 := mkManager {["a" := 0]} {[0 := mkLock false 2]} {[0 := mkClient "a" 0 false; 1 := mkClient "a" 0 false]}).
  assert (m1 = arrive 0 "a" NewNamedLockManager) as H1 by by vm_compute.
  assert (m2 = arrive 1 "a" m1) as H2 by by vm_compute.
  assert (two_at_a_lock = enter 0 (mkClient "a" 0 false) m2) as H3 by by vm_compute.
  econstructor; [by apply step_arrive |]. rewrite <- H1.
  econstructor; [by apply step_arrive |]. rewrite <- H2.
  econstructor; [by apply (step_enter m2 0 (mkClient "a" 0 false) (mkLock false 2)) |]. rewrite <- H3. constructor.
Qed.

Lemma named_locks_exclude_witness : ¬ ∃ m', lock_step two_at_a_lock (Enter 1) m'.
Proof.
  rewrite (proj1 (proj2 (named_locks_exclude _ _ two_reached)) 1 (mkClient "a" 0 false)); [| done | done].
  intros H. by specialize (H 0 (mkClient "a" 0 true) eq_refl eq_refl).
Defined.
