(* ===== verification/Encoding.v ===== *)
(** Encodings of the standard library: the SHA-256 of [crypto/sha256], lower-case
    hexadecimal digits and the base-64 of [encoding/base64], without padding in the URL alphabet to
    write and with padding in the standard alphabet to read. *)

From S2P Require Import Prelude GoStrings.
Local Open Scope N_scope.
Local Open Scope list_scope.

Local Ltac Zify.zify_post_hook ::= Z.to_euclidean_division_equations.

(** ** SHA-256 *)

Definition word_mod : N := 2^32.
Definition add32 (x y : N) : N := (x + y) mod word_mod.
Definition rotr (n x : N) : N := N.lor (N.shiftr x n) (N.shiftl x (32 - n) mod word_mod).
Definition xor3 (x y z : N) : N := N.lxor x (N.lxor y z).
Definition not32 (x : N) : N := word_mod - 1 - x.

Definition sha_K : list N := [
    1116352408; 1899447441; 3049323471; 3921009573; 961987163; 1508970993; 2453635748; 2870763221; 3624381080;
    310598401; 607225278; 1426881987; 1925078388; 2162078206; 2614888103; 3248222580; 3835390401; 4022224774; 264347078;
    604807628; 770255983; 1249150122; 1555081692; 1996064986; 2554220882; 2821834349; 2952996808; 3210313671;
    3336571891; 3584528711; 113926993; 338241895; 666307205; 773529912; 1294757372; 1396182291; 1695183700; 1986661051;
    2177026350; 2456956037; 2730485921; 2820302411; 3259730800; 3345764771; 3516065817; 3600352804; 4094571909;
    275423344; 430227734; 506948616; 659060556; 883997877; 958139571; 1322822218; 1537002063; 1747873779; 1955562222;
    2024104815; 2227730452; 2361852424; 2428436474; 2756734187; 3204031479; 3329325298].

Record sha_state := MkSha { ha : N; hb : N; hc : N; hd : N; he : N; hf : N; hg : N; hh : N }.

Definition sha_init : sha_state := MkSha 1779033703 3144134277 1013904242 2773480762 1359893119 2600822924 528734635 1541459225.

Definition sha_round (s : sha_state) (kw : N * N) : sha_state :=
  let '(k, w) := kw in
  let s1 := xor3 (rotr 6 (he s)) (rotr 11 (he s)) (rotr 25 (he s)) in
  let ch := N.lxor (N.land (he s) (hf s)) (N.land (not32 (he s)) (hg s)) in
  let t1 := add32 (add32 (add32 (add32 (hh s) s1) ch) k) w in
  let s0 := xor3 (rotr 2 (ha s)) (rotr 13 (ha s)) (rotr 22 (ha s)) in
  let maj := xor3 (N.land (ha s) (hb s)) (N.land (ha s) (hc s)) (N.land (hb s) (hc s)) in
  MkSha (add32 t1 (add32 s0 maj)) (ha s) (hb s) (hc s) (add32 (hd s) t1) (he s) (hf s) (hg s).

(** The words so far, the latest first, and [n] more. *)
Fixpoint sha_schedule (n : nat) (latest : list N) : list N :=
  match n with
  | O => latest
  | S n =>
      let w i := nth i latest 0 in
      let s0 := xor3 (rotr 7 (w 14%nat)) (rotr 18 (w 14%nat)) (N.shiftr (w 14%nat) 3) in
      let s1 := xor3 (rotr 17 (w 1%nat)) (rotr 19 (w 1%nat)) (N.shiftr (w 1%nat) 10) in
      sha_schedule n (add32 (add32 (w 15%nat) s0) (add32 (w 6%nat) s1) :: latest)
  end.

Definition sha_block (s : sha_state) (block : list N) : sha_state :=
  let w := rev (sha_schedule 48 (rev block)) in
  let t := foldl sha_round s (zip sha_K w) in
  MkSha (add32 (ha s) (ha t)) (add32 (hb s) (hb t)) (add32 (hc s) (hc t)) (add32 (hd s) (hd t))
    (add32 (he s) (he t)) (add32 (hf s) (hf t)) (add32 (hg s) (hg t)) (add32 (hh s) (hh t)).

(** Big-endian. *)
Fixpoint be_words (l : list N) : list N :=
  match l with
  | a :: b :: c :: d :: l => (a * 2^24 + b * 2^16 + c * 2^8 + d) :: be_words l
  | _ => []
  end.

Definition be_bytes (n : nat) (x : N) : list N := map (fun i => N.shiftr x (8 * N.of_nat i) mod 256) (rev (seq 0 n)).

Fixpoint sha_blocks (fuel : nat) (s : sha_state) (words : list N) : sha_state :=
  match fuel, words with
  | S fuel, _ :: _ => sha_blocks fuel (sha_block s (take 16 words)) (drop 16 words)
  | _, _ => s
  end.

Definition sha_pad (l : list N) : list N :=
  let n := length l in
  l ++ [128] ++ repeat 0 (Z.to_nat ((55 - Z.of_nat n) mod 64)) ++ be_bytes 8 (8 * N.of_nat n).

Definition Sum256 (data : bytes) : bytes :=
  let words := be_words (sha_pad (map code data)) in
  let s := sha_blocks (length words) sha_init words in
  map byte (concat (map (be_bytes 4) [ha s; hb s; hc s; hd s; he s; hf s; hg s; hh s])).

Lemma length_Sum256 data : length (Sum256 data) = 32%nat.
Proof. reflexivity. Qed.

Example sha256_abc : map code (take 4 (Sum256 (to_bytes "abc"))) = [186; 120; 22; 191].
Proof. vm_compute. reflexivity. Qed.

Example sha256_blocks :
  let sum := map code (Sum256 (repeat (byte 97) 200)) in
  take 4 sum = [194; 169; 8; 217] /\ drop 28 sum = [231; 194; 138; 229].
Proof. vm_compute. split; reflexivity. Qed.

#[global] Opaque Sum256.

(** ** [encoding/hex] *)

Definition hex_digit (n : N) : ascii := byte (if (n <? 10)%N then 48 + n else 87 + n).
Definition hex (l : bytes) : string := of_bytes (concat (map (λ c, [hex_digit (code c / 16); hex_digit (code c mod 16)]) l)).

(** ** Base-64 *)

(** The digits of the two alphabets. *)
Definition digit_char (c62 c63 : N) (n : N) : ascii :=
  byte (if n <? 26 then 65 + n else if n <? 52 then 71 + n else if n <? 62 then n - 4 else if n =? 62 then c62 else c63).
Definition url_digit : N → ascii := digit_char 45 95.

Definition std_value (c : ascii) : option N :=
  let n := code c in
  if (65 <=? n) && (n <=? 90) then Some (n - 65)
  else if (97 <=? n) && (n <=? 122) then Some (n - 71)
  else if (48 <=? n) && (n <=? 57) then Some (n + 4)
  else if n =? 43 then Some 62
  else if n =? 47 then Some 63 else None.

(** [RawURLEncoding.EncodeToString] *)
Fixpoint RawURLEncode (l : bytes) : bytes :=
  match l with
  | a :: b :: c :: l =>
      let n := code a * 65536 + code b * 256 + code c in
      url_digit (n / 262144) :: url_digit (n / 4096 mod 64) :: url_digit (n / 64 mod 64) :: url_digit (n mod 64) :: RawURLEncode l
  | [a; b] =>
      let n := code a * 65536 + code b * 256 in
      [url_digit (n / 262144); url_digit (n / 4096 mod 64); url_digit (n / 64 mod 64)]
  | [a] => let n := code a * 65536 in [url_digit (n / 262144); url_digit (n / 4096 mod 64)]
  | [] => []
  end.

Definition padding : ascii := byte 61.

(** [StdEncoding.DecodeString] on a text without line ends: groups of four, the
    last of which may end in padding. *)
Fixpoint std_quanta (l : bytes) : option bytes :=
  match l with
  | [] => Some []
  | a :: b :: c :: d :: l =>
      x ← std_value a; y ← std_value b;
      if bool_decide (c = padding) then
        if bool_decide (d = padding) && bool_decide (l = []) then Some [byte ((x * 262144 + y * 4096) / 65536)] else None
      else
        z ← std_value c;
        if bool_decide (d = padding) then
          if bool_decide (l = []) then
            let n := x * 262144 + y * 4096 + z * 64 in Some [byte (n / 65536); byte (n / 256 mod 256)]
          else None
        else
          w ← std_value d;
          rest ← std_quanta l;
          let n := x * 262144 + y * 4096 + z * 64 + w in
          Some (byte (n / 65536) :: byte (n / 256 mod 256) :: byte (n mod 256) :: rest)
  | _ => None
  end.

Definition line_end (c : ascii) : bool := bool_decide (c = byte 10 ∨ c = byte 13).

Definition StdDecode (l : bytes) : option bytes := std_quanta (List.filter (λ c, negb (line_end c)) l).

(** The URL alphabet rewritten to the standard one, and padded. *)
Definition url_to_std (c : ascii) : ascii :=
  if bool_decide (c = byte 45) then byte 43 else if bool_decide (c = byte 95) then byte 47 else c.

Definition pad_to_quanta (l : bytes) : bytes :=
  let rem := (length l mod 4)%nat in if bool_decide (rem = 0%nat) then l else l ++ repeat padding (4 - rem).

Definition url_decode (l : bytes) : option bytes := StdDecode (pad_to_quanta (map url_to_std l)).

Lemma digit_value n : n < 64 →
  std_value (url_to_std (url_digit n)) = Some n ∧ url_to_std (url_digit n) ≠ padding ∧ line_end (url_to_std (url_digit n)) = false.
Proof.
  intros Hn. assert (forallb (λ n, bool_decide (std_value (url_to_std (url_digit n)) = Some n ∧ url_to_std (url_digit n) ≠ padding ∧
    line_end (url_to_std (url_digit n)) = false)) (map N.of_nat (seq 0 64)) = true) as Hall by (vm_compute; reflexivity).
  rewrite forallb_forall in Hall. specialize (Hall n). apply bool_decide_eq_true in Hall; [done |].
  apply in_map_iff. exists (N.to_nat n). split; [apply N2Nat.id | apply in_seq; lia].
Qed.

Lemma code_bound a : code a < 256.
Proof. apply N_ascii_bounded. Qed.

Lemma byte_at n a : n = code a → byte n = a.
Proof. intros ->. apply ascii_N_embedding. Qed.

Lemma url_decode_quantum a b c l : let n := code a * 65536 + code b * 256 + code c in
  std_quanta (url_to_std (url_digit (n / 262144)) :: url_to_std (url_digit (n / 4096 mod 64)) ::
    url_to_std (url_digit (n / 64 mod 64)) :: url_to_std (url_digit (n mod 64)) :: l) =
  rest ← std_quanta l; Some (a :: b :: c :: rest).
Proof.
  intros n. pose proof (code_bound a) as Ba. pose proof (code_bound b) as Bb. pose proof (code_bound c) as Bc.
  assert (n / 262144 < 64) as H1 by (subst n; lia). assert (n / 4096 mod 64 < 64) as H2 by lia.
  assert (n / 64 mod 64 < 64) as H3 by lia. assert (n mod 64 < 64) as H4 by lia.
  destruct (digit_value _ H1) as (V1 & _ & _), (digit_value _ H2) as (V2 & _ & _), (digit_value _ H3) as (V3 & P3 & _),
    (digit_value _ H4) as (V4 & P4 & _).
  cbn [std_quanta]. rewrite V1, V2, V3, V4. simpl. rewrite !bool_decide_eq_false_2 by done.
  destruct (std_quanta l) as [rest |]; [| done]. simpl. f_equal.
  repeat f_equal; apply byte_at; subst n; lia.
Qed.

Lemma url_decode_two a b : let n := code a * 65536 + code b * 256 in
  std_quanta [url_to_std (url_digit (n / 262144)); url_to_std (url_digit (n / 4096 mod 64));
    url_to_std (url_digit (n / 64 mod 64)); padding] = Some [a; b].
Proof.
  intros n. pose proof (code_bound a) as Ba. pose proof (code_bound b) as Bb.
  assert (n / 262144 < 64) as H1 by (subst n; lia). assert (n / 4096 mod 64 < 64) as H2 by lia.
  assert (n / 64 mod 64 < 64) as H3 by lia.
  destruct (digit_value _ H1) as (V1 & _ & _), (digit_value _ H2) as (V2 & _ & _), (digit_value _ H3) as (V3 & P3 & _).
  cbn [std_quanta]. rewrite V1, V2, V3. cbn [mbind option_bind]. rewrite (bool_decide_eq_false_2 (_ = padding)) by done.
  rewrite (bool_decide_eq_true_2 (padding = padding)) by done. rewrite (bool_decide_eq_true_2 ([] = [])) by done.
  repeat f_equal; apply byte_at; subst n; lia.
Qed.

Lemma url_decode_one a : let n := code a * 65536 in
  std_quanta [url_to_std (url_digit (n / 262144)); url_to_std (url_digit (n / 4096 mod 64)); padding; padding] = Some [a].
Proof.
  intros n. pose proof (code_bound a) as Ba.
  assert (n / 262144 < 64) as H1 by (subst n; lia). assert (n / 4096 mod 64 < 64) as H2 by lia.
  destruct (digit_value _ H1) as (V1 & _ & _), (digit_value _ H2) as (V2 & _ & _).
  cbn [std_quanta]. rewrite V1, V2. cbn [mbind option_bind]. rewrite (bool_decide_eq_true_2 (padding = padding)) by done.
  rewrite (bool_decide_eq_true_2 ([] = [])) by done. simpl. repeat f_equal; apply byte_at; subst n; lia.
Qed.

Lemma pad_four a b c d l : pad_to_quanta (a :: b :: c :: d :: l) = a :: b :: c :: d :: pad_to_quanta l.
Proof.
  unfold pad_to_quanta. cbv zeta. assert (length (a :: b :: c :: d :: l) mod 4 = length l mod 4)%nat as ->.
  { cbn [length]. replace (S (S (S (S (length l)))))%nat with (length l + 1 * 4)%nat by lia. apply Nat.Div0.mod_add. }
  by case_bool_decide.
Qed.

Lemma three_bytes_ind (P : bytes → Prop) : P [] → (∀ a, P [a]) → (∀ a b, P [a; b]) →
  (∀ a b c l, P l → P (a :: b :: c :: l)) → ∀ l, P l.
Proof. intros H0 H1 H2 H3. fix IH 1. intros [| a [| b [| c l]]]; [done.. |]. apply H3, IH. Qed.

Lemma encoded_quanta l : std_quanta (pad_to_quanta (map url_to_std (RawURLEncode l))) = Some l.
Proof.
  induction l as [| a | a b | a b c l IH] using three_bytes_ind; [done | apply url_decode_one | apply url_decode_two |].
  cbn [RawURLEncode map]. cbv zeta. rewrite pad_four, url_decode_quantum, IH. done.
Qed.

Lemma encoded_digits l : Forall (λ c, ∃ n, n < 64 ∧ c = url_digit n) (RawURLEncode l).
Proof.
  induction l as [| a | a b | a b c l IH] using three_bytes_ind; cbn [RawURLEncode]; cbv zeta.
  - constructor.
  - pose proof (code_bound a). repeat constructor; eexists; (split; [| reflexivity]); lia.
  - pose proof (code_bound a). pose proof (code_bound b). repeat constructor; eexists; (split; [| reflexivity]); lia.
  - pose proof (code_bound a). pose proof (code_bound b). pose proof (code_bound c).
    repeat (constructor; [eexists; (split; [| reflexivity]); lia |]). exact IH.
Qed.

Lemma filter_none (f : ascii → bool) l : Forall (λ c, f c = false) l → List.filter (λ c, negb (f c)) l = l.
Proof. induction 1 as [| c l Hc _ IH]; [done |]. simpl. by rewrite Hc, IH. Qed.

Lemma url_decode_encode l : url_decode (RawURLEncode l) = Some l.
Proof.
  unfold url_decode, StdDecode. rewrite filter_none; [apply encoded_quanta |].
  assert (Forall (λ c, line_end c = false) (map url_to_std (RawURLEncode l))) as Hall.
  { apply Forall_map. eapply Forall_impl; [apply encoded_digits |]. intros c (n & Hn & ->). by apply digit_value. }
  unfold pad_to_quanta. case_bool_decide; [done |]. apply Forall_app. split; [done |].
  apply Forall_forall. intros c Hc. apply list_elem_of_In, repeat_spec in Hc. by subst.
Qed.

Lemma RawURLEncode_inj : Inj (=) (=) RawURLEncode.
Proof. intros l l' H. apply (f_equal url_decode) in H. rewrite !url_decode_encode in H. by injection H. Qed.

Lemma length_RawURLEncode l : (length (RawURLEncode l) = (4 * length l + 2) / 3)%nat.
Proof.
  induction l as [| a | a b | a b c l IH] using three_bytes_ind; [done.. |]. cbn [RawURLEncode length]. cbv zeta. cbn [length].
  rewrite IH. replace (4 * S (S (S (length l))) + 2)%nat with (4 * length l + 2 + 4 * 3)%nat by lia.
  rewrite Nat.div_add by lia. lia.
Qed.
