(* ===== verification/Regex.v ===== *)
(** Regular expressions of Go's [regexp] package, as far as the modelled code
    uses them: classes of bytes, sequences, alternatives, greedy and lazy
    repetition and the beginning of a line.

    [search] finds the leftmost match, as the alternatives and repetitions
    prefer it; [match_at] tries them in that order.  A match exists exactly when
    the language of the expression has one ([match_at_spec]). *)

From S2P Require Import Prelude GoStrings.
Local Open Scope list_scope.

Inductive re :=
  | Char (p : ascii → bool)
  | Seq (a b : re)
  | Alt (a b : re)
  | Star (lazy : bool) (a : re)
  | LineStart.

Definition Plus (a : re) : re := Seq a (Star false a).

Fixpoint Lit (l : bytes) : re :=
  match l with
  | [] => Star false (Char (λ _, false))
  | [c] => Char (λ d, bool_decide (c = d))
  | c :: l => Seq (Char (λ d, bool_decide (c = d))) (Lit l)
  end.

Definition at_line_start (before : option ascii) : bool :=
  match before with None => true | Some c => bool_decide (c = byte 10) end.

(** Rounds of a repetition: each but the last consumes something. *)
Fixpoint rounds {A} (one : option ascii → bytes → (option ascii → bytes → option A) → option A) (lazy : bool) (n : nat)
    (before : option ascii) (l : bytes) (k : option ascii → bytes → option A) : option A :=
  match n with
  | O => k before l
  | S n =>
      if lazy then
        match k before l with
        | Some x => Some x
        | None => one before l (λ before' l', if bool_decide (length l' < length l) then rounds one lazy n before' l' k else None)
        end
      else
        match one before l (λ before' l', if bool_decide (length l' < length l) then rounds one lazy n before' l' k else None) with
        | Some x => Some x
        | None => k before l
        end
  end.

(** Matches of [r] at the front of [l], [before] being the byte before it; [k]
    says whether to take one. *)
Fixpoint match_at {A} (r : re) (before : option ascii) (l : bytes) (k : option ascii → bytes → option A) : option A :=
  match r with
  | Char p => match l with c :: l => if p c then k (Some c) l else None | [] => None end
  | Seq a b => match_at a before l (λ before' l', match_at b before' l' k)
  | Alt a b => match match_at a before l k with Some x => Some x | None => match_at b before l k end
  | Star lazy a => rounds (match_at a) lazy (length l) before l k
  | LineStart => if at_line_start before then k before l else None
  end.

(** The leftmost match in [l]: what it matches, the byte before the rest, and
    the rest. *)
Fixpoint search (r : re) (before : option ascii) (l : bytes) : option (bytes * option ascii * bytes) :=
  match match_at r before l (λ before' l', Some (take (length l - length l') l, before', l')) with
  | Some m => Some m
  | None => match l with [] => None | c :: l => search r (Some c) l end
  end.

Definition MatchString (r : re) (s : string) : bool :=
  match search r None (to_bytes s) with Some _ => true | None => false end.

(** The matches one after another; an empty one steps over a byte. *)
Fixpoint find_all (fuel : nat) (r : re) (before : option ascii) (l : bytes) : list bytes :=
  match fuel with
  | O => []
  | S fuel =>
      match search r before l with
      | None => []
      | Some (m, before', l') =>
          m :: match m, l' with
               | [], c :: l' => find_all fuel r (Some c) l'
               | [], [] => []
               | _ :: _, _ => find_all fuel r before' l'
               end
      end
  end.

Definition FindAllString (r : re) (s : string) : list string :=
  of_bytes <$> find_all (S (String.length s)) r None (to_bytes s).

(** ** The language *)

(** [matches r b l b' l']: [r] matches [l] up to its rest [l']. *)
Inductive matches : re → option ascii → bytes → option ascii → bytes → Prop :=
  | matches_char p b c l : p c = true → matches (Char p) b (c :: l) (Some c) l
  | matches_seq r1 r2 b l b1 l1 b2 l2 : matches r1 b l b1 l1 → matches r2 b1 l1 b2 l2 → matches (Seq r1 r2) b l b2 l2
  | matches_left r1 r2 b l b' l' : matches r1 b l b' l' → matches (Alt r1 r2) b l b' l'
  | matches_right r1 r2 b l b' l' : matches r2 b l b' l' → matches (Alt r1 r2) b l b' l'
  | matches_none lazy r b l : matches (Star lazy r) b l b l
  | matches_round lazy r b l b1 l1 b2 l2 :
      matches r b l b1 l1 → matches (Star lazy r) b1 l1 b2 l2 → matches (Star lazy r) b l b2 l2
  | matches_line b l : at_line_start b = true → matches LineStart b l b l.

Lemma matches_suffix r b l b' l' : matches r b l b' l' → length l' ≤ length l ∧ (length l' = length l → b' = b ∧ l' = l).
Proof.
  induction 1 as [| ? ? ? ? ? ? ? ? _ [H1 H2] _ [H3 H4] | ? ? ? ? ? ? _ [] | ? ? ? ? ? ? _ [] | | ? ? ? ? ? ? ? ? _ [H1 H2] _ [H3 H4] |];
    simpl; try (split; [lia |]; intros; lia); try done.
  - split; [lia |]. intros H. destruct H4 as [-> ->]; [lia |]. by apply H2.
  - split; [lia |]. intros H. destruct H4 as [-> ->]; [lia |]. by apply H2.
Qed.

Definition sound_at {A} (r : re) (m : option ascii → bytes → (option ascii → bytes → option A) → option A) : Prop :=
  ∀ b l k x, m b l k = Some x → ∃ b' l', matches r b l b' l' ∧ k b' l' = Some x.

Lemma rounds_sound {A} r lazy (one : option ascii → bytes → (option ascii → bytes → option A) → option A) :
  sound_at r one → ∀ n, sound_at (Star lazy r) (rounds one lazy n).
Proof.
  intros Hone n. induction n as [| n IH]; intros b l k x; simpl; [eauto using matches_none |].
  assert (one b l (λ b' l', if bool_decide (length l' < length l) then rounds one lazy n b' l' k else None) = Some x →
    ∃ b' l', matches (Star lazy r) b l b' l' ∧ k b' l' = Some x) as Hmore.
  { intros H. apply Hone in H as (b1 & l1 & H1 & H2). case_bool_decide; [| done].
    apply IH in H2 as (b2 & l2 & H2 & H3). eauto using matches_round. }
  destruct lazy.
  - destruct (k b l) eqn:Hk; [intros [= <-]; eauto using matches_none | exact Hmore].
  - destruct (one b l _) eqn:Hm; [intros [= <-]; by apply Hmore | eauto using matches_none].
Qed.

Lemma match_at_sound {A} r : @sound_at A r (match_at r).
Proof.
  induction r as [p | r1 IH1 r2 IH2 | r1 IH1 r2 IH2 | lazy r IH |]; intros b l k x; simpl.
  - destruct l as [| c l]; [done |]. destruct (p c) eqn:Hp; [| done]. eauto using matches_char.
  - intros (b1 & l1 & H1 & (b2 & l2 & H2 & H3)%IH2)%IH1. eauto using matches_seq.
  - destruct (match_at r1 b l k) eqn:H1.
    + intros [= <-]. apply IH1 in H1 as (b' & l' & H1 & H2). eauto using matches_left.
    + intros (b' & l' & H2 & H3)%IH2. eauto using matches_right.
  - by apply rounds_sound.
  - destruct (at_line_start b) eqn:Hb; [eauto using matches_line | done].
Qed.

Definition complete_at {A} (r : re) (m : option ascii → bytes → (option ascii → bytes → option A) → option A) : Prop :=
  ∀ b l b' l' k, matches r b l b' l' → k b' l' ≠ None → m b l k ≠ None.

(** Rounds that consume nothing can be left out. *)
Lemma rounds_complete {A} r lazy (one : option ascii → bytes → (option ascii → bytes → option A) → option A) :
  complete_at r one → ∀ n b l b' l' k, length l ≤ n → matches (Star lazy r) b l b' l' → k b' l' ≠ None →
  rounds one lazy n b l k ≠ None.
Proof.
  intros Hone n. induction n as [| n IH]; intros b l b' l' k Hn Hm Hk; simpl.
  { destruct (matches_suffix _ _ _ _ _ Hm) as [Hle Heq]. destruct Heq as [-> ->]; [lia | done]. }
  assert (k b l ≠ None ∨
    one b l (λ b' l', if bool_decide (length l' < length l) then rounds one lazy n b' l' k else None) ≠ None) as Hor.
  { remember (Star lazy r) as s eqn:Es. revert Es. induction Hm as [| | | | | ? ? b l b1 l1 b2 l2 H1 _ H2 IH2 |]; intros [= -> ->]; [by left |].
    destruct (matches_suffix _ _ _ _ _ H1) as [Hle Heq]. destruct (decide (length l1 < length l)) as [Hlt | Hge].
    - right. apply (Hone _ _ _ _ _ H1). rewrite bool_decide_eq_true_2 by done. eapply IH; [lia | exact H2 | done].
    - destruct Heq as [-> ->]; [lia |]. by apply IH2. }
  destruct lazy.
  - destruct (k b l); [done |]. by destruct Hor.
  - destruct (one b l _); [done |]. by destruct Hor.
Qed.

Lemma match_at_complete {A} r : @complete_at A r (match_at r).
Proof.
  induction r as [p | r1 IH1 r2 IH2 | r1 IH1 r2 IH2 | lazy r IH |]; intros b l b' l' k Hm Hk; simpl.
  - inversion Hm as [? ? ? ? Hp | | | | | |]; subst. by rewrite Hp.
  - inversion Hm as [| ? ? ? ? ? ? ? ? H1 H2 | | | | |]; subst. eapply IH1; [exact H1 |]. eapply IH2; [exact H2 | done].
  - destruct (match_at r1 b l k) eqn:H1; [done |]. inversion Hm; subst; [| by eapply IH2].
    exfalso. by eapply IH1.
  - by eapply rounds_complete.
  - inversion Hm as [| | | | | | ? ? Hb]; subst. by rewrite Hb.
Qed.

(** A match is found exactly when there is one. *)
Lemma match_at_spec {A} r b l (x : A) : match_at r b l (λ _ _, Some x) ≠ None ↔ ∃ b' l', matches r b l b' l'.
Proof.
  split.
  - destruct (match_at _ _ _ _) eqn:H; [| done]. apply match_at_sound in H as (b' & l' & H & _). eauto.
  - intros (b' & l' & H). by eapply match_at_complete.
Qed.

(** The byte before the rest of a list, after its first part. *)
Definition last_before (before : option ascii) (front : bytes) : option ascii :=
  match last front with Some c => Some c | None => before end.

Lemma last_before_cons b c front : last_before b (c :: front) = last_before (Some c) front.
Proof. unfold last_before. destruct front as [| d front] using rev_ind; [done |]. by rewrite app_comm_cons, !last_snoc. Qed.

(** A search finds a match exactly when some part of the text matches. *)
Lemma search_spec r b l : search r b l ≠ None ↔
  ∃ front rest b' l', l = front ++ rest ∧ matches r (last_before b front) rest b' l'.
Proof.
  revert b. induction l as [| c l IH]; intros b; cbn [search].
  - set (k := λ b' l', _). destruct (match_at r b [] k) eqn:Hm.
    + split; [intros _ | done]. apply match_at_sound in Hm as (b' & l' & H & _). by exists [], [], b', l'.
    + split; [done |]. intros (front & rest & b' & l' & Heq & H). symmetry in Heq. apply app_nil in Heq as [-> ->]. exfalso.
      by eapply (match_at_complete r b [] b' l' k).
  - set (k := λ b' l', _). destruct (match_at r b (c :: l) k) eqn:Hm.
    + split; [intros _ | done]. apply match_at_sound in Hm as (b' & l' & H & _). by exists [], (c :: l), b', l'.
    + rewrite IH. split.
      * intros (front & rest & b' & l' & -> & H). exists (c :: front), rest, b', l'. split; [done |].
        by rewrite last_before_cons.
      * intros ([| d front] & rest & b' & l' & Heq & H); simpl in Heq.
        { subst rest. exfalso. by eapply (match_at_complete r b (c :: l) b' l' k). }
        injection Heq as <- ->. exists front, rest, b', l'. by rewrite <- (last_before_cons b).
Qed.

(** ** Captures

    A group is read off the list before and after it. *)
Definition group (l l' : bytes) : string := of_bytes (take (length l - length l') l).

Lemma group_app w l : group (w ++ l) l = of_bytes w.
Proof. unfold group. rewrite length_app, Nat.add_sub, take_app_length. done. Qed.

(** The first byte of [l], if any, is not in [p]. *)
Definition stops (p : ascii → bool) (l : bytes) : Prop := match l with [] => True | c :: _ => p c = false end.

(** A greedy repetition of a class takes all it can if the rest matches then. *)
Lemma greedy_star {A} p front l before (k : option ascii → bytes → option A) x :
  Forall (λ c, p c = true) front → stops p l → k (last_before before front) l = Some x →
  match_at (Star false (Char p)) before (front ++ l) k = Some x.
Proof.
  intros Hp Hl Hk. cbn [match_at].
  assert (∀ n, length (front ++ l) ≤ n → rounds (match_at (Char p)) false n before (front ++ l) k = Some x) as Hr; [| by apply Hr].
  revert before Hk. induction Hp as [| c front Hc Hp IH]; intros before Hk n Hn; cbn [app] in *.
  - destruct n as [| n]; [done |]. cbn [rounds match_at].
    destruct l as [| c l]; [done |]. simpl in Hl. by rewrite Hl.
  - destruct n as [| n]; [simpl in Hn; lia |]. cbn [rounds match_at]. rewrite Hc.
    rewrite bool_decide_true by (simpl; lia). rewrite (IH (Some c)); [done | by rewrite <- (last_before_cons before) | simpl in Hn; lia].
Qed.

Lemma greedy_plus {A} p c front l before (k : option ascii → bytes → option A) x :
  Forall (λ c, p c = true) (c :: front) → stops p l → k (last_before before (c :: front)) l = Some x →
  match_at (Plus (Char p)) before (c :: front ++ l) k = Some x.
Proof.
  intros Hp Hl Hk. inversion Hp as [| ? ? Hc Hf]; subst. unfold Plus. cbn [match_at]. rewrite Hc.
  apply (greedy_star p front l (Some c)); [done.. |]. by rewrite <- (last_before_cons before).
Qed.
