(* ===== verification/TurnSignals.v ===== *)
(** The signals of a user message and the rules that turn them into a tier:
    [openclaw/agent/routing.go].

    A tier is 0 to 3, or -1 for none.  Texts are bytes; the regular expressions
    only name ASCII bytes, so matching bytes is matching runes. *)

From S2P Require Import Prelude GoStrings Regex.
Local Open Scope string_scope.
Local Open Scope list_scope.

(** ** Keywords *)

Definition debugKeywords : list string :=
  ["error"; "bug"; "exception"; "traceback"; "failed"; "root cause"; "报错"; "根因"; "修复"; "stack trace"; "debug"].
Definition researchKeywords : list string :=
  ["调研"; "research"; "对比"; "compare"; "survey"; "分析报告"; "competitive analysis"; "综述"].
Definition architectureKeywords : list string :=
  ["architecture"; "架构"; "重构"; "refactor"; "monorepo"; "codebase"; "module"; "dependency"].
Definition compareKeywords : list string := ["对比"; "compare"; "audit"; "审计"; "review"; "评估"].
Definition planningKeywords : list string := ["plan"; "planning"; "方案"; "计划"; "roadmap"; "milestone"; "步骤"; "实施"].
Definition strictFormatKeywords : list string :=
  ["json"; "yaml"; "csv"; "schema"; "只返回"; "不要解释"; "按格式"; "only return"; "no explanation"].
Definition highRiskKeywords : list string :=
  ["deploy"; "rollback"; "migration"; "delete"; "overwrite"; "覆盖"; "production"; "生产"; "部署"; "删除"; "客户"; "法务"; "财务"].
Definition productionKeywords : list string := ["production"; "生产"; "prod"; "线上"; "正式环境"].
Definition customerKeywords : list string := ["customer"; "客户"; "用户邮件"; "client"].
Definition deleteKeywords : list string := ["delete"; "remove"; "drop"; "truncate"; "删除"; "清空"; "覆盖"; "overwrite"].
Definition constraintKeywords : list string :=
  ["必须"; "不能"; "不要"; "只能"; "must"; "shall"; "required"; "forbidden"; "不允许"; "至少"; "最多"].

(** ** Regular expressions *)

Definition regex_space (c : ascii) : bool := bool_decide (code c ∈ [9; 10; 12; 13; 32]%N).
Definition letter (c : ascii) : bool :=
  ((65 <=? code c) && (code c <=? 90) || (97 <=? code c) && (code c <=? 122))%N.
(** [\w] *)
Definition word (c : ascii) : bool := letter c || is_digit c || (code c =? 95)%N.
Definition one_of (cs : list N) (c : ascii) : bool := bool_decide (code c ∈ cs).
Definition any_byte (_ : ascii) : bool := true.

Definition fence : re := Lit [byte 96; byte 96; byte 96].

Definition codeBlockRegex : re := Seq fence (Seq (Star true (Char any_byte)) fence).

(** A space, quote, backquote or bracket, or the beginning of a line, and a path
    of words with an extension. *)
Definition filePathRegex : re :=
  Seq (Alt LineStart (Char (λ c, regex_space c || one_of [34; 39; 96; 40]%N c)))
    (Seq (Char (λ c, letter c || one_of [95]%N c))
       (Seq (Star false (Char (λ c, word c || one_of [46; 45]%N c)))
          (Seq (Lit (to_bytes "/"))
             (Seq (Plus (Char (λ c, word c || one_of [46; 47; 45]%N c)))
                (Seq (Lit (to_bytes ".")) (Plus (Char word))))))).

Definition urlRegex : re :=
  Seq (Lit (to_bytes "http"))
    (Seq (Alt (Lit (to_bytes "s")) (Star false (Char (λ _, false))))
       (Seq (Lit (to_bytes "://")) (Plus (Char (λ c, negb (regex_space c)))))).

Definition tracebackRegex : re :=
  Alt (Lit (to_bytes "Traceback (most recent"))
    (Alt (Lit (to_bytes "stderr:"))
       (Seq (Lit (to_bytes ".py" ++ [byte 34] ++ to_bytes ", line ")) (Plus (Char is_digit)))).

(** ** Signals *)

Record TurnRoutingSignals := MkSignals {
  Debug : bool;
  RepoArch : bool;
  HighRisk : bool;
  LongContext : bool;
  StrictFormat : bool;
  HasCodeBlock : bool;
  HasFileReference : bool;
  HasUrl : bool;
  DeepConversation : bool;
  Research : bool;
  Planning : bool;
}.

Section Signals.
Context (lower_rune : N → N).

Definition keywordCount (text : string) (keywords : list string) : nat :=
  let lowerText := ToLower lower_rune text in
  length (List.filter (λ kw, Contains lowerText (ToLower lower_rune kw)) keywords).

Definition ExtractSignals (text : string) (turnIndex : Z) : TurnRoutingSignals :=
  let has keywords := bool_decide (0 < keywordCount text keywords)%nat in
  let hasCodeBlock := MatchString codeBlockRegex text in
  let hasFileReference := MatchString filePathRegex text in
  let hasUrl := MatchString urlRegex text in
  let codeBlockTotalLen := sum_list_with String.length (FindAllString codeBlockRegex text) in
  let fileMatches := FindAllString filePathRegex text in
  let longContext := bool_decide (6000 ≤ String.length text)%nat || bool_decide (1500 ≤ codeBlockTotalLen)%nat ||
                     bool_decide (2 ≤ length fileMatches)%nat in
  let debug := has debugKeywords || MatchString tracebackRegex text in
  let repoArch := has architectureKeywords || has compareKeywords in
  let highRisk := has highRiskKeywords || (has productionKeywords && has deleteKeywords) || has customerKeywords ||
                  (has productionKeywords && debug) in
  let strictFormat := has strictFormatKeywords || bool_decide (1 < keywordCount text constraintKeywords)%nat in
  MkSignals debug repoArch highRisk longContext strictFormat hasCodeBlock hasFileReference hasUrl (4 <=? turnIndex)%Z
    (has researchKeywords) (has planningKeywords).
End Signals.

(** ** Tiers *)

Definition ApplyFlagOverrides (tier : Z) (signals : TurnRoutingSignals) : Z :=
  let result := tier in
  let result := if HighRisk signals then Z.max result 2 else result in
  let result := if Debug signals && LongContext signals then Z.max result 2 else result in
  let result := if (Research signals && Planning signals) || (RepoArch signals && Planning signals) then Z.max result 3
                else result in
  let result := if RepoArch signals then Z.max result 1 else result in
  if Planning signals then Z.max result 1 else result.

Definition ApplyContextRule (tier turnIndex turnIndexThreshold : Z) : Z :=
  if (turnIndexThreshold <=? turnIndex)%Z then Z.max tier 1 else tier.

Definition named_tier (name : string) : Z :=
  if bool_decide (name = "T0") then 0
  else if bool_decide (name = "T1") then 1
  else if bool_decide (name = "T2") then 2
  else if bool_decide (name = "T3") then 3 else -1.

Definition ApplyStickyTier (upper_rune : N → N) (tier : Z) (previousTier : string) (enabled : bool) : Z :=
  if negb enabled then tier
  else
    let previous := named_tier (ToUpper upper_rune (TrimSpace previousTier)) in
    if (tier <? previous)%Z then previous else tier.

(** ** The least tier a message calls for *)

Definition signal_floor (s : TurnRoutingSignals) : Z :=
  if Planning s && (Research s || RepoArch s) then 3
  else if HighRisk s || (Debug s && LongContext s) then 2
  else if RepoArch s || Planning s then 1 else 0.

Lemma ApplyFlagOverrides_floor tier s : (0 ≤ tier)%Z → ApplyFlagOverrides tier s = Z.max tier (signal_floor s).
Proof. destruct s as [[] [] [] [] ? ? ? ? ? [] []]; unfold ApplyFlagOverrides, signal_floor; simpl; lia. Qed.

Lemma signal_floor_range s : (0 ≤ signal_floor s ≤ 3)%Z.
Proof. destruct s as [[] [] [] [] ? ? ? ? ? [] []]; unfold signal_floor; simpl; lia. Qed.

Lemma named_tier_range name : (-1 ≤ named_tier name ≤ 3)%Z.
Proof. unfold named_tier. repeat case_bool_decide; lia. Qed.

Lemma ApplyContextRule_range tier i n : (tier ≤ ApplyContextRule tier i n ≤ Z.max tier 1)%Z.
Proof. unfold ApplyContextRule. destruct (_ <=? _)%Z; lia. Qed.

Lemma ApplyStickyTier_range upper_rune tier previous enabled : (tier ≤ 3)%Z →
  (tier ≤ ApplyStickyTier upper_rune tier previous enabled ≤ 3)%Z.
Proof.
  intros H. unfold ApplyStickyTier. destruct enabled; simpl; [| lia].
  pose proof (named_tier_range (ToUpper upper_rune (TrimSpace previous))). destruct (_ <? _)%Z eqn:E; lia.
Qed.

(** ** Examples *)

Example code_blocks_are_lazy :
  length (FindAllString codeBlockRegex "a ```x``` b ```y``` c") = 2 /\ MatchString codeBlockRegex "``` open" = false.
Proof. vm_compute. split; reflexivity. Qed.

Example paths_and_links :
  MatchString filePathRegex "see src/main.go" = true /\ MatchString filePathRegex "see main.go" = false /\
  MatchString urlRegex "at http://x" = true /\ MatchString urlRegex "at http:// x" = false.
Proof. vm_compute. repeat split. Qed.

(** "plan" is found in "explanation", so asking for none asks for a plan. *)
Example no_explanation_is_a_plan : Planning (ExtractSignals (λ r, r) "no explanation" 0) = true.
Proof. vm_compute. reflexivity. Qed.
