(* ===== verification/Middleware.v ===== *)
(** Message middleware: the pipeline, the rate limit and the token budget of
    [openclaw/core/middleware.go].

    A middleware is a finite dialogue: it changes the message, may call [next],
    sees its error and ends.  [next] is one closure over an index, shared by
    all, so that a second call goes on where the last one stopped.  What a
    middleware keeps is in the world [W]; the class [Metered] says where the
    rate limiter and the clock are.  [Properties] of a message are left out;
    log lines are not kept.  In a pipeline a call of the rate limiter is taken as
    a whole; how calls overlap is modelled by [rate_step]. *)

From S2P Require Import Prelude GoStrings Float64.
From stdpp Require Import sorting.
Local Open Scope string_scope.
Local Open Scope list_scope.

(** ** The pipeline *)

Record MessageContext := MkContext {
  ChannelId : string;
  SenderId : string;
  Text : string;
  MessageId : string;
  SessionId : string;
  SessionInputTokens : Z;
  SessionOutputTokens : Z;
  IsShortCircuited : bool;
  ShortCircuitResponse : string;
}.

Definition ShortCircuit (responseText : string) (m : MessageContext) : MessageContext :=
  MkContext (ChannelId m) (SenderId m) (Text m) (MessageId m) (SessionId m) (SessionInputTokens m) (SessionOutputTokens m)
    true responseText.

(** The rest of a middleware's run. *)
Inductive dialogue (W : Type) :=
  | Return (err : option string) (m : MessageContext) (w : W)
  | CallNext (m : MessageContext) (w : W) (k : option string → MessageContext → W → dialogue W).
Arguments Return {W} err m w.
Arguments CallNext {W} m w k.

Definition IMessageMiddleware (W : Type) : Type := MessageContext → W → dialogue W.

Section Pipeline.
Context {W : Type}.

(** A run of [next] from an index: its error, the index it leaves, the message
    and the world, or no end within the fuel. *)
Definition ran : Type := option (option string * nat * MessageContext * W).

Fixpoint converse (next : nat → MessageContext → W → ran) (d : dialogue W) (index : nat) : ran :=
  match d with
  | Return err m w => Some (err, index, m, w)
  | CallNext m w k =>
      match next index m w with
      | Some (err, index, m, w) => converse next (k err m w) index
      | None => None
      end
  end.

Fixpoint next (middleware : list (IMessageMiddleware W)) (fuel index : nat) (m : MessageContext) (w : W) : ran :=
  if IsShortCircuited m then Some (None, index, m, w)
  else
    match middleware !! index : option (IMessageMiddleware W) with
    | None => Some (None, index, m, w)
    | Some mw =>
        match fuel with
        | O => None
        | S fuel => converse (next middleware fuel) (mw m w) (S index)
        end
    end.

(** Whether the message goes on, the message and the world.  There is fuel for
    each middleware to be invoked within the one before it. *)
Definition Execute (middleware : list (IMessageMiddleware W)) (m : MessageContext) (w : W) : option (bool * MessageContext * W) :=
  if bool_decide (length middleware = 0) then Some (true, m, w)
  else
    match next middleware (length middleware) 0 m w with
    | Some (Some _, _, m, w) => Some (false, m, w)
    | Some (None, _, m, w) => Some (negb (IsShortCircuited m), m, w)
    | None => None
    end.
End Pipeline.

(** ** The rate limit *)

Record rateWindow := MkWindow {
  entries : list Z;
  lastSeenAt : Z;
}.

Record RateLimitConfig := MkRateLimit {
  maxMessagesPerMinute : Z;
  idleTtl : Z;
  cleanupEvery : Z;
}.

(** The windows, as objects that calls share, which of them is kept for a key,
    and how many messages were admitted.  Times count nanoseconds from the zero
    time. *)
Record limiter := MkLimiter {
  heap : list rateWindow;
  windows : gmap string nat;
  requestCount : Z;
}.

Definition second : Z := 10^9.
Definition minute : Z := 60 * second.

Definition new_limiter : limiter := MkLimiter [] ∅ 0.

Definition NewRateLimitMiddleware (maxMessages : Z) (ttl : option Z) (cleanup : Z) : RateLimitConfig :=
  MkRateLimit (if (maxMessages <=? 0)%Z then max_int64 else maxMessages)
    (match ttl with Some t => t | None => 10 * minute end)%Z (Z.max cleanup 1).

(** Entries before the cutoff are dropped from the front. *)
Fixpoint evict (cutoff : Z) (entries : list Z) : list Z :=
  match entries with
  | [] => []
  | t :: rest => if (t <? cutoff)%Z then evict cutoff rest else entries
  end.

Definition window_key (channelId senderId : string) : string := channelId +:+ ":" +:+ senderId.

(** The window kept for a key, made if there is none. *)
Definition LoadOrStore (key : string) (l : limiter) : nat * limiter :=
  match windows l !! key with
  | Some p => (p, l)
  | None => let p := length (heap l) in (p, MkLimiter (heap l ++ [MkWindow [] 0]) (<[key := p]> (windows l)) (requestCount l))
  end.

Definition window_at (p : nat) (l : limiter) : rateWindow := default (MkWindow [] 0) (heap l !! p).

Definition set_window (p : nat) (w : rateWindow) (l : limiter) : limiter :=
  MkLimiter (<[p := w]> (heap l)) (windows l) (requestCount l).

(** Under the lock of a window: whether a message is admitted at the time
    [now]. *)
Definition admit_at (r : RateLimitConfig) (now : Z) (p : nat) (l : limiter) : bool * limiter :=
  let window := window_at p l in
  let entries := evict (now - minute) (entries window) in
  if (maxMessagesPerMinute r <=? Z.of_nat (length entries))%Z then (false, set_window p (MkWindow entries (lastSeenAt window)) l)
  else (true, set_window p (MkWindow (entries ++ [now]) now) l).

(** An admitted message is counted; some have to clean up. *)
Definition count_message (r : RateLimitConfig) (l : limiter) : bool * limiter :=
  let count := wrap64 (requestCount l + 1) in
  ((Z.rem count (cleanupEvery r) =? 0)%Z, MkLimiter (heap l) (windows l) count).

(** Under the lock of a window: whether the window is stale. *)
Definition sweep_window (r : RateLimitConfig) (now : Z) (p : nat) (l : limiter) : bool * limiter :=
  let window := window_at p l in
  let entries := evict (now - minute) (entries window) in
  (bool_decide (length entries = 0) && (lastSeenAt window <? now - idleTtl r)%Z, set_window p (MkWindow entries (lastSeenAt window)) l).

(** What is kept for the key is removed, whether or not it is the window that
    was found stale. *)
Definition delete_window (key : string) (l : limiter) : limiter :=
  MkLimiter (heap l) (delete key (windows l)) (requestCount l).

Definition cleanup_window (r : RateLimitConfig) (now : Z) (l : limiter) (window : string * nat) : limiter :=
  let '(remove, l) := sweep_window r now window.2 l in
  if remove then delete_window window.1 l else l.

Definition cleanupStaleWindows (r : RateLimitConfig) (now : Z) (l : limiter) : limiter :=
  foldl (cleanup_window r now) l (map_to_list (windows l)).

(** A whole call that no other call overlaps. *)
Definition admit_message (r : RateLimitConfig) (now : Z) (key : string) (l : limiter) : bool * limiter :=
  let '(p, l) := LoadOrStore key l in
  let '(ok, l) := admit_at r now p l in
  if ok then
    let '(due, l) := count_message r l in
    (true, if due then cleanupStaleWindows r now l else l)
  else (false, l).

(** *** Calls that overlap

    Every access to the shared state is a step of its own. *)

(** How far a call is: it has its window; it was admitted at a time; it is
    cleaning up, has picked a window, or has found it stale. *)
Inductive phase :=
  | Obtained (key : string) (p : nat)
  | Entered (now : Z)
  | Cleaning (now : Z)
  | Visiting (now : Z) (key : string) (p : nat)
  | Removing (now : Z) (key : string).

Record rate_state := MkRate {
  limits : limiter;
  callers : gmap nat phase;
}.

(** The next thing a call does.  The clean-up picks the windows in any order,
    as they are when it picks them. *)
Inductive rate_label :=
  | Obtain (i : nat) (key : string)
  | Enter (i : nat) (now : Z)
  | Count (i : nat)
  | Visit (i : nat) (key : string)
  | Sweep (i : nat)
  | Delete (i : nat)
  | Finish (i : nat).

(** A message, the time of the call, and whether it was admitted. *)
Definition verdict : Type := string * Z * bool.

Definition rate_step (r : RateLimitConfig) (a : rate_label) (st : rate_state) : option (list verdict * rate_state) :=
  let goes i l ph := Some ([], MkRate l (<[i := ph]> (callers st))) in
  let l := limits st in
  match a with
  | Obtain i key =>
      match callers st !! i with
      | None => let '(p, l) := LoadOrStore key l in goes i l (Obtained key p)
      | Some _ => None
      end
  | Enter i now =>
      match callers st !! i with
      | Some (Obtained key p) =>
          let '(ok, l) := admit_at r now p l in
          Some ([(key, now, ok)],
            MkRate l (if ok then <[i := Entered now]> (callers st) else delete i (callers st)))
      | _ => None
      end
  | Count i =>
      match callers st !! i with
      | Some (Entered now) =>
          let '(due, l) := count_message r l in
          Some ([], MkRate l (if due then <[i := Cleaning now]> (callers st) else delete i (callers st)))
      | _ => None
      end
  | Visit i key =>
      match callers st !! i, windows l !! key with
      | Some (Cleaning now), Some p => goes i l (Visiting now key p)
      | _, _ => None
      end
  | Sweep i =>
      match callers st !! i with
      | Some (Visiting now key p) =>
          let '(remove, l) := sweep_window r now p l in goes i l (if remove then Removing now key else Cleaning now)
      | _ => None
      end
  | Delete i =>
      match callers st !! i with
      | Some (Removing now key) => goes i (delete_window key l) (Cleaning now)
      | _ => None
      end
  | Finish i =>
      match callers st !! i with
      | Some (Cleaning now) => Some ([], MkRate l (delete i (callers st)))
      | _ => None
      end
  end.

Fixpoint rate_run (r : RateLimitConfig) (steps : list rate_label) (st : rate_state) : option (list verdict * rate_state) :=
  match steps with
  | [] => Some ([], st)
  | a :: steps =>
      match rate_step r a st with
      | Some (now, st) => match rate_run r steps st with Some (later, st) => Some (now ++ later, st) | None => None end
      | None => None
      end
  end.

(** Where a world keeps the limiter, and its clock. *)
Class Metered (W : Type) := {
  limiter_of : W → limiter;
  set_limiter : limiter → W → W;
  clock : W → Z;
}.

Definition too_quickly : string := "You're sending messages too quickly. Please wait a moment and try again.".

Definition RateLimit_Invoke {W} {M : Metered W} (r : RateLimitConfig) : IMessageMiddleware W := λ m w,
  let '(ok, l) := admit_message r (clock w) (window_key (ChannelId m) (SenderId m)) (limiter_of w) in
  let w := set_limiter l w in
  if ok then CallNext m w Return else Return None (ShortCircuit too_quickly m) w.

(** ** The token budget *)

(** [%.2f]: the hundredths, rounded to even. *)
Definition hundredths (mantissa : positive) (exponent : Z) : Z :=
  let n := (Zpos mantissa * 100)%Z in
  if (0 <=? exponent)%Z then (n * 2 ^ exponent)%Z
  else
    let d := (2 ^ (- exponent))%Z in
    let '(q, r) := (n / d, n mod d)%Z in
    if (d <? 2 * r)%Z || ((2 * r =? d)%Z && Z.odd q) then (q + 1)%Z else q.

Definition two_digits (n : Z) : string := if (n <? 10)%Z then "0" +:+ Itoa n else Itoa n.

Definition format_cents (n : Z) : string := Itoa (n / 100) +:+ "." +:+ two_digits (n mod 100).

Definition format_2f (x : float64) : string :=
  match x with
  | SpecFloat.S754_nan => "NaN"
  | SpecFloat.S754_infinity s => if s then "-Inf" else "+Inf"
  | SpecFloat.S754_zero s => (if s then "-" else "") +:+ "0.00"
  | SpecFloat.S754_finite s m e => (if s then "-" else "") +:+ format_cents (hundredths m e)
  end.

Definition token_budget_reached (total max : Z) : string :=
  "This session has reached its token budget (" +:+ Itoa total +:+ "/" +:+ Itoa max +:+
  " tokens). Please start a new conversation.".

Definition cost_budget_reached (current max : float64) : string :=
  "This session has reached its cost budget ($" +:+ format_2f current +:+ "/$" +:+ format_2f max +:+
  " USD). Please start a new conversation or adjust the contract budget.".

Definition TokenBudget_Invoke {W} (maxTokensPerSession : Z)
    (costChecker : option (string → string → string → W → (float64 * float64 * bool) * W)) : IMessageMiddleware W := λ m w,
  let total := wrap64 (SessionInputTokens m + SessionOutputTokens m) in
  if (0 <? maxTokensPerSession)%Z && (maxTokensPerSession <=? total)%Z then
    Return None (ShortCircuit (token_budget_reached total maxTokensPerSession) m) w
  else
    match costChecker with
    | None => CallNext m w Return
    | Some check =>
        let '((maxCost, currentCost, exceeded), w) := check (SessionId m) (ChannelId m) (SenderId m) w in
        if exceeded : bool then Return None (ShortCircuit (cost_budget_reached currentCost maxCost) m) w
        else CallNext m w Return
    end.

Example costs_are_rounded_to_even :
  format_2f (f_decimal 5 1) = "0.50" /\ format_2f (f_decimal 125 3) = "0.12" /\ format_2f (f_decimal 199999 5) = "2.00" /\
  format_2f (f_integer 7) = "7.00".
Proof. vm_compute. repeat split. Qed.

(** ** The pipeline runs in order *)

Section PipelineSpec.
Context {W : Type} (ms : list (IMessageMiddleware W)).

(** A middleware that stops the message, or changes it and lets it go on. *)
Definition straight (mw : IMessageMiddleware W) : Prop := ∀ m w,
  (∃ err m' w', mw m w = Return err m' w') ∨ (∃ m' w', mw m w = CallNext m' w' Return).

(** One after the other, until one stops. *)
Fixpoint in_order (middleware : list (IMessageMiddleware W)) (m : MessageContext) (w : W) : option string * MessageContext * W :=
  if IsShortCircuited m then (None, m, w)
  else
    match middleware with
    | [] => (None, m, w)
    | mw :: middleware =>
        match mw m w with
        | Return err m w => (err, m, w)
        | CallNext m w _ => in_order middleware m w
        end
    end.

(** The index only grows, so there is fuel enough. *)
Lemma next_ends fuel : ∀ i m w, (length ms ≤ i + fuel)%nat →
  ∃ err i' m' w', next ms fuel i m w = Some (err, i', m', w') ∧ (i ≤ i')%nat.
Proof.
  induction fuel as [| fuel IH]; intros i m w Hi; cbn [next].
  - destruct (IsShortCircuited m); [eauto 10 |]. rewrite (lookup_ge_None_2 ms i) by lia. eauto 10.
  - destruct (IsShortCircuited m); [eauto 10 |]. destruct (ms !! i) as [mw |] eqn:Hmw; [| eauto 10].
    assert (∀ d i', (S i ≤ i')%nat →
      ∃ err i'' m' w', converse (next ms fuel) d i' = Some (err, i'', m', w') ∧ (i' ≤ i'')%nat) as Hconv.
    { induction d as [err m1 w1 | m1 w1 k IHd]; intros i' Hi'; simpl; [eauto 10 |].
      destruct (IH i' m1 w1) as (err & i1 & m2 & w2 & -> & H1); [lia |].
      destruct (IHd err m2 w2 i1) as (err3 & i3 & m3 & w3 & -> & H3); [lia |]. do 4 eexists. split; [done | lia]. }
    destruct (Hconv (mw m w) (S i)) as (err & i' & m' & w' & -> & H); [lia |]. do 4 eexists. split; [done | lia].
Qed.

Lemma next_in_order fuel : Forall straight ms → ∀ i m w, (length ms ≤ i + fuel)%nat →
  ∃ i', next ms fuel i m w = Some ((in_order (drop i ms) m w).1.1, i', (in_order (drop i ms) m w).1.2, (in_order (drop i ms) m w).2).
Proof.
  intros Hall. induction fuel as [| fuel IH]; intros i m w Hi; cbn [next].
  - rewrite drop_ge by lia. simpl. destruct (IsShortCircuited m); [eauto |]. rewrite (lookup_ge_None_2 ms i) by lia. eauto.
  - destruct (ms !! i) as [mw |] eqn:Hmw.
    + rewrite (drop_S _ _ _ Hmw). simpl. destruct (IsShortCircuited m); [eauto |].
      destruct (Forall_lookup_1 _ _ _ _ Hall Hmw m w) as [(err & m' & w' & ->) | (m' & w' & ->)]; simpl; [eauto |].
      destruct (IH (S i) m' w') as (i' & ->); [lia | eauto].
    + apply lookup_ge_None in Hmw. rewrite drop_ge by lia. simpl. destruct (IsShortCircuited m); eauto.
Qed.

(** The pipeline ends, whatever its middlewares do with [next].  A message that
    goes on is not short-circuited; and middlewares that call [next] at most
    once, at their end, run one after the other until one stops the message or
    fails. *)
Theorem pipeline_runs_in_order m w : ms ≠ [] → ∃ goes_on m' w', Execute ms m w = Some (goes_on, m', w') ∧
  (goes_on = true → IsShortCircuited m' = false) ∧
  (Forall straight ms → let r := in_order ms m w in
     m' = r.1.2 ∧ w' = r.2 ∧ (goes_on = true ↔ r.1.1 = None ∧ IsShortCircuited r.1.2 = false)).
Proof.
  intros Hne. unfold Execute. rewrite bool_decide_eq_false_2 by (by destruct ms).
  destruct (next_ends (length ms) 0 m w) as (err & i & m' & w' & Hnext & _); [lia |]. rewrite Hnext.
  exists (match err with Some _ => false | None => negb (IsShortCircuited m') end), m', w'.
  split; [by destruct err |]. split; [destruct err; [done | by destruct (IsShortCircuited m')] |]. intros Hall. set (r := in_order ms m w).
  destruct (next_in_order (length ms) Hall 0 m w) as (i' & Hnext'); [lia |]. rewrite Hnext in Hnext'. rewrite drop_0 in Hnext'.
  fold r in Hnext'. injection Hnext' as -> _ -> ->. split_and!; [done.. |].
  destruct r.1.1, (IsShortCircuited r.1.2); split; done || by intros [].
Qed.
End PipelineSpec.

(** ** The rate limit is a sliding window *)

Section RateLimit.
Context (maxMessages : Z) (ttl : option Z) (cleanup : Z).

Let r : RateLimitConfig := NewRateLimitMiddleware maxMessages ttl cleanup.

(** The times at which messages with a key were admitted. *)
Definition times (key : string) (log : list (string * Z)) : list Z := (filter (λ x, x.1 = key) log).*2.

(** The reference: fewer than the limit were admitted within the minute. *)
Fixpoint window_decisions (reqs log : list (string * Z)) : list bool :=
  match reqs with
  | [] => []
  | (key, t) :: reqs =>
      let ok := (Z.of_nat (length (filter (λ s, t - minute ≤ s)%Z (times key log))) <? maxMessagesPerMinute r)%Z in
      ok :: window_decisions reqs (if ok then log ++ [(key, t)] else log)
  end.

Definition entries_of (key : string) (l : limiter) : list Z :=
  match windows l !! key with Some p => entries (window_at p l) | None => [] end.

(** Whether a call is about to use a window it was given. *)
Definition holds (p : nat) (ph : phase) : bool :=
  match ph with Obtained _ q => bool_decide (p = q) | _ => false end.

(** A clean-up removes no window that has entries or that a call is about to
    use. *)
Definition calm_step (a : rate_label) (st : rate_state) : bool :=
  match a with
  | Delete i =>
      match callers st !! i with
      | Some (Removing _ key) =>
          match windows (limits st) !! key with
          | Some p => bool_decide (entries (window_at p (limits st)) = []) &&
              forallb (λ x, negb (holds p x.2)) (map_to_list (callers st))
          | None => true
          end
      | _ => true
      end
  | _ => true
  end.

Fixpoint calm (steps : list rate_label) (st : rate_state) : bool :=
  match steps with
  | [] => true
  | a :: steps =>
      calm_step a st && match rate_step r a st with Some (_, st) => calm steps st | None => true end
  end.

Lemma filter_all (P : Z → Prop) `{∀ t, Decision (P t)} (l : list Z) : Forall P l → filter P l = l.
Proof. induction 1 as [| t l Ht _ IH]; [done |]. by rewrite filter_cons_True, IH. Qed.

Lemma evict_sorted c l : StronglySorted Z.le l → evict c l = filter (λ t, c ≤ t)%Z l.
Proof.
  induction 1 as [| t l Hl IH Ht]; [done |]. simpl. destruct (t <? c)%Z eqn:E.
  - rewrite filter_cons_False by lia. exact IH.
  - rewrite filter_cons_True by lia. f_equal. rewrite filter_all; [done |]. eapply Forall_impl; [exact Ht |]. simpl. lia.
Qed.

Lemma evict_keeps c l : StronglySorted Z.le l → StronglySorted Z.le (evict c l).
Proof. induction 1 as [| t l Hl IH Ht]; [constructor |]. simpl. destruct (t <? c)%Z; [done | by constructor]. Qed.

Lemma evict_Forall (P : Z → Prop) c l : Forall P l → Forall P (evict c l).
Proof. induction 1 as [| t l Ht Hl IH]; [constructor |]. simpl. destruct (t <? c)%Z; [done | by constructor]. Qed.

Lemma sorted_snoc l t : StronglySorted Z.le l → Forall (λ s, s ≤ t)%Z l → StronglySorted Z.le (l ++ [t]).
Proof.
  induction 1 as [| s l Hl IH Hs]; intros Hall; [repeat constructor |]. apply Forall_cons in Hall as [Hst Hall].
  constructor; [by apply IH |]. apply Forall_app. split; [done | by constructor].
Qed.

(** The time for which an admitted call goes on. *)
Definition moment (ph : phase) : option Z :=
  match ph with
  | Obtained _ _ => None
  | Entered t | Cleaning t | Visiting t _ _ | Removing t _ => Some t
  end.

(** A window is kept for one key; calls hold the window of their key, and
    clean up for a time that is past.  The entries are sorted, and those of the
    last minute are its admissions. *)
Record agrees (st : rate_state) (log : list (string * Z)) (now : Z) : Prop := {
  ag_heap key p : windows (limits st) !! key = Some p → (p < length (heap (limits st)))%nat;
  ag_one key key' p : windows (limits st) !! key = Some p → windows (limits st) !! key' = Some p → key = key';
  ag_held i key p : callers st !! i = Some (Obtained key p) → windows (limits st) !! key = Some p;
  ag_clean i ph t : callers st !! i = Some ph → moment ph = Some t → (t ≤ now)%Z;
  ag_sorted key : StronglySorted Z.le (entries_of key (limits st));
  ag_past key : Forall (λ t, t ≤ now)%Z (entries_of key (limits st));
  ag_recent key c : (now - minute ≤ c →
    filter (λ t, c ≤ t) (entries_of key (limits st)) = filter (λ t, c ≤ t) (times key log))%Z;
}.

Lemma times_snoc k key t log : times k (log ++ [(key, t)]) = times k log ++ if bool_decide (k = key) then [t] else [].
Proof.
  unfold times. rewrite filter_app, fmap_app. f_equal. rewrite filter_cons, filter_nil. simpl.
  case_bool_decide as Hk; [by rewrite decide_True | by rewrite decide_False].
Qed.

Lemma recent_evict c c' l : StronglySorted Z.le l → (c' ≤ c)%Z →
  filter (λ t, c ≤ t)%Z (evict c' l) = filter (λ t, c ≤ t)%Z l.
Proof. intros Hl Hc. rewrite evict_sorted by done. apply list_filter_filter_l. lia. Qed.

Lemma entries_set k p w l : (windows l !! k = Some p → p < length (heap l))%nat →
  entries_of k (set_window p w l) = if bool_decide (windows l !! k = Some p) then entries w else entries_of k l.
Proof.
  intros Hp. unfold entries_of, window_at, set_window. cbn [windows heap]. destruct (windows l !! k) as [q |] eqn:Hq.
  - case_bool_decide as Hqp.
    + injection Hqp as ->. by rewrite list_lookup_insert_eq by auto.
    + by rewrite list_lookup_insert_ne by congruence.
  - by rewrite bool_decide_eq_false_2.
Qed.

(** A later time, and entries that the minute does not need, change nothing. *)
Lemma agrees_later st log now t : agrees st log now → (now ≤ t)%Z → agrees st log t.
Proof.
  intros [H1 H2 H3 H4 H5 H6 H7] Ht. split; [done.. | | done | |].
  - intros i ph s Hi Hs. specialize (H4 i ph s Hi Hs). lia.
  - intros k. eapply Forall_impl; [apply H6 |]. simpl. lia.
  - intros k c Hc. apply H7. lia.
Qed.

Lemma agrees_moves st log now l' callers' :
  agrees st log now → windows l' = windows (limits st) → length (heap l') = length (heap (limits st)) →
  (∀ k, entries_of k l' = entries_of k (limits st) ∨
    ∃ c, (c ≤ now - minute)%Z ∧ entries_of k l' = evict c (entries_of k (limits st))) →
  (∀ i ph, callers' !! i = Some ph → callers st !! i = Some ph ∨ ∃ t, moment ph = Some t ∧ (t ≤ now)%Z) →
  agrees (MkRate l' callers') log now.
Proof.
  intros [H1 H2 H3 H4 H5 H6 H7] Hw Hh He Hc. split; cbn [limits callers]; rewrite ?Hw, ?Hh; [done.. | | | | |].
  - intros i k p Hi. destruct (Hc _ _ Hi) as [Hi' | (t & Ht & _)]; [by eapply H3 | done].
  - intros i ph t Hi Ht. destruct (Hc _ _ Hi) as [Hi' | (t' & Ht' & Hle)]; [by eapply H4 | congruence].
  - intros k. destruct (He k) as [-> | (c & _ & ->)]; [done | by apply evict_keeps].
  - intros k. destruct (He k) as [-> | (c & _ & ->)]; [done | by apply evict_Forall].
  - intros k c Hle. destruct (He k) as [-> | (c' & Hc' & ->)]; [by apply H7 |].
    rewrite recent_evict by (done || lia). by apply H7.
Qed.

(** Only the phase of the call that moves changes. *)
Lemma moved_insert (m : gmap nat phase) (now : Z) i new t j ph : moment new = Some t → (t ≤ now)%Z →
  <[i := new]> m !! j = Some ph → m !! j = Some ph ∨ ∃ t, moment ph = Some t ∧ (t ≤ now)%Z.
Proof. intros Ht Hle [[_ <-] | [_ Hj]]%lookup_insert_Some; eauto. Qed.

Lemma moved_delete (m : gmap nat phase) (now : Z) i j ph :
  delete i m !! j = Some ph → m !! j = Some ph ∨ ∃ t, moment ph = Some t ∧ (t ≤ now)%Z.
Proof. intros [_ Hj]%lookup_delete_Some. eauto. Qed.

Lemma agrees_obtain st log now i key : agrees st log now → callers st !! i = None →
  agrees (MkRate (LoadOrStore key (limits st)).2 (<[i := Obtained key (LoadOrStore key (limits st)).1]> (callers st))) log now.
Proof.
  intros [H1 H2 H3 H4 H5 H6 H7] Hi.
  assert (∀ j ph t, <[i := Obtained key (LoadOrStore key (limits st)).1]> (callers st) !! j = Some ph → moment ph = Some t → (t ≤ now)%Z)
    as Hclean by (intros j ph t [[_ <-] | [_ Hj]]%lookup_insert_Some Ht; [done | by eapply H4]).
  unfold LoadOrStore in *. destruct (windows (limits st) !! key) as [p |] eqn:Hp; simpl in *.
  - split; cbn [limits callers]; try done. intros j k q [[_ [= <- <-]] | [_ Hj]]%lookup_insert_Some; [done | by eapply H3].
  - set (p := length (heap (limits st))) in *.
    assert (∀ k, entries_of k (MkLimiter (heap (limits st) ++ [MkWindow [] 0]) (<[key := p]> (windows (limits st))) (requestCount (limits st)))
      = entries_of k (limits st)) as He.
    { intros k. unfold entries_of, window_at. cbn [windows heap]. destruct (decide (k = key)) as [-> | Hk].
      - by rewrite lookup_insert_eq, Hp, list_lookup_middle.
      - rewrite lookup_insert_ne by done. destruct (windows (limits st) !! k) as [q |] eqn:Hq; [| done].
        by rewrite lookup_app_l by (eapply H1; done). }
    split; cbn [limits callers windows heap]; try setoid_rewrite He; try done.
    + intros k q Hq. rewrite length_app. simpl. apply lookup_insert_Some in Hq as [[_ <-] | [_ Hq]]; [lia |].
      apply H1 in Hq. lia.
    + intros k k' q Hq Hq'. apply lookup_insert_Some in Hq as [[<- <-] | [Hk Hq]], Hq' as [[<- Heq] | [Hk' Hq']]; try done.
      * apply H1 in Hq'. subst p. lia.
      * apply H1 in Hq. subst p. lia.
      * by eapply H2.
    + intros j k q [[_ [= <- <-]] | [_ Hj]]%lookup_insert_Some; [by rewrite lookup_insert_eq |].
      apply H3 in Hj. rewrite lookup_insert_ne by congruence. done.
Qed.

Lemma agrees_delete st log now i t key : agrees st log now → callers st !! i = Some (Removing t key) →
  calm_step (Delete i) st = true → agrees (MkRate (delete_window key (limits st)) (<[i := Cleaning t]> (callers st))) log now.
Proof.
  intros [H1 H2 H3 H4 H5 H6 H7] Hi Hcalm. simpl in Hcalm. rewrite Hi in Hcalm.
  assert (∀ k, entries_of k (delete_window key (limits st)) = entries_of k (limits st)) as He.
  { intros k. unfold entries_of, window_at, delete_window. cbn [windows heap]. destruct (decide (k = key)) as [-> | Hk].
    - rewrite lookup_delete_eq. destruct (windows (limits st) !! key) as [p |]; [| done].
      apply andb_true_iff in Hcalm as [Hempty%bool_decide_eq_true _]. done.
    - by rewrite lookup_delete_ne by done. }
  split; cbn [limits callers]; try setoid_rewrite He; try done; cbn [windows delete_window].
  - intros k p Hp. apply lookup_delete_Some in Hp as [_ Hp]. by eapply H1.
  - intros k k' p Hp Hp'. apply lookup_delete_Some in Hp as [_ Hp], Hp' as [_ Hp']. by eapply H2.
  - intros j k p [[_ ?] | [_ Hj]]%lookup_insert_Some; [done |]. pose proof (H3 _ _ _ Hj) as Hp.
    rewrite lookup_delete_ne; [done |]. intros <-. rewrite Hp in Hcalm. apply andb_true_iff in Hcalm as [_ Hfree].
    rewrite forallb_forall in Hfree. specialize (Hfree (j, Obtained key p)). cbn in Hfree. rewrite bool_decide_eq_true_2 in Hfree by done.
    by discriminate Hfree; apply list_elem_of_In, elem_of_map_to_list.
  - intros j ph s [[_ <-] | [_ Hj]]%lookup_insert_Some Hs; [| by eapply H4]. injection Hs as <-. by eapply (H4 i).
Qed.

(** A decision counts the admissions of the last minute, and notes its own. *)
Lemma agrees_enter st log now i t key p : agrees st log now → (now ≤ t)%Z → callers st !! i = Some (Obtained key p) →
  let ok := (Z.of_nat (length (filter (λ s, t - minute ≤ s)%Z (times key log))) <? maxMessagesPerMinute r)%Z in
  ∃ st', rate_step r (Enter i t) st = Some ([(key, t, ok)], st') ∧ agrees st' (if ok then log ++ [(key, t)] else log) t.
Proof.
  intros Hst Ht Hi ok. apply (agrees_later _ _ _ t) in Hst; [| done]. pose proof Hst as [H1 H2 H3 H4 H5 H6 H7].
  pose proof (H3 _ _ _ Hi) as Hp.
  assert (entries (window_at p (limits st)) = entries_of key (limits st)) as Hentries by (unfold entries_of; by rewrite Hp).
  assert ((maxMessagesPerMinute r <=? Z.of_nat (length (evict (t - minute) (entries_of key (limits st)))))%Z = negb ok) as Hok.
  { rewrite evict_sorted, H7 by (done || lia). subst ok. rewrite Z.ltb_antisym. by rewrite negb_involutive. }
  assert (∀ k, bool_decide (windows (limits st) !! k = Some p) = bool_decide (k = key)) as Hwindow.
  { intros k. apply bool_decide_ext. split; [intros Hk; by eapply H2 | by intros ->]. }
  simpl. rewrite Hi. unfold admit_at. rewrite Hentries, Hok. destruct ok; simpl; eexists; (split; [done |]).
  - assert (∀ k, entries_of k (set_window p (MkWindow (evict (t - minute) (entries_of key (limits st)) ++ [t]) t) (limits st)) =
      if bool_decide (k = key) then evict (t - minute) (entries_of key (limits st)) ++ [t] else entries_of k (limits st)) as He
      by (intros k; rewrite entries_set by eauto; by rewrite Hwindow).
    split; cbn [limits callers]; try setoid_rewrite He; try setoid_rewrite times_snoc.
    + intros k q Hq. cbn [set_window heap]. rewrite length_insert. by eapply H1.
    + done.
    + intros j k q [[_ ?] | [_ Hj]]%lookup_insert_Some; [done | by eapply H3].
    + intros j ph s [[_ <-] | [_ Hj]]%lookup_insert_Some Hs; [by injection Hs as <- | by eapply H4].
    + intros k. case_bool_decide; [| done]. by apply sorted_snoc; [apply evict_keeps | apply evict_Forall].
    + intros k. case_bool_decide; [| done]. apply Forall_app. split; [by apply evict_Forall | by repeat constructor].
    + intros k c Hc. case_bool_decide; [subst k | by rewrite app_nil_r; apply H7].
      rewrite !filter_app, recent_evict by (done || lia). f_equal. by apply H7.
  - apply (agrees_moves st); [done | done | by cbn [set_window heap]; rewrite length_insert | | intros j ph; apply moved_delete].
    intros k. rewrite entries_set, Hwindow by eauto. case_bool_decide; [subst k; right | by left]. exists (t - minute)%Z. split; [lia | done].
Qed.

Lemma enter_decides i t st vs st' : rate_step r (Enter i t) st = Some (vs, st') →
  ∃ key p ok, callers st !! i = Some (Obtained key p) ∧ vs = [(key, t, ok)].
Proof.
  simpl. destruct (callers st !! i) as [[key p | | | |] |]; try done. destruct (admit_at r t p (limits st)) as [ok l].
  intros [= <- _]. by exists key, p, ok.
Qed.

(** No other step decides anything. *)
Lemma agrees_quiet a st log now vs st' : agrees st log now → (∀ i t, a ≠ Enter i t) → calm_step a st = true →
  rate_step r a st = Some (vs, st') → vs = [] ∧ agrees st' log now.
Proof.
  intros Hst Hne Hcalm Hstep. pose proof (ag_clean _ _ _ Hst) as Hclean.
  assert (∀ i ph t, callers st !! i = Some ph → moment ph = Some t → ∀ new, moment new = Some t → ∀ j ph',
    <[i := new]> (callers st) !! j = Some ph' → callers st !! j = Some ph' ∨ ∃ t', moment ph' = Some t' ∧ (t' ≤ now)%Z) as Hmove
    by (intros i ph t Hi Ht new Hnew j ph'; eapply moved_insert; [done | by eapply Hclean]).
  destruct a as [i key | i t | i | i key | i | i | i]; simpl in Hstep.
  - destruct (callers st !! i) eqn:Hi; [done |]. pose proof (agrees_obtain _ _ _ _ key Hst Hi) as Hnew.
    destruct (LoadOrStore key (limits st)) as [p l]. by injection Hstep as <- <-.
  - by destruct (Hne i t).
  - destruct (callers st !! i) as [[] |] eqn:Hi; try done. destruct (Z.rem _ _ =? 0)%Z; injection Hstep as <- <-;
      (split; [done |]); apply (agrees_moves st); auto; intros j ph; [by eapply Hmove | apply moved_delete].
  - destruct (callers st !! i) as [[] |] eqn:Hi; try done. destruct (windows (limits st) !! key) as [p |]; [| done].
    injection Hstep as <- <-. split; [done |]. apply (agrees_moves st); auto. intros j ph. by eapply Hmove.
  - destruct (callers st !! i) as [[| | | t key p |] |] eqn:Hi; try done. unfold sweep_window in Hstep. injection Hstep as <- <-.
    split; [done |]. apply (agrees_moves st); [done | done | by cbn [set_window heap]; rewrite length_insert | |].
    + intros k. rewrite entries_set by (apply (ag_heap _ _ _ Hst)). case_bool_decide as Hk; [right | by left].
      exists (t - minute)%Z. split; [pose proof (Hclean _ _ t Hi eq_refl); lia |]. unfold entries_of. by rewrite Hk.
    + intros j ph. eapply Hmove; [done | done |]. by destruct (_ && _).
  - destruct (callers st !! i) as [[| | | | t key] |] eqn:Hi; try done. injection Hstep as <- <-. split; [done |].
    by eapply agrees_delete.
  - destruct (callers st !! i) as [[| | t | |] |] eqn:Hi; try done. injection Hstep as <- <-. split; [done |].
    apply (agrees_moves st); auto. intros j ph. apply moved_delete.
Qed.

Lemma agrees_new now : agrees (MkRate new_limiter ∅) [] now.
Proof. split; simpl; try done; intros; (by constructor) || (by rewrite lookup_empty in *). Qed.

End RateLimit.

(** Two messages a minute, with a clean-up after each: [a:b] writes while the
    clean-up for [c:d] is at work. *)
Definition busy_steps : list rate_label :=
  [Obtain 0 "a:b"; Enter 0 0; Obtain 1 "c:d"; Enter 1 second; Count 1; Obtain 2 "a:b"; Count 0; Visit 1 "a:b"; Enter 2 second; Sweep 1;
   Finish 1; Finish 0; Obtain 0 "a:b"; Enter 0 (2 * second); Obtain 0 "a:b"; Enter 0 (62 * second); Count 0; Visit 0 "c:d"; Sweep 0; Delete 0;
   Obtain 3 "c:d"; Enter 3 (63 * second)].


(** One message a minute.  A call is given the window of [a:b], which a clean-up
    finds stale and removes before the message is admitted, so the next call
    makes a new one. *)
Example a_window_in_use_is_removed :
  let r := NewRateLimitMiddleware 1 (Some 0)%Z 1 in
  let steps := [Obtain 0 "a:b"; Obtain 1 "c:d"; Enter 1 second; Count 1; Visit 1 "a:b"; Sweep 1; Delete 1; Finish 1;
                Enter 0 second; Obtain 2 "a:b"; Enter 2 (2 * second)]%Z in
  option_map fst (rate_run r steps (MkRate new_limiter ∅)) = Some [("c:d", second, true); ("a:b", second, true); ("a:b", 2 * second, true)]%Z /\
  calm 1 (Some 0)%Z 1 steps (MkRate new_limiter ∅) = false /\
  window_decisions 1 (Some 0)%Z 1 [("c:d", second); ("a:b", second); ("a:b", 2 * second)]%Z [] = [true; true; false].
Proof. vm_compute. repeat split. Qed.

(** ** A call that no other overlaps *)

Section Alone.
Context (r : RateLimitConfig) (i : nat) (now : Z).

Lemma rate_run_app steps1 steps2 st vs1 st1 vs2 st2 : rate_run r steps1 st = Some (vs1, st1) → rate_run r steps2 st1 = Some (vs2, st2) →
  rate_run r (steps1 ++ steps2) st = Some (vs1 ++ vs2, st2).
Proof.
  revert st vs1. induction steps1 as [| a steps1 IH]; intros st vs1 H1 H2; simpl in H1 |- *; [by injection H1 as <- <- |].
  destruct (rate_step r a st) as [[vs st'] |]; [| done]. destruct (rate_run r steps1 st') as [[vs' st''] |] eqn:Hrun; [| done].
  injection H1 as <- <-. rewrite (IH st' vs' Hrun H2). by rewrite app_assoc.
Qed.

(** The steps that look at a window, and remove it if it is stale. *)
Definition cleanup_steps (l : limiter) (window : string * nat) : list rate_label :=
  [Visit i window.1; Sweep i] ++ if (sweep_window r now window.2 l).1 then [Delete i] else [].

Lemma cleanup_window_runs l others key p : windows l !! key = Some p →
  rate_run r (cleanup_steps l (key, p)) (MkRate l (<[i := Cleaning now]> others)) =
    Some ([], MkRate (cleanup_window r now l (key, p)) (<[i := Cleaning now]> others)).
Proof.
  intros Hp. unfold cleanup_steps, cleanup_window. cbn [fst snd]. destruct (sweep_window r now p l) as [remove l'] eqn:Hsweep.
  cbn [fst app rate_run]. cbn [rate_step limits callers]. rewrite lookup_insert_eq, Hp. cbn [limits callers].
  rewrite insert_insert_eq, lookup_insert_eq, Hsweep.
  destruct remove; cbn; by rewrite ?lookup_insert_eq, ?insert_insert_eq.
Qed.

Lemma cleanup_runs others : ∀ ws l, NoDup ws.*1 → (∀ key p, (key, p) ∈ ws → windows l !! key = Some p) →
  ∃ steps, rate_run r steps (MkRate l (<[i := Cleaning now]> others)) =
    Some ([], MkRate (foldl (cleanup_window r now) l ws) (<[i := Cleaning now]> others)).
Proof.
  induction ws as [| [key p] ws IH]; intros l Hdup Hws; [by exists [] |]. simpl. apply NoDup_cons in Hdup as [Hnew Hdup].
  destruct (IH (cleanup_window r now l (key, p)) Hdup) as [steps Hsteps].
  - intros k q Hkq. unfold cleanup_window, sweep_window. simpl. pose proof (Hws k q (list_elem_of_further _ _ _ Hkq)) as Hq.
    destruct (_ && _); [| done]. cbn [delete_window set_window windows]. rewrite lookup_delete_ne; [done |]. intros ->.
    apply Hnew. by apply (list_elem_of_fmap_2 fst _ (k, q)).
  - eexists. eapply (rate_run_app _ _ _ [] _ []); [apply cleanup_window_runs, Hws; by left | exact Hsteps].
Qed.

(** Such a call does what [admit_message] says. *)
Lemma alone_call_runs key st : callers st !! i = None →
  let '(ok, l) := admit_message r now key (limits st) in
  ∃ steps, rate_run r steps st = Some ([(key, now, ok)], MkRate l (callers st)).
Proof.
  destruct st as [l others]. simpl. intros Hi. unfold admit_message. destruct (LoadOrStore key l) as [p l1] eqn:Hload.
  destruct (admit_at r now p l1) as [ok l2] eqn:Hadmit.
  assert (rate_run r [Obtain i key; Enter i now] (MkRate l others) =
    Some ([(key, now, ok)], MkRate l2 (if ok then <[i := Entered now]> others else others))) as Henter.
  { simpl. rewrite Hi, Hload. cbn. rewrite lookup_insert_eq, Hadmit. cbn.
    by destruct ok; rewrite ?insert_insert_eq, ?delete_insert_id. }
  destruct ok; [| eauto]. destruct (count_message r l2) as [due l3] eqn:Hcount.
  assert (rate_run r [Count i] (MkRate l2 (<[i := Entered now]> others)) =
    Some ([], MkRate l3 (if due then <[i := Cleaning now]> others else others))) as Hcounted.
  { simpl. rewrite lookup_insert_eq. unfold count_message in Hcount. injection Hcount as <- <-.
    by destruct (_ =? 0)%Z; rewrite ?insert_insert_eq, ?delete_insert_id. }
  pose proof (rate_run_app _ _ _ _ _ _ _ Henter Hcounted) as Hrun. destruct due; [| eauto].
  destruct (cleanup_runs others (map_to_list (windows l3)) l3) as [steps Hsteps]; [apply NoDup_fst_map_to_list | apply elem_of_map_to_list |].
  assert (rate_run r [Finish i] (MkRate (cleanupStaleWindows r now l3) (<[i := Cleaning now]> others)) =
    Some ([], MkRate (cleanupStaleWindows r now l3) others)) as Hfinish by (simpl; by rewrite lookup_insert_eq, delete_insert_id).
  eexists. exact (rate_run_app _ _ _ _ _ _ _ (rate_run_app _ _ _ _ _ _ _ Hrun Hsteps) Hfinish).
Qed.
End Alone.

(** ** Both together *)

(** A limiter and a clock. *)
Definition metered : Metered (limiter * Z) := {| limiter_of := fst; set_limiter l w := (l, w.2); clock := snd |}.

(** Two messages a minute, and 100 tokens a session. *)
Definition guards : list (IMessageMiddleware (limiter * Z)) :=
  [RateLimit_Invoke (M := metered) (NewRateLimitMiddleware 2 None 100); TokenBudget_Invoke 100 None].

Definition message (channelId senderId : string) (tokens : Z) : MessageContext :=
  MkContext channelId senderId "hi" "m1" "s1" tokens 0 false "".

Lemma guards_straight : Forall straight guards.
Proof.
  constructor; [| constructor; [| constructor]]; intros m w.
  - unfold RateLimit_Invoke. destruct (admit_message _ _ _ _) as [[] l]; [right | left]; eauto.
  - unfold TokenBudget_Invoke. destruct (_ && _); [left | right]; eauto.
Qed.

(** A message over the budget counts against the rate. *)
Example guards_stop_messages :
  let verdict m w := match Execute guards m w with Some (b, m, _) => Some (b, ShortCircuitResponse m) | None => None end in
  let w := (snd (admit_message (NewRateLimitMiddleware 2 None 100) 0 "web:ann" new_limiter), 1)%Z in
  verdict (message "web" "ann" 10) w = Some (true, "") /\
  verdict (message "web" "ann" 100) w =
    Some (false, "This session has reached its token budget (100/100 tokens). Please start a new conversation.") /\
  verdict (message "web" "ann" 100) (snd (admit_message (NewRateLimitMiddleware 2 None 100) 0 "web:ann" w.1), 1)%Z = Some (false, too_quickly).
Proof. vm_compute. repeat split. Qed.

(** Different senders can share a window. *)
Example keys_collide : window_key "a:b" "c" = window_key "a" "b:c".
Proof. reflexivity. Qed.

Lemma pipeline_runs_in_order_witness :
  let m := message "web" "ann" 10 in let w := (new_limiter, 5%Z) in
  ∃ goes_on m' w', Execute guards m w = Some (goes_on, m', w') ∧ (goes_on = true → IsShortCircuited m' = false) ∧
    (Forall straight guards → let r := in_order guards m w in
       m' = r.1.2 ∧ w' = r.2 ∧ (goes_on = true ↔ r.1.1 = None ∧ IsShortCircuited r.1.2 = false)).
Proof. apply (pipeline_runs_in_order guards (message "web" "ann" 10) (new_limiter, 5%Z)). discriminate. Defined.
