(* ===== verification/Disk.v ===== *)
(** The disk as the modelled components use it, and [util.FileExists],
    [util.ReadAllLines], [util.SaveOneFile] of [openclaw/util/file_dir.go].

    A disk maps paths to directories and files.  Operations its contents allow
    may still fail; whether they do is given by the parameters [..._ok].  A
    failed operation leaves the disk alone, and [os.Stat] fails only for absent
    paths (for any other failure [util.FileExists] would dereference nil). *)

From S2P Require Import Prelude GoStrings.
Local Open Scope string_scope.

Inductive node := NDir | NFile (data : string).

Abbreviation Disk := (gmap string node).

Definition FileExists (d : Disk) (path : string) : bool :=
  match d !! path with Some (NFile _) => true | _ => false end.

Definition newline : ascii := byte 10.
Definition carriage_return : ascii := byte 13.

(** The tokens of [bufio.ScanLines]: the lines, each without one final carriage
    return; an empty last line is none. *)
Definition drop_cr (l : bytes) : bytes :=
  match rev l with
  | c :: l' => if decide (c = carriage_return) then rev l' else l
  | [] => l
  end.
Definition scan_lines (data : bytes) : list bytes :=
  let ls := split_bytes newline data in
  map drop_cr (match last ls with Some [] => removelast ls | _ => ls end).

(** A line that fills the buffer is an error; the context is looked at for
    every line. *)
Fixpoint read_lines (ctx_err : option string) (ls : list bytes) : res (list string) :=
  match ls with
  | [] => Ok []
  | l :: ls =>
      if (10 * 1024 * 1024 <=? Z.of_nat (length l))%Z then Fail "bufio.Scanner: token too long"
      else match ctx_err with
           | Some e => Fail e
           | None => rest ← read_lines ctx_err ls; Ok (of_bytes l :: rest)
           end
  end.

Definition ReadAllLines (ctx_err : option string) (d : Disk) (path : string) : res (list string) :=
  match d !! path with
  | Some (NFile data) => read_lines ctx_err (scan_lines (to_bytes data))
  | Some NDir => Fail ("read " +:+ path +:+ ": is a directory")
  | None => Fail ("open " +:+ path +:+ ": no such file or directory")
  end.

Section Disk.
(** Whether an operation the disk's contents allow succeeds. *)
Variables (mkdir_ok write_ok remove_ok : string → bool) (rename_ok : string → string → bool).

(** [os.MkdirAll]; the parents of [path] are not tracked. *)
Definition MkdirAll (d : Disk) (path : string) : option Disk :=
  match d !! path with
  | Some NDir => Some d
  | Some (NFile _) => None
  | None => if mkdir_ok path then Some (<[path := NDir]> d) else None
  end.

(** [os.WriteFile] *)
Definition WriteFile (d : Disk) (path data : string) : option Disk :=
  match d !! path with
  | Some NDir => None
  | _ => if write_ok path then Some (<[path := NFile data]> d) else None
  end.

(** [os.Remove], an absent path being no error for the callers. *)
Definition Remove (d : Disk) (path : string) : option Disk :=
  match d !! path with
  | None => Some d
  | Some _ => if remove_ok path then Some (delete path d) else None
  end.

(** [os.Rename] *)
Definition Rename (d : Disk) (from to : string) : option Disk :=
  match d !! from with
  | Some n => if rename_ok from to then Some (<[to := n]> (delete from d)) else None
  | None => None
  end.

(** [SaveOneFile] of an item whose JSON text is [data]. *)
Definition SaveOneFile (ctx_err : option string) (path data : string) (d : Disk) : res () * Disk :=
  match ctx_err with
  | Some e => (Fail e, d)
  | None =>
      let tempPath := path +:+ ".tmp" in
      match WriteFile d tempPath data with
      | None => (Fail ("write " +:+ tempPath), d)
      | Some d =>
          match Remove d path with
          | None => (Fail ("remove " +:+ path), d)
          | Some d =>
              match Rename d tempPath path with
              | None => (Fail ("rename " +:+ tempPath), d)
              | Some d => (Ok tt, d)
              end
          end
      end
  end.

(** ** Lemmas *)

Lemma tmp_differs path : path +:+ ".tmp" ≠ path.
Proof.
  intros H. apply (f_equal (length ∘ to_bytes)) in H. simpl in H.
  rewrite to_bytes_append, length_app in H. simpl in H. lia.
Qed.

(** Saving touches the file and its temporary file only, and on success leaves
    the text under the path and no temporary file. *)
Lemma SaveOneFile_spec ctx_err path data d r d' : SaveOneFile ctx_err path data d = (r, d') →
  (∀ p, p ≠ path → p ≠ path +:+ ".tmp" → d' !! p = d !! p) ∧
  (r = Ok tt → d' !! path = Some (NFile data) ∧ d' !! (path +:+ ".tmp") = None).
Proof.
  pose proof (tmp_differs path) as Hne. unfold SaveOneFile.
  destruct ctx_err; [by intros [= <- <-] |].
  destruct (WriteFile d _ data) as [d1 |] eqn:H1; [| by intros [= <- <-]].
  assert (d1 = <[path +:+ ".tmp" := NFile data]> d) as ->.
  { unfold WriteFile in H1. destruct (d !! (path +:+ ".tmp")) as [[|] |]; [done | |]; destruct (write_ok _); congruence. }
  destruct (Remove _ path) as [d2 |] eqn:H2.
  2: { intros [= <- <-]. split; [| done]. intros p Hp Hpt. by rewrite lookup_insert_ne. }
  assert ((∀ p, p ≠ path → d2 !! p = <[path +:+ ".tmp" := NFile data]> d !! p)) as Hd2.
  { intros p Hp. unfold Remove in H2. destruct (_ !! path); [destruct (remove_ok path) |]; simplify_eq; [| done].
    by rewrite lookup_delete_ne. }
  unfold Rename. rewrite Hd2, lookup_insert_eq by done.
  destruct (rename_ok _ _); intros [= <- <-].
  - split.
    + intros p Hp Hpt. rewrite lookup_insert_ne, lookup_delete_ne, Hd2, lookup_insert_ne by done. done.
    + intros _. rewrite lookup_insert_eq, lookup_insert_ne by done. by rewrite lookup_delete_eq.
  - split; [| done]. intros p Hp Hpt. by rewrite Hd2, lookup_insert_ne.
Qed.
End Disk.
