(* ===== verification/PaymentModels.v ===== *)
(** The data of [openclaw/payments/models.go]: environments, requests,
    results, policy decisions, audit events and the in-memory payment secret.

    Field names carry a short prefix per struct.  [time.Time] is nanoseconds,
    [*time.Time] an option, [map[string]string] a [gmap string string]; JSON
    tags are not modelled. *)

From S2P Require Import Prelude GoStrings.
Local Open Scope string_scope.

(** ** Environments *)

Definition PaymentEnvTest : string := "test".
Definition PaymentEnvLive : string := "live".

(** [(string, bool)] results are options. *)
Definition TryNormalizeEnvironment (value : string) : option string :=
  let val := TrimSpace value in
  if decide (val = "") then Some PaymentEnvTest
  else if EqualFold val PaymentEnvTest then Some PaymentEnvTest
  else if EqualFold val PaymentEnvLive then Some PaymentEnvLive
  else None.

Definition NormalizeEnvironment (value : string) (fallback : list string) : res string :=
  let fb := match fallback with f :: _ => f | [] => PaymentEnvTest end in
  let candidate := TrimSpace value in
  let candidate := if decide (candidate = "") then fb else candidate in
  match TryNormalizeEnvironment candidate with
  | Some env => Ok env
  | None => Fail ("unsupported payment environment '" +:+ value +:+ "'. Use 'test' or 'live'")
  end.

Definition IsLiveEnvironment (value : string) : bool :=
  match TryNormalizeEnvironment value with
  | Some env => bool_decide (env = PaymentEnvLive)
  | None => false
  end.

Definition ActionIssueVirtualCard : string := "issue_virtual_card".
Definition ActionExecuteMachinePayment : string := "execute_machine_payment".
Definition ActionBrowserSentinelFill : string := "browser_sentinel_fill".

Definition DecisionAllow : string := "allow".
Definition DecisionDeny : string := "deny".
Definition DecisionRequireApproval : string := "require_approval".

Definition SeverityCritical : string := "critical".

(** ** Requests and results *)

Record FundingSource := mkFundingSource {
  fs_FundingSourceId : string; fs_ProviderId : string; fs_DisplayName : string;
  fs_Type : string; fs_Last4 : string; fs_Currency : string;
  fs_TestMode : bool; fs_Available : bool }.

Record PaymentSetupRequirement := mkSetupRequirement {
  psr_Name : string; psr_Satisfied : bool; psr_Message : string }.

Record PaymentSetupStatus := mkSetupStatus {
  pss_ProviderId : string; pss_Enabled : bool; pss_Installed : bool;
  pss_Version : string; pss_Mode : string; pss_Status : string;
  pss_Message : string; pss_Requirements : list PaymentSetupRequirement;
  pss_Metadata : gmap string string }.

Record BuyerProfile := mkBuyerProfile {
  bp_BuyerId : string; bp_DisplayName : string; bp_EmailHash : string; bp_Country : string }.

Record VirtualCardRequest := mkVirtualCardRequest {
  vcr_ProviderId : string; vcr_FundingSourceId : string; vcr_MerchantName : string;
  vcr_MerchantUrl : string; vcr_AmountMinor : Z; vcr_Currency : string;
  vcr_Purpose : string; vcr_ValidUntilUtc : option Z;
  vcr_BuyerProfile : option BuyerProfile; vcr_Environment : string }.

Record VirtualCardHandle := mkVirtualCardHandle {
  vch_HandleId : string; vch_ProviderId : string; vch_Last4 : string;
  vch_TargetMerchantName : string; vch_IssuedAtUtc : Z; vch_ValidUntilUtc : option Z;
  vch_SpendRequestId : string; vch_Status : string; vch_Environment : string }.

Record MachinePaymentChallenge := mkChallenge {
  mpc_ChallengeId : string; mpc_Protocol : string; mpc_ResourceUrl : string;
  mpc_MerchantName : string; mpc_AmountMinor : Z; mpc_Currency : string;
  mpc_ProviderId : string; mpc_SafeMetadata : gmap string string }.

Record MachinePaymentRequest := mkMachinePaymentRequest {
  mpr_ProviderId : string; mpr_Challenge : MachinePaymentChallenge;
  mpr_FundingSourceId : string; mpr_Environment : string; mpr_IdempotencyKey : string }.

Record MachinePaymentResult := mkMachinePaymentResult {
  mpres_PaymentId : string; mpres_ProviderId : string; mpres_Status : string;
  mpres_MerchantName : string; mpres_AmountMinor : Z; mpres_Currency : string;
  mpres_CreatedAtUtc : Z; mpres_ProviderReference : string;
  mpres_SafeMetadata : gmap string string }.

Record PaymentStatus := mkPaymentStatus {
  ps_PaymentId : string; ps_ProviderId : string; ps_Status : string;
  ps_MerchantName : string; ps_AmountMinor : Z; ps_Currency : string;
  ps_UpdatedAtUtc : option Z; ps_ProviderReference : string }.

Record PaymentPolicyDecision := mkDecision {
  ppd_Decision : string; ppd_Reason : string; ppd_Severity : string }.

Definition RequiresApproval (p : PaymentPolicyDecision) : bool :=
  EqualFold (ppd_Decision p) DecisionRequireApproval.
Definition Allowed (p : PaymentPolicyDecision) : bool := EqualFold (ppd_Decision p) DecisionAllow.
Definition Denied (p : PaymentPolicyDecision) : bool := EqualFold (ppd_Decision p) DecisionDeny.

Record ApprovalRequest := mkApprovalRequest {
  ar_Action : string; ar_Summary : string; ar_Severity : string;
  ar_MerchantName : string; ar_AmountMinor : Z; ar_Currency : string;
  ar_FundingSourceDisplay : string; ar_ProviderId : string; ar_ExpiresAtUtc : option Z;
  ar_Environment : string; ar_AgentId : string; ar_WorkspaceId : string;
  ar_SessionId : string; ar_ChannelId : string; ar_SenderId : string;
  ar_CliConfirmed : bool }.

Record ApprovalResult := mkApprovalResult {
  apr_Approved : bool; apr_Source : string; apr_Reason : string; apr_DecidedAtUtc : Z }.

Record PaymentExecutionContext := mkExecContext {
  pec_SessionId : string; pec_ChannelId : string; pec_SenderId : string;
  pec_CorrelationId : string; pec_WorkspaceId : string; pec_Environment : string;
  pec_CliConfirmed : bool; pec_AllowTestModeWithoutApproval : bool }.

Record PaymentAuditEvent := mkAuditEvent {
  pae_EventType : string; pae_ProviderId : string; pae_HandleId : string;
  pae_PaymentId : string; pae_Last4 : string; pae_MerchantName : string;
  pae_AmountMinor : Z; pae_Currency : string; pae_IssuedAtUtc : option Z;
  pae_ValidUntilUtc : option Z; pae_Status : string; pae_Decision : string;
  pae_Reason : string; pae_Environment : string; pae_TimestampUtc : Z }.

(** The zero [time.Time]. *)
Definition time_zero : Z := 0.

(** ** Secrets *)

Inductive PaymentSecretField :=
  | SecretFieldPan
  | SecretFieldCvv
  | SecretFieldExpMonth
  | SecretFieldExpYear
  | SecretFieldExpMonthYearShort
  | SecretFieldExpMonthYearLong
  | SecretFieldPostalCode
  | SecretFieldAuthorizationHeader
  | SecretFieldAuthorizationToken.

Record PaymentSecret := mkSecret {
  sec_handleId : string; sec_providerId : string; sec_last4 : string;
  sec_expiresAtUtc : option Z; sec_environment : string; sec_pan : string;
  sec_cvv : string; sec_expMonth : string; sec_expYear : string;
  sec_postalCode : string; sec_authorizationToken : string;
  sec_authorizationHeader : string }.

(** [s[len(s)-n:]] for [n <= len(s)]. *)
Definition last_bytes (n : nat) (s : string) : string :=
  of_bytes (drop (String.length s - n) (to_bytes s)).

(** [fmt.Sprintf("%02d", month)] *)
Definition format_02d (z : Z) : string :=
  if (String.length (Itoa z) <? 2)%nat then "0" +:+ Itoa z else Itoa z.

Definition normalizeMonth (value : string) : string :=
  if IsBlank value then ""
  else match Atoi value with
       | Some month => format_02d month
       | None => value
       end.

Definition normalizeYear (value : string) : string :=
  if IsBlank value then ""
  else if (String.length value =? 2)%nat then "20" +:+ value
  else value.

Definition NewPaymentSecret (handleId providerId pan cvv expMonth expYear postalCode
    authToken authHeader : string) (expiresAtUtc : option Z) (environment : string) : PaymentSecret :=
  let env := match NormalizeEnvironment environment [] with Ok e => e | Fail _ => "" end in
  let last4 := if (4 <=? String.length pan)%nat then last_bytes 4 pan else "" in
  mkSecret handleId providerId last4 expiresAtUtc env pan cvv
    (normalizeMonth expMonth) (normalizeYear expYear) postalCode authToken authHeader.

Definition Resolve (s : PaymentSecret) (field : PaymentSecretField) : string :=
  match field with
  | SecretFieldPan => sec_pan s
  | SecretFieldCvv => sec_cvv s
  | SecretFieldExpMonth => sec_expMonth s
  | SecretFieldExpYear => sec_expYear s
  | SecretFieldExpMonthYearShort =>
      if decide (sec_expMonth s ≠ "") then
        if (2 <=? String.length (sec_expYear s))%nat
        then sec_expMonth s +:+ "/" +:+ last_bytes 2 (sec_expYear s) else ""
      else ""
  | SecretFieldExpMonthYearLong =>
      if decide (sec_expMonth s ≠ "" ∧ sec_expYear s ≠ "")
      then sec_expMonth s +:+ "/" +:+ sec_expYear s else ""
  | SecretFieldPostalCode => sec_postalCode s
  | SecretFieldAuthorizationToken => sec_authorizationToken s
  | SecretFieldAuthorizationHeader => sec_authorizationHeader s
  end.

Definition Clear (s : PaymentSecret) : PaymentSecret :=
  mkSecret (sec_handleId s) (sec_providerId s) (sec_last4 s) (sec_expiresAtUtc s)
    (sec_environment s) "" "" "" "" "" "" "".

Record VirtualCardIssueResult := mkIssueResult {
  vcir_Handle : VirtualCardHandle; vcir_Secret : option PaymentSecret }.

Record MachinePaymentProviderResult := mkProviderResult {
  mppr_Result : MachinePaymentResult;
  mppr_ScopedAuthorizationSecret : option PaymentSecret }.

(** ** Lemmas *)

Lemma TryNormalizeEnvironment_range v e :
  TryNormalizeEnvironment v = Some e → e = PaymentEnvTest ∨ e = PaymentEnvLive.
Proof. unfold TryNormalizeEnvironment. repeat case_match; naive_solver. Qed.

Lemma TryNormalizeEnvironment_fix v e :
  TryNormalizeEnvironment v = Some e → TryNormalizeEnvironment e = Some e.
Proof. by intros [-> | ->]%TryNormalizeEnvironment_range. Qed.

Lemma TryNormalizeEnvironment_trim v :
  TryNormalizeEnvironment (TrimSpace v) = TryNormalizeEnvironment v.
Proof. unfold TryNormalizeEnvironment. by rewrite TrimSpace_idemp. Qed.

Lemma NormalizeEnvironment_range v e :
  NormalizeEnvironment v [] = Ok e → e = PaymentEnvTest ∨ e = PaymentEnvLive.
Proof.
  unfold NormalizeEnvironment.
  destruct (TryNormalizeEnvironment (if decide (TrimSpace v = "") then PaymentEnvTest else TrimSpace v)) eqn:H;
    intros; simplify_eq. by apply TryNormalizeEnvironment_range in H.
Qed.

Lemma NormalizeEnvironment_Try v :
  NormalizeEnvironment v [] =
    match TryNormalizeEnvironment v with
    | Some e => Ok e
    | None => Fail ("unsupported payment environment '" +:+ v +:+ "'. Use 'test' or 'live'")
    end.
Proof.
  unfold NormalizeEnvironment. case_decide as Hv.
  - rewrite <- (TryNormalizeEnvironment_trim v), Hv. done.
  - by rewrite TryNormalizeEnvironment_trim.
Qed.

Lemma IsLive_normalized e : e = PaymentEnvTest ∨ e = PaymentEnvLive →
  IsLiveEnvironment e = bool_decide (e = PaymentEnvLive).
Proof. by intros [-> | ->]. Qed.

Lemma Resolve_Clear s f : Resolve (Clear s) f = "".
Proof. by destruct f. Qed.
#[export] Hint Rewrite Resolve_Clear : goproj.

(** ** Properties *)

(** Normalising an environment accepts exactly the strings that are, up to
    surrounding Unicode white space and case folding, empty, "test" or "live";
    it yields the canonical name, normalising again changes nothing, and the
    live flag of a request is the flag of its normalised environment. *)
Theorem environment_normalisation v :
  (∀ e, TryNormalizeEnvironment v = Some e →
     (e = PaymentEnvTest ∨ e = PaymentEnvLive) ∧ NormalizeEnvironment v [] = Ok e ∧
     NormalizeEnvironment e [] = Ok e ∧
     (IsLiveEnvironment v = true ↔ e = PaymentEnvLive)) ∧
  (TryNormalizeEnvironment v = None ↔
     TrimSpace v ≠ "" ∧ EqualFold (TrimSpace v) PaymentEnvTest = false ∧
     EqualFold (TrimSpace v) PaymentEnvLive = false) ∧
  (is_ok (NormalizeEnvironment v []) = false ↔ TryNormalizeEnvironment v = None).
Proof.
  split; [| split].
  - intros e He. split; [by eapply TryNormalizeEnvironment_range |].
    rewrite !NormalizeEnvironment_Try, He, (TryNormalizeEnvironment_fix _ _ He).
    split; [done |]. split; [done |]. unfold IsLiveEnvironment. rewrite He.
    by rewrite bool_decide_eq_true.
  - unfold TryNormalizeEnvironment. repeat case_match; naive_solver.
  - rewrite NormalizeEnvironment_Try. by destruct (TryNormalizeEnvironment v).
Qed.
