(* ===== verification/PaymentVault.v ===== *)
(** [InMemoryPaymentSecretVault] of [openclaw/payments/vault.go].

    [TryRetrieve] returns a pointer into the vault's own entry, so the model
    keeps the Go heap: [entries] maps a handle to the location of its
    [VaultEntry], [heap] maps locations to entries, and a caller that
    retrieved a secret holds the location.  Every method body runs under the
    vault's mutex ([Store] takes it twice, around [cleanupExpired] and around
    the insertion; the state between the two is not observable by a caller of
    one vault).  [ctx] is the context's error at the call's check. *)

From S2P Require Import Prelude GoStrings PaymentModels.
Local Open Scope string_scope.
Local Open Scope Z_scope.

Record VaultEntry := mkEntry {
  ve_Secret : PaymentSecret;
  ve_ExpiresAtUtc : Z;
  ve_RetrieveOnce : bool
}.

Abbreviation loc := positive.

Record Vault := mkVault {
  entries : gmap string loc;
  heap : gmap loc VaultEntry;
  next_loc : loc
}.

Definition NewInMemoryPaymentSecretVault : Vault := mkVault ∅ ∅ 1%positive.

Definition minute_ns : Z := 60 * 1000000000.

(** [entry.Secret.Clear()] *)
Definition clear_entry (e : VaultEntry) : VaultEntry :=
  mkEntry (Clear (ve_Secret e)) (ve_ExpiresAtUtc e) (ve_RetrieveOnce e).

Definition Revoke (v : Vault) (handleId : string) : Vault :=
  if decide (handleId = "") then v
  else match entries v !! handleId with
       | Some l => mkVault (entries v) (alter clear_entry l (heap v)) (next_loc v)
       | None => v
       end.

(** The entry at [l] is past its expiry, as [cleanupExpired] tests it. *)
Definition cleanup_due (v : Vault) (nowUtc : Z) (l : loc) : bool :=
  match heap v !! l with
  | Some e => negb (nowUtc <? ve_ExpiresAtUtc e)
  | None => false
  end.

(** Locations of the handles the cleanup deletes. *)
Definition expired_locs (v : Vault) (nowUtc : Z) : gset loc :=
  list_to_set (filter (λ l, cleanup_due v nowUtc l = true) (snd <$> map_to_list (entries v))).

Definition cleanupExpired (v : Vault) (nowUtc : Z) : Vault :=
  mkVault
    (filter (λ hl, cleanup_due v nowUtc (snd hl) = false) (entries v))
    (map_imap (λ l e, Some (if decide (l ∈ expired_locs v nowUtc) then clear_entry e else e)) (heap v))
    (next_loc v).

Definition Store (v : Vault) (ctx : option string) (now : Z) (secret : PaymentSecret)
    (ttl : Z) (retrieveOnce : bool) : res string * Vault :=
  match ctx with
  | Some e => (Fail e, v)
  | None =>
      let v := cleanupExpired v now in
      let ttl := if ttl <? 0 then 5 * minute_ns else ttl in
      let expiresAt := now + ttl in
      (Ok (sec_handleId secret),
       mkVault (<[sec_handleId secret := next_loc v]> (entries v))
         (<[next_loc v := mkEntry secret expiresAt retrieveOnce]> (heap v))
         (Pos.succ (next_loc v)))
  end.

(** A missing handle dereferences the nil entry: a panic. *)
Definition TryRetrieve (v : Vault) (ctx : option string) (now : Z) (handleId purpose : string)
    : go (res loc * Vault) :=
  if decide (handleId = "") then Done (Fail "handleId can not be empty", v)
  else match ctx with
  | Some e => Done (Fail e, v)
  | None =>
      match entries v !! handleId with
      | None => Panic
      | Some l =>
          match heap v !! l with
          | None => Panic
          | Some entry =>
              if ve_ExpiresAtUtc entry <? now
              then Done (Fail (handleId +:+ " was expired"),
                         mkVault (delete handleId (entries v)) (alter clear_entry l (heap v)) (next_loc v))
              else if ve_RetrieveOnce entry
              then Done (Ok l, mkVault (delete handleId (entries v)) (heap v) (next_loc v))
              else Done (Ok l, v)
          end
      end
  end.

(** What a holder of the pointer [l] reads. *)
Definition secret_at (v : Vault) (l : loc) : option PaymentSecret := ve_Secret <$> heap v !! l.

(** ** Vault states and transitions *)

Inductive VaultOp :=
  | OpStore (ctx : option string) (now : Z) (s : PaymentSecret) (ttl : Z) (once : bool)
  | OpRetrieve (ctx : option string) (now : Z) (handleId : string)
  | OpRevoke (handleId : string).

(** One call; [None] when it panics. *)
Definition vault_call (v : Vault) (op : VaultOp) : option Vault :=
  match op with
  | OpStore ctx now s ttl once => Some (snd (Store v ctx now s ttl once))
  | OpRetrieve ctx now h =>
      match TryRetrieve v ctx now h "" with Done (_, v') => Some v' | _ => None end
  | OpRevoke h => Some (Revoke v h)
  end.

Definition vault_step (v : Vault) (op : VaultOp) (v' : Vault) : Prop := vault_call v op = Some v'.

(** Every listed handle points at an allocated entry, two handles never share
    one, and allocated locations are below the allocation counter. *)
Record vault_wf (v : Vault) : Prop := mkVaultWf {
  wf_alloc : ∀ h l, entries v !! h = Some l → is_Some (heap v !! l);
  wf_inj : ∀ h1 h2 l, entries v !! h1 = Some l → entries v !! h2 = Some l → h1 = h2;
  wf_next : ∀ l e, heap v !! l = Some e → (l < next_loc v)%positive
}.

(** The secret at [l] has been wiped. *)
Definition wiped (v : Vault) (l : loc) : Prop :=
  ∃ s, secret_at v l = Some s ∧ ∀ f, Resolve s f = "".

(** ** Lemmas *)

Lemma elem_of_expired_locs v now l :
  l ∈ expired_locs v now ↔ (∃ h, entries v !! h = Some l) ∧ cleanup_due v now l = true.
Proof.
  unfold expired_locs. rewrite elem_of_list_to_set, list_elem_of_filter, list_elem_of_fmap.
  split.
  - intros [Hd ([h l'] & -> & Hin%elem_of_map_to_list)]. simpl in *. split; [by exists h | done].
  - intros [[h Hh] Hd]. split; [done |]. exists (h, l). split; [done |].
    by apply elem_of_map_to_list.
Qed.

Lemma heap_cleanup v now l :
  heap (cleanupExpired v now) !! l =
    (λ e, if decide (l ∈ expired_locs v now) then clear_entry e else e) <$> heap v !! l.
Proof. simpl. rewrite map_lookup_imap. by destruct (heap v !! l). Qed.

Lemma entries_cleanup v now h l :
  entries (cleanupExpired v now) !! h = Some l ↔
  entries v !! h = Some l ∧ cleanup_due v now l = false.
Proof. simpl. by rewrite map_lookup_filter_Some. Qed.

Lemma is_Some_heap_cleanup v now l : is_Some (heap (cleanupExpired v now) !! l) ↔ is_Some (heap v !! l).
Proof. rewrite heap_cleanup. apply fmap_is_Some. Qed.

Lemma vault_wf_new : vault_wf NewInMemoryPaymentSecretVault.
Proof. split; simpl; intros; simplify_map_eq. Qed.

Lemma vault_wf_alter v f l : vault_wf v → vault_wf (mkVault (entries v) (alter f l (heap v)) (next_loc v)).
Proof.
  intros [Ha Hi Hn]. split; simpl; [| done |].
  - intros h l' H. rewrite lookup_alter. case_decide; subst; [rewrite fmap_is_Some |]; eauto.
  - intros l' e. rewrite lookup_alter. case_decide; subst; [| eauto].
    intros (e' & He' & _)%fmap_Some. eauto.
Qed.

Lemma vault_wf_delete v h : vault_wf v → vault_wf (mkVault (delete h (entries v)) (heap v) (next_loc v)).
Proof.
  intros [Ha Hi Hn]. split; simpl; [| | done].
  - intros ? ? [_ H]%lookup_delete_Some. eauto.
  - intros ? ? ? [_ H1]%lookup_delete_Some [_ H2]%lookup_delete_Some. eauto.
Qed.

Lemma vault_wf_wipe_delete v h l :
  vault_wf v → vault_wf (mkVault (delete h (entries v)) (alter clear_entry l (heap v)) (next_loc v)).
Proof. intros H. exact (vault_wf_delete _ h (vault_wf_alter v clear_entry l H)). Qed.

Lemma vault_wf_cleanup v now : vault_wf v → vault_wf (cleanupExpired v now).
Proof.
  intros [Ha Hi Hn]. split.
  - intros h l [H _]%entries_cleanup. rewrite is_Some_heap_cleanup. eauto.
  - intros h1 h2 l [H1 _]%entries_cleanup [H2 _]%entries_cleanup. eauto.
  - intros l e. rewrite heap_cleanup. intros (e' & He' & _)%fmap_Some. eauto.
Qed.

Lemma vault_wf_insert v h e :
  vault_wf v →
  vault_wf (mkVault (<[h := next_loc v]> (entries v)) (<[next_loc v := e]> (heap v)) (Pos.succ (next_loc v))).
Proof.
  intros [Ha Hi Hn]. split; simpl.
  - intros h' l. rewrite lookup_insert. case_decide.
    + intros [= <-]. rewrite lookup_insert_eq. eauto.
    + intros H'. destruct (Ha _ _ H') as [e' He']. pose proof (Hn _ _ He').
      rewrite lookup_insert_ne by lia. eauto.
  - assert (∀ h' l, entries v !! h' = Some l → l ≠ next_loc v) as Hfresh.
    { intros h' l H'. destruct (Ha _ _ H') as [e' He']. pose proof (Hn _ _ He'). lia. }
    intros h1 h2 l. rewrite !lookup_insert. repeat case_decide; intros; simplify_eq; try done.
    + by edestruct Hfresh.
    + by edestruct Hfresh.
    + eauto.
  - intros l e'. rewrite lookup_insert. case_decide; [intros _; lia |].
    intros H'. pose proof (Hn _ _ H'). lia.
Qed.

#[export] Hint Resolve vault_wf_new vault_wf_alter vault_wf_delete vault_wf_cleanup vault_wf_insert : goproj.

Lemma vault_wf_Store v ctx now s ttl once : vault_wf v → vault_wf (snd (Store v ctx now s ttl once)).
Proof.
  intros H. destruct ctx; simpl; [done |].
  exact (vault_wf_insert (cleanupExpired v now) _ _ (vault_wf_cleanup v now H)).
Qed.

Lemma vault_wf_Revoke v h : vault_wf v → vault_wf (Revoke v h).
Proof. unfold Revoke. intros H. repeat case_match; auto with goproj. Qed.

Lemma vault_wf_TryRetrieve v ctx now h p r v' :
  vault_wf v → TryRetrieve v ctx now h p = Done (r, v') → vault_wf v'.
Proof.
  unfold TryRetrieve. intros H. repeat case_match; intros; simplify_eq; auto using vault_wf_wipe_delete with goproj.
Qed.

Lemma vault_wf_step v op v' : vault_wf v → vault_step v op v' → vault_wf v'.
Proof.
  unfold vault_step. intros H. destruct op; simpl; intros Hs.
  - simplify_eq. by apply vault_wf_Store.
  - repeat case_match; simplify_eq. by eapply vault_wf_TryRetrieve.
  - simplify_eq. by apply vault_wf_Revoke.
Qed.

Lemma wiped_alter v l l' :
  wiped v l → wiped (mkVault (entries v) (alter clear_entry l' (heap v)) (next_loc v)) l.
Proof.
  intros (s & Hs & Hr). unfold wiped, secret_at in *. simpl. rewrite lookup_alter.
  case_decide; [subst | eauto].
  apply fmap_Some in Hs as (e & He & ->). rewrite He. simpl. eexists. split; [done |].
  intros f. apply Resolve_Clear.
Qed.

Lemma wiped_entries v l es : wiped v l → wiped (mkVault es (heap v) (next_loc v)) l.
Proof. done. Qed.

Lemma wiped_cleanup v now l : wiped v l → wiped (cleanupExpired v now) l.
Proof.
  intros (s & Hs & Hr). unfold wiped, secret_at in *. rewrite heap_cleanup.
  apply fmap_Some in Hs as (e & He & ->). rewrite He. simpl.
  eexists. split; [done |]. intros f. case_decide; simpl; [apply Resolve_Clear | apply Hr].
Qed.

(** Wiping is permanent: no later call of the vault brings a field back. *)
Lemma wiped_step v op v' l : vault_wf v → wiped v l → vault_step v op v' → wiped v' l.
Proof.
  unfold vault_step. intros Hwf Hw. destruct op as [ctx now s ttl once | ctx now h | h]; simpl; intros Hs.
  - simplify_eq. destruct ctx; simpl; [done |].
    destruct (wiped_cleanup v now l Hw) as (s' & Hs' & Hr).
    exists s'. split; [| done]. unfold secret_at in *. simpl. rewrite lookup_insert_ne; [exact Hs' |].
    apply fmap_Some in Hs' as (e & He & _).
    pose proof (wf_next _ (vault_wf_cleanup v now Hwf) _ _ He) as Hlt. simpl in Hlt. lia.
  - unfold TryRetrieve in Hs. repeat case_match; simplify_eq; try done; auto using wiped_entries.
    match goal with |- wiped (mkVault _ (alter clear_entry ?y _) _) _ =>
      exact (wiped_entries _ _ _ (wiped_alter v l y Hw)) end.
  - simplify_eq. unfold Revoke. repeat case_match; auto using wiped_alter.
Qed.

(** ** Properties *)

(** The vault's heap discipline holds after any sequence of calls: listed
    handles point at allocated entries, two handles never share an entry, and
    stored entries are freshly allocated. *)
Theorem vault_invariant ops v :
  steps vault_step NewInMemoryPaymentSecretVault ops v → vault_wf v.
Proof.
  intros H. refine (steps_invariant _ vault_wf _ _ _ _ H _); auto with goproj.
  intros. by eapply vault_wf_step.
Qed.

Definition example_secret : PaymentSecret :=
  mkSecret "pvh_1" "mock" "4242" None "live" "4242424242424242" "123" "12" "2030" "94107" "" "".

Definition example_vault : Vault :=
  snd (Store NewInMemoryPaymentSecretVault None 0 example_secret (5 * minute_ns) false).

Lemma vault_invariant_witness : vault_wf example_vault.
Proof.
  apply (vault_invariant [OpStore None 0 example_secret (5 * minute_ns) false]).
  econstructor; [reflexivity | constructor].
Defined.

(** Revoking a handle wipes the secret in place: every pointer to it handed
    out before, and every pointer [TryRetrieve] gives out for it later, reads
    the empty string in every field, after any further sequence of calls. *)
Theorem revoked_secret_stays_unreadable v h l ops v' :
  vault_wf v → h ≠ "" → entries v !! h = Some l →
  steps vault_step (Revoke v h) ops v' →
  wiped v' l ∧
  (∀ ctx now p l' v'', entries v' !! h = Some l → TryRetrieve v' ctx now h p = Done (Ok l', v'') →
     wiped v'' l').
Proof.
  intros Hwf Hh Hl Hrun.
  assert (vault_wf v' ∧ wiped v' l) as [Hwf' Hw].
  { refine (steps_invariant _ (λ v, vault_wf v ∧ wiped v l) _ _ _ _ Hrun _).
    - intros s op s' [H1 H2] Hs. split; [by eapply vault_wf_step | by eapply wiped_step].
    - split; [by apply vault_wf_Revoke |].
      unfold Revoke. rewrite decide_False by done. rewrite Hl.
      destruct (wf_alloc _ Hwf _ _ Hl) as [e He].
      exists (Clear (ve_Secret e)). unfold secret_at. simpl. rewrite lookup_alter_eq, He.
      split; [done |]. intros f. apply Resolve_Clear. }
  split; [done |]. intros ctx now p l' v'' Hl' Hr. unfold TryRetrieve in Hr.
  rewrite Hl' in Hr. repeat case_match; simplify_eq; done.
Qed.

Lemma revoked_secret_stays_unreadable_witness :
  wiped (snd (Store (Revoke example_vault "pvh_1") None 1 example_secret 7 true)) 1%positive.
Proof.
  refine (proj1 (revoked_secret_stays_unreadable example_vault "pvh_1" 1%positive
    [OpStore None 1 example_secret 7 true] _ _ _ _ _)).
  - apply vault_wf_Store, vault_wf_new.
  - discriminate.
  - reflexivity.
  - econstructor; [reflexivity | constructor].
Defined.

(** Storing a secret and retrieving its handle before it expires returns a
    pointer to exactly that secret; a retrieve-once secret is gone from the
    table after the first retrieval, and asking for it (or any handle that is
    not in the table) again panics instead of reporting an error. *)
Theorem store_retrieve_once v now t secret ttl once p :
  vault_wf v → 0 ≤ ttl → now ≤ t ≤ now + ttl → sec_handleId secret ≠ "" →
  let v1 := snd (Store v None now secret ttl once) in
  ∃ l v2, TryRetrieve v1 None t (sec_handleId secret) p = Done (Ok l, v2) ∧
    secret_at v2 l = Some secret ∧
    entries v2 !! sec_handleId secret = (if once then None else Some l) ∧
    (∀ h, h ≠ sec_handleId secret → entries v2 !! h = entries v1 !! h) ∧
    (once = true → ∀ t' p', TryRetrieve v2 None t' (sec_handleId secret) p' = Panic).
Proof.
  intros Hwf Httl Ht Hh v1. subst v1. unfold Store.
  destruct (Z.ltb_spec ttl 0); [lia |]. cbn [snd].
  set (c := cleanupExpired v now). set (h := sec_handleId secret) in *.
  unfold TryRetrieve at 1. rewrite decide_False by done. simpl.
  rewrite lookup_insert_eq. simpl. rewrite lookup_insert_eq. simpl.
  destruct (Z.ltb_spec (now + ttl) t); [lia |].
  destruct once; eexists _, _; (split; [reflexivity |]); unfold secret_at; simpl;
    rewrite !lookup_insert_eq; simpl.
  - split; [done |]. split; [by rewrite lookup_delete_eq |]. split.
    + intros h' Hne. by rewrite lookup_delete_ne by done.
    + intros _ t' p'. unfold TryRetrieve. rewrite decide_False by done. simpl.
      by rewrite lookup_delete_eq.
  - split; [done |]. split; [done |]. split; [done |]. done.
Qed.

Lemma store_retrieve_once_witness :
  ∃ l v2, TryRetrieve (snd (Store NewInMemoryPaymentSecretVault None 0 example_secret 10 true))
    None 10 "pvh_1" "machine-payment-authorization" = Done (Ok l, v2) ∧
    TryRetrieve v2 None 10 "pvh_1" "machine-payment-authorization" = Panic.
Proof.
  destruct (store_retrieve_once NewInMemoryPaymentSecretVault 0 10 example_secret 10 true
    "machine-payment-authorization" vault_wf_new ltac:(lia) ltac:(lia) ltac:(discriminate))
    as (l & v2 & H1 & _ & _ & _ & H2).
  exists l, v2. split; [exact H1 | exact (H2 eq_refl 10 "machine-payment-authorization")].
Defined.

(** Expired secrets are destroyed, not just hidden: a retrieval after the
    expiry fails, removes the handle and wipes the secret in place, and storing
    anything first removes and wipes every entry that is due, so that right
    after a store every listed entry expires strictly later or is the new one. *)
Theorem expiry_destroys_secrets v now :
  vault_wf v →
  (∀ h l e p, h ≠ "" → entries v !! h = Some l → heap v !! l = Some e → ve_ExpiresAtUtc e < now →
     ∃ msg v', TryRetrieve v None now h p = Done (Fail msg, v') ∧
       entries v' !! h = None ∧ wiped v' l) ∧
  (∀ secret ttl once h l,
     let v' := snd (Store v None now secret ttl once) in
     (entries v' !! h = Some l → h ≠ sec_handleId secret →
        ∃ e, heap v' !! l = Some e ∧ now < ve_ExpiresAtUtc e) ∧
     (entries v !! h = Some l → cleanup_due v now l = true → wiped v' l)).
Proof.
  intros Hwf. split.
  - intros h l e p Hh Hl He Hexp. unfold TryRetrieve.
    rewrite decide_False by done. rewrite Hl, He.
    destruct (Z.ltb_spec (ve_ExpiresAtUtc e) now); [| lia].
    eexists _, _. split; [reflexivity |]. simpl. split; [by rewrite lookup_delete_eq |].
    exists (Clear (ve_Secret e)). unfold secret_at. simpl. rewrite lookup_alter_eq, He.
    split; [done |]. intros f. apply Resolve_Clear.
  - intros secret ttl once h l v'. subst v'. cbn [Store snd].
    pose proof (vault_wf_cleanup v now Hwf) as Hwf'.
    set (c := cleanupExpired v now) in *. cbn [entries heap next_loc]. split.
    + intros Hl Hne. rewrite lookup_insert_ne in Hl by done.
      destruct (wf_alloc _ Hwf' _ _ Hl) as [e He].
      pose proof (wf_next _ Hwf' _ _ He) as Hlt.
      exists e. rewrite lookup_insert_ne by (intros Heq; rewrite Heq in Hlt; lia). split; [done |].
      apply entries_cleanup in Hl as [_ Hdue]. subst c. rewrite heap_cleanup in He.
      apply fmap_Some in He as (e0 & He0 & ->). unfold cleanup_due in Hdue. rewrite He0 in Hdue.
      apply negb_false_iff, Z.ltb_lt in Hdue. by case_decide.
    + intros Hl Hdue. destruct (wf_alloc _ Hwf _ _ Hl) as [e He].
      assert (heap c !! l = Some (clear_entry e)) as Hc.
      { subst c. rewrite heap_cleanup, He. simpl. rewrite decide_True; [done |].
        apply elem_of_expired_locs. eauto. }
      pose proof (wf_next _ Hwf' _ _ Hc) as Hlt. change (next_loc c) with (next_loc v) in Hlt.
      exists (Clear (ve_Secret e)). unfold secret_at. cbn [heap].
      rewrite lookup_insert_ne by (change (next_loc c) with (next_loc v); lia). rewrite Hc. split; [done |]. intros f. apply Resolve_Clear.
Qed.

Lemma expiry_destroys_secrets_witness :
  ∃ msg v', TryRetrieve example_vault None (6 * minute_ns) "pvh_1" "" = Done (Fail msg, v') ∧
    entries v' !! "pvh_1" = None ∧ wiped v' 1%positive.
Proof.
  refine (proj1 (expiry_destroys_secrets example_vault (6 * minute_ns) _) "pvh_1" 1%positive
    (mkEntry example_secret (5 * minute_ns) false) "" _ _ _ _).
  - apply vault_wf_Store, vault_wf_new.
  - discriminate.
  - reflexivity.
  - reflexivity.
  - reflexivity.
Defined.
