(* ===== verification/PaymentRuntime.v ===== *)
(** The payment runtime: [openclaw/payments/policy.go], [audit.go] and
    [payment.go].

    A method is a function of the [World]: the secret vault, the audit log, a
    trace of the calls made to the outside (approval service, providers), and
    two counters into the oracles [ctx_err] (what [ctx.Err()] is at the n-th
    check of the caller's context) and [clock] (the n-th reading of
    [time.Now]).  Providers and the approval service are outside code: their
    answers are arbitrary functions of the trace so far and the request. *)

From S2P Require Import Prelude GoStrings PaymentModels PaymentVault.
Local Open Scope string_scope.

(** ** The world *)

Inductive Effect :=
  | EffRequestApproval (request : ApprovalRequest) (answer : res ApprovalResult)
  | EffExecuteMachinePayment (provider : string) (request : MachinePaymentRequest)
      (execContext : PaymentExecutionContext)
  | EffIssueVirtualCard (provider : string) (request : VirtualCardRequest)
      (execContext : PaymentExecutionContext)
  | EffGetPaymentStatus (provider : string) (id : string) (execContext : PaymentExecutionContext)
  | EffGetSetupStatus (provider : string)
  | EffListFundingSources (provider : string) (execContext : PaymentExecutionContext).

Record World := mkWorld {
  w_vault : Vault;
  w_audit : list PaymentAuditEvent;
  w_trace : list Effect;
  w_polls : nat;
  w_reads : nat
}.

(** A method that returns an [A] or panics. *)
Definition M (A : Type) : Type := World → go (A * World).

#[export] Instance M_ret : MRet M := λ A a w, Done (a, w).
#[export] Instance M_bind : MBind M := λ A B f m w,
  match m w with
  | Done (a, w') => f a w'
  | Panic => Panic
  | Deadlock => Deadlock
  end.

(** [x, err := m; if err != nil { return ..., err }] *)
Definition bind_res {A B} (m : M (res A)) (f : A → M (res B)) : M (res B) :=
  r ← m; match r with Ok a => f a | Fail e => mret (Fail e) end.
Notation "x ←? m ; k" := (bind_res m (λ x, k))
  (at level 20, m at level 100, k at level 200, right associativity).

Definition lift {A} (a : res A) : M (res A) := mret a.

Definition modify (f : World → World) : M () := λ w, Done (tt, f w).

Definition emit (e : Effect) : M () :=
  modify (λ w, mkWorld (w_vault w) (w_audit w) (w_trace w ++ [e]) (w_polls w) (w_reads w)).

(** Run a vault method on the world's vault. *)
Definition with_vault {A} (f : Vault → go (A * Vault)) : M A := λ w,
  match f (w_vault w) with
  | Done (a, v) => Done (a, mkWorld v (w_audit w) (w_trace w) (w_polls w) (w_reads w))
  | Panic => Panic
  | Deadlock => Deadlock
  end.

Definition history : M (list Effect) := λ w, Done (w_trace w, w).

(** ** Interfaces *)

(** [IPaymentPolicy] *)
Class IPaymentPolicy := {
  Evaluate : ApprovalRequest → bool → M (res PaymentPolicyDecision)
}.

(** [IPaymentApprovalService] *)
Definition IPaymentApprovalService : Type :=
  list Effect → ApprovalRequest → res ApprovalResult.

(** [IPaymentProvider] *)
Record IPaymentProvider := mkProvider {
  GetProviderId : string;
  provider_GetSetupStatus : list Effect → res PaymentSetupStatus;
  provider_ListFundingSources : list Effect → PaymentExecutionContext → res (list FundingSource);
  provider_IssueVirtualCard : list Effect → VirtualCardRequest → PaymentExecutionContext →
    res VirtualCardIssueResult;
  provider_ExecuteMachinePayment : list Effect → MachinePaymentRequest → PaymentExecutionContext →
    res MachinePaymentProviderResult;
  provider_GetPaymentStatus : list Effect → string → PaymentExecutionContext → res PaymentStatus
}.

Record DefaultPaymentPolicy := mkDefaultPolicy {
  allowTestModeWithoutApproval : bool;
  denyLiveWithoutApprovalService : bool;
  maxLiveAmountMinor : option Z
}.

Definition NewDefaultPaymentPolicy (allowTest denyLive : option bool) (maxLive : option Z)
    : DefaultPaymentPolicy :=
  mkDefaultPolicy (default true allowTest) (default true denyLive) maxLive.

(** ** Requests *)

Definition buildApprovalRequest (action summary providerId merchantName : string)
    (amountMinor : Z) (currency : string) (expiresAtUtc : option Z)
    (ec : PaymentExecutionContext) : ApprovalRequest :=
  {| ar_Action := action; ar_Summary := summary; ar_Severity := "";
     ar_MerchantName := merchantName; ar_AmountMinor := amountMinor; ar_Currency := currency;
     ar_FundingSourceDisplay := ""; ar_ProviderId := providerId; ar_ExpiresAtUtc := expiresAtUtc;
     ar_Environment := pec_Environment ec; ar_AgentId := pec_SenderId ec;
     ar_WorkspaceId := pec_WorkspaceId ec; ar_SessionId := pec_SessionId ec;
     ar_ChannelId := pec_ChannelId ec; ar_SenderId := pec_SenderId ec;
     ar_CliConfirmed := pec_CliConfirmed ec |}.

Definition prepareSecretForVault (secret : PaymentSecret) (handleId providerId environment : string)
    (expiresAtUtc : option Z) : PaymentSecret :=
  let expiresAtUtc := match expiresAtUtc with None => sec_expiresAtUtc secret | e => e end in
  {| sec_handleId := handleId; sec_providerId := providerId; sec_last4 := "";
     sec_expiresAtUtc := expiresAtUtc; sec_environment := environment;
     sec_pan := Resolve secret SecretFieldPan; sec_cvv := Resolve secret SecretFieldCvv;
     sec_expMonth := Resolve secret SecretFieldExpMonth;
     sec_expYear := Resolve secret SecretFieldExpYear;
     sec_postalCode := Resolve secret SecretFieldPostalCode;
     sec_authorizationToken := Resolve secret SecretFieldAuthorizationToken;
     sec_authorizationHeader := Resolve secret SecretFieldAuthorizationHeader |}.

Definition validateMachinePaymentRequest (request : MachinePaymentRequest) : res () :=
  if (mpc_AmountMinor (mpr_Challenge request) <=? 0)%Z
  then Fail "amount_minor must be greater than 0"
  else if decide (mpc_Currency (mpr_Challenge request) = "") then Fail "currency is required"
  else Ok tt.

Definition validateVirtualCardRequest (request : VirtualCardRequest) : res () :=
  if decide (vcr_MerchantName request = "") then Fail "merchant is required"
  else if (vcr_AmountMinor request <=? 0)%Z then Fail "amount_minor must be greater than 0"
  else if decide (vcr_Currency request = "") then Fail "currency is required"
  else Ok tt.

(** An audit event with the fields every call site sets. *)
Definition audit_event (eventType providerId merchantName : string) (amount : Z)
    (currency environment : string) : PaymentAuditEvent :=
  mkAuditEvent eventType providerId "" "" "" merchantName amount currency None None "" "" ""
    environment time_zero.

Definition with_decision (decision reason : string) (e : PaymentAuditEvent) : PaymentAuditEvent :=
  mkAuditEvent (pae_EventType e) (pae_ProviderId e) (pae_HandleId e) (pae_PaymentId e)
    (pae_Last4 e) (pae_MerchantName e) (pae_AmountMinor e) (pae_Currency e) (pae_IssuedAtUtc e)
    (pae_ValidUntilUtc e) (pae_Status e) decision reason (pae_Environment e) (pae_TimestampUtc e).

Definition with_status (status : string) (e : PaymentAuditEvent) : PaymentAuditEvent :=
  mkAuditEvent (pae_EventType e) (pae_ProviderId e) (pae_HandleId e) (pae_PaymentId e)
    (pae_Last4 e) (pae_MerchantName e) (pae_AmountMinor e) (pae_Currency e) (pae_IssuedAtUtc e)
    (pae_ValidUntilUtc e) status (pae_Decision e) (pae_Reason e) (pae_Environment e) (pae_TimestampUtc e).

Definition with_handle (handle : string) (e : PaymentAuditEvent) : PaymentAuditEvent :=
  mkAuditEvent (pae_EventType e) (pae_ProviderId e) handle (pae_PaymentId e)
    (pae_Last4 e) (pae_MerchantName e) (pae_AmountMinor e) (pae_Currency e) (pae_IssuedAtUtc e)
    (pae_ValidUntilUtc e) (pae_Status e) (pae_Decision e) (pae_Reason e) (pae_Environment e) (pae_TimestampUtc e).

Definition with_payment (paymentId : string) (e : PaymentAuditEvent) : PaymentAuditEvent :=
  mkAuditEvent (pae_EventType e) (pae_ProviderId e) (pae_HandleId e) paymentId
    (pae_Last4 e) (pae_MerchantName e) (pae_AmountMinor e) (pae_Currency e) (pae_IssuedAtUtc e)
    (pae_ValidUntilUtc e) (pae_Status e) (pae_Decision e) (pae_Reason e) (pae_Environment e) (pae_TimestampUtc e).

Definition with_card (last4 : string) (issued validUntil : option Z) (e : PaymentAuditEvent) : PaymentAuditEvent :=
  mkAuditEvent (pae_EventType e) (pae_ProviderId e) (pae_HandleId e) (pae_PaymentId e)
    last4 (pae_MerchantName e) (pae_AmountMinor e) (pae_Currency e) issued
    validUntil (pae_Status e) (pae_Decision e) (pae_Reason e) (pae_Environment e) (pae_TimestampUtc e).

(** ** The service *)

Record PaymentRuntimeService := mkRuntime {
  defaultProviderId : string;
  policy : IPaymentPolicy;
  approval : option IPaymentApprovalService;
  providers : gmap string IPaymentProvider;
  secretTtl : Z
}.

(** The loop of [NewPaymentRuntimeService] over the providers. *)
Fixpoint add_providers (vs : list IPaymentProvider) (acc : gmap string IPaymentProvider * string)
    : gmap string IPaymentProvider * string :=
  match vs with
  | [] => acc
  | v :: vs =>
      add_providers vs
        (<[GetProviderId v := v]> (fst acc),
         if decide (snd acc = "") then GetProviderId v else snd acc)
  end.

Definition NewPaymentRuntimeService (vs : list IPaymentProvider) (pol : IPaymentPolicy)
    (appr : option IPaymentApprovalService) (dflt : string) (ttl : Z) : PaymentRuntimeService :=
  let ttl := if (ttl <? 0)%Z then (30 * minute_ns)%Z else ttl in
  let '(providerMap, dflt) := add_providers vs (∅, dflt) in
  let dflt := if decide (dflt = "") then "mock" else dflt in
  mkRuntime dflt pol appr providerMap ttl.

Definition HasApprovalService (p : PaymentRuntimeService) : bool :=
  match approval p with Some _ => true | None => false end.

Definition resolveProvider (p : PaymentRuntimeService) (providerId : string) : res IPaymentProvider :=
  let id := if decide (providerId = "") then defaultProviderId p else providerId in
  match providers p !! id with
  | Some provider => Ok provider
  | None => Fail ("Payment provider '" +:+ id +:+ "' is not registered")
  end.

Definition normalizeContext (ec : PaymentExecutionContext) (environment : string)
    : res PaymentExecutionContext :=
  let environment := if decide (environment = "") then pec_Environment ec else environment in
  match NormalizeEnvironment environment [] with
  | Ok e => Ok (mkExecContext (pec_SessionId ec) (pec_ChannelId ec) (pec_SenderId ec)
                  (pec_CorrelationId ec) (pec_WorkspaceId ec) e (pec_CliConfirmed ec)
                  (pec_AllowTestModeWithoutApproval ec))
  | Fail e => Fail e
  end.

Section Runtime.
Variable ctx_err : nat → option string.
Variable clock : nat → Z.

(** [select { case <-ctx.Done(): ctx.Err() ; default: }] *)
Definition poll : M (option string) := λ w,
Done (ctx_err (w_polls w),
      mkWorld (w_vault w) (w_audit w) (w_trace w) (S (w_polls w)) (w_reads w)).

(** [time.Now()] *)
Definition time_now : M Z := λ w,
Done (clock (w_reads w),
      mkWorld (w_vault w) (w_audit w) (w_trace w) (w_polls w) (S (w_reads w))).

Definition append_audit (e : PaymentAuditEvent) : M () :=
modify (λ w, mkWorld (w_vault w) (w_audit w ++ [e]) (w_trace w) (w_polls w) (w_reads w)).

(** [InMemoryPaymentAuditSink.Record]; every caller drops the error it returns. *)
Definition audit_Record (e : PaymentAuditEvent) : M () :=
c ← poll;
match c with Some _ => mret tt | None => append_audit e end.

(** [vault.Store] and [vault.TryRetrieve] on the world's vault. *)
Definition vault_Store (secret : PaymentSecret) (ttl : Z) (once : bool) : M (res string) :=
c ← poll;
match c with
| Some e => mret (Fail e)
| None =>
    now ← time_now;
    with_vault (λ v, Done (Store v None now secret ttl once))
end.

Definition vault_TryRetrieve (handleId purpose : string) : M (res loc) :=
if decide (handleId = "") then mret (Fail "handleId can not be empty")
else
  c ← poll;
  match c with
  | Some e => mret (Fail e)
  | None =>
      now ← time_now;
      with_vault (λ v, TryRetrieve v None now handleId purpose)
  end.

(** Reading through a secret pointer. *)
Definition deref (l : loc) : M PaymentSecret := λ w,
match secret_at (w_vault w) l with
| Some s => Done (s, w)
| None => Panic
end.

(** [DefaultPaymentPolicy.Evaluate] after its context check. *)
Definition default_evaluate (d : DefaultPaymentPolicy) (request : ApprovalRequest)
  (approvalServiceAvailable : bool) : PaymentPolicyDecision :=
let deny reason := mkDecision DecisionDeny reason "" in
match TryNormalizeEnvironment (ar_Environment request) with
| None => deny ("Unsupported payment environment '" +:+ ar_Environment request +:+ "'.")
| Some environment =>
    let live := bool_decide (environment = PaymentEnvLive) in
    let over := match maxLiveAmountMinor d with
                | Some m => live && (m <? ar_AmountMinor request)%Z
                | None => false
                end in
    if over then
      deny ("Live payment amount " +:+ Itoa (ar_AmountMinor request) +:+
            " exceeds configured limit " +:+ Itoa (default 0%Z (maxLiveAmountMinor d)) +:+ ".")
    else if negb live && allowTestModeWithoutApproval d then
      mkDecision DecisionAllow "Deterministic test-mode payment allowed by policy." ""
    else if live && negb approvalServiceAvailable && denyLiveWithoutApprovalService d then
      deny "Live payment denied because no payment approval service is registered."
    else
      mkDecision DecisionRequireApproval
        "Money-moving payment action requires critical approval." ""
end.

Definition DefaultPaymentPolicy_Evaluate (d : DefaultPaymentPolicy) : IPaymentPolicy :=
{| Evaluate request avail :=
     c ← poll;
     match c with
     | Some e => mret (Fail e)
     | None => mret (Ok (default_evaluate d request avail))
     end |}.

Definition RequestApproval (svc : IPaymentApprovalService) (request : ApprovalRequest)
  : M (res ApprovalResult) :=
h ← history;
_ ← emit (EffRequestApproval request (svc h request));
mret (svc h request).

Definition requireApprovalOrPolicyAllow (p : PaymentRuntimeService) (request : ApprovalRequest)
  : M (res ()) :=
let providerId := if decide (ar_ProviderId request = "") then defaultProviderId p
                  else ar_ProviderId request in
let event t := audit_event t providerId (ar_MerchantName request) (ar_AmountMinor request)
                 (ar_Currency request) (ar_Environment request) in
_ ← audit_Record (event "approval_requested");
decision ←? @Evaluate (policy p) request (HasApprovalService p || ar_CliConfirmed request);
if Denied decision then
  _ ← audit_Record (with_decision (ppd_Decision decision) (ppd_Reason decision)
                      (event "policy_denied"));
  mret (Fail (ppd_Reason decision))
else if Allowed decision then mret (Ok tt)
else
  approval ←? (if ar_CliConfirmed request then
                 lift (Ok (mkApprovalResult true "cli --yes"
                   "Operator confirmed live payment command noninteractively." time_zero))
               else match approval p with
                    | None => lift (Fail "Payment requires approval but no approval service is registered.")
                    | Some svc => RequestApproval svc request
                    end);
  let '(eventType, decisionstr) :=
    if apr_Approved approval then ("approval_granted", "approved")
    else ("approval_denied", "denied") in
  _ ← audit_Record (with_decision decisionstr (apr_Reason approval) (event eventType));
  if apr_Approved approval then mret (Ok tt)
  else mret (Fail (if decide (apr_Reason approval = "") then "Payment approval denied."
                   else apr_Reason approval)).

Definition field_index (f : PaymentSecretField) : Z :=
match f with
| SecretFieldPan => 0 | SecretFieldCvv => 1 | SecretFieldExpMonth => 2
| SecretFieldExpYear => 3 | SecretFieldExpMonthYearShort => 4
| SecretFieldExpMonthYearLong => 5 | SecretFieldPostalCode => 6
| SecretFieldAuthorizationHeader => 7 | SecretFieldAuthorizationToken => 8
end.

Definition set_approval_target (a : ApprovalRequest) (providerId environment : string) : ApprovalRequest :=
mkApprovalRequest (ar_Action a) (ar_Summary a) (ar_Severity a) (ar_MerchantName a)
  (ar_AmountMinor a) (ar_Currency a) (ar_FundingSourceDisplay a) providerId (ar_ExpiresAtUtc a)
  environment (ar_AgentId a) (ar_WorkspaceId a) (ar_SessionId a) (ar_ChannelId a)
  (ar_SenderId a) (ar_CliConfirmed a).

Definition ResolveSecretFieldForApprovedBoundary (p : PaymentRuntimeService) (handleId : string)
  (field : PaymentSecretField) (a : ApprovalRequest) : M (res string) :=
r ← vault_TryRetrieve handleId "sentinel-substitution";
match r with
| Fail _ => mret (Fail "Payment secret is missing, expired, or revoked.")
| Ok secret =>
    s ← deref secret;
    let effProvider := if decide (ar_ProviderId a = "") then sec_providerId s else ar_ProviderId a in
    effEnv ←? lift (if decide (ar_Environment a = "") then Ok (sec_environment s)
                    else NormalizeEnvironment (ar_Environment a) []);
    let eff := set_approval_target a effProvider effEnv in
    let providerId := if decide (effProvider = "") then sec_providerId s else effProvider in
    let event t := with_handle handleId (audit_event t providerId (ar_MerchantName eff)
                     (ar_AmountMinor eff) (ar_Currency eff) (ar_Environment eff)) in
    _ ← audit_Record (event "browser_sentinel_substitution_attempted");
    r ← requireApprovalOrPolicyAllow p eff;
    match r with
    | Fail e =>
        _ ← audit_Record (with_status "denied" (event "browser_sentinel_substitution_denied"));
        mret (Fail e)
    | Ok _ =>
        s ← deref secret;
        let value := Resolve s field in
        if decide (value = "")
        then mret (Fail ("Payment secret field '" +:+ Itoa (field_index field) +:+ "' is not available"))
        else
          _ ← audit_Record (with_status "approved" (event "browser_sentinel_substitution_approved"));
          mret (Ok value)
    end
end.

Definition RetrieveMachineAuthorizationOnce (paymentId : string) : M (res loc) :=
vault_TryRetrieve paymentId "machine-payment-authorization".

Definition set_machine_target (r : MachinePaymentRequest) (providerId environment : string)
  : MachinePaymentRequest :=
mkMachinePaymentRequest providerId (mpr_Challenge r) (mpr_FundingSourceId r) environment
  (mpr_IdempotencyKey r).

Definition call_ExecuteMachinePayment (provider : IPaymentProvider) (r : MachinePaymentRequest)
  (ec : PaymentExecutionContext) : M (res MachinePaymentProviderResult) :=
h ← history;
_ ← emit (EffExecuteMachinePayment (GetProviderId provider) r ec);
mret (provider_ExecuteMachinePayment provider h r ec).

(** What follows the provider's answer: vaulting the scoped secret (a failure
  of which is ignored) and the closing audit event. *)
Definition finish_machine_payment (provider : IPaymentProvider) (environment : string)
  (pr : MachinePaymentProviderResult) : M (res MachinePaymentResult) :=
let result := mppr_Result pr in
_ ← match mppr_ScopedAuthorizationSecret pr with
    | Some sec =>
        now ← time_now;
        let secret := prepareSecretForVault sec (mpres_PaymentId result) (GetProviderId provider)
                        environment (Some (now + 5 * minute_ns)%Z) in
        _ ← vault_Store secret (5 * minute_ns) true;
        mret tt
    | None => mret tt
    end;
let eventType := if decide (mpres_Status result = "completed")
                 then "machine_payment_completed" else "machine_payment_failed" in
_ ← audit_Record (with_status (mpres_Status result) (with_payment (mpres_PaymentId result)
      (audit_event eventType (GetProviderId provider) (mpres_MerchantName result)
        (mpres_AmountMinor result) (mpres_Currency result) environment)));
mret (Ok result).

Definition payment_target (c : MachinePaymentChallenge) : string :=
let t := if decide (mpc_MerchantName c = "") then mpc_ResourceUrl c else mpc_MerchantName c in
if decide (t = "") then "paid resource" else t.

(** The approval request [ExecuteMachinePayment] asks for. *)
Definition machine_approval (provider : IPaymentProvider) (request : MachinePaymentRequest)
  (ec : PaymentExecutionContext) : ApprovalRequest :=
let c := mpr_Challenge request in
buildApprovalRequest ActionExecuteMachinePayment
  ("Execute machine payment for " +:+ payment_target c +:+ " (" +:+ Itoa (mpc_AmountMinor c) +:+
   " " +:+ mpc_Currency c +:+ ") using " +:+ GetProviderId provider +:+ ".")
  (GetProviderId provider) (mpc_MerchantName c) (mpc_AmountMinor c) (mpc_Currency c) None ec.

Definition ExecuteMachinePayment (p : PaymentRuntimeService) (request : MachinePaymentRequest)
  (execContext : PaymentExecutionContext) : M (res MachinePaymentResult) :=
let c := mpr_Challenge request in
let providerId := if decide (mpr_ProviderId request = "") then mpc_ProviderId c
                  else mpr_ProviderId request in
provider ←? lift (resolveProvider p providerId);
ec ←? lift (normalizeContext execContext (mpr_Environment request));
_ ←? lift (validateMachinePaymentRequest request);
_ ←? requireApprovalOrPolicyAllow p (machine_approval provider request ec);
_ ← audit_Record (audit_event "machine_payment_attempted" (GetProviderId provider)
      (mpc_MerchantName c) (mpc_AmountMinor c) (mpc_Currency c) (pec_Environment ec));
let request := set_machine_target request (GetProviderId provider) (pec_Environment ec) in
pr ←? call_ExecuteMachinePayment provider request ec;
finish_machine_payment provider (pec_Environment ec) pr.

Definition resolveSecretTtl (p : PaymentRuntimeService) (validUntilUtc : option Z) : M Z :=
match validUntilUtc with
| None => mret (secretTtl p)
| Some t =>
    now ← time_now;
    let ttl := sat64 (t - now) in
    mret (if (ttl <=? 0)%Z then minute_ns
          else if (ttl <? secretTtl p)%Z then ttl else secretTtl p)
end.

Definition set_card_target (r : VirtualCardRequest) (providerId environment : string) : VirtualCardRequest :=
mkVirtualCardRequest providerId (vcr_FundingSourceId r) (vcr_MerchantName r) (vcr_MerchantUrl r)
  (vcr_AmountMinor r) (vcr_Currency r) (vcr_Purpose r) (vcr_ValidUntilUtc r) (vcr_BuyerProfile r)
  environment.

Definition call_IssueVirtualCard (provider : IPaymentProvider) (r : VirtualCardRequest)
  (ec : PaymentExecutionContext) : M (res VirtualCardIssueResult) :=
h ← history;
_ ← emit (EffIssueVirtualCard (GetProviderId provider) r ec);
mret (provider_IssueVirtualCard provider h r ec).

Definition card_approval (provider : IPaymentProvider) (request : VirtualCardRequest)
  (ec : PaymentExecutionContext) : ApprovalRequest :=
buildApprovalRequest ActionIssueVirtualCard
  ("Issue virtual card for " +:+ vcr_MerchantName request +:+ " (" +:+
   Itoa (vcr_AmountMinor request) +:+ " " +:+ vcr_Currency request +:+ ") using " +:+
   GetProviderId provider +:+ ".")
  (GetProviderId provider) (vcr_MerchantName request) (vcr_AmountMinor request)
  (vcr_Currency request) (vcr_ValidUntilUtc request) ec.

Definition IssueVirtualCard (p : PaymentRuntimeService) (request : VirtualCardRequest)
  (execContext : PaymentExecutionContext) : M (res VirtualCardHandle) :=
provider ←? lift (resolveProvider p (vcr_ProviderId request));
ec ←? lift (normalizeContext execContext (vcr_Environment request));
_ ←? lift (validateVirtualCardRequest request);
_ ←? requireApprovalOrPolicyAllow p (card_approval provider request ec);
let event t := audit_event t (GetProviderId provider) (vcr_MerchantName request)
                 (vcr_AmountMinor request) (vcr_Currency request) (pec_Environment ec) in
let errAudit := append_audit (with_status "failed" (event "virtual_card_failed")) in
let request := set_card_target request (GetProviderId provider) (pec_Environment ec) in
issue ← call_IssueVirtualCard provider request ec;
match issue with
| Fail e => _ ← errAudit; mret (Fail e)
| Ok issue =>
    match vcir_Secret issue with
    | None =>
        _ ← errAudit;
        mret (Fail "Payment provider did not return a vaultable virtual card secret.")
    | Some sec =>
        let handle := vcir_Handle issue in
        let secret := prepareSecretForVault sec (vch_HandleId handle) (GetProviderId provider)
                        (pec_Environment ec) (vch_ValidUntilUtc handle) in
        ttl ← resolveSecretTtl p (vch_ValidUntilUtc handle);
        stored ← vault_Store secret ttl false;
        match stored with
        | Fail e => _ ← errAudit; mret (Fail e)
        | Ok _ =>
            _ ← audit_Record (with_status (vch_Status handle) (with_handle (vch_HandleId handle)
                  (with_card (vch_Last4 handle) (Some (vch_IssuedAtUtc handle)) (vch_ValidUntilUtc handle)
                    (audit_event "virtual_card_issued" (GetProviderId provider)
                      (vch_TargetMerchantName handle) (vcr_AmountMinor request)
                      (vcr_Currency request) (pec_Environment ec)))));
            mret (Ok handle)
        end
    end
end.

Definition GetPaymentStatus (p : PaymentRuntimeService) (paymentIdOrHandleId providerId : string)
  (execContext : PaymentExecutionContext) : M (res PaymentStatus) :=
provider ←? lift (resolveProvider p providerId);
ec ←? lift (normalizeContext execContext "");
h ← history;
_ ← emit (EffGetPaymentStatus (GetProviderId provider) paymentIdOrHandleId ec);
status ←? lift (provider_GetPaymentStatus provider h paymentIdOrHandleId ec);
_ ← audit_Record (with_status (ps_Status status) (with_payment (ps_PaymentId status)
      (audit_event "payment_status_checked" (GetProviderId provider) (ps_MerchantName status)
        (ps_AmountMinor status) (ps_Currency status) (pec_Environment ec))));
mret (Ok status).

Definition GetSetupStatus (p : PaymentRuntimeService) (providerId : string) : M (res PaymentSetupStatus) :=
provider ←? lift (resolveProvider p providerId);
h ← history;
_ ← emit (EffGetSetupStatus (GetProviderId provider));
lift (provider_GetSetupStatus provider h).

Definition ListFundingSources (p : PaymentRuntimeService) (providerId : string)
  (execContext : PaymentExecutionContext) : M (res (list FundingSource)) :=
provider ←? lift (resolveProvider p providerId);
ec ←? lift (normalizeContext execContext "");
h ← history;
_ ← emit (EffListFundingSources (GetProviderId provider) ec);
lift (provider_ListFundingSources provider h ec).
End Runtime.

Local Open Scope list_scope.

(** ** The policy contract

    What the runtime relies on: evaluating a policy terminates without touching
    the vault, the trace or the audit log, and never simply allows a live
    request. *)

(** Only bookkeeping changed: the vault and the trace are the same and the
    audit log grew by [log]. *)
Definition quiet (w w' : World) (log : list PaymentAuditEvent) : Prop :=
  w_vault w' = w_vault w ∧ w_trace w' = w_trace w ∧ w_audit w' = w_audit w ++ log.

Class PaymentPolicyLaws (P : IPaymentPolicy) : Prop := {
  policy_total req avail w : ∃ r w', Evaluate req avail w = Done (r, w') ∧ quiet w w' [];
  policy_live req avail w d w' :
    Evaluate req avail w = Done (Ok d, w') →
    IsLiveEnvironment (ar_Environment req) = true → Allowed d = false
}.

(** The payments among the effects of a run. *)
Definition is_payment (e : Effect) : bool :=
  match e with EffExecuteMachinePayment _ _ _ => true | _ => false end.

(** ** Lemmas *)

Lemma bind_done {A B} (m : M A) (f : A → M B) w a w1 :
  m w = Done (a, w1) → (m ≫= f) w = f a w1.
Proof. intros H. unfold mbind, M_bind. by rewrite H. Qed.

Lemma bind_res_ok {A B} (m : M (res A)) (f : A → M (res B)) w a w1 :
  m w = Done (Ok a, w1) → bind_res m f w = f a w1.
Proof. intros H. unfold bind_res. by rewrite (bind_done _ _ _ _ _ H). Qed.

Lemma bind_res_fail {A B} (m : M (res A)) (f : A → M (res B)) w e w1 :
  m w = Done (Fail e, w1) → bind_res m f w = Done (Fail e, w1).
Proof. intros H. unfold bind_res. by rewrite (bind_done _ _ _ _ _ H). Qed.

Lemma bind_lift_ok {A B} (a : A) (f : A → M (res B)) w : bind_res (lift (Ok a)) f w = f a w.
Proof. done. Qed.

Lemma bind_lift_fail {A B} e (f : A → M (res B)) w :
  bind_res (lift (Fail e)) f w = Done (Fail e, w).
Proof. done. Qed.

Lemma quiet_refl w : quiet w w [].
Proof. repeat split. by rewrite app_nil_r. Qed.

Lemma quiet_trans w1 w2 w3 l1 l2 : quiet w1 w2 l1 → quiet w2 w3 l2 → quiet w1 w3 (l1 ++ l2).
Proof.
  intros (V1 & T1 & A1) (V2 & T2 & A2).
  repeat split; [congruence | congruence |]. by rewrite A2, A1, app_assoc.
Qed.

Lemma with_vault_total {A} (f : Vault → A * Vault) w :
  ∃ a w', with_vault (λ v, Done (f v)) w = Done (a, w') ∧
    w_trace w' = w_trace w ∧ w_audit w' = w_audit w ∧
    a = fst (f (w_vault w)) ∧ w_vault w' = snd (f (w_vault w)).
Proof. unfold with_vault. destruct (f (w_vault w)). eauto 10. Qed.

(** Close the frame conditions of a run that are equations between worlds. *)
Ltac frame_solve := repeat split; try congruence; try done; try (by left).

Section RuntimeProofs.
Variable ctx_err : nat → option string.
Variable clock : nat → Z.

Local Abbreviation record := (audit_Record ctx_err).

Lemma audit_Record_total e w :
∃ w' log, record e w = Done (tt, w') ∧ quiet w w' log ∧
  (log = [e] ∨ log = [] ∧ ctx_err (w_polls w) ≠ None).
Proof.
unfold audit_Record, poll, mbind, M_bind.
destruct (ctx_err (w_polls w)) eqn:Hc; eexists _, _; (split; [reflexivity |]); simpl.
- split; [| right; split; [reflexivity | done]]. repeat split; simpl. by rewrite app_nil_r.
- split; [| by left]. repeat split.
Qed.

Lemma DefaultPaymentPolicy_laws d : PaymentPolicyLaws (DefaultPaymentPolicy_Evaluate ctx_err d).
Proof.
split.
- intros req avail w. simpl. unfold poll, mbind, M_bind.
  destruct (ctx_err (w_polls w)); eexists _, _; (split; [reflexivity |]);
    repeat split; simpl; by rewrite app_nil_r.
- intros req avail w dec w'. simpl. unfold poll, mbind, M_bind.
  destruct (ctx_err (w_polls w)); [intros; discriminate |].
  intros [= <- <-] Hlive. unfold IsLiveEnvironment in Hlive. unfold default_evaluate.
  destruct (TryNormalizeEnvironment (ar_Environment req)); [| done].
  rewrite Hlive. simpl. repeat case_match; done.
Qed.

(** What the approval gate can do to the world, and what its success means. *)
Lemma requireApproval_spec p req w :
PaymentPolicyLaws (policy p) →
∃ r w' asked log,
  requireApprovalOrPolicyAllow ctx_err p req w = Done (r, w') ∧
  w_vault w' = w_vault w ∧ w_trace w' = w_trace w ++ asked ∧ w_audit w' = w_audit w ++ log ∧
  (asked = [] ∨ ∃ ans, asked = [EffRequestApproval req ans]) ∧
  (r = Ok tt → IsLiveEnvironment (ar_Environment req) = true →
     ar_CliConfirmed req = true ∨
     ∃ ar, asked = [EffRequestApproval req (Ok ar)] ∧ apr_Approved ar = true).
Proof.
intros Hlaws. unfold requireApprovalOrPolicyAllow.
match goal with |- context [record ?e] => destruct (audit_Record_total e w) as (w1 & l1 & H1 & (V1 & T1 & A1) & _) end.
rewrite (bind_done _ _ _ _ _ H1).
destruct (policy_total (P:=policy p) req (HasApprovalService p || ar_CliConfirmed req) w1)
  as ([d | e] & w2 & H2 & (V2 & T2 & A2)); rewrite app_nil_r in A2.
2: { rewrite (bind_res_fail _ _ _ _ _ H2). eexists _, _, [], l1.
     rewrite app_nil_r. frame_solve. }
rewrite (bind_res_ok _ _ _ _ _ H2).
destruct (Denied d) eqn:Hd.
{ match goal with |- context [record ?e] => destruct (audit_Record_total e w2) as (w3 & l3 & H3 & (V3 & T3 & A3) & _) end.
  rewrite (bind_done _ _ _ _ _ H3). eexists _, _, [], (l1 ++ l3).
  rewrite app_nil_r, app_assoc. frame_solve. }
destruct (Allowed d) eqn:Ha.
{ eexists _, _, [], l1. rewrite app_nil_r. split; [reflexivity |].
  split; [congruence |]. split; [congruence |]. split; [congruence |]. split; [by left |].
  intros _ Hlive. rewrite (policy_live (P:=policy p) _ _ _ _ _ H2 Hlive) in Ha. done. }
assert (∃ a w3 asked, (if ar_CliConfirmed req
   then lift (Ok (mkApprovalResult true "cli --yes"
          "Operator confirmed live payment command noninteractively." time_zero))
   else match approval p with
        | Some svc => RequestApproval svc req
        | None => lift (Fail "Payment requires approval but no approval service is registered.")
        end) w2 = Done (a, w3) ∧
   w_vault w3 = w_vault w2 ∧ w_trace w3 = w_trace w2 ++ asked ∧ w_audit w3 = w_audit w2 ∧
   (asked = [] ∨ ∃ ans, asked = [EffRequestApproval req ans]) ∧
   (∀ ar, a = Ok ar → ar_CliConfirmed req = true ∨ asked = [EffRequestApproval req (Ok ar)]))
  as (a & w3 & asked & H3 & V3 & T3 & A3 & Hasked & Happr).
{ destruct (ar_CliConfirmed req).
  - eexists _, _, []. rewrite app_nil_r. split; [reflexivity |]. frame_solve.
  - destruct (approval p) as [svc |].
    + eexists _, _, [_]. split; [reflexivity |]. simpl. repeat split; [right; by eexists |].
      intros ar ->. by right.
    + eexists _, _, []. rewrite app_nil_r. split; [reflexivity |]. repeat split; [by left |].
      intros; discriminate. }
destruct a as [ar | e].
2: { rewrite (bind_res_fail _ _ _ _ _ H3). eexists _, _, asked, l1.
     frame_solve. }
rewrite (bind_res_ok _ _ _ _ _ H3).
destruct (apr_Approved ar) eqn:Hap;
  (match goal with |- context [record ?e] => destruct (audit_Record_total e w3) as (w4 & l4 & H4 & (V4 & T4 & A4) & _) end);
  rewrite (bind_done _ _ _ _ _ H4); eexists _, _, asked, (l1 ++ l4); rewrite app_assoc;
  frame_solve.
intros _ _. destruct (Happr ar eq_refl); [by left |]. right. eauto.
Qed.

Lemma finish_machine_payment_spec provider env pr w :
∃ w', finish_machine_payment ctx_err clock provider env pr w = Done (Ok (mppr_Result pr), w') ∧
  w_trace w' = w_trace w.
Proof.
unfold finish_machine_payment.
match goal with |- context [mbind _ (match ?x with _ => _ end)] =>
  assert (∃ w1, (match x with
    | Some sec => now ← time_now clock;
        _ ← vault_Store ctx_err clock (prepareSecretForVault sec (mpres_PaymentId (mppr_Result pr))
          (GetProviderId provider) env (Some (now + 5 * minute_ns)%Z)) (5 * minute_ns) true;
        mret tt
    | None => mret tt end) w = Done (tt, w1) ∧ w_trace w1 = w_trace w) as (w1 & H1 & T1) end.
{ destruct (mppr_ScopedAuthorizationSecret pr); [| by eexists].
  unfold time_now, vault_Store, poll, with_vault, mbind, M_bind. simpl.
  destruct (ctx_err (w_polls w)); simpl; by eexists. }
rewrite (bind_done _ _ _ _ _ H1).
match goal with |- context [record ?e] => destruct (audit_Record_total e w1) as (w4 & l4 & H4 & (V4 & T4 & A4) & _) end.
rewrite (bind_done _ _ _ _ _ H4). eexists. split; [reflexivity |]. congruence.
Qed.

Lemma normalizeContext_env ec env ec' :
normalizeContext ec env = Ok ec' →
(pec_Environment ec' = PaymentEnvTest ∨ pec_Environment ec' = PaymentEnvLive) ∧
pec_CliConfirmed ec' = pec_CliConfirmed ec.
Proof.
unfold normalizeContext.
destruct (NormalizeEnvironment _ []) as [e |] eqn:He; intros; simplify_eq. simpl.
split; [by eapply NormalizeEnvironment_range | done].
Qed.
Lemma vault_TryRetrieve_ok h purpose w l w' :
vault_TryRetrieve ctx_err clock h purpose w = Done (Ok l, w') →
entries (w_vault w) !! h = Some l ∧ heap (w_vault w') = heap (w_vault w) ∧
w_trace w' = w_trace w ∧ w_audit w' = w_audit w.
Proof.
unfold vault_TryRetrieve, poll, time_now, with_vault, TryRetrieve, mbind, M_bind.
destruct (decide (h = "")) as [-> | Hh]; [intros; discriminate |].
destruct (ctx_err (w_polls w)); [intros; discriminate |]. simpl.
repeat case_match; intros; simplify_eq; simpl; auto.
Qed.
Lemma audit_Record_live e w :
(∀ n, ctx_err n = None) → ∃ w', record e w = Done (tt, w') ∧ quiet w w' [e].
Proof.
intros Hlive. destruct (audit_Record_total e w) as (w' & log & H & Hq & [-> | [_ Hc]]); [eauto |].
by rewrite Hlive in Hc.
Qed.

(** The event types the approval gate logs when the context stays live. *)
Definition gate_log (ok : bool) (types : list string) : Prop :=
if ok then types = ["approval_requested"] ∨ types = ["approval_requested"; "approval_granted"]
else types = ["approval_requested"] ∨ types = ["approval_requested"; "policy_denied"] ∨
     types = ["approval_requested"; "approval_denied"].

Lemma requireApproval_log p req w :
(∀ n, ctx_err n = None) → PaymentPolicyLaws (policy p) →
∃ r w' log, requireApprovalOrPolicyAllow ctx_err p req w = Done (r, w') ∧
  w_audit w' = w_audit w ++ log ∧ gate_log (is_ok r) (pae_EventType <$> log) ∧
  filter (λ e, is_payment e = true) (w_trace w') = filter (λ e, is_payment e = true) (w_trace w).
Proof.
intros Hlive Hlaws. unfold requireApprovalOrPolicyAllow.
match goal with |- context [record ?e] => destruct (audit_Record_live e w Hlive) as (w1 & H1 & (V1 & T1 & A1)) end.
rewrite (bind_done _ _ _ _ _ H1).
destruct (policy_total (P:=policy p) req (HasApprovalService p || ar_CliConfirmed req) w1)
  as ([d | e] & w2 & H2 & (V2 & T2 & A2)); rewrite app_nil_r in A2.
2: { rewrite (bind_res_fail _ _ _ _ _ H2). eexists _, _, [_].
     split; [reflexivity |]. split; [by rewrite A2, A1 |]. split; [by left | by rewrite T2, T1]. }
rewrite (bind_res_ok _ _ _ _ _ H2).
destruct (Denied d) eqn:Hd.
{ match goal with |- context [record ?e] => destruct (audit_Record_live e w2 Hlive) as (w3 & H3 & (V3 & T3 & A3)) end.
  rewrite (bind_done _ _ _ _ _ H3). eexists _, _, [_; _].
  split; [reflexivity |]. split; [by rewrite A3, A2, A1, <- app_assoc |].
  split; [by right; left | by rewrite T3, T2, T1]. }
destruct (Allowed d) eqn:Ha.
{ eexists _, _, [_]. split; [reflexivity |]. split; [by rewrite A2, A1 |].
  split; [by left | by rewrite T2, T1]. }
match goal with |- context [bind_res ?m _ w2] =>
  assert (∃ a w3, m w2 = Done (a, w3) ∧ w_audit w3 = w_audit w2 ∧
    filter (λ e, is_payment e = true) (w_trace w3) = filter (λ e, is_payment e = true) (w_trace w2))
    as (a & w3 & H3 & A3 & T3) end.
{ destruct (ar_CliConfirmed req); [by eexists _, _ |].
  destruct (approval p) as [svc |]; [| by eexists _, _].
  eexists _, _. split; [reflexivity |]. split; [done |]. simpl. by rewrite filter_app, app_nil_r. }
destruct a as [ar | e].
2: { rewrite (bind_res_fail _ _ _ _ _ H3). eexists _, _, [_].
     split; [reflexivity |]. split; [by rewrite A3, A2, A1 |]. split; [by left | by rewrite T3, T2, T1]. }
rewrite (bind_res_ok _ _ _ _ _ H3).
destruct (apr_Approved ar) eqn:Hap;
  (match goal with |- context [record ?e] => destruct (audit_Record_live e w3 Hlive) as (w4 & H4 & (V4 & T4 & A4)) end);
  rewrite (bind_done _ _ _ _ _ H4); eexists _, _, [_; _];
  (split; [reflexivity |]); (split; [by rewrite A4, A3, A2, A1, <- app_assoc |]);
  (split; [simpl; auto | by rewrite T4, T3, T2, T1]).
Qed.

Lemma finish_machine_payment_log provider env pr w :
(∀ n, ctx_err n = None) →
∃ w' log, finish_machine_payment ctx_err clock provider env pr w = Done (Ok (mppr_Result pr), w') ∧
  w_trace w' = w_trace w ∧ w_audit w' = w_audit w ++ log ∧
  pae_EventType <$> log =
    [if decide (mpres_Status (mppr_Result pr) = "completed")
     then "machine_payment_completed" else "machine_payment_failed"].
Proof.
intros Hlive. unfold finish_machine_payment.
match goal with |- context [mbind _ (match ?x with _ => _ end)] =>
  assert (∃ w1, (match x with
    | Some sec => now ← time_now clock;
        _ ← vault_Store ctx_err clock (prepareSecretForVault sec (mpres_PaymentId (mppr_Result pr))
          (GetProviderId provider) env (Some (now + 5 * minute_ns)%Z)) (5 * minute_ns) true;
        mret tt
    | None => mret tt end) w = Done (tt, w1) ∧ w_trace w1 = w_trace w ∧ w_audit w1 = w_audit w)
    as (w1 & H1 & T1 & A1) end.
{ destruct (mppr_ScopedAuthorizationSecret pr); [| by eexists].
  unfold time_now, vault_Store, poll, with_vault, mbind, M_bind. simpl.
  destruct (ctx_err (w_polls w)); simpl; by eexists. }
rewrite (bind_done _ _ _ _ _ H1).
match goal with |- context [record ?e] => destruct (audit_Record_live e w1 Hlive) as (w4 & H4 & (V4 & T4 & A4)) end.
rewrite (bind_done _ _ _ _ _ H4). eexists _, [_].
split; [reflexivity |]. split; [congruence |]. split; [by rewrite A4, A1 | done].
Qed.
(** [ExecuteMachinePayment] after its static checks. *)
Definition checked_payment (p : PaymentRuntimeService) (request : MachinePaymentRequest)
    (provider : IPaymentProvider) (ec : PaymentExecutionContext) : M (res MachinePaymentResult) :=
  let c := mpr_Challenge request in
  _ ←? requireApprovalOrPolicyAllow ctx_err p (machine_approval provider request ec);
  _ ← record (audit_event "machine_payment_attempted" (GetProviderId provider)
        (mpc_MerchantName c) (mpc_AmountMinor c) (mpc_Currency c) (pec_Environment ec));
  let request := set_machine_target request (GetProviderId provider) (pec_Environment ec) in
  pr ←? call_ExecuteMachinePayment provider request ec;
  finish_machine_payment ctx_err clock provider (pec_Environment ec) pr.

Definition requested_provider (req : MachinePaymentRequest) : string :=
  if decide (mpr_ProviderId req = "") then mpc_ProviderId (mpr_Challenge req) else mpr_ProviderId req.

(** Either a static check fails and nothing has happened, or all of them hold. *)
Lemma machine_payment_cases p req ec w :
  (∃ e, ExecuteMachinePayment ctx_err clock p req ec w = Done (Fail e, w)) ∨
  ∃ provider ec1,
    resolveProvider p (requested_provider req) = Ok provider ∧
    normalizeContext ec (mpr_Environment req) = Ok ec1 ∧
    (0 < mpc_AmountMinor (mpr_Challenge req))%Z ∧ mpc_Currency (mpr_Challenge req) ≠ "" ∧
    ExecuteMachinePayment ctx_err clock p req ec w = checked_payment p req provider ec1 w.
Proof.
  unfold ExecuteMachinePayment, requested_provider. cbv zeta.
  destruct (resolveProvider p _) as [provider | e]; rewrite ?bind_lift_ok;
    [| left; rewrite bind_lift_fail; eauto].
  destruct (normalizeContext ec _) as [ec1 | e]; rewrite ?bind_lift_ok; [| left; rewrite bind_lift_fail; eauto].
  unfold validateMachinePaymentRequest.
  destruct (Z.leb_spec (mpc_AmountMinor (mpr_Challenge req)) 0); [left; rewrite bind_lift_fail; eauto |].
  destruct (decide (mpc_Currency (mpr_Challenge req) = "")); [left; rewrite bind_lift_fail; eauto |].
  right. exists provider, ec1. rewrite bind_lift_ok. done.
Qed.

(** After the checks: the gate's question, then at most the one payment. *)
Lemma checked_payment_run p req provider ec w :
  PaymentPolicyLaws (policy p) →
  let paid := EffExecuteMachinePayment (GetProviderId provider)
                (set_machine_target req (GetProviderId provider) (pec_Environment ec)) ec in
  ∃ r w' asked sent, checked_payment p req provider ec w = Done (r, w') ∧
    w_trace w' = w_trace w ++ asked ++ sent ∧
    (asked = [] ∨ ∃ ans, asked = [EffRequestApproval (machine_approval provider req ec) ans]) ∧
    (sent = [] ∨ sent = [paid] ∧
       (pec_Environment ec = PaymentEnvLive → pec_CliConfirmed ec = true ∨
          ∃ ar, asked = [EffRequestApproval (machine_approval provider req ec) (Ok ar)] ∧ apr_Approved ar = true)).
Proof.
  intros Hlaws paid. unfold checked_payment. cbv zeta.
  destruct (requireApproval_spec p (machine_approval provider req ec) w Hlaws)
    as ([[] | e] & w1 & asked & log & H1 & V1 & T1 & A1 & Hasked & Hauth).
  2: { rewrite (bind_res_fail _ _ _ _ _ H1). exists (Fail e), w1, asked, [].
       rewrite app_nil_r. split_and!; [done | done | done | by left]. }
  rewrite (bind_res_ok _ _ _ _ _ H1).
  match goal with |- context [record ?e] =>
    destruct (audit_Record_total e w1) as (w2 & l2 & H2 & (V2 & T2 & A2) & _) end.
  rewrite (bind_done _ _ _ _ _ H2).
  assert (∃ r w4, bind_res (call_ExecuteMachinePayment provider
      (set_machine_target req (GetProviderId provider) (pec_Environment ec)) ec)
      (finish_machine_payment ctx_err clock provider (pec_Environment ec)) w2 = Done (r, w4) ∧
      w_trace w4 = w_trace w2 ++ [paid]) as (r & w4 & H4 & T4).
  { assert (∃ a w3, call_ExecuteMachinePayment provider
        (set_machine_target req (GetProviderId provider) (pec_Environment ec)) ec w2 = Done (a, w3) ∧
        w_trace w3 = w_trace w2 ++ [paid]) as ([pr | e] & w3 & H3 & T3) by (eexists _, _; split; reflexivity).
    - destruct (finish_machine_payment_spec provider (pec_Environment ec) pr w3) as (w4 & H4 & T4).
      rewrite (bind_res_ok _ _ _ _ _ H3), H4. eexists _, _. split; [reflexivity | congruence].
    - rewrite (bind_res_fail _ _ _ _ _ H3). by eexists _, _. }
  exists r, w4, asked, [paid]. split_and!; [done | by rewrite T4, T2, T1, app_assoc | done |].
  right. split; [done |]. intros Hlive.
  assert (IsLiveEnvironment (ar_Environment (machine_approval provider req ec)) = true) as Hl
    by (unfold machine_approval; simpl; by rewrite Hlive).
  destruct (Hauth eq_refl Hl) as [Hc | Har]; [by left | by right].
Qed.
End RuntimeProofs.

(** ** Properties *)

(** C1: No payment reaches a provider without its checks.  [ExecuteMachinePayment]
    always returns (it never panics), calls a provider at most once, and calls
    it only with a positive amount, a currency, a normalised environment and
    the resolved registered provider; in the live environment only if the
    operator confirmed on the command line or the approval service has just
    approved exactly this request.  This holds for every policy with
    [PaymentPolicyLaws] and every behaviour of providers and approval
    service. *)
Theorem machine_payment_authorised ctx_err clock p req ec w :
  PaymentPolicyLaws (policy p) →
  ∃ r w' new,
    ExecuteMachinePayment ctx_err clock p req ec w = Done (r, w') ∧
    w_trace w' = w_trace w ++ new ∧
    (length (filter (λ e, is_payment e = true) new) ≤ 1)%nat ∧
    ∀ id rq ec', EffExecuteMachinePayment id rq ec' ∈ new →
      (0 < mpc_AmountMinor (mpr_Challenge req))%Z ∧
      mpc_Currency (mpr_Challenge req) ≠ "" ∧
      mpr_Challenge rq = mpr_Challenge req ∧
      (pec_Environment ec' = PaymentEnvTest ∨ pec_Environment ec' = PaymentEnvLive) ∧
      ∃ provider,
        resolveProvider p (requested_provider req) = Ok provider ∧
        id = GetProviderId provider ∧
        (pec_Environment ec' = PaymentEnvLive →
           pec_CliConfirmed ec = true ∨
           ∃ ar, new = [EffRequestApproval (machine_approval provider req ec') (Ok ar);
                        EffExecuteMachinePayment id rq ec'] ∧ apr_Approved ar = true).
Proof.
  intros Hlaws. destruct (machine_payment_cases ctx_err clock p req ec w)
    as [[e ->] | (provider & ec1 & Hprov & Hec & Hamount & Hcur & ->)].
  { exists (Fail e), w, []. rewrite app_nil_r. split_and!; [done | done | simpl; lia | set_solver]. }
  apply normalizeContext_env in Hec as [Henv Hcli].
  destruct (checked_payment_run ctx_err clock p req provider ec1 w Hlaws)
    as (r & w' & asked & sent & Hrun & Htrace & Hasked & Hsent).
  exists r, w', (asked ++ sent). split_and!; [done | done | |].
  - destruct Hasked as [-> | [ans ->]], Hsent as [-> | [-> _]]; simpl; lia.
  - intros id rq ec' Hin.
    destruct Hsent as [-> | [-> Hauth]].
    { destruct Hasked as [-> | [ans ->]]; set_solver. }
    assert (id = GetProviderId provider ∧ rq = set_machine_target req (GetProviderId provider) (pec_Environment ec1) ∧
      ec' = ec1) as (-> & -> & ->) by (destruct Hasked as [-> | [ans ->]]; set_solver).
    split_and!; [done | done | done | done |]. exists provider. split_and!; [done | done |].
    intros Hlive. destruct (Hauth Hlive) as [Hc | (ar & -> & Har)]; [left; congruence | right; by exists ar].
Qed.

(** A provider that completes every payment, an approval service that approves
    everything, and a runtime with the default policy. *)
Definition mock_result (r : MachinePaymentRequest) : MachinePaymentResult :=
  mkMachinePaymentResult "mp_1" "mock" "completed" (mpc_MerchantName (mpr_Challenge r))
    (mpc_AmountMinor (mpr_Challenge r)) (mpc_Currency (mpr_Challenge r)) 0 "ref" ∅.

Definition mock_secret : PaymentSecret :=
  mkSecret "mp_1" "mock" "" None "live" "" "" "" "" "" "tok" "Payment tok".

Definition mock_provider : IPaymentProvider := {|
  GetProviderId := "mock";
  provider_GetSetupStatus _ := Fail "n/a";
  provider_ListFundingSources _ _ := Ok [];
  provider_IssueVirtualCard _ r _ :=
    Ok (mkIssueResult (mkVirtualCardHandle "pvh_1" "mock" "4242" (vcr_MerchantName r) 0 None "sp" "issued" "live")
          (Some example_secret));
  provider_ExecuteMachinePayment _ r _ := Ok (mkProviderResult (mock_result r) (Some mock_secret));
  provider_GetPaymentStatus _ _ _ := Fail "n/a" |}.

Definition approve_all : IPaymentApprovalService := λ _ _, Ok (mkApprovalResult true "test" "fine" 0).

Definition never_cancelled : nat → option string := λ _, None.
Definition steady_clock : nat → Z := λ n, Z.of_nat n.

Definition mock_runtime : PaymentRuntimeService :=
  NewPaymentRuntimeService [mock_provider]
    (DefaultPaymentPolicy_Evaluate never_cancelled (NewDefaultPaymentPolicy None None (Some 1000%Z)))
    (Some approve_all) "" (-1).

Definition mock_request : MachinePaymentRequest :=
  mkMachinePaymentRequest "" (mkChallenge "c" "x402" "https://r" "shop" 250 "USD" "" ∅) "" " Live " "".

Definition mock_context : PaymentExecutionContext :=
  mkExecContext "s" "ch" "u" "" "" "" false false.

Definition world0 : World := mkWorld NewInMemoryPaymentSecretVault [] [] 0 0.

Lemma machine_payment_authorised_witness :
  ∃ w', ExecuteMachinePayment never_cancelled steady_clock mock_runtime mock_request mock_context world0 =
    Done (Ok (mock_result mock_request), w') ∧ length (w_trace w') = 2%nat.
Proof.
  destruct (machine_payment_authorised never_cancelled steady_clock mock_runtime mock_request
    mock_context world0 (DefaultPaymentPolicy_laws _ _)) as (r & w' & new & Hrun & _).
  exists w'. vm_compute in Hrun. injection Hrun as <- <-. split; vm_compute; reflexivity.
Defined.

(** A payment request that names no registered provider, an unknown
    environment, a non-positive amount or no currency is refused with an error
    before anything happens: no audit event, no approval request, no provider
    call, no check of the context, no change of the vault. *)
Theorem rejected_payment_has_no_effect ctx_err clock p req ec w :
  is_ok (resolveProvider p (requested_provider req)) = false ∨
  TryNormalizeEnvironment (if decide (mpr_Environment req = "") then pec_Environment ec
     else mpr_Environment req) = None ∨
  (mpc_AmountMinor (mpr_Challenge req) ≤ 0)%Z ∨
  mpc_Currency (mpr_Challenge req) = "" →
  ∃ e, ExecuteMachinePayment ctx_err clock p req ec w = Done (Fail e, w).
Proof.
  intros Hbad. destruct (machine_payment_cases ctx_err clock p req ec w)
    as [? | (provider & ec1 & Hprov & Hec & Hamount & Hcur & _)]; [done |]. exfalso.
  unfold normalizeContext in Hec. rewrite NormalizeEnvironment_Try in Hec.
  destruct Hbad as [Hb | [Hb | [Hb | Hb]]]; [by rewrite Hprov in Hb | by rewrite Hb in Hec | lia | done].
Qed.

Lemma rejected_payment_has_no_effect_witness :
  ∃ e, ExecuteMachinePayment never_cancelled steady_clock mock_runtime
    (set_machine_target mock_request "stripe" "live") mock_context world0 = Done (Fail e, world0).
Proof.
  apply (rejected_payment_has_no_effect never_cancelled steady_clock mock_runtime
    (set_machine_target mock_request "stripe" "live") mock_context world0).
  left. vm_compute. reflexivity.
Defined.

(** The default policy decides by this table: an unknown environment is
    denied; a live amount above the configured limit is denied; test payments
    are allowed when the policy says so; a live payment with nobody to approve
    it is denied when the policy says so; everything else needs approval.
    Exactly one of denied, allowed and approval-required holds. *)
Theorem default_policy_decisions d req avail :
  let dec := default_evaluate d req avail in
  (Denied dec = true ↔
     TryNormalizeEnvironment (ar_Environment req) = None ∨
     IsLiveEnvironment (ar_Environment req) = true ∧
       ((∃ m, maxLiveAmountMinor d = Some m ∧ (m < ar_AmountMinor req)%Z) ∨
        (avail = false ∧ denyLiveWithoutApprovalService d = true))) ∧
  (Allowed dec = true ↔
     TryNormalizeEnvironment (ar_Environment req) = Some PaymentEnvTest ∧
     allowTestModeWithoutApproval d = true) ∧
  ((Denied dec = true ∧ Allowed dec = false ∧ RequiresApproval dec = false) ∨
   (Denied dec = false ∧ Allowed dec = true ∧ RequiresApproval dec = false) ∨
   (Denied dec = false ∧ Allowed dec = false ∧ RequiresApproval dec = true)).
Proof.
  unfold default_evaluate, IsLiveEnvironment. cbv zeta.
  destruct (TryNormalizeEnvironment (ar_Environment req)) as [env |] eqn:Henv.
  2: { split; [| split]; [| | by left]; split; naive_solver. }
  apply TryNormalizeEnvironment_range in Henv as [-> | ->]; simpl;
    destruct d as [[] [] [m |]], avail; simpl;
    try (destruct (Z.ltb_spec m (ar_AmountMinor req)); simpl);
    (split; [| split]; [| | naive_solver]); split; try naive_solver lia.
Qed.


(** C7: A secret field is released to a boundary only with authority: when
    [ResolveSecretFieldForApprovedBoundary] returns a value, it is the
    non-empty requested field of the secret the handle named in the vault, and
    if the effective environment (the caller's if it gives one, else the
    secret's) is live then the operator confirmed on the command line or the
    approval service has just approved a request with that environment, the
    amount and the merchant asked for. *)
Theorem secret_field_release ctx_err clock p h field a w value w' :
  PaymentPolicyLaws (policy p) →
  ResolveSecretFieldForApprovedBoundary ctx_err clock p h field a w = Done (Ok value, w') →
  ∃ l s env new,
    entries (w_vault w) !! h = Some l ∧ secret_at (w_vault w) l = Some s ∧
    value = Resolve s field ∧ value ≠ "" ∧
    (if decide (ar_Environment a = "") then env = sec_environment s
     else TryNormalizeEnvironment (ar_Environment a) = Some env) ∧
    w_trace w' = w_trace w ++ new ∧
    (IsLiveEnvironment env = true →
       ar_CliConfirmed a = true ∨
       ∃ req ar, new = [EffRequestApproval req (Ok ar)] ∧ apr_Approved ar = true ∧
         ar_Environment req = env ∧ ar_AmountMinor req = ar_AmountMinor a ∧
         ar_MerchantName req = ar_MerchantName a).
Proof.
  intros Hlaws. unfold ResolveSecretFieldForApprovedBoundary.
  destruct (vault_TryRetrieve ctx_err clock h "sentinel-substitution" w) as [[[l | e] w1] | |] eqn:Hget;
    [| unfold mbind, M_bind; rewrite Hget; intros; discriminate..].
  rewrite (bind_done _ _ _ _ _ Hget).
  destruct (vault_TryRetrieve_ok _ _ _ _ _ _ _ Hget) as (Hl & Hheap & T1 & A1).
  assert (∀ w2, w_vault w2 = w_vault w1 → secret_at (w_vault w2) l = secret_at (w_vault w) l) as Hsame.
  { intros w2 V2. unfold secret_at. by rewrite V2, Hheap. }
  destruct (secret_at (w_vault w) l) as [s |] eqn:Hs.
  2: { unfold mbind at 1, M_bind at 1, deref at 1. rewrite Hsame by done. intros; discriminate. }
  assert (∀ w2, w_vault w2 = w_vault w1 → deref l w2 = Done (s, w2)) as Hderef.
  { intros w2 V2. unfold deref. by rewrite Hsame. }
  rewrite (bind_done _ _ _ _ _ (Hderef w1 eq_refl)).
  assert (∃ r, (if decide (ar_Environment a = "") then Ok (sec_environment s)
     else NormalizeEnvironment (ar_Environment a) []) = r ∧
     ∀ env, r = Ok env → if decide (ar_Environment a = "") then env = sec_environment s
     else TryNormalizeEnvironment (ar_Environment a) = Some env) as (r & Hr & Henv).
  { eexists. split; [reflexivity |]. intros env. case_decide; [congruence |].
    rewrite NormalizeEnvironment_Try. simpl. destruct (TryNormalizeEnvironment _); congruence. }
  rewrite Hr. destruct r as [env |]; [rewrite bind_lift_ok | rewrite bind_lift_fail; intros; discriminate].
  specialize (Henv env eq_refl). cbv zeta.
  match goal with |- mbind _ (audit_Record _ ?e) _ = _ → _ =>
    destruct (audit_Record_total ctx_err e w1) as (w2 & l2 & H2 & (V2 & T2 & A2) & _) end.
  rewrite (bind_done _ _ _ _ _ H2).
  match goal with |- mbind _ (requireApprovalOrPolicyAllow _ _ ?q) _ = _ → _ =>
    destruct (requireApproval_spec ctx_err p q w2 Hlaws)
      as ([[] | e] & w3 & asked & log & H3 & V3 & T3 & A3 & Hasked & Hauth); set (req := q) in * end;
    rewrite (bind_done _ _ _ _ _ H3).
  2: { match goal with |- mbind _ (audit_Record _ ?e) _ = _ → _ =>
         destruct (audit_Record_total ctx_err e w3) as (w4 & l4 & H4 & _) end.
       rewrite (bind_done _ _ _ _ _ H4). intros; discriminate. }
  rewrite (bind_done _ _ _ _ _ (Hderef w3 ltac:(congruence))).
  destruct (decide (Resolve s field = "")) as [| Hv]; [intros; discriminate |].
  match goal with |- mbind _ (audit_Record _ ?e) _ = _ → _ =>
    destruct (audit_Record_total ctx_err e w3) as (w4 & l4 & H4 & (V4 & T4 & A4) & _) end.
  rewrite (bind_done _ _ _ _ _ H4). intros [= <- <-].
  exists l, s, env, asked. split; [done |]. split; [done |]. split; [done |]. split; [done |].
  split; [done |]. split; [congruence |]. intros Hlive.
  destruct (Hauth eq_refl Hlive) as [Hc | (ar & -> & Har)]; [by left | right].
  exists req, ar. done.
Qed.

(** The secret stored under ["h1"] and the approval asked for its release. *)
Definition world_with_secret : World :=
  mkWorld (snd (Store NewInMemoryPaymentSecretVault None 0
    (mkSecret "h1" "mock" "" None "live" "4111" "123" "1" "2030" "" "" "") minute_ns false)) [] [] 0 0.

Definition release_request : ApprovalRequest :=
  mkApprovalRequest "fill" "" "" "shop" 10 "USD" "" "" None "" "" "" "" "" "" false.

Lemma secret_field_release_witness :
  ∃ value w', ResolveSecretFieldForApprovedBoundary never_cancelled steady_clock mock_runtime "h1"
    SecretFieldCvv release_request world_with_secret = Done (Ok value, w') ∧ value ≠ "".
Proof.
  destruct (ResolveSecretFieldForApprovedBoundary never_cancelled steady_clock mock_runtime "h1"
    SecretFieldCvv release_request world_with_secret) as [[[value | e] w'] | |] eqn:Hrun;
    [| vm_compute in Hrun; discriminate Hrun..].
  exists value, w'. split; [reflexivity |].
  destruct (secret_field_release never_cancelled steady_clock mock_runtime "h1" SecretFieldCvv
    release_request world_with_secret value w' (DefaultPaymentPolicy_laws _ _) Hrun)
    as (_ & _ & _ & _ & _ & _ & _ & Hv & _).
  exact Hv.
Defined.

(** The events of a payment that got past its static checks: the gate's, then,
    only if the gate let it pass, the attempt and, only if the provider
    answered, how it ended. *)
Inductive payment_trail : option (res MachinePaymentResult) → list string → Prop :=
  | trail_refused gate : gate_log false gate → payment_trail None gate
  | trail_provider_error e gate : gate_log true gate →
      payment_trail (Some (Fail e)) (gate ++ ["machine_payment_attempted"])
  | trail_answered r gate : gate_log true gate →
      payment_trail (Some (Ok r)) (gate ++ ["machine_payment_attempted";
        if decide (mpres_Status r = "completed")
        then "machine_payment_completed" else "machine_payment_failed"]).

(** While the context is not cancelled the audit log tells the whole
    story of [ExecuteMachinePayment]: either the request was refused statically
    and nothing is logged; or the log grew by [approval_requested] and the
    refusal, and no payment was sent; or by the approval,
    [machine_payment_attempted] and, if the provider answered,
    [machine_payment_completed] or [machine_payment_failed] as its status says,
    and exactly one payment was sent, whose answer is the result. *)
Theorem uncancelled_audit_trail ctx_err clock p req ec w :
  (∀ n, ctx_err n = None) → PaymentPolicyLaws (policy p) →
  ∃ r w' log, ExecuteMachinePayment ctx_err clock p req ec w = Done (r, w') ∧
    w_audit w' = w_audit w ++ log ∧
    let types := pae_EventType <$> log in
    let sent w := length (filter (λ e, is_payment e = true) (w_trace w)) in
    (is_ok r = false ∧ types = [] ∧ sent w' = sent w ∨
     is_ok r = false ∧ payment_trail None types ∧ sent w' = sent w ∨
     payment_trail (Some r) types ∧ sent w' = S (sent w)).
Proof.
  intros Hlive Hlaws. destruct (machine_payment_cases ctx_err clock p req ec w)
    as [[e ->] | (provider & ec1 & _ & _ & _ & _ & ->)].
  { exists (Fail e), w, []. rewrite app_nil_r. split; [done |]. split; [done |]. by left. }
  unfold checked_payment. cbv zeta.
  destruct (requireApproval_log ctx_err p (machine_approval provider req ec1) w Hlive Hlaws)
    as ([[] | e] & w1 & gate & H1 & A1 & Hgate & T1).
  2: { rewrite (bind_res_fail _ _ _ _ _ H1). eexists _, _, gate. split; [reflexivity |].
       split; [done |]. right; left. split; [done |]. split; [by constructor | by rewrite T1]. }
  rewrite (bind_res_ok _ _ _ _ _ H1).
  match goal with |- context [audit_Record _ ?e] =>
    destruct (audit_Record_live ctx_err e w1 Hlive) as (w2 & H2 & (V2 & T2 & A2)) end.
  rewrite (bind_done _ _ _ _ _ H2).
  set (rq1 := set_machine_target req (GetProviderId provider) (pec_Environment ec1)).
  assert (∃ a w3, call_ExecuteMachinePayment provider rq1 ec1 w2 = Done (a, w3) ∧
    w_audit w3 = w_audit w2 ∧
    w_trace w3 = w_trace w2 ++ [EffExecuteMachinePayment (GetProviderId provider) rq1 ec1])
    as (a & w3 & H3 & A3 & T3) by (eexists _, _; repeat split; reflexivity).
  assert (length (filter (λ e, is_payment e = true) (w_trace w3)) =
    S (length (filter (λ e, is_payment e = true) (w_trace w)))) as Hsent.
  { rewrite T3, filter_app, length_app, T2, T1. simpl. lia. }
  destruct a as [pr | e].
  - rewrite (bind_res_ok _ _ _ _ _ H3).
    destruct (finish_machine_payment_log ctx_err clock provider (pec_Environment ec1) pr w3 Hlive)
      as (w4 & fin & H4 & T4 & A4 & Hfin).
    eexists _, _, (gate ++ [_] ++ fin). split; [exact H4 |].
    split; [by rewrite A4, A3, A2, A1, <- !app_assoc |].
    right; right. rewrite T4. split; [| done].
    rewrite !fmap_app, Hfin. by apply trail_answered.
  - rewrite (bind_res_fail _ _ _ _ _ H3). eexists _, _, (gate ++ [_]).
    split; [reflexivity |]. split; [by rewrite A3, A2, A1, <- app_assoc |].
    right; right. split; [| done]. rewrite fmap_app. by apply trail_provider_error.
Qed.

Lemma uncancelled_audit_trail_witness :
  ∃ w', ExecuteMachinePayment never_cancelled steady_clock mock_runtime mock_request mock_context world0 =
    Done (Ok (mock_result mock_request), w') ∧
    payment_trail (Some (Ok (mock_result mock_request))) (pae_EventType <$> w_audit w').
Proof.
  destruct (uncancelled_audit_trail never_cancelled steady_clock mock_runtime mock_request mock_context
    world0 (λ n, eq_refl) (DefaultPaymentPolicy_laws _ _)) as (r & w' & log & Hrun & Hlog & Htrail).
  exists w'. simpl in Hlog. subst log.
  vm_compute in Hrun. injection Hrun as <- <-. split; [vm_compute; reflexivity |].
  destruct Htrail as [(H & _) | [(H & _) | [H _]]]; [discriminate H.. | exact H].
Defined.
