(* ===== verification/Goal.v ===== *)
(** Session goals: [openclaw/core/goal_models.go] and the in-memory service of
    [openclaw/core/goal.go].

    A service method is a [GoM] action on the service: the goals by session and
    the history records it appended to its file.  Each goal carries its mutex
    [sg_mu]; locking a goal that is already locked by the same call never
    returns ([Deadlock]).  [now] is the reading of [time.Now] of the call.
    SHA-256 and the append to the history file are outside code: the variables
    [sha256_hex] and [append_error]. *)

From S2P Require Import Prelude GoStrings.
Local Open Scope string_scope.
Local Open Scope Z_scope.

(** ** Data *)

(** [GoalStatus] is a [uint8]; values without a constant are [GoalStatus_other]. *)
Inductive GoalStatus :=
  | GoalStatus_Active | GoalStatus_Paused | GoalStatus_Blocked
  | GoalStatus_BudgetLimited | GoalStatus_UsageLimited | GoalStatus_Complete
  | GoalStatus_other (n : N).

#[export] Instance GoalStatus_eq_dec : EqDecision GoalStatus.
Proof. solve_decision. Defined.

Definition IsPursuable (g : GoalStatus) : bool := bool_decide (g = GoalStatus_Active).
Definition IsTerminal (g : GoalStatus) : bool := bool_decide (g = GoalStatus_Complete).

Definition ToDisplayName (g : GoalStatus) : string :=
  match g with
  | GoalStatus_Active => "Activ"
  | GoalStatus_Paused => "Paused"
  | GoalStatus_Blocked => "Blocked"
  | GoalStatus_BudgetLimited => "BudgetLimited"
  | GoalStatus_UsageLimited => "UsageLimited"
  | GoalStatus_Complete => "Complete"
  | GoalStatus_other _ => "Unknown"
  end.

Record SessionGoal := mkGoal {
  sg_SessionId : string; sg_Objective : string; sg_Status : GoalStatus;
  sg_CreatedAt : Z; sg_UpdatedAt : Z; sg_TokenBudget : Z; sg_TokensUsed : Z;
  sg_ContinuationCount : Z; sg_RecentTurnHashes : list string;
  sg_ConsecutiveBlockerCount : Z; sg_LastBlockerHash : string;
  sg_StatusNote : string; sg_TokensAtStart : Z; sg_mu : bool
}.

(** The times are kept as instants, not as their RFC 3339 text. *)
Record GoalHistoryRecord := mkHistory {
  gh_Timestamp : Z; gh_SessionId : string; gh_Objective : string; gh_Status : string;
  gh_TokenBudget : Z; gh_TokensUsed : Z; gh_ContinuationCount : Z; gh_CreatedAt : Z
}.

(** Field updates. *)
Definition set_mu (b : bool) (g : SessionGoal) : SessionGoal :=
  mkGoal (sg_SessionId g) (sg_Objective g) (sg_Status g) (sg_CreatedAt g) (sg_UpdatedAt g)
    (sg_TokenBudget g) (sg_TokensUsed g) (sg_ContinuationCount g) (sg_RecentTurnHashes g)
    (sg_ConsecutiveBlockerCount g) (sg_LastBlockerHash g) (sg_StatusNote g) (sg_TokensAtStart g) b.
Definition set_status (now : Z) (st : GoalStatus) (note : string) (g : SessionGoal) : SessionGoal :=
  mkGoal (sg_SessionId g) (sg_Objective g) st (sg_CreatedAt g) now
    (sg_TokenBudget g) (sg_TokensUsed g) (sg_ContinuationCount g) (sg_RecentTurnHashes g)
    (sg_ConsecutiveBlockerCount g) (sg_LastBlockerHash g) note (sg_TokensAtStart g) (sg_mu g).
Definition set_usage (now used : Z) (g : SessionGoal) : SessionGoal :=
  mkGoal (sg_SessionId g) (sg_Objective g) (sg_Status g) (sg_CreatedAt g) now
    (sg_TokenBudget g) used (sg_ContinuationCount g) (sg_RecentTurnHashes g)
    (sg_ConsecutiveBlockerCount g) (sg_LastBlockerHash g) (sg_StatusNote g) (sg_TokensAtStart g) (sg_mu g).
Definition set_continuation (updated count : Z) (g : SessionGoal) : SessionGoal :=
  mkGoal (sg_SessionId g) (sg_Objective g) (sg_Status g) (sg_CreatedAt g) updated
    (sg_TokenBudget g) (sg_TokensUsed g) count (sg_RecentTurnHashes g)
    (sg_ConsecutiveBlockerCount g) (sg_LastBlockerHash g) (sg_StatusNote g) (sg_TokensAtStart g) (sg_mu g).
Definition set_blocker (hash : string) (count : Z) (g : SessionGoal) : SessionGoal :=
  mkGoal (sg_SessionId g) (sg_Objective g) (sg_Status g) (sg_CreatedAt g) (sg_UpdatedAt g)
    (sg_TokenBudget g) (sg_TokensUsed g) (sg_ContinuationCount g) (sg_RecentTurnHashes g)
    count hash (sg_StatusNote g) (sg_TokensAtStart g) (sg_mu g).

Definition IsBudgetExceeded (s : SessionGoal) : bool :=
  (0 <? sg_TokenBudget s) && (sg_TokensUsed s <=? sg_TokenBudget s).

Definition RemainingBudget (s : SessionGoal) : Z :=
  if 0 <? sg_TokenBudget s then Z.max 0 (wrap64 (sg_TokenBudget s - sg_TokensUsed s))
  else max_int64.

Definition FormatGoalFooterLine (s : option SessionGoal) : string :=
  match s with
  | None => ""
  | Some s =>
      match sg_Status s with
      | GoalStatus_Active =>
          if 0 <? sg_TokenBudget s
          then "Pursuing goal (" +:+ Itoa (sg_TokensUsed s) +:+ "/" +:+ Itoa (sg_TokenBudget s) +:+ ")"
          else "Pursuing goal: " +:+ Truncate (sg_Objective s) 40
      | GoalStatus_Paused => "Goal paused (/goal resume)"
      | GoalStatus_Blocked => "Goal blocked (/goal resume)"
      | GoalStatus_BudgetLimited =>
          "Goal unmet (" +:+ Itoa (sg_TokensUsed s) +:+ "/" +:+ Itoa (sg_TokenBudget s) +:+ ")"
      | GoalStatus_UsageLimited => "Goal hit usage limits (/goal resume)"
      | GoalStatus_Complete => "Goal achieved (" +:+ Itoa (sg_TokensUsed s) +:+ ")"
      | GoalStatus_other _ => ""
      end
  end.

(** [count] copies of a character; [for range count] runs [max 0 count] times. *)
Definition repeat_char (c : ascii) (count : Z) : bytes := replicate (Z.to_nat count) c.

Definition progress_bar (filled : Z) : bytes :=
  [byte 91] ++ repeat_char (byte 61) filled ++
  (if filled <? 20 then [byte 62] ++ repeat_char (byte 32) (20 - (filled + 1)) else []) ++
  [byte 93].

(** A zero budget divides by zero. *)
Definition FormatGoalProgressBar (s : option SessionGoal) : go string :=
  match s with
  | None => Done ""
  | Some s =>
      let budget := sg_TokenBudget s in
      if budget <? 0 then Done ""
      else
        let used := if sg_TokensUsed s <? 0 then 0
                    else if budget <? sg_TokensUsed s then budget else sg_TokensUsed s in
        if budget =? 0 then Panic
        else
          let filled := Z.quot (wrap64 (used * 20)) budget in
          let pctInt := Z.quot (wrap64 (used * 100)) budget in
          Done (of_bytes (progress_bar filled) +:+ " " +:+ Itoa pctInt +:+ "% (" +:+
                Itoa (sg_TokensUsed s) +:+ "/" +:+ Itoa budget +:+ ")")
  end.

(** ** The service *)

Record GoalService := mkService {
  gs_historyFilePath : string;
  gs_goals : gmap string SessionGoal;
  gs_history : list GoalHistoryRecord
}.

Definition NewInMemoryGoalService (historyFilePath : string) : GoalService :=
  mkService historyFilePath ∅ [].

Abbreviation M := (GoM GoalService).

Definition upd_goals (f : gmap string SessionGoal → gmap string SessionGoal) : M () :=
  modifies (λ s, mkService (gs_historyFilePath s) (f (gs_goals s)) (gs_history s)).

(** A write through the pointer stored under [sid]. *)
Definition upd_goal (sid : string) (f : SessionGoal → SessionGoal) : M () := upd_goals (alter f sid).

(** [goal.mu.Lock(); defer goal.mu.Unlock(); body] for the goal stored under
    [sid]. *)
Definition with_lock {A} (sid : string) (body : SessionGoal → M A) (absent : M A) : M A := λ s,
  match gs_goals s !! sid with
  | None => absent s
  | Some g =>
      if sg_mu g then Deadlock
      else (_ ← upd_goal sid (set_mu true);
            a ← body (set_mu true g);
            _ ← upd_goal sid (set_mu false);
            mret a : M A) s
  end.

Definition isValidTransition (current next : GoalStatus) : bool :=
  if decide (current = next) then true
  else match current, next with
       | GoalStatus_Active, GoalStatus_Paused
       | GoalStatus_Active, GoalStatus_Blocked
       | GoalStatus_Active, GoalStatus_BudgetLimited
       | GoalStatus_Active, GoalStatus_UsageLimited
       | GoalStatus_Active, GoalStatus_Complete
       | GoalStatus_Paused, GoalStatus_Active
       | GoalStatus_Blocked, GoalStatus_Active
       | GoalStatus_BudgetLimited, GoalStatus_Active
       | GoalStatus_UsageLimited, GoalStatus_Active => true
       | _, _ => false
       end.

Section Service.
Variable sha256_hex : string → string.
Variable append_error : list GoalHistoryRecord → GoalHistoryRecord → option string.

(** [util.ComputeTurnHash] *)
Definition ComputeTurnHash (normalizedText : string) : string :=
  if decide (normalizedText = "") then "" else sha256_hex normalizedText.

Definition RecordGoalHistory (now : Z) (g : SessionGoal) : M (res ()) := λ s,
  if IsBlank (gs_historyFilePath s) then Done (Ok tt, s)
  else
    let record := mkHistory now (sg_SessionId g) (sg_Objective g) (ToDisplayName (sg_Status g))
                    (sg_TokenBudget g) (sg_TokensUsed g) (sg_ContinuationCount g) (sg_CreatedAt g) in
    match append_error (gs_history s) record with
    | Some e => Done (Fail e, s)
    | None => Done (Ok tt, mkService (gs_historyFilePath s) (gs_goals s) (gs_history s ++ [record])%list)
    end.

(** [LoadAndDelete], then the history record of an unfinished goal. *)
Definition ClearGoal (now : Z) (sid : string) : M (res ()) := λ s,
  match gs_goals s !! sid with
  | None => Done (Ok tt, s)
  | Some g =>
      (_ ← upd_goals (delete sid);
       if sg_mu g then (deadlocked : M (res ()))
       else if negb (IsTerminal (sg_Status g)) then RecordGoalHistory now g
       else mret (Ok tt) : M (res ())) s
  end.

Definition new_goal (sid objective : string) (tokenBudget tokensAtStart : Z) : SessionGoal :=
  mkGoal sid objective GoalStatus_Active 0 0 tokenBudget 0 0 [] 0 "" "" tokensAtStart false.

Definition CreateGoal (sid objective : string) (tokenBudget tokensAtStart : Z)
    : M (res SessionGoal) := λ s,
  if IsBlank sid || IsBlank objective then Done (Fail "invalid parameter", s)
  else if 4000 <? Z.of_nat (String.length objective)
  then Done (Fail "objective exceeds max length of 4000 characters", s)
  else if tokenBudget <? 0 then Done (Fail "token budget cannot be negative", s)
  else if tokensAtStart <? 0 then Done (Fail "token baseline cannot be negative", s)
  else
    let goal := new_goal sid objective tokenBudget tokensAtStart in
    match gs_goals s !! sid with
    | Some _ => Done (Fail ("goal already exists for session '" +:+ sid +:+ "'. clear it first"), s)
    | None => (_ ← upd_goals <[sid := goal]>; mret (Ok goal) : M (res SessionGoal)) s
    end.

Definition GetGoal (sid : string) : M (res SessionGoal) :=
  g ← gets (λ s, gs_goals s !! sid);
  mret (match g with
        | None => Fail ("no goal found for session '" +:+ sid +:+ "'")
        | Some g => Ok g
        end).

Definition BeginTurn (sid : string) : M (res ()) :=
  with_lock sid
    (λ g, _ ← upd_goal sid (λ g, set_continuation (sg_UpdatedAt g) 0 g); mret (Ok tt))
    (mret (Ok tt)).

Definition UpdateStatus (now : Z) (sid : string) (newStatus : GoalStatus) (note : string)
    : M (res ()) :=
  with_lock sid
    (λ g,
      if IsTerminal (sg_Status g)
      then mret (Fail ("cannot transition from terminal state '" +:+ ToDisplayName (sg_Status g) +:+ "'"))
      else if negb (isValidTransition (sg_Status g) newStatus)
      then mret (Fail ("invalid transition: " +:+ ToDisplayName (sg_Status g) +:+ " -> " +:+
                       ToDisplayName newStatus))
      else
        _ ← upd_goal sid (set_status now newStatus note);
        if IsTerminal newStatus ||
           (bool_decide (newStatus = GoalStatus_Blocked) || bool_decide (newStatus = GoalStatus_BudgetLimited))
        then RecordGoalHistory now (set_status now newStatus note g)
        else mret (Ok tt))
    (mret (Fail ("no goal found for session '" +:+ sid +:+ "'"))).

(** The call to [UpdateStatus] happens under the goal's own mutex. *)
Definition UpdateModelStatus (now : Z) (sid : string) (newStatus : GoalStatus) (note : string)
    : M (res ()) :=
  with_lock sid
    (λ g,
      if negb (bool_decide (newStatus = GoalStatus_Blocked)) &&
         negb (bool_decide (newStatus = GoalStatus_Complete))
      then mret (Fail "The model can only complete or block goals.")
      else if bool_decide (newStatus = GoalStatus_Blocked) && (sg_ConsecutiveBlockerCount g <? 3)
      then mret (Fail "Blocking requires three consecutive observations of the same blocker. Continue working or report the blocker for this turn.")
      else UpdateStatus now sid newStatus note)
    (mret (Ok tt)).

Definition HasActiveGoal (sid : string) : M bool :=
  with_lock sid (λ g, mret (IsPursuable (sg_Status g))) (mret false).

Definition IncrementContinuationCount (now : Z) (sid : string) : M Z :=
  with_lock sid
    (λ g, let count := wrap64 (sg_ContinuationCount g + 1) in
          _ ← upd_goal sid (set_continuation now count); mret count)
    (mret 0).

Definition RecordTurnHash (sid normalizedText : string) : M bool :=
  with_lock sid
    (λ g,
      let hash := ComputeTurnHash normalizedText in
      if IsBlank hash then _ ← upd_goal sid (set_blocker "" 0); mret false
      else if decide (hash = sg_LastBlockerHash g) then
        let count := wrap64 (sg_ConsecutiveBlockerCount g + 1) in
        _ ← upd_goal sid (set_blocker (sg_LastBlockerHash g) count); mret (3 <=? count)
      else _ ← upd_goal sid (set_blocker hash 1); mret false)
    (mret false).

Definition UpdateTokenUsage (now : Z) (sid : string) (sessionTotalTokens : Z) : M (res ()) :=
  with_lock sid
    (λ g, _ ← upd_goal sid (set_usage now (Z.max 0 (wrap64 (sessionTotalTokens - sg_TokensAtStart g))));
          mret (Ok tt))
    (mret (Ok tt)).
End Service.

(** ** Calls and reachable states *)

Inductive GoalCall :=
  | CallCreate (sid objective : string) (tokenBudget tokensAtStart : Z)
  | CallClear (sid : string)
  | CallGet (sid : string)
  | CallBeginTurn (sid : string)
  | CallUpdateStatus (sid : string) (st : GoalStatus) (note : string)
  | CallHasActive (sid : string)
  | CallIncrement (sid : string)
  | CallRecordTurnHash (sid text : string)
  | CallUpdateUsage (sid : string) (total : Z).

(** What a call does to one goal it is about, when the goal exists. *)
Definition allowed_status (g : SessionGoal) (st : GoalStatus) : bool :=
  negb (IsTerminal (sg_Status g)) && isValidTransition (sg_Status g) st.

Definition status_effect (now : Z) (st : GoalStatus) (note : string) (g : SessionGoal) : SessionGoal :=
  if allowed_status g st then set_status now st note g else g.

Definition usage_effect (now total : Z) (g : SessionGoal) : SessionGoal :=
  set_usage now (Z.max 0 (wrap64 (total - sg_TokensAtStart g))) g.

(** The blocker count after a turn with this hash, and whether it blocks. *)
Definition turn_effect (hash : string) (g : SessionGoal) : bool * SessionGoal :=
  if IsBlank hash then (false, set_blocker "" 0 g)
  else if decide (hash = sg_LastBlockerHash g) then
    let count := wrap64 (sg_ConsecutiveBlockerCount g + 1) in
    (3 <=? count, set_blocker (sg_LastBlockerHash g) count g)
  else (false, set_blocker hash 1 g).

(** No goal is locked: the state between calls. *)
Definition unlocked (s : GoalService) : Prop :=
  ∀ sid g, gs_goals s !! sid = Some g → sg_mu g = false.

Section Calls.
Variable sha256_hex : string → string.
Variable append_error : list GoalHistoryRecord → GoalHistoryRecord → option string.

Definition goal_call (now : Z) (c : GoalCall) : M () :=
  match c with
  | CallCreate sid o b t => _ ← CreateGoal sid o b t; mret tt
  | CallClear sid => _ ← ClearGoal append_error now sid; mret tt
  | CallGet sid => _ ← GetGoal sid; mret tt
  | CallBeginTurn sid => _ ← BeginTurn sid; mret tt
  | CallUpdateStatus sid st note => _ ← UpdateStatus append_error now sid st note; mret tt
  | CallHasActive sid => _ ← HasActiveGoal sid; mret tt
  | CallIncrement sid => _ ← IncrementContinuationCount now sid; mret tt
  | CallRecordTurnHash sid text => _ ← RecordTurnHash sha256_hex sid text; mret tt
  | CallUpdateUsage sid total => _ ← UpdateTokenUsage now sid total; mret tt
  end.

Definition goal_step (s : GoalService) (l : Z * GoalCall) (s' : GoalService) : Prop :=
  goal_call (fst l) (snd l) s = Done (tt, s').

(** ** Lemmas *)

Lemma alter_chain (m : gmap string SessionGoal) sid g (h k : SessionGoal → SessionGoal) :
  m !! sid = Some g → alter h sid (alter k sid m) = <[sid := h (k g)]> m.
Proof.
  intros H. apply map_eq. intros i. rewrite !lookup_alter, lookup_insert.
  repeat case_decide; subst; try done. by rewrite H.
Qed.

Lemma alter_id' (m : gmap string SessionGoal) sid g :
  m !! sid = Some g → sg_mu g = false → <[sid := set_mu false (set_mu true g)]> m = m.
Proof. intros H Hmu. rewrite insert_id; [done |]. rewrite H. f_equal. by destruct g; simpl in *; subst. Qed.

Lemma service_eta s : mkService (gs_historyFilePath s) (gs_goals s) (gs_history s) = s.
Proof. by destruct s. Qed.

(** A locked section whose body updates its goal by [f] and returns [a]. *)
Lemma with_lock_upd {A} sid (body : SessionGoal → M A) absent s g f a hist :
  unlocked s → gs_goals s !! sid = Some g →
  set_mu false (f (set_mu true g)) = f g →
  (∀ m, body (set_mu true g) (mkService (gs_historyFilePath s) m (gs_history s)) =
        Done (a, mkService (gs_historyFilePath s) (alter f sid m) hist)) →
  with_lock sid body absent s =
    Done (a, mkService (gs_historyFilePath s) (<[sid := f g]> (gs_goals s)) hist).
Proof.
  intros Hun Hg Hf Hbody. unfold with_lock. rewrite Hg, (Hun _ _ Hg).
  unfold upd_goal, upd_goals, modifies, mbind, GoM_bind. cbn. rewrite Hbody. cbn.
  unfold mret, GoM_ret. do 3 f_equal. rewrite (alter_chain (alter (set_mu true) sid (gs_goals s)) sid (set_mu true g)).
  - rewrite Hf. apply map_eq. intros i.
    rewrite !lookup_insert, lookup_alter. repeat case_decide; done.
  - by rewrite lookup_alter_eq, Hg.
Qed.

(** A locked section whose body only reads. *)
Lemma with_lock_read {A} sid (body : SessionGoal → M A) absent s g a :
  unlocked s → gs_goals s !! sid = Some g →
  (∀ s1, body (set_mu true g) s1 = Done (a, s1)) →
  with_lock sid body absent s = Done (a, s).
Proof.
  intros Hun Hg Hbody. unfold with_lock. rewrite Hg, (Hun _ _ Hg).
  unfold upd_goal, upd_goals, modifies, mbind, GoM_bind. cbn. rewrite Hbody. cbn.
  unfold mret, GoM_ret. rewrite (alter_chain _ _ g) by done. rewrite alter_id' by eauto. by destruct s.
Qed.

Lemma with_lock_absent {A} sid (body : SessionGoal → M A) absent s :
  gs_goals s !! sid = None → with_lock sid body absent s = absent s.
Proof. intros H. unfold with_lock. by rewrite H. Qed.

Lemma unlocked_insert s sid g hist :
  unlocked s → sg_mu g = false →
  unlocked (mkService (gs_historyFilePath s) (<[sid := g]> (gs_goals s)) hist).
Proof.
  intros Hun Hg sid' g'. simpl. rewrite lookup_insert. case_decide; [by intros [= <-] | apply Hun].
Qed.

(** Whatever the append does, recording history touches only the history. *)
Lemma RecordGoalHistory_run now g s :
  ∃ r hist, RecordGoalHistory append_error now g s =
    Done (r, mkService (gs_historyFilePath s) (gs_goals s) hist) ∧
    (∀ m, RecordGoalHistory append_error now g (mkService (gs_historyFilePath s) m (gs_history s)) =
      Done (r, mkService (gs_historyFilePath s) m hist)) ∧
    (is_ok r = false → hist = gs_history s).
Proof.
  unfold RecordGoalHistory. simpl.
  destruct (IsBlank (gs_historyFilePath s)).
  { exists (Ok tt), (gs_history s). split; [by destruct s | by split]. }
  destruct (append_error _ _) as [e |].
  - exists (Fail e), (gs_history s). split; [by destruct s | by split].
  - eexists (Ok tt), _. split; [reflexivity | by split].
Qed.

Lemma UpdateStatus_run now sid st note s g :
  unlocked s → gs_goals s !! sid = Some g →
  ∃ r hist, UpdateStatus append_error now sid st note s =
    Done (r, mkService (gs_historyFilePath s) (<[sid := status_effect now st note g]> (gs_goals s)) hist) ∧
    (allowed_status g st = false → is_ok r = false ∧ hist = gs_history s) ∧
    (allowed_status g st = true → is_ok r = false → hist = gs_history s).
Proof.
  intros Hun Hg. pose proof (Hun _ _ Hg) as Hmu.
  unfold status_effect, allowed_status, UpdateStatus.
  destruct (IsTerminal (sg_Status g)) eqn:Ht; simpl.
  { eexists (Fail _), (gs_history s). split; [| by split].
    rewrite insert_id, service_eta by done.
    apply (with_lock_read _ _ _ _ g); [done | done |]. intros s1. simpl. by rewrite Ht. }
  destruct (isValidTransition (sg_Status g) st) eqn:Hv; simpl.
  2: { eexists (Fail _), (gs_history s). split; [| by split]. rewrite insert_id, service_eta by done.
       apply (with_lock_read _ _ _ _ g); [done | done |]. intros s1. simpl. by rewrite Ht, Hv. }
  destruct (IsTerminal st || (bool_decide (st = GoalStatus_Blocked) ||
              bool_decide (st = GoalStatus_BudgetLimited))) eqn:Hrec.
  - destruct (RecordGoalHistory_run now (set_status now st note (set_mu true g)) s)
      as (r & hist & _ & Hrun & Hok).
    exists r, hist. split; [| by split].
    apply (with_lock_upd sid _ _ s g (set_status now st note)); [done | done | | intros m; simpl; rewrite Ht, Hv; simpl].
    { destruct g; simpl in *; by subst. }
    unfold upd_goal, upd_goals, modifies, mbind, GoM_bind. simpl. apply Hrun.
  - exists (Ok tt), (gs_history s). split; [| by split].
    apply (with_lock_upd sid _ _ s g (set_status now st note)); [done | done | | intros m; simpl; rewrite Ht, Hv; simpl].
    { destruct g; simpl in *; by subst. }
    unfold upd_goal, upd_goals, modifies, mbind, GoM_bind. done.
Qed.

Lemma UpdateTokenUsage_run now sid total s g :
  unlocked s → gs_goals s !! sid = Some g →
  UpdateTokenUsage now sid total s =
    Done (Ok tt, mkService (gs_historyFilePath s) (<[sid := usage_effect now total g]> (gs_goals s)) (gs_history s)).
Proof.
  intros Hun Hg. pose proof (Hun _ _ Hg). unfold usage_effect.
  apply (with_lock_upd sid _ _ s g (set_usage now (Z.max 0 (wrap64 (total - sg_TokensAtStart g)))));
    [done | done | by destruct g; simpl in *; subst | done].
Qed.

Lemma IncrementContinuationCount_run now sid s g :
  unlocked s → gs_goals s !! sid = Some g →
  let count := wrap64 (sg_ContinuationCount g + 1) in
  IncrementContinuationCount now sid s =
    Done (count, mkService (gs_historyFilePath s) (<[sid := set_continuation now count g]> (gs_goals s)) (gs_history s)).
Proof.
  intros Hun Hg. pose proof (Hun _ _ Hg).
  apply (with_lock_upd sid _ _ s g (set_continuation now (wrap64 (sg_ContinuationCount g + 1))));
    [done | done | by destruct g; simpl in *; subst | done].
Qed.

Lemma BeginTurn_run sid s g :
  unlocked s → gs_goals s !! sid = Some g →
  BeginTurn sid s =
    Done (Ok tt, mkService (gs_historyFilePath s)
      (<[sid := set_continuation (sg_UpdatedAt g) 0 g]> (gs_goals s)) (gs_history s)).
Proof.
  intros Hun Hg. pose proof (Hun _ _ Hg).
  apply (with_lock_upd sid _ _ s g (λ g, set_continuation (sg_UpdatedAt g) 0 g));
    [done | done | by destruct g; simpl in *; subst | done].
Qed.

Lemma HasActiveGoal_run sid s g :
  unlocked s → gs_goals s !! sid = Some g →
  HasActiveGoal sid s = Done (IsPursuable (sg_Status g), s).
Proof. intros Hun Hg. by apply (with_lock_read _ _ _ _ g). Qed.

Lemma RecordTurnHash_run sid text s g :
  unlocked s → gs_goals s !! sid = Some g →
  let '(b, g') := turn_effect (ComputeTurnHash sha256_hex text) g in
  RecordTurnHash sha256_hex sid text s =
    Done (b, mkService (gs_historyFilePath s) (<[sid := g']> (gs_goals s)) (gs_history s)).
Proof.
  intros Hun Hg. pose proof (Hun _ _ Hg). unfold turn_effect, RecordTurnHash.
  set (hash := ComputeTurnHash sha256_hex text).
  destruct (IsBlank hash) eqn:Hb; [| destruct (decide (hash = sg_LastBlockerHash g)) as [Hh | Hh]].
  - apply (with_lock_upd sid _ _ s g (set_blocker "" 0));
      [done | done | by destruct g; simpl in *; subst | done].
  - apply (with_lock_upd sid _ _ s g (set_blocker (sg_LastBlockerHash g) (wrap64 (sg_ConsecutiveBlockerCount g + 1))));
      [done | done | by destruct g; simpl in *; subst | intros m; simpl].
    by rewrite decide_True.
  - apply (with_lock_upd sid _ _ s g (set_blocker hash 1));
      [done | done | by destruct g; simpl in *; subst | intros m; simpl].
    by rewrite decide_False.
Qed.
End Calls.

(** ** Invariant *)

Record goal_wf (sid : string) (g : SessionGoal) : Prop := mkGoalWf {
  wf_session : sg_SessionId g = sid;
  wf_objective : IsBlank (sg_Objective g) = false ∧ (String.length (sg_Objective g) ≤ 4000)%nat;
  wf_budget : 0 ≤ sg_TokenBudget g ∧ 0 ≤ sg_TokensAtStart g ∧ 0 ≤ sg_TokensUsed g;
  wf_blocker : sg_LastBlockerHash g = "" → sg_ConsecutiveBlockerCount g = 0;
  wf_unlocked : sg_mu g = false
}.

Definition service_wf (s : GoalService) : Prop :=
  ∀ sid g, gs_goals s !! sid = Some g → goal_wf sid g.

Lemma service_wf_unlocked s : service_wf s → unlocked s.
Proof. intros H sid g Hg. exact (wf_unlocked _ _ (H _ _ Hg)). Qed.

Lemma service_wf_insert s sid g hist :
  service_wf s → goal_wf sid g →
  service_wf (mkService (gs_historyFilePath s) (<[sid := g]> (gs_goals s)) hist).
Proof.
  intros Hs Hg sid' g'. simpl. rewrite lookup_insert.
  case_decide; [subst; by intros [= <-] | apply Hs].
Qed.

Lemma IsBlank_empty : IsBlank "" = true.
Proof. reflexivity. Qed.

Lemma goal_wf_status sid g now st note : goal_wf sid g → goal_wf sid (status_effect now st note g).
Proof. intros [? ? ? ? ?]. unfold status_effect. case_match; by split. Qed.

Lemma goal_wf_usage sid g now total : goal_wf sid g → goal_wf sid (usage_effect now total g).
Proof. intros [? ? (? & ? & ?) ? ?]. split; simpl; try done. split; [done |]. split; [done | lia]. Qed.

Lemma goal_wf_continuation sid g now count : goal_wf sid g → goal_wf sid (set_continuation now count g).
Proof. intros [? ? ? ? ?]. by split. Qed.

Lemma goal_wf_turn sid g hash : goal_wf sid g → goal_wf sid (snd (turn_effect hash g)).
Proof.
  intros [? ? ? ? ?]. unfold turn_effect.
  destruct (IsBlank hash) eqn:Hb; [by split |].
  destruct (decide (hash = sg_LastBlockerHash g)) as [<- |]; split; simpl; try done;
    intros ->; by rewrite IsBlank_empty in Hb.
Qed.

#[export] Hint Resolve goal_wf_status goal_wf_usage goal_wf_continuation goal_wf_turn
  service_wf_insert service_wf_unlocked : goproj.

Lemma goal_wf_new sid objective budget start :
  IsBlank objective = false → (Z.of_nat (String.length objective) ≤ 4000) → 0 ≤ budget → 0 ≤ start →
  goal_wf sid (new_goal sid objective budget start).
Proof. intros. split; simpl; try done. split; [done | lia]. Qed.

Section GoalSteps.
Variable sha256_hex : string → string.
Variable append_error : list GoalHistoryRecord → GoalHistoryRecord → option string.

Local Abbreviation step := (goal_step sha256_hex append_error).

(** The goal the call is about, if it is about one, and what the call does to
    it when it exists. *)
Definition call_target (c : GoalCall) : string :=
  match c with
  | CallCreate sid _ _ _ | CallClear sid | CallGet sid | CallBeginTurn sid
  | CallUpdateStatus sid _ _ | CallHasActive sid | CallIncrement sid
  | CallRecordTurnHash sid _ | CallUpdateUsage sid _ => sid
  end.

Definition call_effect (now : Z) (c : GoalCall) (g : SessionGoal) : option SessionGoal :=
  match c with
  | CallClear _ => None
  | CallCreate _ _ _ _ | CallGet _ | CallHasActive _ => Some g
  | CallBeginTurn _ => Some (set_continuation (sg_UpdatedAt g) 0 g)
  | CallUpdateStatus _ st note => Some (status_effect now st note g)
  | CallIncrement _ => Some (set_continuation now (wrap64 (sg_ContinuationCount g + 1)) g)
  | CallRecordTurnHash _ text => Some (snd (turn_effect (ComputeTurnHash sha256_hex text) g))
  | CallUpdateUsage _ total => Some (usage_effect now total g)
  end.

(** A call on an existing goal returns and changes that goal only. *)
Lemma goal_call_present now c s g :
  unlocked s → gs_goals s !! call_target c = Some g →
  ∃ hist, goal_call sha256_hex append_error now c s =
    Done (tt, mkService (gs_historyFilePath s)
      (match call_effect now c g with
       | Some g' => <[call_target c := g']> (gs_goals s)
       | None => delete (call_target c) (gs_goals s)
       end) hist).
Proof.
  intros Hun Hg. unfold goal_call. destruct c; simpl in *.
  - exists (gs_history s). rewrite insert_id, service_eta by done.
    unfold mbind, GoM_bind, CreateGoal. rewrite Hg. repeat case_match; simplify_eq; done.
  - assert (ClearGoal append_error now sid s =
      (if negb (IsTerminal (sg_Status g)) then RecordGoalHistory append_error now g else mret (Ok tt))
        (mkService (gs_historyFilePath s) (delete sid (gs_goals s)) (gs_history s))) as Hclear.
    { unfold ClearGoal. rewrite Hg, (Hun _ _ Hg). done. }
    destruct (negb (IsTerminal (sg_Status g))); [| unfold mbind, GoM_bind; rewrite Hclear; by eexists].
    destruct (RecordGoalHistory_run append_error now g
      (mkService (gs_historyFilePath s) (delete sid (gs_goals s)) (gs_history s))) as (r & hist & Hr & _).
    rewrite Hr in Hclear. rewrite (GoM_bind_done _ _ _ _ _ Hclear). by eexists.
  - exists (gs_history s). rewrite insert_id, service_eta by done. done.
  - rewrite (GoM_bind_done _ _ _ _ _ (BeginTurn_run sid s g Hun Hg)). by eexists.
  - destruct (UpdateStatus_run append_error now sid st note s g Hun Hg) as (r & hist & Hr & _).
    rewrite (GoM_bind_done _ _ _ _ _ Hr). by eexists.
  - exists (gs_history s). rewrite insert_id, service_eta by done.
    by rewrite (GoM_bind_done _ _ _ _ _ (HasActiveGoal_run sid s g Hun Hg)).
  - rewrite (GoM_bind_done _ _ _ _ _ (IncrementContinuationCount_run now sid s g Hun Hg)). by eexists.
  - pose proof (RecordTurnHash_run sha256_hex sid text s g Hun Hg) as Hr.
    destruct (turn_effect _ g) as [b g'] eqn:Ht. rewrite (GoM_bind_done _ _ _ _ _ Hr). by eexists.
  - rewrite (GoM_bind_done _ _ _ _ _ (UpdateTokenUsage_run now sid total s g Hun Hg)). by eexists.
Qed.

(** A call on a session without a goal changes nothing, except that
    [CreateGoal] may create the goal. *)
Lemma goal_call_absent now c s :
  gs_goals s !! call_target c = None →
  ∃ s', goal_call sha256_hex append_error now c s = Done (tt, s') ∧
    (s' = s ∨ ∃ g, goal_wf (call_target c) g ∧ sg_Status g = GoalStatus_Active ∧
       s' = mkService (gs_historyFilePath s) (<[call_target c := g]> (gs_goals s)) (gs_history s)).
Proof.
  intros Hg. unfold goal_call, mbind, GoM_bind. destruct c; simpl in *.
  - unfold CreateGoal. rewrite Hg.
    destruct (IsBlank sid || IsBlank objective) eqn:Hb; [by eauto |].
    destruct (Z.ltb_spec 4000 (Z.of_nat (String.length objective))); [by eauto |].
    destruct (Z.ltb_spec tokenBudget 0); [by eauto |].
    destruct (Z.ltb_spec tokensAtStart 0); [by eauto |].
    apply orb_false_iff in Hb as [_ Hb].
    eexists. split; [reflexivity |]. right. eexists. split; [| split; [| reflexivity]]; [| done].
    by apply goal_wf_new.
  - unfold ClearGoal. rewrite Hg. eauto.
  - unfold GetGoal. eauto.
  - unfold BeginTurn. rewrite with_lock_absent by done. cbn. eauto.
  - unfold UpdateStatus. rewrite with_lock_absent by done. cbn. eauto.
  - unfold HasActiveGoal. rewrite with_lock_absent by done. cbn. eauto.
  - unfold IncrementContinuationCount. rewrite with_lock_absent by done. cbn. eauto.
  - unfold RecordTurnHash. rewrite with_lock_absent by done. cbn. eauto.
  - unfold UpdateTokenUsage. rewrite with_lock_absent by done. cbn. eauto.
Qed.

Lemma goal_wf_effect now c g g' :
  goal_wf (call_target c) g → call_effect now c g = Some g' → goal_wf (call_target c) g'.
Proof. intros Hg. destruct c; simpl; intros; simplify_eq; eauto with goproj. Qed.

Lemma service_wf_call now c s :
  service_wf s → ∃ s', goal_call sha256_hex append_error now c s = Done (tt, s') ∧ service_wf s'.
Proof.
  intros Hs. destruct (gs_goals s !! call_target c) as [g |] eqn:Hg.
  - destruct (goal_call_present now c s g (service_wf_unlocked _ Hs) Hg) as (hist & Hrun).
    eexists. split; [exact Hrun |].
    destruct (call_effect now c g) as [g' |] eqn:He.
    + apply service_wf_insert; [done |]. by eapply goal_wf_effect; [apply Hs |].
    + intros sid' g'. simpl. intros [_ ?]%lookup_delete_Some. by apply Hs.
  - destruct (goal_call_absent now c s Hg) as (s' & Hrun & [-> | (g & Hwf & _ & ->)]);
      (eexists; split; [exact Hrun |]); auto with goproj.
Qed.

(** What no call on a goal changes, and what completes one. *)
Lemma call_effect_frame now c g g' :
  call_effect now c g = Some g' →
  sg_Objective g' = sg_Objective g ∧ sg_TokenBudget g' = sg_TokenBudget g ∧
  sg_TokensAtStart g' = sg_TokensAtStart g ∧
  (sg_Status g = GoalStatus_Complete → sg_Status g' = GoalStatus_Complete) ∧
  (sg_Status g' = GoalStatus_Complete → sg_Status g = GoalStatus_Complete ∨
     ∃ note, c = CallUpdateStatus (call_target c) GoalStatus_Complete note).
Proof.
  destruct c as [| | | | sid st note | | | sid text |]; simpl; intros; simplify_eq; simpl; auto 10.
  - unfold status_effect, allowed_status, IsTerminal.
    destruct (isValidTransition (sg_Status g) st); case_bool_decide; simpl; repeat split; try done; auto.
    intros ->. right. by exists note.
  - unfold turn_effect. repeat case_match; simpl; auto 10.
Qed.

(** What a step does to the goal of a session it does not clear. *)
Lemma goal_step_follow s l s' sid g :
  service_wf s → step s l s' → snd l ≠ CallClear sid → gs_goals s !! sid = Some g →
  ∃ g', gs_goals s' !! sid = Some g' ∧
    (g' = g ∨ call_target (snd l) = sid ∧ call_effect (fst l) (snd l) g = Some g').
Proof.
  intros Hs Hstep Hclear Hg. destruct l as [now c]. unfold goal_step in Hstep. simpl in *.
  destruct (gs_goals s !! call_target c) as [g0 |] eqn:Hc.
  - destruct (goal_call_present now c s g0 (service_wf_unlocked _ Hs) Hc) as (hist & Hrun).
    rewrite Hrun in Hstep. injection Hstep as <-. simpl.
    destruct (decide (call_target c = sid)) as [<- | Hne].
    + simplify_eq. destruct (call_effect now c g) as [g' |] eqn:He.
      * exists g'. rewrite lookup_insert_eq. eauto.
      * destruct c; simpl in *; congruence.
    + exists g. split; [| by left].
      destruct (call_effect now c g0); [by rewrite lookup_insert_ne | by rewrite lookup_delete_ne].
  - destruct (goal_call_absent now c s Hc) as (s2 & Hrun & Hs2).
    rewrite Hrun in Hstep. injection Hstep as <-.
    exists g. split; [| by left]. destruct Hs2 as [-> | (g2 & _ & _ & ->)]; [done |]. simpl.
    rewrite lookup_insert_ne; [done | congruence].
Qed.
End GoalSteps.

(** ** Turn hashes *)

(** How many elements at the front of [l] are [h]. *)
Fixpoint run_length (h : string) (l : list string) : nat :=
  match l with
  | [] => 0%nat
  | x :: l => if decide (x = h) then S (run_length h l) else 0%nat
  end.

(** The blocker fields after observing the hashes [hs], the newest first. *)
Definition blocker_state (hs : list string) (g : SessionGoal) : Prop :=
  match hs with
  | h :: _ =>
      if IsBlank h then sg_LastBlockerHash g = "" ∧ sg_ConsecutiveBlockerCount g = 0
      else sg_LastBlockerHash g = h ∧ sg_ConsecutiveBlockerCount g = Z.of_nat (run_length h hs)
  | [] => sg_LastBlockerHash g = "" ∧ sg_ConsecutiveBlockerCount g = 0
  end.

Lemma run_length_le h l : (run_length h l ≤ length l)%nat.
Proof. induction l; simpl; [lia |]. case_decide; lia. Qed.

Lemma turn_effect_blocker hs h g :
  (Z.of_nat (length hs) < max_int64) → blocker_state hs g →
  blocker_state (h :: hs) (snd (turn_effect h g)) ∧
  (fst (turn_effect h g) = true ↔ IsBlank h = false ∧ (3 ≤ run_length h (h :: hs))%nat).
Proof.
  unfold turn_effect. intros Hlen Hst.
  destruct (IsBlank h) eqn:Hb; [split; [simpl; by rewrite Hb | naive_solver] |].
  assert (h ≠ "") by (intros ->; by rewrite IsBlank_empty in Hb).
  destruct hs as [| h0 hs].
  { destruct Hst as [-> _]. rewrite decide_False by done. simpl. rewrite Hb, decide_True by done.
    repeat split; naive_solver lia. }
  simpl in Hst. destruct (IsBlank h0) eqn:Hb0.
  { destruct Hst as [-> _]. rewrite decide_False by done.
    assert (h0 ≠ h) by congruence. simpl. rewrite Hb, decide_True, decide_False by done.
    repeat split; naive_solver lia. }
  destruct Hst as [-> Hc]. pose proof (run_length_le h0 hs). simpl in Hlen. unfold max_int64 in *.
  destruct (decide (h = h0)) as [<- | Hne].
  - rewrite decide_True in Hc by done. rewrite Hc, wrap64_id by (unfold in_int64, min_int64, max_int64; lia).
    simpl. rewrite Hb, !decide_True by done. rewrite Z.leb_le.
    split; [split; [done | lia] |]. naive_solver lia.
  - simpl. rewrite Hb, decide_True, decide_False by done. split; [done |].
    split; [done |]. intros [_ ?]. lia.
Qed.

(** Report the texts one after the other; the answers, oldest first. *)
Fixpoint record_turns (sha256_hex : string → string) (sid : string) (texts : list string) : M (list bool) :=
  match texts with
  | [] => mret []
  | t :: texts =>
      b ← RecordTurnHash sha256_hex sid t;
      bs ← record_turns sha256_hex sid texts;
      mret (b :: bs)
  end.

Lemma record_turns_run sha256_hex sid texts : ∀ hs s g,
  service_wf s → gs_goals s !! sid = Some g → blocker_state hs g →
  (Z.of_nat (length hs + length texts) ≤ max_int64) →
  ∃ bs s' g', record_turns sha256_hex sid texts s = Done (bs, s') ∧ service_wf s' ∧
    gs_goals s' !! sid = Some g' ∧
    blocker_state (rev (ComputeTurnHash sha256_hex <$> texts) ++ hs)%list g' ∧
    length bs = length texts ∧
    ∀ i t, texts !! i = Some t →
      let h := ComputeTurnHash sha256_hex t in
      bs !! i = Some (bool_decide (IsBlank h = false ∧
        (3 ≤ run_length h (h :: (rev (ComputeTurnHash sha256_hex <$> take i texts) ++ hs)%list))%nat)).
Proof.
  induction texts as [| t texts IH]; intros hs s g Hs Hg Hst Hlen.
  { eexists [], s, g. do 5 (split; [done |]). done. }
  simpl in Hlen.
  pose proof (RecordTurnHash_run sha256_hex sid t s g (service_wf_unlocked _ Hs) Hg) as Hrun.
  destruct (turn_effect_blocker hs (ComputeTurnHash sha256_hex t) g ltac:(lia) Hst) as [Hst' Hb].
  pose proof (goal_wf_turn sid g (ComputeTurnHash sha256_hex t) (Hs _ _ Hg)) as Hwf.
  destruct (turn_effect _ g) as [b g1] eqn:Ht. simpl in *.
  edestruct (IH (ComputeTurnHash sha256_hex t :: hs)%list) as (bs & s' & g' & Hruns & Hs' & Hg' & Hfin & Hlb & Hall).
  - apply service_wf_insert; [exact Hs | exact Hwf].
  - simpl. apply lookup_insert_eq.
  - exact Hst'.
  - simpl. lia.
  - exists (b :: bs), s', g'.
    split. { rewrite (GoM_bind_done _ _ _ _ _ Hrun), (GoM_bind_done _ _ _ _ _ Hruns). done. }
    split; [done |]. split; [done |]. split; [by rewrite <- app_assoc |]. split; [simpl; lia |].
    intros [| i] t' Hi; simpl in Hi; simplify_eq; simpl.
    + f_equal. destruct b; symmetry; [rewrite bool_decide_eq_true | rewrite bool_decide_eq_false];
        [by apply Hb | intros Hc; by apply Hb in Hc].
    + rewrite (Hall i t' Hi). simpl. by rewrite <- app_assoc.
Qed.

(** ** Concrete services *)

(** A stand-in for the digest and a history file that accepts every record. *)
Definition toy_hash (s : string) : string := "h" +:+ s.
Definition append_ok : list GoalHistoryRecord → GoalHistoryRecord → option string := λ _ _, None.

Definition service_of (m : go (() * GoalService)) : GoalService :=
  match m with Done (_, s) => s | _ => NewInMemoryGoalService "" end.

Definition example_service : GoalService :=
  service_of (goal_call toy_hash append_ok 5 (CallCreate "s1" "ship it" 100 7)
    (NewInMemoryGoalService "goals.jsonl")).

Lemma example_service_wf : service_wf example_service.
Proof.
  destruct (service_wf_call toy_hash append_ok 5 (CallCreate "s1" "ship it" 100 7)
    (NewInMemoryGoalService "goals.jsonl")) as (s & Hrun & Hs).
  - intros sid g. simpl. by rewrite lookup_empty.
  - unfold example_service. by rewrite Hrun.
Qed.

(** ** Properties *)

(** Every sequence of service calls keeps the service well formed: each
    goal is stored under its own session id, has a non-blank objective of at
    most 4000 bytes and non-negative token fields, its blocker count is zero
    when no blocker is remembered, and its mutex is free; and in such a state
    no call can panic or block for ever ([UpdateModelStatus] is the exception
    and is not among these calls). *)
Theorem goal_service_invariant sha256_hex append_error path ls s :
  steps (goal_step sha256_hex append_error) (NewInMemoryGoalService path) ls s →
  service_wf s ∧
  ∀ now c, ∃ s', goal_call sha256_hex append_error now c s = Done (tt, s').
Proof.
  intros Hrun. assert (service_wf s) as Hs.
  { refine (steps_invariant _ service_wf _ _ _ _ Hrun _).
    - intros s1 [now c] s2 Hs1 Hstep. unfold goal_step in Hstep.
      destruct (service_wf_call sha256_hex append_error now c s1 Hs1) as (s3 & Hc & Hs3).
      cbn [fst snd] in Hstep. rewrite Hc in Hstep. by injection Hstep as <-.
    - intros sid g. simpl. by rewrite lookup_empty. }
  split; [done |]. intros now c.
  destruct (service_wf_call sha256_hex append_error now c s Hs) as (s' & Hc & _). eauto.
Qed.

Lemma goal_service_invariant_witness : service_wf example_service.
Proof.
  apply (goal_service_invariant toy_hash append_ok "goals.jsonl" [(5, CallCreate "s1" "ship it" 100 7)]
    example_service).
  econstructor; [vm_compute; reflexivity | constructor].
Defined.

(** As long as a session's goal is not cleared, no sequence of calls can
    replace it or change its objective, budget or baseline; a completed goal
    stays completed for ever, and a goal becomes completed only by an
    [UpdateStatus] call for that session asking for it. *)
Theorem goal_completion_is_final sha256_hex append_error s ls s' sid g :
  service_wf s → gs_goals s !! sid = Some g →
  steps (goal_step sha256_hex append_error) s ls s' →
  Forall (λ l, snd l ≠ CallClear sid) ls →
  ∃ g', gs_goals s' !! sid = Some g' ∧
    sg_Objective g' = sg_Objective g ∧ sg_TokenBudget g' = sg_TokenBudget g ∧
    sg_TokensAtStart g' = sg_TokensAtStart g ∧
    (sg_Status g = GoalStatus_Complete → sg_Status g' = GoalStatus_Complete) ∧
    (sg_Status g' = GoalStatus_Complete → sg_Status g = GoalStatus_Complete ∨
       ∃ now note, (now, CallUpdateStatus sid GoalStatus_Complete note) ∈ ls).
Proof.
  intros Hs Hg Hrun. revert g Hs Hg.
  induction Hrun as [s | s1 [now c] s2 ls s3 Hstep Hrun IH]; intros g Hs Hg Hall.
  { exists g. naive_solver. }
  inversion Hall as [| ? ? Hc Hall']; subst. simpl in Hc.
  assert (service_wf s2) as Hs2.
  { destruct (service_wf_call sha256_hex append_error now c s1 Hs) as (s4 & Hc4 & Hs4).
    unfold goal_step in Hstep. cbn [fst snd] in Hstep. rewrite Hc4 in Hstep. by injection Hstep as <-. }
  destruct (goal_step_follow _ _ s1 (now, c) s2 sid g Hs Hstep Hc Hg) as (g2 & Hg2 & Heff).
  destruct (IH g2 Hs2 Hg2 Hall') as (g3 & Hg3 & H1 & H2 & H3 & H4 & H5).
  exists g3. split; [done |].
  assert (sg_Objective g2 = sg_Objective g ∧ sg_TokenBudget g2 = sg_TokenBudget g ∧
    sg_TokensAtStart g2 = sg_TokensAtStart g ∧
    (sg_Status g = GoalStatus_Complete → sg_Status g2 = GoalStatus_Complete) ∧
    (sg_Status g2 = GoalStatus_Complete → sg_Status g = GoalStatus_Complete ∨
       ∃ note, c = CallUpdateStatus sid GoalStatus_Complete note)) as (E1 & E2 & E3 & E4 & E5).
  { destruct Heff as [-> | [Ht He]]; [by repeat split; auto |]. cbn [fst snd] in *.
    destruct (call_effect_frame _ _ _ _ _ He) as (? & ? & ? & ? & Hnew).
    repeat (split; [done |]). by rewrite Ht in Hnew. }
  split; [congruence |]. split; [congruence |]. split; [congruence |]. split; [auto |].
  intros Hc3. destruct (H5 Hc3) as [Hc2 | (now' & note & Hin)].
  - destruct (E5 Hc2) as [| [note ->]]; [by left |]. right. exists now, note. by left.
  - right. exists now', note. by right.
Qed.

Definition finished_service : GoalService :=
  service_of (goal_call toy_hash append_ok 6 (CallUpdateStatus "s1" GoalStatus_Complete "ok") example_service).

Lemma goal_completion_is_final_witness :
  ∃ g', gs_goals finished_service !! "s1" = Some g' ∧ sg_Objective g' = "ship it".
Proof.
  destruct (goal_completion_is_final toy_hash append_ok example_service
    [(6, CallUpdateStatus "s1" GoalStatus_Complete "ok")] finished_service "s1"
    (new_goal "s1" "ship it" 100 7)) as (g' & Hg' & Ho & _).
  - exact example_service_wf.
  - reflexivity.
  - econstructor; [vm_compute; reflexivity | constructor].
  - repeat constructor; discriminate.
  - exists g'. split; [exact Hg' | exact Ho].
Defined.

(** [UpdateModelStatus] can never change a goal: on a session without a
    goal it silently succeeds; a status other than blocked or complete, or
    blocked before three observations, is refused; and in every remaining
    case, the ones it exists for, it waits for ever for the mutex it holds. *)
Theorem model_status_update_deadlocks append_error now sid st note s :
  unlocked s →
  UpdateModelStatus append_error now sid st note s =
    match gs_goals s !! sid with
    | None => Done (Ok tt, s)
    | Some g =>
        match st with
        | GoalStatus_Complete => Deadlock
        | GoalStatus_Blocked =>
            if sg_ConsecutiveBlockerCount g <? 3
            then Done (Fail "Blocking requires three consecutive observations of the same blocker. Continue working or report the blocker for this turn.", s)
            else Deadlock
        | _ => Done (Fail "The model can only complete or block goals.", s)
        end
    end.
Proof.
  intros Hun. unfold UpdateModelStatus. destruct (gs_goals s !! sid) as [g |] eqn:Hg.
  2: { by rewrite with_lock_absent. }
  assert (∀ m, gs_goals m !! sid = Some (set_mu true g) →
    UpdateStatus append_error now sid st note m = Deadlock) as Hdead.
  { intros m Hm. unfold UpdateStatus, with_lock. by rewrite Hm. }
  assert (∀ body : SessionGoal → M (res ()), (∀ m, gs_goals m !! sid = Some (set_mu true g) →
     body (set_mu true g) m = Deadlock) → with_lock sid body (mret (Ok tt)) s = Deadlock) as Hlock.
  { intros body Hbody. unfold with_lock. rewrite Hg, (Hun _ _ Hg).
    unfold upd_goal, upd_goals, modifies, mbind, GoM_bind. cbn. rewrite Hbody; [done |].
    simpl. by rewrite lookup_alter_eq, Hg. }
  destruct st; try (apply (with_lock_read _ _ _ _ g); [done | done |]; done).
  - destruct (sg_ConsecutiveBlockerCount g <? 3) eqn:Hc.
    + apply (with_lock_read _ _ _ _ g); [done | done |]. intros s1. simpl. by rewrite Hc.
    + apply Hlock. intros m Hm. simpl. rewrite Hc. by apply Hdead.
  - apply Hlock. intros m Hm. simpl. by apply Hdead.
Qed.

Lemma model_status_update_deadlocks_witness :
  UpdateModelStatus append_ok 9 "s1" GoalStatus_Complete "done" example_service = Deadlock.
Proof.
  rewrite (model_status_update_deadlocks append_ok 9 "s1" GoalStatus_Complete "done" example_service).
  - reflexivity.
  - apply service_wf_unlocked, example_service_wf.
Defined.

(** Repeated blockers are detected exactly.  Reporting the texts of the
    turns of a fresh goal one after the other answers, for each turn, whether
    that turn's hash is not blank and ends a run of at least three equal
    hashes; a blank turn or a different hash starts over. *)
Theorem blocker_detected_at_three_in_a_row sha256_hex sid texts s g :
  service_wf s → gs_goals s !! sid = Some g → sg_LastBlockerHash g = "" →
  (Z.of_nat (length texts) ≤ max_int64) →
  ∃ bs s', record_turns sha256_hex sid texts s = Done (bs, s') ∧ service_wf s' ∧
    length bs = length texts ∧
    ∀ i t, texts !! i = Some t →
      let h := ComputeTurnHash sha256_hex t in
      bs !! i = Some (bool_decide (IsBlank h = false ∧
        (3 ≤ run_length h (rev (ComputeTurnHash sha256_hex <$> take (S i) texts)))%nat)).
Proof.
  intros Hs Hg Hlast Hlen.
  destruct (record_turns_run sha256_hex sid texts [] s g Hs Hg) as (bs & s' & g' & Hrun & Hs' & _ & _ & Hl & Hall).
  - split; [done |]. exact (wf_blocker _ _ (Hs _ _ Hg) Hlast).
  - simpl. lia.
  - exists bs, s'. split; [done |]. split; [done |]. split; [done |]. intros i t Hi. simpl.
    rewrite (Hall i t Hi). f_equal. apply bool_decide_ext.
    by rewrite (take_S_r _ _ _ Hi), fmap_app, rev_app_distr, app_nil_r.
Qed.

Lemma blocker_detected_at_three_in_a_row_witness :
  ∃ bs s', record_turns toy_hash "s1" ["a"; "a"; "a"; ""; "a"] example_service = Done (bs, s') ∧
    bs !! 2%nat = Some true.
Proof.
  destruct (blocker_detected_at_three_in_a_row toy_hash "s1" ["a"; "a"; "a"; ""; "a"] example_service
    (new_goal "s1" "ship it" 100 7)) as (bs & s' & Hrun & _ & _ & Hall).
  - exact example_service_wf.
  - reflexivity.
  - reflexivity.
  - vm_compute. discriminate.
  - exists bs, s'. split; [exact Hrun |]. rewrite (Hall 2%nat "a" eq_refl). reflexivity.
Defined.

(** The progress bar of a goal with a positive budget (small enough that a
    hundred times it fits an [int64]) is 22 characters wide whatever the usage,
    even when usage is negative or over budget: the filled cells are the
    rounded-down twentieths of the budget used, full exactly when the budget is
    used up, and the percentage is between 0 and 100.  Without a budget (the
    zero value a goal is created with by default) formatting panics. *)
Theorem progress_bar_fits g :
  100 * sg_TokenBudget g ≤ max_int64 →
  (sg_TokenBudget g < 0 → FormatGoalProgressBar (Some g) = Done "") ∧
  (sg_TokenBudget g = 0 → FormatGoalProgressBar (Some g) = Panic) ∧
  (0 < sg_TokenBudget g →
   let used := Z.max 0 (Z.min (sg_TokensUsed g) (sg_TokenBudget g)) in
   let filled := used * 20 / sg_TokenBudget g in
   let pct := used * 100 / sg_TokenBudget g in
   FormatGoalProgressBar (Some g) =
     Done (of_bytes (progress_bar filled) +:+ " " +:+ Itoa pct +:+ "% (" +:+
           Itoa (sg_TokensUsed g) +:+ "/" +:+ Itoa (sg_TokenBudget g) +:+ ")") ∧
   length (progress_bar filled) = 22%nat ∧ 0 ≤ filled ≤ 20 ∧ 0 ≤ pct ≤ 100 ∧
   (filled = 20 ↔ sg_TokenBudget g ≤ sg_TokensUsed g)).
Proof.
  unfold FormatGoalProgressBar, max_int64. intros Hmax.
  destruct (Z.ltb_spec (sg_TokenBudget g) 0); [repeat split; intros; lia |].
  destruct (Z.eqb_spec (sg_TokenBudget g) 0); [repeat split; intros; try done; lia |].
  split; [lia |]. split; [lia |]. intros Hpos. cbv zeta.
  set (b := sg_TokenBudget g) in *. set (u := sg_TokensUsed g) in *.
  replace (if u <? 0 then 0 else if b <? u then b else u) with (Z.max 0 (Z.min u b))
    by (destruct (Z.ltb_spec u 0), (Z.ltb_spec b u); lia).
  set (used := Z.max 0 (Z.min u b)). assert (0 ≤ used ≤ b) as Hu by lia.
  rewrite !wrap64_id by (unfold in_int64, min_int64, max_int64; lia).
  rewrite !Z.quot_div_nonneg by lia.
  assert (0 ≤ used * 20 / b ≤ 20) as Hf.
  { split; [apply Z.div_pos; lia |]. apply Z.div_le_upper_bound; lia. }
  assert (0 ≤ used * 100 / b ≤ 100) as Hp.
  { split; [apply Z.div_pos; lia |]. apply Z.div_le_upper_bound; lia. }
  split; [done |]. split.
  { unfold progress_bar, repeat_char. rewrite !length_app, length_replicate.
    destruct (Z.ltb_spec (used * 20 / b) 20); rewrite ?length_app, ?length_replicate; simpl; lia. }
  split; [done |]. split; [done |]. split.
  - intros Heq. pose proof (Z.mul_div_le (used * 20) b ltac:(lia)). rewrite Heq in *. lia.
  - intros Hle. replace used with b by lia. rewrite Z.mul_comm. by apply Z.div_mul.
Qed.

Lemma progress_bar_fits_witness :
  FormatGoalProgressBar (Some (set_usage 0 25 (new_goal "s1" "ship it" 100 7))) =
    Done "[=====>              ] 25% (25/100)".
Proof.
  destruct (progress_bar_fits (set_usage 0 25 (new_goal "s1" "ship it" 100 7))) as (_ & _ & H).
  - unfold max_int64. simpl. lia.
  - destruct (H ltac:(simpl; lia)) as [-> _]. vm_compute. reflexivity.
Defined.
