(* ===== verification/GoalAgent.v ===== *)
(** Goals in the agent: the continuation logic of [openclaw/agent/goal.go] and
    the [update_goal] tool of [openclaw/agent/tool/goal/update.go], written
    against the interface [IGoalService] of [openclaw/core/abstractions.go].

    [GoalServiceLaws] states what the agent relies on; the in-memory service of
    [Goal.v] satisfies it.  JSON decoding is outside code. *)

From S2P Require Import Prelude GoStrings Goal.
Local Open Scope string_scope.
Local Open Scope Z_scope.

(** ** The interface *)

(** The methods the agent calls; the first argument of a method that reads the
    clock is the reading. *)
Class IGoalService (S : Type) := {
  svc_GetGoal : string → GoM S (res SessionGoal);
  svc_UpdateStatus : Z → string → GoalStatus → string → GoM S (res ());
  svc_UpdateTokenUsage : Z → string → Z → GoM S (res ());
  svc_IncrementContinuationCount : Z → string → GoM S Z;
  svc_RecordTurnHash : string → string → GoM S bool
}.

(** What a service promises: it holds at most one goal per session, each method
    returns, acts on that goal by the stated effect and on no other. *)
Class GoalServiceView (S : Type) := {
  svc_ok : S → Prop;
  svc_goal : S → string → option SessionGoal
}.

Definition svc_changed {S : Type} `{GoalServiceView S} (s s' : S) (sid : string) (g : SessionGoal) : Prop :=
  svc_ok s' ∧ svc_goal s' sid = Some g ∧
  ∀ sid', sid' ≠ sid → svc_goal s' sid' = svc_goal s sid'.

Class GoalServiceLaws (S : Type) `{IGoalService S} `{GoalServiceView S} (hash_of : string → string) : Prop := {
  law_GetGoal s sid : svc_ok s →
    ∃ r, svc_GetGoal sid s = Done (r, s) ∧
      match svc_goal s sid with Some g => r = Ok g | None => is_ok r = false end;
  law_UpdateStatus now sid st note s g : svc_ok s → svc_goal s sid = Some g →
    ∃ r s', svc_UpdateStatus now sid st note s = Done (r, s') ∧
      svc_changed s s' sid (status_effect now st note g) ∧
      (allowed_status g st = false → is_ok r = false);
  law_UpdateTokenUsage now sid total s g : svc_ok s → svc_goal s sid = Some g →
    ∃ s', svc_UpdateTokenUsage now sid total s = Done (Ok tt, s') ∧
      svc_changed s s' sid (usage_effect now total g);
  law_IncrementContinuationCount now sid s g : svc_ok s → svc_goal s sid = Some g →
    let count := wrap64 (sg_ContinuationCount g + 1) in
    ∃ s', svc_IncrementContinuationCount now sid s = Done (count, s') ∧
      svc_changed s s' sid (set_continuation now count g);
  law_RecordTurnHash sid text s g : svc_ok s → svc_goal s sid = Some g →
    ∃ s', svc_RecordTurnHash sid text s = Done (fst (turn_effect (hash_of text) g), s') ∧
      svc_changed s s' sid (snd (turn_effect (hash_of text) g))
}.

(** ** The in-memory service implements it *)

Section InMemory.
Context (sha256_hex : string → string).
Context (append_error : list GoalHistoryRecord → GoalHistoryRecord → option string).

Definition InMemoryGoals : IGoalService GoalService := {|
  svc_GetGoal := GetGoal;
  svc_UpdateStatus := UpdateStatus append_error;
  svc_UpdateTokenUsage := UpdateTokenUsage;
  svc_IncrementContinuationCount := IncrementContinuationCount;
  svc_RecordTurnHash := RecordTurnHash sha256_hex |}.

Definition InMemoryGoals_view : GoalServiceView GoalService :=
  {| svc_ok := service_wf; svc_goal s sid := gs_goals s !! sid |}.

Lemma InMemoryGoals_changed s sid g hist :
  service_wf s → goal_wf sid g →
  @svc_changed _ InMemoryGoals_view s
    (mkService (gs_historyFilePath s) (<[sid := g]> (gs_goals s)) hist) sid g.
Proof.
  intros Hs Hg. split; [by apply service_wf_insert |]. simpl.
  split; [apply lookup_insert_eq | intros; by apply lookup_insert_ne].
Qed.

Lemma InMemoryGoals_laws :
  @GoalServiceLaws GoalService InMemoryGoals InMemoryGoals_view (ComputeTurnHash sha256_hex).
Proof.
  split; simpl.
  - intros s sid _. eexists. split; [reflexivity |]. by destruct (gs_goals s !! sid).
  - intros now sid st note s g Hs Hg.
    destruct (UpdateStatus_run append_error now sid st note s g (service_wf_unlocked _ Hs) Hg)
      as (r & hist & Hrun & Hno & _).
    exists r. eexists. split; [exact Hrun |]. split; [| by intros [? _]%Hno].
    apply InMemoryGoals_changed; [done | apply goal_wf_status, Hs, Hg].
  - intros now sid total s g Hs Hg. eexists.
    split; [exact (UpdateTokenUsage_run now sid total s g (service_wf_unlocked _ Hs) Hg) |].
    apply InMemoryGoals_changed; [done | apply goal_wf_usage, Hs, Hg].
  - intros now sid s g Hs Hg. eexists.
    split; [exact (IncrementContinuationCount_run now sid s g (service_wf_unlocked _ Hs) Hg) |].
    apply InMemoryGoals_changed; [done | apply goal_wf_continuation, Hs, Hg].
  - intros sid text s g Hs Hg.
    pose proof (RecordTurnHash_run sha256_hex sid text s g (service_wf_unlocked _ Hs) Hg) as Hrun.
    pose proof (goal_wf_turn sid g (ComputeTurnHash sha256_hex text) (Hs _ _ Hg)) as Hwf.
    destruct (turn_effect _ g) as [b g']. eexists. split; [exact Hrun |].
    by apply InMemoryGoals_changed.
Qed.
End InMemory.

(** ** Prompts *)

Definition BuildActivationPrompt (goal : option SessionGoal) : string :=
  match goal with
  | None => ""
  | Some goal => "
            **Active Goal**
            A session-scoped goal is now active with the following objective:
            <objective>" +:+ sg_Objective goal +:+ "</objective>

            **Your Behavior**
            - Treat the objective itself as your directive. Do NOT pause to ask the user what to do.
            - The system will automatically continue you if you stop before the goal is achieved.
            - When the goal is fully achieved, use the update_goal tool with status='complete'.
            - If you're genuinely blocked after repeated attempts, use update_goal with status='blocked'.

            **Completion Audit**
            Before declaring the goal complete, derive concrete requirements from the objective.
            For each requirement, identify authoritative evidence. Uncertain evidence means NOT achieved.
            "
  end.

(** The placeholder in the second line is not a format verb and is sent as it
    is. *)
Definition BuildCheckPrompt (goal : option SessionGoal) (iteration maxIterations : Z) : string :=
  match goal with
  | None => ""
  | Some goal =>
      let budgetLine :=
        if 0 <? sg_TokenBudget goal
        then "**Budget**: Used " +:+ Itoa (sg_TokensUsed goal) +:+ " / Budget " +:+
             Itoa (sg_TokenBudget goal) +:+ " / Remaining " +:+ Itoa (RemainingBudget goal)
        else "**Budget**: No limit set." in
      "
            **Goal Check — Continue Working**
            You were working toward this objective: <objective>{goal.Objective}</objective>

            1. REVIEW all work done so far
            2. DETERMINE whether the objective has been FULLY achieved
            3. If ACHIEVED → use update_goal tool with status='complete'
            4. If NOT ACHIEVED → CONTINUE working without asking the user

            " +:+ budgetLine +:+ "
            **Fidelity**: Optimize for movement toward the requested end state. Do NOT substitute easier solutions.
            **Blocked Audit**: Only mark blocked after 3+ consecutive turns with the same blocker.
            Iteration: " +:+ Itoa iteration +:+ "/" +:+ Itoa maxIterations +:+ "
            "
  end.

(** ** The agent *)

Definition InteractiveChannelIds : list string :=
  ["cli"; "tui"; "terminal"; "console"; "companion"; "websocket";
   "discord"; "slack"; "teams"; "telegram"; "signal"; "whatsapp"; "sms"].

Definition isInteractiveChannel (channelId : string) : bool :=
  bool_decide (channelId = "") || bool_decide (channelId ∈ InteractiveChannelIds).

Record ChatTurn := mkTurn { ct_Role : string; ct_Content : string }.

(** The fields of a [Session] the goal code reads. *)
Record Session := mkSession {
  se_Id : string; se_ChannelId : string;
  se_totalInputTokens : Z; se_totalOutputTokens : Z;
  se_History : list ChatTurn
}.

Definition GetTotalTokens (s : Session) : Z := wrap64 (se_totalInputTokens s + se_totalOutputTokens s).

Section Agent.
Context {S : Type} `{IGoalService S}.

Definition BuildGoalSystemPrompt (sessionId : string) : GoM S string :=
  goal ← svc_GetGoal sessionId;
  mret (match goal with
        | Ok goal => if IsPursuable (sg_Status goal) then BuildActivationPrompt (Some goal) else ""
        | Fail _ => ""
        end).

Definition UpdateGoalTokenUsage (now : Z) (session : Session) : GoM S (res ()) :=
  svc_UpdateTokenUsage now (se_Id session) (GetTotalTokens session).

(** [now n] is the n-th reading of the clock by the service during the call. *)
Definition EvaluateGoalContinuation (now : nat → Z) (session : option Session)
    (iteration maxIterations : Z) (modelResponseText : string) : GoM S string :=
  match session with
  | None => mret ""
  | Some session =>
      goal ← svc_GetGoal (se_Id session);
      match goal with
      | Fail _ => mret ""
      | Ok goal =>
          if negb (IsPursuable (sg_Status goal)) then mret ""
          else if negb (isInteractiveChannel (se_ChannelId session)) then mret ""
          else
            err ← svc_UpdateTokenUsage (now 0%nat) (se_Id session) (GetTotalTokens session);
            match err with
            | Fail _ => mret ""
            | Ok _ =>
                goal ← svc_GetGoal (se_Id session);
                match goal with
                | Fail _ => mret ""
                | Ok goal =>
                    if negb (IsPursuable (sg_Status goal)) then mret ""
                    else if IsBudgetExceeded goal then
                      _ ← svc_UpdateStatus (now 1%nat) (se_Id session) GoalStatus_BudgetLimited
                            "Token budget exceeded";
                      mret ""
                    else
                      continuationCount ← svc_IncrementContinuationCount (now 1%nat) (se_Id session);
                      if continuationCount =? 0 then mret ""
                      else if 10 <? continuationCount then
                        _ ← svc_UpdateStatus (now 2%nat) (se_Id session) GoalStatus_Paused
                              "Auto-paused after 10 continuations";
                        mret ""
                      else
                        isBlocked ← svc_RecordTurnHash (se_Id session)
                                      (NormalizeForComparison modelResponseText);
                        if isBlocked : bool then
                          _ ← svc_UpdateStatus (now 2%nat) (se_Id session) GoalStatus_Blocked
                                "Same blocker repeated 3+ consecutive turns";
                          mret ""
                        else if maxIterations <=? iteration then mret ""
                        else mret (BuildCheckPrompt (Some goal) iteration maxIterations)
                end
            end
      end
  end.

(** ** The update_goal tool *)

(** The fields of a [ToolExecutionContext] the tool reads; a missing turn
    context is dereferenced. *)
Record ToolExecutionContext := mkToolContext {
  tc_Session : option Session;
  tc_ToolCallCount : option Z
}.

(** The loop over the history from its end. *)
Definition latestAssistantTurn (s : Session) : option ChatTurn :=
  find (λ t, bool_decide (ct_Role t = "assistant")) (rev (se_History s)).

Definition tryVerifyCompletion (session : Session) (toolCallCount : Z) : bool :=
  if 0 <? toolCallCount then false
  else match latestAssistantTurn session with
       | None => false
       | Some t =>
           let content := TrimSpace (ct_Content t) in
           if decide (content = "") then false else negb (EqualFold content "[tool_use]")
       end.

Variable unmarshal : string → option (string * string).

Definition ExecuteContext (now : Z) (argumentsJson : string) (tc : ToolExecutionContext)
    : GoM S (res string) :=
  if decide (argumentsJson = "") then mret (Fail "Error: arguments payload is empty.")
  else match tc_Session tc with
  | None => mret (Fail "Error: ToolExecutionContext Session is empty.")
  | Some session =>
      match unmarshal argumentsJson with
      | None => mret (Fail "Error: arguments must be valid JSON.")
      | Some (status, note) =>
          if decide (status = "") then mret (Fail "Error: status is required.")
          else
            goal ← svc_GetGoal (se_Id session);
            match goal with
            | Fail _ => mret (Fail "Error: No active goal for this session.")
            | Ok goal =>
                if negb (IsPursuable (sg_Status goal))
                then mret (Fail ("Error: Goal is not active (current status: " +:+
                                 ToDisplayName (sg_Status goal) +:+ ")."))
                else if decide (status = "complete") then
                  match tc_ToolCallCount tc with
                  | None => λ _, Panic
                  | Some n =>
                      if negb (tryVerifyCompletion session n)
                      then mret (Fail "Warning: Cannot verify completion. The goal may not be fully achieved yet. Please continue working toward the objective and verify all requirements before declaring completion.")
                      else
                        r ← svc_UpdateStatus now (se_Id session) GoalStatus_Complete note;
                        mret (match r with
                              | Fail e => Fail e
                              | Ok _ => Ok "Goal marked as complete. Well done!"
                              end)
                  end
                else if decide (status = "blocked") then
                  r ← svc_UpdateStatus now (se_Id session) GoalStatus_Blocked note;
                  mret (match r with
                        | Fail e => Fail e
                        | Ok _ => Ok "Goal marked as blocked. The user can resume it with /goal resume."
                        end)
                else mret (Fail ("Error: Invalid status '" +:+ status +:+ "'. Use 'complete' or 'blocked'."))
            end
      end
  end.
End Agent.

(** ** Specification

    What one continuation check does to a goal, as a function on the goal:
    the prompt and the goal afterwards. *)
Definition continue_goal (hash_of : string → string) (now : nat → Z) (session : Session)
    (iteration maxIterations : Z) (text : string) (g : SessionGoal) : string * SessionGoal :=
  if negb (IsPursuable (sg_Status g)) || negb (isInteractiveChannel (se_ChannelId session)) then ("", g)
  else
    let g1 := usage_effect (now 0%nat) (GetTotalTokens session) g in
    let count := wrap64 (sg_ContinuationCount g + 1) in
    let g2 := set_continuation (now 1%nat) count g1 in
    let '(blocked, g3) := turn_effect (hash_of (NormalizeForComparison text)) g2 in
    if IsBudgetExceeded g1
    then ("", status_effect (now 1%nat) GoalStatus_BudgetLimited "Token budget exceeded" g1)
    else if count =? 0 then ("", g2)
    else if 10 <? count
    then ("", status_effect (now 2%nat) GoalStatus_Paused "Auto-paused after 10 continuations" g2)
    else if blocked : bool
    then ("", status_effect (now 2%nat) GoalStatus_Blocked "Same blocker repeated 3+ consecutive turns" g3)
    else if maxIterations <=? iteration then ("", g3)
    else (BuildCheckPrompt (Some g1) iteration maxIterations, g3).

(** One check of the agent: iteration, limit, response and clock. *)
Record Check_input := mkCheck {
  ci_now : nat → Z; ci_session : Session; ci_iteration : Z; ci_max : Z; ci_text : string
}.

(** Checks in a row on one service; the prompts they answer. *)
Fixpoint run_checks {S : Type} `{IGoalService S} (cs : list Check_input) : GoM S (list string) :=
  match cs with
  | [] => mret []
  | c :: cs =>
      p ← EvaluateGoalContinuation (ci_now c) (Some (ci_session c)) (ci_iteration c) (ci_max c) (ci_text c);
      ps ← run_checks cs;
      mret (p :: ps)
  end.

(** ** Lemmas *)

Lemma svc_changed_trans {S} `{GoalServiceView S} (s1 s2 s3 : S) sid g2 g3 :
  svc_changed s1 s2 sid g2 → svc_changed s2 s3 sid g3 → svc_changed s1 s3 sid g3.
Proof.
  intros (_ & _ & H12) (Hok & Hg & H23). split; [done |]. split; [done |].
  intros sid' Hne. by rewrite H23, H12.
Qed.

Section AgentProofs.
Context {S : Type} `{HL : GoalServiceLaws S hash_of}.

Lemma EvaluateGoalContinuation_run now session iteration maxIterations text s g :
  svc_ok s → svc_goal s (se_Id session) = Some g →
  ∃ s', EvaluateGoalContinuation now (Some session) iteration maxIterations text s =
    Done (fst (continue_goal hash_of now session iteration maxIterations text g), s') ∧
    svc_changed s s' (se_Id session)
      (snd (continue_goal hash_of now session iteration maxIterations text g)).
Proof.
  intros Hok Hg. set (sid := se_Id session) in *. unfold EvaluateGoalContinuation, continue_goal.
  assert (∀ s g, svc_ok s → svc_goal s sid = Some g → svc_GetGoal sid s = Done (Ok g, s)) as Hget.
  { intros s1 g1 Hs1 Hg1. destruct (law_GetGoal s1 sid Hs1) as (r & Hr & Hm). rewrite Hg1 in Hm. congruence. }
  rewrite (GoM_bind_done _ _ _ _ _ (Hget s g Hok Hg)).
  assert (svc_changed s s sid g) as Hrefl by done.
  destruct (IsPursuable (sg_Status g)) eqn:Hp; simpl; [| by exists s].
  destruct (isInteractiveChannel (se_ChannelId session)); simpl; [| by exists s].
  destruct (law_UpdateTokenUsage (now 0%nat) sid (GetTotalTokens session) s g Hok Hg) as (s1 & H1 & C1).
  rewrite (GoM_bind_done _ _ _ _ _ H1). pose proof C1 as (Hok1 & Hg1 & _).
  rewrite (GoM_bind_done _ _ _ _ _ (Hget s1 _ Hok1 Hg1)).
  set (g1 := usage_effect (now 0%nat) (GetTotalTokens session) g) in *.
  replace (sg_Status g1) with (sg_Status g) by done. rewrite Hp. simpl.
  destruct (turn_effect (hash_of (NormalizeForComparison text))
    (set_continuation (now 1%nat) (wrap64 (sg_ContinuationCount g + 1)) g1)) as [blocked g3] eqn:Ht.
  destruct (IsBudgetExceeded g1).
  { destruct (law_UpdateStatus (now 1%nat) sid GoalStatus_BudgetLimited "Token budget exceeded" s1 g1 Hok1 Hg1)
      as (r & s2 & H2 & C2 & _).
    rewrite (GoM_bind_done _ _ _ _ _ H2). exists s2. split; [done |]. by eapply svc_changed_trans. }
  destruct (law_IncrementContinuationCount (now 1%nat) sid s1 g1 Hok1 Hg1) as (s2 & H2 & C2).
  rewrite (GoM_bind_done _ _ _ _ _ H2). replace (sg_ContinuationCount g1) with (sg_ContinuationCount g) in * by done.
  pose proof C2 as (Hok2 & Hg2 & _). pose proof (svc_changed_trans _ _ _ _ _ _ C1 C2) as C12.
  destruct (_ =? 0); [by exists s2 |].
  destruct (10 <? _).
  { destruct (law_UpdateStatus (now 2%nat) sid GoalStatus_Paused "Auto-paused after 10 continuations" s2 _ Hok2 Hg2)
      as (r & s3 & H3 & C3 & _).
    rewrite (GoM_bind_done _ _ _ _ _ H3). exists s3. split; [done |]. by eapply svc_changed_trans. }
  destruct (law_RecordTurnHash sid (NormalizeForComparison text) s2 _ Hok2 Hg2) as (s3 & H3 & C3).
  rewrite Ht in H3, C3. simpl in H3, C3.
  rewrite (GoM_bind_done _ _ _ _ _ H3). pose proof C3 as (Hok3 & Hg3 & _).
  pose proof (svc_changed_trans _ _ _ _ _ _ C12 C3) as C13.
  destruct blocked.
  - destruct (law_UpdateStatus (now 2%nat) sid GoalStatus_Blocked "Same blocker repeated 3+ consecutive turns" s3 _ Hok3 Hg3)
      as (r & s4 & H4 & C4 & _).
    rewrite (GoM_bind_done _ _ _ _ _ H4). exists s4. split; [done |]. by eapply svc_changed_trans.
  - destruct (maxIterations <=? iteration); by exists s3.
Qed.
End AgentProofs.

(** What one check does to the count and to an inactive goal. *)
Lemma continue_goal_count hash_of now session iteration maxIterations text g :
  0 ≤ sg_ContinuationCount g < max_int64 →
  let '(p, g') := continue_goal hash_of now session iteration maxIterations text g in
  sg_ContinuationCount g ≤ sg_ContinuationCount g' ≤ sg_ContinuationCount g + 1 ∧
  (p ≠ "" → sg_Status g = GoalStatus_Active ∧ sg_ContinuationCount g < 10 ∧
     sg_ContinuationCount g' = sg_ContinuationCount g + 1).
Proof.
  unfold max_int64. intros Hc. unfold continue_goal, IsPursuable. case_bool_decide as Hact; simpl.
  2: { split; [lia | done]. }
  destruct (isInteractiveChannel (se_ChannelId session)); simpl; [| split; [lia | done]].
  rewrite wrap64_id by (unfold in_int64, min_int64, max_int64; lia).
  destruct (turn_effect _ _) as [blocked g3] eqn:Ht.
  assert (sg_ContinuationCount g3 = sg_ContinuationCount g + 1) as Hg3.
  { unfold turn_effect in Ht. repeat case_match; simplify_eq; done. }
  destruct (IsBudgetExceeded _). { unfold status_effect. case_match; (split; [simpl; lia | done]). }
  destruct (Z.eqb_spec (sg_ContinuationCount g + 1) 0); [lia |].
  destruct (Z.ltb_spec 10 (sg_ContinuationCount g + 1)).
  { unfold status_effect. case_match; (split; [simpl; lia | done]). }
  destruct blocked. { unfold status_effect. case_match; (split; [simpl; lia | done]). }
  destruct (maxIterations <=? iteration); (split; [lia |]); [done |].
  intros _. split; [done |]. split; [lia | done].
Qed.

(** ** Properties *)

(** C40: The agent's continuation check, run on any service that keeps the
    interface's promises, is exactly the function [continue_goal] of the
    session's goal: same prompt, that goal updated as it says, every other
    session untouched; without a goal it answers the empty prompt and changes
    nothing. *)
Theorem evaluate_refines_decision {S} `{HL : GoalServiceLaws S hash_of}
    now session iteration maxIterations text s :
  svc_ok s →
  match svc_goal s (se_Id session) with
  | Some g =>
      let '(prompt, g') := continue_goal hash_of now session iteration maxIterations text g in
      ∃ s', EvaluateGoalContinuation now (Some session) iteration maxIterations text s = Done (prompt, s') ∧
        svc_changed s s' (se_Id session) g'
  | None => EvaluateGoalContinuation now (Some session) iteration maxIterations text s = Done ("", s)
  end.
Proof.
  intros Hok. destruct (svc_goal s (se_Id session)) as [g |] eqn:Hg.
  - destruct (EvaluateGoalContinuation_run now session iteration maxIterations text s g Hok Hg) as (s' & Hrun & Hch).
    destruct (continue_goal _ _ _ _ _ _ g) as [p g']. by exists s'.
  - unfold EvaluateGoalContinuation. destruct (law_GetGoal s (se_Id session) Hok) as (r & Hr & Hm).
    rewrite Hg in Hm. rewrite (GoM_bind_done _ _ _ _ _ Hr). by destruct r.
Qed.

Definition example_session : Session :=
  mkSession "s1" "cli" 30 20 [mkTurn "user" "go"; mkTurn "assistant" "working on it"].

Lemma evaluate_refines_decision_witness :
  ∃ s', @EvaluateGoalContinuation _ (InMemoryGoals toy_hash append_ok) (λ _, 9) (Some example_session)
    1 5 "stuck" example_service = Done ("", s').
Proof.
  pose proof (@evaluate_refines_decision _ _ _ _ (InMemoryGoals_laws toy_hash append_ok) (λ _, 9)
    example_session 1 5 "stuck" example_service example_service_wf) as H.
  match type of H with match ?g with _ => _ end => destruct g eqn:Hg; [| discriminate Hg] end.
  vm_compute in Hg. injection Hg as <-.
  destruct (continue_goal _ _ _ _ _ _ _) as [p g'] eqn:Hc. vm_compute in Hc. injection Hc as <- <-.
  destruct H as (s' & Hrun & _). exists s'. exact Hrun.
Defined.

(** Auto-continuation is bounded.  However many checks run in a row on a
    session (whatever the responses, iteration numbers and token counts), as
    long as no new turn begins at most ten of them answer a continuation
    prompt, minus those already used. *)
Theorem at_most_ten_continuations {S} `{HL : GoalServiceLaws S hash_of} sid cs s g :
  svc_ok s → svc_goal s sid = Some g → 0 ≤ sg_ContinuationCount g →
  sg_ContinuationCount g + Z.of_nat (length cs) ≤ max_int64 →
  Forall (λ c, se_Id (ci_session c) = sid) cs →
  ∃ prompts s', run_checks cs s = Done (prompts, s') ∧ length prompts = length cs ∧
    Z.of_nat (length (filter (λ p, p ≠ "") prompts)) ≤ Z.max 0 (10 - sg_ContinuationCount g).
Proof.
  revert s g. induction cs as [| c cs IH]; intros s g Hok Hg Hc Hmax Hall.
  { exists [], s. split; [done |]. simpl. split; [done | lia]. }
  inversion Hall as [| ? ? Hsid Hall']; subst. simpl in Hmax. simpl.
  destruct (EvaluateGoalContinuation_run (ci_now c) (ci_session c) (ci_iteration c) (ci_max c) (ci_text c) s g Hok Hg)
    as (s1 & Hrun & Hok1 & Hg1 & _).
  pose proof (continue_goal_count hash_of (ci_now c) (ci_session c) (ci_iteration c) (ci_max c) (ci_text c) g
    ltac:(lia)) as Hcount.
  destruct (continue_goal _ _ _ _ _ _ g) as [p g1]. simpl in *. destruct Hcount as [Hle Hp].
  destruct (IH s1 g1 Hok1 Hg1 ltac:(lia) ltac:(lia) Hall') as (ps & s2 & Hruns & Hlen & Hps).
  exists (p :: ps), s2. rewrite (GoM_bind_done _ _ _ _ _ Hrun), (GoM_bind_done _ _ _ _ _ Hruns).
  split; [done |]. split; [simpl; lia |].
  destruct (decide (p ≠ "")) as [Hne | Hempty].
  - rewrite filter_cons_True by done. destruct (Hp Hne) as (_ & ? & ?). simpl. lia.
  - rewrite filter_cons_False by done. lia.
Qed.

Lemma at_most_ten_continuations_witness :
  ∃ prompts s', @run_checks _ (InMemoryGoals toy_hash append_ok)
      (replicate 30 (mkCheck (λ _, 9) example_session 1 5 "")) example_service = Done (prompts, s') ∧
    (length (filter (λ p, p ≠ "") prompts) ≤ 10)%nat.
Proof.
  destruct (@at_most_ten_continuations _ _ _ _ (InMemoryGoals_laws toy_hash append_ok) "s1"
    (replicate 30 (mkCheck (λ _, 9) example_session 1 5 "")) example_service
    (new_goal "s1" "ship it" 100 7)) as (ps & s' & Hrun & _ & Hle).
  - exact example_service_wf.
  - reflexivity.
  - simpl. lia.
  - vm_compute. discriminate.
  - apply Forall_replicate. reflexivity.
  - exists ps, s'. split; [exact Hrun |]. simpl in Hle. lia.
Defined.

(** The budget check is the wrong way round.  For an active goal with a
    token budget on an interactive channel, a check made while the usage is
    still within the budget answers no prompt and marks the goal
    budget-limited; once the budget is exceeded the check never does so. *)
Theorem budget_check_inverted hash_of now session iteration maxIterations text g :
  sg_Status g = GoalStatus_Active → isInteractiveChannel (se_ChannelId session) = true →
  0 < sg_TokenBudget g →
  let used := Z.max 0 (wrap64 (GetTotalTokens session - sg_TokensAtStart g)) in
  let '(prompt, g') := continue_goal hash_of now session iteration maxIterations text g in
  sg_TokensUsed g' = used ∧
  (used ≤ sg_TokenBudget g → prompt = "" ∧ sg_Status g' = GoalStatus_BudgetLimited) ∧
  (sg_TokenBudget g < used → sg_Status g' ≠ GoalStatus_BudgetLimited).
Proof.
  intros Hact Hch Hb used. unfold continue_goal. rewrite Hact, Hch. simpl.
  destruct (turn_effect _ _) as [blocked g3] eqn:Ht.
  assert (sg_TokensUsed g3 = used ∧ sg_Status g3 = GoalStatus_Active) as [Hu3 Hs3].
  { unfold turn_effect in Ht. repeat case_match; simplify_eq; done. }
  unfold IsBudgetExceeded. simpl. fold used. rewrite (proj2 (Z.ltb_lt _ _) Hb). simpl.
  destruct (Z.leb_spec used (sg_TokenBudget g)).
  { unfold status_effect, allowed_status. simpl. rewrite Hact. simpl. split; [done | split; [done | lia]]. }
  unfold status_effect, allowed_status. rewrite Hs3. simpl. rewrite Hact.
  repeat case_match; simplify_eq; simpl; (split; [done |]); (split; [lia |]); rewrite ?Hs3, ?Hact; done.
Qed.

Lemma budget_check_inverted_witness :
  sg_Status (snd (continue_goal toy_hash (λ _, 9) example_session 1 5 "" (new_goal "s1" "ship it" 100 7))) =
    GoalStatus_BudgetLimited.
Proof.
  pose proof (budget_check_inverted toy_hash (λ _, 9) example_session 1 5 "" (new_goal "s1" "ship it" 100 7)
    eq_refl eq_refl ltac:(simpl; lia)) as H.
  destruct (continue_goal _ _ _ _ _ _ _) as [p g'].
  destruct H as (_ & H & _). apply H. vm_compute. discriminate.
Defined.

(** The update_goal tool reports success only when it did its job: the
    session had an active goal, which is now complete or blocked with the given
    note, and for completion no tool was called this turn and the latest
    assistant message is not empty and not the tool marker. *)
Theorem update_goal_success_is_justified {S} `{HL : GoalServiceLaws S hash_of}
    unmarshal now json tc s answer s' :
  svc_ok s → ExecuteContext unmarshal now json tc s = Done (Ok answer, s') →
  ∃ session status note g,
    tc_Session tc = Some session ∧ unmarshal json = Some (status, note) ∧
    svc_goal s (se_Id session) = Some g ∧ sg_Status g = GoalStatus_Active ∧
    (status = "complete" ∧ tc_ToolCallCount tc ≠ None ∧
       tryVerifyCompletion session (default 0 (tc_ToolCallCount tc)) = true ∧
       svc_changed s s' (se_Id session) (set_status now GoalStatus_Complete note g) ∨
     status = "blocked" ∧
       svc_changed s s' (se_Id session) (set_status now GoalStatus_Blocked note g)).
Proof.
  intros Hok. unfold ExecuteContext.
  destruct (decide (json = "")); [intros; discriminate |].
  destruct (tc_Session tc) as [session |]; [| intros; discriminate].
  destruct (unmarshal json) as [[status note] |]; [| intros; discriminate].
  destruct (decide (status = "")); [intros; discriminate |].
  destruct (law_GetGoal s (se_Id session) Hok) as (r & Hr & Hm).
  rewrite (GoM_bind_done _ _ _ _ _ Hr).
  destruct r as [g0 | e]; [| intros; discriminate].
  destruct (svc_goal s (se_Id session)) as [g |] eqn:Hg; [| discriminate]. injection Hm as ->.
  unfold IsPursuable. case_bool_decide as Hact; simpl; [| intros; discriminate]. intros Hrun.
  assert (∀ st, st = GoalStatus_Complete ∨ st = GoalStatus_Blocked → ∃ r s1,
    svc_UpdateStatus now (se_Id session) st note s = Done (r, s1) ∧
    svc_changed s s1 (se_Id session) (set_status now st note g)) as Hupd.
  { intros st Hst. destruct (law_UpdateStatus now (se_Id session) st note s g Hok Hg) as (r & s1 & H1 & C1 & _).
    exists r, s1. split; [done |]. unfold status_effect, allowed_status in C1. rewrite Hact in C1.
    by destruct Hst as [-> | ->]. }
  exists session, status, note, g. do 4 (split; [done |]).
  destruct (decide (status = "complete")) as [-> |].
  - destruct (tc_ToolCallCount tc) as [calls |]; [| discriminate].
    destruct (tryVerifyCompletion session calls) eqn:Hv; simpl in *; [| discriminate].
    destruct (Hupd GoalStatus_Complete (or_introl eq_refl)) as (r & s1 & Hs1 & C1).
    rewrite (GoM_bind_done _ _ _ _ _ Hs1) in Hrun. destruct r; [| discriminate]. injection Hrun as <- <-.
    left. done.
  - destruct (decide (status = "blocked")) as [-> |]; [| discriminate].
    destruct (Hupd GoalStatus_Blocked (or_intror eq_refl)) as (r & s1 & Hs1 & C1).
    rewrite (GoM_bind_done _ _ _ _ _ Hs1) in Hrun. destruct r; [| discriminate]. injection Hrun as <- <-.
    right. done.
Qed.

Definition toy_unmarshal (json : string) : option (string * string) := Some (json, "noted").

Lemma update_goal_success_is_justified_witness :
  ∃ s', @ExecuteContext _ (InMemoryGoals toy_hash append_ok) toy_unmarshal 8 "complete"
      (mkToolContext (Some example_session) (Some 0)) example_service =
      Done (Ok "Goal marked as complete. Well done!", s') ∧
    gs_goals s' !! "s1" ≠ None.
Proof.
  destruct (@ExecuteContext _ (InMemoryGoals toy_hash append_ok) toy_unmarshal 8 "complete"
      (mkToolContext (Some example_session) (Some 0)) example_service) as [[[a | e] s'] | |] eqn:Hrun;
    [| vm_compute in Hrun; discriminate Hrun..].
  pose proof (@update_goal_success_is_justified _ _ _ _ (InMemoryGoals_laws toy_hash append_ok) toy_unmarshal 8
    "complete" (mkToolContext (Some example_session) (Some 0)) example_service a s' example_service_wf Hrun)
    as (ses & st & note & g & Hs & Hu & _ & _ & [(_ & _ & _ & Hch) | (Hst & _)]).
  - exists s'. split; [vm_compute in Hrun; injection Hrun as <- _; reflexivity |].
    injection Hs as <-. destruct Hch as (_ & Hg & _). simpl in Hg. rewrite Hg. discriminate.
  - injection Hu as <- _. discriminate Hst.
Defined.
