(* ===== verification/Tokenizer.v ===== *)
(** The GPT-2 byte-pair tokenizer: [2025/openai-tokenizer/encoder.go] and
    [common/util.go].

    The word being merged is a [list string] as in the code.  The merge ranks
    ([vocab], built from [vocab.bpe] by [createVocab]) and the token numbers
    ([encoder], decoded from [encoder.json]) are data files, so [encoder] is a
    parameter, and so are the Unicode classes of letters, numbers and white space
    the expression [encodingRegex] is made of; how it splits a text is
    [find_all].  The outer merge loop is given fuel; [bpe_loop] answers [None]
    when it runs out, which [bpe_loop_refines] shows it does not. *)

From S2P Require Import Prelude GoStrings Utf8.
From stdpp Require Import sorting.
Local Open Scope string_scope.

(** ** Strings *)

(** [strings.Join(ws, sep)] *)
Fixpoint Join (ws : list string) (sep : string) : string :=
  match ws with
  | [] => ""
  | [w] => w
  | w :: ws => w +:+ sep +:+ Join ws sep
  end.

(** [strings.Split(s, "")]: one string per rune. *)
Fixpoint explode_bytes (fuel : nat) (l : bytes) : list bytes :=
  match fuel with
  | O => []
  | S fuel =>
      match decode_rune l with
      | None => []
      | Some (_, r) => take (length l - length r) l :: explode_bytes fuel r
      end
  end.
Definition explode (s : string) : list string :=
  of_bytes <$> explode_bytes (String.length s) (to_bytes s).

(** ** [common/util.go] *)

Definition IndexArrayWithOffset (array : list string) (first : string) (offset : nat) : option nat :=
  if decide (length array < offset)%nat then None
  else match list_find (λ a, a = first) (drop offset array) with
       | Some (i, _) => Some (i + offset)%nat
       | None => None
       end.

(** ** [encodingRegex] and [Regexp2FindAllString]

    The alternatives are tried in their order at the front of the runes that are
    left; each answers how many it takes.  A repetition takes all it can and gives
    runes back only before the end of white space that something follows. *)
Section Split.
Context (letter number space : N → bool).

Fixpoint run (p : N → bool) (rs : list N) : nat :=
  match rs with
  | r :: rs => if p r then S (run p rs) else 0
  | [] => 0
  end.

(** [p+] *)
Definition plus (p : N → bool) (rs : list N) : option nat := match run p rs with O => None | n => Some n end.

(** [ ?p+] *)
Definition spaced (p : N → bool) (rs : list N) : option nat :=
  match rs with
  | r :: rest => if (r =? 32)%N then match plus p rest with Some n => Some (S n) | None => plus p rs end else plus p rs
  | [] => None
  end.

Definition contractions : list (list N) := runes <$> ["'s"; "'t"; "'re"; "'ve"; "'m"; "'ll"; "'d"].
Definition contraction (rs : list N) : option nat :=
  length <$> List.find (λ c, bool_decide (c `prefix_of` rs)) contractions.

(** [[^\s\p{L}\p{N}]] *)
Definition other (r : N) : bool := negb (space r) && negb (letter r) && negb (number r).

(** [\s+(?!\S)] *)
Definition trailing_space (rs : list N) : option nat :=
  let n := run space rs in
  match drop n rs with
  | [] => plus space rs
  | _ => if decide (1 < n)%nat then Some (n - 1)%nat else None
  end.

Definition match_front (rs : list N) : option nat :=
  contraction rs ∪ spaced letter rs ∪ spaced number rs ∪ spaced other rs ∪ trailing_space rs ∪ plus space rs.

(** The matches one after another; a rune none begins at is passed over. *)
Fixpoint find_runes (fuel : nat) (rs : list N) : list (list N) :=
  match fuel, rs with
  | S fuel, _ :: rest =>
      match match_front rs with
      | Some n => take n rs :: find_runes fuel (drop n rs)
      | None => find_runes fuel rest
      end
  | _, _ => []
  end.
Definition find_all (text : string) : list string := of_runes <$> find_runes (length (runes text)) (runes text).
End Split.

(** ** Data *)

Abbreviation vacabItem := (string * string)%type.
Abbreviation Vocab := (gmap vacabItem Z).

(** [createVocab] on the text of [vocab.bpe]: the first line is skipped, blank
    lines are dropped and a line without a space panics. *)
Fixpoint add_ranks (raws : list string) (i : Z) (vocab : Vocab) : go Vocab :=
  match raws with
  | [] => Done vocab
  | raw :: raws =>
      match Split raw (byte 32) with
      | x :: y :: _ => add_ranks raws (i + 1) (<[(x, y) := i]> vocab)
      | _ => Panic
      end
  end.

Definition createVocab (text : string) : go Vocab :=
  match Split text (byte 10) with
  | [] => Panic
  | _ :: raws => add_ranks (filter (λ s, TrimSpace s ≠ "") raws) 0 ∅
  end.

(** [initiByteEncoderAndDecoder]: the printable bytes stand for themselves, the
    others for the runes from 256 on. *)
Definition rune_range (lo hi : N) : list N := (λ i, lo + N.of_nat i)%N <$> seq 0 (N.to_nat (hi + 1 - lo)).

Definition printable : list N := rune_range 33 126 ++ rune_range 161 172 ++ rune_range 174 255.

Fixpoint add_unprintable (bs : list N) (n : N) (acc : list N * list N) : list N * list N :=
  match bs with
  | [] => acc
  | b :: bs =>
      let '(l, l2) := acc in
      if decide (b ∈ l) then add_unprintable bs n acc
      else add_unprintable bs (n + 1) (l ++ [b], l2 ++ [256 + n]%N)%list
  end.

Definition byte_pairs : list (N * N) :=
  let '(l, l2) := add_unprintable (rune_range 0 255) 0 (printable, printable) in zip l l2.

Definition byte_encoder : gmap N string :=
  foldl (λ m p, <[fst p := of_runes [snd p]]> m) ∅ byte_pairs.
Definition byte_decoder : gmap string N :=
  foldl (λ m p, <[of_runes [snd p] := fst p]> m) ∅ byte_pairs.

(** ** Byte-pair encoding *)

Fixpoint pairs_loop (prevChar : string) (word : list string) (result : gmap string (list string))
    : gmap string (list string) :=
  match word with
  | [] => result
  | curr :: word =>
      pairs_loop curr word
        (<[prevChar := (default [] (result !! prevChar) ++ [curr])%list]> result)
  end.

Definition getPairs (word : list string) : go (gmap string (list string)) :=
  match word with
  | [] => Panic
  | p :: word => Done (pairs_loop p word ∅)
  end.

Definition no_rank : Z := 100000000000.

(** [bpeCache] is a global map. *)
Abbreviation Cache := (gmap string string).

Section Bpe.
Variable vocab : Vocab.

(** The candidate pairs by rank; all unranked pairs share one key. *)
Definition add_candidate (v : vacabItem) (minPairs : gmap Z vacabItem) : gmap Z vacabItem :=
  <[default no_rank (vocab !! v) := v]> minPairs.

Definition minPairs (pairs : gmap string (list string)) : gmap Z vacabItem :=
  foldr (λ kp acc, foldr (λ p acc, add_candidate (fst kp, p) acc) acc (snd kp)) ∅ (map_to_list pairs).

(** [sort.Ints] and the first key. *)
Definition minKey (m : gmap Z vacabItem) : option Z :=
  head (merge_sort Z.le ((map_to_list m).*1)).

(** The loop that rebuilds the word, from index [i] on. *)
Fixpoint merge_loop (fuel : nat) (word : list string) (first second : string) (i : nat)
    (newWord : list string) : list string :=
  match fuel with
  | O => newWord
  | S fuel =>
      if decide (length word ≤ i)%nat then newWord
      else match IndexArrayWithOffset word first i with
           | None => (newWord ++ drop i word)%list
           | Some j =>
               let newWord := (newWord ++ take (j - i) (drop i word))%list in
               if decide (word !! j = Some first ∧ (j < length word - 1)%nat ∧ word !! (S j) = Some second)
               then merge_loop fuel word first second (j + 2) (newWord ++ [first +:+ second])%list
               else merge_loop fuel word first second (j + 1)
                      (newWord ++ option_list (word !! j))%list
           end
  end.

(** The outer loop; [Panic] for an empty list of candidates. *)
Fixpoint bpe_loop (fuel : nat) (word : list string) (pairs : gmap string (list string))
    : option (go (list string)) :=
  match fuel with
  | O => None
  | S fuel =>
      let mp := minPairs pairs in
      match minKey mp with
      | None => Some Panic
      | Some k =>
          let biGram := default ("", "") (mp !! k) in
          match vocab !! biGram with
          | None => finish word
          | Some _ =>
              let word := merge_loop (S (length word)) word (fst biGram) (snd biGram) 0 [] in
              if decide (length word = 1%nat) then finish word
              else pairs ←! Some (getPairs word); bpe_loop fuel word pairs
          end
      end
  end.

(** Without the cache. *)
Definition bpe_compute (token : string) : option (go string) :=
  let word := explode token in
  pairs ←! Some (getPairs word);
  if decide (pairs = ∅) then finish token
  else word ←! bpe_loop (length word) word pairs; finish (Join word " ").

Definition bytePairEncoding (token : string) (cache : Cache) : option (go (string * Cache)) :=
  match cache !! token with
  | Some v => finish (v, cache)
  | None => r ←! bpe_compute token; finish (r, <[token := r]> cache)
  end.

(** ** Encoding and decoding *)

Variable encoder : gmap string Z.
Variables letter number space : N → bool.

(** [decoder[v] = k] for every entry, in the order of the map's iteration. *)
Definition decoder : gmap Z string :=
  foldr (λ kv m, <[snd kv := fst kv]> m) ∅ (map_to_list encoder).

(** A missing map entry reads as the zero value. *)
Definition byte_token (match_ : string) : string :=
  Join ((λ c, default "" (byte_encoder !! code c)) <$> to_bytes match_) "".

Fixpoint encode_matches (matches : list string) (cache : Cache) : option (go (list Z * Cache)) :=
  match matches with
  | [] => finish ([], cache)
  | match_ :: matches =>
      '(r, cache) ←! bytePairEncoding (byte_token match_) cache;
      '(ts, cache) ←! encode_matches matches cache;
      finish (((λ v, default 0%Z (encoder !! v)) <$> Split r (byte 32)) ++ ts, cache)%list
  end.

Definition Encode (text : string) (cache : Cache) : option (go (list Z * Cache)) :=
  if decide (text = "") then finish ([], cache) else encode_matches (find_all letter number space text) cache.

Definition Decode (tokens : list Z) : string :=
  let text := Join ((λ t, default "" (decoder !! t)) <$> tokens) "" in
  of_bytes ((λ s, byte (default 0%N (byte_decoder !! s) mod 256)) <$> explode text).
End Bpe.

Local Open Scope list_scope.

(** ** Specification *)

(** The adjacent pairs of a word. *)
Definition adjacents (word : list string) : list vacabItem := zip word (tail word).

(** All non-overlapping occurrences of [x y], from the left, merged. *)
Fixpoint merge_ref (x y : string) (w : list string) : list string :=
  match w with
  | [] => []
  | a :: t =>
      match t with
      | [] => [a]
      | b :: t' => if decide (a = x ∧ b = y) then (x +:+ y) :: merge_ref x y t'
                   else a :: merge_ref x y t
      end
  end.

(** Byte-pair encoding as a rewriting relation: as long as an adjacent pair has
    a rank, merge everywhere one whose rank is least. *)
Inductive bpe_reduces (vocab : Vocab) : list string → list string → Prop :=
  | bpe_done w : (∀ v, v ∈ adjacents w → vocab !! v = None) → bpe_reduces vocab w w
  | bpe_merge w x y r w' :
      (x, y) ∈ adjacents w → vocab !! (x, y) = Some r →
      (∀ v r', v ∈ adjacents w → vocab !! v = Some r' → (r ≤ r')%Z) →
      bpe_reduces vocab (merge_ref x y w) w' → bpe_reduces vocab w w'.

(** Ranks are line numbers, far below the sentinel. *)
Definition ranks_ok (vocab : Vocab) : Prop := ∀ v r, vocab !! v = Some r → (0 ≤ r < no_rank)%Z.

(** ** Lemmas on strings *)

Lemma to_bytes_Join_empty ws : to_bytes (Join ws "") = concat (to_bytes <$> ws).
Proof.
  induction ws as [| w ws IH]; [done |]. destruct ws as [| w' ws].
  - simpl. by rewrite app_nil_r.
  - change (Join (w :: w' :: ws) "") with (w +:+ "" +:+ Join (w' :: ws) "").
    rewrite !to_bytes_append, IH. done.
Qed.

Lemma to_bytes_Join_sep ws c :
  to_bytes (Join ws (String c EmptyString)) = join_bytes c (to_bytes <$> ws).
Proof.
  induction ws as [| w ws IH]; [done |]. destruct ws as [| w' ws]; [done |].
  change (Join (w :: w' :: ws) (String c EmptyString))
    with (w +:+ String c EmptyString +:+ Join (w' :: ws) (String c EmptyString)).
  rewrite !to_bytes_append, IH. done.
Qed.

Lemma split_join_bytes sep ws : ws ≠ [] → Forall (λ w, sep ∉ w) ws →
  split_bytes sep (join_bytes sep ws) = ws.
Proof.
  induction ws as [| w ws IH]; [done |]. intros _ Hall. inversion Hall; subst.
  destruct ws as [| w' ws]; simpl; [by apply split_bytes_none |].
  rewrite split_bytes_app by done. f_equal. by apply IH.
Qed.

Lemma Split_Join ws c : ws ≠ [] → Forall (λ w, c ∉ to_bytes w) ws →
  Split (Join ws (String c EmptyString)) c = ws.
Proof.
  intros Hne Hall. unfold Split. rewrite to_bytes_Join_sep, split_join_bytes.
  - rewrite <- list_fmap_compose. rewrite <- (list_fmap_id ws) at 2.
    apply list_fmap_ext. intros i w _. simpl. apply of_bytes_to_bytes.
  - by destruct ws.
  - by apply Forall_fmap.
Qed.

(** A byte string that is read as one rune wherever it starts. *)
Definition one_rune (u : bytes) : Prop := u ≠ [] ∧ ∀ rest, ∃ r, decode_rune (u ++ rest) = Some (r, rest).

Lemma explode_bytes_concat us : ∀ fuel,
  Forall one_rune us → (length (concat us) ≤ fuel)%nat → explode_bytes fuel (concat us) = us.
Proof.
  induction us as [| u us IH]; intros fuel Hall Hlen; [by destruct fuel |].
  inversion Hall as [| ? ? [Hne Hdec] Hall']; subst. simpl in *. rewrite length_app in Hlen.
  destruct u as [| c u]; [done |]. destruct fuel as [| fuel]; [simpl in Hlen; lia |].
  destruct (Hdec (concat us)) as [r Hr]. cbn [explode_bytes]. rewrite Hr.
  f_equal; [| apply IH; [done | simpl in Hlen; lia]].
  rewrite length_app, Nat.add_sub. by rewrite take_app_length.
Qed.

Lemma explode_concat us : Forall one_rune us →
  explode (of_bytes (concat us)) = of_bytes <$> us.
Proof.
  intros H. unfold explode. rewrite to_bytes_of_bytes, <- to_bytes_length, to_bytes_of_bytes.
  by rewrite explode_bytes_concat.
Qed.

(** ** Lemmas on the merge *)

Lemma list_find_first (x : string) (l : list string) :
  match list_find (λ a, a = x) l with
  | Some (i, _) => l !! i = Some x ∧ x ∉ take i l
  | None => x ∉ l
  end.
Proof.
  destruct (list_find (λ a, a = x) l) as [[i a] |] eqn:Hf.
  - apply list_find_Some in Hf as (Hi & -> & Hbefore). split; [done |].
    intros (j & Hj)%list_elem_of_lookup. apply lookup_take_Some in Hj as [Hj Hlt].
    exact (Hbefore j x Hj Hlt eq_refl).
  - apply list_find_None in Hf. intros Hin. rewrite Forall_forall in Hf. by apply (Hf x).
Qed.

Lemma merge_ref_skip x y pre w : x ∉ pre → merge_ref x y (pre ++ w) = pre ++ merge_ref x y w.
Proof.
  induction pre as [| a pre IH]; intros Hnot; [done |]. simpl app.
  assert (merge_ref x y (pre ++ w) = pre ++ merge_ref x y w) as IH' by (apply IH; set_solver).
  destruct (pre ++ w) as [| b t] eqn:Hpw; simpl.
  - apply app_nil in Hpw as [-> ->]. done.
  - rewrite decide_False by set_solver. by rewrite <- IH'.
Qed.

Lemma merge_ref_none x y w : x ∉ w → merge_ref x y w = w.
Proof. intros H. rewrite <- (app_nil_r w) at 1. rewrite merge_ref_skip by done. apply app_nil_r. Qed.

(** The index loop is the structural merge of what is left of the word. *)
Lemma merge_loop_ref word x y : ∀ fuel i nw, (length word < fuel + i)%nat →
  merge_loop fuel word x y i nw = nw ++ merge_ref x y (drop i word).
Proof.
  induction fuel as [| fuel IH]; intros i nw Hfuel; cbn [merge_loop].
  { rewrite drop_ge by lia. simpl. by rewrite app_nil_r. }
  case_decide as Hi; [rewrite drop_ge by lia; simpl; by rewrite app_nil_r |].
  unfold IndexArrayWithOffset. rewrite decide_False by lia.
  pose proof (list_find_first x (drop i word)) as Hfind.
  destruct (list_find (λ a, a = x) (drop i word)) as [[k a] |].
  2: { by rewrite merge_ref_none. }
  destruct Hfind as [Hk Hnot]. rewrite lookup_drop in Hk.
  replace (k + i - i)%nat with k by lia. replace (k + i)%nat with (i + k)%nat by lia.
  assert (drop i word = take k (drop i word) ++ x :: drop (S (i + k)) word) as Hsplit.
  { rewrite <- (take_drop k (drop i word)) at 1. f_equal.
    rewrite drop_drop. by apply drop_S. }
  rewrite Hsplit, merge_ref_skip by done. rewrite <- Hsplit.
  set (pre := take k (drop i word)).
  destruct (decide (word !! (i + k)%nat = Some x ∧ (i + k < length word - 1)%nat ∧
                    word !! S (i + k) = Some y)) as [(_ & Hlt & Hy) | Hno].
  - rewrite IH by lia. rewrite (drop_S _ _ _ Hy). simpl. rewrite decide_True by done.
    rewrite <- !app_assoc. simpl. by replace (i + k + 2)%nat with (S (S (i + k))) by lia.
  - rewrite IH by lia. rewrite Hk. replace (i + k + 1)%nat with (S (i + k)) by lia. simpl.
    rewrite <- !app_assoc. f_equal. simpl.
    destruct (drop (S (i + k)) word) as [| b t] eqn:Hd; [done |].
    rewrite decide_False; [done |]. intros [_ ->]. apply Hno. split; [done |].
    assert (word !! S (i + k) = Some y) as Hy.
    { rewrite <- (Nat.add_0_r (S (i + k))), <- lookup_drop. by rewrite Hd. }
    split; [| done]. apply lookup_lt_Some in Hy. lia.
Qed.

Lemma merge_ref_cons2 x y a b t :
  merge_ref x y (a :: b :: t) =
    if decide (a = x ∧ b = y) then (x +:+ y) :: merge_ref x y t else a :: merge_ref x y (b :: t).
Proof. done. Qed.

Lemma merge_ref_length x y w :
  (length (merge_ref x y w) ≤ length w)%nat ∧
  ((x, y) ∈ adjacents w → (length (merge_ref x y w) < length w)%nat).
Proof.
  induction w as [w IH] using (induction_ltof1 _ (@length string)). unfold ltof in IH.
  destruct w as [| a [| b t]]; [split; [done | by intros ?%elem_of_nil] | |].
  { split; [done |]. by intros ?%elem_of_nil. }
  rewrite merge_ref_cons2. case_decide as Hab.
  - destruct (IH t) as [Hle _]; [simpl; lia |]. simpl. split; intros; lia.
  - destruct (IH (b :: t)) as [Hle Hlt]; [simpl; lia |]. cbn [length] in *.
    split; [lia |]. change (adjacents (a :: b :: t)) with ((a, b) :: adjacents (b :: t)).
    intros [Heq | Hin]%elem_of_cons; [naive_solver |]. specialize (Hlt Hin). lia.
Qed.

Lemma merge_ref_nonempty x y w : w ≠ [] → merge_ref x y w ≠ [].
Proof. destruct w as [| a [| b t]]; simpl; [done | done |]. by case_decide. Qed.

Lemma merge_ref_concat x y w : concat (to_bytes <$> merge_ref x y w) = concat (to_bytes <$> w).
Proof.
  induction w as [w IH] using (induction_ltof1 _ (@length string)). unfold ltof in IH.
  destruct w as [| a [| b t]]; [done | done |]. rewrite merge_ref_cons2. case_decide as Hab.
  - destruct Hab as [-> ->]. cbn. rewrite IH by (simpl; lia). by rewrite to_bytes_append, app_assoc.
  - rewrite !fmap_cons. cbn [concat]. rewrite (IH (b :: t)) by (simpl; lia). done.
Qed.

(** ** Lemmas on the choice of the pair *)

Lemma pairs_loop_spec x y : ∀ word prev acc,
  (∃ l, pairs_loop prev word acc !! x = Some l ∧ y ∈ l) ↔
  (∃ l, acc !! x = Some l ∧ y ∈ l) ∨ (x, y) ∈ zip (prev :: word) word.
Proof.
  induction word as [| c word IH]; intros prev acc; simpl.
  { rewrite elem_of_nil. naive_solver. }
  rewrite IH, elem_of_cons. destruct (decide (x = prev)) as [-> | Hne].
  - rewrite lookup_insert_eq. destruct (acc !! prev) as [l0 |]; simpl; split.
    + intros [(l & [= <-] & [? | ->%list_elem_of_singleton]%elem_of_app) | ?]; eauto.
    + intros [(l & [= <-] & ?) | [[= ->] | ?]]; [left | left | by right];
        (eexists; split; [reflexivity |]); set_solver.
    + intros [(l & [= <-] & ->%list_elem_of_singleton) | ?]; eauto.
    + intros [(l & ? & ?) | [[= ->] | ?]]; [done | left | by right].
      eexists; split; [reflexivity |]. set_solver.
  - rewrite lookup_insert_ne by done. split; [naive_solver |].
    intros [? | [[= -> _] | ?]]; [by left | done | by right].
Qed.

(** The candidates, one by one. *)
Definition candidates (pairs : gmap string (list string)) : list vacabItem :=
  '(k, ps) ← map_to_list pairs; (λ p, (k, p)) <$> ps.

Lemma elem_of_candidates pairs x y :
  (x, y) ∈ candidates pairs ↔ ∃ l, pairs !! x = Some l ∧ y ∈ l.
Proof.
  unfold candidates. rewrite list_elem_of_bind. split.
  - intros ([k ps] & (p & [= -> ->] & Hp)%list_elem_of_fmap & Hin%elem_of_map_to_list). eauto.
  - intros (l & Hl & Hy). exists (x, l). split; [| by apply elem_of_map_to_list].
    apply list_elem_of_fmap. eauto.
Qed.

Lemma minPairs_candidates vocab pairs :
  minPairs vocab pairs = foldr (add_candidate vocab) ∅ (candidates pairs).
Proof.
  unfold minPairs, candidates. induction (map_to_list pairs) as [| [k ps] l IH]; [done |].
  rewrite bind_cons, foldr_app, <- IH. simpl.
  set (acc := foldr _ ∅ l). clearbody acc. clear.
  induction ps as [| p ps IH]; [done |]. simpl. by rewrite IH.
Qed.

Lemma add_candidates_spec vocab l k v :
  foldr (add_candidate vocab) ∅ l !! k = Some v → v ∈ l ∧ k = default no_rank (vocab !! v).
Proof.
  induction l as [| w l IH]; simpl; [done |]. unfold add_candidate at 1.
  rewrite lookup_insert. case_decide as Hk; [intros [= ->]; split; [by left | done] |].
  intros [Hin ?]%IH. split; [by right | done].
Qed.

Lemma add_candidates_total vocab l v :
  v ∈ l → is_Some (foldr (add_candidate vocab) ∅ l !! default no_rank (vocab !! v)).
Proof.
  induction l as [| w l IH]; simpl; [by intros ?%elem_of_nil |].
  unfold add_candidate at 1. rewrite lookup_insert.
  intros [-> | Hin]%elem_of_cons; case_decide; eauto; done.
Qed.

Lemma minKey_spec (m : gmap Z vacabItem) :
  match minKey m with
  | Some k => is_Some (m !! k) ∧ ∀ k', is_Some (m !! k') → (k ≤ k')%Z
  | None => m = ∅
  end.
Proof.
  assert (∀ k, k ∈ merge_sort Z.le (map_to_list m).*1 ↔ is_Some (m !! k)) as Hin.
  { intros k. rewrite (merge_sort_Permutation Z.le), list_elem_of_fmap. split.
    - intros ([k' v] & -> & ?%elem_of_map_to_list). by eexists.
    - intros [v Hv]. exists (k, v). split; [done |]. by apply elem_of_map_to_list. }
  pose proof (StronglySorted_merge_sort Z.le (map_to_list m).*1) as Hsort.
  unfold minKey. destruct (merge_sort Z.le _) as [| k l]; simpl.
  - apply map_empty. intros i. destruct (m !! i) as [v |] eqn:Hi; [| done].
    pose proof (proj2 (Hin i) ltac:(by eexists)) as Hnil. by apply elem_of_nil in Hnil.
  - split; [apply Hin; by left |]. intros k' [-> | Hk']%Hin%elem_of_cons; [lia |].
    inversion Hsort as [| ? ? _ Hall]; subst. rewrite Forall_forall in Hall. by apply Hall.
Qed.

(** ** The encoder refines the rewriting relation *)

Section BpeProofs.
Variable vocab : Vocab.
Hypothesis Hranks : ranks_ok vocab.

(** The pair the code picks: unranked only if every adjacent pair is, and of
    least rank otherwise. *)
Lemma pick_spec word pairs :
  getPairs word = Done pairs → adjacents word ≠ [] →
  ∃ k, minKey (minPairs vocab pairs) = Some k ∧
    let v := default ("", "") (minPairs vocab pairs !! k) in
    v ∈ adjacents word ∧
    match vocab !! v with
    | None => ∀ v', v' ∈ adjacents word → vocab !! v' = None
    | Some r => ∀ v' r', v' ∈ adjacents word → vocab !! v' = Some r' → (r ≤ r')%Z
    end.
Proof.
  intros Hpairs Hne. destruct word as [| p word]; [done |]. injection Hpairs as <-.
  assert (∀ v, v ∈ adjacents (p :: word) ↔ v ∈ candidates (pairs_loop p word ∅)) as Hadj.
  { intros [x y]. rewrite elem_of_candidates, pairs_loop_spec. unfold adjacents. simpl.
    split; [by right |]. intros [(l & Hl & _) | ?]; [by rewrite lookup_empty in Hl | done]. }
  rewrite minPairs_candidates. set (cs := candidates _) in *.
  pose proof (minKey_spec (foldr (add_candidate vocab) ∅ cs)) as Hmin.
  destruct (minKey _) as [k |].
  2: { exfalso. destruct (adjacents (p :: word)) as [| v l]; [done |].
       destruct (add_candidates_total vocab cs v) as [? Hv]; [apply Hadj; by left |].
       by rewrite Hmin, lookup_empty in Hv. }
  destruct Hmin as [[v Hv] Hleast]. exists k. split; [done |]. rewrite Hv. simpl.
  apply add_candidates_spec in Hv as [Hin ->]. split; [by apply Hadj |].
  destruct (vocab !! v) as [r |] eqn:Hr; simpl in *.
  - intros v' r' Hv' Hr'. apply Hleast.
    pose proof (add_candidates_total vocab cs v' (proj1 (Hadj v') Hv')) as H. by rewrite Hr' in H.
  - intros v' Hv'. destruct (vocab !! v') as [r' |] eqn:Hr'; [| done].
    pose proof (add_candidates_total vocab cs v' (proj1 (Hadj v') Hv')) as H. rewrite Hr' in H.
    specialize (Hleast _ H). simpl in Hleast. specialize (Hranks _ _ Hr'). lia.
Qed.

Lemma adjacents_nonempty word : (1 < length word)%nat → adjacents word ≠ [].
Proof. destruct word as [| a [| b w]]; simpl; [lia | lia | done]. Qed.

Lemma bpe_loop_refines : ∀ fuel word pairs,
  (length word ≤ fuel)%nat → (1 < length word)%nat → getPairs word = Done pairs →
  ∃ w', bpe_loop vocab fuel word pairs = finish w' ∧ bpe_reduces vocab word w'.
Proof.
  induction fuel as [| fuel IH]; intros word pairs Hfuel Hlen Hpairs; [lia |].
  destruct (pick_spec word pairs Hpairs (adjacents_nonempty _ Hlen)) as (k & Hk & Hadj & Hbest).
  cbn [bpe_loop]. rewrite Hk. set (v := default ("", "") (minPairs vocab pairs !! k)) in *.
  destruct (vocab !! v) as [r |] eqn:Hr; [| exists word; split; [done | by constructor]].
  rewrite merge_loop_ref by lia. rewrite drop_0. simpl app.
  destruct v as [x y]. cbn [fst snd]. destruct (merge_ref_length x y word) as [_ Hless].
  specialize (Hless Hadj).
  assert (∀ w', bpe_reduces vocab (merge_ref x y word) w' → bpe_reduces vocab word w') as Hstep.
  { intros w' Hw'. by apply (bpe_merge _ _ x y r). }
  pose proof (merge_ref_nonempty x y word ltac:(by destruct word)) as Hne.
  case_decide as Hone.
  - eexists. split; [done |]. apply Hstep. constructor. unfold adjacents.
    destruct (merge_ref x y word) as [| a [| b w]]; [done | by intros v ?%elem_of_nil | done].
  - destruct (merge_ref x y word) as [| a w] eqn:Hw; [done |]. cbn [fueled_bind getPairs].
    destruct (IH (a :: w) (pairs_loop a w ∅)) as (w' & Hrun & Hred).
    + lia.
    + cbn [length] in *. destruct w; simpl in *; lia.
    + done.
    + exists w'. auto.
Qed.

Lemma pairs_loop_empty p word : pairs_loop p word ∅ = ∅ ↔ word = [].
Proof.
  split; [| by intros ->]. intros Hemp. destruct word as [| c word]; [done |].
  destruct (proj2 (pairs_loop_spec p c (c :: word) p ∅)) as (l & Hl & _).
  - right. simpl. by left.
  - by rewrite Hemp, lookup_empty in Hl.
Qed.

(** The uncached encoder on a non-empty token. *)
Lemma bpe_compute_refines token :
  explode token ≠ [] → Join (explode token) "" = token →
  ∃ w', bpe_compute vocab token = finish (Join w' " ") ∧ bpe_reduces vocab (explode token) w'.
Proof.
  intros Hne Hjoin. unfold bpe_compute. destruct (explode token) as [| p word] eqn:Hw; [done |].
  cbn [getPairs fueled_bind]. case_decide as Hemp.
  - apply pairs_loop_empty in Hemp as ->. exists [p]. simpl in *. subst p. split; [done |].
    constructor. by intros v ?%elem_of_nil.
  - assert (word ≠ []) as Hword by (intros ->; by apply Hemp, pairs_loop_empty).
    destruct (bpe_loop_refines (length (p :: word)) (p :: word) (pairs_loop p word ∅)) as (w' & Hrun & Hred).
    + lia.
    + destruct word; simpl; [done | lia].
    + done.
    + exists w'. by rewrite Hrun.
Qed.

Lemma bpe_reduces_concat w w' : bpe_reduces vocab w w' →
  concat (to_bytes <$> w') = concat (to_bytes <$> w) ∧ (w ≠ [] → w' ≠ []).
Proof.
  induction 1 as [| w x y r w' _ _ _ _ [IH1 IH2]]; [done |].
  rewrite IH1, merge_ref_concat. split; [done |]. intros Hne. by apply IH2, merge_ref_nonempty.
Qed.

(** Whatever holds of the pieces of the word and of every ranked merge holds of
    the pieces of the result. *)
Lemma bpe_reduces_pieces (P : string → Prop) w w' :
  (∀ x y r, vocab !! (x, y) = Some r → P x → P y → P (x +:+ y)) →
  bpe_reduces vocab w w' → Forall P w → Forall P w'.
Proof.
  intros Hmerge. induction 1 as [| w x y r w' _ Hr _ _ IH]; [done |]. intros Hw. apply IH. clear IH.
  induction w as [w IHw] using (induction_ltof1 _ (@length string)). unfold ltof in IHw.
  destruct w as [| a [| b t]]; [done | done |]. rewrite merge_ref_cons2.
  inversion Hw as [| ? ? Ha Hbt]; subst. inversion Hbt as [| ? ? Hb Ht]; subst.
  case_decide as Hab.
  - destruct Hab as [-> ->]. constructor; [by eapply Hmerge |]. apply IHw; [simpl; lia | done].
  - constructor; [done |]. apply IHw; [simpl; lia | done].
Qed.
End BpeProofs.

(** ** The byte alphabet *)

(** The string a byte is written as. *)
Definition unit_of (c : ascii) : bytes := to_bytes (default "" (byte_encoder !! code c)).

Arguments byte_encoder : simpl never.
Arguments byte_decoder : simpl never.
Arguments unit_of : simpl never.
Arguments byte_token : simpl never.

(** One- or two-byte encodings of a rune, never a space. *)
Definition unit_shape (u : bytes) : bool :=
  match u with
  | [b] => (code b <? 128)%N && negb (bool_decide (b = byte 32))
  | [b1; b2] =>
      negb (code b1 <? 128)%N && negb (bool_decide (b1 = byte 32)) && negb (bool_decide (b2 = byte 32)) &&
      match lead_byte (code b1) with
      | Some (1%nat, lo, hi) => cont_byte lo hi b2
      | _ => false
      end
  | _ => false
  end.

Definition alphabet_check (n : N) : bool :=
  let u := to_bytes (default "" (byte_encoder !! n)) in
  unit_shape u && bool_decide (byte_decoder !! of_bytes u = Some n).

Lemma alphabet_checked : forallb alphabet_check (rune_range 0 255) = true.
Proof. vm_compute. reflexivity. Qed.

Lemma byte_code c : byte (code c) = c.
Proof. apply ascii_N_embedding. Qed.

Lemma unit_of_spec c :
  unit_shape (unit_of c) = true ∧ byte_decoder !! of_bytes (unit_of c) = Some (code c).
Proof.
  assert (alphabet_check (code c) = true) as Hc.
  { eapply (proj1 (forallb_forall _ _) alphabet_checked). apply list_elem_of_In.
    unfold rune_range. apply list_elem_of_fmap. exists (N.to_nat (code c)). split; [lia |].
    apply elem_of_seq. pose proof (N_ascii_bounded c). unfold code. lia. }
  unfold alphabet_check in Hc. apply andb_true_iff in Hc as [H1 H2]. split; [exact H1 |].
  by apply bool_decide_eq_true in H2.
Qed.

Lemma unit_shape_one_rune u : unit_shape u = true → one_rune u ∧ byte 32 ∉ u.
Proof.
  destruct u as [| b1 [| b2 [|]]]; simpl; try done.
  - intros [Hb Hs]%andb_true_iff. split; [| apply negb_true_iff, bool_decide_eq_false in Hs; set_solver].
    split; [done |]. intros rest. simpl. rewrite Hb. eauto.
  - intros [[[Hb Hs1]%andb_true_iff Hs2]%andb_true_iff Hl]%andb_true_iff.
    apply negb_true_iff, bool_decide_eq_false in Hs1. apply negb_true_iff, bool_decide_eq_false in Hs2.
    apply negb_true_iff in Hb. split; [| set_solver]. split; [done |]. intros rest. simpl. rewrite Hb.
    destruct (lead_byte (code b1)) as [[[n lo] hi] |]; [| done].
    destruct n as [| [| n]]; [done | | by destruct n]. rewrite Hl. eauto.
Qed.

Lemma units_one_rune (l : bytes) : Forall one_rune (unit_of <$> l).
Proof.
  apply Forall_fmap, Forall_true. intros c. by apply unit_shape_one_rune, unit_of_spec.
Qed.

(** ** Lemmas on encoding *)

Definition units (m : string) : list string := of_bytes <$> (unit_of <$> to_bytes m).

Lemma byte_token_bytes m : to_bytes (byte_token m) = concat (unit_of <$> to_bytes m).
Proof.
  unfold byte_token. rewrite to_bytes_Join_empty. f_equal. rewrite <- list_fmap_compose. done.
Qed.

Lemma explode_byte_token m : explode (byte_token m) = units m.
Proof.
  rewrite <- (of_bytes_to_bytes (byte_token m)), byte_token_bytes.
  apply explode_concat, units_one_rune.
Qed.

Lemma units_bytes m : to_bytes <$> units m = unit_of <$> to_bytes m.
Proof.
  unfold units. rewrite <- !list_fmap_compose. apply list_fmap_ext. intros i c _. apply to_bytes_of_bytes.
Qed.

Lemma Join_units m : Join (units m) "" = byte_token m.
Proof. apply to_bytes_inj. by rewrite to_bytes_Join_empty, units_bytes, byte_token_bytes. Qed.

Lemma units_nonempty m : m ≠ ""%string → units m ≠ [].
Proof. by destruct m. Qed.

(** The cached results are the computed ones. *)
Definition cache_ok (vocab : Vocab) (cache : Cache) : Prop :=
  ∀ t v, cache !! t = Some v → bpe_compute vocab t = finish v.

Lemma bytePairEncoding_cached vocab token r cache :
  cache_ok vocab cache → bpe_compute vocab token = finish r →
  ∃ cache', bytePairEncoding vocab token cache = finish (r, cache') ∧ cache_ok vocab cache'.
Proof.
  intros Hc Hr. unfold bytePairEncoding. destruct (cache !! token) as [v |] eqn:Hv.
  - exists cache. apply Hc in Hv. rewrite Hv in Hr. by injection Hr as ->.
  - rewrite Hr. exists (<[token := r]> cache). split; [done |].
    intros t v. rewrite lookup_insert. case_decide; [by intros [= <-]; subst | apply Hc].
Qed.

Lemma encode_word vocab m cache :
  ranks_ok vocab → cache_ok vocab cache → m ≠ ""%string →
  ∃ w' cache', bytePairEncoding vocab (byte_token m) cache = finish (Join w' " ", cache') ∧
    cache_ok vocab cache' ∧ bpe_reduces vocab (units m) w' ∧
    Join w' "" = byte_token m ∧ Split (Join w' " ") (byte 32) = w'.
Proof.
  intros Hranks Hcache Hm.
  destruct (bpe_compute_refines vocab Hranks (byte_token m)) as (w' & Hrun & Hred).
  { rewrite explode_byte_token. by apply units_nonempty. }
  { rewrite explode_byte_token. apply Join_units. }
  rewrite explode_byte_token in Hred.
  destruct (bytePairEncoding_cached vocab (byte_token m) _ cache Hcache Hrun) as (cache' & Hrun' & Hc').
  exists w', cache'. split; [done |]. split; [done |]. split; [done |].
  destruct (bpe_reduces_concat vocab _ _ Hred) as [Hcat Hne]. split.
  - apply to_bytes_inj. by rewrite to_bytes_Join_empty, Hcat, units_bytes, byte_token_bytes.
  - apply (Split_Join w' (byte 32)); [by apply Hne, units_nonempty |].
    eapply (bpe_reduces_pieces vocab (λ w, byte 32 ∉ to_bytes w)); [| exact Hred |].
    + intros x y r _ Hx Hy. rewrite to_bytes_append, elem_of_app. tauto.
    + unfold units. rewrite !Forall_fmap. apply Forall_true. intros c. unfold compose. rewrite to_bytes_of_bytes.
      by apply unit_shape_one_rune, unit_of_spec.
Qed.

(** What the data files must satisfy: bounded ranks, a token for every byte and
    for every ranked merge, and no token number used twice. *)
Record data_ok (vocab : Vocab) (encoder : gmap string Z) : Prop := mkDataOk {
  data_ranks : ranks_ok vocab;
  data_bytes : ∀ c, is_Some (encoder !! of_bytes (unit_of c));
  data_merges : ∀ x y r, vocab !! (x, y) = Some r → is_Some (encoder !! (x +:+ y));
  data_inj : ∀ v1 v2 t, encoder !! v1 = Some t → encoder !! v2 = Some t → v1 = v2
}.

Lemma decoder_spec encoder v t :
  (∀ v1 v2 t, encoder !! v1 = Some t → encoder !! v2 = Some t → v1 = v2) →
  encoder !! v = Some t → decoder encoder !! t = Some v.
Proof.
  intros Hinj Hv. unfold decoder.
  assert (∀ kv, kv ∈ map_to_list encoder → encoder !! fst kv = Some (snd kv)) as Hall
    by (intros [k z] ?; simpl; by apply elem_of_map_to_list).
  apply elem_of_map_to_list in Hv.
  induction (map_to_list encoder) as [| [k z] l IH]; [by apply elem_of_nil in Hv |].
  simpl. rewrite lookup_insert. case_decide as Hz.
  - subst z. f_equal. apply (Hinj k v t).
    + apply (Hall (k, t)). by left.
    + apply (Hall (v, t)). exact Hv.
  - apply elem_of_cons in Hv as [[= -> ->] | Hv]; [done |].
    apply IH; try done. intros kv Hkv. apply Hall. by right.
Qed.

Lemma decode_pieces vocab encoder ws :
  data_ok vocab encoder → Forall (λ w, is_Some (encoder !! w)) ws →
  (λ t, default ""%string (decoder encoder !! t)) <$> ((λ v, default 0%Z (encoder !! v)) <$> ws) = ws.
Proof.
  intros Hdata. induction 1 as [| w ws [t Ht] _ IH]; [done |].
  rewrite !fmap_cons, IH, Ht. simpl. by rewrite (decoder_spec _ _ _ (data_inj _ _ Hdata) Ht).
Qed.

Lemma encode_matches_roundtrip vocab encoder : data_ok vocab encoder → ∀ matches cache,
  cache_ok vocab cache → Forall (λ m, m ≠ ""%string) matches →
  ∃ ts cache', encode_matches vocab encoder matches cache = finish (ts, cache') ∧ cache_ok vocab cache' ∧
    concat (to_bytes <$> ((λ t, default ""%string (decoder encoder !! t)) <$> ts)) =
      concat (unit_of <$> concat (to_bytes <$> matches)).
Proof.
  intros Hdata. induction matches as [| m matches IH]; intros cache Hcache Hall.
  { exists [], cache. done. }
  inversion Hall as [| ? ? Hm Hall']; subst.
  destruct (encode_word vocab m cache (data_ranks _ _ Hdata) Hcache Hm)
    as (w' & c1 & Hrun & Hc1 & Hred & Hjoin & Hsplit).
  destruct (IH c1 Hc1 Hall') as (ts & c2 & Hruns & Hc2 & Hcat).
  exists (((λ v, default 0%Z (encoder !! v)) <$> w') ++ ts), c2.
  split. { cbn [encode_matches]. rewrite Hrun. cbn [fueled_bind finish].
    rewrite Hruns. cbn [fueled_bind finish]. by rewrite Hsplit. }
  split; [done |].
  rewrite !fmap_app, concat_app, Hcat, (decode_pieces vocab encoder w' Hdata).
  - rewrite fmap_cons. cbn [concat]. rewrite fmap_app, concat_app. f_equal.
    by rewrite <- to_bytes_Join_empty, Hjoin, byte_token_bytes.
  - eapply (bpe_reduces_pieces vocab (λ w, is_Some (encoder !! w))); [| exact Hred |].
    + intros x y r Hr _ _. by eapply data_merges.
    + unfold units. rewrite !Forall_fmap. apply Forall_true. intros c. by apply (data_bytes vocab).
Qed.

(** Tokens that spell the units of some words decode to them. *)
Lemma Decode_units encoder ts ms :
  concat (to_bytes <$> ((λ t, default ""%string (decoder encoder !! t)) <$> ts)) = concat (unit_of <$> concat (to_bytes <$> ms)) →
  Decode encoder ts = Join ms "".
Proof.
  intros Hcat. unfold Decode.
  assert (Join ((λ t, default ""%string (decoder encoder !! t)) <$> ts) "" =
    of_bytes (concat (unit_of <$> to_bytes (Join ms "")))) as Htext.
  { apply to_bytes_inj. by rewrite to_bytes_Join_empty, to_bytes_of_bytes, Hcat, to_bytes_Join_empty. }
  rewrite Htext, (explode_concat _ (units_one_rune _)).
  rewrite <- !list_fmap_compose. rewrite <- (of_bytes_to_bytes (Join ms "")) at 2. f_equal.
  rewrite <- (list_fmap_id (to_bytes (Join ms ""))) at 2. apply list_fmap_ext. intros i c _. unfold compose.
  destruct (unit_of_spec c) as [_ ->]. cbn [default]. rewrite N.mod_small; [apply byte_code |].
  apply N_ascii_bounded.
Qed.

(** ** Properties *)

(** C36: Encoding one word terminates within as many rounds as it has runes,
    never panics and, with or without a hit in the global cache, computes the
    greedy byte-pair merge: starting from one piece per byte it merges, as long
    as some adjacent pair is ranked, all occurrences of one of least rank.  The
    pieces joined give the word back, splitting the returned string at blanks
    gives the pieces back, and the cache stays coherent. *)
Theorem bpe_is_greedy_merge vocab m cache :
  ranks_ok vocab → cache_ok vocab cache → m ≠ ""%string →
  ∃ w' cache', bytePairEncoding vocab (byte_token m) cache = finish (Join w' " ", cache') ∧
    cache_ok vocab cache' ∧ bpe_reduces vocab (units m) w' ∧
    Join w' "" = byte_token m ∧ Split (Join w' " ") (byte 32) = w'.
Proof. exact (encode_word vocab m cache). Qed.

Definition toy_vocab : Vocab := <[("a", "b")%string := 0%Z]> (<[("ab", "c")%string := 1%Z]> ∅).

Lemma toy_vocab_ranks : ranks_ok toy_vocab.
Proof.
  unfold ranks_ok, toy_vocab, no_rank. intros v r Hv.
  do 2 (apply lookup_insert_Some in Hv as [[_ <-] | [_ Hv]]; [lia |]).
  by rewrite lookup_empty in Hv.
Qed.

Lemma cache_ok_empty vocab : cache_ok vocab ∅.
Proof. intros t v. by rewrite lookup_empty. Qed.

Lemma bpe_is_greedy_merge_witness :
  ∃ w' cache', bytePairEncoding toy_vocab (byte_token "abcab") ∅ = finish (Join w' " ", cache') ∧
    Join w' "" = "abcab"%string.
Proof.
  destruct (bpe_is_greedy_merge toy_vocab "abcab" ∅ toy_vocab_ranks (cache_ok_empty _) ltac:(discriminate))
    as (w' & cache' & Hrun & _ & _ & Hjoin & _).
  exists w', cache'. split; [exact Hrun |]. rewrite Hjoin. vm_compute. reflexivity.
Defined.

(** ** The split loses nothing *)

Section Lossless.
Context (letter number space : N → bool).

Definition takes (rs : list N) (o : option nat) : Prop := ∀ n, o = Some n → (0 < n)%nat.

Lemma run_first p r rs : p r = true → (0 < run p (r :: rs))%nat.
Proof. intros Hp. cbn. rewrite Hp. lia. Qed.

Lemma plus_takes p rs : takes rs (plus p rs).
Proof. intros n. unfold plus. destruct (run p rs); [done |]. intros [= <-]. lia. Qed.

Lemma plus_some p r rs : p r = true → is_Some (plus p (r :: rs)).
Proof. intros Hp. unfold plus. cbn. by rewrite Hp. Qed.

Lemma spaced_takes p rs : takes rs (spaced p rs).
Proof.
  intros n. unfold spaced. destruct rs as [| r rest]; [done |]. destruct (r =? 32)%N; [| apply plus_takes].
  destruct (plus p rest); [intros [= <-]; lia | apply plus_takes].
Qed.

Lemma spaced_some p r rs : p r = true → is_Some (spaced p (r :: rs)).
Proof. intros Hp. unfold spaced. destruct (r =? 32)%N; [destruct (plus p rs); [done |] |]; by apply plus_some. Qed.

Lemma contraction_takes rs : takes rs (contraction rs).
Proof.
  intros n. unfold contraction. destruct (List.find _ _) as [c |] eqn:Hc; [| done]. intros [= <-].
  apply List.find_some in Hc as [Hin _]. apply list_elem_of_In in Hin.
  assert (Forall (λ c, 0 < length c)%nat contractions) as Hall by (refine (bool_decide_unpack _ _); vm_compute; exact I).
  rewrite Forall_forall in Hall. by apply Hall.
Qed.

Lemma trailing_takes rs : takes rs (trailing_space space rs).
Proof.
  intros n. unfold trailing_space. destruct (drop _ rs); [apply plus_takes |]. destruct (decide _); [intros [= <-]; lia | done].
Qed.

Lemma takes_union rs o1 o2 : takes rs o1 → takes rs o2 → takes rs (o1 ∪ o2).
Proof. intros H1 H2 n. destruct o1 as [m |], o2 as [k |]; [apply (H1 n).. | apply (H2 n) | done]. Qed.

Lemma match_front_takes rs : takes rs (match_front letter number space rs).
Proof.
  unfold match_front. repeat apply takes_union; first
    [apply contraction_takes | apply spaced_takes | apply trailing_takes | apply plus_takes].
Qed.

(** Some alternative begins with any rune. *)
Lemma match_front_some r rs : is_Some (match_front letter number space (r :: rs)).
Proof.
  assert (∀ o1 o2 : option nat, is_Some o2 → is_Some (o1 ∪ o2)) as Hright by (intros [] [] [k Hk]; [by eexists.. | done]).
  assert (∀ o1 o2 : option nat, is_Some o1 → is_Some (o1 ∪ o2)) as Hleft by (intros [] [] [k Hk]; [by eexists.. | done | done]).
  unfold match_front. destruct (space r) eqn:Hs; [by apply Hright, plus_some |]. apply Hleft, Hleft.
  destruct (number r) eqn:Hn; [by apply Hleft, Hright, spaced_some |].
  destruct (letter r) eqn:Hl; [by apply Hleft, Hleft, Hright, spaced_some |].
  apply Hright, spaced_some. unfold other. by rewrite Hs, Hn, Hl.
Qed.

Lemma find_runes_lossless fuel : ∀ rs, (length rs ≤ fuel)%nat →
  concat (find_runes letter number space fuel rs) = rs ∧ Forall (λ m, m ≠ []) (find_runes letter number space fuel rs).
Proof.
  induction fuel as [| fuel IH]; intros [| r rs] Hlen; [done | simpl in Hlen; lia | done |].
  cbn [find_runes]. destruct (match_front_some r rs) as [n Hn]. rewrite Hn. pose proof (match_front_takes _ _ Hn) as Hpos.
  destruct (IH (drop n (r :: rs))) as [Hcat Hne]. { rewrite length_drop. simpl in *. lia. }
  cbn [concat]. rewrite Hcat, take_drop. split; [done |]. constructor; [by destruct n; [lia |] | done].
Qed.

Lemma to_bytes_of_runes rs : to_bytes (of_runes rs) = concat (map encode_rune rs).
Proof. apply to_bytes_of_bytes. Qed.

Lemma concat_of_runes ms : concat (to_bytes <$> (of_runes <$> ms)) = concat (map encode_rune (concat ms)).
Proof.
  induction ms as [| m ms IH]; [done |]. cbn [fmap list_fmap concat]. rewrite map_app, concat_app, to_bytes_of_runes. by f_equal.
Qed.

Lemma of_runes_nonempty rs : rs ≠ [] → of_runes rs ≠ ""%string.
Proof.
  intros Hne Heq. apply (f_equal to_bytes) in Heq. rewrite to_bytes_of_runes in Heq.
  destruct rs as [| r rs]; [done |]. cbn in Heq. pose proof (encode_not_empty r). by destruct (encode_rune r).
Qed.

Lemma find_all_lossless text :
  Join (find_all letter number space text) "" = of_runes (runes text) ∧ Forall (λ m, m ≠ ""%string) (find_all letter number space text).
Proof.
  destruct (find_runes_lossless (length (runes text)) (runes text)) as [Hcat Hne]; [lia |]. unfold find_all. split.
  - apply to_bytes_inj. by rewrite to_bytes_Join_empty, to_bytes_of_runes, concat_of_runes, Hcat.
  - rewrite Forall_fmap. eapply Forall_impl; [exact Hne |]. intros m. apply of_runes_nonempty.
Qed.
End Lossless.

(** C38: Decoding an encoded text gives the text back, with every byte that is
    not UTF-8 replaced by U+FFFD: the split takes every rune, whatever counts as
    a letter, a number and white space.  In particular a text of UTF-8 comes back
    byte for byte.  The vocabulary must have a token for every byte and every
    merge, and no token number twice; encoding returns, whatever the cache of
    earlier results holds. *)
Theorem decode_encode_roundtrip vocab encoder letter number space text cache :
  data_ok vocab encoder → cache_ok vocab cache →
  ∃ ts cache', Encode vocab encoder letter number space text cache = finish (ts, cache') ∧
    cache_ok vocab cache' ∧ Decode encoder ts = of_runes (runes text) ∧
    (∀ rs, Forall valid_rune rs → text = of_runes rs → Decode encoder ts = text).
Proof.
  intros Hdata Hcache.
  assert (∃ ts cache', Encode vocab encoder letter number space text cache = finish (ts, cache') ∧
    cache_ok vocab cache' ∧ Decode encoder ts = of_runes (runes text)) as (ts & cache' & Hrun & Hc & Hdec).
  { unfold Encode. destruct (decide (text = ""%string)) as [-> | _].
    { exists [], cache. done. }
    destruct (find_all_lossless letter number space text) as [Hjoin Hall].
    destruct (encode_matches_roundtrip vocab encoder Hdata _ cache Hcache Hall) as (ts & cache' & Hrun & Hc' & Hcat).
    exists ts, cache'. split; [done |]. split; [done |]. rewrite <- Hjoin. by apply Decode_units. }
  exists ts, cache'. split; [done |]. split; [done |]. split; [done |]. intros rs Hrs ->. by rewrite Hdec, runes_of_runes.
Qed.

(** A token for each byte, and one for the merges of [toy_vocab]. *)
Definition toy_encoder : gmap string Z :=
  <["ab"%string := 256%Z]> (<["abc"%string := 257%Z]>
    (list_to_map ((λ n, (of_bytes (unit_of (byte n)), Z.of_N n)) <$> rune_range 0 255))).

Definition toy_encoder_check : bool :=
  forallb (λ n, bool_decide (toy_encoder !! of_bytes (unit_of (byte n)) = Some (Z.of_N n))) (rune_range 0 255) &&
  bool_decide (NoDup (map_to_list toy_encoder).*2).

Lemma toy_data_ok : data_ok toy_vocab toy_encoder.
Proof.
  assert (toy_encoder_check = true) as [H1 H2]%andb_true_iff by (vm_compute; reflexivity).
  split; [exact toy_vocab_ranks | | |].
  - intros c. exists (Z.of_N (code c)).
    rewrite forallb_forall in H1. specialize (H1 (code c)).
    rewrite <- list_elem_of_In, bool_decide_eq_true, byte_code in H1. apply H1.
    unfold rune_range. apply list_elem_of_fmap. exists (N.to_nat (code c)). split; [lia |].
    apply elem_of_seq. pose proof (N_ascii_bounded c). unfold code. lia.
  - unfold toy_vocab. intros x y r Hv.
    apply lookup_insert_Some in Hv as [[[= <- <-] _] | [_ Hv]]; [exists 256%Z; vm_compute; reflexivity |].
    apply lookup_insert_Some in Hv as [[[= <- <-] _] | [_ Hv]]; [exists 257%Z; vm_compute; reflexivity |].
    exfalso. rewrite lookup_empty in Hv. discriminate Hv.
  - intros v1 v2 t H3%elem_of_map_to_list H4%elem_of_map_to_list.
    apply bool_decide_eq_true in H2.
    apply list_elem_of_lookup in H3 as [i Hi]. apply list_elem_of_lookup in H4 as [j Hj].
    assert (i = j) as ->; [| congruence].
    eapply NoDup_lookup; [exact H2 | |]; rewrite list_lookup_fmap; [by rewrite Hi | by rewrite Hj].
Qed.

Definition ascii_letter (r : N) : bool := ((97 <=? r) && (r <=? 122))%N.
Definition ascii_digit (r : N) : bool := ((48 <=? r) && (r <=? 57))%N.
Definition ascii_space (r : N) : bool := (r =? 32)%N.

Example text_is_split : find_all ascii_letter ascii_digit ascii_space "it's  12 a,  " = ["it"; "'s"; " "; " 12"; " a"; ","; "  "]%string.
Proof. vm_compute. reflexivity. Qed.

Lemma decode_encode_roundtrip_witness :
  ∃ ts cache', Encode toy_vocab toy_encoder ascii_letter ascii_digit ascii_space "abc é"%string ∅ = finish (ts, cache') ∧
    Decode toy_encoder ts = "abc é"%string.
Proof.
  destruct (decode_encode_roundtrip toy_vocab toy_encoder ascii_letter ascii_digit ascii_space "abc é"%string ∅
    toy_data_ok (cache_ok_empty _)) as (ts & c' & Hrun & _ & Hdec & _).
  exists ts, c'. split; [exact Hrun |]. rewrite Hdec. vm_compute. reflexivity.
Defined.
