(* ===== verification/Ipam.v ===== *)
(** The IP address manager: [2026/container/network/ipam.go].

    A subnet's allocation table is a string of [0] and [1], one per address,
    kept with the others in a JSON file.  The file is [option string] (absent
    or its text); JSON encoding is outside code ([marshal], [unmarshal]) and
    the other file operations are taken to succeed.  A [net.IP] is the list of
    its four bytes; [Allocate] writes into the caller's subnet and [Release]
    into the caller's address, so both return them. *)

From S2P Require Import Prelude GoStrings.
Local Open Scope string_scope.
Local Open Scope Z_scope.

(** An IPv4 network as [net.ParseCIDR] gives it: address and mask length. *)
Record IPNet := mkIPNet { net_IP : list Z; net_ones : Z }.

Definition ip_string (ip : list Z) : string :=
  match ip with
  | [a; b; c; d] => Itoa a +:+ "." +:+ Itoa b +:+ "." +:+ Itoa c +:+ "." +:+ Itoa d
  | _ => "?"
  end.

(** [IPNet.String] *)
Definition net_string (n : IPNet) : string := ip_string (net_IP n) +:+ "/" +:+ Itoa (net_ones n).

Abbreviation Table := (gmap string string).

(** The loop [for t := 4; t > 0; t--] of [Allocate]: byte [4-t] grows by the
    byte of the offset [c] at that position. *)
Fixpoint add_offset (c : Z) (t : nat) (ip : list Z) : list Z :=
  match t, ip with
  | S t', b :: ip => wrap8 (b + wrap8 (Z.shiftr c (Z.of_nat t' * 8))) :: add_offset c t' ip
  | _, _ => ip
  end.

(** [ip[3] += d] *)
Definition add_last (d : Z) (ip : list Z) : list Z := alter (λ b, wrap8 (b + d)) 3%nat ip.

Definition allocated_ip (c : Z) (base : list Z) : list Z := add_last 1 (add_offset c 4 base).

(** The loop [for t := 4; t > 0; t--] of [Release]. *)
Fixpoint release_index (t : nat) (releaseIp base : list Z) : Z :=
  match t with
  | O => 0
  | S t' =>
      wrap64 (Z.shiftl (wrap8 (default 0 (releaseIp !! t') - default 0 (base !! t'))) ((4 - Z.of_nat t) * 8) +
              release_index t' releaseIp base)
  end.

(** The first free address of a table. *)
Definition first_free (table : bytes) : option nat := fst <$> list_find (λ b, b = byte 48) table.

Section Ipam.
Variable marshal : Table → string.
Variable unmarshal : string → option Table.

(** The file is read into a buffer of 2000 bytes; an empty file is an error. *)
Definition load (file : option string) : res Table :=
  match file with
  | None => Ok ∅
  | Some text =>
      let buf := take 2000 (to_bytes text) in
      if decide (buf = []) then Fail "EOF"
      else match unmarshal (of_bytes buf) with
           | Some m => Ok m
           | None => Fail "dump allocation info err"
           end
  end.

Definition dump (m : Table) : option string := Some (marshal m).

(** The result address ([None] is the nil [net.IP]), the caller's subnet and
    the file afterwards. *)
Definition Allocate (file : option string) (subnet : IPNet)
    : res (option (list Z)) * IPNet * option string :=
  match load file with
  | Fail e => (Fail ("load subnet file err: " +:+ e), subnet, file)
  | Ok subnets =>
      let key := net_string subnet in
      let subnets :=
        match subnets !! key with
        | None => <[key := of_bytes (replicate (Z.to_nat (Z.shiftl 1 (32 - net_ones subnet))) (byte 48))]> subnets
        | Some _ => subnets
        end in
      let table := to_bytes (default "" (subnets !! key)) in
      match first_free table with
      | None => (Ok None, subnet, dump subnets)
      | Some c =>
          let ip := allocated_ip (Z.of_nat c) (net_IP subnet) in
          (Ok (Some ip), mkIPNet ip (net_ones subnet),
           dump (<[key := of_bytes (<[c := byte 49]> table)]> subnets))
      end
  end.

(** The caller's address and the file afterwards; an index outside the table
    panics. *)
Definition Release (file : option string) (subnet : IPNet) (ipaddr : list Z)
    : go (res () * list Z * option string) :=
  match load file with
  | Fail e => Done (Fail ("load subnet file err: " +:+ e), ipaddr, file)
  | Ok subnets =>
      let key := net_string subnet in
      let releaseIp := add_last (-1) ipaddr in
      let index := release_index 4 releaseIp (net_IP subnet) in
      let ipalloc := to_bytes (default "" (subnets !! key)) in
      if bool_decide (0 ≤ index < Z.of_nat (length ipalloc))
      then Done (Ok tt, releaseIp,
                 dump (<[key := of_bytes (<[Z.to_nat index := byte 48]> ipalloc)]> subnets))
      else Panic
  end.
End Ipam.

(** ** Lemmas *)

Definition ip_ok (ip : list Z) : Prop := length ip = 4%nat ∧ Forall (λ b, 0 ≤ b < 256) ip.

(** The byte of [c] at position [j] from the right. *)
Lemma shiftr_byte c j : 0 ≤ c → wrap8 (Z.shiftr c (Z.of_nat j * 8)) = (c / 256 ^ Z.of_nat j) mod 256.
Proof.
  intros Hc. unfold wrap8. rewrite Z.shiftr_div_pow2 by lia.
  rewrite Z.mul_comm, Z.pow_mul_r by lia. done.
Qed.

Lemma wrap8_sub_add b x : 0 ≤ x < 256 → wrap8 (wrap8 (b + x) - b) = x.
Proof. intros Hx. unfold wrap8. rewrite Zminus_mod_idemp_l. replace (b + x - b) with x by lia. by apply Z.mod_small. Qed.

Lemma wrap8_plus_minus_one x : wrap8 (wrap8 (wrap8 x + 1) + -1) = wrap8 x.
Proof.
  unfold wrap8. rewrite Zplus_mod_idemp_l, <- Z.add_assoc, Zplus_mod_idemp_l. by rewrite Z.add_0_r.
Qed.

Lemma ip_ok_cases ip : ip_ok ip →
  ∃ a b c d, ip = [a; b; c; d] ∧ 0 ≤ a < 256 ∧ 0 ≤ b < 256 ∧ 0 ≤ c < 256 ∧ 0 ≤ d < 256.
Proof.
  intros [Hlen Hall]. destruct ip as [| a [| b [| c [| d [|]]]]]; try done.
  rewrite !Forall_cons in Hall. exists a, b, c, d. tauto.
Qed.

(** The release computation inverts the allocation's. *)
Lemma release_index_allocated c base :
  0 ≤ c < 2 ^ 32 → ip_ok base → release_index 4 (add_last (-1) (allocated_ip c base)) base = c.
Proof.
  intros Hc Hbase. apply ip_ok_cases in Hbase as (b0 & b1 & b2 & b3 & -> & H0 & H1 & H2 & H3).
  unfold allocated_ip, add_last. cbn -[Z.shiftr Z.shiftl wrap8 wrap64].
  rewrite (shiftr_byte c 3), (shiftr_byte c 2), (shiftr_byte c 1), (shiftr_byte c 0) by lia.
  rewrite wrap8_plus_minus_one.
  rewrite !wrap8_sub_add by (apply Z.mod_pos_bound; lia).
  rewrite !Z.shiftl_mul_pow2 by lia.
  change (256 ^ Z.of_nat 0) with 1. change (256 ^ Z.of_nat 1) with 256.
  change (256 ^ Z.of_nat 2) with 65536. change (256 ^ Z.of_nat 3) with 16777216.
  cbn -[wrap64 Z.div Z.modulo Z.mul Z.add Z.pow].
  change (2 ^ 32) with 4294967296 in Hc.
  assert (c = (c / 1) mod 256 + (c / 256) mod 256 * 256 + (c / 65536) mod 256 * 65536 +
    (c / 16777216) mod 256 * 16777216) as Hsum by (Z.to_euclidean_division_equations; lia).
  pose proof (Z.mod_pos_bound (c / 1) 256). pose proof (Z.mod_pos_bound (c / 256) 256).
  pose proof (Z.mod_pos_bound (c / 65536) 256). pose proof (Z.mod_pos_bound (c / 16777216) 256).
  change (2 ^ ((4 - Z.of_nat 4) * 8)) with 1. change (2 ^ ((4 - Z.of_nat 3) * 8)) with 256.
  change (2 ^ ((4 - Z.of_nat 2) * 8)) with 65536. change (2 ^ ((4 - Z.of_nat 1) * 8)) with 16777216.
  set (x0 := (c / 1) mod 256) in *. set (x1 := (c / 256) mod 256) in *.
  set (x2 := (c / 65536) mod 256) in *. set (x3 := (c / 16777216) mod 256) in *.
  clearbody x0 x1 x2 x3.
  assert (∀ z, - 2 ^ 63 ≤ z ≤ 2 ^ 63 - 1 → wrap64 z = z) as Hid by (intros; by apply wrap64_id).
  rewrite (Hid (x3 * 16777216 + 0)) by lia. rewrite (Hid (x2 * 65536 + _)) by lia.
  rewrite (Hid (x1 * 256 + _)) by lia. rewrite (Hid (x0 * 1 + _)) by lia. lia.
Qed.

Lemma allocated_ip_inj base c1 c2 :
  0 ≤ c1 < 2 ^ 32 → 0 ≤ c2 < 2 ^ 32 → ip_ok base →
  allocated_ip c1 base = allocated_ip c2 base → c1 = c2.
Proof.
  intros H1 H2 Hb Heq. rewrite <- (release_index_allocated c1 base), <- (release_index_allocated c2 base) by done.
  by rewrite Heq.
Qed.

(** The table of a subnet of [n] addresses after the first [k] were given out. *)
Definition table_after (k n : nat) : bytes := replicate k (byte 49) ++ replicate (n - k) (byte 48).

Lemma first_free_after k n : (k ≤ n)%nat →
  first_free (table_after k n) = if decide (k < n)%nat then Some k else None.
Proof.
  intros Hk. unfold first_free, table_after. case_decide as Hlt.
  - replace (n - k)%nat with (S (n - S k)) by lia. cbn [replicate].
    assert (list_find (λ b, b = byte 48) (replicate k (byte 49) ++ byte 48 :: replicate (n - S k) (byte 48))
      = Some (k, byte 48)) as ->; [| done].
    apply list_find_Some. split; [by rewrite list_lookup_middle by (by rewrite length_replicate) |].
    split; [done |]. intros j y Hj Hlt'. rewrite lookup_app_l in Hj by (rewrite length_replicate; lia).
    apply lookup_replicate in Hj as [-> _]. discriminate.
  - replace (n - k)%nat with 0%nat by lia. cbn [replicate]. rewrite app_nil_r.
    assert (list_find (λ b, b = byte 48) (replicate k (byte 49)) = None) as ->; [| done].
    apply list_find_None, Forall_replicate. discriminate.
Qed.

Lemma first_free_lookup table c : first_free table = Some c →
  table !! c = Some (byte 48) ∧ (c < length table)%nat.
Proof.
  unfold first_free. intros ([k b] & Hf & ->)%fmap_Some.
  apply list_find_Some in Hf as (Hk & -> & _). split; [done |]. by apply lookup_lt_Some in Hk.
Qed.

Lemma table_after_step k n : (k < n)%nat → <[k := byte 49]> (table_after k n) = table_after (S k) n.
Proof.
  intros Hk. unfold table_after. replace (n - k)%nat with (S (n - S k)) by lia.
  rewrite insert_app_r_alt by (rewrite length_replicate; lia).
  rewrite length_replicate, Nat.sub_diag, (replicate_S_end k), <- app_assoc. done.
Qed.

Section IpamProofs.
Variable marshal : Table → string.
Variable unmarshal : string → option Table.

Local Abbreviation alloc := (Allocate marshal unmarshal).
Local Abbreviation free := (Release marshal unmarshal).

(** Writing this table and reading it back gives it again: the encoding round
    trips and fits the 2000-byte buffer. *)
Definition storable (m : Table) : Prop := load unmarshal (dump marshal m) = Ok m.

(** The table of a subnet in [m], or the fresh one. *)
Definition table_of (m : Table) (subnet : IPNet) : string :=
  default (of_bytes (replicate (Z.to_nat (Z.shiftl 1 (32 - net_ones subnet))) (byte 48)))
    (m !! net_string subnet).

(** Allocations from one subnet, each with a freshly parsed [IPNet]. *)
Fixpoint allocate_many (n : nat) (file : option string) (subnet : IPNet)
    : list (res (option (list Z))) * option string :=
  match n with
  | O => ([], file)
  | S n =>
      let '(r, _, file) := alloc file subnet in
      let '(rs, file) := allocate_many n file subnet in
      (r :: rs, file)
  end.

Lemma Allocate_run file m subnet :
  load unmarshal file = Ok m →
  let table := to_bytes (table_of m subnet) in
  match first_free table with
  | Some c =>
      let ip := allocated_ip (Z.of_nat c) (net_IP subnet) in
      alloc file subnet = (Ok (Some ip), mkIPNet ip (net_ones subnet),
        dump marshal (<[net_string subnet := of_bytes (<[c := byte 49]> table)]> m))
  | None => alloc file subnet = (Ok None, subnet,
        dump marshal (<[net_string subnet := table_of m subnet]> m))
  end.
Proof.
  intros Hload. unfold Allocate. rewrite Hload. unfold table_of. cbv zeta.
  destruct (m !! net_string subnet) as [t |] eqn:Hm; simpl.
  - rewrite Hm. simpl. destruct (first_free (to_bytes t)); [done |]. by rewrite insert_id.
  - rewrite lookup_insert_eq. simpl. rewrite to_bytes_of_bytes.
    destruct (first_free _); [| done]. by rewrite insert_insert_eq.
Qed.

Lemma allocate_many_run subnet n : ∀ i k file m,
  (k + i ≤ n)%nat → load unmarshal file = Ok m →
  table_of m subnet = of_bytes (table_after k n) → m ⊆ {[net_string subnet := table_of m subnet]} →
  (∀ j, (j ≤ n)%nat → storable {[net_string subnet := of_bytes (table_after j n)]}) →
  allocate_many i file subnet =
    ((λ j, Ok (Some (allocated_ip (Z.of_nat j) (net_IP subnet)))) <$> seq k i,
     if decide (i = 0%nat) then file
     else dump marshal {[net_string subnet := of_bytes (table_after (k + i) n)]}).
Proof.
  induction i as [| i IH]; intros k file m Hki Hload Htable Hsub Hst; [done |].
  cbn [allocate_many].
  pose proof (Allocate_run file m subnet Hload) as Hrun. cbv zeta in Hrun.
  rewrite Htable, to_bytes_of_bytes, first_free_after, decide_True in Hrun by lia. rewrite Hrun.
  assert (∀ t, <[net_string subnet := t]> m = {[net_string subnet := t]}) as Hins.
  { intros t. apply map_eq. intros key. destruct (decide (net_string subnet = key)) as [<- | Hne].
    { by rewrite lookup_insert_eq, lookup_singleton_eq. }
    rewrite lookup_insert_ne, lookup_singleton_ne by done. destruct (m !! key) as [v |] eqn:Hv; [| done].
    pose proof (lookup_weaken _ _ _ _ Hv Hsub) as Hs. by rewrite lookup_singleton_ne in Hs. }
  rewrite table_after_step, Hins by lia.
  rewrite (IH (S k) _ {[net_string subnet := of_bytes (table_after (S k) n)]}); [| lia | | | | done].
  - rewrite (decide_False (P := S i = 0%nat)) by lia.
    replace (S k + i)%nat with (k + S i)%nat by lia.
    destruct (decide (i = 0%nat)) as [-> |]; [| done]. by replace (k + 1)%nat with (S k) by lia.
  - apply Hst. lia.
  - unfold table_of. by rewrite lookup_singleton_eq.
  - unfold table_of. by rewrite lookup_singleton_eq.
Qed.
End IpamProofs.

(** ** Properties *)

(** Releasing an address undoes its allocation: with the subnet parsed
    anew, [Release] of the address [Allocate] returned succeeds and the file
    again holds the table from before the allocation (fresh if the subnet was
    new), every other subnet's table unchanged. *)
Theorem release_undoes_allocate marshal unmarshal file m subnet ip subnet' file' :
  load unmarshal file = Ok m →
  Allocate marshal unmarshal file subnet = (Ok (Some ip), subnet', file') →
  ip_ok (net_IP subnet) → Z.of_nat (String.length (table_of m subnet)) ≤ 2 ^ 32 →
  (∀ c b, b = 48%N ∨ b = 49%N → storable marshal unmarshal
     (<[net_string subnet := of_bytes (<[c := byte b]> (to_bytes (table_of m subnet)))]> m)) →
  ∃ ip' file'', Release marshal unmarshal file' subnet ip = Done (Ok tt, ip', file'') ∧
    load unmarshal file'' = Ok (<[net_string subnet := table_of m subnet]> m).
Proof.
  intros Hload Halloc Hip Hlen Hst.
  pose proof (Allocate_run marshal unmarshal file m subnet Hload) as Hrun. cbv zeta in Hrun.
  set (table := to_bytes (table_of m subnet)) in *.
  assert (length table = String.length (table_of m subnet)) as Htl.
  { unfold table. generalize (table_of m subnet). intros s. induction s; simpl; [done | lia]. }
  destruct (first_free table) as [c |] eqn:Hc; [| congruence].
  apply first_free_lookup in Hc as [Hc Hlt].
  rewrite Hrun in Halloc. pose proof (f_equal snd Halloc) as Hf. cbn [snd] in Hf. subst file'.
  pose proof (f_equal (fst ∘ fst) Halloc) as Hr. unfold compose in Hr. cbn [fst] in Hr.
  assert (ip = allocated_ip (Z.of_nat c) (net_IP subnet)) as -> by congruence. clear Halloc Hrun Hr.
  fold table in Hst. unfold Release. rewrite (Hst c 49%N (or_intror eq_refl)). cbv zeta.
  rewrite release_index_allocated; [| lia | done].
  rewrite lookup_insert_eq. simpl. rewrite to_bytes_of_bytes, length_insert.
  rewrite bool_decide_eq_true_2 by lia. eexists _, _. split; [reflexivity |].
  rewrite Nat2Z.id, insert_insert_eq, list_insert_insert_eq, (Hst c 48%N (or_introl eq_refl)).
  rewrite list_insert_id by done. unfold table. by rewrite of_bytes_to_bytes.
Qed.

(** A one-subnet file format for concrete runs. *)
Definition toy_marshal (m : Table) : string :=
  match map_to_list m with [(k, v)] => k +:+ "=" +:+ v | _ => "?" end.
Definition toy_unmarshal (s : string) : option Table :=
  match Split s (byte 61) with [k; v] => Some {[k := v]} | _ => None end.

Definition example_net : IPNet := mkIPNet [192; 168; 0; 16] 30.

Lemma release_undoes_allocate_witness :
  ∃ ip' file'', Release toy_marshal toy_unmarshal
      (snd (Allocate toy_marshal toy_unmarshal None example_net)) example_net [192; 168; 0; 17] =
      Done (Ok tt, ip', file'') ∧
    load toy_unmarshal file'' = Ok {[net_string example_net := "0000"]}.
Proof.
  destruct (release_undoes_allocate toy_marshal toy_unmarshal None ∅ example_net [192; 168; 0; 17]
    (mkIPNet [192; 168; 0; 17] 30) (snd (Allocate toy_marshal toy_unmarshal None example_net)))
    as (ip' & file'' & Hrun & Hload).
  - reflexivity.
  - vm_compute. reflexivity.
  - split; [reflexivity |]. repeat constructor; simpl; lia.
  - vm_compute. discriminate.
  - intros c b Hb. do 4 (destruct c as [| c]; [destruct Hb as [-> | ->]; vm_compute; reflexivity |]).
    rewrite list_insert_ge by (change (4 ≤ S (S (S (S c))))%nat; lia). vm_compute. reflexivity.
  - exists ip', file''. split; [exact Hrun |]. rewrite Hload. vm_compute. reflexivity.
Defined.

Lemma successive_allocations_distinct_aux :
  ∀ k, (k ≤ 4)%nat → storable toy_marshal toy_unmarshal {[net_string example_net := of_bytes (table_after k 4)]}.
Proof.
  intros k Hk. do 5 (destruct k as [| k]; [vm_compute; reflexivity |]). lia.
Qed.

(** Successive allocations from a subnet hand out its addresses in order,
    each exactly once: the n-th address is the base plus n plus one as the code
    adds them, they are pairwise different, and once all are given out
    [Allocate] answers a nil address without an error. *)
Theorem successive_allocations_distinct marshal unmarshal subnet n i :
  ip_ok (net_IP subnet) → 0 ≤ net_ones subnet →
  n = Z.to_nat (Z.shiftl 1 (32 - net_ones subnet)) → (0 < i ≤ n)%nat →
  (∀ k, (k ≤ n)%nat → storable marshal unmarshal {[net_string subnet := of_bytes (table_after k n)]}) →
  let '(rs, file) := allocate_many marshal unmarshal i None subnet in
  rs = (λ j, Ok (Some (allocated_ip (Z.of_nat j) (net_IP subnet)))) <$> seq 0 i ∧
  NoDup rs ∧
  (i = n → Allocate marshal unmarshal file subnet = (Ok None, subnet, file)).
Proof.
  intros Hip Hones Hn Hi Hst.
  assert (Z.of_nat n ≤ 2 ^ 32) as Hmax.
  { subst n. rewrite Z.shiftl_1_l in *. destruct (Z.le_gt_cases (net_ones subnet) 32).
    - rewrite Z2Nat.id by (apply Z.pow_nonneg; lia). apply Z.pow_le_mono_r; lia.
    - rewrite Z.pow_neg_r by lia. simpl. lia. }
  rewrite (allocate_many_run marshal unmarshal subnet n i 0 None ∅); [| lia | done | | apply map_empty_subseteq | done].
  2: { unfold table_of. rewrite lookup_empty. simpl. unfold table_after. simpl.
       rewrite Nat.sub_0_r. by subst n. }
  rewrite decide_False by lia. split; [done |]. split.
  - apply NoDup_fmap_2_strong; [| apply NoDup_seq].
    intros j1 j2 [_ H1]%elem_of_seq [_ H2]%elem_of_seq [= Heq].
    apply allocated_ip_inj in Heq; [lia | lia | lia | done].
  - intros ->. simpl.
    pose proof (Allocate_run marshal unmarshal _ _ subnet (Hst n ltac:(lia))) as Hrun. cbv zeta in Hrun.
    unfold table_of in Hrun. rewrite lookup_singleton_eq in Hrun. simpl in Hrun.
    rewrite to_bytes_of_bytes, first_free_after, decide_False in Hrun by lia.
    by rewrite insert_singleton_eq in Hrun.
Qed.

Lemma successive_allocations_distinct_witness :
  NoDup (fst (allocate_many toy_marshal toy_unmarshal 4 None example_net)).
Proof.
  pose proof (successive_allocations_distinct toy_marshal toy_unmarshal example_net 4 4) as H.
  destruct (allocate_many toy_marshal toy_unmarshal 4 None example_net) as [rs file].
  apply H; [| simpl; lia | reflexivity | lia | exact successive_allocations_distinct_aux].
  split; [reflexivity |]. repeat constructor; lia.
Defined.
