(* ===== verification/Pipeline.v ===== *)
(** Kernel-memory data pipelines: [abstractions/pipeline/datapipeline.go] and
    the in-process orchestrator ([core/pipeline/inprocesspipelineorchestrator.go]
    on top of [core/pipeline/baseorchestrator.go]).

    The document storage, the step handlers, the MIME table and the clock are
    interfaces: their answers are arbitrary functions ([answer], [invoke],
    [file_type], [clock]) of the calls made so far.  A method is a [GoM] action
    on the [World] of storage calls.  Methods are modelled on non-nil
    receivers.  The orchestrator's loop is given fuel, and [None] means it is
    still running. *)

From S2P Require Import Prelude GoStrings.
Local Open Scope string_scope.

(** ** Data *)

Inductive ArtifactTypes :=
  | ArtifactTypesUndefined | ArtifactTypesTextPartition | ArtifactTypesExtractedText
  | ArtifactTypesTextEmbeddingVector | ArtifactTypesSyntheticData | ArtifactTypesExtractedContent
  | ArtifactTypes_none.

Abbreviation TagCollection := (gmap string (list string)).

Record PipelineLogEntry := mkLog { le_Time : Z; le_Source : string; le_Text : string }.

Record FileDetailsBase := mkFileBase {
  fb_Id : string; fb_Name : string; fb_Size : Z; fb_MimeType : string;
  fb_ArtifactType : ArtifactTypes; fb_PartitionNumber : Z; fb_SectionNumber : Z;
  fb_Tags : option TagCollection; fb_ProcessedBy : list string; fb_LogEntries : list PipelineLogEntry
}.

Record GeneratedFileDetails := mkGenerated {
  gf_Base : FileDetailsBase; gf_ParentId : string; gf_SourcePartitionId : string; gf_ContentSHA256 : string
}.

Record FileDetails := mkFileDetails {
  fd_Base : FileDetailsBase; fd_GeneratedFiles : gmap string GeneratedFileDetails
}.

(** A reader: its whole content, how far it was read, whether reading fails and
    whether it is an [io.ReadSeeker]. *)
Record Reader := mkReader { rd_content : string; rd_pos : nat; rd_fails : bool; rd_seekable : bool }.

Record UploadedFile := mkUploaded { uf_FileName : string; uf_FileContent : Reader }.

#[warnings="-register-all"]
Inductive DataPipeline := mkPipeline {
  dp_Index : string; dp_DocumentId : string; dp_ExecutionId : string;
  dp_Steps : list string; dp_RemainingSteps : list string; dp_CompletedSteps : list string;
  dp_Tags : option TagCollection; dp_Creation : Z; dp_LastUpdate : Z;
  dp_Files : list FileDetails; dp_ContextArguments : gmap string string;
  dp_PreviousExecutionsToPurge : list DataPipeline;
  dp_FilesToUpload : list UploadedFile; dp_UploadComplete : bool
}.

Record DataPipelineStatus := mkStatus {
  st_Completed : bool; st_Empty : bool; st_Index : string; st_DocumentId : string;
  st_Tags : option TagCollection; st_Creation : Z; st_LastUpdate : Z;
  st_Steps : list string; st_RemainingSteps : list string; st_CompletedSteps : list string
}.

(** Field updates. *)
Definition set_steps (steps remaining completed : list string) (p : DataPipeline) : DataPipeline :=
  mkPipeline (dp_Index p) (dp_DocumentId p) (dp_ExecutionId p) steps remaining completed
    (dp_Tags p) (dp_Creation p) (dp_LastUpdate p) (dp_Files p) (dp_ContextArguments p)
    (dp_PreviousExecutionsToPurge p) (dp_FilesToUpload p) (dp_UploadComplete p).
Definition set_times (creation update : Z) (p : DataPipeline) : DataPipeline :=
  mkPipeline (dp_Index p) (dp_DocumentId p) (dp_ExecutionId p) (dp_Steps p) (dp_RemainingSteps p)
    (dp_CompletedSteps p) (dp_Tags p) creation update (dp_Files p) (dp_ContextArguments p)
    (dp_PreviousExecutionsToPurge p) (dp_FilesToUpload p) (dp_UploadComplete p).
Definition set_uploads (files : list FileDetails) (ups : list UploadedFile) (complete : bool)
    (p : DataPipeline) : DataPipeline :=
  mkPipeline (dp_Index p) (dp_DocumentId p) (dp_ExecutionId p) (dp_Steps p) (dp_RemainingSteps p)
    (dp_CompletedSteps p) (dp_Tags p) (dp_Creation p) (dp_LastUpdate p) files (dp_ContextArguments p)
    (dp_PreviousExecutionsToPurge p) ups complete.
Definition set_purge (purge : list DataPipeline) (p : DataPipeline) : DataPipeline :=
  mkPipeline (dp_Index p) (dp_DocumentId p) (dp_ExecutionId p) (dp_Steps p) (dp_RemainingSteps p)
    (dp_CompletedSteps p) (dp_Tags p) (dp_Creation p) (dp_LastUpdate p) (dp_Files p) (dp_ContextArguments p)
    purge (dp_FilesToUpload p) (dp_UploadComplete p).

(** [&DataPipeline{...}] with the other fields zero. *)
Definition new_pipeline (index documentId : string) : DataPipeline :=
  mkPipeline index documentId "" [] [] [] None 0 0 [] ∅ [] [] false.

(** ** Files *)

(** The mark of a handler, with its sub-step if it has one. *)
Definition process_key (step : string) (subStep : option string) : string :=
  match subStep with
  | Some s => if decide (s = "") then step else step +:+ "/" +:+ s
  | None => step
  end.

Definition AlreadyProcessedBy (f : FileDetailsBase) (step : string) (subStep : option string) : bool :=
  existsb (λ v, bool_decide (v = process_key step subStep)) (fb_ProcessedBy f).

Definition MarkProcessedBy (f : FileDetailsBase) (step : string) (subStep : option string) : FileDetailsBase :=
  mkFileBase (fb_Id f) (fb_Name f) (fb_Size f) (fb_MimeType f) (fb_ArtifactType f) (fb_PartitionNumber f)
    (fb_SectionNumber f) (fb_Tags f) (fb_ProcessedBy f ++ [process_key step subStep])%list (fb_LogEntries f).

Definition Log (now : Z) (f : FileDetailsBase) (step text : string) : FileDetailsBase :=
  mkFileBase (fb_Id f) (fb_Name f) (fb_Size f) (fb_MimeType f) (fb_ArtifactType f) (fb_PartitionNumber f)
    (fb_SectionNumber f) (fb_Tags f) (fb_ProcessedBy f) (fb_LogEntries f ++ [mkLog now step text])%list.

Definition GetPartitionFileName (f : FileDetails) (partitionNumber : Z) : string :=
  fb_Name (fd_Base f) +:+ ".partition." +:+ Itoa partitionNumber +:+ ".txt".

Definition GetHandlerOutputFileName (f : FileDetails) (step : string) (index : Z) : string :=
  fb_Name (fd_Base f) +:+ "." +:+ step +:+ "." +:+ Itoa index +:+ ".txt".

(** ** The pipeline *)

Definition Complete (p : DataPipeline) : bool := bool_decide (dp_RemainingSteps p = []).

Definition Then (p : DataPipeline) (stepName : string) : DataPipeline :=
  set_steps (dp_Steps p ++ [stepName])%list (dp_RemainingSteps p) (dp_CompletedSteps p) p.

(** A reader that cannot seek is dropped without an error. *)
Definition AddUploadFileStream (p : DataPipeline) (filename : string) (content : Reader) : DataPipeline :=
  if rd_seekable content
  then set_uploads (dp_Files p)
         (dp_FilesToUpload p ++ [mkUploaded filename (mkReader (rd_content content) 0 (rd_fails content) true)])%list
         (dp_UploadComplete p) p
  else p.

(** [io.NopCloser] hides every method but reading. *)
Definition NopCloser (r : Reader) : Reader := mkReader (rd_content r) (rd_pos r) (rd_fails r) false.

Definition AddUploadFileReader (p : DataPipeline) (filename : string) (content : Reader) : DataPipeline :=
  AddUploadFileStream p filename (NopCloser content).

Definition AddUploadFileByte (p : DataPipeline) (filename content : string) : DataPipeline :=
  AddUploadFileReader p filename (mkReader content 0 false true).

(** [read] is the result of [os.ReadFile]. *)
Definition AddUploadFile (p : DataPipeline) (filename : string) (read : option string) : DataPipeline :=
  match read with
  | None => p
  | Some content => AddUploadFileByte p filename content
  end.

Fixpoint validate_steps (previous : string) (steps : list string) : res () :=
  match steps with
  | [] => Ok tt
  | step :: steps =>
      if decide (step = "") then Fail "step name is empty"
      else if decide (previous = step) then Fail ("step name is duplicated: " +:+ step)
      else validate_steps step steps
  end.

Definition Validate (p : DataPipeline) : res () :=
  if decide (dp_DocumentId p = "") then Fail "document id is empty"
  else validate_steps "" (dp_Steps p).

(** A validation error is printed and otherwise ignored. *)
Definition Build (now : Z) (p : DataPipeline) : DataPipeline :=
  let p := if decide (dp_FilesToUpload p = []) then p
           else set_uploads (dp_Files p) (dp_FilesToUpload p) false p in
  set_times now now (set_steps (dp_Steps p) (dp_Steps p) (dp_CompletedSteps p) p).

Definition MoveToNextStep (p : DataPipeline) : string * DataPipeline :=
  match dp_RemainingSteps p with
  | [] => ("", p)
  | stepName :: rest =>
      (stepName, set_steps (dp_Steps p) rest (dp_CompletedSteps p ++ [stepName])%list p)
  end.

Definition RollbackToPreviousStep (p : DataPipeline) : string * DataPipeline :=
  match last (dp_CompletedSteps p) with
  | None => ("", p)
  | Some stepName =>
      (stepName, set_steps (dp_Steps p) (stepName :: dp_RemainingSteps p)
                   (removelast (dp_CompletedSteps p)) p)
  end.

Definition PipelineStepsDeleteDocument : string := "private_delete_document".
Definition PipelineStepsDeleteIndex : string := "private_delete_index".
Definition PipelineStatusFilename : string := "__pipeline_status.json".

Definition IsDocumentDeletionPipeline (p : DataPipeline) : bool :=
  bool_decide (dp_Steps p = [PipelineStepsDeleteDocument]).
Definition IsIndexDeletionPipeline (p : DataPipeline) : bool :=
  bool_decide (dp_Steps p = [PipelineStepsDeleteIndex]).

Definition GetFile (p : DataPipeline) (id : string) : option FileDetails :=
  find (λ f, bool_decide (fb_Id (fd_Base f) = id)) (dp_Files p).

Definition ToDataPipelineStatus (p : DataPipeline) : DataPipelineStatus :=
  mkStatus (Complete p) (bool_decide (dp_Files p = [])) (dp_Index p) (dp_DocumentId p) (dp_Tags p)
    (dp_Creation p) (dp_LastUpdate p) (dp_Steps p) (dp_RemainingSteps p) (dp_CompletedSteps p).

(** [models.CleanName] of [abstractions/models/indexname.go]. *)
Definition CleanName (name defaultName : option string) : res string :=
  let blank (s : option string) := match s with None => true | Some s => bool_decide (TrimSpace s = "") end in
  if blank name && blank defaultName
  then Fail "both index name and default fallback value are empty. Provide an index name or a default value to use when the index name is empty"
  else
    let cleanDefault := match defaultName with Some d => TrimSpace d | None => "" end in
    match name with
    | None => Ok cleanDefault
    | Some n => if decide (TrimSpace n = "") then Ok cleanDefault else Ok (TrimSpace n)
    end.

(** The step list of [PrepareDocumentDeletion] is the one of an index
    deletion. *)
Definition PrepareIndexDeletion (now : Z) (index : string) : DataPipeline :=
  Build now (Then (new_pipeline index "") PipelineStepsDeleteIndex).
Definition PrepareDocumentDeletion (now : Z) (index documentId : string) : DataPipeline :=
  Build now (Then (new_pipeline index documentId) PipelineStepsDeleteIndex).

(** ** The orchestrator *)

Inductive StorageCall :=
  | CallCreateIndexDirectory (index : string)
  | CallDeleteIndexDirectory (index : string)
  | CallCreateDocumentDirectory (index documentId : string)
  | CallDeleteDocumentDirectory (index documentId : string)
  | CallWriteFile (index documentId filename content : string)
  | CallWriteStatus (index documentId : string) (p : DataPipeline)
  | CallReadFile (index documentId filename : string)
  | CallInvoke (step : string).

Inductive ReturnType := ReturnTypeSuccess | ReturnTypeTransientError | ReturnTypeFatalError.

(** What a handler answers: the pipeline object it was given, as it left it,
    and the returned triple; [None] is a nil pipeline. *)
Record HandlerAnswer := mkAnswer {
  ha_input : DataPipeline; ha_type : ReturnType; ha_updated : option DataPipeline; ha_err : option string
}.

Record World := mkWorld { w_calls : list StorageCall; w_reads : nat }.

Abbreviation M := (GoM World).

Definition bind_err {A B} (m : M (res A)) (f : A → M (res B)) : M (res B) :=
  r ← m; match r with Ok a => f a | Fail e => mret (Fail e) end.
Notation "x ←? m ; k" := (bind_err m (λ x, k))
  (at level 20, m at level 100, k at level 200, right associativity).

Section Orchestrator.
Variable clock : nat → Z.
Variable new_id : nat → string.
Variable answer : list StorageCall → StorageCall → option string.
Variable file_type : string → res string.
Variable invoke : string → list StorageCall → DataPipeline → HandlerAnswer.
Variable defaultIndexName : option string.

Definition time_now : M Z := λ w, Done (clock (w_reads w), mkWorld (w_calls w) (S (w_reads w))).
Definition uuid_New : M string := λ w, Done (new_id (w_reads w), mkWorld (w_calls w) (S (w_reads w))).

(** One call of the document storage. *)
Definition storage (c : StorageCall) : M (res ()) := λ w,
  Done (match answer (w_calls w) c with Some e => Fail e | None => Ok tt end,
        mkWorld (w_calls w ++ [c])%list (w_reads w)).

(** The decoder is handed a nil pointer, which [json.Unmarshal] refuses. *)
Definition ReadPipelineStatus (index documentId : string) : M (res DataPipeline) :=
  index ←? mret (CleanName (Some index) defaultIndexName);
  _ ←? storage (CallReadFile index documentId PipelineStatusFilename);
  mret (Fail "json: Unmarshal(nil *pipeline.DataPipeline)").

Definition ReadPipelineSummary (index documentId : string) : M (res DataPipelineStatus) :=
  index ←? mret (CleanName (Some index) defaultIndexName);
  p ←? ReadPipelineStatus index documentId;
  mret (Ok (ToDataPipelineStatus p)).

Definition IsDocumentReady (index documentId : string) : M (res bool) :=
  index ←? mret (CleanName (Some index) defaultIndexName);
  p ←? ReadPipelineStatus index documentId;
  mret (Ok (Complete p && negb (bool_decide (dp_Files p = [])))).

Definition UpdatePipelineStatus (p : DataPipeline) : M (res ()) :=
  storage (CallWriteStatus (dp_Index p) (dp_DocumentId p) p).

Definition CleanUpAfterCompletion (p : DataPipeline) : M (res ()) :=
  _ ←? (if IsDocumentDeletionPipeline p
        then storage (CallDeleteDocumentDirectory (dp_Index p) (dp_DocumentId p))
        else mret (Ok tt));
  if IsIndexDeletionPipeline p then storage (CallDeleteIndexDirectory (dp_Index p)) else mret (Ok tt).

(** Reading a reader to its end. *)
Definition ReadAll (r : Reader) : option string * Reader :=
  if rd_fails r then (None, r)
  else (Some (of_bytes (drop (rd_pos r) (to_bytes (rd_content r)))),
        mkReader (rd_content r) (String.length (rd_content r)) (rd_fails r) (rd_seekable r)).

Definition uploaded_details (p : DataPipeline) (id name mime : string) (size : Z) : FileDetails :=
  mkFileDetails (mkFileBase id name size mime ArtifactTypes_none 0 0 (dp_Tags p) [] []) ∅.

(** The loop of [uploadFormFiles]: the size is that of the content read, and
    the storage is given the same reader, now at its end. *)
Fixpoint upload_loop (ups : list UploadedFile) (p : DataPipeline) : M DataPipeline :=
  match ups with
  | [] => mret p
  | file :: ups =>
      if decide (uf_FileName file = PipelineStatusFilename) then upload_loop ups p
      else
        let '(data, rest) := ReadAll (uf_FileContent file) in
        match data with
        | None => upload_loop ups p
        | Some data =>
            let left := default "" (fst (ReadAll rest)) in
            err ← storage (CallWriteFile (dp_Index p) (dp_DocumentId p) (uf_FileName file) left);
            match err with
            | Fail _ => upload_loop ups p
            | Ok _ =>
                let mimeType := match file_type (uf_FileName file) with Ok ft => ft | Fail _ => "" end in
                id ← uuid_New;
                now ← time_now;
                upload_loop ups
                  (set_times (dp_Creation p) now
                    (set_uploads (dp_Files p ++ [uploaded_details p id (uf_FileName file) mimeType
                                                  (Z.of_nat (String.length data))])%list
                       (dp_FilesToUpload p) (dp_UploadComplete p) p))
            end
        end
  end.

Definition uploadFormFiles (p : DataPipeline) : M (res DataPipeline) :=
  _ ←? storage (CallCreateIndexDirectory (dp_Index p));
  _ ←? storage (CallCreateDocumentDirectory (dp_Index p) (dp_DocumentId p));
  p ← upload_loop (dp_FilesToUpload p) p;
  mret (Ok p).

(** The executions of [old] not yet seen, without their own history. *)
Fixpoint merge_purge (dedupe : gset string) (old : list DataPipeline) : list DataPipeline :=
  match old with
  | [] => []
  | o :: old =>
      if decide (dp_ExecutionId o ∈ dedupe) then merge_purge dedupe old
      else set_purge [] o :: merge_purge ({[dp_ExecutionId o]} ∪ dedupe) old
  end.

Definition note_previous (previous p : DataPipeline) : DataPipeline :=
  if decide (dp_ExecutionId previous = dp_ExecutionId p) then p
  else
    let dedupe := list_to_set (dp_ExecutionId <$> dp_PreviousExecutionsToPurge p) : gset string in
    set_purge (dp_PreviousExecutionsToPurge p ++
               merge_purge dedupe (dp_PreviousExecutionsToPurge previous) ++ [set_purge [] previous])%list p.

Definition UploadFiles (p : DataPipeline) : M (res DataPipeline) :=
  if Complete p then mret (Ok p)
  else
    previous ← ReadPipelineStatus (dp_Index p) (dp_DocumentId p);
    uploadFormFiles (match previous with Ok previous => note_previous previous p | Fail _ => p end).

(** The handler table; [None] is the nil map of the constructor. *)
Abbreviation Handlers := (option (gset string)).

Definition NewInProcessPipelineOrchestrator : Handlers := None.

Definition has_handler (h : Handlers) (step : string) : bool :=
  match h with None => false | Some s => bool_decide (step ∈ s) end.

(** Writing to a nil map panics. *)
Definition AddHandler (step : string) : GoM Handlers (res ()) := λ h,
  if has_handler h step then Done (Fail ("handler with name " +:+ step +:+ " already exists"), h)
  else match h with
       | None => Panic
       | Some s => Done (Ok tt, Some ({[step]} ∪ s))
       end.

Definition TryAddHandler (step : string) : GoM Handlers (res ()) := λ h,
  if has_handler h step then Done (Ok tt, h) else AddHandler step h.

(** One handler call. *)
Definition Invoke (step : string) (p : DataPipeline) : M HandlerAnswer := λ w,
  Done (invoke step (w_calls w) p, mkWorld (w_calls w ++ [CallInvoke step])%list (w_reads w)).

(** The body of the loop of [RunPipeline]: [inl] to go on with this pipeline,
    [inr] to return. *)
Definition run_step (h : Handlers) (p : DataPipeline) : M (DataPipeline + res DataPipeline) :=
  let currentStepName := default "" (head (dp_RemainingSteps p)) in
  if negb (has_handler h currentStepName)
  then mret (inr (Fail ("no handler found for step '" +:+ currentStepName +:+ "'")))
  else
    a ← Invoke currentStepName p;
    match ha_err a with
    | Some e => mret (inr (Fail e))
    | None =>
        match ha_type a with
        | ReturnTypeSuccess =>
            match ha_updated a with
            | None => λ _, Panic
            | Some p =>
                now ← time_now;
                let p := snd (MoveToNextStep (set_times (dp_Creation p) now p)) in
                _ ← UpdatePipelineStatus p;
                mret (inl p)
            end
        | _ => mret (inl (ha_input a))
        end
    end.

Fixpoint run_loop (fuel : nat) (h : Handlers) (p : DataPipeline) (w : World)
    : option (go (res DataPipeline * World)) :=
  match fuel with
  | O => None
  | S fuel =>
      if Complete p then finish (Ok p, w)
      else
        '(next, w) ←! Some (run_step h p w);
        match next with
        | inl p => run_loop fuel h p w
        | inr r => finish (r, w)
        end
  end.

Definition RunPipeline (fuel : nat) (h : Handlers) (p : DataPipeline) (w : World)
    : option (go (res () * World)) :=
  '(r, w) ←! Some ((p ←? UploadFiles p; _ ←? UpdatePipelineStatus p; mret (Ok p)) w);
  match r with
  | Fail e => finish (Fail e, w)
  | Ok p =>
      '(r, w) ←! run_loop fuel h p w;
      match r with
      | Fail e => finish (Fail e, w)
      | Ok p => Some (CleanUpAfterCompletion p w)
      end
  end.
End Orchestrator.

Local Open Scope list_scope.

(** ** Specification *)

(** The steps invoked, in order. *)
Definition invoked (calls : list StorageCall) : list string :=
  omap (λ c, match c with CallInvoke s => Some s | _ => None end) calls.

(** A handler that succeeds and leaves the step lists and the identity of the
    pipeline alone. *)
Definition handler_ok (invoke : string → list StorageCall → DataPipeline → HandlerAnswer) (step : string) : Prop :=
  ∀ calls p, ∃ q p', invoke step calls p = mkAnswer q ReturnTypeSuccess (Some p') None ∧
    dp_Steps p' = dp_Steps p ∧ dp_RemainingSteps p' = dp_RemainingSteps p ∧
    dp_CompletedSteps p' = dp_CompletedSteps p ∧ dp_Index p' = dp_Index p ∧
    dp_DocumentId p' = dp_DocumentId p.

(** Moving forth ([true]) and back ([false]). *)
Definition move (forth : bool) (p : DataPipeline) : DataPipeline :=
  snd (if forth then MoveToNextStep p else RollbackToPreviousStep p).

(** ** Lemmas *)

Lemma invoked_app c1 c2 : invoked (c1 ++ c2) = invoked c1 ++ invoked c2.
Proof. apply omap_app. Qed.

Lemma bind_err_ok {A B} (m : M (res A)) (f : A → M (res B)) w a w1 :
  m w = Done (Ok a, w1) → bind_err m f w = f a w1.
Proof. intros H. unfold bind_err. by rewrite (GoM_bind_done _ _ _ _ _ H). Qed.

Lemma move_steps forth p :
  dp_Steps (move forth p) = dp_Steps p ∧
  dp_CompletedSteps (move forth p) ++ dp_RemainingSteps (move forth p) =
    dp_CompletedSteps p ++ dp_RemainingSteps p.
Proof.
  unfold move, MoveToNextStep, RollbackToPreviousStep. destruct forth.
  - destruct (dp_RemainingSteps p) as [| s rest] eqn:Hr; simpl; [by rewrite Hr |]. by rewrite <- app_assoc.
  - destruct (last (dp_CompletedSteps p)) as [s |] eqn:Hl; simpl; [| done].
    apply last_Some in Hl as [l ->]. rewrite removelast_last, <- app_assoc. done.
Qed.

Section RunProofs.
Variable clock : nat → Z.
Variable new_id : nat → string.
Variable answer : list StorageCall → StorageCall → option string.
Variable file_type : string → res string.
Variable invoke : string → list StorageCall → DataPipeline → HandlerAnswer.
Variable defaultIndexName : option string.
Hypothesis Hstorage : ∀ calls c, answer calls c = None.

Local Abbreviation run_loop := (run_loop clock answer invoke).

Lemma storage_ok c w : storage answer c w = Done (Ok tt, mkWorld (w_calls w ++ [c]) (w_reads w)).
Proof. unfold storage. by rewrite Hstorage. Qed.

(** One turn of the loop with a good handler. *)
Lemma run_step_ok hs p w step rest :
  dp_RemainingSteps p = step :: rest → step ∈ hs → handler_ok invoke step →
  ∃ p' w', run_step clock answer invoke (Some hs) p w = Done (inl p', w') ∧
    dp_Steps p' = dp_Steps p ∧ dp_RemainingSteps p' = rest ∧
    dp_CompletedSteps p' = dp_CompletedSteps p ++ [step] ∧ dp_Index p' = dp_Index p ∧
    dp_DocumentId p' = dp_DocumentId p ∧
    w_calls w' = w_calls w ++ [CallInvoke step; CallWriteStatus (dp_Index p) (dp_DocumentId p) p'].
Proof.
  intros Hr Hin Hok. unfold run_step. rewrite Hr. simpl. rewrite bool_decide_eq_true_2 by done. simpl.
  destruct (Hok (w_calls w) p) as (q & p1 & Hinv & H1 & H2 & H3 & H4 & H5).
  unfold mbind, GoM_bind, Invoke, time_now, UpdatePipelineStatus. rewrite Hinv. simpl.
  eexists _, _. split; [reflexivity |]. unfold MoveToNextStep. simpl.
  rewrite H2, Hr. simpl. rewrite H3, H4, H5. do 5 (split; [done |]). by rewrite <- app_assoc.
Qed.

Lemma run_loop_ok hs : ∀ fuel p w,
  Forall (λ s, s ∈ hs ∧ handler_ok invoke s) (dp_RemainingSteps p) →
  (length (dp_RemainingSteps p) < fuel)%nat →
  ∃ p' w' new, run_loop fuel (Some hs) p w = finish (Ok p', w') ∧ Complete p' = true ∧
    dp_Steps p' = dp_Steps p ∧ dp_CompletedSteps p' = dp_CompletedSteps p ++ dp_RemainingSteps p ∧
    dp_Index p' = dp_Index p ∧ dp_DocumentId p' = dp_DocumentId p ∧
    w_calls w' = w_calls w ++ new ∧ invoked new = dp_RemainingSteps p ∧
    Forall (λ c, match c with CallInvoke _ | CallWriteStatus _ _ _ => True | _ => False end) new ∧
    (dp_RemainingSteps p ≠ [] → CallWriteStatus (dp_Index p) (dp_DocumentId p) p' ∈ new).
Proof.
  induction fuel as [| fuel IH]; intros p w Hall Hlen; [lia |]. cbn [Pipeline.run_loop].
  destruct (dp_RemainingSteps p) as [| step rest] eqn:Hr.
  { unfold Complete. rewrite bool_decide_eq_true_2 by done.
    exists p, w, []. rewrite !app_nil_r. unfold Complete. rewrite Hr.
    split; [done |]. by repeat split. }
  unfold Complete at 1. rewrite Hr, bool_decide_eq_false_2 by done.
  inversion Hall as [| ? ? [Hin Hok] Hall']; subst.
  destruct (run_step_ok hs p w step rest Hr Hin Hok) as (p1 & w1 & Hrun & H1 & H2 & H3 & H4 & H5 & H6).
  rewrite Hrun. cbn [fueled_bind].
  destruct (IH p1 w1) as (p2 & w2 & new & Hruns & Hc & G1 & G2 & G3 & G4 & G5 & G6 & G7 & G8).
  { by rewrite H2. }
  { rewrite H2. simpl in Hlen. lia. }
  exists p2, w2, ([CallInvoke step; CallWriteStatus (dp_Index p) (dp_DocumentId p) p1] ++ new).
  split; [done |]. split; [done |]. split; [congruence |].
  split; [by rewrite G2, H3, H2, <- app_assoc |]. split; [congruence |]. split; [congruence |].
  split; [by rewrite G5, H6, <- app_assoc |]. split; [by rewrite invoked_app, G6, H2 |].
  split; [by repeat constructor |]. intros _. destruct rest as [| s rest].
  - apply elem_of_app. left. destruct fuel as [| fuel]; [simpl in Hlen; lia |].
    cbn [Pipeline.run_loop] in Hruns. unfold Complete in Hruns at 1.
    rewrite H2, bool_decide_eq_true_2 in Hruns by done. injection Hruns as <- _. set_solver.
  - apply elem_of_app. right. rewrite <- H4, <- H5. apply G8. by rewrite H2.
Qed.

Lemma upload_loop_ok ups : ∀ p w,
  ∃ p' w' new, upload_loop clock new_id answer file_type ups p w = Done (p', w') ∧
    dp_Steps p' = dp_Steps p ∧ dp_RemainingSteps p' = dp_RemainingSteps p ∧
    dp_CompletedSteps p' = dp_CompletedSteps p ∧ dp_Index p' = dp_Index p ∧
    dp_DocumentId p' = dp_DocumentId p ∧ w_calls w' = w_calls w ++ new ∧
    Forall (λ c, match c with CallWriteFile _ _ _ content => content = ""%string | _ => False end) new ∧
    length new = length (filter (λ u, uf_FileName u ≠ PipelineStatusFilename ∧
                                      rd_fails (uf_FileContent u) = false) ups) ∧
    (λ f, (fb_Name (fd_Base f), fb_Size (fd_Base f))) <$> dp_Files p' =
      ((λ f, (fb_Name (fd_Base f), fb_Size (fd_Base f))) <$> dp_Files p) ++
      ((λ u, (uf_FileName u, Z.of_nat (String.length (rd_content (uf_FileContent u)) - rd_pos (uf_FileContent u)))) <$>
        filter (λ u, uf_FileName u ≠ PipelineStatusFilename ∧ rd_fails (uf_FileContent u) = false) ups).
Proof.
  assert (∀ s, length (to_bytes s) = String.length s) as Hlen
    by (intros s; induction s; simpl; [done | lia]).
  induction ups as [| u ups IH]; intros p w.
  { exists p, w, []. rewrite !app_nil_r. split; [done |]. do 6 (split; [done |]). split; [constructor |]. done. }
  cbn [upload_loop]. destruct (decide (uf_FileName u = PipelineStatusFilename)) as [Hs | Hs].
  { rewrite filter_cons_False by tauto. apply IH. }
  unfold ReadAll at 1. destruct (rd_fails (uf_FileContent u)) eqn:Hf.
  { rewrite filter_cons_False by (intros [_ Hc]; congruence). apply IH. }
  rewrite filter_cons_True by done. unfold ReadAll. cbn [rd_fails]. rewrite ?Hf. cbn [fst default rd_pos rd_content].
  rewrite (drop_ge _ (String.length (rd_content (uf_FileContent u)))) by (rewrite Hlen; lia). cbn [String.string_of_list_ascii].
  rewrite (GoM_bind_done _ _ _ _ _ (storage_ok _ w)).
  unfold mbind at 1, GoM_bind at 1, uuid_New. unfold mbind, GoM_bind, time_now. cbn [w_reads w_calls].
  match goal with |- context [upload_loop _ _ _ _ ups ?p1 ?w1] =>
    destruct (IH p1 w1) as (p2 & w2 & new & Hrun & G1 & G2 & G3 & G4 & G5 & G6 & G7 & G8 & G9) end.
  exists p2, w2, (CallWriteFile (dp_Index p) (dp_DocumentId p) (uf_FileName u) "" :: new).
  split; [exact Hrun |]. do 5 (split; [done |]).
  split; [by rewrite G6; simpl; rewrite <- app_assoc |]. split; [by constructor |].
  split; [simpl; lia |]. rewrite G9. simpl. rewrite fmap_app, <- app_assoc. simpl.
  do 3 f_equal. rewrite <- Hlen, String.list_ascii_of_string_of_list_ascii, length_drop, Hlen. lia.
Qed.

Lemma ReadPipelineStatus_fails index documentId w :
  ∃ e w' new, ReadPipelineStatus answer defaultIndexName index documentId w = Done (Fail e, w') ∧
    w_calls w' = w_calls w ++ new ∧
    Forall (λ c, match c with CallReadFile _ _ _ => True | _ => False end) new.
Proof.
  unfold ReadPipelineStatus. destruct (CleanName (Some index) defaultIndexName) as [i | e].
  - rewrite (bind_err_ok _ _ w i w) by done.
    rewrite (bind_err_ok _ _ _ _ _ (storage_ok _ w)). eexists _, _, [_].
    split; [reflexivity |]. split; [done |]. by repeat constructor.
  - eexists _, w, []. split; [reflexivity |]. by rewrite app_nil_r.
Qed.

(** Calls that neither invoke a handler nor delete anything. *)
Definition harmless (c : StorageCall) : Prop :=
  match c with
  | CallInvoke _ | CallDeleteIndexDirectory _ | CallDeleteDocumentDirectory _ _ => False
  | _ => True
  end.

Lemma invoked_harmless new : Forall harmless new → invoked new = [].
Proof. induction 1 as [| c new Hc _ IH]; [done |]. by destruct c. Qed.

Lemma UploadFiles_ok p w :
  ∃ p' w' new, UploadFiles clock new_id answer file_type defaultIndexName p w = Done (Ok p', w') ∧
    dp_Steps p' = dp_Steps p ∧ dp_RemainingSteps p' = dp_RemainingSteps p ∧
    dp_CompletedSteps p' = dp_CompletedSteps p ∧ dp_Index p' = dp_Index p ∧
    dp_DocumentId p' = dp_DocumentId p ∧ w_calls w' = w_calls w ++ new ∧ Forall harmless new.
Proof.
  unfold UploadFiles. destruct (Complete p).
  { exists p, w, []. rewrite app_nil_r. split; [done |]. do 6 (split; [done |]). constructor. }
  destruct (ReadPipelineStatus_fails (dp_Index p) (dp_DocumentId p) w) as (e & w1 & n1 & H1 & C1 & F1).
  rewrite (GoM_bind_done _ _ _ _ _ H1). unfold uploadFormFiles.
  rewrite (bind_err_ok _ _ _ _ _ (storage_ok _ w1)).
  rewrite (bind_err_ok _ _ _ _ _ (storage_ok _ _)).
  match goal with |- context [upload_loop _ _ _ _ ?ups ?p1] => set (w2 := mkWorld (w_calls (mkWorld (w_calls w1 ++ [CallCreateIndexDirectory (dp_Index p)]) (w_reads w1)) ++ [CallCreateDocumentDirectory (dp_Index p) (dp_DocumentId p)]) (w_reads w1));
    destruct (upload_loop_ok ups p1 w2) as (p2 & w3 & n3 & H3 & G1 & G2 & G3 & G4 & G5 & G6 & G7 & _ & _) end.
  exists p2, w3, (n1 ++ [CallCreateIndexDirectory (dp_Index p); CallCreateDocumentDirectory (dp_Index p) (dp_DocumentId p)] ++ n3).
  split. { rewrite (GoM_bind_done _ _ _ _ _ H3). done. }
  do 5 (split; [done |]). split.
  { rewrite G6. simpl. rewrite C1, <- !app_assoc. done. }
  apply Forall_app. split; [eapply Forall_impl; [exact F1 |]; by intros [] |].
  do 2 (constructor; [done |]). eapply Forall_impl; [exact G7 |]. by intros [].
Qed.

(** A whole run with good handlers and a working storage. *)
Lemma RunPipeline_ok hs fuel p w :
  Forall (λ s, s ∈ hs ∧ handler_ok invoke s) (dp_RemainingSteps p) →
  (length (dp_RemainingSteps p) < fuel)%nat →
  ∃ w' new cleanup p', RunPipeline clock new_id answer file_type invoke defaultIndexName fuel (Some hs) p w =
      finish (Ok tt, w') ∧
    w_calls w' = w_calls w ++ new ++ cleanup ∧
    invoked (new ++ cleanup) = dp_RemainingSteps p ∧
    Forall (λ c, match c with CallDeleteIndexDirectory _ | CallDeleteDocumentDirectory _ _ => False | _ => True end) new ∧
    cleanup = (if IsDocumentDeletionPipeline p then [CallDeleteDocumentDirectory (dp_Index p) (dp_DocumentId p)] else []) ++
              (if IsIndexDeletionPipeline p then [CallDeleteIndexDirectory (dp_Index p)] else []) ∧
    CallWriteStatus (dp_Index p) (dp_DocumentId p) p' ∈ new ∧ Complete p' = true ∧
    dp_CompletedSteps p' = dp_CompletedSteps p ++ dp_RemainingSteps p.
Proof.
  intros Hall Hlen. unfold RunPipeline.
  destruct (UploadFiles_ok p w) as (p1 & w1 & n1 & H1 & U1 & U2 & U3 & U4 & U5 & C1 & F1).
  rewrite (bind_err_ok _ _ _ _ _ H1).
  unfold UpdatePipelineStatus at 1. rewrite (bind_err_ok _ _ _ _ _ (storage_ok _ w1)).
  cbn [fueled_bind mret GoM_ret]. unfold mret, GoM_ret. cbn [fueled_bind].
  destruct (run_loop_ok hs fuel p1 (mkWorld (w_calls w1 ++ [CallWriteStatus (dp_Index p1) (dp_DocumentId p1) p1]) (w_reads w1)))
    as (p2 & w2 & n2 & H2 & L1 & L2 & L3 & L4 & L5 & L6 & L7 & L8 & L9).
  { by rewrite U2. }
  { by rewrite U2. }
  rewrite H2. cbn [fueled_bind finish]. unfold CleanUpAfterCompletion.
  assert (IsDocumentDeletionPipeline p2 = IsDocumentDeletionPipeline p) as Hd
    by (unfold IsDocumentDeletionPipeline; by rewrite L2, U1).
  assert (IsIndexDeletionPipeline p2 = IsIndexDeletionPipeline p) as Hi
    by (unfold IsIndexDeletionPipeline; by rewrite L2, U1).
  rewrite Hd, Hi.
  set (cd := if IsDocumentDeletionPipeline p then [CallDeleteDocumentDirectory (dp_Index p) (dp_DocumentId p)] else []).
  set (ci := if IsIndexDeletionPipeline p then [CallDeleteIndexDirectory (dp_Index p)] else []).
  assert ((if IsDocumentDeletionPipeline p
     then storage answer (CallDeleteDocumentDirectory (dp_Index p2) (dp_DocumentId p2))
     else mret (Ok tt)) w2 = Done (Ok tt, mkWorld (w_calls w2 ++ cd) (w_reads w2))) as Hcd.
  { unfold cd. rewrite L4, L5, U4, U5. destruct (IsDocumentDeletionPipeline p); [apply storage_ok |].
    rewrite app_nil_r. by destruct w2. }
  rewrite (bind_err_ok _ _ _ _ _ Hcd).
  assert (∀ w3, (if IsIndexDeletionPipeline p then storage answer (CallDeleteIndexDirectory (dp_Index p2))
     else mret (Ok tt)) w3 = Done (Ok tt, mkWorld (w_calls w3 ++ ci) (w_reads w3))) as Hci.
  { intros w3. unfold ci. rewrite L4, U4. destruct (IsIndexDeletionPipeline p); [apply storage_ok |].
    rewrite app_nil_r. by destruct w3. }
  rewrite Hci. cbn [w_calls w_reads].
  set (st := CallWriteStatus (dp_Index p1) (dp_DocumentId p1) p1).
  exists (mkWorld ((w_calls w2 ++ cd) ++ ci) (w_reads w2)), (n1 ++ [st] ++ n2), (cd ++ ci), p2.
  split; [done |]. split. { simpl. rewrite L6. simpl. rewrite C1. rewrite <- !app_assoc. done. }
  split.
  { rewrite !invoked_app, (invoked_harmless _ F1), L7, U2. simpl.
    assert (invoked cd = []) as -> by (unfold cd; by destruct (IsDocumentDeletionPipeline p)).
    assert (invoked ci = []) as -> by (unfold ci; by destruct (IsIndexDeletionPipeline p)).
    by rewrite app_nil_r. }
  split.
  { apply Forall_app. split; [eapply Forall_impl; [exact F1 |]; by intros [] |].
    constructor; [done |]. eapply Forall_impl; [exact L8 |]. by intros []. }
  split; [done |]. split.
  { apply elem_of_app. right. destruct (decide (dp_RemainingSteps p1 = [])) as [He | Hne].
    - assert (p2 = p1) as ->; [| rewrite <- U4, <- U5; by left].
      destruct fuel as [| fuel]; [lia |]. cbn [Pipeline.run_loop] in H2. unfold Complete in H2 at 1.
      rewrite bool_decide_eq_true_2 in H2 by done. unfold finish in H2. congruence.
    - right. rewrite <- U4, <- U5. by apply L9. }
  split; [done |]. by rewrite L3, U3, U2.
Qed.
End RunProofs.

(** ** Properties *)

(** With a handler for every step that succeeds and leaves the step lists
    alone, and a storage that accepts every call, a pipeline run terminates
    successfully within one round per step; the handlers are invoked exactly
    once each, in the order of the remaining steps, and the stored status ends
    with every step moved to the completed ones. *)
Theorem run_pipeline_completes clock new_id answer file_type invoke dflt hs fuel p w :
  (∀ calls c, answer calls c = None) →
  Forall (λ s, s ∈ hs ∧ handler_ok invoke s) (dp_RemainingSteps p) →
  (length (dp_RemainingSteps p) < fuel)%nat →
  ∃ w' new p', RunPipeline clock new_id answer file_type invoke dflt fuel (Some hs) p w = finish (Ok tt, w') ∧
    w_calls w' = w_calls w ++ new ∧ invoked new = dp_RemainingSteps p ∧
    CallWriteStatus (dp_Index p) (dp_DocumentId p) p' ∈ new ∧ Complete p' = true ∧
    dp_CompletedSteps p' = dp_CompletedSteps p ++ dp_RemainingSteps p.
Proof.
  intros Hst Hall Hlen.
  destruct (RunPipeline_ok clock new_id answer file_type invoke dflt Hst hs fuel p w Hall Hlen)
    as (w' & new & cleanup & p' & Hrun & Hc & Hi & _ & _ & Hw & Hcomp & Hdone).
  exists w', (new ++ cleanup), p'. split; [done |]. split; [done |]. split; [done |].
  split; [| done]. apply elem_of_app. by left.
Qed.

(** A world where everything succeeds. *)
Definition steady (n : nat) : Z := Z.of_nat n.
Definition ids (n : nat) : string := pretty n.
Definition storage_yes : list StorageCall → StorageCall → option string := λ _ _, None.
Definition text_type : string → res string := λ _, Ok "text/plain"%string.
Definition good_handler : string → list StorageCall → DataPipeline → HandlerAnswer :=
  λ _ _ p, mkAnswer p ReturnTypeSuccess (Some p) None.
Definition world0 : World := mkWorld [] 0.

Lemma good_handler_ok step : handler_ok good_handler step.
Proof. intros calls p. exists p, p. done. Qed.

Definition example_pipeline : DataPipeline :=
  Build 1 (Then (Then (new_pipeline "idx" "doc") "extract") "partition").

Lemma run_pipeline_completes_witness :
  ∃ w', RunPipeline steady ids storage_yes text_type good_handler None 3 (Some {["extract"%string; "partition"%string]})
    example_pipeline world0 = finish (Ok tt, w') ∧ invoked (w_calls w') = ["extract"%string; "partition"%string].
Proof.
  destruct (run_pipeline_completes steady ids storage_yes text_type good_handler None
    {["extract"%string; "partition"%string]} 3 example_pipeline world0) as (w' & new & p' & Hrun & Hc & Hi & _).
  - reflexivity.
  - repeat constructor; auto using good_handler_ok; set_solver.
  - simpl. lia.
  - exists w'. split; [exact Hrun |]. rewrite Hc. exact Hi.
Defined.

(** A step that reports a transient or a fatal error without returning an
    error value makes the run loop for ever: for every amount of fuel the loop
    is still running, whatever the other handlers do and whatever was called
    before. *)
Theorem failing_step_never_returns clock answer invoke hs p w step rest :
  dp_RemainingSteps p = step :: rest → step ∈ hs →
  (∀ calls q, head (dp_RemainingSteps q) = Some step →
     ha_err (invoke step calls q) = None ∧ ha_type (invoke step calls q) ≠ ReturnTypeSuccess ∧
     dp_RemainingSteps (ha_input (invoke step calls q)) = dp_RemainingSteps q) →
  ∀ fuel, run_loop clock answer invoke fuel (Some hs) p w = None.
Proof.
  intros Hr Hin Hfail fuel. revert p w Hr. induction fuel as [| fuel IH]; intros p w Hr; [done |].
  cbn [run_loop]. unfold Complete. rewrite bool_decide_eq_false_2 by (rewrite Hr; done).
  destruct (Hfail (w_calls w) p) as (He & Ht & Hsame); [by rewrite Hr |].
  assert (run_step clock answer invoke (Some hs) p w =
    Done (inl (ha_input (invoke step (w_calls w) p)), mkWorld (w_calls w ++ [CallInvoke step]) (w_reads w))) as ->.
  { unfold run_step, has_handler. rewrite Hr. simpl. rewrite bool_decide_eq_true_2 by done. simpl.
    unfold mbind, GoM_bind, Invoke. simpl. rewrite He. by destruct (ha_type _). }
  cbn [fueled_bind]. apply IH. by rewrite Hsame.
Qed.

Definition flaky_handler : string → list StorageCall → DataPipeline → HandlerAnswer :=
  λ _ _ p, mkAnswer p ReturnTypeFatalError (Some p) None.

Lemma failing_step_never_returns_witness :
  run_loop steady storage_yes flaky_handler 1000 (Some {["extract"%string]}) example_pipeline world0 = None.
Proof.
  apply (failing_step_never_returns steady storage_yes flaky_handler {["extract"%string]} example_pipeline world0
    "extract" ["partition"%string]).
  - reflexivity.
  - set_solver.
  - intros calls q _. repeat split. discriminate.
Defined.

(** Deleting one document deletes its whole index.  The pipeline
    [PrepareDocumentDeletion] builds, run to its end by good handlers, asks the
    storage to delete the directory of the index and never that of the
    document. *)
Theorem document_deletion_deletes_index clock new_id answer file_type invoke dflt hs now index documentId w :
  (∀ calls c, answer calls c = None) →
  PipelineStepsDeleteIndex ∈ hs → handler_ok invoke PipelineStepsDeleteIndex →
  ∃ w' new, RunPipeline clock new_id answer file_type invoke dflt 2 (Some hs)
      (PrepareDocumentDeletion now index documentId) w = finish (Ok tt, w') ∧
    w_calls w' = w_calls w ++ new ++ [CallDeleteIndexDirectory index] ∧
    ∀ i d, CallDeleteDocumentDirectory i d ∉ new ++ [CallDeleteIndexDirectory index].
Proof.
  intros Hst Hin Hok.
  destruct (RunPipeline_ok clock new_id answer file_type invoke dflt Hst hs 2
    (PrepareDocumentDeletion now index documentId) w)
    as (w' & new & cleanup & p' & Hrun & Hc & _ & Hharm & -> & _).
  - by repeat constructor.
  - simpl. lia.
  - exists w', new. split; [done |]. split; [exact Hc |].
    intros i d Hd. apply elem_of_app in Hd as [Hd | Hd].
    + rewrite Forall_forall in Hharm. exact (Hharm _ Hd).
    + apply list_elem_of_singleton in Hd. discriminate.
Qed.

Lemma document_deletion_deletes_index_witness :
  ∃ w' new, RunPipeline steady ids storage_yes text_type good_handler None 2 (Some {[PipelineStepsDeleteIndex]})
      (PrepareDocumentDeletion 7 "idx" "doc") world0 = finish (Ok tt, w') ∧
    w_calls w' = new ++ [CallDeleteIndexDirectory "idx"].
Proof.
  destruct (document_deletion_deletes_index steady ids storage_yes text_type good_handler None
    {[PipelineStepsDeleteIndex]} 7 "idx" "doc" world0) as (w' & new & Hrun & Hc & _).
  - reflexivity.
  - set_solver.
  - apply good_handler_ok.
  - exists w', new. split; [exact Hrun | exact Hc].
Defined.

(** The step lists of a pipeline are a zipper: after [Build], however often
    the pipeline moves to the next step or rolls back, its completed steps
    followed by its remaining steps are its steps; and moving forth and rolling
    back undo each other. *)
Theorem steps_are_a_zipper now p moves :
  dp_CompletedSteps p = [] →
  let q := foldr move (Build now p) moves in
  dp_Steps q = dp_Steps p ∧
  dp_CompletedSteps q ++ dp_RemainingSteps q = dp_Steps p ∧
  (dp_RemainingSteps q ≠ [] → move false (move true q) = q) ∧
  (dp_CompletedSteps q ≠ [] → move true (move false q) = q) ∧
  (Complete q = true ↔ dp_CompletedSteps q = dp_Steps p).
Proof.
  intros Hfresh. cbv zeta. set (q := foldr move (Build now p) moves).
  assert (dp_Steps q = dp_Steps p ∧ dp_CompletedSteps q ++ dp_RemainingSteps q = dp_Steps p) as [Hs Hz].
  { unfold q. induction moves as [| m moves [IH1 IH2]]; simpl.
    - unfold Build. case_decide; simpl; by rewrite Hfresh.
    - destruct (move_steps m (foldr move (Build now p) moves)) as [-> ->]. done. }
  clearbody q. split; [done |]. split; [done |]. split; [| split].
  - unfold move, MoveToNextStep. destruct q as [? ? ? steps rem comp]; simpl in *.
    destruct rem as [| s rem]; [done |]. intros _. unfold RollbackToPreviousStep. simpl.
    rewrite last_snoc, removelast_last. done.
  - unfold move, RollbackToPreviousStep. destruct q as [? ? ? steps rem comp]; simpl in *.
    destruct (last comp) as [s |] eqn:Hl; [| by apply last_None in Hl].
    apply last_Some in Hl as [l ->]. intros _. unfold MoveToNextStep. simpl.
    rewrite removelast_last. done.
  - unfold Complete. rewrite bool_decide_eq_true. split; [intros He; by rewrite He, app_nil_r in Hz |].
    intros He. rewrite He in Hz. rewrite <- (app_nil_r (dp_Steps p)) in Hz at 2. by apply app_inv_head in Hz.
Qed.

Lemma steps_are_a_zipper_witness :
  dp_CompletedSteps (foldr move (Build 1 example_pipeline) [true; false; true]) = ["extract"%string] ∧
  dp_Steps (foldr move (Build 1 example_pipeline) [true; false; true]) = ["extract"%string; "partition"%string].
Proof.
  destruct (steps_are_a_zipper 1 example_pipeline [true; false; true] eq_refl) as (Hs & Hz & _).
  split; [reflexivity | exact Hs].
Defined.

(** Uploading loses the content.  With a storage that accepts every call,
    each readable file is registered with the size of its unread content, but
    what is written to the storage for it is the empty string; and the helpers
    that take bytes, a reader or a path do not add any file at all. *)
Theorem uploaded_content_is_lost clock new_id answer file_type p w :
  (∀ calls c, answer calls c = None) →
  let readable := filter (λ u, uf_FileName u ≠ PipelineStatusFilename ∧ rd_fails (uf_FileContent u) = false)
                    (dp_FilesToUpload p) in
  (∃ p' w' new, uploadFormFiles clock new_id answer file_type p w = Done (Ok p', w') ∧
    w_calls w' = w_calls w ++ [CallCreateIndexDirectory (dp_Index p);
                               CallCreateDocumentDirectory (dp_Index p) (dp_DocumentId p)] ++ new ∧
    length new = length readable ∧
    Forall (λ c, match c with CallWriteFile _ _ _ content => content = ""%string | _ => False end) new ∧
    (λ f, (fb_Name (fd_Base f), fb_Size (fd_Base f))) <$> dp_Files p' =
      ((λ f, (fb_Name (fd_Base f), fb_Size (fd_Base f))) <$> dp_Files p) ++
      ((λ u, (uf_FileName u, Z.of_nat (String.length (rd_content (uf_FileContent u)) - rd_pos (uf_FileContent u))))
        <$> readable)) ∧
  (∀ filename content r, AddUploadFileByte p filename content = p ∧ AddUploadFileReader p filename r = p ∧
     AddUploadFile p filename (Some content) = p).
Proof.
  intros Hst readable. split; [| done]. unfold uploadFormFiles.
  rewrite (bind_err_ok _ _ _ _ _ (storage_ok answer Hst _ w)).
  rewrite (bind_err_ok _ _ _ _ _ (storage_ok answer Hst _ _)).
  match goal with |- context [mbind _ _ ?w2] =>
    destruct (upload_loop_ok clock new_id answer file_type Hst (dp_FilesToUpload p) p w2)
      as (p2 & w3 & new & H3 & _ & _ & _ & _ & _ & G6 & G7 & G8 & G9) end.
  exists p2, w3, new. split. { by rewrite (GoM_bind_done _ _ _ _ _ H3). }
  split. { rewrite G6. simpl. by rewrite <- !app_assoc. } done.
Qed.

Definition upload_pipeline : DataPipeline :=
  AddUploadFileStream example_pipeline "a.txt" (mkReader "hello" 0 false true).

Lemma uploaded_content_is_lost_witness :
  ∃ p' w' new, uploadFormFiles steady ids storage_yes text_type upload_pipeline world0 = Done (Ok p', w') ∧
    length new = 1%nat ∧ Forall (λ c, match c with CallWriteFile _ _ _ content => content = ""%string | _ => False end) new.
Proof.
  destruct (uploaded_content_is_lost steady ids storage_yes text_type upload_pipeline world0) as [(p' & w' & new & Hrun & _ & Hl & Hall & _) _].
  - reflexivity.
  - exists p', w', new. split; [exact Hrun |]. split; [exact Hl | exact Hall].
Defined.
