(* ===== verification/Cron.v ===== *)
(** Cron expressions: [openclaw/util/cron.go].

    Lower-casing outside ASCII is the parameter [lower_rune]; parsing into a
    schedule is the robfig library's and not modelled.  [IsValidCronField]
    recurses on parts of its field and is given fuel; [field_fuel] is one more
    than the field's length, which [cron_field_grammar] shows is enough. *)

From S2P Require Import Prelude GoStrings.
Local Open Scope string_scope.
Local Open Scope Z_scope.

Definition comma : ascii := byte 44.
Definition slash : ascii := byte 47.
Definition dash : ascii := byte 45.

Definition IntervalToCron (interval : string) : res string :=
  let l := to_bytes interval in
  if (length l <? 2)%nat then Fail ("invalid interval: " +:+ interval)
  else
    match last l with
    | None => Fail ""
    | Some unit =>
        match Atoi (of_bytes (removelast l)) with
        | None => Fail ("invalid interval value: " +:+ interval)
        | Some val =>
            if val <=? 0 then Fail ("invalid interval value: " +:+ interval)
            else if decide (unit = byte 115) then
              if 60 <=? val then Ok ("*/" +:+ Itoa (Z.quot val 60) +:+ " * * * *")
              else Ok ("*/" +:+ Itoa val +:+ " * * * * *")
            else if decide (unit = byte 109) then Ok ("*/" +:+ Itoa val +:+ " * * * *")
            else if decide (unit = byte 104) then Ok ("0 */" +:+ Itoa val +:+ " * * *")
            else Fail ("unknown interval unit: " +:+ of_runes [code unit])
        end
    end.

(** The shorthand names. *)
Definition expand_name (expression : string) : string :=
  if decide (expression = "@hourly") then "0 * * * *"
  else if decide (expression = "@daily") then "0 0 * * *"
  else if decide (expression = "@weekly") then "0 0 * * 0"
  else if decide (expression = "@monthly") then "0 0 1 * *"
  else expression.

Fixpoint IsValidCronField (fuel : nat) (field : string) (min max : Z) : bool :=
  match fuel with
  | O => false
  | S fuel =>
      if IsBlank field then false
      else if decide (field = "*") then true
      else if decide (field = "L") then min =? 1
      else match Atoi field with
      | Some exact => (min <=? exact) && (exact <=? max)
      | None =>
          if Contains field (String comma "") then
            forallb (λ option, negb (bool_decide (option = "")) && IsValidCronField fuel option min max)
              (Split field comma)
          else if Contains field (String slash "") then
            match Split field slash with
            | [base; step] =>
                match Atoi step with
                | Some n => (0 <? n) && (bool_decide (base = "*") || IsValidCronField fuel base min max)
                | None => false
                end
            | _ => false
            end
          else if Contains field (String dash "") then
            match Split field dash with
            | [a; b] =>
                match Atoi a, Atoi b with
                | Some start, Some stop =>
                    (min <=? start) && (start <=? max) && (min <=? stop) && (stop <=? max)
                | _, _ => false
                end
            | _ => false
            end
          else false
      end
  end.

Definition field_fuel (field : string) : nat := S (String.length field).

Section Cron.
Variable lower_rune : N → N.

Definition NormalizeCronExpression (expression : string) : string :=
  expand_name (ToLower lower_rune (TrimSpace expression)).

Definition IsValidCronExpression (expression : string) : bool :=
  if IsBlank expression then false
  else match Split (NormalizeCronExpression expression) (byte 32) with
       | [f0; f1; f2; f3; f4] =>
           IsValidCronField (field_fuel f0) f0 0 59 && IsValidCronField (field_fuel f1) f1 0 23 &&
           IsValidCronField (field_fuel f2) f2 1 31 && IsValidCronField (field_fuel f3) f3 1 12 &&
           IsValidCronField (field_fuel f4) f4 0 6
       | _ => false
       end.

(** [days_in_month] is [util.DaysInMonth] of the given time. *)
Definition NormalizeExpression (expression days_in_month : string) : string :=
  let parts := Split (expand_name (ToLower lower_rune (TrimSpace expression))) (byte 32) in
  let dayOfMonthIndex := match length parts with 5%nat => Some 2%nat | 6%nat => Some 3%nat | _ => None end in
  let parts := match dayOfMonthIndex with
               | Some i => if decide (parts !! i = Some "1") then <[i := days_in_month]> parts else parts
               | None => parts
               end in
  JoinStrings parts " ".
End Cron.

(** ** Specification *)

(** The accepted fields: a star, L for the last day, a number in range, a list,
    a step of a star or a field, a range (which may run backwards). *)
Inductive valid_field (min max : Z) : string → Prop :=
  | vf_star : valid_field min max "*"
  | vf_last : min = 1 → valid_field min max "L"
  | vf_exact f n : Atoi f = Some n → min ≤ n ≤ max → valid_field min max f
  | vf_list f : comma ∈ to_bytes f → (∀ w, w ∈ Split f comma → valid_field min max w) → valid_field min max f
  | vf_step f base step n :
      comma ∉ to_bytes f → Split f slash = [base; step] → Atoi step = Some n → 0 < n →
      valid_field min max base → valid_field min max f
  | vf_range f a b x y :
      Split f dash = [a; b] → Atoi a = Some x → Atoi b = Some y →
      min ≤ x ≤ max → min ≤ y ≤ max → valid_field min max f.

(** ** Lemmas *)

Lemma trim_left_removed fuel ps l :
  ∃ rs, Forall (λ r, r ∈ ps) rs ∧ l = (concat rs ++ trim_left fuel ps l)%list.
Proof.
  revert l. induction fuel as [| fuel IH]; intros l; simpl; [by exists [] |].
  destruct (strip_any ps l) as [r |] eqn:Hs; [| by exists []].
  apply strip_any_Some in Hs as (p & Hp & ->). destruct (IH r) as (rs & Hrs & Hr).
  exists (p :: rs). split; [by constructor |]. simpl. by rewrite <- app_assoc, <- Hr.
Qed.

(** A string with a byte that occurs in no white space is not blank. *)
Lemma not_blank f c : c ∈ to_bytes f → c ∉ concat space_runes → IsBlank f = false.
Proof.
  intros Hc Hns. unfold IsBlank. apply bool_decide_eq_false. unfold TrimSpace. intros Htrim.
  assert (trim_bytes (to_bytes f) = []) as Hemp.
  { destruct (trim_bytes (to_bytes f)) as [| x l]; [done | discriminate]. }
  unfold trim_bytes in Hemp. apply (f_equal (@rev ascii)) in Hemp. rewrite rev_involutive in Hemp. cbn [rev] in Hemp.
  destruct (trim_left_removed (length (to_bytes f)) space_runes (to_bytes f)) as (rs1 & H1 & E1).
  set (l1 := trim_left (length (to_bytes f)) space_runes (to_bytes f)) in *.
  destruct (trim_left_removed (length l1) (map (@rev _) space_runes) (rev l1)) as (rs2 & H2 & E2).
  rewrite Hemp, app_nil_r in E2.
  assert (∀ rs, Forall (λ r, r ∈ space_runes ∨ r ∈ map (@rev _) space_runes) rs → c ∈ concat rs → False) as Hno.
  { intros rs Hrs Hin. apply Hns. apply list_elem_of_In, in_concat in Hin as (r & Hr & Hcr).
    rewrite Forall_forall in Hrs. apply list_elem_of_In in Hr. specialize (Hrs _ Hr).
    apply list_elem_of_In, in_concat. destruct Hrs as [Hrs | Hrs].
    - exists r. split; [by apply list_elem_of_In | done].
    - apply list_elem_of_In, in_map_iff in Hrs as (r' & <- & Hr'). exists r'. split; [done |].
      by apply in_rev. }
  rewrite E1 in Hc. apply elem_of_app in Hc as [Hc | Hc].
  - apply (Hno rs1); [| done]. eapply Forall_impl; [exact H1 |]. by left.
  - apply (Hno rs2).
    + eapply Forall_impl; [exact H2 |]. by right.
    + rewrite <- E2. apply list_elem_of_In. apply -> in_rev. by apply list_elem_of_In.
Qed.

Lemma digits_value_Forall l : ∀ acc v, digits_value acc l = Some v → Forall (λ c, is_digit c = true) l.
Proof.
  induction l as [| c l IH]; simpl; intros acc v Hv; [constructor |].
  destruct (is_digit c) eqn:Hc; [| done]. constructor; [done | by eapply IH].
Qed.

(** What a number looks like: a first byte that is a digit or a sign, digits. *)
Lemma Atoi_shape f n : Atoi f = Some n →
  ∃ c l, to_bytes f = c :: l ∧ (is_digit c = true ∨ c = byte 43 ∨ c = byte 45) ∧
    Forall (λ c, is_digit c = true) l.
Proof.
  unfold Atoi. destruct (to_bytes f) as [| c l]; [done |].
  assert (∀ k v, match k with [] => None | _ => digits_value 0 k end = Some v → Forall (λ c, is_digit c = true) k) as Hmag.
  { intros k v. destruct k; [constructor |]. apply digits_value_Forall. }
  intros H. exists c, l. split; [done |].
  destruct (decide (c = byte 43)) as [-> |].
  { split; [auto |]. destruct l; [constructor |]. by destruct (digits_value 0 _) eqn:Hv; [eapply digits_value_Forall |]. }
  destruct (decide (c = byte 45)) as [-> |].
  { split; [auto |]. destruct l; [constructor |]. by destruct (digits_value 0 _) eqn:Hv; [eapply digits_value_Forall |]. }
  destruct (digits_value 0 (c :: l)) as [v |] eqn:Hv; [| done].
  apply digits_value_Forall in Hv. inversion Hv; subst. split; [by left | done].
Qed.

Lemma Atoi_chars f n c : Atoi f = Some n → c ∈ to_bytes f → is_digit c = true ∨ c = byte 43 ∨ c = byte 45.
Proof.
  intros (c0 & l & -> & Hc & Hl)%Atoi_shape [-> | Hin]%elem_of_cons; [done |].
  rewrite Forall_forall in Hl. left. by apply Hl.
Qed.

Lemma digit_not_space c : is_digit c = true ∨ c = byte 43 ∨ c = byte 45 ∨ c = comma ∨ c = slash → c ∉ concat space_runes.
Proof.
  intros Hc Hin.
  assert (Forall (λ c, is_digit c = false ∧ c ≠ byte 43 ∧ c ≠ byte 45 ∧ c ≠ comma ∧ c ≠ slash) (concat space_runes)) as Hall.
  { repeat constructor; try (intros H; discriminate H). }
  rewrite Forall_forall in Hall. destruct (Hall c Hin) as (H1 & H2 & H3 & H4 & H5).
  destruct Hc as [Hc | [Hc | [Hc | [Hc | Hc]]]]; congruence.
Qed.

Lemma Atoi_not_blank f n : Atoi f = Some n → IsBlank f = false.
Proof.
  intros Hn. destruct (Atoi_shape f n Hn) as (c & l & Hf & Hc & _).
  apply (not_blank f c); [rewrite Hf; by left |]. apply digit_not_space. tauto.
Qed.

(** [strings.Contains] of a one-byte string is membership. *)
Lemma Contains_byte f c : Contains f (String c "") = true ↔ c ∈ to_bytes f.
Proof.
  unfold Contains. simpl. generalize (to_bytes f). intros l.
  assert (match index_bytes [c] l with Some _ => true | None => false end = true ↔ c ∈ l) as H; [| exact H].
  induction l as [| d l IH]; [split; [done | by intros ?%elem_of_nil] |].
  cbn [index_bytes]. unfold has_prefix. cbn [strip_prefix].
  destruct (decide (c = d)) as [<- | Hne].
  - split; [by left | done].
  - rewrite elem_of_cons, <- IH. destruct (index_bytes [c] l); simpl; naive_solver.
Qed.

Lemma Split_bytes_of f c ws : Split f c = ws → to_bytes f = join_bytes c (to_bytes <$> ws).
Proof.
  intros <-. unfold Split. rewrite <- list_fmap_compose.
  rewrite <- (join_split_bytes c (to_bytes f)) at 1. f_equal.
  rewrite <- (list_fmap_id (split_bytes c (to_bytes f))) at 1. apply list_fmap_ext.
  intros i w _. simpl. by rewrite to_bytes_of_bytes.
Qed.

Lemma join_length_le c (ws : list bytes) w : w ∈ ws → (length w ≤ length (join_bytes c ws))%nat.
Proof.
  induction ws as [| v ws IH]; [by intros ?%elem_of_nil |].
  intros [-> | Hin]%elem_of_cons; destruct ws as [| v' ws]; simpl.
  - lia.
  - rewrite length_app. simpl. lia.
  - by apply elem_of_nil in Hin.
  - rewrite length_app. specialize (IH Hin). simpl in *. lia.
Qed.

(** The parts of a field that contains the separator are shorter than it. *)
Lemma Split_shorter f c w : c ∈ to_bytes f → w ∈ Split f c → (String.length w < String.length f)%nat.
Proof.
  intros Hc Hw. rewrite <- !to_bytes_length. rewrite (Split_bytes_of f c _ eq_refl).
  assert (c ∉ to_bytes w) as Hnot.
  { pose proof (Split_no_sep f c) as Hall. rewrite Forall_forall in Hall. by apply Hall. }
  apply (list_elem_of_fmap_2 to_bytes) in Hw.
  pose proof (join_length_le c _ _ Hw) as Hle.
  assert (length (to_bytes w) ≠ length (join_bytes c (to_bytes <$> Split f c))); [| lia].
  intros Heq. apply Hnot. rewrite (Split_bytes_of f c _ eq_refl) in Hc.
  destruct (to_bytes <$> Split f c) as [| v [| v' vs]]; [by apply elem_of_nil in Hc | |].
  - apply list_elem_of_singleton in Hw. rewrite Hw. by simpl in Hc.
  - exfalso. apply elem_of_cons in Hw as [Hw | Hw].
    + rewrite Hw in Heq. simpl in Heq. rewrite length_app in Heq. simpl in Heq. lia.
    + pose proof (join_length_le c _ _ Hw) as Hle'. simpl in Heq, Hle'. rewrite length_app in Heq. simpl in Heq. lia.
Qed.

Lemma Split_two f c a b : Split f c = [a; b] → to_bytes f = (to_bytes a ++ c :: to_bytes b)%list.
Proof. intros H%Split_bytes_of. exact H. Qed.

Lemma Split_two_elem f c a b : Split f c = [a; b] → c ∈ to_bytes f.
Proof. intros ->%Split_two. apply elem_of_app. right. by left. Qed.

Lemma Atoi_no_byte f c : c ∈ to_bytes f → c = comma ∨ c = slash → Atoi f = None.
Proof.
  intros Hc Hsep. destruct (Atoi f) eqn:Hn; [| done].
  destruct (Atoi_chars f z c Hn Hc) as [Hd | [Hd | Hd]]; destruct Hsep as [-> | ->]; discriminate Hd.
Qed.

(** A range is no number, list or step. *)
Lemma range_shape f a b x y : Split f dash = [a; b] → Atoi a = Some x → Atoi b = Some y →
  Atoi f = None ∧ (comma ∉ to_bytes f) ∧ (slash ∉ to_bytes f).
Proof.
  intros Hs%Split_two Ha Hb. split.
  - destruct (Atoi f) eqn:Hn; [| done]. exfalso.
    destruct (Atoi_shape f z Hn) as (c & l & Hf & _ & Hl). rewrite Hs in Hf.
    destruct (Atoi_shape a x Ha) as (c' & l' & Hf' & _). rewrite Hf' in Hf.
    rewrite <- app_comm_cons in Hf. apply (f_equal tail) in Hf. cbn [tail] in Hf. subst l.
    rewrite Forall_forall in Hl. specialize (Hl dash). discriminate Hl.
    apply elem_of_app. right. by left.
  - assert (∀ c, c = comma ∨ c = slash → c ∉ to_bytes f) as H; [| by split; apply H; auto].
    intros c Hsep. rewrite Hs. intros [Hin | [Hin | Hin]%elem_of_cons]%elem_of_app.
    + by rewrite (Atoi_no_byte a c Hin Hsep) in Ha.
    + destruct Hsep as [-> | ->]; discriminate Hin.
    + by rewrite (Atoi_no_byte b c Hin Hsep) in Hb.
Qed.

Lemma IsValidCronField_sound min max fuel : ∀ f, IsValidCronField fuel f min max = true → valid_field min max f.
Proof.
  induction fuel as [| fuel IH]; intros f; [done |]. cbn [IsValidCronField].
  destruct (IsBlank f); [done |].
  case_decide; [subst; constructor |].
  case_decide; [subst; intros ?%Z.eqb_eq; by constructor |].
  destruct (Atoi f) as [n |] eqn:Hn.
  { rewrite andb_true_iff, !Z.leb_le. by apply vf_exact. }
  destruct (Contains f (String comma "")) eqn:Hcomma.
  { rewrite forallb_forall. intros Hall. apply vf_list; [by apply Contains_byte |].
    intros w Hw%list_elem_of_In. apply IH. specialize (Hall w Hw). by apply andb_true_iff in Hall as [_ ?]. }
  assert (comma ∉ to_bytes f) as Hc by (rewrite <- Contains_byte; by rewrite Hcomma).
  destruct (Contains f (String slash "")).
  { destruct (Split f slash) as [| base [| step []]] eqn:Hs; [done.. | | done].
    destruct (Atoi step) as [n |] eqn:Hstep; [| done].
    rewrite andb_true_iff, orb_true_iff, Z.ltb_lt, bool_decide_eq_true. intros [Hpos Hbase].
    eapply vf_step; [done.. |]. destruct Hbase as [-> | Hbase]; [constructor | by apply IH]. }
  destruct (Contains f (String dash "")); [| done].
  destruct (Split f dash) as [| a [| b []]] eqn:Hs; [done.. | | done].
  destruct (Atoi a) as [x |] eqn:Ha; [| done]. destruct (Atoi b) as [y |] eqn:Hb; [| done].
  rewrite !andb_true_iff, !Z.leb_le. intros [[[? ?] ?] ?]. by eapply vf_range.
Qed.

Lemma valid_not_empty min max f : valid_field min max f → f ≠ "".
Proof.
  intros [| | f' n Hn | f' Hc | f' ? ? ? ? Hs | f' ? ? ? ? Hs] He; try done; subst.
  - discriminate Hn.
  - by apply elem_of_nil in Hc.
  - discriminate Hs.
  - discriminate Hs.
Qed.

Lemma IsValidCronField_complete min max f :
  valid_field min max f → ∀ fuel, (String.length f < fuel)%nat → IsValidCronField fuel f min max = true.
Proof.
  induction 1 as [| Hmin | f n Hn Hr | f Hc Hw IH | f base step n Hc Hs Hstep Hpos Hbase IH | f a b x y Hs Ha Hb Hx Hy];
    intros [| fuel] Hfuel; try lia; cbn [IsValidCronField].
  - done.
  - subst. done.
  - rewrite (Atoi_not_blank f n Hn). case_decide; [done |].
    case_decide as HL; [subst; discriminate Hn |].
    rewrite Hn, andb_true_iff, !Z.leb_le. done.
  - rewrite (not_blank f comma Hc) by (apply digit_not_space; tauto).
    case_decide; [done |]. case_decide; [subst; by apply list_elem_of_singleton in Hc |].
    rewrite (Atoi_no_byte f comma Hc) by auto. rewrite (proj2 (Contains_byte f comma) Hc).
    apply forallb_forall. intros w Hin%list_elem_of_In. rewrite andb_true_iff. split.
    + rewrite negb_true_iff, bool_decide_eq_false. eapply valid_not_empty, Hw, Hin.
    + apply IH; [done |]. pose proof (Split_shorter f comma w Hc Hin). lia.
  - pose proof (Split_two_elem _ _ _ _ Hs) as Hsl.
    rewrite (not_blank f slash Hsl) by (apply digit_not_space; tauto).
    case_decide; [done |]. case_decide; [subst; discriminate Hs |].
    rewrite (Atoi_no_byte f slash Hsl) by auto.
    destruct (Contains f (String comma "")) eqn:Hcc; [by apply Contains_byte in Hcc |].
    rewrite (proj2 (Contains_byte f slash) Hsl), Hs, Hstep.
    rewrite (proj2 (Z.ltb_lt 0 n) Hpos), IH, orb_true_r; [done |].
    pose proof (Split_shorter f slash base Hsl). rewrite Hs in *.
    assert (base ∈ [base; step]) by (by left). intuition lia.
  - pose proof (Split_two_elem _ _ _ _ Hs) as Hd.
    destruct (range_shape f a b x y Hs Ha Hb) as (Hn & Hcomma & Hslash).
    rewrite (not_blank f dash Hd) by (apply digit_not_space; tauto).
    case_decide; [done |]. case_decide; [subst; discriminate Hs |]. rewrite Hn.
    destruct (Contains f (String comma "")) eqn:Hcc; [by apply Contains_byte in Hcc |].
    destruct (Contains f (String slash "")) eqn:Hss; [by apply Contains_byte in Hss |].
    rewrite (proj2 (Contains_byte f dash) Hd), Hs, Ha, Hb, !andb_true_iff, !Z.leb_le. tauto.
Qed.

(** ** The expressions of [IntervalToCron] *)

(** Bytes that normalisation leaves alone and that separate no fields. *)
Definition plain (c : ascii) : bool := is_digit c || bool_decide (c = byte 42) || bool_decide (c = slash).

(** The bytes of white space, from either end. *)
Definition space_bytes : bytes := (concat space_runes ++ concat (map (@rev _) space_runes))%list.

Lemma plain_cases c : plain c = true →
  (c ∉ space_bytes) ∧ lower c = c ∧ (code c <? 128)%N = true ∧ c ≠ byte 64 ∧ c ≠ byte 32.
Proof.
  intros Hc.
  assert (c ∈ byte <$> [48; 49; 50; 51; 52; 53; 54; 55; 56; 57; 42; 47]%N) as Hin.
  { unfold plain, is_digit in Hc. rewrite !orb_true_iff, andb_true_iff, !N.leb_le, !bool_decide_eq_true in Hc.
    destruct Hc as [[[H1 H2] | ->] | ->]; [| by do 10 right; left | by do 11 right; left].
    apply list_elem_of_fmap. exists (code c). split; [symmetry; apply ascii_N_embedding |].
    rewrite !elem_of_cons. lia. }
  assert (Forall (λ c, (c ∉ space_bytes) ∧ lower c = c ∧ (code c <? 128)%N = true ∧ c ≠ byte 64 ∧ c ≠ byte 32)
            (byte <$> [48; 49; 50; 51; 52; 53; 54; 55; 56; 57; 42; 47]%N)) as Hall.
  { repeat constructor; try discriminate;
      intros H; repeat (apply elem_of_cons in H as [H | H]; [discriminate H |]); by apply elem_of_nil in H. }
  rewrite Forall_forall in Hall. by apply Hall.
Qed.

Lemma strip_any_plain ps c l : Forall (λ p, p ≠ []) ps → (c ∉ concat ps) → strip_any ps (c :: l) = None.
Proof.
  intros Hne Hc. apply strip_any_None. intros p Hp.
  destruct (strip_prefix p (c :: l)) as [r |] eqn:Hs; [| done]. exfalso.
  apply strip_prefix_Some in Hs. rewrite Forall_forall in Hne. specialize (Hne p Hp). destruct p as [| d p]; [done |].
  injection Hs as <- _. apply Hc. apply list_elem_of_In, in_concat.
  exists (c :: p). split; [by apply list_elem_of_In | by left].
Qed.

Lemma trim_plain c d l : last (c :: l) = Some d → plain c = true → plain d = true → trim_bytes (c :: l) = c :: l.
Proof.
  intros Hlast Hc Hd.
  destruct (plain_cases c Hc) as (Hcs & _). destruct (plain_cases d Hd) as (Hds & _).
  unfold space_bytes in *. rewrite elem_of_app in Hcs, Hds.
  unfold trim_bytes. rewrite (trim_left_id _ space_runes).
  2: { apply strip_any_plain; [by repeat constructor | tauto]. }
  apply last_Some in Hlast as (l' & ->). rewrite rev_app_distr.
  rewrite trim_left_id.
  2: { apply strip_any_plain; [by repeat constructor | tauto]. }
  by rewrite <- rev_app_distr, rev_involutive.
Qed.

Lemma NormalizeCronExpression_plain lower_rune e c d l :
  to_bytes e = c :: l → last (c :: l) = Some d → plain c = true → plain d = true →
  Forall (λ x, plain x = true ∨ x = byte 32) (c :: l) →
  IsBlank e = false ∧ NormalizeCronExpression lower_rune e = e.
Proof.
  intros He Hlast Hc Hd Hall.
  assert (TrimSpace e = e) as Htrim.
  { unfold TrimSpace. rewrite He, (trim_plain c d l) by done. by rewrite <- He, of_bytes_to_bytes. }
  split.
  { unfold IsBlank. rewrite Htrim. apply bool_decide_eq_false. intros ->. discriminate He. }
  unfold NormalizeCronExpression. rewrite Htrim.
  assert (ToLower lower_rune e = e) as ->.
  { unfold ToLower. rewrite He. rewrite Forall_forall in Hall.
    rewrite (proj2 (forallb_forall _ _)).
    - transitivity (of_bytes (c :: l)); [f_equal | by rewrite <- He, of_bytes_to_bytes].
      rewrite <- (map_id (c :: l)) at 2. apply map_ext_in. intros x Hx%list_elem_of_In.
      destruct (Hall x Hx) as [Hp | ->]; [by apply plain_cases | done].
    - intros x Hx%list_elem_of_In. destruct (Hall x Hx) as [Hp | ->]; [by apply plain_cases | done]. }
  unfold expand_name.
  assert (∀ s, to_bytes s = byte 64 :: tail (to_bytes s) → e ≠ s) as Hat.
  { intros s Hs ->. rewrite He in Hs. injection Hs as ->. discriminate Hc. }
  rewrite !decide_False by (by apply Hat). done.
Qed.

Lemma plain_digits l : Forall (λ c, is_digit c = true) l → Forall (λ c, plain c = true) l.
Proof. intros H. eapply Forall_impl; [exact H |]. intros c Hc. unfold plain. by rewrite Hc. Qed.

Lemma digits_no_byte l c : Forall (λ c, is_digit c = true) l → is_digit c = false → c ∉ l.
Proof. rewrite Forall_forall. intros H Hc Hin. specialize (H c Hin). congruence. Qed.

(** A step of a star, as [IntervalToCron] writes it. *)
Lemma step_field_valid min max n : 0 < n ≤ max_int64 →
  let f := "*/" +:+ Itoa n in IsValidCronField (field_fuel f) f min max = true.
Proof.
  intros Hn f. apply IsValidCronField_complete; [| unfold field_fuel; lia].
  destruct (Itoa_pos n) as (_ & Hd & _); [lia |].
  apply (vf_step min max f "*" (Itoa n) n).
  - unfold f. rewrite to_bytes_append. intros [Hin | Hin]%elem_of_app.
    + by repeat (apply elem_of_cons in Hin as [Hin | Hin]; [discriminate Hin |]); apply elem_of_nil in Hin.
    + by eapply digits_no_byte in Hin.
  - unfold f, Split. rewrite to_bytes_append.
    change (to_bytes "*/" ++ to_bytes (Itoa n))%list with (to_bytes "*" ++ slash :: to_bytes (Itoa n))%list.
    rewrite split_bytes_app by (intros [=]%list_elem_of_singleton).
    rewrite split_bytes_none by (by apply digits_no_byte). cbn [fmap list_fmap]. by rewrite !of_bytes_to_bytes.
  - by apply Atoi_Itoa.
  - lia.
  - constructor.
Qed.

(** What [IntervalToCron] accepts: an amount in range and one of three units. *)
Lemma IntervalToCron_inv interval e : IntervalToCron interval = Ok e →
  ∃ val unit, last (to_bytes interval) = Some unit ∧
    Atoi (of_bytes (removelast (to_bytes interval))) = Some val ∧ 0 < val ≤ max_int64 ∧
    (unit = byte 115 ∧ 60 ≤ val ∧ e = "*/" +:+ Itoa (Z.quot val 60) +:+ " * * * *" ∨
     unit = byte 115 ∧ val < 60 ∧ e = "*/" +:+ Itoa val +:+ " * * * * *" ∨
     unit = byte 109 ∧ e = "*/" +:+ Itoa val +:+ " * * * *" ∨
     unit = byte 104 ∧ e = "0 */" +:+ Itoa val +:+ " * * *").
Proof.
  unfold IntervalToCron. destruct (_ <? _)%nat; [done |].
  destruct (last (to_bytes interval)) as [u |]; [| done].
  destruct (Atoi _) as [val |] eqn:Hv; [| done]. destruct (val <=? 0) eqn:Hpos; [done |].
  apply Z.leb_gt in Hpos. assert (val ≤ max_int64) as Hmax.
  { unfold Atoi in Hv. destruct (match to_bytes _ with [] => _ | _ => _ end) as [z |]; [| done].
    case_bool_decide as Hin; [| done]. injection Hv as ->. apply Hin. }
  intros H. exists val, u. split; [done |]. split; [done |]. split; [lia |].
  destruct (decide (u = byte 115)) as [-> |].
  { destruct (60 <=? val) eqn:Hge; [apply Z.leb_le in Hge | apply Z.leb_gt in Hge]; injection H as <-; tauto. }
  destruct (decide (u = byte 109)) as [-> |]; [injection H as <-; tauto |].
  destruct (decide (u = byte 104)) as [-> |]; [injection H as <-; tauto | done].
Qed.

Lemma plain_step val : 0 < val → Forall (λ x, plain x = true ∨ x = byte 32) (to_bytes (Itoa val)).
Proof.
  intros Hv. destruct (Itoa_pos val Hv) as (_ & Hd & _). apply plain_digits in Hd.
  eapply Forall_impl; [exact Hd |]. by left.
Qed.

(** Normalisation leaves a generated expression alone; its fields. *)
Lemma generated_fields lower_rune pre val post : 0 < val →
  Forall (λ x, plain x = true ∨ x = byte 32) (to_bytes pre) →
  Forall (λ x, plain x = true ∨ x = byte 32) (to_bytes post) →
  (∃ c l, to_bytes pre = c :: l ∧ plain c = true) → (∃ l, to_bytes post = (l ++ [byte 42])%list) →
  let e := pre +:+ Itoa val +:+ post in
  IsBlank e = false ∧ NormalizeCronExpression lower_rune e = e.
Proof.
  intros Hv Hpre Hpost (c & l & Hc & Hpc) (k & Hk) e.
  apply (NormalizeCronExpression_plain lower_rune e c (byte 42) (l ++ to_bytes (Itoa val) ++ k ++ [byte 42])%list).
  - unfold e. by rewrite !to_bytes_append, Hc, Hk.
  - apply last_Some. exists (c :: l ++ to_bytes (Itoa val) ++ k)%list. cbn [app]. by rewrite <- !app_assoc.
  - done.
  - done.
  - change (c :: l ++ to_bytes (Itoa val) ++ k ++ [byte 42])%list with ((c :: l) ++ to_bytes (Itoa val) ++ k ++ [byte 42])%list.
    rewrite <- Hc, <- Hk, !Forall_app. split_and!; [done | by apply plain_step | done].
Qed.

(** The first field of a generated expression. *)
Lemma Split_step val post : 0 < val →
  Split ("*/" +:+ Itoa val +:+ String (byte 32) post) (byte 32) = ("*/" +:+ Itoa val) :: Split post (byte 32).
Proof.
  intros Hv. destruct (Itoa_pos val Hv) as (_ & Hd & _). unfold Split. rewrite !to_bytes_append.
  change (to_bytes (String (byte 32) post)) with (byte 32 :: to_bytes post).
  rewrite app_assoc, split_bytes_app.
  - cbn [fmap list_fmap]. f_equal. by rewrite <- to_bytes_append, of_bytes_to_bytes.
  - intros [Hin | Hin]%elem_of_app.
    + by repeat (apply elem_of_cons in Hin as [Hin | Hin]; [discriminate Hin |]); apply elem_of_nil in Hin.
    + by eapply digits_no_byte in Hin.
Qed.

Ltac plain_literal :=
  lazymatch goal with
  | |- Forall _ _ => repeat (apply Forall_cons_2; [by (left + right) |]); apply Forall_nil_2
  | |- ∃ c l, _ = _ :: _ ∧ _ => do 2 eexists; split; reflexivity
  | |- ∃ l, _ = (l ++ _)%list => idtac
  end.

Lemma generated_step lower_rune val post k : 0 < val → to_bytes post = (k ++ [byte 42])%list →
  Forall (λ x, plain x = true ∨ x = byte 32) (to_bytes post) →
  let e := "*/" +:+ Itoa val +:+ post in
  IsBlank e = false ∧ NormalizeCronExpression lower_rune e = e.
Proof. intros Hv Hk Hp. apply generated_fields; [done | plain_literal | done | plain_literal | by exists k]. Qed.

Lemma minute_step_valid lower_rune val : 0 < val ≤ max_int64 →
  let e := "*/" +:+ Itoa val +:+ " * * * *" in
  length (Split e (byte 32)) = 5%nat ∧ IsValidCronExpression lower_rune e = true.
Proof.
  intros Hv. cbv zeta. unfold IsValidCronExpression.
  destruct (generated_step lower_rune val " * * * *" (to_bytes " * * * ")) as [-> ->]; [lia | done | plain_literal |].
  change " * * * *" with (String (byte 32) "* * * *"). rewrite Split_step by lia.
  change (Split "* * * *" (byte 32)) with ["*"; "*"; "*"; "*"]. split; [done |].
  by rewrite step_field_valid.
Qed.

Lemma hour_step_valid lower_rune val : 0 < val ≤ max_int64 →
  let e := "0 */" +:+ Itoa val +:+ " * * *" in
  length (Split e (byte 32)) = 5%nat ∧ IsValidCronExpression lower_rune e = true.
Proof.
  intros Hv. cbv zeta. unfold IsValidCronExpression.
  destruct (generated_fields lower_rune "0 */" val " * * *") as [-> ->];
    [lia | plain_literal | plain_literal | plain_literal | by exists (to_bytes " * * ") |].
  assert (Split ("0 */" +:+ Itoa val +:+ " * * *") (byte 32) = ["0"; "*/" +:+ Itoa val; "*"; "*"; "*"]) as ->.
  { transitivity ("0" :: Split ("*/" +:+ Itoa val +:+ String (byte 32) "* * *") (byte 32)); [done |].
    by rewrite Split_step by lia. }
  split; [done |]. by rewrite step_field_valid.
Qed.

(** ** Properties *)

(** [IsValidCronField] accepts exactly the fields of the grammar
    [valid_field], whatever the fuel above the field's length: a star, a number
    in range, a list, a positive step, a range whose two ends are in range. *)
Theorem cron_field_grammar field min max fuel : (String.length field < fuel)%nat →
  IsValidCronField fuel field min max = true ↔ valid_field min max field.
Proof.
  intros Hfuel. split; [apply IsValidCronField_sound |].
  intros H. by apply IsValidCronField_complete.
Qed.

Lemma cron_field_grammar_witness :
  IsValidCronField 20 "1-5,*/2,30" 0 59 = true ∧ valid_field 0 59 "1-5,*/2,30" ∧
  IsValidCronField 20 "1-5,*/0" 0 59 = false ∧ ¬ valid_field 0 59 "1-5,*/0".
Proof.
  split; [done |]. split.
  { apply (cron_field_grammar "1-5,*/2,30" 0 59 20); [simpl; lia | done]. }
  split; [done |]. intros H. apply (cron_field_grammar "1-5,*/0" 0 59 20) in H; [done | simpl; lia].
Defined.

(** An interval becomes a five-field expression that
    [IsValidCronExpression] accepts, except that an interval of less than sixty
    seconds becomes a six-field expression, which it rejects. *)
Theorem interval_to_cron_valid lower_rune interval e : IntervalToCron interval = Ok e →
  ∃ val unit, last (to_bytes interval) = Some unit ∧
    Atoi (of_bytes (removelast (to_bytes interval))) = Some val ∧
    if decide (unit = byte 115 ∧ val < 60)
    then length (Split e (byte 32)) = 6%nat ∧ IsValidCronExpression lower_rune e = false
    else length (Split e (byte 32)) = 5%nat ∧ IsValidCronExpression lower_rune e = true.
Proof.
  intros (val & unit & Hu & Hv & Hr & Hcases)%IntervalToCron_inv. exists val, unit. split; [done |]. split; [done |].
  destruct Hcases as [(-> & Hge & ->) | [(-> & Hlt & ->) | [(-> & ->) | (-> & ->)]]].
  - rewrite decide_False by lia. apply minute_step_valid.
    split; [apply Z.quot_str_pos; lia |]. transitivity val; [| lia].
    apply Z.quot_le_upper_bound; lia.
  - rewrite decide_True by done. unfold IsValidCronExpression.
    destruct (generated_step lower_rune val " * * * * *" (to_bytes " * * * * ")) as [-> ->]; [lia | done | plain_literal |].
    change " * * * * *" with (String (byte 32) "* * * * *"). by rewrite Split_step by lia.
  - rewrite decide_False by (intros [[=] _]). by apply minute_step_valid.
  - rewrite decide_False by (intros [[=] _]). by apply hour_step_valid.
Qed.

Lemma interval_to_cron_valid_witness :
  IntervalToCron "90s" = Ok "*/1 * * * *" ∧ IsValidCronExpression id "*/1 * * * *" = true ∧
  IntervalToCron "30s" = Ok "*/30 * * * * *" ∧ IsValidCronExpression id "*/30 * * * * *" = false.
Proof.
  assert (IntervalToCron "90s" = Ok "*/1 * * * *") as H1 by done.
  assert (IntervalToCron "30s" = Ok "*/30 * * * * *") as H2 by done.
  split; [done |]. split.
  { destruct (interval_to_cron_valid id "90s" _ H1) as (v & u & Hu & Hv & Hc).
    vm_compute in Hu, Hv. simplify_eq. apply Hc. }
  split; [done |].
  destruct (interval_to_cron_valid id "30s" _ H2) as (v & u & Hu & Hv & Hc).
  vm_compute in Hu, Hv. simplify_eq. apply Hc.
Defined.
