(* ===== verification/Loops.v ===== *)
(** Agent loops, prompts repeated on a schedule: [openclaw/core/loops.go],
    [ParseCronExpression] of [openclaw/util/cron.go] and the [loop_control] tool
    ([openclaw/agent/tool/loopcontrol/tool.go]).

    Schedules are the robfig library's: a [Schedule] is what its parsers make,
    and [Next] gives the first instant after a given one, or the zero time when
    the library finds none.  Instants are nanoseconds since the epoch. *)

From S2P Require Import Prelude GoStrings Regex Cron.
Local Open Scope string_scope.
Local Open Scope list_scope.

(** ** The [/loop] command *)

Inductive LoopAction := LoopAction_Schedule | LoopAction_Cancel | LoopAction_Status | LoopAction_Invalid.

Record LoopCommand := mkLoopCommand { Action : LoopAction; Interval : string; Prompt : string }.

#[export] Instance LoopAction_eq_dec : EqDecision LoopAction.
Proof. solve_decision. Defined.
#[export] Instance LoopCommand_eq_dec : EqDecision LoopCommand.
Proof. solve_decision. Defined.

(** The classes of the expression; its flag [i] folds cases, and the long s
    (U+017F) into s. *)
Definition re_space (c : ascii) : bool := bool_decide (c ∈ [byte 9; byte 10; byte 12; byte 13; byte 32]).
Definition re_dot (c : ascii) : bool := negb (bool_decide (c = byte 10)).
Definition folded (c : ascii) : re := Char (λ d, bool_decide (lower d = c)).
Definition unit_re : re :=
  Alt (Char (λ d, bool_decide (lower d ∈ [byte 115; byte 109; byte 104]))) (Lit [byte 197; byte 191]).
Definition loop_word : re :=
  Seq (Lit [byte 47]) (Seq (folded (byte 108)) (Seq (folded (byte 111)) (Seq (folded (byte 111)) (folded (byte 112))))).

(** [LoopCommandRegex], anchored at both ends, with its groups: value, unit and
    prompt. *)
Definition LoopCommandRegex (text : string) : option (string * string * string) :=
  match_at (Seq loop_word (Plus (Char re_space))) None (to_bytes text) (λ b1 l1,
  match_at (Plus (Char is_digit)) b1 l1 (λ b2 l2,
  match_at (Star false (Char re_space)) b2 l2 (λ b3 l3,
  match_at unit_re b3 l3 (λ b4 l4,
  match_at (Plus (Char re_space)) b4 l4 (λ b5 l5,
  match_at (Plus (Char re_dot)) b5 l5 (λ _ l6,
    match l6 with [] => Some (group l1 l2, group l3 l4, group l5 l6) | _ => None end)))))).

Definition TryParse (text : string) : option LoopCommand :=
  if IsBlank text || negb (HasPrefix text "/loop") then None
  else
    let trimmed := TrimSpace text in
    if bool_decide (trimmed = "/loop cancel") || bool_decide (trimmed = "/loop stop")
    then Some (mkLoopCommand LoopAction_Cancel "" "")
    else if bool_decide (trimmed = "/loop status") then Some (mkLoopCommand LoopAction_Status "" "")
    else match LoopCommandRegex trimmed with
         | None => Some (mkLoopCommand LoopAction_Invalid "" "")
         | Some (value, unit, prompt) => Some (mkLoopCommand LoopAction_Schedule (value +:+ unit) (TrimSpace prompt))
         end.

(** ** Termination keywords *)

Definition IsKeywordCharacter (b : ascii) : bool := IsLetterOrDigit b || bool_decide (b = byte 95).

(** [IsKeywordCharacter(text[i])] for an [i] in range. *)
Definition keyword_at (text : bytes) (i : nat) : bool := from_option IsKeywordCharacter false (text !! i).

(** The loop of [cntainsWholeKeyword] from [startIndex]. *)
Fixpoint whole_keyword_from (fuel : nat) (text keyword : bytes) (startIndex : nat) : bool :=
  match fuel with
  | O => false
  | S fuel =>
      if (length text <=? startIndex)%nat then false
      else match index_bytes keyword (drop startIndex text) with
      | None => false
      | Some relIndex =>
          let index := (startIndex + relIndex)%nat in
          let before := (index =? 0)%nat || negb (keyword_at text (index - 1)) in
          let afterIndex := (index + length keyword)%nat in
          let after := (afterIndex =? length text)%nat || negb (keyword_at text afterIndex) in
          if before && after then true else whole_keyword_from fuel text keyword (S index)
      end
  end.

Definition TerminationKeywords : list string := ["LOOP_TERMINATE"; "DONE"; "WORK_COMPLETE"].

Section Words.
Variable lower_rune : N → N.

Definition cntainsWholeKeyword (text keyword : string) : bool :=
  if bool_decide (keyword = "") then false
  else
    let lowerText := to_bytes (ToLower lower_rune text) in
    whole_keyword_from (S (length lowerText)) lowerText (to_bytes (ToLower lower_rune keyword)) 0.

(** [ScanText]: the answer, and whether [SignalComplete] was called.  The order
    of the range over the keywords is [keywords]; a failing signal ends the
    scan. *)
Fixpoint scan_keywords (signal : res ()) (text : string) (keywords : list string) : bool * bool :=
  match keywords with
  | [] => (false, false)
  | keyword :: keywords =>
      if negb (cntainsWholeKeyword text keyword) then scan_keywords signal text keywords
      else (is_ok signal, true)
  end.
Definition ScanText (keywords : list string) (signal : res ()) (text : string) : bool * bool :=
  if IsBlank text then (false, false) else scan_keywords signal text keywords.
End Words.

(** ** Schedules *)

Section Schedules.
Context {Schedule : Type}.

(** The robfig parser with the fields minute to weekday, with seconds before
    them, and with descriptors only. *)
Variables (parse_standard parse_seconds parse_descriptor : string → option Schedule).

Definition ParseCronExpression (spec : string) : option Schedule :=
  let spec := TrimSpace spec in
  if bool_decide (spec = "") then None
  else if HasPrefix spec "@" then parse_descriptor spec
  else match Fields_count spec with
       | 5%nat => parse_standard spec
       | 6%nat => parse_seconds spec
       | _ => None
       end.

(** [schedule.Next]; the zero time is [None]. *)
Variable Next : Schedule → Z → option Z.

Record LoopEntry := mkLoopEntry {
  SessionId : string; EntryPrompt : string; CronExpression : string; ScheduledAt : Z;
  schedule : Schedule; nextOccurrence : option Z
}.

Definition NewLoopEntry (sessionId prompt cronExpression : string) (sched : Schedule) (now : Z) : LoopEntry :=
  mkLoopEntry sessionId prompt cronExpression now sched (Next sched now).

(** [nowUTC.Before(e.nextOccurrence)], the zero time being before all. *)
Definition before_next (now : Z) (e : LoopEntry) : bool :=
  match nextOccurrence e with Some t => (now <? t)%Z | None => false end.

Definition IsDue (now : Z) (e : LoopEntry) : bool * LoopEntry :=
  if before_next now e then (false, e)
  else (true, mkLoopEntry (SessionId e) (EntryPrompt e) (CronExpression e) (ScheduledAt e) (schedule e) (Next (schedule e) now)).

(** ** The scheduler *)

Abbreviation entries := (gmap string LoopEntry).

Variable lower_rune : N → N.

Definition ScheduleLoop (now : Z) (sessionId cronExpression prompt : string) (s : entries) : res () * entries :=
  match ParseCronExpression cronExpression with
  | None => (Fail ("invalid cron expression " +:+ cronExpression), s)
  | Some sched => (Ok tt, <[ToLower lower_rune sessionId := NewLoopEntry sessionId prompt cronExpression sched now]> s)
  end.

Definition CancelLoop (sessionId : string) (s : entries) : res () * entries :=
  (Ok tt, delete (ToLower lower_rune sessionId) s).

Definition quote : string := String (byte 34) "".

(** [format] is [Time.Format(time.RFC3339)]. *)
Definition GetLoopStatus (format : Z → string) (sessionId : string) (s : entries) : res string :=
  match s !! ToLower lower_rune sessionId with
  | Some entry =>
      Ok ("Loop active — cron: " +:+ CronExpression entry +:+ ", prompt: " +:+ quote +:+ EntryPrompt entry +:+ quote +:+
          ", scheduled at: " +:+ format (ScheduledAt entry))
  | None => Ok ""
  end.

Definition SignalComplete (sessionId : string) (s : entries) : res () * entries := CancelLoop sessionId s.

(** The tool [loop_control] in a session; [decode_status] is the field of the
    decoded arguments. *)
Definition ExecuteContext (decode_status : string → res string) (argumentsJson sessionId : string) (s : entries) :
    res string * entries :=
  if bool_decide (argumentsJson = "") then (Fail "Error: arguments payload is empty.", s)
  else match decode_status argumentsJson with
  | Fail e => (Fail e, s)
  | Ok status =>
      if bool_decide (status = "") then (Fail "Error: status is required.", s)
      else if negb (bool_decide (status = "complete"))
      then (Fail ("Error: unsupported status '" +:+ status +:+ "'. Only 'complete' is allowed."), s)
      else
        let '(r, s) := SignalComplete sessionId s in
        match r with
        | Fail e => (Fail e, s)
        | Ok _ => (Ok "Loop marked as complete. The recurring task has been stopped.", s)
        end
  end.

(** [GetDueEntries] over the keys in the order [order] of the range. *)
Fixpoint GetDueEntries (now : Z) (order : list string) (s : entries) : list LoopEntry * entries :=
  match order with
  | [] => ([], s)
  | key :: order =>
      match s !! key with
      | None => GetDueEntries now order s
      | Some entry =>
          let '(due, entry) := IsDue now entry in
          let '(results, s) := GetDueEntries now order (<[key := entry]> s) in
          (if due then entry :: results else results, s)
      end
  end.

(** ** The job *)

Record AgentLoopPayload := mkPayload { PayloadSessionId : string; PayloadPrompt : string }.

(** [ctx.Err] and [EnqueueContext] answer from the world, which they change. *)
Context {W : Type} (cancelled : W → bool) (enqueue : AgentLoopPayload → W → res () * W).

Fixpoint enqueue_due (entries : list LoopEntry) (w : W) : list (AgentLoopPayload * res ()) * W :=
  match entries with
  | [] => ([], w)
  | entry :: entries =>
      if cancelled w then ([], w)
      else
        let task := mkPayload (SessionId entry) (EntryPrompt entry) in
        let '(r, w) := enqueue task w in
        let '(rest, w) := enqueue_due entries w in
        ((task, r) :: rest, w)
  end.

(** [AgentLoopJob.Execute]: what was handed to the queue, with its answers. *)
Definition Execute (now : Z) (order : list string) (s : entries) (w : W) : list (AgentLoopPayload * res ()) * entries * W :=
  let '(dueEntries, s) := GetDueEntries now order s in
  let '(sent, w) := enqueue_due dueEntries w in
  (sent, s, w).

(** [AgentTaskHandler.ProcessTask] of a payload that decodes. *)
Definition ProcessTask (dispatch : string → string → bool) (payload : res AgentLoopPayload) : res () :=
  p ← payload;
  if dispatch (PayloadSessionId p) (PayloadPrompt p) then Ok tt else Fail "Dispatcher execution failed".
End Schedules.

(** ** Whole words *)

(** The keyword stands at [i], with no keyword character on either side. *)
Definition whole_word_at (text keyword : bytes) (i : nat) : Prop :=
  keyword `prefix_of` drop i text ∧ (i = 0%nat ∨ keyword_at text (i - 1) = false) ∧
  ((i + length keyword)%nat = length text ∨ keyword_at text (i + length keyword) = false).

Lemma whole_word_tests text keyword i :
  keyword `prefix_of` drop i text →
  ((i =? 0)%nat || negb (keyword_at text (i - 1))) &&
  ((i + length keyword =? length text)%nat || negb (keyword_at text (i + length keyword))) = true ↔
  whole_word_at text keyword i.
Proof.
  intros Hi. unfold whole_word_at.
  rewrite andb_true_iff, !orb_true_iff, !negb_true_iff, !Nat.eqb_eq. tauto.
Qed.

(** The first occurrence in a rest of the text. *)
Lemma first_occurrence text keyword start n : index_bytes keyword (drop start text) = Some n →
  keyword `prefix_of` drop (start + n) text ∧
  ∀ i, (start ≤ i)%nat → (i < start + n)%nat → ¬ keyword `prefix_of` drop i text.
Proof.
  intros [H1 H2]%index_bytes_Some. split.
  - rewrite <- drop_drop, H1. set (l := drop start text) in *.
    assert (n ≤ length l)%nat as Hn.
    { specialize (H2 (take n l) (drop (n + length keyword) l) H1). rewrite length_take in H2. lia. }
    rewrite drop_app_le by (rewrite length_take; lia).
    rewrite drop_ge by (rewrite length_take; lia). simpl. by eexists.
  - intros i Hs Hi [w Hw]. specialize (H2 (take (i - start) (drop start text)) w).
    rewrite <- Hw, length_take in H2. replace i with (start + (i - start))%nat in H2 at 2 by lia.
    rewrite <- drop_drop, take_drop in H2. specialize (H2 eq_refl). lia.
Qed.

Lemma whole_keyword_from_spec text keyword : keyword ≠ [] → ∀ fuel start, (length text < start + fuel)%nat →
  whole_keyword_from fuel text keyword start = true ↔ ∃ i, (start ≤ i)%nat ∧ whole_word_at text keyword i.
Proof.
  intros Hk. induction fuel as [| fuel IH]; intros start Hf; cbn [whole_keyword_from].
  - split; [done |]. intros (i & Hi & Hp & _). rewrite drop_ge in Hp by lia.
    by apply prefix_nil_inv in Hp.
  - destruct (Nat.leb_spec (length text) start) as [Hs | Hs].
    { split; [done |]. intros (i & Hi & Hp & _). rewrite drop_ge in Hp by lia. by apply prefix_nil_inv in Hp. }
    destruct (index_bytes keyword (drop start text)) as [n |] eqn:Hn.
    + apply first_occurrence in Hn as [Hat Hfirst]. apply whole_word_tests in Hat as Ht.
      destruct (_ && _).
      * split; [intros _ | done]. exists (start + n)%nat. split; [lia |]. by apply Ht.
      * rewrite IH by lia. split; intros (i & Hi & Hw); exists i; (split; [| done]); [lia |].
        destruct (decide (i < start + n)%nat); [by destruct (Hfirst i); [lia.. | apply Hw] |].
        destruct (decide (i = (start + n)%nat)) as [-> |]; [by apply Ht in Hw | lia].
    + split; [done |]. intros (i & Hi & [w Hw] & _).
      destruct (index_bytes_None _ _ Hn (take (i - start) (drop start text)) w).
      rewrite <- Hw. replace i with (start + (i - start))%nat at 2 by lia. by rewrite <- drop_drop, take_drop.
Qed.

Lemma ToLower_not_empty lower_rune s : s ≠ "" → forallb (λ c, (code c <? 128)%N) (to_bytes s) = true → to_bytes (ToLower lower_rune s) ≠ [].
Proof.
  intros Hs Ha. unfold ToLower. rewrite Ha, to_bytes_of_bytes. destruct s; done.
Qed.

(** The agent's text ends a loop exactly if, lower-cased, it contains one of
    the termination keywords as a whole word, with no letter, digit or
    underscore on either side; the order of the keywords does not matter.  A
    text that ends the loop is answered with true unless the signal fails. *)
Theorem termination_keywords_are_whole_words lower_rune keywords signal text :
  keywords ≡ₚ TerminationKeywords →
  let '(answer, signalled) := ScanText lower_rune keywords signal text in
  answer = signalled && is_ok signal ∧
  (signalled = true ↔ IsBlank text = false ∧ ∃ keyword i, keyword ∈ TerminationKeywords ∧
     whole_word_at (to_bytes (ToLower lower_rune text)) (to_bytes (ToLower lower_rune keyword)) i).
Proof.
  intros Hperm.
  assert (∀ keyword, keyword ∈ TerminationKeywords → cntainsWholeKeyword lower_rune text keyword = true ↔
    ∃ i, whole_word_at (to_bytes (ToLower lower_rune text)) (to_bytes (ToLower lower_rune keyword)) i) as Hword.
  { intros keyword Hk. unfold cntainsWholeKeyword.
    assert (keyword ≠ "" ∧ forallb (λ c, (code c <? 128)%N) (to_bytes keyword) = true) as [Hne Ha].
    { unfold TerminationKeywords in Hk. rewrite !elem_of_cons in Hk.
      destruct Hk as [-> | [-> | [-> | Hk]]]; [done.. | by apply not_elem_of_nil in Hk]. }
    rewrite bool_decide_false by done. rewrite whole_keyword_from_spec; [| by apply ToLower_not_empty | lia].
    split; intros (i & Hi); exists i; [tauto | split; [lia | done]]. }
  unfold ScanText. destruct (IsBlank text); [by split; [| split; [| intros [? _]]] |].
  assert (∀ ks, ks ⊆ TerminationKeywords → let '(answer, signalled) := scan_keywords lower_rune signal text ks in
    answer = signalled && is_ok signal ∧
    (signalled = true ↔ ∃ keyword i, keyword ∈ ks ∧
      whole_word_at (to_bytes (ToLower lower_rune text)) (to_bytes (ToLower lower_rune keyword)) i)) as Hscan.
  { induction ks as [| k ks IH]; intros Hks; cbn [scan_keywords].
    - split; [done |]. split; [done |]. intros (? & ? & H & _). by apply not_elem_of_nil in H.
    - specialize (Hword k (Hks k (list_elem_of_here _ _))).
      destruct (cntainsWholeKeyword lower_rune text k); simpl.
      + split; [done |]. split; [intros _ | done]. destruct Hword as [[i Hi] _]; [done |]. exists k, i. split; [left | done].
      + destruct (scan_keywords lower_rune signal text ks) as [answer signalled].
        destruct IH as [H1 H2]; [intros x Hx; apply Hks; by right |]. split; [done |]. rewrite H2. split.
        * intros (keyword & i & Hin & Hw). exists keyword, i. split; [by right | done].
        * intros (keyword & i & [-> | Hin]%elem_of_cons & Hw); [| by exists keyword, i].
          exfalso. apply Bool.diff_false_true, Hword. by exists i. }
  specialize (Hscan keywords). destruct (scan_keywords lower_rune signal text keywords) as [answer signalled].
  destruct Hscan as [H1 H2]; [intros x; by rewrite Hperm |]. split; [done |]. rewrite H2. setoid_rewrite Hperm. tauto.
Qed.

(** ** Reading a command back *)

Lemma trim_outside c d l : last (c :: l) = Some d → c ∉ space_bytes → d ∉ space_bytes → trim_bytes (c :: l) = c :: l.
Proof.
  intros Hlast Hc Hd. unfold space_bytes in *. rewrite elem_of_app in Hc, Hd.
  unfold trim_bytes. rewrite (trim_left_id _ space_runes).
  2: { apply strip_any_plain; [by repeat constructor | tauto]. }
  apply last_Some in Hlast as (l' & ->). rewrite rev_app_distr. rewrite trim_left_id.
  2: { apply strip_any_plain; [by repeat constructor | tauto]. }
  by rewrite <- rev_app_distr, rev_involutive.
Qed.

Lemma outside_not_space c : c ∉ space_bytes → re_space c = false.
Proof.
  intros Hc. apply bool_decide_eq_false. intros H. apply Hc. revert H. rewrite !elem_of_cons.
  intros [-> | [-> | [-> | [-> | [-> | H]]]]]; [by vm_compute; repeat (left || right) .. |]. by apply not_elem_of_nil in H.
Qed.

Lemma loop_regex_reads value u prompt :
  value ≠ [] → Forall (λ c, is_digit c = true) value → lower u ∈ [byte 115; byte 109; byte 104] →
  prompt ≠ [] → stops re_space prompt → byte 10 ∉ prompt →
  LoopCommandRegex (of_bytes (to_bytes "/loop " ++ value ++ u :: byte 32 :: prompt)) =
    Some (of_bytes value, of_bytes [u], of_bytes prompt).
Proof.
  intros Hv Hdigits Hu Hp Hstop Hnl. unfold LoopCommandRegex. rewrite to_bytes_of_bytes.
  assert (∀ c, is_digit c = true → re_space c = false) as Hds.
  { intros c Hc. apply bool_decide_eq_false. intros H. revert Hc. rewrite !elem_of_cons in H.
    destruct H as [-> | [-> | [-> | [-> | [-> | H]]]]]; [done.. |]. by apply not_elem_of_nil in H. }
  assert (is_digit u = false ∧ re_space u = false) as [Hud Hus].
  { clear -Hu. apply (bool_decide_eq_true_2 _) in Hu. by destruct u as [[] [] [] [] [] [] [] []]. }
  destruct value as [| v value]; [done |]. destruct prompt as [| c prompt]; [done |].
  match goal with |- match_at ?r ?b ?l ?k = _ =>
    change (match_at (Plus (Char re_space)) (Some (byte 112)) (byte 32 :: [] ++ (v :: value) ++ u :: byte 32 :: c :: prompt) k = Some (of_bytes (v :: value), of_bytes [u], of_bytes (c :: prompt))) end.
  inversion Hdigits as [| ? ? Hvd Hvs]; subst.
  apply greedy_plus; [by repeat constructor | by apply Hds |].
  change ((v :: value) ++ u :: byte 32 :: c :: prompt) with (v :: value ++ u :: byte 32 :: c :: prompt).
  apply greedy_plus; [done.. |].
  apply (greedy_star re_space []); [constructor | done |].
  cbn [match_at unit_re]. rewrite bool_decide_true by done.
  change (byte 32 :: c :: prompt) with (byte 32 :: [] ++ c :: prompt) at 1.
  rewrite (greedy_plus re_space (byte 32) [] (c :: prompt) _ _ (of_bytes (v :: value), of_bytes [u], of_bytes (c :: prompt))); [done | by repeat constructor | done |].
  assert (∀ d, d ∈ c :: prompt → re_dot d = true) as Hdots.
  { intros d Hd. unfold re_dot. rewrite negb_true_iff, bool_decide_eq_false. by intros ->. }
  rewrite <- (app_nil_r prompt) at 1.
  rewrite (greedy_plus re_dot c prompt [] _ _ (of_bytes (v :: value), of_bytes [u], of_bytes (c :: prompt)));
    [done | by apply Forall_forall | done |].
  do 2 f_equal; [f_equal |].
  - change (v :: value ++ ?l) with ((v :: value) ++ l). apply group_app.
  - apply (group_app [u]).
  - rewrite <- (app_nil_r (c :: prompt)) at 1. apply group_app.
Qed.

Lemma space_outside_digit c : is_digit c = true → c ∉ space_bytes.
Proof.
  intros Hc Hin. assert (Forall (λ d, is_digit d = false) space_bytes) as Hall by by apply (bool_decide_unpack _); vm_compute.
  rewrite Forall_forall in Hall. specialize (Hall c Hin). congruence.
Qed.

Lemma lower_unit_last value u : to_bytes (of_bytes value +:+ of_bytes [u]) = value ++ [u].
Proof. by rewrite to_bytes_append, !to_bytes_of_bytes. Qed.

(** A loop command of the form [/loop <n><unit> <prompt>] is read back as
    its interval and prompt, and the interval is one that can be turned into a
    cron expression. *)
Theorem loop_commands_are_read value v u c d prompt :
  Forall (λ c, is_digit c = true) value → Atoi (of_bytes value) = Some v → (0 < v)%Z →
  u ∈ [byte 115; byte 109; byte 104] →
  last (c :: prompt) = Some d → c ∉ space_bytes → d ∉ space_bytes → byte 10 ∉ c :: prompt →
  let interval := of_bytes (value ++ [u]) in
  TryParse (of_bytes (to_bytes "/loop " ++ value ++ u :: byte 32 :: c :: prompt)) =
    Some (mkLoopCommand LoopAction_Schedule interval (of_bytes (c :: prompt))) ∧
  ∃ e, IntervalToCron interval = Ok e.
Proof.
  intros Hdigits Hv Hpos Hu Hlast Hc Hd Hnl interval.
  destruct value as [| w value]; [done |].
  assert (Hw := Forall_inv Hdigits). cbn beta in Hw.
  set (text := to_bytes "/loop " ++ (w :: value) ++ u :: byte 32 :: c :: prompt).
  assert (trim_bytes text = text) as Htrim.
  { apply (trim_outside (byte 47) d); [| by apply (bool_decide_unpack _); vm_compute | done].
    change (last text = Some d).
    assert (text = (to_bytes "/loop " ++ (w :: value) ++ [u; byte 32]) ++ c :: prompt) as -> by (unfold text; by rewrite <- !app_assoc).
    by rewrite last_app, Hlast. }
  split.
  - assert (TrimSpace (of_bytes text) = of_bytes text) as Ht by (unfold TrimSpace; by rewrite to_bytes_of_bytes, Htrim).
    assert (HasPrefix (of_bytes text) "/loop" = true) as Hpre by (apply has_prefix_spec; rewrite to_bytes_of_bytes; by eexists).
    unfold TryParse, IsBlank. rewrite Ht, Hpre. cbn [orb negb].
    rewrite (bool_decide_false (of_bytes text = "")) by done. cbn [orb].
    assert (∀ s x, to_bytes s !! 6%nat = Some x → is_digit x = false → bool_decide (of_bytes text = s) = false) as Hnot.
    { intros s x Hs Hx. apply bool_decide_eq_false. intros <-. rewrite to_bytes_of_bytes in Hs.
      injection Hs as <-. congruence. }
    rewrite (Hnot "/loop cancel" "c"%char), (Hnot "/loop stop" "s"%char), (Hnot "/loop status" "s"%char) by done.
    assert (lower u = u) as Hlow.
    { clear -Hu. apply (bool_decide_eq_true_2 _) in Hu. by destruct u as [[] [] [] [] [] [] [] []]. }
    cbn [orb]. subst text.
    rewrite (loop_regex_reads (w :: value) u (c :: prompt)); [| done | done | by rewrite Hlow | done | by apply outside_not_space | done].
    assert (TrimSpace (of_bytes (c :: prompt)) = of_bytes (c :: prompt)) as -> by (unfold TrimSpace; by rewrite to_bytes_of_bytes, (trim_outside c d)).
    assert (of_bytes (w :: value) +:+ of_bytes [u] = interval) as -> by (rewrite <- (of_bytes_to_bytes (_ +:+ _)); by rewrite lower_unit_last).
    done.
  - subst interval. unfold IntervalToCron. rewrite to_bytes_of_bytes, last_snoc, removelast_last, Hv.
    rewrite (proj2 (Nat.ltb_ge _ _)) by (rewrite length_app; simpl; lia).
    rewrite (proj2 (Z.leb_gt _ _)) by done.
    revert Hu. rewrite !elem_of_cons. intros [-> | [-> | [-> | H]]]; [| by eexists.. | by apply not_elem_of_nil in H].
    rewrite decide_True by done. destruct (60 <=? v)%Z; by eexists.
Qed.

Lemma loop_commands_are_read_witness :
  TryParse "/loop 90s check the build" = Some (mkLoopCommand LoopAction_Schedule "90s" "check the build") ∧
  IntervalToCron "90s" = Ok "*/1 * * * *".
Proof.
  destruct (loop_commands_are_read (to_bytes "90") 90 (byte 115) "c"%char "d"%char (to_bytes "heck the build")) as [H _];
    try done; try (by apply (bool_decide_unpack _); vm_compute).
Defined.

(** The expression ignores the case of the unit, the conversion does not; nor
    does it know the long s. *)
Example upper_case_units :
  TryParse "/loop 5M sweep" = Some (mkLoopCommand LoopAction_Schedule "5M" "sweep") ∧
  is_ok (IntervalToCron "5M") = false ∧
  TryParse "/loop 5ſ sweep" = Some (mkLoopCommand LoopAction_Schedule "5ſ" "sweep") ∧ is_ok (IntervalToCron "5ſ") = false.
Proof. by vm_compute. Qed.

Example other_commands :
  TryParse "/loop stop " = Some (mkLoopCommand LoopAction_Cancel "" "") ∧
  TryParse "/loop soon" = Some (mkLoopCommand LoopAction_Invalid "" "") ∧ TryParse " /loop status" = None.
Proof. by vm_compute. Qed.

Lemma termination_keywords_are_whole_words_witness :
  ScanText id TerminationKeywords (Ok tt) "All green: work_complete." = (true, true) ∧
  ScanText id TerminationKeywords (Ok tt) "undone, DONE_ish" = (false, false).
Proof.
  pose proof (termination_keywords_are_whole_words id TerminationKeywords (Ok tt) "All green: work_complete." ltac:(done)) as H1.
  pose proof (termination_keywords_are_whole_words id TerminationKeywords (Ok tt) "undone, DONE_ish" ltac:(done)) as H2.
  split; [destruct (ScanText _ _ _ "All green: work_complete.") eqn:H | destruct (ScanText _ _ _ "undone, DONE_ish") eqn:H];
    vm_compute in H; injection H as <- <-; [by destruct H1 as [-> _] | by destruct H2 as [-> _]].
Defined.

(** ** Which ticks dispatch a loop *)

Section Dispatch.
Context {Schedule : Type} (parse_standard parse_seconds parse_descriptor : string → option Schedule).
Context (Next : Schedule → Z → option Z).
Context (lower_rune : N → N).

Abbreviation loops := (gmap string (@LoopEntry Schedule)).
Abbreviation schedule_loop := (ScheduleLoop parse_standard parse_seconds parse_descriptor Next lower_rune).

(** The operations on the scheduler, one at a time: a tick ranges over all
    entries in some order. *)
Inductive loop_label :=
  | Ticked (now : Z) (results : list (@LoopEntry Schedule))
  | Scheduled (sessionId : string)
  | Cancelled (sessionId : string).

Inductive loop_step (s : loops) : loop_label → loops → Prop :=
  | step_tick now order results s' : order ≡ₚ elements (dom s) → GetDueEntries Next now order s = (results, s') →
      loop_step s (Ticked now results) s'
  | step_schedule now sessionId cron prompt r s' : schedule_loop now sessionId cron prompt s = (r, s') →
      loop_step s (Scheduled sessionId) s'
  | step_cancel sessionId r s' : CancelLoop lower_rune sessionId s = (r, s') → loop_step s (Cancelled sessionId) s'.

(** Labels that are not about the key, and ticks in the order of time. *)
Definition elsewhere (key : string) (l : loop_label) : Prop :=
  match l with
  | Ticked _ _ => True
  | Scheduled sessionId | Cancelled sessionId => ToLower lower_rune sessionId ≠ key
  end.
Fixpoint chronological (prev : Z) (ls : list loop_label) : Prop :=
  match ls with
  | [] => True
  | Ticked now _ :: ls => (prev ≤ now)%Z ∧ chronological now ls
  | _ :: ls => chronological prev ls
  end.
Fixpoint last_tick (prev : Z) (ls : list loop_label) : Z :=
  match ls with
  | [] => prev
  | Ticked now _ :: ls => last_tick now ls
  | _ :: ls => last_tick prev ls
  end.

(** What a tick hands over for a key, and the last tick that did. *)
Definition sent_for (key : string) (results : list (@LoopEntry Schedule)) : list (@LoopEntry Schedule) :=
  filter (λ e, ToLower lower_rune (SessionId e) = key) results.
Definition sent_at (key : string) (base : Z) (l : loop_label) : Z :=
  match l with
  | Ticked now results => if bool_decide (sent_for key results = []) then base else now
  | _ => base
  end.
Definition last_sent (key : string) (start : Z) (ls : list loop_label) : Z := foldl (sent_at key) start ls.

(** At [now] the first instant after [since] is reached, or there is none. *)
Definition reached (sched : Schedule) (since now : Z) : Prop :=
  match Next sched since with Some o => (o ≤ now)%Z | None => True end.

(** The next instant stays the same until it is reached. *)
Definition steady (sched : Schedule) : Prop :=
  ∀ t o u, Next sched t = Some o → (t ≤ u < o)%Z → Next sched u = Some o.

(** Entries are stored under their session. *)
Definition keyed (s : loops) : Prop := map_Forall (λ key e, ToLower lower_rune (SessionId e) = key) s.

Lemma IsDue_session now (e : @LoopEntry Schedule) : SessionId (IsDue Next now e).2 = SessionId e.
Proof. unfold IsDue. by destruct (before_next now e). Qed.

Lemma omap_ext_in {A B} (f g : A → option B) (l : list A) : (∀ x, x ∈ l → f x = g x) → omap f l = omap g l.
Proof.
  intros H. induction l as [| x l IH]; [done |]. cbn [omap list_omap]. rewrite (H x) by left.
  rewrite IH; [done |]. intros y Hy. apply H. by right.
Qed.

Lemma due_spec now order : ∀ s results s', NoDup order → GetDueEntries Next now order s = (results, s') →
  results = omap (λ key, s !! key ≫= λ e, if (IsDue Next now e).1 then Some (IsDue Next now e).2 else None) order ∧
  ∀ key, s' !! key = if decide (key ∈ order) then (λ e, (IsDue Next now e).2) <$> s !! key else s !! key.
Proof.
  induction order as [| k order IH]; intros s results s' Hnd Hg; cbn [GetDueEntries] in Hg.
  { injection Hg as <- <-. done. }
  apply NoDup_cons in Hnd as [Hk Hnd]. destruct (s !! k) as [e |] eqn:He.
  - destruct (IsDue Next now e) as [due e'] eqn:Hdue.
    destruct (GetDueEntries Next now order (<[k := e']> s)) as [rest s1] eqn:Hrest. injection Hg as <- <-.
    apply IH in Hrest as [-> Hs]; [| done]. split.
    + cbn [omap list_omap]. rewrite He. cbn. rewrite Hdue. cbn.
      rewrite (omap_ext_in _ (λ key, s !! key ≫= λ e, if (IsDue Next now e).1 then Some (IsDue Next now e).2 else None) order);
        [by destruct due |]. intros key Hin. by rewrite lookup_insert_ne by (intros ->; done).
    + intros key. rewrite Hs. destruct (decide (key = k)) as [-> |].
      * rewrite decide_False by done. rewrite decide_True by left. rewrite lookup_insert_eq, He. cbn. by rewrite Hdue.
      * rewrite lookup_insert_ne by done. destruct (decide (key ∈ order)); [rewrite decide_True by by right | rewrite decide_False by (intros [-> | ?]%elem_of_cons; done)]; done.
  - apply IH in Hg as [-> Hs]; [| done]. split; [cbn [omap list_omap]; by rewrite He |].
    intros key. rewrite Hs. destruct (decide (key = k)) as [-> |].
    + rewrite decide_False by done. rewrite decide_True by left. by rewrite He.
    + destruct (decide (key ∈ order)); [rewrite decide_True by by right | rewrite decide_False by (intros [-> | ?]%elem_of_cons; done)]; done.
Qed.

Lemma keyed_step s l s' : keyed s → loop_step s l s' → keyed s'.
Proof.
  intros Hs Hstep. destruct Hstep as [now order results s' Horder Hg | now sid cron prompt r s' Hg | sid r s' Hg].
  - apply due_spec in Hg as [_ Hg]; [| rewrite Horder; apply NoDup_elements].
    intros key e He. rewrite Hg in He. destruct (decide (key ∈ order)); [| by apply Hs].
    apply fmap_Some in He as (e1 & He1 & ->). rewrite IsDue_session. by apply Hs.
  - unfold ScheduleLoop in Hg. destruct (ParseCronExpression _ _ _ cron); injection Hg as <- <-; [| done].
    by apply map_Forall_insert_2.
  - injection Hg as <- <-. by apply map_Forall_delete.
Qed.

Lemma keyed_steps s ls s' : steps loop_step s ls s' → keyed s → keyed s'.
Proof. apply steps_invariant. intros s1 l s2 H1 H2. by eapply keyed_step. Qed.

Lemma filter_omap_keyed (s : loops) key now order : keyed s → NoDup order → key ∈ order →
  filter (λ e, ToLower lower_rune (SessionId e) = key)
    (omap (λ k, s !! k ≫= λ e, if (IsDue Next now e).1 then Some (IsDue Next now e).2 else None) order) =
  option_list (s !! key ≫= λ e, if (IsDue Next now e).1 then Some (IsDue Next now e).2 else None).
Proof.
  set (f := λ k, s !! k ≫= _). change (s !! key ≫= _) with (f key). intros Hs.
  assert (∀ k e, f k = Some e → ToLower lower_rune (SessionId e) = k) as Hf.
  { intros k e. unfold f. destruct (s !! k) as [e0 |] eqn:He; [| done]. cbn.
    destruct (IsDue Next now e0).1; [| done]. intros [= <-]. rewrite IsDue_session. by apply Hs. }
  assert (∀ l, key ∉ l → filter (λ e, ToLower lower_rune (SessionId e) = key) (omap f l) = []) as Hout.
  { induction l as [| k l IH]; intros Hk; [done |]. apply not_elem_of_cons in Hk as [Hne Hk]. cbn [omap list_omap].
    destruct (f k) as [e |] eqn:He; [rewrite filter_cons_False by (by rewrite (Hf k e He)) |]; by apply IH. }
  intros Hnd Hin. induction order as [| k order IH]; [by apply not_elem_of_nil in Hin |].
  apply NoDup_cons in Hnd as [Hk Hnd]. cbn [omap list_omap]. destruct (decide (k = key)) as [-> | Hne].
  - destruct (f key) as [e |] eqn:He; cbn [option_list]; [rewrite filter_cons_True by by apply Hf |]; by rewrite Hout.
  - apply elem_of_cons in Hin as [-> | Hin]; [done |].
    destruct (f k) as [e |] eqn:He; [rewrite filter_cons_False by (by rewrite (Hf k e He)) |]; by apply IH.
Qed.

(** The loop is scheduled, last handed over at [base], and not reached since. *)
Definition loop_runs (key sessionId prompt : string) (sched : Schedule) (base prev : Z) (s : loops) : Prop :=
  ∃ e, s !! key = Some e ∧ SessionId e = sessionId ∧ EntryPrompt e = prompt ∧ schedule e = sched ∧
    nextOccurrence e = Next sched base ∧ (base = prev ∨ ∃ o, Next sched base = Some o ∧ (base ≤ prev < o)%Z).

Lemma IsDue_reached now e base : nextOccurrence e = Next (schedule e) base → (IsDue Next now e).1 = true ↔ reached (schedule e) base now.
Proof.
  intros He. unfold IsDue, before_next, reached. rewrite He. destruct (Next _ base) as [o |]; [| done].
  destruct (Z.ltb_spec now o); simpl; split; done || lia.
Qed.

Lemma tick_spec key sessionId prompt sched base prev now order s results s' : keyed s → (prev ≤ now)%Z →
  loop_runs key sessionId prompt sched base prev s → order ≡ₚ elements (dom s) → GetDueEntries Next now order s = (results, s') →
  (sent_for key results = [] ∨ ∃ e, sent_for key results = [e] ∧ SessionId e = sessionId ∧ EntryPrompt e = prompt) ∧
  (sent_for key results ≠ [] ↔ reached sched base now) ∧
  loop_runs key sessionId prompt sched (sent_at key base (Ticked now results)) now s'.
Proof.
  intros Hk Hnow (e & He & Hsid & Hprompt & Hsched & Hnext & Hbase) Horder Hg.
  assert (NoDup order) as Hnd by (rewrite Horder; apply NoDup_elements).
  assert (key ∈ order) as Hin by (rewrite Horder, elem_of_elements, elem_of_dom; by eexists).
  apply due_spec in Hg as [-> Hs']; [| done]. specialize (Hs' key). rewrite decide_True, He in Hs' by done. cbn in Hs'.
  subst sched. pose proof (IsDue_reached now e base Hnext) as Hdue. unfold sent_at.
  unfold sent_for. rewrite (filter_omap_keyed s key now order Hk Hnd Hin), He. cbn.
  destruct (IsDue Next now e) as [due e'] eqn:Hd. cbn in *. unfold IsDue in Hd.
  destruct (before_next now e) eqn:Hbefore; injection Hd as <- <-; cbn.
  - split; [by left |]. split; [by rewrite <- Hdue |]. exists e. do 5 (split; [done |]). right.
    unfold before_next in Hbefore. rewrite Hnext in Hbefore. destruct (Next (schedule e) base) as [o |]; [| done].
    exists o. split; [done |]. apply Z.ltb_lt in Hbefore. split; [| done]. destruct Hbase as [-> | (? & _ & ?)]; lia.
  - split; [right; by eexists |]. split; [by rewrite <- Hdue |]. eexists. split; [exact Hs' |]. cbn. do 4 (split; [done |]). by left.
Qed.

Lemma loop_runs_steps key sessionId prompt sched ls : ∀ base prev s s', keyed s →
  loop_runs key sessionId prompt sched base prev s → steps loop_step s ls s' → Forall (elsewhere key) ls →
  chronological prev ls → loop_runs key sessionId prompt sched (last_sent key base ls) (last_tick prev ls) s'.
Proof.
  induction ls as [| l ls IH]; intros base prev s s' Hk Hrun Hsteps Helse Hchron; inversion Hsteps as [| ? ? s1 ? ? Hstep Hrest]; subst; [done |].
  apply Forall_cons in Helse as [Hl Hls]. assert (keyed s1) as Hk1 by by eapply keyed_step.
  destruct Hstep as [now order results s1 Horder Hg | now sid cron p r s1 Hg | sid r s1 Hg]; cbn in Hl, Hchron |- *.
  - destruct Hchron as [Hnow Hchron]. eapply IH; [done | | done..]. by destruct (tick_spec _ _ _ _ _ _ _ _ _ _ _ Hk Hnow Hrun Horder Hg) as (_ & _ & Hrun1).
  - eapply IH; [done | | done..]. destruct Hrun as (e & He & Hrun). exists e. split; [| done]. unfold ScheduleLoop in Hg.
    destruct (ParseCronExpression _ _ _ cron); injection Hg as <- <-; [by rewrite lookup_insert_ne | done].
  - eapply IH; [done | | done..]. destruct Hrun as (e & He & Hrun). exists e. split; [| done].
    injection Hg as <- <-. by rewrite lookup_delete_ne.
Qed.

(** C30: Between the scheduling of a loop and its replacement or cancellation,
    whatever happens to other loops, a tick hands the loop over at most once,
    and exactly if the schedule's next instant after the last hand-over, or
    after the scheduling, is reached, or the schedule has none; missed instants
    count once.  If the next instant stays the same until it is reached, as for
    cron fields but not for [@every], it is counted from the tick before. *)
Theorem loops_run_at_their_occurrences s0 s1 s2 s3 start sessionId cron prompt sched ls now results :
  keyed s0 → ParseCronExpression parse_standard parse_seconds parse_descriptor cron = Some sched →
  schedule_loop start sessionId cron prompt s0 = (Ok tt, s1) →
  let key := ToLower lower_rune sessionId in
  steps loop_step s1 ls s2 → Forall (elsewhere key) ls →
  chronological start (ls ++ [Ticked now results]) → loop_step s2 (Ticked now results) s3 →
  let sent := sent_for key results in
  (sent = [] ∨ ∃ e, sent = [e] ∧ SessionId e = sessionId ∧ EntryPrompt e = prompt) ∧
  (sent ≠ [] ↔ reached sched (last_sent key start ls) now) ∧
  (steady sched → (sent ≠ [] ↔ reached sched (last_tick start ls) now)).
Proof.
  intros Hk0 Hparse Hsched key Hsteps Helse Hchron Htick sent. unfold ScheduleLoop in Hsched. rewrite Hparse in Hsched.
  injection Hsched as <-. fold key in Hsteps.
  assert (keyed (<[key := NewLoopEntry Next sessionId prompt cron sched start]> s0)) as Hk1 by by apply map_Forall_insert_2.
  assert (keyed s2) as Hk2 by (by eapply keyed_steps).
  assert (chronological start ls ∧ (last_tick start ls ≤ now)%Z) as [Hc Hnow].
  { clear -Hchron. revert start Hchron. induction ls as [| [] ls IH]; intros start H; cbn in *; try tauto; [| by apply IH ..].
    destruct H as [H1 H2]. apply IH in H2. tauto. }
  assert (loop_runs key sessionId prompt sched (last_sent key start ls) (last_tick start ls) s2) as Hrun.
  { eapply loop_runs_steps; [exact Hk1 | | done..]. eexists. split; [by rewrite lookup_insert_eq |].
    cbn. do 4 (split; [done |]). by left. }
  inversion Htick as [? order ? ? Horder Hg | |]; subst.
  destruct (tick_spec _ _ _ _ _ _ _ _ _ _ _ Hk2 Hnow Hrun Horder Hg) as (Hone & Hsent & _). split; [done |]. split; [done |].
  intros Hsteady. unfold sent. rewrite Hsent. destruct Hrun as (_ & _ & _ & _ & _ & _ & [-> | (o & Ho & Hprev)]); [done |].
  unfold reached. by rewrite Ho, (Hsteady _ _ _ Ho Hprev).
Qed.
End Dispatch.

(** A schedule with one instant, and [@every] ten of them. *)
Definition next_sample (s t : Z) : option Z :=
  if (s <? 0)%Z then Some (t + 10)%Z else if (t <? s)%Z then Some s else None.
Definition parse_sample (spec : string) : option Z :=
  if bool_decide (spec = "0 12 1 1 *") then Some 100%Z else if bool_decide (spec = "@every 10") then Some (-1)%Z else None.

(** It is handed over when it is due, and at the next tick again. *)
Lemma loops_run_at_their_occurrences_witness :
  let e := mkLoopEntry "S" "report" "0 12 1 1 *" 7 100%Z None in
  ParseCronExpression parse_sample parse_sample parse_sample "0 12 1 1 *" = Some 100%Z ∧
  GetDueEntries next_sample 100 ["s"] {["s" := NewLoopEntry next_sample "S" "report" "0 12 1 1 *" 100%Z 7]} = ([e], {["s" := e]}) ∧
  sent_for id "s" [e] ≠ [].
Proof.
  intros e. split; [by vm_compute |]. split; [by vm_compute |].
  refine (proj2 (proj1 (proj2 (loops_run_at_their_occurrences parse_sample parse_sample parse_sample next_sample id
    ∅ {["s" := NewLoopEntry next_sample "S" "report" "0 12 1 1 *" 100%Z 7]} {["s" := e]} {["s" := e]} 7
    "S" "0 12 1 1 *" "report" 100%Z [Ticked 100 [e]] 101 [e] _ _ _ _ _ _ _))) _).
  - by intros ? ? ?%lookup_empty_Some.
  - by vm_compute.
  - by vm_compute.
  - econstructor; [| constructor]. by apply (step_tick _ _ _ _ _ _ _ ["s"]); [vm_compute | vm_compute].
  - by repeat constructor.
  - by vm_compute.
  - by apply (step_tick _ _ _ _ _ _ _ ["s"]); [vm_compute | vm_compute].
  - by vm_compute.
Defined.

(** With [@every], the next instant is counted from the last hand-over: ticks at
    8 and 16 after a scheduling at 0 hand the loop over at 16. *)
Example every_counts_from_the_hand_over :
  let e := NewLoopEntry next_sample "S" "report" "@every 10" (-1)%Z 0 in
  let e' := mkLoopEntry "S" "report" "@every 10" 0 (-1)%Z (Some 26%Z) in
  GetDueEntries next_sample 8 ["s"] {["s" := e]} = ([], {["s" := e]}) ∧
  GetDueEntries next_sample 16 ["s"] {["s" := e]} = ([e'], {["s" := e']}).
Proof. split; by vm_compute. Qed.
