(* ===== verification/CronScheduler.v ===== *)
(** The scheduler of cron jobs and the registry of runs that can be aborted:
    [CronScheduler] and [SessionAbortRegistry] of [openclaw/core/pipeline.go],
    [IsTime] of [openclaw/util/helper.go].

    The dispatcher of automations and the channel of messages answer from the
    world [W]; [deliver] is the select of the channel and the context.  Time
    zones are named; [Next] finds occurrences in a zone.  Log lines are not
    kept; what the notice sink records is. *)

From S2P Require Import Prelude GoStrings Loops.
Local Open Scope string_scope.
Local Open Scope list_scope.
Local Open Scope Z_scope.

Definition second : Z := 10^9.

(** ** Data *)

Record CronJobConfig := mkJob {
  Name : string; JobExpression : string; JobPrompt : string; RunOnStartup : bool; JobSessionId : string;
  JobChannelId : string; RecipientId : string; JobSubject : string; JobAutomationId : string;
  AutomationTriggerSource : string; Timezone : string
}.
(** The fields of a message the scheduler sets; the others are zero. *)
Record InboundMessage := mkMessage {
  IsSystem : bool; MsgSessionId : string; CronJobName : string; ChannelId : string; SenderId : string;
  Subject : string; Text : string
}.
Record AutomationDispatchRequest := mkDispatch {
  AutomationId : string; DispatchSessionId : string; DispatchChannelId : string; DispatchSenderId : string;
  DispatchPrompt : string; TriggerSource : string; DispatchSubject : string
}.

Section Scheduler.
Context {W Schedule : Type}.
Context (parse_standard parse_seconds parse_descriptor : string → option Schedule).
(** [Next zone schedule t], [None] being the zero time, and the zones that can
    be loaded. *)
Context (Next : string → Schedule → Z → option Z) (zone_known : string → bool).

(** [t.Truncate(time.Second)] *)
Definition truncate_second (t : Z) : Z := t - t mod second.

Definition IsTime (zone expression : string) (t : Z) : bool :=
  match ParseCronExpression parse_standard parse_seconds parse_descriptor expression with
  | None => false
  | Some sched =>
      let truncatedTime := truncate_second t in
      bool_decide (Next zone sched (truncatedTime - second) = Some truncatedTime)
  end.

(** [None] for the dispatcher is [nil]. *)
Context (PrepareDispatch : option (AutomationDispatchRequest → W → res (option InboundMessage) * W)).
Context (deliver : InboundMessage → W → res () * W).

(** [attempts] is the trace of the calls of [enqueueJob]: for which job, when,
    and whether it succeeded. *)
Record scheduler := mkScheduler {
  runningJobs : gmap string Z; notices : list string; attempts : list (string * Z * bool); world : W
}.
Definition set_running (r : gmap string Z) (s : scheduler) : scheduler := mkScheduler r (notices s) (attempts s) (world s).

Definition maxRunningDuration : Z := 6 * 3600 * second.

Definition logOverlap (jobName : string) (s : scheduler) : scheduler :=
  mkScheduler (runningJobs s)
    (notices s ++ ["Background job '" +:+ jobName +:+ "' is still running from an earlier trigger; this tick was skipped."])
    (attempts s) (world s).

(** [now.Sub(since) <= c.maxRunningDuration] *)
Definition recent (now since : Z) : bool := sat64 (now - since) <=? maxRunningDuration.

Definition cleanupStaleRunningJobs (nowUtc : Z) (s : scheduler) : scheduler :=
  set_running (filter (λ jt, recent nowUtc jt.2 = true) (runningJobs s)) s.

Definition first_nonempty (a b : string) : string := if bool_decide (a = "") then b else a.

(** The message of a job, without and with a dispatcher. *)
Definition job_message (job : CronJobConfig) : InboundMessage :=
  let sessionId := if negb (IsBlank (JobSessionId job)) then JobSessionId job
                   else if IsBlank (Name job) then "cron:system" else "cron:" +:+ Name job in
  let channelId := if IsBlank (JobChannelId job) then "cron" else JobChannelId job in
  let senderId := first_nonempty (first_nonempty (first_nonempty (RecipientId job) sessionId) (Name job)) "system" in
  let subject := if IsBlank (JobSubject job) then (if IsBlank (Name job) then JobSubject job else "OpenClaw Cron: " +:+ Name job)
                 else JobSubject job in
  mkMessage true sessionId (Name job) channelId senderId subject (JobPrompt job).
Definition job_request (job : CronJobConfig) : AutomationDispatchRequest :=
  let msg := job_message job in
  mkDispatch (JobAutomationId job) (MsgSessionId msg) (ChannelId msg) (SenderId msg) (JobPrompt job)
    (if IsBlank (AutomationTriggerSource job) then "schedule" else AutomationTriggerSource job) (Subject msg).

Definition enqueueJob (job : CronJobConfig) (w : W) : res () * W :=
  match PrepareDispatch with
  | Some prepare =>
      if IsBlank (JobAutomationId job) then deliver (job_message job) w
      else match prepare (job_request job) w with
           | (Fail e, w) => (Fail e, w)
           | (Ok msg, w) => deliver (default (job_message job) msg) w
           end
  | None => deliver (job_message job) w
  end.

Definition job_name (job : CronJobConfig) : string := if IsBlank (Name job) then "unnamed" else Name job.

(** A job that is not marked is marked for the time of the call; a success takes
    the mark away again. *)
Definition enqueueJobIfNotRunning (now : Z) (job : CronJobConfig) (s : scheduler) : res () * scheduler :=
  let jobName := job_name job in
  let start (running : gmap string Z) :=
    let '(r, w) := enqueueJob job (world s) in
    (r, mkScheduler (if is_ok r then delete jobName running else <[jobName := now]> running) (notices s)
          (attempts s ++ [(jobName, now, is_ok r)]) w) in
  match runningJobs s !! jobName with
  | Some runningSince => if recent now runningSince then (Ok tt, logOverlap jobName s) else start (delete jobName (runningJobs s))
  | None => start (runningJobs s)
  end.

Definition MarkJobCompleted (jobName : string) (s : scheduler) : scheduler :=
  if IsBlank jobName then s else set_running (delete jobName (runningJobs s)) s.

Definition zone_of (job : CronJobConfig) : string :=
  if negb (IsBlank (Timezone job)) && zone_known (Timezone job) then Timezone job else "UTC".

(** The jobs of a tick, up to the first that fails.  [clock] is the reading of
    the clock for a job. *)
Fixpoint run_jobs (utcNow : Z) (clock : CronJobConfig → Z) (jobs : list CronJobConfig) (s : scheduler) : res () * scheduler :=
  match jobs with
  | [] => (Ok tt, s)
  | job :: jobs =>
      if negb (IsTime (zone_of job) (JobExpression job) utcNow) then run_jobs utcNow clock jobs s
      else match enqueueJobIfNotRunning (clock job) job s with
           | (Fail e, s) => (Fail e, s)
           | (Ok _, s) => run_jobs utcNow clock jobs s
           end
  end.
Definition RunTick (utcNow : Z) (clock : CronJobConfig → Z) (jobs : list CronJobConfig) (s : scheduler) : res () * scheduler :=
  run_jobs utcNow clock jobs (cleanupStaleRunningJobs utcNow s).

(** [ctx_err w] is the context's error; failures of jobs are logged. *)
Fixpoint RunStartupJobs (ctx_err : W → option string) (clock : CronJobConfig → Z) (jobs : list CronJobConfig) (s : scheduler) :
    res () * scheduler :=
  match jobs with
  | [] => (Ok tt, s)
  | job :: jobs =>
      match ctx_err (world s) with
      | Some e => (Fail e, s)
      | None =>
          if negb (RunOnStartup job) then RunStartupJobs ctx_err clock jobs s
          else RunStartupJobs ctx_err clock jobs (enqueueJobIfNotRunning (clock job) job s).2
      end
  end.

(** ** What a mark means *)

(** The operations, with what became of the attempts to dispatch a job. *)
Inductive scheduler_operation :=
  | OpTick (utcNow : Z) (clock : CronJobConfig → Z) (jobs : list CronJobConfig)
  | OpStartup (ctx_err : W → option string) (clock : CronJobConfig → Z) (jobs : list CronJobConfig)
  | OpCompleted (jobName : string).
Definition run_operation (s : scheduler) (op : scheduler_operation) : scheduler :=
  match op with
  | OpTick utcNow clock jobs => (RunTick utcNow clock jobs s).2
  | OpStartup ctx_err clock jobs => (RunStartupJobs ctx_err clock jobs s).2
  | OpCompleted jobName => MarkJobCompleted jobName s
  end.

(** The last attempt for a name: when, and whether it succeeded. *)
Definition last_attempt (name : string) (s : scheduler) : option (Z * bool) :=
  (λ a, (a.1.2, a.2)) <$> last (filter (λ a, a.1.1 = name) (attempts s)).

(** The marks are those of failed attempts. *)
Definition only_failures (s : scheduler) : Prop :=
  map_Forall (λ name since, last_attempt name s = Some (since, false)) (runningJobs s).

Lemma last_attempt_snoc name name' now ok s running notices w :
  last_attempt name (mkScheduler running notices (attempts s ++ [(name', now, ok)]) w) =
    if bool_decide (name' = name) then Some (now, ok) else last_attempt name s.
Proof.
  unfold last_attempt. cbn [attempts]. rewrite filter_app. case_bool_decide as Hn.
  - rewrite (filter_cons_True _ (name', now, ok)) by done. by rewrite filter_nil, last_snoc.
  - rewrite (filter_cons_False _ (name', now, ok)) by done. by rewrite filter_nil, app_nil_r.
Qed.

Lemma only_failures_delete name s : only_failures s → map_Forall (λ name since, last_attempt name s = Some (since, false)) (delete name (runningJobs s)).
Proof. apply map_Forall_delete. Qed.

Lemma enqueue_only_failures now job s : only_failures s → only_failures (enqueueJobIfNotRunning now job s).2.
Proof.
  intros Hs. unfold enqueueJobIfNotRunning.
  destruct (runningJobs s !! job_name job) as [since |] eqn:Hsince; [destruct (recent now since); [exact Hs |] |];
    destruct (enqueueJob job (world s)) as [r w]; intros name t; cbn [snd runningJobs]; rewrite last_attempt_snoc; destruct (is_ok r);
    rewrite ?lookup_delete_Some, ?lookup_insert_Some, ?lookup_delete_Some; intros H; case_bool_decide; naive_solver.
Qed.

Lemma operations_only_failures s op : only_failures s → only_failures (run_operation s op).
Proof.
  intros Hs. destruct op as [utcNow clock jobs | ctx_err clock jobs | jobName]; cbn.
  - unfold RunTick. assert (only_failures (cleanupStaleRunningJobs utcNow s)) as Hc.
    { intros name t H. apply map_lookup_filter_Some in H as [H _]. by apply Hs. }
    revert Hc. generalize (cleanupStaleRunningJobs utcNow s). induction jobs as [| job jobs IH]; intros s' Hs'; cbn; [done |].
    destruct (negb _); [by apply IH |]. pose proof (enqueue_only_failures (clock job) job s' Hs') as He.
    destruct (enqueueJobIfNotRunning _ _ _) as [[] s1]; [by apply IH | done].
  - revert s Hs. induction jobs as [| job jobs IH]; intros s Hs; cbn; [done |].
    destruct (ctx_err _); [done |]. destruct (negb _); apply IH; [done | by apply enqueue_only_failures].
  - unfold MarkJobCompleted. destruct (IsBlank _); [done |]. by apply map_Forall_delete.
Qed.

Definition NewCronScheduler (w : W) : scheduler := mkScheduler ∅ [] [] w.

Lemma reached_only_failures w ops : only_failures (foldl run_operation (NewCronScheduler w) ops).
Proof.
  assert (only_failures (NewCronScheduler w)) as H by apply map_Forall_empty.
  revert H. generalize (NewCronScheduler w). induction ops as [| op ops IH]; intros s Hs; [done |]. by apply IH, operations_only_failures.
Qed.

(** The guard against overlapping runs works the other way round: after any
    operations, a job whose last dispatch succeeded is dispatched again however
    long its run takes; a job is skipped as still running exactly if its last
    dispatch failed within six hours and nothing has cleared it since, and then
    nothing of it runs. *)
Theorem overlap_guard_is_inverted w ops now job :
  let s := foldl run_operation (NewCronScheduler w) ops in
  let '(r, s') := enqueueJobIfNotRunning now job s in
  (match last_attempt (job_name job) s with Some (_, false) => True | _ =>
     notices s' = notices s ∧ attempts s' = attempts s ++ [(job_name job, now, is_ok r)] ∧ r = (enqueueJob job (world s)).1 end) ∧
  (notices s' ≠ notices s →
     r = Ok tt ∧ attempts s' = attempts s ∧ world s' = world s ∧
     ∃ since, last_attempt (job_name job) s = Some (since, false) ∧ recent now since = true) ∧
  (runningJobs s' !! job_name job = None ↔ is_ok (enqueueJob job (world s)).1 = true ∧ attempts s' ≠ attempts s).
Proof.
  intros s. pose proof (reached_only_failures w ops) as Hs. fold s in Hs. unfold enqueueJobIfNotRunning.
  assert (∀ running (r : res ()) w', let s' := mkScheduler (if is_ok r then delete (job_name job) running else <[job_name job := now]> running)
      (notices s) (attempts s ++ [(job_name job, now, is_ok r)]) w' in
    (runningJobs s' !! job_name job = None ↔ is_ok r = true ∧ attempts s' ≠ attempts s)) as Hmark.
  { intros running r w'. cbn. assert (attempts s ++ [(job_name job, now, is_ok r)] ≠ attempts s) as Hne.
    { intros H. apply (f_equal length) in H. rewrite length_app in H. simpl in H. lia. }
    destruct (is_ok r); [rewrite lookup_delete_eq | rewrite lookup_insert_eq]; naive_solver. }
  destruct (runningJobs s !! job_name job) as [since |] eqn:Hsince.
  - apply Hs in Hsince as Hlast. rewrite Hlast. destruct (recent now since) eqn:Hrecent.
    + cbn. rewrite Hsince. split; [done |]. split; [intros _; by repeat (split; [done |]); exists since |]. naive_solver.
    + destruct (enqueueJob job (world s)) as [r w'] eqn:He. split; [done |]. split; [done |]. apply (Hmark (delete _ _) r w').
  - destruct (enqueueJob job (world s)) as [r w'] eqn:He. split; [| split; [done | apply (Hmark (runningJobs s) r w')]].
    destruct (last_attempt (job_name job) s) as [[? []] |]; by repeat split.
Qed.
End Scheduler.

(** ** Examples *)

(** Schedules that are always due, and a channel that takes messages while the
    world says so. *)
Definition sample_next (_ : string) (_ : unit) (t : Z) : option Z := Some (t + second).
Definition sample_deliver (msg : InboundMessage) (w : bool * list string) : res () * (bool * list string) :=
  if w.1 then (Ok tt, (w.1, w.2 ++ [CronJobName msg])) else (Fail "context canceled", w).
Definition sample_job (name : string) : CronJobConfig := mkJob name "* * * * *" "" false "" "" "" "" "" "" "".
Definition sample_tick (t : Z) (names : list string) : scheduler → res () * @scheduler (bool * list string) :=
  RunTick (λ _, Some tt) (λ _, None) (λ _, None) sample_next (λ _, false) None sample_deliver t (λ _, t) (map sample_job names).

(** A job is dispatched at every tick, though no run was reported complete. *)
Example runs_overlap :
  let s1 := (sample_tick 0 ["a"] (NewCronScheduler (true, []))).2 in
  let s2 := (sample_tick second ["a"] s1).2 in
  (world s2).2 = ["a"; "a"] ∧ notices s2 = [].
Proof. by vm_compute. Qed.

(** A job that cannot be dispatched ends the tick, and is skipped from then on,
    while the jobs after it run again. *)
Example failing_jobs_end_the_tick :
  let '(r, s1) := sample_tick 0 ["a"; "b"] (NewCronScheduler (false, [])) in
  let s2 := (sample_tick second ["a"; "b"] (mkScheduler (runningJobs s1) (notices s1) (attempts s1) (true, []))).2 in
  is_ok r = false ∧ attempts s1 = [("a", 0, false)] ∧ (world s2).2 = ["b"] ∧ length (notices s2) = 1%nat.
Proof. by vm_compute. Qed.

(** ** Runs that can be aborted *)

(** Contexts are numbered; [owner] is the session a context was made for. *)
Record SessionAbortRegistry := mkRegistry { active : gmap string nat; owner : gmap nat string; cancelled : gset nat }.
Definition NewSessionAbortRegistry : SessionAbortRegistry := mkRegistry ∅ ∅ ∅.

Definition cancel (c : nat) (r : SessionAbortRegistry) : SessionAbortRegistry :=
  mkRegistry (active r) (owner r) ({[c]} ∪ cancelled r).

Definition Register (sessionId : string) (r : SessionAbortRegistry) : nat * SessionAbortRegistry :=
  let c := fresh (dom (owner r)) in
  let r := match active r !! sessionId with Some existing => cancel existing r | None => r end in
  (c, mkRegistry (<[sessionId := c]> (active r)) (<[c := sessionId]> (owner r)) (cancelled r)).

Definition Unregister (sessionId : string) (r : SessionAbortRegistry) : SessionAbortRegistry :=
  if bool_decide (sessionId = "") then r
  else match active r !! sessionId with
       | Some c => cancel c (mkRegistry (delete sessionId (active r)) (owner r) (cancelled r))
       | None => r
       end.

Definition TryAbort (sessionId : string) (r : SessionAbortRegistry) : bool * SessionAbortRegistry :=
  match active r !! sessionId with Some c => (true, cancel c r) | None => (false, r) end.

Definition ActiveSessionIds (r : SessionAbortRegistry) : gset string := dom (active r).

(** The calls, and the cancel functions the callers were given. *)
Inductive registry_call := CallRegister (s : string) | CallUnregister (s : string) | CallAbort (s : string) | CallCancel (c : nat).
Definition run_registry (r : SessionAbortRegistry) (call : registry_call) : SessionAbortRegistry :=
  match call with
  | CallRegister s => (Register s r).2
  | CallUnregister s => Unregister s r
  | CallAbort s => (TryAbort s r).2
  | CallCancel c => cancel c r
  end.

(** A context that is not cancelled is the active one of its session. *)
Definition live_is_active (r : SessionAbortRegistry) : Prop :=
  ∀ c s, owner r !! c = Some s → c ∉ cancelled r → active r !! s = Some c.

Lemma live_call r call : live_is_active r → live_is_active (run_registry r call).
Proof.
  intros Hr. assert (∀ c, live_is_active (cancel c r)) as Hcancel by (intros c c' s; cbn; intros H1 H2; apply Hr; set_solver).
  destruct call as [s | s | s | c]; cbn [run_registry]; [| | | apply Hcancel].
  - intros c' s'. cbn. destruct (active r !! s) as [e |] eqn:He; cbn; rewrite lookup_insert_Some;
      (intros [[<- <-] | [Hne Ho]] Hc; [by rewrite lookup_insert_eq |]).
    + rewrite lookup_insert_ne; [apply Hr; set_solver |]. intros <-.
      assert (active r !! s = Some c') as H by (apply Hr; set_solver). rewrite He in H. set_solver.
    + rewrite lookup_insert_ne; [by apply Hr |]. intros <-. assert (active r !! s = Some c') by by apply Hr. congruence.
  - unfold Unregister. case_bool_decide; [done |]. destruct (active r !! s) as [e |] eqn:He; [| done].
    intros c' s'. cbn. intros Ho Hc. assert (active r !! s' = Some c') as H' by (apply Hr; set_solver).
    rewrite lookup_delete_ne; [done |]. intros <-. rewrite He in H'. set_solver.
  - unfold TryAbort. destruct (active r !! s); [apply Hcancel | done].
Qed.

(** Whatever is registered, unregistered, aborted and cancelled in whichever
    order, a session has at most one run that is not cancelled, and aborting the
    session cancels it. *)
Theorem one_live_run_per_session calls :
  let r := foldl run_registry NewSessionAbortRegistry calls in
  (∀ c d s, owner r !! c = Some s → owner r !! d = Some s → c ∉ cancelled r → d ∉ cancelled r → c = d) ∧
  ∀ c s, owner r !! c = Some s → c ∈ cancelled (TryAbort s r).2.
Proof.
  intros r. assert (live_is_active r) as Hr.
  { subst r. assert (live_is_active NewSessionAbortRegistry) as H by by intros c s.
    revert H. generalize NewSessionAbortRegistry. induction calls as [| call calls IH]; intros r H; [done |]. by apply IH, live_call. }
  split.
  - intros c d s Hc Hd Hc' Hd'. specialize (Hr c s Hc Hc') as H1. specialize (Hr d s Hd Hd') as H2. congruence.
  - intros c s Hc. destruct (decide (c ∈ cancelled r)) as [| Hlive].
    + unfold TryAbort. destruct (active r !! s); cbn; set_solver.
    + unfold TryAbort. rewrite (Hr c s Hc Hlive). cbn. set_solver.
Qed.

(** A run that is replaced and then ends unregisters the run that replaced it,
    and so aborts it. *)
Example late_unregister_aborts_the_next_run :
  let '(first, r) := Register "s" NewSessionAbortRegistry in
  let '(next, r) := Register "s" r in
  next ∉ cancelled r ∧ next ∈ cancelled (Unregister "s" r).
Proof. by split; [apply (bool_decide_unpack _) | apply (bool_decide_unpack _)]; vm_compute. Qed.
