(* ===== verification/ChatCommands.v ===== *)
(** Commands in a chat: [ChatCommandProcessor] of [openclaw/core/pipeline.go].

    A command changes the session, the goals and the token counters, and saves
    the session.  The goal service is used through the class [IGoalCommands];
    the manager's [Persist] without the lock is a save, which may fail;
    [strconv.ParseFloat], the usage of providers and the callbacks are the
    section's variables.  A run-time panic ends the command. *)

From Stdlib Require Import SpecFloat.
From S2P Require Import Prelude GoStrings Utf8 Float64 Regex Cron Loops Goal.
Local Open Scope string_scope.
Local Open Scope list_scope.
Local Open Scope Z_scope.

(** ** Budgets *)

Definition either (c : ascii) : re := Char (λ d, bool_decide (lower d = c)).
Definition optional (r : re) : re := Alt r (Star false (Char (λ _, false))).
Definition decimal_re : re := Seq (Plus (Char is_digit)) (optional (Seq (Lit [byte 46]) (Plus (Char is_digit)))).

(** The letters of the case-insensitive expression: k and s fold with the
    Kelvin sign and the long s. *)
Definition fold_letter (c : ascii) : re :=
  if bool_decide (c = byte 107) then Alt (either c) (Lit [byte 226; byte 132; byte 170])
  else if bool_decide (c = byte 115) then Alt (either c) (Lit [byte 197; byte 191])
  else either c.
Definition fold_word (w : string) : re := foldr (λ c r, Seq (fold_letter c) r) (Star false (Char (λ _, false))) (to_bytes w).

(** The leftmost match of an expression with groups: where it begins, and the
    groups. *)
Fixpoint find_submatch {A} (m : option ascii → bytes → option A) (before : option ascii) (l : bytes) (index : nat) : option (nat * A) :=
  match m before l with
  | Some groups => Some (index, groups)
  | None => match l with [] => None | c :: l => find_submatch m (Some c) l (S index) end
  end.

(** [k] at the end of the text. *)
Definition at_end {A} (x : A) (_ : option ascii) (l : bytes) : option A := match l with [] => Some x | _ => None end.

Definition budget_match (before : option ascii) (l : bytes) : option (string * string) :=
  match_at (Lit [byte 43]) before l (λ b1 l1,
  match_at decimal_re b1 l1 (λ b2 l2,
  match_at (optional (Alt (either (byte 107)) (either (byte 109)))) b2 l2 (λ b3 l3,
  match_at (Star false (Char re_space)) b3 l3 (at_end (group l1 l2, group l2 l3))))).
Definition budgetRegex (s : string) : option (nat * (string * string)) := find_submatch budget_match None (to_bytes s) 0.

Definition spend_match (before : option ascii) (l : bytes) : option (string * string) :=
  match_at (Seq (fold_word "spend") (Plus (Char re_space))) before l (λ b1 l1,
  match_at decimal_re b1 l1 (λ b2 l2,
  match_at (Star false (Char re_space)) b2 l2 (λ b3 l3,
  match_at (optional (Alt (fold_letter (byte 107)) (fold_letter (byte 109)))) b3 l3 (λ b4 l4,
  match_at (Seq (Star false (Char re_space)) (Seq (fold_word "token") (Seq (optional (fold_letter (byte 115))) (Star false (Char re_space)))))
    b4 l4 (at_end (group l1 l2, group l3 l4)))))).
Definition spendRegex (s : string) : option (nat * (string * string)) := find_submatch spend_match None (to_bytes s) 0.

(** [int64(f)]: towards zero; what the machine gives out of range is
    [unrepresentable]. *)
Definition float_trunc (f : float64) : option Z :=
  match f with
  | S754_zero _ => Some 0
  | S754_finite s m e =>
      let n := if e <? 0 then Z.shiftr (Zpos m) (- e) else Z.shiftl (Zpos m) e in
      let n := if s then - n else n in
      if bool_decide (in_int64 n) then Some n else None
  | _ => None
  end.

(** ** The session as commands see it *)

Record ChatSession (Turn : Type) := mkChat {
  Id : string; History : list Turn; ModelOverride : string; ReasoningEffort : string;
  VerboseMode : bool; ResponseMode : string
}.
Arguments mkChat {Turn}. Arguments Id {Turn}. Arguments History {Turn}. Arguments ModelOverride {Turn}.
Arguments ReasoningEffort {Turn}. Arguments VerboseMode {Turn}. Arguments ResponseMode {Turn}.

Definition SessionResponseModesDefault : string := "default".
Definition SessionResponseModesConciseOps : string := "concise_ops".
Definition SessionResponseModesFull : string := "full".

Record counters := mkTokens { totalInput : Z; totalOutput : Z; totalCacheRead : Z; totalCacheWrite : Z }.

(** The goal service as the commands use it. *)
Class IGoalCommands (G : Type) := {
  gc_GetGoal : string → GoM G (res SessionGoal);
  gc_CreateGoal : string → string → Z → Z → GoM G (res SessionGoal);
  gc_UpdateStatus : Z → string → GoalStatus → string → GoM G (res ());
  gc_ClearGoal : Z → string → GoM G (res ())
}.

(** What a command works on: the session, its counters (nil pointers are
    [None]), the goals, and the sessions that were saved. *)
Record chat_state (Turn G : Type) := mkState {
  session : ChatSession Turn; tokens : option counters; goals : G; saves : list (ChatSession Turn)
}.
Arguments mkState {Turn G}. Arguments session {Turn G}. Arguments tokens {Turn G}. Arguments goals {Turn G}. Arguments saves {Turn G}.

(** Whether the text was a command, the reply, and the error. *)
Definition outcome : Type := bool * string * option string.
Definition reply (msg : string) : outcome := (true, msg, None).

Section Processor.
Context {Turn G : Type} `{IGoalCommands G}.
Context (lower_rune : N → N) (ParseFloat : string → option float64) (unrepresentable : Z).
(** The error of the n-th save, if it fails. *)
Context (save_error : nat → option string).
Context (now : Z).

(** The processor: [goalService] may be nil, as may the rest; [None] is nil. *)
Context (has_goals : bool) (providerUsage : option (string → Z * Z)).
Context (compactCallback : option (ChatSession Turn → go (res Z * ChatSession Turn))).
Context (loopCallback : option (ChatSession Turn → string → go (res string * ChatSession Turn))).
Context (dynamicCommands : gmap string (string → go (res string))).

Local Abbreviation M := (GoM (chat_state Turn G)).

Definition in_goals {A} (m : GoM G A) : M A := λ s,
  match m (goals s) with
  | Done (a, g) => Done (a, mkState (session s) (tokens s) g (saves s))
  | Panic => Panic
  | Deadlock => Deadlock
  end.

Definition set_session (f : ChatSession Turn → ChatSession Turn) : M () :=
  modifies (λ s, mkState (f (session s)) (tokens s) (goals s) (saves s)).

(** A callback that is given the session, and one that is not. *)
Definition with_session {A} (m : ChatSession Turn → go (A * ChatSession Turn)) : M A := λ s,
  match m (session s) with
  | Done (a, x) => Done (a, mkState x (tokens s) (goals s) (saves s))
  | Panic => Panic
  | Deadlock => Deadlock
  end.
Definition outside {A} (m : go A) : M A := λ s,
  match m with Done a => Done (a, s) | Panic => Panic | Deadlock => Deadlock end.

(** Reading or writing counters through nil pointers panics. *)
Definition read_tokens : M counters := λ s, match tokens s with Some c => Done (c, s) | None => Panic end.
Definition write_tokens (f : counters → counters) : M () := λ s,
  match tokens s with Some c => Done (tt, mkState (session s) (Some (f c)) (goals s) (saves s)) | None => Panic end.

(** [c.sessionManager.Persist(ctx, session, false)], and the reply after it. *)
Definition persist_then (msg : string) : M outcome := λ s,
  let s' := mkState (session s) (tokens s) (goals s) (saves s ++ [session s]) in
  Done (match save_error (length (saves s)) with Some e => (true, "", Some e) | None => reply msg end, s').

Definition getCacheTotals : M (Z * Z) :=
  c ← read_tokens;
  if (0 <? totalCacheRead c) || (0 <? totalCacheWrite c) then mret (totalCacheRead c, totalCacheWrite c)
  else sid ← gets (λ s, Id (session s));
       mret (match providerUsage with Some totals => totals sid | None => (0, 0) end).

(** [GetTotalTokens] *)
Definition total_tokens : M Z := c ← read_tokens; mret (wrap64 (totalInput c + totalOutput c)).

(** ** Goals *)

Definition multiplier (suffix : string) : float64 :=
  let suffix := ToLower lower_rune suffix in
  if bool_decide (suffix = "k") then f_integer 1000 else if bool_decide (suffix = "m") then f_integer 1000000 else f_one.

(** One of the two expressions: the budget it finds and what is left. *)
Definition take_budget (found : option (nat * (string * string))) (budget : Z) (remaining : string) : Z * string :=
  match found with
  | None => (budget, remaining)
  | Some (index, (number, suffix)) =>
      match ParseFloat number with
      | None => (budget, remaining)
      | Some budgetVal =>
          (default unrepresentable (float_trunc (SFmul 53 1024 budgetVal (multiplier suffix))), TrimSpace (slice_to remaining index))
      end
  end.

Definition goal_request (subargs : string) : Z * string :=
  let '(budget, remaining) := take_budget (budgetRegex subargs) 0 subargs in
  let '(budget, remaining) := take_budget (spendRegex remaining) budget remaining in
  (budget, TrimSpace remaining).

Definition newline : string := String (byte 10) "".
Definition start_goal (sid subargs : string) : M string :=
  let '(budget, objective) := goal_request subargs in
  if bool_decide (objective = "") then
    mret ("Usage: /goal start <objective> [+<budget>]" +:+ newline +:+ "Example: /goal start fix auth bug +500k")
  else
    existing ← in_goals (gc_GetGoal sid);
    match existing with
    | Ok existing => mret ("A goal already exists: " +:+ quote +:+ sg_Objective existing +:+ quote +:+ newline +:+ "Clear it with /goal clear first.")
    | Fail _ =>
        total ← total_tokens;
        goal ← in_goals (gc_CreateGoal sid objective budget total);
        mret (match goal with
              | Fail e => "Error: " +:+ e
              | Ok goal => "Goal created: " +:+ quote +:+ sg_Objective goal +:+ quote +:+
                           (if 0 <? budget then " with budget " +:+ Itoa budget else " (no budget limit)")
              end)
    end.

(** A goal that is there gets a new status. *)
Definition change_goal (sid absent : string) (check : SessionGoal → option string) (status : GoalStatus) (note done_text : string) : M string :=
  goal ← in_goals (gc_GetGoal sid);
  match goal with
  | Fail _ => mret absent
  | Ok goal =>
      match check goal with
      | Some msg => mret msg
      | None =>
          r ← in_goals (gc_UpdateStatus now sid status note);
          mret (match r with Fail e => "Error: " +:+ e | Ok _ => done_text end)
      end
  end.

Definition goal_status (g : SessionGoal) : string :=
  "Goal Status: " +:+ ToDisplayName (sg_Status g) +:+ newline +:+
  "Objective: " +:+ sg_Objective g +:+ newline +:+
  "Tokens Used: " +:+ Itoa (sg_TokensUsed g) +:+
  (if 0 <? sg_TokenBudget g
   then newline +:+ "Budget: " +:+ Itoa (sg_TokenBudget g) +:+ " (Remaining: " +:+ Itoa (RemainingBudget g) +:+ ")" else "") +:+
  (if bool_decide (sg_StatusNote g = "") then "" else newline +:+ "Note: " +:+ sg_StatusNote g) +:+
  newline +:+ "Continuations: " +:+ Itoa (sg_ContinuationCount g) +:+ "/10".

Definition split_word (s : string) : string * option string :=
  match Index s " " with Some idx => (slice_to s idx, Some (slice_from s (S idx))) | None => (s, None) end.

Definition handleGoalCommand (args : string) : M string :=
  if negb has_goals then mret "Goal system is not available. Start the gateway with goal support enabled."
  else
    let trimmedArgs := of_bytes (trim_left_set [byte 32] (to_bytes args)) in
    let '(subcommand, subargs) :=
      if bool_decide (trimmedArgs = "") then ("status", "")
      else let '(w, rest) := split_word trimmedArgs in (ToLower lower_rune w, from_option TrimSpace "" rest) in
    sid ← gets (λ s, Id (session s));
    if bool_decide (subcommand ∈ ["start"; "set"; "create"]) then start_goal sid subargs
    else if bool_decide (subcommand = "pause") then
      change_goal sid "No active goal to pause." (λ _, None) GoalStatus_Paused subargs "Goal paused. Resume with /goal resume."
    else if bool_decide (subcommand = "resume") then
      change_goal sid "No goal to resume."
        (λ g, if IsPursuable (sg_Status g) then Some "Goal is already active."
              else if IsTerminal (sg_Status g) then Some "Cannot resume a completed goal. Start a new one with /goal start." else None)
        GoalStatus_Active subargs "Goal resumed."
    else if bool_decide (subcommand ∈ ["complete"; "done"]) then
      change_goal sid "No active goal." (λ _, None) GoalStatus_Complete subargs "Goal marked as complete!"
    else if bool_decide (subcommand ∈ ["block"; "blocked"]) then
      change_goal sid "No active goal." (λ _, None) GoalStatus_Blocked subargs "Goal marked as blocked. Resume with /goal resume."
    else if bool_decide (subcommand = "clear") then (_ ← in_goals (gc_ClearGoal now sid); mret "Goal cleared.")
    else
      goal ← in_goals (gc_GetGoal sid);
      mret (match goal with
            | Fail _ => "No active goal. Use /goal start <objective> to create one."
            | Ok goal => goal_status goal
            end).

(** ** Commands *)

Definition set_model (m : string) (s : ChatSession Turn) : ChatSession Turn :=
  mkChat (Id s) (History s) m (ReasoningEffort s) (VerboseMode s) (ResponseMode s).
Definition set_effort (e : string) (s : ChatSession Turn) : ChatSession Turn :=
  mkChat (Id s) (History s) (ModelOverride s) e (VerboseMode s) (ResponseMode s).
Definition set_verbose (v : bool) (s : ChatSession Turn) : ChatSession Turn :=
  mkChat (Id s) (History s) (ModelOverride s) (ReasoningEffort s) v (ResponseMode s).
Definition set_response (r : string) (s : ChatSession Turn) : ChatSession Turn :=
  mkChat (Id s) (History s) (ModelOverride s) (ReasoningEffort s) (VerboseMode s) r.
Definition set_history (h : list Turn) (s : ChatSession Turn) : ChatSession Turn :=
  mkChat (Id s) h (ModelOverride s) (ReasoningEffort s) (VerboseMode s) (ResponseMode s).

Definition or_default (value fallback : string) : string := if IsBlank value then fallback else value.
Definition nl (ws : list string) : string := JoinStrings ws newline.

Definition status_command : M outcome :=
  s ← gets session;
  cache ← getCacheTotals;
  c ← read_tokens;
  mret (reply (nl ["Session info:"; "- Active Model: " +:+ or_default (ModelOverride s) "default";
    "- Turn Count: " +:+ Itoa (Z.of_nat (length (History s)));
    "- Token Usage: " +:+ Itoa (totalInput c) +:+ " in / " +:+ Itoa (totalOutput c) +:+ " out";
    "- Prompt Cache: " +:+ Itoa (fst cache) +:+ " read / " +:+ Itoa (snd cache) +:+ " write"])).

Definition reset_command : M outcome :=
  _ ← set_session (set_history []);
  _ ← write_tokens (λ c, mkTokens 0 (totalOutput c) (totalCacheRead c) (totalCacheWrite c));
  _ ← write_tokens (λ c, mkTokens (totalInput c) 0 (totalCacheRead c) (totalCacheWrite c));
  _ ← (if has_goals then sid ← gets (λ s, Id (session s)); _ ← in_goals (gc_ClearGoal now sid); mret tt else mret tt : M ());
  persist_then "Session history has been reset. Starting fresh!".

Definition model_command (args : string) : M outcome :=
  if bool_decide (args = "") then
    s ← gets session;
    mret (reply (nl ["Current model override: " +:+ or_default (ModelOverride s) "none (using default)";
                     "Usage: /model <model-name> or /model reset"]))
  else if EqualFold args "reset" || EqualFold args "clear"
  then (_ ← set_session (set_model ""); persist_then "Model override cleared. Back to default.")
  else (_ ← set_session (set_model args); persist_then ("Model override set to: " +:+ args)).

Definition usage_command : M outcome :=
  cache ← getCacheTotals;
  c ← read_tokens;
  total ← total_tokens;
  mret (reply (nl ["Total Token Usage in this session:"; "- Input: " +:+ Itoa (totalInput c); "- Output: " +:+ Itoa (totalOutput c);
    "- Sum: " +:+ Itoa total; "- Prompt Cache Read: " +:+ Itoa (fst cache); "- Prompt Cache Write: " +:+ Itoa (snd cache)])).

Definition think_command (args : string) : M outcome :=
  if bool_decide (args = "") then
    s ← gets session;
    mret (reply (nl ["Current reasoning effort: " +:+ or_default (ReasoningEffort s) "default"; "Usage: /think off|low|medium|high"]))
  else
    let level := ToLower lower_rune args in
    if bool_decide (level ∈ ["off"; "low"; "medium"; "high"]) then
      _ ← set_session (set_effort (if bool_decide (level = "off") then "" else level));
      persist_then (if bool_decide (level = "off") then "Extended thinking disabled." else "Reasoning effort set to: " +:+ level)
    else mret (reply "Invalid level. Use: /think off|low|medium|high").

Definition compact_command : M outcome :=
  s ← gets session;
  if (length (History s) <=? 2)%nat then mret (reply "Nothing to compact — session has 2 or fewer turns.")
  else match compactCallback with
  | Some compact =>
      r ← with_session compact;
      match r with
      | Fail e => mret (true, "", Some e)
      | Ok remainingTurns =>
          persist_then ("Compacted: " +:+ Itoa (Z.of_nat (length (History s))) +:+ " turns → " +:+ Itoa remainingTurns +:+ " turns remaining.")
      end
  | None =>
      let keepRecent := (10 `min` length (History s))%nat in
      let removeCount := (length (History s) - keepRecent)%nat in
      _ ← set_session (λ s, set_history (drop removeCount (History s)) s);
      persist_then ("Trimmed: " +:+ Itoa (Z.of_nat (length (History s))) +:+ " turns → " +:+ Itoa (Z.of_nat keepRecent) +:+
                    " turns (kept last " +:+ Itoa (Z.of_nat keepRecent) +:+ ").")
  end.

Definition verbose_command (args : string) : M outcome :=
  if bool_decide (args = "") then
    s ← gets session;
    mret (reply (nl ["Verbose mode: " +:+ (if VerboseMode s then "on" else "off"); "Usage: /verbose on|off"]))
  else if EqualFold args "on"
  then (_ ← set_session (set_verbose true); persist_then "Verbose mode enabled. Tool calls and token counts will be shown.")
  else if EqualFold args "off" then (_ ← set_session (set_verbose false); persist_then "Verbose mode disabled.")
  else mret (reply "Usage: /verbose on|off").

Definition concise_command (args : string) : M outcome :=
  if bool_decide (args = "") then
    s ← gets session;
    let currentMode := if bool_decide (ResponseMode s = SessionResponseModesConciseOps) then "on"
                       else if bool_decide (ResponseMode s = SessionResponseModesFull) then "off" else "auto" in
    mret (reply (nl ["Concise mode: " +:+ currentMode; "Usage: /concise on|off|auto"]))
  else if EqualFold args "on"
  then (_ ← set_session (set_response SessionResponseModesConciseOps); persist_then "Concise operational mode enabled.")
  else if EqualFold args "off"
  then (_ ← set_session (set_response SessionResponseModesFull); persist_then "Concise operational mode disabled for this session.")
  else if EqualFold args "auto"
  then (_ ← set_session (set_response SessionResponseModesDefault); persist_then "Concise mode reset to automatic behavior.")
  else mret (reply "Usage: /concise on|off|auto").

Definition help_message : string := nl
  ["Available commands:"; "/status - Show session details"; "/new (or /reset) - Clear conversation history";
   "/model <name> - Override the LLM model for this session"; "/model reset - Clear model override"; "/usage - Show token counts";
   "/think <level> - Set reasoning effort (off/low/medium/high)"; "/compact - Compact conversation history";
   "/concise on|off|auto - Control concise operational responses"; "/verbose on|off - Toggle verbose output";
   "/goal <action> - Manage session goals (start/set/create/pause/resume/complete/done/block/blocked/clear/status)";
   "/goal start <objective> +500k - Start a goal with a token budget";
   "/goal start <objective> spend 1.5m tokens - Start a goal with a budget phrase"; "/help - Show this message"].

Definition loop_command (text : string) : M outcome :=
  match loopCallback with
  | None => mret (reply "Loop scheduling is not available in this configuration.")
  | Some loop =>
      r ← with_session (λ s, loop s text);
      mret (match r with Ok msg => reply msg | Fail e => (true, "", Some e) end)
  end.

Definition dynamic_command (command args : string) : M outcome :=
  match dynamicCommands !! command with
  | None => mret (false, "", None)
  | Some handler =>
      r ← outside (handler args);
      mret (match r with Ok msg => reply msg | Fail e => (true, "", Some e) end)
  end.

(** The command word in lower case, and the rest of the text. *)
Definition command_of (text : string) : string * string :=
  let '(w, rest) := split_word text in (ToLower lower_rune w, from_option TrimSpace "" rest).

Definition run_command (text : string) : M outcome :=
  let '(command, args) := command_of text in
  if bool_decide (command = "/status") then status_command
  else if bool_decide (command ∈ ["/new"; "/reset"]) then reset_command
  else if bool_decide (command = "/model") then model_command args
  else if bool_decide (command = "/usage") then usage_command
  else if bool_decide (command = "/think") then think_command args
  else if bool_decide (command = "/compact") then compact_command
  else if bool_decide (command = "/verbose") then verbose_command args
  else if bool_decide (command = "/concise") then concise_command args
  else if bool_decide (command = "/help") then mret (reply help_message)
  else if bool_decide (command = "/loop") then loop_command text
  else if bool_decide (command = "/goal") then (msg ← handleGoalCommand args; mret (reply msg))
  else dynamic_command command args.

Definition TryProcessCommand (text : string) : M outcome :=
  let text := TrimSpace text in
  if bool_decide (text = "") || negb (HasPrefix text "/") then mret (false, "", None) else run_command text.

(** ** What commands leave alone *)

Definition quiet {A} (m : M A) : Prop := ∀ s a s', m s = Done (a, s') → session s' = session s ∧ saves s' = saves s.

Lemma quiet_ret {A} (a : A) : quiet (mret a).
Proof. by intros s a' s' [= <- <-]. Qed.
Lemma quiet_bind {A B} (m : M A) (f : A → M B) : quiet m → (∀ a, quiet (f a)) → quiet (m ≫= f).
Proof. intros Hm Hf s b s' (a & s1 & [H1 H2]%Hm & [H3 H4]%Hf)%GoM_bind_inv. split; congruence. Qed.
Lemma quiet_gets {A} (f : chat_state Turn G → A) : quiet (gets f).
Proof. by intros s a s' [= <- <-]. Qed.
Lemma quiet_in_goals {A} (m : GoM G A) : quiet (in_goals m).
Proof. intros s a s'. unfold in_goals. destruct (m (goals s)) as [[a' g] | |]; [by intros [= <- <-] | done..]. Qed.
Lemma quiet_outside {A} (m : go A) : quiet (outside m).
Proof. intros s a s'. unfold outside. destruct m; [by intros [= <- <-] | done..]. Qed.
Lemma quiet_read : quiet read_tokens.
Proof. intros s c s'. unfold read_tokens. destruct (tokens s); [by intros [= <- <-] | done]. Qed.
Lemma quiet_write f : quiet (write_tokens f).
Proof. intros s c s'. unfold write_tokens. destruct (tokens s); [by intros [= <- <-] | done]. Qed.
Local Hint Resolve quiet_ret quiet_bind quiet_gets quiet_in_goals quiet_outside quiet_read quiet_write : core.

Lemma quiet_cache : quiet getCacheTotals.
Proof. apply quiet_bind; [done |]. intros c. destruct (_ || _)%bool; auto. Qed.
Lemma quiet_total : quiet total_tokens.
Proof. apply quiet_bind; auto. Qed.
Local Hint Resolve quiet_cache quiet_total : core.

Lemma quiet_change sid absent check status note text : quiet (change_goal sid absent check status note text).
Proof. apply quiet_bind; [done |]. intros [g | e]; [| done]. destruct (check g); auto. Qed.

Lemma quiet_start sid subargs : quiet (start_goal sid subargs).
Proof.
  unfold start_goal. destruct (goal_request subargs) as [budget objective]. case_bool_decide; [done |].
  apply quiet_bind; [done |]. intros [g | e]; [done |]. apply quiet_bind; auto.
Qed.

Lemma quiet_goal args : quiet (handleGoalCommand args).
Proof.
  unfold handleGoalCommand. destruct (negb has_goals); [done |].
  destruct (if bool_decide (_ = "") then _ else _) as [subcommand subargs]. apply quiet_bind; [done |]. intros sid.
  repeat (case_bool_decide; [first [apply quiet_start | apply quiet_change | by apply quiet_bind] |]).
  apply quiet_bind; auto.
Qed.

(** ** What commands do to the session *)

(** The settings the model is called with. *)
Definition valid_settings (s : ChatSession Turn) : Prop :=
  ReasoningEffort s ∈ [""; "low"; "medium"; "high"] ∧
  ResponseMode s ∈ [SessionResponseModesDefault; SessionResponseModesConciseOps; SessionResponseModesFull].

(** The same session with valid settings, saved if it changed and nothing went
    wrong. *)
Definition sound_change (s : chat_state Turn G) (o : outcome) (s' : chat_state Turn G) : Prop :=
  Id (session s') = Id (session s) ∧ History (session s') `suffix_of` History (session s) ∧
  (valid_settings (session s) → valid_settings (session s')) ∧
  (snd o = None → session s' = session s ∨ last (saves s') = Some (session s')).
Definition sound (m : M outcome) : Prop := ∀ s o s', m s = Done (o, s') → sound_change s o s'.

Lemma sound_quiet m : quiet m → sound m.
Proof. intros Hm s o s' [H1 _]%Hm. unfold sound_change. rewrite H1. split_and!; [done | done | done | by left]. Qed.

(** A change of the session, and its save. *)
Lemma sound_saved f msg : (∀ s, Id (f s) = Id s ∧ History (f s) `suffix_of` History s ∧ (valid_settings s → valid_settings (f s))) →
  sound (_ ← set_session f; persist_then msg).
Proof.
  intros Hf s o s' [= <- <-]. destruct (Hf (session s)) as (H1 & H2 & H3). split_and!; [done..| ].
  intros _. right. cbn. by rewrite last_snoc.
Qed.

Lemma sound_bind {A} (m : M A) f : quiet m → (∀ a, sound (f a)) → sound (m ≫= f).
Proof.
  intros Hm Hf s o s' (a & s1 & [H1 H2]%Hm & (H3 & H4 & H5 & H6)%Hf)%GoM_bind_inv.
  unfold sound_change in *. rewrite H1 in *. done.
Qed.

Lemma sound_reset : sound reset_command.
Proof.
  intros s o s' (? & s1 & [= <- <-] & Hrest)%GoM_bind_inv.
  apply GoM_bind_inv in Hrest as (? & s2 & [Ha1 Ha2]%quiet_write & Hrest).
  apply GoM_bind_inv in Hrest as (? & s3 & [Hb1 Hb2]%quiet_write & Hrest).
  apply GoM_bind_inv in Hrest as (? & s4 & Hgoal & Hrest).
  assert (session s4 = session s3) as Hc by (revert Hgoal; destruct has_goals; [intros [? _]%quiet_bind; auto | by intros [= <- <-]]).
  injection Hrest as <- <-. cbn in *. unfold sound_change. cbn. rewrite Hc, Hb1, Ha1. cbn. split_and!; [done | apply suffix_nil | done |].
  intros _. right. by rewrite last_snoc.
Qed.

(** A session of more than two turns after the callback for compacting: it is
    what the callback left, and saved unless that failed. *)
Definition compacted (s : chat_state Turn G) (o : outcome) (s' : chat_state Turn G) : Prop :=
  ∃ compact r, compactCallback = Some compact ∧ (2 < length (History (session s)))%nat ∧ compact (session s) = Done (r, session s') ∧
    match r with
    | Ok _ => saves s' = saves s ++ [session s']
    | Fail e => o = (true, "", Some e) ∧ saves s' = saves s
    end.

Lemma compact_spec s o s' : compact_command s = Done (o, s') → sound_change s o s' ∨ compacted s o s'.
Proof.
  intros (x & s1 & [= <- <-] & Hrest)%GoM_bind_inv.
  destruct (length (History (session s)) <=? 2)%nat eqn:Hlen; [left; by eapply (sound_quiet (mret _)) |].
  destruct compactCallback as [compact |] eqn:Hcompact.
  - right. apply GoM_bind_inv in Hrest as (r & s1 & H1 & H2). unfold with_session in H1.
    destruct (compact (session s)) as [[r' y] | |] eqn:Hc; [| done..]. injection H1 as -> <-.
    exists compact, r. apply Nat.leb_gt in Hlen. by destruct r as [n | e]; injection H2 as <- <-.
  - left. revert Hrest. apply (sound_saved (λ s, set_history (drop _ (History s)) s)). intros x. split_and!; [done | | done].
    eexists (take _ (History x)). cbn. by rewrite take_drop.
Qed.

End Processor.

(** ** Dynamic commands *)

Inductive DynamicCommandRegistrationResult := Registered | ReservedBuiltIn | Duplicate.

Definition BuiltInCommands : list string :=
  ["/status"; "/new"; "/reset"; "/model"; "/usage"; "/think"; "/compact"; "/concise"; "/verbose"; "/goal"; "/loop"; "/help"].

(** The key of a command, to which the slash is added. *)
Definition dynamic_key (command : string) : string := if HasPrefix command "/" then command else "/" +:+ command.

Definition RegisterDynamic {H} (command : string) (handler : H) (dynamicCommands : gmap string H) :
    DynamicCommandRegistrationResult * gmap string H :=
  let key := dynamic_key command in
  if bool_decide (key ∈ BuiltInCommands) then (ReservedBuiltIn, dynamicCommands)
  else match dynamicCommands !! key with
       | Some _ => (Duplicate, dynamicCommands)
       | None => (Registered, <[key := handler]> dynamicCommands)
       end.

(** ** Which dynamic commands can be reached *)

Lemma dynamic_key_slash command : HasPrefix (dynamic_key command) "/" = true.
Proof. unfold dynamic_key. destruct (HasPrefix command "/") eqn:H; [done |]. by apply has_prefix_spec; eexists. Qed.

Lemma first_word text : byte 32 ∉ to_bytes (split_word text).1.
Proof.
  unfold split_word, Index. change (to_bytes " ") with [byte 32]. destruct (index_bytes [byte 32] (to_bytes text)) as [n |] eqn:Hn; cbn [fst].
  - apply index_bytes_Some in Hn as [_ Hmin]. unfold slice_to. rewrite to_bytes_of_bytes. intros (k & w & Hk)%list_elem_of_split.
    assert (n ≤ length k)%nat.
    { apply (Hmin k (w ++ drop n (to_bytes text))). rewrite <- (take_drop n (to_bytes text)) at 1. rewrite Hk. by rewrite <- app_assoc. }
    apply (f_equal length) in Hk. rewrite length_take, length_app in Hk. simpl in Hk. lia.
  - intros (k & w & Hk)%list_elem_of_split. by apply (index_bytes_None _ _ Hn k w).
Qed.

Lemma split_at_space w rest : byte 32 ∉ w → split_word (of_bytes (w ++ byte 32 :: rest)) = (of_bytes w, Some (of_bytes rest)).
Proof.
  intros Hw. unfold split_word, Index, slice_to, slice_from. rewrite to_bytes_of_bytes. change (to_bytes " ") with [byte 32].
  assert (index_bytes [byte 32] (w ++ byte 32 :: rest) = Some (length w)) as ->.
  { destruct (index_bytes [byte 32] (w ++ byte 32 :: rest)) as [n |] eqn:Hn; [| by destruct (index_bytes_None _ _ Hn w rest)].
    apply index_bytes_Some in Hn as [Heq Hmin]. specialize (Hmin w rest eq_refl). f_equal.
    destruct (decide (n = length w)) as [| Hne]; [done |]. exfalso. apply Hw.
    assert ((w ++ byte 32 :: rest) !! n = Some (byte 32)) as Hat.
    { rewrite Heq. rewrite lookup_app_r by (rewrite length_take; lia). rewrite length_take, length_app.
      by replace (n - _)%nat with 0%nat by lia. }
    rewrite lookup_app_l in Hat by lia. by eapply list_elem_of_lookup_2. }
  by rewrite take_app_length, drop_app_ge, Nat.sub_succ_l, Nat.sub_diag by lia.
Qed.

Definition reachable_key (key : string) : Prop := Forall (λ c, ¬ (65 ≤ code c ≤ 90)%N ∧ c ≠ byte 32) (to_bytes key).

Lemma lower_not_upper c : ¬ (65 ≤ code (lower c) ≤ 90)%N ∧ (lower c = byte 32 → c = byte 32) ∧ (code c < 128 → code (lower c) < 128)%N.
Proof.
  assert ((negb ((65 <=? code (lower c)) && (code (lower c) <=? 90))%N && (negb (bool_decide (lower c = byte 32)) || bool_decide (c = byte 32)) &&
    (negb (code c <? 128) || (code (lower c) <? 128))%N) = true) as Hall by by destruct c as [[] [] [] [] [] [] [] []].
  rewrite !andb_true_iff, !orb_true_iff, !negb_true_iff, andb_false_iff, !N.leb_gt, N.ltb_ge, N.ltb_lt, bool_decide_eq_false, bool_decide_eq_true in Hall.
  destruct Hall as [[H1 H2] H3]. split; [lia |]. split; [intros; tauto | lia].
Qed.

(** What lower-casing can give: no upper-case letter, and no space that was not
    there.  Other runes are never lowered to such bytes. *)
Lemma lowered_bytes lower_rune w c :
  (∀ r, (128 ≤ r)%N → lower_rune r ≠ 32%N ∧ ¬ (65 ≤ lower_rune r ≤ 90)%N) →
  byte 32 ∉ to_bytes w → c ∈ to_bytes (ToLower lower_rune w) → ¬ (65 ≤ code c ≤ 90)%N ∧ c ≠ byte 32.
Proof.
  intros Htable Hw. unfold ToLower. destruct (forallb _ (to_bytes w)) eqn:Ha.
  - rewrite to_bytes_of_bytes. intros (d & -> & Hd)%list_elem_of_fmap. destruct (lower_not_upper d) as (H1 & H2 & _).
    split; [done |]. intros H32. apply Hw. by rewrite <- (H2 H32).
  - unfold of_runes. rewrite to_bytes_of_bytes, map_map. rewrite list_elem_of_In, in_concat.
    intros (e & He & Hc). apply in_map_iff in He as (r & <- & Hr).
    apply list_elem_of_In in Hr, Hc. set (x := if (r <? 128)%N then _ else _) in *.
    assert ((x < 128 → x ≠ 32 ∧ ¬ (65 ≤ x ≤ 90)))%N as Hx.
    { subst x. intros Hx. destruct (N.ltb_spec r 128) as [Hr' | Hr']; [| by apply Htable].
      destruct (lower_not_upper (byte r)) as (H1 & H2 & _). split; [| done]. intros H32. apply Hw.
      rewrite <- H2; [by apply ascii_runes |]. by rewrite <- (ascii_N_embedding (lower (byte r))), <- H32. }
    destruct (decide (x < 128)%N) as [Hlt | Hge].
    + destruct (Hx Hlt) as [H1 H2]. unfold encode_rune in Hc. rewrite (proj2 (N.ltb_lt _ _)) in Hc by done.
      apply list_elem_of_singleton in Hc as ->. rewrite code_byte by lia. split; [done |].
      intros H32. apply H1. apply (f_equal code) in H32. by rewrite code_byte in H32 by lia.
    + assert (128 ≤ code c)%N as Hc128 by (eapply encode_high; [| done]; lia).
      split; [lia |]. intros ->. by vm_compute in Hc128.
Qed.

(** A command a plug-in registers can be called exactly if its name has no
    upper-case letter and no space; the registration accepts it either way,
    but not the name of a built-in command. *)
Theorem dynamic_commands_must_be_lower_case {H} lower_rune command (handler : H) commands commands' :
  (∀ r, (128 ≤ r)%N → lower_rune r ≠ 32%N ∧ ¬ (65 ≤ lower_rune r ≤ 90)%N) →
  RegisterDynamic command handler commands = (Registered, commands') →
  let key := dynamic_key command in
  Forall (λ c, (code c < 128)%N) (to_bytes key) →
  key ∉ BuiltInCommands ∧ commands' !! key = Some handler ∧
  ((∃ text, HasPrefix (TrimSpace text) "/" = true ∧ (command_of lower_rune (TrimSpace text)).1 = key) ↔ reachable_key key).
Proof.
  intros Htable Hreg key Hascii. unfold RegisterDynamic in Hreg. fold key in Hreg. case_bool_decide as Hbuilt; [done |].
  destruct (commands !! key); [done |]. injection Hreg as <-. split; [done |]. split; [by rewrite lookup_insert_eq |]. split.
  - intros (text & _ & Hkey). unfold command_of in Hkey. destruct (split_word (TrimSpace text)) as [w rest] eqn:Hw. cbn in Hkey.
    pose proof (first_word (TrimSpace text)) as Hsp. rewrite Hw in Hsp. cbn in Hsp.
    apply Forall_forall. intros c Hc. rewrite <- Hkey in Hc. by eapply lowered_bytes.
  - intros Hreach. unfold reachable_key in Hreach. rewrite Forall_forall in Hreach.
    pose proof (dynamic_key_slash command) as Hslash. fold key in Hslash. apply has_prefix_spec in Hslash as [tail Htail].
    set (text := to_bytes key ++ [byte 32; byte 120]).
    assert (TrimSpace (of_bytes text) = of_bytes text) as Htrim.
    { unfold TrimSpace. rewrite to_bytes_of_bytes. f_equal. subst text. rewrite Htail. cbn [app to_bytes].
      apply (trim_outside _ (byte 120)); [| by apply (bool_decide_unpack _); vm_compute ..].
      rewrite app_comm_cons. change [byte 32; byte 120] with ([byte 32] ++ [byte 120]). rewrite app_assoc. apply last_snoc. }
    exists (of_bytes text). rewrite Htrim. split.
    + apply has_prefix_spec. rewrite to_bytes_of_bytes. subst text. rewrite Htail. by eexists.
    + unfold command_of. subst text. rewrite split_at_space by (intros Hin; by destruct (Hreach _ Hin)). cbn [fst].
      rewrite of_bytes_to_bytes. unfold ToLower. rewrite (proj2 (forallb_forall _ _)).
      * rewrite <- (of_bytes_to_bytes key) at 2. f_equal. rewrite <- (map_id (to_bytes key)) at 2. apply map_ext_in.
        intros c Hc%list_elem_of_In. destruct (Hreach c Hc) as [Hup _]. clear -Hup. unfold lower, id.
        destruct (N.leb_spec 65 (code c)), (N.leb_spec (code c) 90); [lia | done..].
      * intros c Hc%list_elem_of_In. rewrite Forall_forall in Hascii. by apply N.ltb_lt, Hascii.
Qed.

(** ** Examples *)

Definition InMemoryGoalCommands (append_error : list GoalHistoryRecord → GoalHistoryRecord → option string) : IGoalCommands GoalService := {|
  gc_GetGoal := GetGoal; gc_CreateGoal := CreateGoal; gc_UpdateStatus := UpdateStatus append_error; gc_ClearGoal := ClearGoal append_error |}.

(** Whole numbers, and one and a half. *)
Definition sample_float (s : string) : option float64 :=
  if bool_decide (s = "1.5") then Some (S754_finite false (3 * 2^51) (-52))
  else match Atoi s with Some (Zpos n) => Some (f_integer n) | Some Z0 => Some f_zero | _ => None end.

Example budgets_are_read :
  goal_request id sample_float 0 "fix auth bug +500k" = (500000, "fix auth bug") ∧
  goal_request id sample_float 0 "ship 2+2 Spend 1.5M tokens " = (1500000, "ship 2+2") ∧
  goal_request id sample_float 0 "count to +3 or so" = (0, "count to +3 or so") ∧
  goal_request id sample_float 0 "tidy spend 2k token +7" = (2000, "tidy").
Proof. by vm_compute. Qed.

Definition sample_session : ChatSession nat := mkChat "s" [1; 2; 3]%nat "" "" false "default".
Definition sample_process (tokens : option counters) (text : string) : go (outcome * chat_state nat GoalService) :=
  @TryProcessCommand nat GoalService (InMemoryGoalCommands (λ _ _, None)) id sample_float 0 (λ _, None) 7 true None None None ∅ text
    (mkState sample_session tokens (NewInMemoryGoalService "") []).

(** The sessions the manager makes have no counters: resetting one panics, after
    its history is gone and before anything is saved. *)
Example managed_sessions_cannot_be_reset :
  sample_process None "/new" = Panic ∧ sample_process None "/status" = Panic ∧ sample_process None "/usage" = Panic ∧
  ∃ s, sample_process (Some (mkTokens 5 5 0 0)) "/new" = Done (reply "Session history has been reset. Starting fresh!", s) ∧ History (session s) = [].
Proof. split_and!; [by vm_compute .. |]. eexists. by vm_compute. Qed.


Lemma dynamic_commands_must_be_lower_case_witness :
  RegisterDynamic "Deploy" tt ∅ = (Registered, {["/Deploy" := tt]}) ∧
  ¬ ∃ text, HasPrefix (TrimSpace text) "/" = true ∧ (command_of id (TrimSpace text)).1 = "/Deploy".
Proof.
  split; [by vm_compute |]. intros Hreach.
  destruct (dynamic_commands_must_be_lower_case id "Deploy" tt ∅ {["/Deploy" := tt]}) as (_ & _ & Hiff).
  - intros r Hr. unfold id. lia.
  - by vm_compute.
  - by repeat constructor.
  - apply Hiff in Hreach. revert Hreach. unfold reachable_key. rewrite Forall_forall. intros Hreach.
    destruct (Hreach (byte 68)) as [Hup _]; [by apply (bool_decide_unpack _); vm_compute | by apply Hup].
Defined.
