(* ===== verification/Security.v ===== *)
(** Glob policies, secrets and input checks: [openclaw/core/security.go].

    Modelled: [GlobMatcher], [AllowlistPolicy], [SecretResolver] and the input
    checks; [PairingManager] of the same file is in [Pairing.v].  The redaction
    pipeline (regular expressions), the URL checks ([net/netip], DNS) and the
    allow-list files are not modelled. *)

From S2P Require Import Prelude GoStrings.
Local Open Scope string_scope.
Local Open Scope Z_scope.

(** ** Globs *)

Definition star : ascii := byte 42.

(** [strings.HasSuffix] on bytes. *)
Definition has_suffix (p l : bytes) : bool := has_prefix (rev p) (rev l).

(** The loop of [IsMatch]: [value] is [value[valueIndex:]].  Every round but the
    last removes a star from [remaining]; the loop ends when it is empty. *)
Fixpoint glob_loop (fuel : nat) (remaining value : bytes) (isFirst : bool) : bool :=
  match fuel with
  | O => true
  | S fuel =>
      match remaining with
      | [] => true
      | _ =>
          match index_bytes [star] remaining with
          | None => has_suffix remaining value
          | Some starPos =>
              let segment := take starPos remaining in
              let remaining := drop (S starPos) remaining in
              match segment with
              | [] => glob_loop fuel remaining value false
              | _ =>
                  if isFirst then
                    if has_prefix segment value
                    then glob_loop fuel remaining (drop (length segment) value) false
                    else false
                  else
                    match index_bytes segment value with
                    | None => false
                    | Some found => glob_loop fuel remaining (drop (found + length segment) value) false
                    end
              end
          end
      end
  end.

Definition IsMatch (pattern value : string) : bool :=
  if decide (pattern = "*") then true
  else if decide (pattern = "") then bool_decide (value = "")
  else if negb (bool_decide (star ∈ to_bytes pattern)) then bool_decide (pattern = value)
  else glob_loop (String.length pattern) (to_bytes pattern) (to_bytes value) true.

Definition glob_hit (value glob : string) : bool := negb (IsBlank glob) && IsMatch (TrimSpace glob) value.

Definition IsAllowed (allowGlobs denyGlobs : list string) (value : string) : bool :=
  if existsb (glob_hit value) denyGlobs then false
  else if decide (length allowGlobs = 0%nat) then false
  else existsb (glob_hit value) allowGlobs.

(** ** Allow lists *)

Inductive AllowlistSemantics := AllowlistSemantics_Legacy | AllowlistSemantics_Strict.
#[export] Instance AllowlistSemantics_eq_dec : EqDecision AllowlistSemantics.
Proof. solve_decision. Defined.

Definition ParseSemantics (value : string) : AllowlistSemantics :=
  if decide (value = "strict") then AllowlistSemantics_Strict else AllowlistSemantics_Legacy.

(** The loop body of [AllowlistPolicy.IsAllowed]. *)
Definition allowlist_entry (value entry : string) : bool :=
  if IsBlank entry then false
  else let pat := TrimSpace entry in bool_decide (pat = "*") || IsMatch pat value.

Definition AllowlistPolicy_IsAllowed (allowlist : list string) (value : string) (semantics : AllowlistSemantics) : bool :=
  if decide (length allowlist = 0%nat) then bool_decide (semantics = AllowlistSemantics_Legacy)
  else existsb (allowlist_entry value) allowlist.

(** ** Secrets and input checks *)

Section Secrets.
(** The process environment. *)
Variable Getenv : string → string.

Definition IsRawRef (secretRef : string) : bool := negb (IsBlank secretRef) && HasPrefix secretRef "raw:".

Definition Resolve (secretRef : string) : string :=
  if IsBlank secretRef then ""
  else if HasPrefix secretRef "env:" then Getenv (of_bytes (drop 4 (to_bytes secretRef)))
  else if HasPrefix secretRef "raw:" then of_bytes (drop 4 (to_bytes secretRef))
  else let envValue := Getenv secretRef in
       if negb (IsBlank envValue) then envValue else secretRef.
End Secrets.

Definition LooksLikeEnvVarName (value : string) : bool :=
  if (String.length value <? 3)%nat then false
  else forallb (λ c, ((65 <=? c) && (c <=? 90) || (48 <=? c) && (c <=? 57) || (c =? 95))%N) (runes value).

Definition CheckMemoryKey (key : string) : res () :=
  if Contains key ".." || Contains key "/" || Contains key (String (byte 92) "") || Contains key (String (byte 0) "")
  then Fail "error: Key contains disallowed characters (path separators, '..' or null bytes)"
  else Ok tt.

Definition StripCrlf (value : string) : string :=
  of_bytes (filter (λ c, c ≠ byte 13 ∧ c ≠ byte 10) (to_bytes value)).

(** ** Specification of globs: [*] stands for any bytes, everything else for
    itself. *)
Inductive glob : bytes → bytes → Prop :=
  | glob_nil : glob [] []
  | glob_star p k v : glob p v → glob (star :: p) (k ++ v)
  | glob_char c p v : c ≠ star → glob p v → glob (c :: p) (c :: v).

(** ** Lemmas on globs *)

Lemma glob_star_inv p v : glob (star :: p) v ↔ ∃ k w, v = (k ++ w)%list ∧ glob p w.
Proof.
  split.
  - inversion 1; subst; [by eauto | done].
  - intros (k & w & -> & Hw). by constructor.
Qed.

Lemma glob_star_skip p k w : glob (star :: p) w → glob (star :: p) (k ++ w).
Proof.
  rewrite !glob_star_inv. intros (k' & w' & -> & Hw). exists (k ++ k')%list, w'.
  by rewrite <- app_assoc.
Qed.

Lemma glob_literal seg p v : (star ∉ seg) → glob (seg ++ p) v ↔ ∃ w, v = (seg ++ w)%list ∧ glob p w.
Proof.
  revert v. induction seg as [| c seg IH]; intros v Hs; simpl; [naive_solver |].
  apply not_elem_of_cons in Hs as [Hc Hs]. split.
  - inversion 1 as [| | c' p' v' _ Hg]; subst; [done |].
    apply (IH v' Hs) in Hg as (w & -> & Hw). by exists w.
  - intros (w & -> & Hw). constructor; [done |]. apply IH; [done |]. by exists w.
Qed.

Lemma glob_plain seg v : (star ∉ seg) → glob seg v ↔ v = seg.
Proof.
  intros Hs. rewrite <- (app_nil_r seg) at 1. rewrite glob_literal by done. split.
  - intros (w & -> & Hw). inversion Hw. by rewrite app_nil_r.
  - intros ->. exists []. rewrite app_nil_r. by split; [| constructor].
Qed.

Lemma has_suffix_spec p l : has_suffix p l = true ↔ ∃ k, l = (k ++ p)%list.
Proof.
  unfold has_suffix. rewrite has_prefix_spec. split.
  - intros [k Hk]. exists (rev k). by rewrite <- (rev_involutive l), Hk, rev_app_distr, rev_involutive.
  - intros [k ->]. exists (rev k). by rewrite rev_app_distr.
Qed.

(** The first star of a pattern. *)
Lemma index_star p n : index_bytes [star] p = Some n →
  p = (take n p ++ star :: drop (S n) p)%list ∧ (star ∉ take n p) ∧ (n < length p)%nat.
Proof.
  intros (H1 & H2)%index_bytes_Some. change (length [star]) with 1%nat in H1. rewrite Nat.add_1_r in H1.
  split; [exact H1 |]. split.
  - intros (k & w & Hk)%list_elem_of_split. specialize (H2 k (w ++ star :: drop (S n) p)%list).
    rewrite H1 in H2 at 1. rewrite Hk in H2. rewrite <- app_assoc in H2. specialize (H2 eq_refl).
    pose proof (firstn_le_length n p) as Hlen. rewrite Hk, length_app in Hlen. simpl in Hlen. lia.
  - destruct (decide (n < length p)%nat) as [| Hge]; [done |].
    apply (f_equal length) in H1. rewrite length_app, length_take in H1. simpl in H1. lia.
Qed.

Lemma index_star_None p : index_bytes [star] p = None → star ∉ p.
Proof. intros H (k & w & Hk)%list_elem_of_split. by apply (index_bytes_None _ _ H k w). Qed.

(** After a star: leftmost matches of the segments are enough, because a later
    star absorbs what lies between. *)
Lemma glob_loop_rest fuel : ∀ rest value, (length rest ≤ fuel)%nat →
  glob_loop fuel rest value false = true ↔ glob (star :: rest) value.
Proof.
  induction fuel as [| fuel IH]; intros rest value Hfuel.
  { destruct rest; [| simpl in Hfuel; lia]. simpl. split; [| done]. intros _.
    rewrite <- (app_nil_r value). constructor. constructor. }
  destruct rest as [| c rest'] eqn:Hrest.
  { simpl. split; [| done]. intros _. rewrite <- (app_nil_r value). constructor. constructor. }
  rewrite <- Hrest in *. assert (rest ≠ []) as Hne by (by rewrite Hrest). clear c rest' Hrest.
  assert (glob_loop (S fuel) rest value false =
    match index_bytes [star] rest with
    | None => has_suffix rest value
    | Some n => match take n rest with
                | [] => glob_loop fuel (drop (S n) rest) value false
                | _ => match index_bytes (take n rest) value with
                       | None => false
                       | Some found => glob_loop fuel (drop (S n) rest) (drop (found + length (take n rest)) value) false
                       end
                end
    end) as -> by (by destruct rest).
  destruct (index_bytes [star] rest) as [n |] eqn:Hn.
  - apply index_star in Hn as (Hsplit & Hseg & Hlt). set (seg := take n rest) in *. set (tl := drop (S n) rest) in *.
    assert (length tl ≤ fuel)%nat as Htl by (unfold tl; rewrite length_drop; lia).
    assert (glob (star :: rest) value ↔ ∃ k w, value = (k ++ seg ++ w)%list ∧ glob (star :: tl) w) as ->.
    { rewrite glob_star_inv. split.
      - intros (k & v & -> & Hv). rewrite Hsplit in Hv. apply (glob_literal seg) in Hv as (w & -> & Hw); [| done]. eauto.
      - intros (k & w & -> & Hw). exists k, (seg ++ w)%list. split; [done |].
        rewrite Hsplit. apply glob_literal; eauto. }
    destruct seg as [| c seg'] eqn:Heq.
    + rewrite (IH tl value Htl). split; [intros H; by exists [], value |].
      intros (k & w & -> & Hw). by apply glob_star_skip.
    + rewrite <- Heq in *. clear c seg' Heq.
      destruct (index_bytes seg value) as [m |] eqn:Hm.
      * apply index_bytes_Some in Hm as (Hv & Hmin). rewrite (IH tl _ Htl). split.
        -- intros H. by exists (take m value), (drop (m + length seg) value).
        -- intros (k & w & Hk & Hw). specialize (Hmin k w Hk).
           assert (drop (m + length seg) value = drop (m + length seg) (k ++ seg) ++ w)%list as ->.
           { rewrite Hk, app_assoc, drop_app_le; [done |]. rewrite length_app. lia. }
           by apply glob_star_skip.
      * split; [done |]. intros (k & w & Hk & _). by apply (index_bytes_None _ _ Hm k w) in Hk.
  - apply index_star_None in Hn. rewrite has_suffix_spec, glob_star_inv. split.
    + intros [k ->]. exists k, rest. split; [done |]. by apply glob_plain.
    + intros (k & w & -> & Hw%glob_plain); [| done]. subst. by exists k.
Qed.

Lemma IsMatch_glob pattern value :
  IsMatch pattern value = true ↔ glob (to_bytes pattern) (to_bytes value).
Proof.
  unfold IsMatch. case_decide as Hs.
  { subst. split; [| done]. intros _. rewrite <- (app_nil_r (to_bytes value)). constructor. constructor. }
  case_decide as He.
  { subst. rewrite bool_decide_eq_true. simpl. split; [intros ->; constructor |].
    intros H. inversion H as [Hv | |]. by destruct value. }
  case_bool_decide as Hstar; simpl.
  2: { rewrite bool_decide_eq_true, glob_plain by done. split; [by intros -> |].
       intros H. by rewrite <- (of_bytes_to_bytes pattern), <- (of_bytes_to_bytes value), H. }
  rewrite <- to_bytes_length. generalize (to_bytes value). intros v. clear Hs He.
  generalize dependent (to_bytes pattern). intros p Hstar.
  destruct p as [| c p'] eqn:Hp; [by apply elem_of_nil in Hstar |].
  rewrite <- Hp in *. assert (length p = S (length p')) as Hlen by (by rewrite Hp). rewrite Hlen.
  assert (glob_loop (S (length p')) p v true =
    match index_bytes [star] p with
    | None => has_suffix p v
    | Some n => match take n p with
                | [] => glob_loop (length p') (drop (S n) p) v false
                | _ => if has_prefix (take n p) v
                       then glob_loop (length p') (drop (S n) p) (drop (length (take n p)) v) false else false
                end
    end) as -> by (by rewrite Hp).
  destruct (index_bytes [star] p) as [n |] eqn:Hn.
  2: { by apply index_star_None in Hn. }
  apply index_star in Hn as (Hsplit & Hseg & Hlt). set (seg := take n p) in *. set (tl := drop (S n) p) in *.
  assert (length tl ≤ length p')%nat as Htl by (unfold tl; rewrite length_drop; lia).
  rewrite Hsplit, glob_literal by done. destruct seg as [| d seg'] eqn:Heq.
  - rewrite glob_loop_rest by done. split; [eauto |]. by intros (w & -> & Hw).
  - rewrite <- Heq in *. clear d seg' Heq. destruct (has_prefix seg v) eqn:Hpre.
    + apply has_prefix_spec in Hpre as [w ->]. rewrite drop_app_length, glob_loop_rest by done. split; [eauto |].
      intros (w' & Hw' & Hg). by apply app_inv_head in Hw' as ->.
    + split; [done |]. intros (w & -> & _).
      assert (has_prefix seg (seg ++ w) = true); [| congruence]. apply has_prefix_spec. by exists w.
Qed.

(** A policy entry applies to a value. *)
Definition applies (entry value : string) : Prop :=
  IsBlank entry = false ∧ glob (to_bytes (TrimSpace entry)) (to_bytes value).

Lemma glob_hit_applies value entry : glob_hit value entry = true ↔ applies entry value.
Proof. unfold glob_hit, applies. by rewrite andb_true_iff, negb_true_iff, IsMatch_glob. Qed.

Lemma existsb_applies value l : existsb (glob_hit value) l = true ↔ ∃ e, e ∈ l ∧ applies e value.
Proof.
  rewrite existsb_exists. split; intros (e & He & Hh).
  - exists e. by rewrite list_elem_of_In, <- glob_hit_applies.
  - exists e. by rewrite <- list_elem_of_In, glob_hit_applies.
Qed.

(** An allow-list entry of a single star allows everything, as its glob does. *)
Lemma allowlist_entry_applies value entry : allowlist_entry value entry = true ↔ applies entry value.
Proof.
  unfold allowlist_entry, applies. destruct (IsBlank entry); [naive_solver |].
  rewrite orb_true_iff, bool_decide_eq_true, IsMatch_glob. split; [| tauto].
  intros [-> | H]; [| done]. split; [done |].
  rewrite <- (app_nil_r (to_bytes value)). constructor. constructor.
Qed.

(** ** Properties *)

(** C34: the matcher's single pass with leftmost segments decides the declarative
    glob language; a policy allows a value exactly when no deny entry applies
    to it and some allow entry does; an empty allow list allows everything
    under the legacy semantics and nothing under the strict one. *)
Theorem glob_policy_correct :
  (∀ pattern value, IsMatch pattern value = true ↔ glob (to_bytes pattern) (to_bytes value)) ∧
  (∀ allow deny value, IsAllowed allow deny value = true ↔
     (∀ e, e ∈ deny → ¬ applies e value) ∧ ∃ e, e ∈ allow ∧ applies e value) ∧
  (∀ allowlist value semantics, AllowlistPolicy_IsAllowed allowlist value semantics = true ↔
     allowlist = [] ∧ semantics = AllowlistSemantics_Legacy ∨ ∃ e, e ∈ allowlist ∧ applies e value).
Proof.
  split; [exact IsMatch_glob |]. split.
  - intros allow deny value. unfold IsAllowed.
    destruct (existsb (glob_hit value) deny) eqn:Hd.
    { apply existsb_applies in Hd as (e & He & Ha). split; [done |]. intros [Hno _]. by destruct (Hno e He). }
    assert (∀ e, e ∈ deny → ¬ applies e value) as Hno.
    { intros e He Ha. assert (existsb (glob_hit value) deny = true); [| congruence]. apply existsb_applies. eauto. }
    case_decide as Hl; [| rewrite existsb_applies; tauto].
    apply length_zero_iff_nil in Hl as ->. split; [done |]. intros [_ (e & He & _)]. by apply elem_of_nil in He.
  - intros allowlist value semantics. unfold AllowlistPolicy_IsAllowed. case_decide as Hl.
    + apply length_zero_iff_nil in Hl as ->. rewrite bool_decide_eq_true. split; [by left |].
      intros [[_ ?] | (e & He & _)]; [done | by apply elem_of_nil in He].
    + rewrite existsb_exists. split.
      * intros (e & He & Ha). right. exists e. by rewrite list_elem_of_In, <- allowlist_entry_applies.
      * intros [[-> _] | (e & He & Ha)]; [done |]. exists e. by rewrite <- list_elem_of_In, allowlist_entry_applies.
Qed.

Example glob_backtracking : IsMatch "a*b*c" "abxbyc" = true ∧ IsMatch "a*bc" "abcbc" = true ∧ IsMatch "ab*ba" "aba" = false.
Proof. by vm_compute. Qed.
