(* ===== verification/Pairing.v ===== *)
(** Sender pairing: [PairingManager] of [openclaw/core/security.go].

    The two [sync.Map]s are a map and a set; each method is one atomic step
    (the [*PendingPairing] of a key is never shared outside its map entry, and
    with atomic methods the final [LoadAndDelete] of [TryApprove] always finds
    the code it has just checked).
    The part of the disk the manager touches is its field [disk], the clock
    and the random code of a call are arguments, times are nanoseconds. *)

From S2P Require Import Prelude GoStrings Disk.
Local Open Scope string_scope.
Local Open Scope Z_scope.

Record PendingPairing := mkPendingPairing {
  Code : string;
  ExpiresAt : Z;
  FailedAttempts : Z;
  LastFailedAt : option Z;
}.

Record PairingManager := mkPairingManager {
  codeTtl : Z;
  failedAttemptCooldown : Z;
  maxFailedAttempts : Z;
  approvedListPath : string;
  pendingCodes : gmap string PendingPairing;
  approvedSenders : gset string;
  disk : Disk;
}.

Definition set_pending f (p : PairingManager) : PairingManager :=
  mkPairingManager (codeTtl p) (failedAttemptCooldown p) (maxFailedAttempts p) (approvedListPath p)
    (f (pendingCodes p)) (approvedSenders p) (disk p).
Definition set_approved f (p : PairingManager) : PairingManager :=
  mkPairingManager (codeTtl p) (failedAttemptCooldown p) (maxFailedAttempts p) (approvedListPath p)
    (pendingCodes p) (f (approvedSenders p)) (disk p).
Definition set_disk d (p : PairingManager) : PairingManager :=
  mkPairingManager (codeTtl p) (failedAttemptCooldown p) (maxFailedAttempts p) (approvedListPath p)
    (pendingCodes p) (approvedSenders p) d.

(** [fmt.Sprintf("%s:%s", channelId, senderId)] *)
Definition pair_key (channelId senderId : string) : string := channelId +:+ ":" +:+ senderId.

Definition fixedTimeCodeEquals (expected provided : string) : bool :=
  if IsBlank provided then false else bool_decide (expected = TrimSpace provided).

Section Pairing.
(** [encoding/json] on lists of strings. *)
Variable marshal : list string → string.
Variable unmarshal : string → option (list string).
(** Whether an operation the disk's contents allow succeeds. *)
Variables (mkdir_ok write_ok : string → bool) (rename_ok : string → string → bool).

(** The deferred recovery removes a regular temporary file. *)
Definition persistApprovedSenders (p : PairingManager) : PairingManager :=
  let tmp := approvedListPath p +:+ ".tmp" in
  let cleanup d := if FileExists d tmp then delete tmp d else d in
  match MkdirAll mkdir_ok (disk p) tmp with
  | None => p
  | Some d =>
      match WriteFile write_ok d tmp (marshal (elements (approvedSenders p))) with
      | None => set_disk (cleanup d) p
      | Some d =>
          match Rename rename_ok d tmp (approvedListPath p) with
          | None => set_disk (cleanup d) p
          | Some d => set_disk d p
          end
      end
  end.

Definition loadApprovedSenders (p : PairingManager) : PairingManager :=
  match disk p !! approvedListPath p with
  | Some (NFile data) =>
      match unmarshal data with
      | Some saved => set_approved (λ a, list_to_set saved ∪ a) p
      | None => p
      end
  | _ => p
  end.

(** [codeTtl] is [time.Millisecond * 10] and the cooldown [time.Millisecond * 5].
    [listPath] is the joined path of [approved.json]. *)
Definition NewPairingManager (listPath : string) (d : Disk) : PairingManager :=
  loadApprovedSenders (mkPairingManager (1000000 * 10) (1000000 * 5) 5 listPath ∅ ∅ d).

Definition cleanupExpiredPendingCodes (now : Z) (p : PairingManager) : PairingManager :=
  set_pending (filter (λ '(_, t), ¬ (ExpiresAt t < now))) p.

Definition GetApprovedList (p : PairingManager) : list string := elements (approvedSenders p).

Definition Revoke (channelId senderId : string) (p : PairingManager) : PairingManager :=
  let key := pair_key channelId senderId in
  if decide (key ∈ approvedSenders p)
  then persistApprovedSenders (set_approved (λ a, a ∖ {[ key ]}) p)
  else p.

Definition ApproveAdmin (channelId senderId : string) (p : PairingManager) : PairingManager :=
  persistApprovedSenders (set_approved (λ a, {[ pair_key channelId senderId ]} ∪ a) p).

(** The attempts of this code are over for now. *)
Definition locked_out (now : Z) (p : PairingManager) (pending : PendingPairing) : bool :=
  (maxFailedAttempts p <=? FailedAttempts pending) &&
  match LastFailedAt pending with
  | Some last => sat64 (now - last) <? failedAttemptCooldown p
  | None => false
  end.

Definition TryApprove (now : Z) (channelId senderId providedCode : string) (p : PairingManager) : res () * PairingManager :=
  let key := pair_key channelId senderId in
  match pendingCodes p !! key with
  | None => (Fail "No pending pairing request found.", p)
  | Some pending =>
      if ExpiresAt pending <? now then
        (Fail "Pairing code has expired. Request a new code.", set_pending (delete key) p)
      else if locked_out now p pending then (Fail "Too many invalid attempts. Please wait and try again.", p)
      else if negb (fixedTimeCodeEquals (Code pending) providedCode) then
        (Fail "TInvalid pairing code.",
         set_pending <[key := mkPendingPairing (Code pending) (ExpiresAt pending)
                                (wrap64 (FailedAttempts pending + 1)) (Some now)]> p)
      else
        (Ok tt, persistApprovedSenders (set_approved (λ a, {[ key ]} ∪ a) (set_pending (delete key) p)))
  end.

(** [fresh] is what [util.GenerateCode(100000, 1000000)] draws. *)
Definition GeneratePairingCode (now : Z) (channelId senderId fresh : string) (p : PairingManager) : string * PairingManager :=
  let key := pair_key channelId senderId in
  let p := cleanupExpiredPendingCodes now p in
  let issue := (fresh, set_pending <[key := mkPendingPairing fresh (now + codeTtl p) 0 None]> p) in
  match pendingCodes p !! key with
  | Some existing => if now <? ExpiresAt existing then (Code existing, p) else issue
  | None => issue
  end.

Definition IsApproved (channelId senderId : string) (p : PairingManager) : bool :=
  bool_decide (pair_key channelId senderId ∈ approvedSenders p).

(** ** Histories *)

(** A call, with the time of its clock reading and its result. *)
Inductive event :=
  | EGenerate (now : Z) (channelId senderId code : string)
  | ETry (now : Z) (channelId senderId provided : string) (result : res ())
  | EAdmin (channelId senderId : string)
  | ERevoke (channelId senderId : string).

(** The managers reachable from a new one, the calls made (latest first) and
    the last clock reading; the clock does not run backwards. *)
Inductive Reachable (listPath : string) (d : Disk) : Z → list event → PairingManager → Prop :=
  | R_new now : Reachable listPath d now [] (NewPairingManager listPath d)
  | R_generate clock h p now ch se fresh code p' :
      Reachable listPath d clock h p → clock ≤ now →
      GeneratePairingCode now ch se fresh p = (code, p') →
      Reachable listPath d now (EGenerate now ch se code :: h) p'
  | R_try clock h p now ch se provided r p' :
      Reachable listPath d clock h p → clock ≤ now →
      TryApprove now ch se provided p = (r, p') →
      Reachable listPath d now (ETry now ch se provided r :: h) p'
  | R_admin clock h p ch se :
      Reachable listPath d clock h p → Reachable listPath d clock (EAdmin ch se :: h) (ApproveAdmin ch se p)
  | R_revoke clock h p ch se :
      Reachable listPath d clock h p → Reachable listPath d clock (ERevoke ch se :: h) (Revoke ch se p).

(** ** Lemmas *)

Lemma persist_frame p :
  ∃ d, persistApprovedSenders p = set_disk d p ∧ d !! approvedListPath p = disk p !! approvedListPath p.
Proof.
  unfold persistApprovedSenders. set (tmp := approvedListPath p +:+ ".tmp").
  assert (tmp ≠ approvedListPath p) as Hne by apply tmp_differs.
  destruct (MkdirAll mkdir_ok (disk p) tmp) as [d |] eqn:Hmk; [| exists (disk p); by destruct p].
  assert (d !! tmp = Some NDir ∧ d !! approvedListPath p = disk p !! approvedListPath p) as [Hd Hpath].
  { unfold MkdirAll in Hmk. destruct (disk p !! tmp) as [[|] |] eqn:Htmp; [| done |].
    - by injection Hmk as <-.
    - destruct (mkdir_ok tmp); [| done]. injection Hmk as <-.
      by rewrite lookup_insert_eq, lookup_insert_ne. }
  unfold WriteFile, FileExists. rewrite Hd. by exists d.
Qed.

(** The result of [TryApprove] on a pending code. *)
Lemma TryApprove_inv now ch se provided p r p' : TryApprove now ch se provided p = (r, p') →
  (∃ e, r = Fail e ∧ p' = p) ∨
  (∃ e, r = Fail e ∧ p' = set_pending (delete (pair_key ch se)) p) ∨
  (∃ e q, r = Fail e ∧ pendingCodes p !! pair_key ch se = Some q ∧ now ≤ ExpiresAt q ∧ locked_out now p q = false ∧
     p' = set_pending <[pair_key ch se := mkPendingPairing (Code q) (ExpiresAt q)
                                (wrap64 (FailedAttempts q + 1)) (Some now)]> p) ∨
  (∃ q, r = Ok tt ∧ pendingCodes p !! pair_key ch se = Some q ∧ now ≤ ExpiresAt q ∧
     Code q = TrimSpace provided ∧
     p' = persistApprovedSenders
            (set_approved (λ a, {[ pair_key ch se ]} ∪ a) (set_pending (delete (pair_key ch se)) p))).
Proof.
  unfold TryApprove. destruct (pendingCodes p !! pair_key ch se) as [q |]; [| intros [= <- <-]; eauto].
  destruct (ExpiresAt q <? now) eqn:Hexp; [intros [= <- <-]; eauto |]. apply Z.ltb_ge in Hexp.
  destruct (locked_out now p q) eqn:Hlock; [intros [= <- <-]; eauto |].
  unfold fixedTimeCodeEquals. destruct (IsBlank provided); simpl; [intros [= <- <-]; eauto 12 |].
  case_bool_decide; simpl; intros [= <- <-]; eauto 12.
Qed.

(** The fields a method changes, up to the disk. *)
Lemma persist_fields p :
  pendingCodes (persistApprovedSenders p) = pendingCodes p ∧
  approvedSenders (persistApprovedSenders p) = approvedSenders p ∧
  codeTtl (persistApprovedSenders p) = codeTtl p ∧
  failedAttemptCooldown (persistApprovedSenders p) = failedAttemptCooldown p ∧
  maxFailedAttempts (persistApprovedSenders p) = maxFailedAttempts p ∧
  approvedListPath (persistApprovedSenders p) = approvedListPath p ∧
  disk (persistApprovedSenders p) !! approvedListPath p = disk p !! approvedListPath p.
Proof. by destruct (persist_frame p) as (d & -> & H). Qed.

(** The manager a revocation leaves, up to the disk. *)
Lemma Revoke_fields ch se p :
  pendingCodes (Revoke ch se p) = pendingCodes p ∧
  approvedSenders (Revoke ch se p) ⊆ approvedSenders p ∧
  codeTtl (Revoke ch se p) = codeTtl p ∧
  failedAttemptCooldown (Revoke ch se p) = failedAttemptCooldown p ∧
  maxFailedAttempts (Revoke ch se p) = maxFailedAttempts p ∧
  approvedListPath (Revoke ch se p) = approvedListPath p ∧
  disk (Revoke ch se p) !! approvedListPath p = disk p !! approvedListPath p.
Proof.
  unfold Revoke. case_decide; [| done].
  destruct (persist_fields (set_approved (λ a, a ∖ {[pair_key ch se]}) p)) as (-> & -> & -> & -> & -> & -> & Hd).
  simpl in *. split_and!; [done | set_solver | done..].
Qed.

Lemma loadApprovedSenders_fields p :
  pendingCodes (loadApprovedSenders p) = pendingCodes p ∧ codeTtl (loadApprovedSenders p) = codeTtl p ∧
  failedAttemptCooldown (loadApprovedSenders p) = failedAttemptCooldown p ∧
  maxFailedAttempts (loadApprovedSenders p) = maxFailedAttempts p.
Proof.
  unfold loadApprovedSenders. destruct (disk p !! _) as [[|] |]; [done | | done]. by destruct (unmarshal _).
Qed.

(** ** The invariant *)

(** The state of the attempts on one code: it was issued by a call of the
    history, and from the fifth failure on failures are a cooldown apart. *)
Record code_ok (clock : Z) (h : list event) (key : string) (q : PendingPairing) : Prop := {
  ok_issued : ∃ ch se t0, key = pair_key ch se ∧ EGenerate t0 ch se (Code q) ∈ h ∧
                ExpiresAt q = t0 + 10000000 ∧ t0 ≤ clock;
  ok_attempts : match LastFailedAt q with
                | None => FailedAttempts q = 0
                | Some last => 1 ≤ FailedAttempts q ∧ last ≤ clock ∧
                    ExpiresAt q - 10000000 ≤ last ≤ ExpiresAt q ∧
                    (5 ≤ FailedAttempts q → ExpiresAt q - 10000000 + (FailedAttempts q - 5) * 5000000 ≤ last)
                end;
}.

Lemma code_ok_bound clock h key q : code_ok clock h key q → 0 ≤ FailedAttempts q ≤ 7.
Proof. intros [_ H]. destruct (LastFailedAt q); lia. Qed.

Lemma code_ok_later clock clock' h h' key q :
  clock ≤ clock' → h ⊆ h' → code_ok clock h key q → code_ok clock' h' key q.
Proof.
  intros Hc Hh [(ch & se & t0 & Hk & Hin & He & Ht) Ha]. split.
  - exists ch, se, t0. split_and!; [done | by apply Hh | done | lia].
  - destruct (LastFailedAt q); [| done]. destruct Ha as (? & ? & ? & ?). split_and!; lia.
Qed.

(** One more failure of a code that is neither expired nor locked out. *)
Lemma code_ok_failure clock now h key q p :
  clock ≤ now → maxFailedAttempts p = 5 → failedAttemptCooldown p = 5000000 →
  code_ok clock h key q → now ≤ ExpiresAt q → locked_out now p q = false →
  code_ok now h key (mkPendingPairing (Code q) (ExpiresAt q) (wrap64 (FailedAttempts q + 1)) (Some now)).
Proof.
  intros Hc Hmax Hcd Hok Hexp Hlock. pose proof (code_ok_bound _ _ _ _ Hok) as Hb.
  destruct Hok as [(ch & se & t0 & Hk & Hin & He & Ht) Ha]. split; simpl.
  - exists ch, se, t0. split_and!; [done.. | lia].
  - rewrite wrap64_id by (unfold in_int64, min_int64, max_int64; lia).
    unfold locked_out in Hlock. rewrite Hmax, Hcd in Hlock. unfold sat64, min_int64, max_int64 in Hlock.
    destruct (LastFailedAt q) as [last |].
    + apply andb_false_iff in Hlock as [Hlock | Hlock]; [apply Z.leb_gt in Hlock | apply Z.ltb_ge in Hlock]; lia.
    + lia.
Qed.

(** Why a sender may be approved. *)
Definition justified (p0 : PairingManager) (h : list event) (key : string) : Prop :=
  key ∈ approvedSenders p0 ∨
  (∃ ch se, key = pair_key ch se ∧ EAdmin ch se ∈ h) ∨
  (∃ ch se provided t ch' se' t0 h1 h2,
     key = pair_key ch se ∧ key = pair_key ch' se' ∧
     h = (h1 ++ ETry t ch se provided (Ok tt) :: h2)%list ∧
     EGenerate t0 ch' se' (TrimSpace provided) ∈ h2 ∧ t0 ≤ t ≤ t0 + 10000000).

Lemma justified_later p0 h e key : justified p0 h key → justified p0 (e :: h) key.
Proof.
  intros [H | [(ch & se & Hk & Hin) | (ch & se & pr & t & ch' & se' & t0 & h1 & h2 & H1 & H2 & -> & H3)]]; [by left | |].
  - right; left. exists ch, se. split; [done | by right].
  - do 2 right. by exists ch, se, pr, t, ch', se', t0, (e :: h1), h2.
Qed.

Record Inv (p0 : PairingManager) (clock : Z) (h : list event) (p : PairingManager) : Prop := {
  inv_ttl : codeTtl p = 10000000;
  inv_cooldown : failedAttemptCooldown p = 5000000;
  inv_max : maxFailedAttempts p = 5;
  inv_path : approvedListPath p = approvedListPath p0;
  inv_codes : map_Forall (code_ok clock h) (pendingCodes p);
  inv_approved : ∀ key, key ∈ approvedSenders p → justified p0 h key;
  inv_disk : disk p !! approvedListPath p0 = disk p0 !! approvedListPath p0;
}.

(** A step that keeps the limits, the codes and the listed senders of [p]. *)
Lemma Inv_step p0 clock clock' h e p p' :
  Inv p0 clock h p → clock ≤ clock' →
  codeTtl p' = codeTtl p → failedAttemptCooldown p' = failedAttemptCooldown p →
  maxFailedAttempts p' = maxFailedAttempts p → approvedListPath p' = approvedListPath p →
  disk p' !! approvedListPath p = disk p !! approvedListPath p →
  map_Forall (code_ok clock' (e :: h)) (pendingCodes p') →
  (∀ key, key ∈ approvedSenders p' → key ∈ approvedSenders p ∨ justified p0 (e :: h) key) →
  Inv p0 clock' (e :: h) p'.
Proof.
  intros [H1 H2 H3 H4 H5 H6 H7] Hc E1 E2 E3 E4 E5 Hcodes Happ. split; try congruence.
  - done.
  - intros key [Hin | Hin]%Happ; [by apply justified_later, H6 | done].
Qed.

Lemma codes_later p0 clock clock' h e p :
  Inv p0 clock h p → clock ≤ clock' → map_Forall (code_ok clock' (e :: h)) (pendingCodes p).
Proof.
  intros HI Hc key q Hq. eapply code_ok_later; [exact Hc | | by apply (inv_codes _ _ _ _ HI)]. set_solver.
Qed.

Lemma Inv_generate p0 clock h p now ch se fresh code p' :
  Inv p0 clock h p → clock ≤ now → GeneratePairingCode now ch se fresh p = (code, p') →
  Inv p0 now (EGenerate now ch se code :: h) p'.
Proof.
  intros HI Hc. unfold GeneratePairingCode. set (q := cleanupExpiredPendingCodes now p).
  assert (∀ e, map_Forall (code_ok now (e :: h)) (pendingCodes q)) as Hq.
  { intros e key t Ht. apply map_lookup_filter_Some in Ht as [Ht _]. by apply (codes_later p0 clock now h e p HI Hc). }
  assert ((fresh, set_pending <[pair_key ch se := mkPendingPairing fresh (now + codeTtl q) 0 None]> q) = (code, p') →
    Inv p0 now (EGenerate now ch se code :: h) p') as Hissue.
  { intros [= <- <-]. apply (Inv_step p0 clock now h _ p); try done; [| by left].
    apply map_Forall_insert_2; [| apply Hq]. split; simpl; [| done].
    exists ch, se, now. split_and!; [done | by left | by rewrite (inv_ttl _ _ _ _ HI) | lia]. }
  destruct (pendingCodes q !! pair_key ch se) as [t |]; [| done].
  destruct (now <? ExpiresAt t); [| done]. intros [= <- <-].
  apply (Inv_step p0 clock now h _ p); try done; by left.
Qed.

Lemma Inv_try p0 clock h p now ch se provided r p' :
  Inv p0 clock h p → clock ≤ now → TryApprove now ch se provided p = (r, p') →
  Inv p0 now (ETry now ch se provided r :: h) p'.
Proof.
  intros HI Hc HT. set (e := ETry now ch se provided r). pose proof (codes_later p0 clock now h e p HI Hc) as Hq.
  apply TryApprove_inv in HT as [(er & -> & ->) | [(er & -> & ->) | [(er & q & -> & Hl & Hexp & Hlock & ->) |
    (q & -> & Hl & Hexp & Hcode & ->)]]].
  - by apply (Inv_step p0 clock now h _ p); try done; [by left].
  - apply (Inv_step p0 clock now h _ p); try done; [| by left]. by apply map_Forall_delete.
  - apply (Inv_step p0 clock now h _ p); try done; [| by left].
    apply map_Forall_insert_2; [| done]. pose proof (inv_codes _ _ _ _ HI _ _ Hl) as Hok.
    apply (code_ok_later now now h); [done | set_solver |].
    apply (code_ok_failure clock now h _ q p); [done | apply HI | apply HI | done | done | done].
  - destruct (persist_fields (set_approved (λ a, {[pair_key ch se]} ∪ a) (set_pending (delete (pair_key ch se)) p)))
      as (P1 & P2 & P3 & P4 & P5 & P6 & P7).
    apply (Inv_step p0 clock now h _ p); try done; [rewrite P1; by apply map_Forall_delete |].
    rewrite P2. simpl. intros key [->%elem_of_singleton | ?]%elem_of_union; [| by left]. right. do 2 right.
    destruct (ok_issued _ _ _ _ (inv_codes _ _ _ _ HI _ _ Hl)) as (ch' & se' & t0 & Hk & Hin & He & Ht).
    exists ch, se, provided, now, ch', se', t0, [], h. split_and!; try done; [by rewrite <- Hcode | lia | lia].
Qed.

Lemma Reachable_Inv listPath d clock h p :
  Reachable listPath d clock h p → Inv (NewPairingManager listPath d) clock h p.
Proof.
  induction 1 as [now | clock h p now ch se fresh code p' HR IH Hc HG | clock h p now ch se pr r p' HR IH Hc HT
    | clock h p ch se HR IH | clock h p ch se HR IH].
  - unfold NewPairingManager.
    set (p := mkPairingManager _ _ _ _ _ _ _). destruct (loadApprovedSenders_fields p) as (L1 & L2 & L3 & L4).
    split; try done; [rewrite L1; apply map_Forall_empty |]. intros key Hk. by left.
  - by eapply Inv_generate.
  - by eapply Inv_try.
  - unfold ApproveAdmin. set (q := set_approved _ p). destruct (persist_fields q) as (P1 & P2 & P3 & P4 & P5 & P6 & P7).
    apply (Inv_step _ clock clock h _ p); try done; [rewrite P1; by apply (codes_later _ clock clock h _ p IH) |].
    rewrite P2. unfold q. simpl. intros key [->%elem_of_singleton | ?]%elem_of_union; [| by left].
    right. right. left. exists ch, se. split; [done | by left].
  - destruct (Revoke_fields ch se p) as (P1 & P2 & P3 & P4 & P5 & P6 & P7).
    apply (Inv_step _ clock clock h _ p); try done; [rewrite P1; by apply (codes_later _ clock clock h _ p IH) |].
    intros key Hk. left. by apply P2.
Qed.

(** ** Properties *)

(** C31: a sender is approved only if the stored list named it, an
    administrator approved it, or somebody presented, within ten milliseconds,
    the code that was generated for its key. *)
Theorem pairing_approval_justified listPath d clock h p ch se :
  Reachable listPath d clock h p → IsApproved ch se p = true →
  justified (NewPairingManager listPath d) h (pair_key ch se).
Proof.
  intros HR Happ. apply bool_decide_eq_true in Happ. by apply (inv_approved _ _ _ _ (Reachable_Inv _ _ _ _ _ HR)).
Qed.

(** While a code is pending at most seven wrong codes are counted against
    it, however the calls are timed: five, then one per cooldown until it
    expires. *)
Theorem wrong_codes_bounded listPath d clock h p key q :
  Reachable listPath d clock h p → pendingCodes p !! key = Some q → 0 ≤ FailedAttempts q ≤ 7.
Proof.
  intros HR Hq. eapply code_ok_bound. by apply (inv_codes _ _ _ _ (Reachable_Inv _ _ _ _ _ HR)).
Qed.

(** No call of the manager ever changes the stored list of approved
    senders: [persistApprovedSenders] makes a directory of the temporary file's
    name, so writing that file fails, and the failure is recovered from. *)
Theorem approvals_never_persisted listPath d clock h p :
  Reachable listPath d clock h p → disk p !! listPath = d !! listPath.
Proof.
  intros HR. pose proof (inv_disk _ _ _ _ (Reachable_Inv _ _ _ _ _ HR)) as H.
  assert (approvedListPath (NewPairingManager listPath d) = listPath ∧ disk (NewPairingManager listPath d) = d) as [E1 E2].
  { unfold NewPairingManager, loadApprovedSenders. simpl. destruct (d !! listPath) as [[|] |]; [done | | done].
    by destruct (unmarshal data). }
  by rewrite E1, E2 in H.
Qed.
End Pairing.

(** A stub for the disk's answers and the JSON functions of the witnesses. *)
Definition yes {A} (_ : A) : bool := true.

(** One sender pairs, another only guesses. *)
Definition sample_history : list event :=
  [ETry 5000 "telegram" "alice" "123456 " (Ok tt);
   ETry 4000 "telegram" "bob" "000000" (Fail "TInvalid pairing code.");
   EGenerate 2000 "telegram" "bob" "654321";
   EGenerate 1000 "telegram" "alice" "123456"].

Definition sample_manager : PairingManager :=
  let p := NewPairingManager (λ _, None) "p/approved.json" ∅ in
  let p := snd (GeneratePairingCode 1000 "telegram" "alice" "123456" p) in
  let p := snd (GeneratePairingCode 2000 "telegram" "bob" "654321" p) in
  let p := snd (TryApprove (λ _, "") yes yes (λ _, yes) 4000 "telegram" "bob" "000000" p) in
  snd (TryApprove (λ _, "") yes yes (λ _, yes) 5000 "telegram" "alice" "123456 " p).

Lemma sample_reachable :
  Reachable (λ _, "") (λ _, None) yes yes (λ _, yes) "p/approved.json" ∅ 5000 sample_history sample_manager.
Proof.
  unfold sample_history.
  eapply R_try; [eapply R_try; [eapply R_generate; [eapply R_generate; [apply (R_new _ _ _ _ _ _ _ 1000) | |] | |] | |] | |];
    first [lia | apply surjective_pairing | vm_compute; reflexivity].
Qed.

Lemma pairing_approval_justified_witness :
  IsApproved "telegram" "alice" sample_manager = true ∧
  justified (NewPairingManager (λ _, None) "p/approved.json" ∅) sample_history (pair_key "telegram" "alice").
Proof.
  assert (IsApproved "telegram" "alice" sample_manager = true) as H by (by vm_compute).
  split; [exact H |].
  by apply (pairing_approval_justified (λ _, "") (λ _, None) yes yes (λ _, yes) "p/approved.json" ∅ 5000 sample_history sample_manager
    "telegram" "alice" sample_reachable).
Defined.

Lemma wrong_codes_bounded_witness :
  ∃ q, pendingCodes sample_manager !! "telegram:bob" = Some q ∧ FailedAttempts q = 1 ∧ 0 ≤ FailedAttempts q ≤ 7.
Proof.
  destruct (pendingCodes sample_manager !! "telegram:bob") as [q |] eqn:Hq; [| by vm_compute in Hq].
  exists q. split; [done |]. split; [by vm_compute in Hq; injection Hq as <- |].
  by apply (wrong_codes_bounded (λ _, "") (λ _, None) yes yes (λ _, yes) "p/approved.json" ∅ 5000 sample_history sample_manager
    "telegram:bob" q sample_reachable).
Defined.

Lemma approvals_never_persisted_witness :
  IsApproved "telegram" "alice" sample_manager = true ∧ disk sample_manager !! "p/approved.json" = None.
Proof.
  split; [by vm_compute |].
  by apply (approvals_never_persisted (λ _, "") (λ _, None) yes yes (λ _, yes) "p/approved.json" ∅ 5000 sample_history sample_manager
    sample_reachable).
Defined.

(** Keys are not injective: approving one pair approves another. *)
Example key_collision : pair_key "a:b" "c" = pair_key "a" "b:c".
Proof. reflexivity. Qed.
