(* ===== verification/Mqtt.v ===== *)
(** The MQTT tools and event bridge: [openclaw/agent/tool/mqtt] and
    [openclaw/agent/integration_mqtt.go].

    The broker is a parameter: whether a client can be created, how it answers
    a call, and the packets it delivers.  Decoding the JSON arguments and
    formatting times are parameters too.  Times are nanoseconds. *)

From stdpp Require Import sorting.
From S2P Require Import Prelude GoStrings Security.
Local Open Scope string_scope.
Local Open Scope Z_scope.

(** [util.Clamp] *)
Definition Clamp (val min max : Z) : Z := if val <? min then min else if max <? val then max else val.

(** [util.TrimEnd]: only blanks are removed. *)
Fixpoint drop_blanks (l : bytes) : bytes :=
  match l with
  | c :: l' => if decide (c = byte 32) then drop_blanks l' else l
  | [] => []
  end.
Definition TrimEnd (text : string) : string := of_bytes (rev (drop_blanks (rev (to_bytes text)))).

(** ** Topic filters ([match.go]) *)

Definition topic_sep : ascii := byte 47.

(** [strings.Split(route, "/")[2:]] panics when there are fewer than two parts. *)
Definition routeSplit (route : string) : go (list string) :=
  if decide (route = "") then Done []
  else if HasPrefix route "$share" then
    let parts := Split route topic_sep in
    if (length parts <? 2)%nat then Panic else Done (drop 2 parts)
  else Done (Split route topic_sep).

Definition topicSplit (topic : string) : list string :=
  if decide (topic = "") then [] else Split topic topic_sep.

Fixpoint matchDeep (route topic : list string) : bool :=
  match route with
  | [] => match topic with [] => true | _ => false end
  | r :: route =>
      match topic with
      | [] => bool_decide (r = "#")
      | t :: topic =>
          if decide (r = "#") then true
          else if bool_decide (r = "+") || bool_decide (r = t) then matchDeep route topic
          else false
      end
  end.

Definition routeIncludesTopic (route topic : string) : go bool :=
  r ← routeSplit route; Done (matchDeep r (topicSplit topic)).

Definition Match (route topic : string) : go bool :=
  if decide (route = topic) then Done true else routeIncludesTopic route topic.

(** ** Policies and tools *)

Record MqttPolicyConfig := mkMqttPolicyConfig {
  AllowPublishTopicGlobs : list string;
  DenyPublishTopicGlobs : list string;
  AllowSubscribeTopicGlobs : list string;
  DenySubscribeTopicGlobs : list string;
}.

Definition DefaultMqttPolicyConfig : MqttPolicyConfig := mkMqttPolicyConfig ["*"] [] ["*"] [].

Record PublishDto := mkPublishDto {
  p_Op : string; p_Topic : string; p_Payload : string; p_Qos : Z; p_Retain : bool;
}.
Record SubscribeDto := mkSubscribeDto {
  s_Op : string; s_Topic : string; s_TimeoutMs : Z; s_Qos : Z;
}.

(** A call on the broker's client. *)
Inductive client_call :=
  | CallPublish (topic payload : string) (qos : Z) (retain : bool)
  | CallSubscribe (topic : string) (qos : Z).

Record CacheEntry := mkCacheEntry { c_Topic : string; c_Payload : string; c_ReceivedAt : Z }.
Abbreviation Cache := (gmap string CacheEntry).

Definition GetPayload (topic : string) (lastByTopic : Cache) : option (string * Z) :=
  (λ e, (c_Payload e, c_ReceivedAt e)) <$> lastByTopic !! topic.

Definition SetPayload (now : Z) (topic payload : string) (lastByTopic : Cache) : Cache :=
  <[topic := mkCacheEntry topic payload now]> lastByTopic.

Definition newer (a b : CacheEntry) : Prop := c_ReceivedAt b ≤ c_ReceivedAt a.
#[export] Instance newer_dec a b : Decision (newer a b).
Proof. unfold newer. apply _. Defined.

(** Newest first; the order of entries of one time is the library's. *)
Definition FindByGlob (topicGlob : string) (lastByTopic : Cache) : list CacheEntry :=
  merge_sort newer (filter (λ e, IsMatch topicGlob (c_Topic e) = true) (snd <$> map_to_list lastByTopic)).

Section Tools.
(** [CreateMqttClient], and the answer of the broker to a call. *)
Variable connect : res ().
Variable answer : client_call → res ().
(** [time.Time.Format(time.RFC3339Nano)] *)
Variable rfc3339 : Z → string.

(** [MqttPublishTool.Execute] on decoded arguments: the result and the calls
    made on a client. *)
Definition Publish_Execute (ReadOnlyMode : bool) (policy : MqttPolicyConfig) (decoded : res PublishDto) :
    res string * list client_call :=
  if ReadOnlyMode then
    (Fail "Error: mqtt_publish is disabled because Tooling.ReadOnlyMode is enabled.", [])
  else
    match decoded with
    | Fail e => (Fail e, [])
    | Ok dto =>
        if decide (p_Op dto ≠ "publish") then (Fail ("unknown op " +:+ p_Op dto), [])
        else if decide (p_Topic dto = "") then (Fail "Error: topic is required", [])
        else if IsAllowed (AllowPublishTopicGlobs policy) (DenyPublishTopicGlobs policy) (p_Topic dto) then
          (Fail ("Error: Publish to topic '" +:+ p_Topic dto +:+ "' is not allowed by policy."), [])
        else
          let call := CallPublish (p_Topic dto) (p_Payload dto) (Clamp (p_Qos dto) 0 2) (p_Retain dto) in
          match connect with
          | Fail e => (Fail e, [])
          | Ok _ =>
              match answer call with
              | Fail e => (Fail e, [call])
              | Ok _ => (Ok "OK", [call])
              end
          end
    end.

(** The result one packet puts in the channel. *)
Definition receiveHandle (maxPayloadBytes : Z) (packet : string * string) : res string :=
  let '(topic, payload) := packet in
  if maxPayloadBytes <? Z.of_nat (String.length payload) then
    Fail ("Error: payload exceeds configured limit (" +:+ Itoa maxPayloadBytes +:+ " bytes)")
  else Ok ("topic: " +:+ topic +:+ String (byte 10) "" +:+ "payload: " +:+ payload).

(** [packets] are those delivered before the context ended with [ctx_error],
    [None] standing for the deadline. *)
Definition subscribeOnce (policy : MqttPolicyConfig) (MaxPayloadBytes : Z) (dto : SubscribeDto)
    (packets : list (string * string)) (ctx_error : option string) : res string * list client_call :=
  if IsAllowed (AllowSubscribeTopicGlobs policy) (DenySubscribeTopicGlobs policy) (s_Topic dto) then
    (Fail ("Error: Subscribe to topic '" +:+ s_Topic dto +:+ "' is not allowed by policy."), [])
  else
    let call := CallSubscribe (s_Topic dto) (Clamp (s_Qos dto) 0 2) in
    let timeoutMs := Clamp (s_TimeoutMs dto) 100 120000 in
    match connect with
    | Fail e => (Fail e, [])
    | Ok _ =>
        match answer call with
        | Fail e => (Fail e, [call])
        | Ok _ =>
            (match packets, ctx_error with
             | packet :: _, _ => receiveHandle (Z.max 0 MaxPayloadBytes) packet
             | [], None => Fail ("Error: timeout (" +:+ Itoa timeoutMs +:+ " ms) reached before receiving message")
             | [], Some e => Fail e
             end, [call])
        end
    end.

Definition entry_text (e : CacheEntry) : string :=
  let nl := String (byte 10) "" in
  "topic: " +:+ c_Topic e +:+ nl +:+ "received_at: " +:+ rfc3339 (c_ReceivedAt e) +:+ nl +:+ c_Payload e.

Definition getLast (lastByTopic : Cache) (dto : SubscribeDto) : res string :=
  if Contains (s_Topic dto) "*" then
    match FindByGlob (s_Topic dto) lastByTopic with
    | [] => Fail "No cached messages matched."
    | es =>
        let nl := String (byte 10) "" in
        Ok (TrimEnd (String.concat "" ((λ e, entry_text e +:+ nl +:+ nl) <$> take 10 es)))
    end
  else
    match GetPayload (s_Topic dto) lastByTopic with
    | None => Fail "No cached message for topic. Enable Mqtt.Events.Enabled to cache subscriptions."
    | Some (payload, receivedAt) => Ok (entry_text (mkCacheEntry (s_Topic dto) payload receivedAt))
    end.

(** [MqttTool.Execute] *)
Definition Subscribe_Execute (policy : MqttPolicyConfig) (MaxPayloadBytes : Z) (lastByTopic : Cache)
    (decoded : res SubscribeDto) (packets : list (string * string)) (ctx_error : option string) :
    res string * list client_call :=
  match decoded with
  | Fail e => (Fail e, [])
  | Ok dto =>
      if decide (s_Topic dto = "") then (Fail "Error: topic is required", [])
      else if decide (s_Op dto = "subscribe_once") then subscribeOnce policy MaxPayloadBytes dto packets ctx_error
      else if decide (s_Op dto = "get_last") then (getLast lastByTopic dto, [])
      else (Fail ("Error: Unknown op '" +:+ s_Op dto +:+ "'."), [])
  end.
End Tools.

(** ** The event bridge *)

Record MqttSubscriptionConfig := mkMqttSubscriptionConfig {
  sub_Topic : string; sub_Qos : Z; sub_PromptTemplate : string; sub_CooldownSeconds : Z;
}.

Record InboundMessage := mkInboundMessage { i_ChannelId : string; i_SessionId : string; i_SenderId : string; i_Text : string }.

(** The first subscription whose filter includes the topic. *)
Fixpoint findSubscriptionForTopic (subs : list MqttSubscriptionConfig) (topic : string) : go (option MqttSubscriptionConfig) :=
  match subs with
  | [] => Done None
  | sub :: subs =>
      if decide (sub_Topic sub = "") then findSubscriptionForTopic subs topic
      else b ← Match (sub_Topic sub) topic;
           if (b : bool) then Done (Some sub) else findSubscriptionForTopic subs topic
  end.

(** [time.Duration(max(0, sub.CooldownSeconds)) * time.Second] *)
Definition cooldown_of (sub : MqttSubscriptionConfig) : Z := wrap64 (Z.max 0 (sub_CooldownSeconds sub) * 1000000000).

Definition tryConsumeCooldown (sub : MqttSubscriptionConfig) (now : Z) (cooldowns : gmap string Z) : bool * gmap string Z :=
  if sub_CooldownSeconds sub <=? 0 then (true, cooldowns)
  else
    let key := "sub:" +:+ sub_Topic sub in
    match cooldowns !! key with
    | Some last => if sat64 (now - last) <? cooldown_of sub then (false, cooldowns)
                   else (true, <[key := now]> cooldowns)
    | None => (true, <[key := now]> cooldowns)
    end.

(** [strings.NewReplacer] of two patterns: one pass, left to right. *)
Fixpoint replace_two (fuel : nat) (p1 t1 p2 t2 l : bytes) : bytes :=
  match fuel, l with
  | S fuel, c :: l' =>
      match strip_prefix p1 l, strip_prefix p2 l with
      | Some r, _ => (t1 ++ replace_two fuel p1 t1 p2 t2 r)%list
      | None, Some r => (t2 ++ replace_two fuel p1 t1 p2 t2 r)%list
      | None, None => c :: replace_two fuel p1 t1 p2 t2 l'
      end
  | _, _ => []
  end.

Record MqttEventBridge := mkMqttEventBridge { b_cooldowns : gmap string Z; b_cache : Cache }.

(** The returned flag and error, the bridge after, and the message offered to
    the inbound channel; [now] is both clock readings. *)
Definition handleMqttMessage (ChannelId SessionId : string) (MaxPayloadBytes : Z) (subs : list MqttSubscriptionConfig)
    (now : Z) (topic payload : string) (m : MqttEventBridge) : go (res bool * MqttEventBridge * option InboundMessage) :=
  if MaxPayloadBytes <? Z.of_nat (String.length payload) then
    Done (Fail ("Error: payload exceeds configured limit (" +:+ Itoa MaxPayloadBytes +:+ " bytes)"), m, None)
  else
    let m := mkMqttEventBridge (b_cooldowns m) (SetPayload now topic payload (b_cache m)) in
    sub ← findSubscriptionForTopic subs topic;
    match (sub : option MqttSubscriptionConfig) with
    | None => Done (Ok true, m, None)
    | Some sub =>
        let '(go_on, cooldowns) := tryConsumeCooldown sub now (b_cooldowns m) in
        let m := mkMqttEventBridge cooldowns (b_cache m) in
        if negb go_on then Done (Ok true, m, None)
        else
          let template := if decide (sub_PromptTemplate sub = "")
                          then "MQTT message on " +:+ topic +:+ ": " +:+ payload
                          else sub_PromptTemplate sub in
          let text := of_bytes (replace_two (String.length template) (to_bytes "{topic}") (to_bytes topic)
                                  (to_bytes "{payload}") (to_bytes payload) (to_bytes template)) in
          Done (Ok true, m, Some (mkInboundMessage ChannelId SessionId "system" text))
    end.

(** ** Specification *)

(** One level of a filter includes one level of a topic. *)
Definition level_ok (r t : string) : Prop := r = "+" ∨ r = t.

(** A filter includes a topic level by level, a [#] standing for any rest. *)
Definition covers (route topic : list string) : Prop :=
  Forall2 level_ok route topic ∨
  ∃ prefix rest t1 t2, route = (prefix ++ "#" :: rest)%list ∧ topic = (t1 ++ t2)%list ∧ Forall2 level_ok prefix t1.

(** The levels of a filter, without the group of a shared subscription. *)
Definition route_levels (route : string) : list string :=
  if decide (route = "") then []
  else if HasPrefix route "$share" then drop 2 (Split route topic_sep)
  else Split route topic_sep.

(** ** Lemmas *)

Lemma matchDeep_covers route : ∀ topic, matchDeep route topic = true ↔ covers route topic.
Proof.
  unfold covers. induction route as [| r route IH]; intros topic; simpl.
  { destruct topic; split; [by left; constructor | done | done |].
    intros [H | (p & rest & t1 & t2 & Hr & _)]; [inversion H | by destruct p]. }
  destruct topic as [| t topic].
  - rewrite bool_decide_eq_true. split.
    + intros ->. right. by exists [], route, [], [].
    + intros [H | (p & rest & t1 & t2 & Hr & Ht & Hf)]; [inversion H |].
      symmetry in Ht. apply app_eq_nil in Ht as [-> ->]. apply Forall2_nil_inv_r in Hf as ->. by injection Hr.
  - case_decide as Hh.
    { subst. split; [| done]. intros _. right. exists [], route, [], (t :: topic). by split_and!; [| | constructor]. }
    destruct (bool_decide (r = "+") || bool_decide (r = t)) eqn:Hrt.
    + rewrite IH. rewrite orb_true_iff, !bool_decide_eq_true in Hrt. split.
      * intros [H | (p & rest & t1 & t2 & -> & -> & Hf)]; [left; by constructor |].
        right. exists (r :: p), rest, (t :: t1), t2. by split_and!; [| | constructor].
      * intros [H | (p & rest & t1 & t2 & Hr & Ht & Hf)]; [left; by inversion H |].
        right. destruct p as [| a p]; [by injection Hr |]. inversion Hf; subst. simplify_eq/=. eauto 10.
    + split; [done |]. rewrite orb_false_iff, !bool_decide_eq_false in Hrt. destruct Hrt as [H1 H2].
      intros [H | (p & rest & t1 & t2 & Hr & Ht & Hf)].
      * inversion H as [| ? ? ? ? [|]]; by subst.
      * destruct p as [| a p]; [by injection Hr |]. inversion Hf as [| ? ? ? ? [|]]; by simplify_eq/=.
Qed.

Lemma routeSplit_levels route :
  match routeSplit route with
  | Done r => r = route_levels route
  | Panic => HasPrefix route "$share" = true ∧ (length (Split route topic_sep) < 2)%nat
  | Deadlock => False
  end.
Proof.
  unfold routeSplit, route_levels. case_decide; [done |].
  destruct (HasPrefix route "$share"); [| done].
  destruct (length (Split route topic_sep) <? 2)%nat eqn:Hl; [| done]. by apply Nat.ltb_lt in Hl.
Qed.

(** A string splits into one part exactly when the separator is not in it. *)
Lemma Split_one s c : (length (Split s c) < 2)%nat ↔ c ∉ to_bytes s.
Proof.
  unfold Split. rewrite length_fmap. generalize (to_bytes s). intros l.
  induction l as [| d l IH]; simpl; [split; [by intros _ ?%elem_of_nil | lia] |].
  pose proof (split_bytes_nonempty c l) as Hne. rewrite not_elem_of_cons. case_decide as Hd.
  - subst. split; [| by intros []]. destruct (split_bytes c l); simpl; [done | lia].
  - destruct (split_bytes c l); simpl in *; [done |]. rewrite IH. naive_solver.
Qed.

(** ** Properties *)

(** The topic filter: [Match] holds when the filter is the topic or its
    levels include the topic's, [+] standing for a level and [#] for any rest;
    it panics exactly on a filter that begins with [$share], contains no slash
    and is not the topic itself. *)
Theorem topic_match_spec route topic :
  match Match route topic with
  | Done b => b = true ↔ route = topic ∨ covers (route_levels route) (topicSplit topic)
  | Panic => route ≠ topic ∧ HasPrefix route "$share" = true ∧ (topic_sep ∉ to_bytes route)
  | Deadlock => False
  end.
Proof.
  unfold Match. case_decide as He; [subst; tauto |].
  unfold routeIncludesTopic. pose proof (routeSplit_levels route) as Hr.
  destruct (routeSplit route) as [r | |]; simpl; [| | done].
  - subst. rewrite matchDeep_covers. tauto.
  - destruct Hr as [Hs Hl%Split_one]. done.
Qed.

Example share_panics : Match "$shareholders" "news" = Panic.
Proof. by vm_compute. Qed.
Example share_matches : Match "$share/group/a/+/c" "a/b/c" = Done true.
Proof. by vm_compute. Qed.
Example hash_matches : Match "a/#" "a" = Done true ∧ Match "a/+" "a" = Done false.
Proof. by vm_compute. Qed.

(** The tools' policy checks are inverted: a tool that reaches the broker
    acts on a topic the policy does not allow, every such topic gets through
    when the broker can be reached, and an allowed topic is refused. *)
Theorem mqtt_policies_inverted connect answer policy dto sub max packets ctx_error :
  p_Op dto = "publish" → p_Topic dto ≠ "" →
  let publish := Publish_Execute connect answer false policy (Ok dto) in
  let subscribe := subscribeOnce connect answer policy max sub packets ctx_error in
  (IsAllowed (AllowPublishTopicGlobs policy) (DenyPublishTopicGlobs policy) (p_Topic dto) = true →
     publish.2 = [] ∧ is_ok publish.1 = false) ∧
  (IsAllowed (AllowSubscribeTopicGlobs policy) (DenySubscribeTopicGlobs policy) (s_Topic sub) = true →
     subscribe.2 = [] ∧ is_ok subscribe.1 = false) ∧
  (IsAllowed (AllowPublishTopicGlobs policy) (DenyPublishTopicGlobs policy) (p_Topic dto) = false → connect = Ok tt →
     publish.2 = [CallPublish (p_Topic dto) (p_Payload dto) (Clamp (p_Qos dto) 0 2) (p_Retain dto)]) ∧
  (IsAllowed (AllowSubscribeTopicGlobs policy) (DenySubscribeTopicGlobs policy) (s_Topic sub) = false → connect = Ok tt →
     subscribe.2 = [CallSubscribe (s_Topic sub) (Clamp (s_Qos sub) 0 2)]).
Proof.
  intros Hop Htopic. cbv zeta. unfold Publish_Execute, subscribeOnce.
  rewrite decide_False by (by intros []). rewrite decide_False by done.
  split_and!.
  - by intros ->.
  - by intros ->.
  - intros -> ->. by destruct (answer _).
  - intros -> ->. by destruct (answer _).
Qed.

(** The policy allows everything but secret topics. *)
Lemma mqtt_policies_inverted_witness :
  let policy := mkMqttPolicyConfig ["*"] ["secret/*"] ["*"] ["secret/*"] in
  let publish t := Publish_Execute (Ok tt) (λ _, Ok tt) false policy (Ok (mkPublishDto "publish" t "x" 0 false)) in
  (publish "public/a").2 = [] ∧ is_ok (publish "public/a").1 = false ∧
  (publish "secret/a").2 = [CallPublish "secret/a" "x" 0 false].
Proof.
  intros policy publish.
  pose proof (λ t H, mqtt_policies_inverted (Ok tt) (λ _, Ok tt) policy (mkPublishDto "publish" t "x" 0 false)
                (mkSubscribeDto "subscribe_once" t 100 0) 10 [] None eq_refl H) as Hall.
  destruct (Hall "public/a") as [Ha _]; [done |]. destruct (Hall "secret/a") as (_ & _ & Hs & _); [done |].
  split; [| split].
  - apply Ha. by vm_compute.
  - apply Ha. by vm_compute.
  - apply Hs; [by vm_compute | done].
Defined.
