(* ===== verification/PathPolicy.v ===== *)
(** The file access policy of the tools: [openclaw/agent/tool/pathpolicy/policy.go].

    On Unix: the separator is a slash, there is no volume name and names are
    compared exactly.  The file system ([os.Getwd], [os.Lstat], [os.Readlink],
    [filepath.EvalSymlinks]) is a parameter; [filepath.Clean], [Join], [Dir] and
    [Abs] are written out.  The map of visited paths is threaded through the
    recursion, whose depth is bounded by [maxSymlinkResolutionDepth], so the
    recursion is on the number of levels left. *)

From S2P Require Import Prelude GoStrings.
Local Open Scope string_scope.

Definition sep : ascii := byte 47.

Definition maxSymlinkResolutionDepth : nat := 64.

(** ** [path/filepath] *)

Definition IsAbs (path : string) : bool := HasPrefix path "/".

(** One element of a path; the elements kept so far, last first. *)
Definition clean_step (rooted : bool) (kept : list string) (element : string) : list string :=
  if decide (element = "" ∨ element = ".") then kept
  else if decide (element = "..") then
    match kept with
    | last :: rest => if decide (last = "..") then element :: kept else rest
    | [] => if rooted then [] else [element]
    end
  else element :: kept.

Definition Clean (path : string) : string :=
  let rooted := IsAbs path in
  let kept := rev (fold_left (clean_step rooted) (Split path sep) []) in
  if rooted then "/" +:+ JoinStrings kept "/"
  else match kept with [] => "." | _ => JoinStrings kept "/" end.

(** [filepath.Join] of two elements. *)
Definition Join (a b : string) : string :=
  if decide (a = "") then (if decide (b = "") then "" else Clean b)
  else Clean (a +:+ "/" +:+ b).

(** Everything up to the last separator, cleaned. *)
Fixpoint upto_last_sep (l : bytes) : bytes :=
  match l with
  | [] => []
  | c :: l => if bool_decide (sep ∈ l) || bool_decide (c = sep) then c :: upto_last_sep l else []
  end.
Definition Dir (path : string) : string := Clean (of_bytes (upto_last_sep (to_bytes path))).

(** What [filepath.EvalSymlinks] answers. *)
Inductive eval_result := EvalTo (path : string) | EvalNotExist | EvalError.

Section PathPolicy.
Variable Getwd : option string.
(** [os.Lstat]: whether the path is a symbolic link. *)
Variable Lstat : string → option bool.
Variable Readlink : string → option string.
Variable EvalSymlinks : string → eval_result.

Definition Abs (path : string) : option string :=
  if IsAbs path then Some (Clean path)
  else wd ← Getwd; Some (Join wd path).

(** The empty target stands for a path that is no link. *)
Definition tryResolveLinkTarget (path : string) : res string :=
  match Lstat path with
  | None => Fail "lstat"
  | Some false => Ok ""
  | Some true =>
      match Readlink path with
      | None => Fail "readlink"
      | Some target =>
          let target := if IsAbs target then target else Join (Dir path) target in
          match EvalSymlinks target with
          | EvalTo finalTarget => Ok finalTarget
          | EvalNotExist => Ok target
          | EvalError => Fail "evalsymlinks"
          end
      end
  end.

(** [levels] is [maxSymlinkResolutionDepth - depth]. *)
Fixpoint resolveRealPathInternal (levels : nat) (path : string) (visited : gset string) : string * gset string :=
  let absPath := Clean (default path (Abs path)) in
  match levels with
  | O => (absPath, visited)
  | S levels =>
      if decide (absPath ∈ visited) then (absPath, visited)
      else
        let visited := {[ absPath ]} ∪ visited in
        let remaining := of_bytes (drop 1 (to_bytes absPath)) in
        if decide (remaining = "") then (absPath, visited)
        else
          let '(current, visited) :=
            fold_left (λ '(current, visited) segment,
              if decide (segment = "") then (current, visited)
              else
                let current := Join current segment in
                match tryResolveLinkTarget current with
                | Ok resolvedTarget =>
                    if decide (resolvedTarget = "") then (current, visited)
                    else resolveRealPathInternal levels resolvedTarget visited
                | Fail _ => (current, visited)
                end) (Split remaining sep) ("/", visited) in
          (match Abs current with Some finalAbs => Clean finalAbs | None => current end, visited)
  end.

Definition ResolveRealPath (path : string) : string :=
  (resolveRealPathInternal maxSymlinkResolutionDepth path ∅).1.

Definition isUnderRoot (fullPath fullRoot : string) : bool :=
  let fullPath := Clean fullPath in
  let fullRoot := Clean fullRoot in
  if decide (fullPath = fullRoot) then true
  else
    let fullRoot := if HasSuffix fullRoot "/" then fullRoot else fullRoot +:+ "/" in
    HasPrefix fullPath fullRoot.

Definition isToolPathPolicyAllowed (roots : list string) (path : string) : bool :=
  if decide (length roots = 0) then false
  else if decide (length roots = 1 ∧ roots !! 0 = Some "*") then true
  else
    let fullPath := ResolveRealPath path in
    existsb (λ root, if decide (root = "*") then true else isUnderRoot fullPath (ResolveRealPath root)) roots.

Definition IsReadAllowed (AllowedReadRoots : list string) (path : string) : bool :=
  isToolPathPolicyAllowed AllowedReadRoots path.
Definition IsWriteAllowed (AllowedWriteRoots : list string) (path : string) : bool :=
  isToolPathPolicyAllowed AllowedWriteRoots path.
End PathPolicy.

(** ** Specification *)

(** The names a path goes through. *)
Definition segments (path : string) : list string := filter (λ s, s ≠ "") (Split path sep).

(** A name of a directory entry. *)
Definition proper (s : string) : Prop := s ≠ "" ∧ s ≠ "." ∧ s ≠ ".." ∧ sep ∉ to_bytes s.

(** The path through the given names from the root. *)
Definition flat (segs : list string) : bytes := concat (map (λ s, sep :: to_bytes s) segs).
Definition canon (segs : list string) : string :=
  match segs with [] => "/" | _ => of_bytes (flat segs) end.

(** ** Lemmas *)

Lemma flat_cons s segs : flat (s :: segs) = (sep :: to_bytes s ++ flat segs)%list.
Proof. reflexivity. Qed.

Lemma flat_head segs : flat segs = [] ∧ segs = [] ∨ ∃ l, flat segs = sep :: l.
Proof. destruct segs as [| s segs]; [by left | right]. rewrite flat_cons. eauto. Qed.

Lemma to_bytes_canon segs : segs ≠ [] → to_bytes (canon segs) = flat segs.
Proof. intros H. destruct segs; [done |]. apply to_bytes_of_bytes. Qed.

(** [/] and the joined names. *)
Lemma canon_join segs : "/" +:+ JoinStrings segs "/" = canon segs.
Proof.
  destruct segs as [| s segs]; [done |]. rewrite <- (of_bytes_to_bytes (_ +:+ _)). unfold canon. f_equal.
  rewrite to_bytes_append. change (to_bytes "/") with [sep]. simpl app.
  revert s. induction segs as [| t segs IH]; intros s.
  - unfold flat. simpl. by rewrite app_nil_r.
  - rewrite flat_cons, <- IH. cbn [JoinStrings]. by rewrite !to_bytes_append.
Qed.

Lemma Split_canon segs : Forall proper segs → segs ≠ [] → Split (canon segs) sep = "" :: segs.
Proof.
  intros Hall Hne. unfold Split. rewrite to_bytes_canon by done.
  destruct segs as [| s segs]; [done |]. rewrite flat_cons.
  assert (∀ k, split_bytes sep (sep :: k) = [] :: split_bytes sep k) as ->.
  { intros k. apply (split_bytes_app sep [] k). by intros ?%elem_of_nil. }
  cbn [fmap list_fmap]. f_equal. clear Hne. revert s Hall.
  induction segs as [| t segs IH]; intros s Hall; inversion Hall as [| ? ? (_ & _ & _ & Hs) Hrest]; subst.
  - unfold flat. simpl. rewrite app_nil_r, split_bytes_none by done. simpl. by rewrite of_bytes_to_bytes.
  - rewrite flat_cons, split_bytes_app by done. cbn [fmap list_fmap]. rewrite IH by done. by rewrite of_bytes_to_bytes.
Qed.

Lemma IsAbs_canon segs : IsAbs (canon segs) = true.
Proof. destruct segs; [done |]. unfold IsAbs, HasPrefix. by apply has_prefix_spec; rewrite to_bytes_canon; [eexists |]. Qed.

Lemma clean_step_proper kept element :
  Forall proper kept → (sep ∉ to_bytes element) → Forall proper (clean_step true kept element).
Proof.
  intros Hk He. unfold clean_step. case_decide as H1; [done |]. case_decide as H2.
  - destruct kept as [| last rest]; [constructor |]. inversion Hk; subst.
    destruct H3 as (_ & _ & Hdd & _). by rewrite decide_False.
  - constructor; [| done]. unfold proper. tauto.
Qed.

Lemma fold_clean_proper elements : Forall (λ s, sep ∉ to_bytes s) elements → ∀ kept,
  Forall proper kept → Forall proper (fold_left (clean_step true) elements kept).
Proof.
  induction 1 as [| e es He Hes IH]; intros kept Hk; simpl; [done |]. apply IH. by apply clean_step_proper.
Qed.

Lemma fold_clean_id segs : Forall proper segs → ∀ kept,
  fold_left (clean_step true) segs kept = (rev segs ++ kept)%list.
Proof.
  induction 1 as [| s segs (H1 & H2 & H3 & _) Hsegs IH]; intros kept; simpl; [done |].
  assert (clean_step true kept s = s :: kept) as ->.
  { unfold clean_step. rewrite decide_False by tauto. by rewrite decide_False. }
  rewrite IH, <- app_assoc. done.
Qed.

(** [Clean] of a rooted path is a path of proper names, and keeps such paths. *)
Lemma Clean_rooted path : IsAbs path = true → ∃ segs, Forall proper segs ∧ Clean path = canon segs.
Proof.
  intros Habs. unfold Clean. rewrite Habs, canon_join. eexists. split; [| done].
  apply Forall_rev, fold_clean_proper; [apply Split_no_sep | constructor].
Qed.

Lemma Clean_canon segs : Forall proper segs → Clean (canon segs) = canon segs.
Proof.
  intros Hall. unfold Clean. rewrite IsAbs_canon, canon_join. f_equal.
  destruct segs as [| s segs]; [done |]. rewrite Split_canon by done.
  change (fold_left (clean_step true) ("" :: s :: segs) []) with (fold_left (clean_step true) (s :: segs) []).
  by rewrite fold_clean_id, app_nil_r, rev_involutive.
Qed.

Lemma IsAbs_append a b : IsAbs a = true → IsAbs (a +:+ b) = true.
Proof.
  unfold IsAbs, HasPrefix. rewrite !has_prefix_spec, to_bytes_append. intros [k ->]. by exists (k ++ to_bytes b)%list.
Qed.

Lemma segments_canon segs : Forall proper segs → segments (canon segs) = segs.
Proof.
  intros Hall. unfold segments. destruct segs as [| s segs]; [done |]. rewrite Split_canon by done.
  rewrite filter_cons_False by (intros H; by apply H).
  induction Hall as [| t ts (Ht & _) Hts IH]; [done |]. by rewrite filter_cons_True, IH.
Qed.

(** Names without separators are compared as wholes. *)
Lemma name_prefix (a b x y : bytes) : (sep ∉ a) → (sep ∉ b) → y = [] ∨ (∃ l, y = sep :: l) →
  (a ++ sep :: x)%list `prefix_of` (b ++ y)%list → a = b ∧ (sep :: x) `prefix_of` y.
Proof.
  revert b. induction a as [| c a IH]; intros b Ha Hb Hy Hp; simpl in Hp.
  - destruct b as [| d b]; [done |]. simpl in Hp. apply prefix_cons_inv_1 in Hp as <-. exfalso. apply Hb. by left.
  - apply not_elem_of_cons in Ha as [Hc Ha]. destruct b as [| d b]; simpl in Hp.
    + destruct Hy as [-> | [l ->]]; [by apply prefix_nil_not in Hp |].
      apply prefix_cons_inv_1 in Hp. congruence.
    + pose proof (prefix_cons_inv_1 _ _ _ _ Hp) as ->. apply prefix_cons_inv_2 in Hp.
      apply not_elem_of_cons in Hb as [_ Hb]. by destruct (IH b Ha Hb Hy Hp) as [-> ?].
Qed.

(** A proper ancestor is a prefix that ends in a separator. *)
Lemma flat_prefix rs ps : Forall proper rs → Forall proper ps →
  (flat rs ++ [sep])%list `prefix_of` flat ps ↔ ∃ p ks, ps = (rs ++ p :: ks)%list.
Proof.
  revert ps. induction rs as [| r rs IH]; intros ps Hr Hp.
  - simpl. split.
    + destruct ps as [| p ks]; [by intros ?%prefix_nil_not |]. intros _. by exists p, ks.
    + intros (p & ks & ->). rewrite flat_cons. by eexists.
  - apply Forall_cons in Hr as [(_ & _ & _ & Hrs) Hr]. destruct ps as [| p ps].
    { split; [intros H; by apply prefix_nil_not in H | by intros (? & ? & ?)]. }
    apply Forall_cons in Hp as [(_ & _ & _ & Hps) Hp]. rewrite !flat_cons. split.
    + intros H. simpl in H. apply prefix_cons_inv_2 in H. rewrite <- app_assoc in H.
      assert (to_bytes r = to_bytes p ∧ (flat rs ++ [sep])%list `prefix_of` flat ps) as [Heq Hpre].
      { destruct (flat_head rs) as [[Hf _] | [l Hf]]; rewrite Hf in *; simpl in *;
          apply name_prefix in H; try done; destruct (flat_head ps) as [[? _] | ?]; auto. }
      apply IH in Hpre as (q & ks & ->); [| done | done]. exists q, ks. simpl. f_equal.
      by rewrite <- (of_bytes_to_bytes r), Heq, of_bytes_to_bytes.
    + intros (q & ks & [= -> ->]). assert ((flat rs ++ [sep])%list `prefix_of` flat (rs ++ q :: ks)) as [k Hk].
      { apply IH; [done | done |]. by exists q, ks. }
      exists k. rewrite Hk. simpl. by rewrite <- !app_assoc.
Qed.

Lemma HasSuffix_canon segs : Forall proper segs → HasSuffix (canon segs) "/" = bool_decide (segs = []).
Proof.
  intros Hall. destruct segs as [| s segs]; [done |]. rewrite bool_decide_eq_false_2 by done.
  destruct (HasSuffix _ _) eqn:Hs; [| done]. exfalso. unfold HasSuffix in Hs.
  apply has_prefix_spec in Hs as [k Hk]. rewrite to_bytes_canon in Hk by done.
  apply (f_equal (@rev _)) in Hk. rewrite rev_involutive, rev_app_distr in Hk. change (rev (rev (to_bytes "/"))) with [sep] in Hk.
  destruct (exists_last (l := s :: segs)) as (init & t & Heq); [done |]. rewrite Heq in *.
  apply Forall_app in Hall as [_ Ht]. apply Forall_cons in Ht as [(Hne & _ & _ & Hsep) _].
  unfold flat in Hk. rewrite map_app, concat_app in Hk. simpl in Hk. rewrite app_nil_r in Hk.
  destruct (exists_last (l := to_bytes t)) as (a & c & Hc); [by destruct t |].
  rewrite Hc, (app_comm_cons a [c] sep), app_assoc in Hk. apply app_inj_tail in Hk as [_ ->].
  apply Hsep. rewrite Hc. apply elem_of_app. right. by left.
Qed.

Lemma canon_inj ps rs : Forall proper ps → Forall proper rs → canon ps = canon rs → ps = rs.
Proof. intros Hp Hr H. by rewrite <- (segments_canon ps), <- (segments_canon rs), H. Qed.

(** On cleaned paths [isUnderRoot] compares names, not characters. *)
Lemma isUnderRoot_canon ps rs : Forall proper ps → Forall proper rs →
  isUnderRoot (canon ps) (canon rs) = true ↔ rs `prefix_of` ps.
Proof.
  intros Hp Hr. unfold isUnderRoot. rewrite !Clean_canon by done. case_decide as Heq.
  { apply canon_inj in Heq as ->; done. }
  assert (ps ≠ rs) as Hne by congruence.
  assert (rs `prefix_of` ps ↔ ∃ p ks, ps = (rs ++ p :: ks)%list) as ->.
  { split.
    - intros [[| p ks] ->]; [by rewrite app_nil_r in Hne | by exists p, ks].
    - intros (p & ks & ->). by eexists. }
  rewrite HasSuffix_canon by done. rewrite <- flat_prefix by done. case_bool_decide as Hnil.
  - subst rs. unfold HasPrefix. rewrite has_prefix_spec, (to_bytes_canon ps) by done. done.
  - unfold HasPrefix. rewrite has_prefix_spec, to_bytes_append, (to_bytes_canon rs) by done.
    destruct ps as [| p ps]; [| by rewrite to_bytes_canon].
    destruct rs as [| r rs]; [done |]. rewrite flat_cons. split; intros [k Hk]; [| done].
    exfalso. simpl in Hk. injection Hk as Hk. symmetry in Hk. by destruct (to_bytes r); [destruct (flat rs) |].
Qed.

Section Resolved.
Variable wd : string.
Variable Lstat : string → option bool.
Variable Readlink : string → option string.
Variable EvalSymlinks : string → eval_result.
Hypothesis Hwd : IsAbs wd = true.

Lemma Abs_canon path : ∃ segs, Forall proper segs ∧ Abs (Some wd) path = Some (canon segs).
Proof.
  unfold Abs. destruct (IsAbs path) eqn:Habs.
  - destruct (Clean_rooted path Habs) as (segs & Hs & ->). eauto.
  - simpl. unfold Join. rewrite decide_False; [| intros ->; discriminate Hwd].
    destruct (Clean_rooted (wd +:+ "/" +:+ path)) as (segs & Hs & ->); [by apply IsAbs_append |]. eauto.
Qed.

(** A resolved path is a cleaned absolute path. *)
Lemma resolve_canon levels path visited :
  ∃ segs, Forall proper segs ∧
    (resolveRealPathInternal (Some wd) Lstat Readlink EvalSymlinks levels path visited).1 = canon segs.
Proof.
  destruct (Abs_canon path) as (segs & Hs & Habs).
  assert (Clean (default path (Abs (Some wd) path)) = canon segs) as Hclean.
  { rewrite Habs. simpl. by apply Clean_canon. }
  destruct levels as [| levels]; cbn [resolveRealPathInternal]; rewrite Hclean; [by exists segs |].
  case_decide; [by exists segs |]. case_decide; [by exists segs |].
  destruct (fold_left _ _ _) as [current visited'].
  destruct (Abs_canon current) as (segs' & Hs' & ->). exists segs'. split; [done |]. by apply Clean_canon.
Qed.
End Resolved.

(** ** Properties *)

(** C33: containment is by names of resolved paths: with an absolute working
    directory, a path is allowed exactly when some root is the star or the names
    of the resolved root begin the names of the resolved path (so a sibling
    directory whose name merely begins like the root's is refused). *)
Theorem path_policy_containment wd Lstat Readlink EvalSymlinks roots path : IsAbs wd = true →
  let resolve := ResolveRealPath (Some wd) Lstat Readlink EvalSymlinks in
  isToolPathPolicyAllowed (Some wd) Lstat Readlink EvalSymlinks roots path = true ↔
  ∃ root, root ∈ roots ∧ (root = "*" ∨ segments (resolve root) `prefix_of` segments (resolve path)).
Proof.
  intros Hwd resolve. unfold isToolPathPolicyAllowed. fold (ResolveRealPath (Some wd) Lstat Readlink EvalSymlinks).
  assert (∀ r, ∃ segs, Forall proper segs ∧ resolve r = canon segs) as Hres by (intros r; by apply resolve_canon).
  case_decide as Hlen.
  { apply length_zero_iff_nil in Hlen as ->. split; [done |]. intros (r & Hr & _). by apply elem_of_nil in Hr. }
  case_decide as Hone.
  { split; [intros _ | done]. exists "*". split; [| by left]. by apply list_elem_of_lookup_2 with 0, Hone. }
  rewrite existsb_exists. fold resolve.
  assert (∀ root, (if decide (root = "*") then true else isUnderRoot (resolve path) (resolve root)) = true ↔
    root = "*" ∨ segments (resolve root) `prefix_of` segments (resolve path)) as Hroot.
  { intros root. destruct (Hres path) as (ps & Hp & ->). destruct (Hres root) as (rs & Hr & ->).
    rewrite !segments_canon by done. case_decide; [tauto |]. rewrite isUnderRoot_canon by done. tauto. }
  split; intros (root & Hin & H); exists root; (split; [by apply list_elem_of_In |]); by apply Hroot.
Qed.

(** A link out of the root is followed; a sibling with a longer name is outside. *)
Lemma path_policy_containment_witness :
  let lstat p := Some (bool_decide (p = "/data/link")) in
  let readlink p := if decide (p = "/data/link") then Some "../etc" else None in
  let eval p := EvalTo p in
  let allowed := isToolPathPolicyAllowed (Some "/") lstat readlink eval ["/data"] in
  allowed "/data/./a/../b.txt" = true ∧ allowed "/data2/b.txt" = false ∧ allowed "/data/link/passwd" = false.
Proof.
  intros lstat readlink eval allowed. unfold allowed. split; [| split].
  - apply path_policy_containment; [done |]. exists "/data". split; [by left |]. right. vm_compute.
    by exists ["b.txt"].
  - apply not_true_iff_false. rewrite path_policy_containment by done.
    intros (r & ->%list_elem_of_singleton & [H | [k Hk]]); [done |]. by vm_compute in Hk.
  - apply not_true_iff_false. rewrite path_policy_containment by done.
    intros (r & ->%list_elem_of_singleton & [H | [k Hk]]); [done |]. by vm_compute in Hk.
Defined.
