(* ===== verification/Paths.v ===== *)
(** Paths as lists of names: [filepath.Join], [filepath.Dir] and what lies below
    a directory, on cleaned absolute paths. *)

From S2P Require Import Prelude GoStrings PathPolicy.
Local Open Scope string_scope.
Local Open Scope list_scope.

(** A path and what is below it. *)
Definition under (dir path : string) : bool := bool_decide (path = dir) || HasPrefix path (dir +:+ "/").

(** The directories a path goes through, itself the last. *)
Definition ancestors (path : string) : list string :=
  (λ k, canon (take k (segments path))) <$> seq 0 (S (length (segments path))).

(** [filepath.Join] of three elements, the first not empty. *)
Definition Join3 (a b c : string) : string := Clean (a +:+ "/" +:+ b +:+ "/" +:+ c).

#[global] Instance proper_dec s : Decision (proper s).
Proof. unfold proper. apply _. Defined.

(** Closed names. *)
Ltac name := match goal with |- proper ?s => refine (bool_decide_unpack (proper s) _); vm_compute; exact I end.

Lemma flat_app a b : flat (a ++ b) = flat a ++ flat b.
Proof. unfold flat. by rewrite map_app, concat_app. Qed.

Lemma canon_app a b : a ≠ [] → canon (a ++ b) = canon a +:+ of_bytes (flat b).
Proof.
  intros Ha. destruct (a ++ b) eqn:Hab; [by destruct a |]. rewrite <- Hab. unfold canon at 1. rewrite Hab, <- Hab, flat_app, of_bytes_app.
  by destruct a.
Qed.

Lemma canon_snoc segs name : segs ≠ [] → canon segs +:+ "/" +:+ name = canon (segs ++ [name]).
Proof.
  intros Hne. rewrite canon_app by done. f_equal. unfold flat. cbn. by rewrite app_nil_r, of_bytes_to_bytes.
Qed.

Lemma split_bytes_app_sep s l k : split_bytes s (l ++ s :: k) = split_bytes s l ++ split_bytes s k.
Proof.
  induction l as [| c l IH]; cbn; [by rewrite decide_True |]. rewrite IH. case_decide; [done |].
  destruct (split_bytes s l) eqn:Hl; [by apply split_bytes_nonempty in Hl | done].
Qed.

Lemma Split_slash a b : Split (a +:+ "/" +:+ b) sep = Split a sep ++ Split b sep.
Proof. unfold Split. rewrite !to_bytes_append. change (to_bytes "/") with [sep]. cbn [app]. by rewrite split_bytes_app_sep, fmap_app. Qed.

Lemma Split_name s : sep ∉ to_bytes s → Split s sep = [s].
Proof. intros Hs. unfold Split. rewrite split_bytes_none by done. cbn. by rewrite of_bytes_to_bytes. Qed.

(** Cleaning goes on from a cleaned directory. *)
Lemma Clean_below rs x : Forall proper rs →
  Clean (canon rs +:+ "/" +:+ x) = canon (rev (fold_left (clean_step true) (Split x sep) (rev rs))).
Proof.
  intros Hrs. unfold Clean. rewrite IsAbs_append by apply IsAbs_canon. rewrite canon_join, Split_slash, fold_left_app. do 3 f_equal.
  destruct rs as [| r rs]; [done |]. rewrite Split_canon by done.
  change (fold_left (clean_step true) ("" :: r :: rs) []) with (fold_left (clean_step true) (r :: rs) []).
  by rewrite fold_clean_id, app_nil_r.
Qed.

Lemma canon_not_empty rs : canon rs ≠ "".
Proof. intros H. apply (f_equal IsAbs) in H. by rewrite IsAbs_canon in H. Qed.

Lemma clean_step_name kept s : proper s → clean_step true kept s = s :: kept.
Proof. intros (H1 & H2 & H3 & _). unfold clean_step. rewrite decide_False by tauto. by rewrite decide_False. Qed.

Lemma Join_below rs x : Forall proper rs → Join (canon rs) x = canon (rev (fold_left (clean_step true) (Split x sep) (rev rs))).
Proof. intros Hrs. unfold Join. rewrite decide_False by apply canon_not_empty. by apply Clean_below. Qed.

Lemma Join_name rs s : Forall proper rs → proper s → Join (canon rs) s = canon (rs ++ [s]).
Proof.
  intros Hrs Hs. rewrite Join_below by done. rewrite Split_name by apply Hs. cbn. rewrite clean_step_name by done. cbn. by rewrite rev_involutive.
Qed.

Lemma Join3_names rs a b : Forall proper rs → proper a → proper b → Join3 (canon rs) a b = canon (rs ++ [a; b]).
Proof.
  intros Hrs Ha Hb. unfold Join3. rewrite Clean_below, Split_slash, (Split_name a), (Split_name b) by (done || apply Ha || apply Hb).
  cbn. rewrite !clean_step_name by done. cbn. by rewrite rev_involutive, <- app_assoc.
Qed.

Lemma Join_clean rs x : Forall proper rs → ∃ qs, Forall proper qs ∧ Join (canon rs) x = canon qs.
Proof.
  intros Hrs. rewrite Join_below by done. eexists. split; [| done]. apply Forall_rev, fold_clean_proper; [apply Split_no_sep | by apply Forall_rev].
Qed.

(** ** What is below *)

Lemma to_bytes_canon_slash rs : rs ≠ [] → to_bytes (canon rs +:+ "/") = flat rs ++ [sep].
Proof. intros H. by rewrite to_bytes_append, to_bytes_canon. Qed.

Lemma HasPrefix_canon rs ps : rs ≠ [] → Forall proper rs → Forall proper ps →
  HasPrefix (canon ps) (canon rs +:+ "/") = true ↔ ∃ p ks, ps = rs ++ p :: ks.
Proof.
  intros Hne Hr Hp. unfold HasPrefix. rewrite has_prefix_spec, to_bytes_canon_slash by done.
  destruct ps as [| p ps]; [| by rewrite to_bytes_canon, flat_prefix].
  split; [| by intros (? & ? & ?); destruct rs].
  intros Hk. exfalso. apply prefix_length in Hk. destruct rs as [| r rs]; [done |]. rewrite flat_cons in Hk. cbn in Hk. rewrite length_app in Hk. cbn in Hk. lia.
Qed.

Lemma under_canon rs ps : rs ≠ [] → Forall proper rs → Forall proper ps → under (canon rs) (canon ps) = true ↔ rs `prefix_of` ps.
Proof.
  intros Hne Hr Hp. unfold under. rewrite orb_true_iff, bool_decide_eq_true, HasPrefix_canon by done. split.
  - intros [->%canon_inj | (p & ks & ->)]; [done.. | by eexists].
  - intros [[| p ks] ->]; [left; by rewrite app_nil_r | right; by exists p, ks].
Qed.

Lemma not_under rs ps : rs ≠ [] → Forall proper rs → Forall proper ps → ¬ rs `prefix_of` ps → under (canon rs) (canon ps) = false.
Proof. intros Hne Hr Hp Hn. destruct (under _ _) eqn:Hb; [| done]. by apply under_canon in Hb. Qed.

Lemma ancestors_canon ps qs : Forall proper ps → Forall proper qs → canon ps ∈ ancestors (canon qs) ↔ ps `prefix_of` qs.
Proof.
  intros Hp Hq. unfold ancestors. rewrite segments_canon by done. rewrite list_elem_of_fmap. split.
  - intros (k & Hk & _). apply canon_inj in Hk as ->; [apply prefix_take | done | by apply Forall_take].
  - intros [k ->]. exists (length ps). rewrite take_app_length. split; [done |]. apply elem_of_seq. rewrite length_app. lia.
Qed.

Lemma ancestors_clean p qs : Forall proper qs → p ∈ ancestors (canon qs) → ∃ ps, Forall proper ps ∧ p = canon ps ∧ ps `prefix_of` qs.
Proof.
  intros Hq. unfold ancestors. rewrite segments_canon, list_elem_of_fmap by done. intros (k & -> & _).
  exists (take k qs). split; [by apply Forall_take | split; [done | apply prefix_take]].
Qed.

(** ** [filepath.Dir] *)

Lemma upto_last_sep_app l k : sep ∉ k → upto_last_sep (l ++ sep :: k) = l ++ [sep].
Proof.
  intros Hk. induction l as [| c l IH]; cbn [app upto_last_sep].
  - rewrite bool_decide_false, bool_decide_true by done. cbn [orb]. f_equal. destruct k as [| c k]; [done |]. cbn [upto_last_sep].
    apply not_elem_of_cons in Hk as [Hc Hk]. by rewrite !bool_decide_false.
  - rewrite bool_decide_true by (apply elem_of_app; right; by left). cbn [orb]. by rewrite IH.
Qed.

Lemma Dir_canon qs s : Forall proper qs → proper s → Dir (canon (qs ++ [s])) = canon qs.
Proof.
  intros Hq Hs. unfold Dir. rewrite to_bytes_canon by (by destruct qs). rewrite flat_app.
  assert (flat [s] = sep :: to_bytes s) as -> by (unfold flat; cbn; by rewrite app_nil_r).
  rewrite upto_last_sep_app by apply Hs. destruct qs as [| q qs]; [done |].
  assert (of_bytes (flat (q :: qs) ++ [sep]) = canon (q :: qs) +:+ "/" +:+ "") as ->.
  { rewrite <- (of_bytes_to_bytes (_ +:+ _)), !to_bytes_append, to_bytes_canon by done. done. }
  rewrite Clean_below by done. change (fold_left _ _ (rev (q :: qs))) with (rev (q :: qs)). by rewrite rev_involutive.
Qed.
