(* ===== verification/RecentSenders.v ===== *)
(** The recent senders of each channel: [RecentSendersStore] of
    [openclaw/core/pipeline.go].

    A file per channel, written to a temporary file that is renamed, under the
    channel's named lock.  The JSON of a file is given by [encode] and [decode];
    [fold_table] is the case folding of Unicode; [draw] are the digits [os.CreateTemp] appends; the disk may refuse what its
    contents allow.  [Record] is one operation here; the step relation takes it
    apart where other goroutines can come in between. *)

From S2P Require Import Prelude GoStrings Disk PathPolicy NamedLocks.
Local Open Scope string_scope.
Local Open Scope list_scope.

Record RecentSenderEntry := mkSender { SenderId : string; SenderName : string; LastSeenUtc : Z }.

Record RecentSendersStore := mkSenders { rootDir : string; maxEntries : nat }.

(** The directory is not made. *)
Definition NewRecentSendersStore (baseStoragePath : string) (maxEntries : Z) : RecentSendersStore :=
  mkSenders (Join baseStoragePath "recent_senders") (if (maxEntries <=? 0)%Z then 50 else Z.to_nat maxEntries).

Definition safe_byte (c : ascii) : bool := IsLetterOrDigit c || bool_decide (c ∈ [byte 95; byte 45; byte 46]).

Section Senders.
Context (fold_table : N → N).

(** The entries of the file after a sender was seen. *)
Definition seen (now : Z) (senderId senderName : string) (maxEntries : nat) (senders : list RecentSenderEntry) : list RecentSenderEntry :=
  let same s := EqualFoldRunes fold_table (SenderId s) senderId in
  let name := if bool_decide (senderName = "") then from_option SenderName senderName (last (filter same senders)) else senderName in
  take maxEntries (mkSender senderId name now :: filter (λ s, same s = false) senders).

(** What JSON keeps: valid UTF-8, and times up to the year 9999. *)
Definition sender_ok (s : RecentSenderEntry) : Prop :=
  utf8 (SenderId s) ∧ utf8 (SenderName s) ∧ (-62167219200 * 10^9 ≤ LastSeenUtc s < 253402300800 * 10^9)%Z.

Context (store : RecentSendersStore).
Context (encode : list RecentSenderEntry → string) (decode : string → option (list RecentSenderEntry)).
Context (open_ok create_ok write_ok sync_ok remove_ok : string → bool) (rename_ok : string → string → bool) (partial : string → string).

Definition getPath (channelId : string) : string :=
  match filter safe_byte (to_bytes channelId) with
  | [] => Join (rootDir store) "unknown.json"
  | safe => Join (rootDir store) (of_bytes safe +:+ ".json")
  end.

Definition GetSnapshot (channelId : string) (d : Disk) : res (list RecentSenderEntry) :=
  let path := getPath channelId in
  match d !! path with
  | Some (NFile data) =>
      if open_ok path then match decode data with Some senders => Ok senders | None => Fail "invalid JSON" end
      else Fail ("open " +:+ path)
  | _ => Fail ("open " +:+ path)
  end.

Definition TryGetLatest (channelId : string) (d : Disk) : res RecentSenderEntry :=
  if IsBlank channelId then Ok (mkSender "" "" 0)
  else data ← GetSnapshot channelId d; Ok (default (mkSender "" "" 0) (head data)).

(** A file that cannot be decoded counts as empty. *)
Definition loadUnlocked (path : string) (d : Disk) : res (list RecentSenderEntry) :=
  match d !! path with
  | None => Ok []
  | Some NDir => if open_ok path then Ok [] else Fail ("open " +:+ path)
  | Some (NFile data) => if open_ok path then Ok (default [] (decode data)) else Fail ("open " +:+ path)
  end.

(** [os.Remove] of the temporary file, if possible. *)
Definition discard (tempPath data : string) (d : Disk) : Disk :=
  if remove_ok tempPath then d else <[tempPath := NFile data]> d.

Definition is_directory (path : string) (d : Disk) : bool := match d !! path with Some NDir => true | _ => false end.

(** A cancelled context and a failing rename leave the temporary file. *)
Definition saveUnlocked (ctx_err : option string) (draw path : string) (senders : list RecentSenderEntry) (d : Disk) : res () * Disk :=
  let tempPath := path +:+ ".tmp" +:+ draw in
  let data := encode senders in
  match d !! Dir path, d !! tempPath with
  | Some NDir, None =>
      if negb (create_ok tempPath) then (Fail "failed to create temp file", d)
      else if negb (write_ok tempPath) then (Fail "failed to encode json", discard tempPath (partial data) d)
      else if negb (sync_ok tempPath) then (Fail "failed to sync temp file", discard tempPath data d)
      else match ctx_err with
           | Some e => (Fail e, <[tempPath := NFile data]> d)
           | None =>
               if rename_ok tempPath path && negb (is_directory path d) then (Ok tt, <[path := NFile data]> d)
               else (Fail ("rename " +:+ tempPath), <[tempPath := NFile data]> d)
           end
  | _, _ => (Fail "failed to create temp file", d)
  end.

(** [Record], with its lock to be had. *)
Definition Record_sender (ctx_err : option string) (now : Z) (draw channelId senderId senderName : string) (d : Disk) : res () * Disk :=
  if IsBlank channelId || IsBlank senderId then (Ok tt, d)
  else
    let path := getPath channelId in
    match loadUnlocked path d with
    | Fail e => (Fail e, d)
    | Ok file => saveUnlocked ctx_err draw path (seen now senderId senderName (maxEntries store) file) d
    end.

(** ** One call after another *)

Lemma temp_differs path draw : path ≠ path +:+ ".tmp" +:+ draw.
Proof.
  intros H. apply (f_equal (λ s, length (to_bytes s))) in H. rewrite !to_bytes_append, !length_app in H.
  change (length (to_bytes ".tmp")) with 4%nat in H. lia.
Qed.

(** What is read after a save. *)
Lemma saved_file ctx_err draw path senders d d' : saveUnlocked ctx_err draw path senders d = (Ok tt, d') → d' = <[path := NFile (encode senders)]> d.
Proof.
  unfold saveUnlocked. destruct (d !! Dir path) as [[] |]; [| done..]. destruct (d !! _); [done |].
  repeat case_match; congruence.
Qed.

(** Files elsewhere stay, whatever happens. *)
Lemma save_elsewhere ctx_err draw path senders d r d' other : saveUnlocked ctx_err draw path senders d = (r, d') →
  other ≠ path → other ≠ path +:+ ".tmp" +:+ draw → d' !! other = d !! other.
Proof.
  intros Hs H1 H2. unfold saveUnlocked, discard in Hs.
  destruct (d !! Dir path) as [[] |]; [| by injection Hs as <- <- ..]. destruct (d !! (path +:+ _)); [by injection Hs as <- <- |].
  repeat case_match; injection Hs as <- <-; by rewrite ?lookup_insert_ne.
Qed.

Lemma save_keeps ctx_err draw path senders d e d' : saveUnlocked ctx_err draw path senders d = (Fail e, d') → d' !! path = d !! path.
Proof.
  unfold saveUnlocked, discard. intros Hs. pose proof (temp_differs path draw) as Hne.
  destruct (d !! Dir path) as [[] |]; [| by injection Hs as <- <- ..].
  destruct (d !! (path +:+ _)); [by injection Hs as <- <- |].
  repeat case_match; simplify_eq; by rewrite ?lookup_insert_ne.
Qed.

(** Of two entries the later one is not the sender of the one before. *)
Fixpoint distinct_senders (senders : list RecentSenderEntry) : Prop :=
  match senders with
  | [] => True
  | s :: senders => Forall (λ t, EqualFoldRunes fold_table (SenderId t) (SenderId s) = false) senders ∧ distinct_senders senders
  end.

Lemma distinct_sublist l k : sublist l k → distinct_senders k → distinct_senders l.
Proof.
  induction 1 as [| x l k Hs IH | x l k Hs IH]; intros Hk; [done | |]; destruct Hk as [H1 H2]; [| by apply IH].
  split; [| by apply IH]. rewrite Forall_forall in *. intros t Ht. apply H1. by eapply elem_of_sublist.
Qed.

Lemma distinct_seen now senderId senderName n senders : distinct_senders senders → distinct_senders (seen now senderId senderName n senders).
Proof.
  intros Hd. eapply distinct_sublist; [apply sublist_take |]. split.
  - apply Forall_forall. intros t Ht. cbn. by apply list_elem_of_filter in Ht as [Ht _].
  - eapply distinct_sublist; [apply (sublist_filter _ senders) | done].
Qed.

Lemma seen_ok now senderId senderName n senders :
  sender_ok (mkSender senderId senderName now) → Forall sender_ok senders → Forall sender_ok (seen now senderId senderName n senders).
Proof.
  intros Hs Hall. unfold seen. apply Forall_take. constructor; [| apply Forall_forall; intros t Ht; apply list_elem_of_filter in Ht as [_ Ht]; by rewrite Forall_forall in Hall; apply Hall].
  destruct Hs as (H1 & H2 & H3). split; [done |]. split; [| done]. cbn [SenderName]. case_bool_decide; [| done].
  destruct (last _) as [t |] eqn:Hl; [| done]. cbn. apply last_Some in Hl as [l' Hl]. assert (t ∈ filter (λ s, EqualFoldRunes fold_table (SenderId s) senderId) senders) as Hin by (rewrite Hl; apply elem_of_app; right; by left).
  apply list_elem_of_filter in Hin as [_ Ht]. rewrite Forall_forall in Hall. by destruct (Hall t Ht) as (_ & ? & _).
Qed.

(** A sender that was recorded is the first of its channel, with its last
    known name if it comes without one; the others follow in their order, each
    once, as many as there is room for.  A recording that fails leaves the
    file as it was, and files of other channels are left alone; and without the
    directory, which nothing makes, every recording fails. *)
Theorem recorded_senders_come_first ctx_err now draw channelId senderId senderName d r d' :
  Record_sender ctx_err now draw channelId senderId senderName d = (r, d') →
  IsBlank channelId || IsBlank senderId = false →
  let path := getPath channelId in
  (r = Ok tt → ∃ old new,
     loadUnlocked path d = Ok old ∧ d' !! path = Some (NFile (encode new)) ∧
     new = seen now senderId senderName (maxEntries store) old ∧ (length new ≤ maxEntries store)%nat ∧
     (distinct_senders old → distinct_senders new) ∧
     ((0 < maxEntries store)%nat → SenderId <$> head new = Some senderId)) ∧
  (r ≠ Ok tt → d' !! path = d !! path) ∧
  (∀ other, other ≠ path → other ≠ path +:+ ".tmp" +:+ draw → d' !! other = d !! other) ∧
  (d !! Dir path = None → r ≠ Ok tt ∧ d' = d).
Proof.
  intros Hrec Hblank path. unfold Record_sender in Hrec. rewrite Hblank in Hrec. fold path in Hrec.
  destruct (loadUnlocked path d) as [old | e]; [| injection Hrec as <- <-; done].
  split; [| split; [| split]].
  - intros ->. apply saved_file in Hrec as ->. eexists old, _. split; [done |]. rewrite lookup_insert_eq. split; [done |].
    split; [done |]. split; [unfold seen; rewrite length_take; lia |]. split; [apply distinct_seen |].
    intros Hpos. unfold seen. by destruct (maxEntries store); [lia |].
  - intros Hr. destruct r as [[] | e]; [done |]. by eapply save_keeps.
  - intros other H1 H2. by eapply save_elsewhere.
  - intros Hdir. unfold saveUnlocked in Hrec. rewrite Hdir in Hrec. by injection Hrec as <- <-.
Qed.

(** ** Many calls at once

    [call] are the arguments of the calls.  A call waits for its channel's lock,
    loads the file, and saves it and returns the lock. *)
Record recording := mkRecording {
  channelOf : string; senderOf : string; nameOf : string; timeOf : Z; ctxOf : option string; drawOf : string
}.
Context (call : nat → recording).

Record recorders := mkRecorders { lockManager : manager; files : Disk; loaded : gmap nat (list RecentSenderEntry) }.

Inductive rec_label :=
  | RLock (l : lock_label)
  | RLoad (i : nat)
  | RAbort (i : nat)
  | RSave (i : nat) (r : res ()).

Local Abbreviation path_of := (λ i, getPath (channelOf (call i))).

Inductive rec_step (st : recorders) : rec_label → recorders → Prop :=
  | rec_arrive i m : lock_step (lockManager st) (Arrive i (channelOf (call i))) m →
      rec_step st (RLock (Arrive i (channelOf (call i)))) (mkRecorders m (files st) (loaded st))
  | rec_enter i m : lock_step (lockManager st) (Enter i) m → rec_step st (RLock (Enter i)) (mkRecorders m (files st) (loaded st))
  | rec_abandon i m : lock_step (lockManager st) (Abandon i) m → rec_step st (RLock (Abandon i)) (mkRecorders m (files st) (loaded st))
  | rec_load i c file : clients (lockManager st) !! i = Some c → holds c = true → loadUnlocked (path_of i) (files st) = Ok file →
      rec_step st (RLoad i) (mkRecorders (lockManager st) (files st) (<[i := file]> (loaded st)))
  | rec_abort i m e : loaded st !! i = None → loadUnlocked (path_of i) (files st) = Fail e → lock_step (lockManager st) (Unlock i) m →
      rec_step st (RAbort i) (mkRecorders m (files st) (loaded st))
  | rec_save i file r d m : loaded st !! i = Some file →
      saveUnlocked (ctxOf (call i)) (drawOf (call i)) (path_of i)
        (seen (timeOf (call i)) (senderOf (call i)) (nameOf (call i)) (maxEntries store) file) (files st) = (r, d) →
      lock_step (lockManager st) (Unlock i) m → rec_step st (RSave i r) (mkRecorders m d (delete i (loaded st))).

(** The saves that succeeded, and what they make of the senders of a channel
    one after the other. *)
Definition saved (l : rec_label) : option nat := match l with RSave i (Ok _) => Some i | _ => None end.
Definition replay (channel : string) (ls : list rec_label) (senders : list RecentSenderEntry) : list RecentSenderEntry :=
  foldl (λ senders i, if bool_decide (channelOf (call i) = channel)
    then seen (timeOf (call i)) (senderOf (call i)) (nameOf (call i)) (maxEntries store) senders else senders) senders (omap saved ls).

Record recorders_ok (senders : string → list RecentSenderEntry) (st : recorders) : Prop := {
  rok_locks : manager_ok (lockManager st);
  rok_keys i c : clients (lockManager st) !! i = Some c → ckey c = channelOf (call i);
  rok_senders i : Forall sender_ok (senders (channelOf (call i)));
  rok_files i : loadUnlocked (path_of i) (files st) = Ok (senders (channelOf (call i)));
  rok_loaded i file : loaded st !! i = Some file →
    file = senders (channelOf (call i)) ∧ ∃ c, clients (lockManager st) !! i = Some c ∧ holds c = true
}.

(** Lock steps change the lock of one client only. *)
Lemma lock_step_others m l m' : lock_step m l m' →
  match l with
  | Arrive i key => clients m !! i = None ∧ clients m' !! i = (λ g, mkClient key g false) <$> gates m' !! key ∧ is_Some (gates m' !! key)
  | Enter i => ∃ c d, clients m !! i = Some c ∧ holds c = false ∧ clients m' !! i = Some d ∧ ckey d = ckey c
  | Abandon i => (∃ c, clients m !! i = Some c ∧ holds c = false) ∧ clients m' !! i = None
  | Unlock i => (∃ c, clients m !! i = Some c ∧ holds c = true) ∧ clients m' !! i = None
  end ∧ ∀ j, j ≠ match l with Arrive i _ | Enter i | Abandon i | Unlock i => i end → clients m' !! j = clients m !! j.
Proof.
  intros Hstep. destruct Hstep as [i key Hi | i c lock Hi Hh Hl Hc | i c Hi Hh | i c lock Hi Hh Hl Hc].
  - unfold arrive. destruct (gates m !! key) as [l |] eqn:Hg; cbn.
    + rewrite Hg, lookup_insert_eq. split; [done |]. intros j Hj. by rewrite lookup_insert_ne.
    + rewrite !lookup_insert_eq. split; [done |]. intros j Hj. by rewrite lookup_insert_ne.
  - cbn. split; [| intros j Hj; by rewrite lookup_insert_ne]. exists c, (mkClient (ckey c) (gate c) true). by rewrite lookup_insert_eq.
  - unfold abandon. destruct (drop_ref _ _ _ _). cbn. split; [split; [by eexists | apply lookup_delete_eq] |]. intros j Hj. by rewrite lookup_delete_ne.
  - unfold unlock. destruct (drop_ref _ _ _ _). cbn. split; [split; [by eexists | apply lookup_delete_eq] |]. intros j Hj. by rewrite lookup_delete_ne.
Qed.

Context (json : ∀ senders, Forall sender_ok senders → decode (encode senders) = Some senders).
Context (valid : ∀ i, sender_ok (mkSender (senderOf (call i)) (nameOf (call i)) (timeOf (call i)))).
Context (readable : ∀ path, open_ok path = true).
Context (apart : ∀ i j, path_of i = path_of j → channelOf (call i) = channelOf (call j)).
Context (temporary : ∀ i j, path_of i ≠ path_of j +:+ ".tmp" +:+ drawOf (call j)).

Definition senders_after (l : rec_label) (senders : string → list RecentSenderEntry) (channel : string) : list RecentSenderEntry :=
  replay channel [l] (senders channel).

Lemma recorders_ok_step senders st l st' : recorders_ok senders st → rec_step st l st' → recorders_ok (senders_after l senders) st'.
Proof.
  intros [Hlocks Hkeys Hsenders Hfiles Hloaded] Hstep.
  assert (∀ l m, lock_step (lockManager st) l m → match l with Unlock _ => False | Arrive i key => key = channelOf (call i) | _ => True end →
    recorders_ok senders (mkRecorders m (files st) (loaded st))) as Hlock.
  { intros k m Hm Hk. assert (Ho := Hm). apply lock_step_others in Ho as [Hi Ho]. split; cbn; [by eapply ok_step | | done | done |].
    - intros j c Hj. destruct k as [i key | i | i | i]; [| | |done]; (destruct (decide (j = i)) as [-> |]; [| rewrite Ho in Hj by done; by apply Hkeys]).
      + destruct Hi as (_ & Hi & _). rewrite Hi in Hj. apply fmap_Some in Hj as (g & _ & ->). done.
      + destruct Hi as (c' & d & Hc & _ & Hd & Hkey). rewrite Hd in Hj. injection Hj as <-. rewrite Hkey. by apply Hkeys.
      + by rewrite (proj2 Hi) in Hj.
    - intros j file Hj. destruct (Hloaded j file Hj) as (-> & c & Hc & Hh). split; [done |]. exists c.
      destruct k as [i key | i | i | i]; [| | |done]; (destruct (decide (j = i)) as [-> |]; [exfalso | by rewrite Ho]).
      + destruct Hi as [Hi _]. congruence.
      + destruct Hi as (c' & d & Hc' & Hh' & _). congruence.
      + destruct Hi as [(c' & Hc' & Hh') _]. congruence. }
  destruct Hstep as [i m Hm | i m Hm | i m Hm | i c file Hi Hh Hload | i m e Hl Hload Hm | i file r d m Hi Hsave Hm];
    [exact (Hlock _ _ Hm eq_refl) | exact (Hlock _ _ Hm I) | exact (Hlock _ _ Hm I) | | | ].
  - split; cbn; [done.. |]. intros j file' Hj. apply lookup_insert_Some in Hj as [[<- <-] | [_ Hj]]; [| by apply Hloaded].
    rewrite Hfiles in Hload. injection Hload as <-. split; [done |]. by exists c.
  - exfalso. by rewrite Hfiles in Hload.
  - destruct (Hloaded i file Hi) as (-> & c & Hc & Hh). assert (Ho := Hm). apply lock_step_others in Ho as [[_ Hnone] Ho].
    assert (∀ j, channelOf (call j) ≠ channelOf (call i) → senders_after (RSave i r) senders (channelOf (call j)) = senders (channelOf (call j))) as Hother.
    { intros j Hj. unfold senders_after, replay. destruct r; [| done]. cbn. by rewrite bool_decide_false by done. }
    split; cbn [lockManager files loaded].
    + by eapply ok_step.
    + intros j c' Hj. destruct (decide (j = i)) as [-> |]; [by rewrite Hnone in Hj |]. rewrite Ho in Hj by done. by apply Hkeys.
    + intros j. destruct (decide (channelOf (call j) = channelOf (call i))) as [Heq | Hne]; [| rewrite Hother by done; apply Hsenders].
      unfold senders_after, replay. destruct r as [[] | e]; [| apply Hsenders]. cbn.
      case_bool_decide; [| apply Hsenders]. rewrite Heq. apply seen_ok; [done | apply Hsenders].
    + intros j. destruct (decide (channelOf (call j) = channelOf (call i))) as [Heq | Hne].
      * rewrite Heq. destruct r as [[] | e].
        -- apply saved_file in Hsave as ->. unfold loadUnlocked. rewrite lookup_insert_eq, readable, json by by apply seen_ok.
           unfold senders_after, replay. cbn. by rewrite bool_decide_true.
        -- specialize (Hfiles i). unfold loadUnlocked in *. rewrite (save_keeps _ _ _ _ _ _ _ Hsave). done.
      * rewrite Hother by done. specialize (Hfiles j). unfold loadUnlocked in *.
        rewrite (save_elsewhere _ _ _ _ _ _ _ (path_of j) Hsave); [done | | done]. intros H. by apply Hne, apart.
    + intros j file Hj. apply lookup_delete_Some in Hj as [Hne Hj]. destruct (Hloaded j file Hj) as (-> & c' & Hc' & Hh').
      split; [| exists c'; by rewrite Ho by done]. symmetry. apply Hother. intros Heq. destruct Hne. symmetry.
      assert (ckey c' = ckey c) as Hkey by (by rewrite (Hkeys j c'), (Hkeys i c)).
      eapply (ok_one _ Hlocks j i c' c); [done.. | | done | done].
      assert (gates (lockManager st) !! ckey c' = Some (gate c')) as H1 by by eapply ok_gate.
      assert (gates (lockManager st) !! ckey c = Some (gate c)) as H2 by by eapply ok_gate.
      rewrite Hkey in H1. congruence.
Qed.

(** C25: However many recordings of however many channels run at once, none is
    lost: the senders of a channel are those its successful recordings make one
    after the other, in the order in which they were saved.  Assumed of the
    section: senders and names are valid UTF-8 and times are ones JSON keeps, a
    file that is there can be read, no other channel shares the file of the
    channel, and temporary files get names of their own. *)
Theorem no_recording_is_lost d ls st senders :
  (∀ i, loadUnlocked (path_of i) d = Ok (senders (channelOf (call i))) ∧ Forall sender_ok (senders (channelOf (call i)))) →
  steps rec_step (mkRecorders NewNamedLockManager d ∅) ls st →
  ∀ i, loadUnlocked (path_of i) (files st) = Ok (replay (channelOf (call i)) ls (senders (channelOf (call i)))).
Proof.
  intros Hinit Hsteps i.
  assert (∀ ls senders st st', recorders_ok senders st → steps rec_step st ls st' →
    recorders_ok (λ channel, replay channel ls (senders channel)) st') as Hrun.
  { clear -json valid readable apart temporary. induction ls as [| l ls IH]; intros senders st st' Hok Hsteps; inversion Hsteps as [| ? ? s1 ? ? Hstep Hrest]; subst; [done |].
    eapply recorders_ok_step in Hok; [| exact Hstep]. specialize (IH _ _ _ Hok Hrest).
    destruct IH as [H1 H2 H3 H4 H5].
    assert (∀ channel, replay channel ls (senders_after l senders channel) = replay channel (l :: ls) (senders channel)) as Heq.
    { intros channel. unfold senders_after, replay. cbn [omap list_omap]. destruct (saved l); done. }
    split; [done | done | intros j; rewrite <- Heq; apply H3 | intros j; rewrite <- Heq; apply H4 | intros j file Hj; rewrite <- Heq; by apply H5]. }
  eapply Hrun in Hsteps; [by apply (rok_files _ _ Hsteps) |].
  split; cbn; [apply ok_new | by intros j c | intros j; apply Hinit | intros j; apply Hinit | by intros j file].
Qed.
End Senders.

(** ** Examples *)

(** A codec for the examples: the digits of a number that stands for the list. *)
Fixpoint pos_text (p : positive) : string :=
  match p with xH => "" | xO p => String (byte 48) (pos_text p) | xI p => String (byte 49) (pos_text p) end.
Fixpoint text_pos (s : string) : positive :=
  match s with "" => xH | String c s => if bool_decide (c = byte 48) then xO (text_pos s) else xI (text_pos s) end.
Definition sample_encode (senders : list RecentSenderEntry) : string :=
  pos_text (encode (map (λ s, (SenderId s, SenderName s, LastSeenUtc s)) senders)).
Definition sample_decode (s : string) : option (list RecentSenderEntry) :=
  map (λ '(id, name, t), mkSender id name t) <$> (countable.decode (text_pos s) : option (list (string * string * Z))).

Lemma text_pos_text p : text_pos (pos_text p) = p.
Proof.
  induction p as [p IH | p IH |]; cbn [pos_text text_pos]; [| | done].
  - by rewrite bool_decide_false, IH.
  - by rewrite bool_decide_true, IH.
Qed.

Lemma sample_codec senders : sample_decode (sample_encode senders) = Some senders.
Proof.
  unfold sample_decode, sample_encode. rewrite text_pos_text, decode_encode. cbn [fmap option_fmap option_map]. f_equal.
  rewrite map_map. rewrite <- (map_id senders) at 2. apply map_ext. by intros [? ? ?].
Qed.

Definition sample_senders : RecentSendersStore := mkSenders "/d" 50.
Definition sample_root : Disk := {["/d" := NDir]}.

Lemma recorded_senders_come_first_witness :
  ∃ d', Record_sender id sample_senders sample_encode sample_decode (λ _, true) (λ _, true) (λ _, true) (λ _, true) (λ _, true) (λ _ _, true) id
      None 5 "1" "telegram" "x" "" sample_root = (Ok tt, d') ∧
    d' !! "/d" = Some NDir ∧ ∃ new, d' !! "/d/telegram.json" = Some (NFile (sample_encode new)) ∧ SenderId <$> head new = Some "x".
Proof.
  destruct (Record_sender id sample_senders sample_encode sample_decode (λ _, true) (λ _, true) (λ _, true) (λ _, true) (λ _, true) (λ _ _, true) id
      None 5 "1" "telegram" "x" "" sample_root) as [r d'] eqn:Hrec.
  assert (r = Ok tt) as -> by (change r with (r, d').1; rewrite <- Hrec; by vm_compute).
  exists d'. split; [done |].
  destruct (recorded_senders_come_first id sample_senders sample_encode sample_decode (λ _, true) (λ _, true) (λ _, true) (λ _, true) (λ _, true)
    (λ _ _, true) id None 5 "1" "telegram" "x" "" sample_root (Ok tt) d' Hrec ltac:(by vm_compute)) as (H1 & _ & H3 & _).
  split; [by rewrite H3 by by vm_compute |]. destruct (H1 eq_refl) as (old & new & _ & Hnew & _ & _ & _ & Hhead).
  exists new. split; [done |]. apply Hhead. cbn. lia.
Defined.

(** One recording. *)
Definition one_call (_ : nat) : recording := mkRecording "telegram" "x" "" 5 None "1".

Local Lemma pair_of {A B} (x : A * B) r : x.1 = r → x = (r, x.2).
Proof. by destruct x; intros <-. Qed.

Local Ltac lock_moves := first
  [ apply step_arrive; by vm_compute
  | eapply step_enter; [by vm_compute | by vm_compute | by vm_compute | by vm_compute]
  | eapply step_unlock; [by vm_compute | by vm_compute | by vm_compute | by vm_compute] ].
Local Ltac moves tac := eapply steps_cons; [tac | cbn [lockManager files loaded]].

Lemma no_recording_is_lost_witness :
  ∃ ls st, steps (rec_step id sample_senders sample_encode sample_decode (λ _, true) (λ _, true) (λ _, true) (λ _, true) (λ _, true) (λ _ _, true) id one_call)
      (mkRecorders NewNamedLockManager sample_root ∅) ls st ∧
    loadUnlocked sample_decode (λ _, true) "/d/telegram.json" (files st) = Ok [mkSender "x" "" 5].
Proof.
  set (step := rec_step _ _ _ _ _ _ _ _ _ _ _ _).
  assert (∃ st, steps step (mkRecorders NewNamedLockManager sample_root ∅)
    [RLock (Arrive 0 "telegram"); RLock (Enter 0); RLoad 0; RSave 0 (Ok tt)] st) as [st Hst].
  { eexists. moves ltac:(apply rec_arrive; lock_moves). moves ltac:(apply rec_enter; lock_moves).
    moves ltac:(eapply rec_load; [by vm_compute | by vm_compute | by vm_compute]).
    moves ltac:(eapply rec_save; [by vm_compute | apply pair_of; by vm_compute | lock_moves]). constructor. }
  exists [RLock (Arrive 0 "telegram"); RLock (Enter 0); RLoad 0; RSave 0 (Ok tt)], st. split; [exact Hst |].
  refine (no_recording_is_lost id sample_senders sample_encode sample_decode (λ _, true) (λ _, true) (λ _, true) (λ _, true) (λ _, true)
    (λ _ _, true) id one_call _ _ _ _ _ sample_root _ st (λ _, []) _ Hst 0); [by intros; apply sample_codec | | done | done | | ].
  - intros i. split; [by vm_compute |]. split; [by vm_compute |]. by split; vm_compute.
  - intros i j. by vm_compute.
  - intros i. split; [by vm_compute | constructor].
Defined.

(** Channels whose names differ in other bytes than letters, digits, [_], [-]
    and [.] share a file but not its lock: of two recordings that both succeed,
    one is lost. *)
Definition two_channels (i : nat) : recording :=
  if bool_decide (i = 0%nat) then mkRecording "a/b" "x" "" 5 None "1" else mkRecording "ab" "y" "" 6 None "2".

Example shared_files_lose_recordings :
  ∃ st, steps (rec_step id sample_senders sample_encode sample_decode (λ _, true) (λ _, true) (λ _, true) (λ _, true) (λ _, true) (λ _ _, true) id two_channels)
      (mkRecorders NewNamedLockManager sample_root ∅)
      [RLock (Arrive 0 (channelOf (two_channels 0))); RLock (Enter 0); RLoad 0; RLock (Arrive 1 (channelOf (two_channels 1))); RLock (Enter 1); RLoad 1; RSave 0 (Ok tt); RSave 1 (Ok tt)] st ∧
    loadUnlocked sample_decode (λ _, true) "/d/ab.json" (files st) = Ok [mkSender "y" "" 6].
Proof.
  eexists. split.
  - moves ltac:(apply rec_arrive; lock_moves). moves ltac:(apply rec_enter; lock_moves).
    moves ltac:(eapply rec_load; [by vm_compute | by vm_compute | by vm_compute]).
    moves ltac:(apply rec_arrive; lock_moves). moves ltac:(apply rec_enter; lock_moves).
    moves ltac:(eapply rec_load; [by vm_compute | by vm_compute | by vm_compute]).
    moves ltac:(eapply rec_save; [by vm_compute | apply pair_of; by vm_compute | lock_moves]).
    moves ltac:(eapply rec_save; [by vm_compute | apply pair_of; by vm_compute | lock_moves]). constructor.
  - by vm_compute.
Qed.
