(* ===== verification/ApplyPatch.v ===== *)
(** The apply_patch tool: [openclaw/agent/tool/applypatch/tool.go].

    Decoding the JSON arguments, the JSON text of a list of lines and the tables
    of [strings.EqualFold] are parameters, as are the file system of the path
    policy and the disk's answers. *)

From S2P Require Import Prelude GoStrings PathPolicy Disk.
Local Open Scope string_scope.
Local Open Scope Z_scope.

Record Hunk := mkHunk { OriginalStart : Z; RemoveLines : list string; AddLines : list string }.

(** ** Parsing *)

(** [util.IndexOf]; [-1] when there is none. *)
Definition IndexOf (s substr : string) (startIndex : Z) : Z :=
  if (startIndex <? 0) || (Z.of_nat (String.length s) <? startIndex) then -1
  else match index_bytes (to_bytes substr) (drop (Z.to_nat startIndex) (to_bytes s)) with
       | Some result => Z.of_nat result + startIndex
       | None => -1
       end.

Definition parseHunkStart (header : string) : Z :=
  let idx := IndexOf header "-" 3 in
  if idx <? 0 then 1
  else
    let comma := IndexOf header "," idx in
    let stop := if comma <=? 0 then IndexOf header " " (idx + 1) else comma in
    let stop := if stop <? 0 then Z.of_nat (String.length header) else stop in
    if (idx + 1 <? 0) || (Z.of_nat (String.length header) <? stop) || (stop <? idx + 1) then 1
    else match Atoi (of_bytes (take (Z.to_nat (stop - (idx + 1))) (drop (Z.to_nat (idx + 1)) (to_bytes header)))) with
         | Some start => start
         | None => 1
         end.

(** [strings.TrimRight(rawLine, "\r")] *)
Fixpoint drop_crs (l : bytes) : bytes :=
  match l with
  | c :: l' => if decide (c = carriage_return) then drop_crs l' else l
  | [] => []
  end.
Definition trim_right_cr (rawLine : string) : string := of_bytes (rev (drop_crs (rev (to_bytes rawLine)))).

(** The loop body of [parseHunks]: the hunks finished and the one in progress. *)
Definition parse_line (st : list Hunk * option Hunk) (rawLine : string) : list Hunk * option Hunk :=
  let '(hunks, current) := st in
  let line := trim_right_cr rawLine in
  let rest := of_bytes (drop 1 (to_bytes line)) in
  if HasPrefix line "@@" then
    let hunks := match current with Some h => (hunks ++ [h])%list | None => hunks end in
    (hunks, Some (mkHunk (parseHunkStart line) [] []))
  else match current with
       | None => st
       | Some h =>
           if HasPrefix line "-" then (hunks, Some (mkHunk (OriginalStart h) (RemoveLines h ++ [rest])%list (AddLines h)))
           else if HasPrefix line "+" then (hunks, Some (mkHunk (OriginalStart h) (RemoveLines h) (AddLines h ++ [rest])%list))
           else st
       end.

Definition parseHunks (patch : string) : list Hunk :=
  let '(hunks, current) := fold_left parse_line (Split patch newline) ([], None) in
  match current with Some h => (hunks ++ [h])%list | None => hunks end.

(** ** Application *)

(** [slices.Delete(r, k, k+1)] and [slices.Insert(r, k, line)] for a position in
    range, which the checks of [apply_hunk] ensure. *)
Definition delete_at (k : nat) (r : list string) : list string := (take k r ++ drop (S k) r)%list.
Definition insert_at (k : nat) (line : string) (r : list string) : list string := (take k r ++ line :: drop k r)%list.

Section Apply.
(** [strings.EqualFold] *)
Variable EqualFold : string → string → bool.

(** The validation loop from line [i] on, against the lines from there. *)
Fixpoint check_removed (start i : Z) (expected actual : list string) : res () :=
  match expected, actual with
  | [], _ => Ok tt
  | e :: expected, a :: actual =>
      let e := TrimSpace e in
      let a := TrimSpace a in
      if EqualFold e a then check_removed start (i + 1) expected actual
      else Fail ("Error: Hunk at line " +:+ Itoa (wrap64 (start + i)) +:+ " mismatch. Expected: " +:+
                 String (byte 34) (Truncate e 60) +:+ String (byte 34) " Got: " +:+
                 String (byte 34) (Truncate a 60) +:+ String (byte 34) "")
  | _ :: _, [] => Fail "index out of range"
  end.

(** One round of the loop over the hunks. *)
Definition apply_hunk (st : list string * Z) (hunk : Hunk) : res (list string * Z) :=
  let '(result, offset) := st in
  let startLine := wrap64 (OriginalStart hunk - 1 + offset) in
  let len := Z.of_nat (length result) in
  let removed := Z.of_nat (length (RemoveLines hunk)) in
  if (startLine <? 0) || (len <? startLine) then
    Fail ("Error: Hunk at line " +:+ Itoa (OriginalStart hunk) +:+ " is out of range (file has " +:+ Itoa len +:+ " lines).")
  else if len <? startLine + removed then
    Fail ("Error: Hunk at line " +:+ Itoa (OriginalStart hunk) +:+ " expects " +:+ Itoa removed +:+
          " lines to remove, but only " +:+ Itoa (len - startLine) +:+ " lines remain.")
  else
    let k := Z.to_nat startLine in
    _ ← check_removed (OriginalStart hunk) 0 (RemoveLines hunk) (drop k result);
    let result := Nat.iter (length (RemoveLines hunk)) (delete_at k) result in
    let result := fold_left (λ r line, insert_at k line r) (rev (AddLines hunk)) result in
    Ok (result, wrap64 (offset + Z.of_nat (length (AddLines hunk)) - removed)).

Fixpoint apply_hunks (st : list string * Z) (hunks : list Hunk) : res (list string) :=
  match hunks with
  | [] => Ok st.1
  | hunk :: hunks => st ← apply_hunk st hunk; apply_hunks st hunks
  end.

(** ** The tool *)

Section Tool.
Variable Getwd : option string.
Variable Lstat : string → option bool.
Variable Readlink : string → option string.
Variable EvalSymlinks : string → eval_result.
Variables (write_ok remove_ok : string → bool) (rename_ok : string → string → bool).
(** The JSON text of a list of lines. *)
Variable marshal_lines : list string → string.

(** What [json.Marshal] makes of the patched lines: the clone of a nil slice is
    nil, and stays nil when nothing is inserted. *)
Definition saved_text (originalLines result : list string) : string :=
  match originalLines, result with
  | [], [] => "null"
  | _, _ => marshal_lines result
  end.

(** [args] are the decoded "path" and "patch" arguments. *)
Definition Execute (ReadOnlyMode : bool) (AllowedWriteRoots : list string) (ctx_err : option string)
    (args : res (option string * option string)) (d : Disk) : res string * Disk :=
  if ReadOnlyMode then
    (Fail "Error: apply_patch is disabled because Tooling.ReadOnlyMode is enabled.", d)
  else
    match args with
    | Fail e => (Fail e, d)
    | Ok (path, patch) =>
        if IsBlank (default "" path) then (Fail "Error: 'path' is required.", d)
        else if IsBlank (default "" patch) then (Fail "Error: 'patch' is required.", d)
        else
          let path := default "" path in
          let resolvedPath := ResolveRealPath Getwd Lstat Readlink EvalSymlinks path in
          if negb (IsWriteAllowed Getwd Lstat Readlink EvalSymlinks AllowedWriteRoots resolvedPath) then
            (Fail ("Error: Write access denied for path: " +:+ path), d)
          else if negb (FileExists d resolvedPath) then (Fail ("Error: File not found: " +:+ path), d)
          else
            match ReadAllLines ctx_err d resolvedPath with
            | Fail e => (Fail e, d)
            | Ok originalLines =>
                let hunks := parseHunks (default "" patch) in
                if decide (length hunks = 0%nat) then
                  (Fail "Error: No valid hunks found in patch. Use @@ -start,count +start,count @@ headers.", d)
                else
                  match apply_hunks (originalLines, 0) hunks with
                  | Fail e => (Fail e, d)
                  | Ok result =>
                      match SaveOneFile write_ok remove_ok rename_ok ctx_err resolvedPath
                              (saved_text originalLines result) d with
                      | (Fail e, d) => (Fail e, d)
                      | (Ok _, d) =>
                          (Ok ("Applied " +:+ Itoa (Z.of_nat (length hunks)) +:+ " hunk(s) to " +:+ path +:+ "."), d)
                      end
                  end
            end
    end.
End Tool.

(** ** Specification *)

(** The position before which a hunk applies, counted from 0. *)
Definition position (h : Hunk) : nat := Z.to_nat (OriginalStart h - 1).

(** The hunks are in order and do not overlap. *)
Fixpoint ordered (pos : nat) (hunks : list Hunk) : Prop :=
  match hunks with
  | [] => True
  | h :: hunks => 1 ≤ OriginalStart h ≤ max_int64 ∧ (pos ≤ position h)%nat ∧
                  ordered (position h + length (RemoveLines h)) hunks
  end.

(** The lines a hunk removes are in the file at its position, up to white
    space around them and case. *)
Definition fits (file : list string) (h : Hunk) : Prop :=
  (position h + length (RemoveLines h) ≤ length file)%nat ∧
  Forall2 (λ e a, EqualFold (TrimSpace e) (TrimSpace a) = true)
    (RemoveLines h) (take (length (RemoveLines h)) (drop (position h) file)).

#[global] Instance fits_dec file h : Decision (fits file h).
Proof. apply _. Defined.

(** The file from line [pos] on with every hunk's lines replaced where the
    hunk stands in the original file. *)
Fixpoint patched (file : list string) (pos : nat) (hunks : list Hunk) : list string :=
  match hunks with
  | [] => drop pos file
  | h :: hunks =>
      (take (position h - pos) (drop pos file) ++ AddLines h ++
       patched file (position h + length (RemoveLines h)) hunks)%list
  end.

Definition added (hunks : list Hunk) : nat := length (concat (map AddLines hunks)).
End Apply.

(** ** Lemmas *)

Lemma take_drop_at {A} (k : nat) (l r : list A) : length l = k → take k (l ++ r) = l ∧ drop k (l ++ r) = r.
Proof. intros <-. by rewrite take_app_length, drop_app_length. Qed.

Lemma delete_iter n k r : (k + n ≤ length r)%nat →
  Nat.iter n (delete_at k) r = (take k r ++ drop (k + n) r)%list.
Proof.
  induction n as [| n IH]; intros H; simpl; [by rewrite Nat.add_0_r, take_drop |].
  rewrite IH by lia. unfold delete_at.
  destruct (take_drop_at k (take k r) (drop (k + n) r)) as [-> Hd]; [rewrite length_take; lia |].
  f_equal. rewrite <- (Nat.add_1_r k), <- drop_drop, Hd, drop_drop. f_equal. lia.
Qed.

Lemma insert_fold adds k r : (k ≤ length r)%nat →
  fold_left (λ r line, insert_at k line r) (rev adds) r = (take k r ++ adds ++ drop k r)%list.
Proof.
  intros Hk. induction adds as [| a adds IH]; simpl; [by rewrite take_drop |].
  rewrite fold_left_app, IH. simpl. unfold insert_at.
  by destruct (take_drop_at k (take k r) (adds ++ drop k r)%list) as [-> ->]; [rewrite length_take; lia |].
Qed.

Lemma check_removed_ok eqf start expected : ∀ i actual, (length expected ≤ length actual)%nat →
  check_removed eqf start i expected actual = Ok tt ↔
  Forall2 (λ e a, eqf (TrimSpace e) (TrimSpace a) = true) expected (take (length expected) actual).
Proof.
  induction expected as [| e expected IH]; intros i [| a actual] Hlen; simpl in *; try lia.
  - split; [constructor | done].
  - split; [constructor | done].
  - destruct (eqf (TrimSpace e) (TrimSpace a)) eqn:He.
    + rewrite IH by lia. split; [by constructor | by inversion 1].
    + split; [done |]. inversion 1. congruence.
Qed.

Lemma wrap64_over x : max_int64 < x ≤ 2 * max_int64 → wrap64 x < 0.
Proof.
  intros H. unfold wrap64, max_int64 in *. rewrite (Z.mod_diveq 1 (x + 2^63) (2^64)); lia.
Qed.

(** One hunk on a file whose part up to [pos] has become [done_]. *)
Lemma apply_hunk_at eqf file done_ pos h :
  (pos ≤ length file)%nat → Z.of_nat (length file) ≤ max_int64 → 1 ≤ OriginalStart h ≤ max_int64 → (pos ≤ position h)%nat →
  Z.of_nat (length done_ + length (AddLines h) + (length file - pos)) ≤ max_int64 →
  let st := ((done_ ++ drop pos file)%list, Z.of_nat (length done_) - Z.of_nat pos) in
  (fits eqf file h →
     let done' := (done_ ++ take (position h - pos) (drop pos file) ++ AddLines h)%list in
     let pos' := (position h + length (RemoveLines h))%nat in
     apply_hunk eqf st h = Ok ((done' ++ drop pos' file)%list, Z.of_nat (length done') - Z.of_nat pos')) ∧
  (¬ fits eqf file h → ∃ e, apply_hunk eqf st h = Fail e).
Proof.
  intros Hpos Hfile Hstart Hle Hsize st. unfold apply_hunk, st. cbv zeta.
  set (gap := (position h - pos)%nat). set (rem := length (RemoveLines h)).
  assert (OriginalStart h - 1 + (Z.of_nat (length done_) - Z.of_nat pos) = Z.of_nat (length done_ + gap)) as ->.
  { unfold gap, position in *. lia. }
  assert (Z.of_nat (length (done_ ++ drop pos file)) = Z.of_nat (length done_ + (length file - pos))) as Hlen.
  { rewrite length_app, length_drop. done. }
  rewrite Hlen. destruct (decide (Z.of_nat (length done_ + gap) ≤ max_int64)) as [Hfit | Hover].
  2: { assert (wrap64 (Z.of_nat (length done_ + gap)) < 0) as Hneg.
       { apply wrap64_over. unfold max_int64, gap, position in *. lia. }
       rewrite (proj2 (Z.ltb_lt _ 0) Hneg). simpl. split; [| eauto].
       intros [Hf _]. unfold gap, position in *. lia. }
  rewrite wrap64_id by (unfold in_int64, min_int64; lia).
  rewrite (proj2 (Z.ltb_ge (Z.of_nat (length done_ + gap)) 0)) by lia. simpl orb.
  destruct (Z.ltb_spec (Z.of_nat (length done_ + (length file - pos))) (Z.of_nat (length done_ + gap))) as [Hout | Hin].
  { split; [| eauto]. intros [Hf _]. unfold gap in *. lia. }
  destruct (Z.ltb_spec (Z.of_nat (length done_ + (length file - pos))) (Z.of_nat (length done_ + gap) + Z.of_nat rem))
    as [Hshort | Hrem].
  { split; [| eauto]. intros [Hf _]. unfold gap, rem in *. lia. }
  rewrite Nat2Z.id.
  assert (drop (length done_ + gap) (done_ ++ drop pos file) = drop (position h) file)%list as Hdrop.
  { rewrite <- drop_drop, drop_app_length, drop_drop. f_equal. unfold gap. lia. }
  assert (check_removed eqf (OriginalStart h) 0 (RemoveLines h) (drop (position h) file) = Ok tt ↔ fits eqf file h) as Hcheck.
  { rewrite check_removed_ok; [| rewrite length_drop; unfold gap, rem in *; lia].
    unfold fits, gap, rem in *. split; [| by intros []]. intros H. split; [lia | done]. }
  rewrite Hdrop. split.
  - intros Hfits. rewrite (proj2 Hcheck Hfits). simpl. f_equal.
    rewrite delete_iter by (rewrite length_app, length_drop; unfold rem in *; lia).
    rewrite <- (drop_drop _ _ (length done_ + gap)), Hdrop, drop_drop.
    assert (take (length done_ + gap) (done_ ++ drop pos file) = done_ ++ take gap (drop pos file))%list as ->.
    { rewrite take_app_add. done. }
    assert (length (done_ ++ take gap (drop pos file)) = (length done_ + gap)%nat) as Hk.
    { rewrite length_app, length_take, length_drop. lia. }
    rewrite insert_fold by (rewrite length_app, Hk; lia).
    destruct (take_drop_at _ (done_ ++ take gap (drop pos file))%list (drop (position h + rem) file) Hk) as [-> ->].
    f_equal; [by rewrite <- !app_assoc |].
    rewrite wrap64_id.
    + rewrite !length_app, length_take, length_drop. unfold gap, rem in *. lia.
    + unfold in_int64, min_int64, max_int64 in *. unfold gap, rem in *. lia.
  - intros Hno. destruct (check_removed _ _ _ _ _) as [[] | e] eqn:Hc; [by destruct Hno; apply Hcheck |].
    by exists e.
Qed.

Lemma added_cons h hunks : added (h :: hunks) = (length (AddLines h) + added hunks)%nat.
Proof. unfold added. simpl. by rewrite length_app. Qed.

Lemma apply_hunks_at eqf file hunks : Z.of_nat (length file) ≤ max_int64 → ∀ done_ pos,
  (pos ≤ length file)%nat → ordered pos hunks →
  Z.of_nat (length done_ + added hunks + (length file - pos)) ≤ max_int64 → ∀ r,
  apply_hunks eqf ((done_ ++ drop pos file)%list, Z.of_nat (length done_) - Z.of_nat pos) hunks = Ok r ↔
  Forall (fits eqf file) hunks ∧ r = (done_ ++ patched file pos hunks)%list.
Proof.
  intros Hfile. induction hunks as [| h hunks IH]; intros done_ pos Hpos Hord Hsize r.
  { simpl. split; [by intros [= <-] | by intros [_ ->]]. }
  destruct Hord as (Hstart & Hle & Hord). rewrite added_cons in Hsize.
  destruct (apply_hunk_at eqf file done_ pos h) as [Hyes Hno]; [done.. | lia |].
  cbn [apply_hunks]. destruct (decide (fits eqf file h)) as [Hfits | Hnot].
  2: { destruct (Hno Hnot) as [e ->]. split; [done |]. by intros [[? _]%Forall_cons _]. }
  rewrite (Hyes Hfits), Forall_cons. cbn [patched]. destruct Hfits as [Hlen Hf].
  unfold mbind, res_bind. rewrite IH; [| done | done |].
  - rewrite <- !app_assoc. assert (fits eqf file h) by done. tauto.
  - rewrite !length_app, length_take, length_drop. lia.
Qed.

(** ** Properties *)

(** C35: for hunks in order the running offset is right: applying them one
    after the other succeeds exactly when every hunk's removed lines stand at
    its place in the original file, and then gives the original file with
    every hunk's lines replaced at its place. *)
Theorem hunks_apply_at_original_places eqf file hunks r :
  ordered 0 hunks → Z.of_nat (length file + added hunks) ≤ max_int64 →
  apply_hunks eqf (file, 0) hunks = Ok r ↔ Forall (fits eqf file) hunks ∧ r = patched file 0 hunks.
Proof.
  intros Hord Hsize. apply (apply_hunks_at eqf file hunks ltac:(lia) [] 0); [lia | done | simpl; lia].
Qed.

Definition same (a b : string) : bool := bool_decide (a = b).

Lemma hunks_apply_at_original_places_witness :
  let file := ["a"; "b"; "c"; "d"] in
  let hunks := [mkHunk 1 ["a"] ["x"; "y"; "z"]; mkHunk 3 ["c"; "d"] ["w"]] in
  apply_hunks same (file, 0) hunks = Ok ["x"; "y"; "z"; "b"; "w"].
Proof.
  intros file hunks. apply hunks_apply_at_original_places.
  - unfold hunks, max_int64, position. cbn [ordered OriginalStart RemoveLines length].
    unfold position. cbn [OriginalStart]. split_and!; try done; lia.
  - by vm_compute.
  - split; [| by vm_compute]. apply (bool_decide_unpack (Forall (fits same file) hunks)). by vm_compute.
Defined.

(** The tool writes only where it may: whatever happens, only the resolved
    path of the argument and its temporary file can change, and only when the
    write policy allows that path; and what it writes on success is not the
    patched text but the JSON text of the list of its lines. *)
Theorem apply_patch_confined eqf Getwd Lstat Readlink EvalSymlinks write_ok remove_ok rename_ok marshal_lines
    ro roots ctx_err args d r d' :
  Execute eqf Getwd Lstat Readlink EvalSymlinks write_ok remove_ok rename_ok marshal_lines ro roots ctx_err args d = (r, d') →
  (∀ p, d' !! p ≠ d !! p →
     ∃ path patch, args = Ok (Some path, patch) ∧ ro = false ∧
       let resolved := ResolveRealPath Getwd Lstat Readlink EvalSymlinks path in
       IsWriteAllowed Getwd Lstat Readlink EvalSymlinks roots resolved = true ∧
       (p = resolved ∨ p = resolved +:+ ".tmp")) ∧
  (is_ok r = true →
     ∃ path patch lines result, args = Ok (Some path, Some patch) ∧
       let resolved := ResolveRealPath Getwd Lstat Readlink EvalSymlinks path in
       ReadAllLines ctx_err d resolved = Ok lines ∧
       apply_hunks eqf (lines, 0) (parseHunks patch) = Ok result ∧
       d' !! resolved = Some (NFile (saved_text marshal_lines lines result))).
Proof.
  unfold Execute. destruct ro; [by intros [= <- <-] |].
  destruct args as [[path patch] | e]; [| by intros [= <- <-]].
  destruct (IsBlank (default "" path)) eqn:Hp; [by intros [= <- <-] |].
  destruct path as [path |]; [| discriminate Hp].
  destruct (IsBlank (default "" patch)) eqn:Hb; [by intros [= <- <-] |].
  destruct patch as [patch |]; [| discriminate Hb]. simpl default.
  set (resolved := ResolveRealPath Getwd Lstat Readlink EvalSymlinks path).
  destruct (IsWriteAllowed _ _ _ _ _ _) eqn:Hw; simpl negb; cbn match; [| by intros [= <- <-]].
  destruct (FileExists d resolved); simpl negb; cbn match; [| by intros [= <- <-]].
  destruct (ReadAllLines ctx_err d resolved) as [lines | e] eqn:Hl; [| by intros [= <- <-]].
  case_decide; [by intros [= <- <-] |].
  destruct (apply_hunks eqf (lines, 0) (parseHunks patch)) as [result | e] eqn:Ha; [| by intros [= <- <-]].
  destruct (SaveOneFile _ _ _ _ _ _ _) as [r1 d1] eqn:Hsave. apply SaveOneFile_spec in Hsave as [Hframe Hok].
  assert (∀ p, d1 !! p ≠ d !! p → p = resolved ∨ p = resolved +:+ ".tmp") as Hwhere.
  { intros p Hne. destruct (decide (p = resolved)); [by left |].
    destruct (decide (p = resolved +:+ ".tmp")); [by right |]. by destruct Hne; apply Hframe. }
  destruct r1 as [[] | e]; intros [= <- <-]; (split; [intros p Hne; exists path, (Some patch); eauto 10 |]); [| done].
  intros _. exists path, patch, lines, result. destruct (Hok eq_refl) as [Hd _]. eauto.
Qed.

(** A JSON text for lines without special characters. *)
Definition plain_json (ls : list string) : string :=
  let q := String (byte 34) "" in "[" +:+ JoinStrings ((λ l, q +:+ l +:+ q) <$> ls) "," +:+ "]".

(** Patching one line of a two-line file leaves one line of JSON. *)
Lemma apply_patch_confined_witness :
  let nl := String (byte 10) "" in
  let q := String (byte 34) "" in
  let no_link (p : string) := Some false in
  let run := Execute same (Some "/") no_link (λ _, None) EvalTo (λ _, true) (λ _, true) (λ _ _, true) plain_json
               false ["/data"] None in
  let d := {[ "/data/f" := NFile ("a" +:+ nl +:+ "b" +:+ nl) ]} in
  let patch := "@@ -2,1 +2,1 @@" +:+ nl +:+ "-b" +:+ nl +:+ "+c" in
  is_ok (run (Ok (Some "/data/f", Some patch)) d).1 = true ∧
  (run (Ok (Some "/data/f", Some patch)) d).2 !! "/data/f" =
    Some (NFile ("[" +:+ q +:+ "a" +:+ q +:+ "," +:+ q +:+ "c" +:+ q +:+ "]")).
Proof.
  intros nl q no_link run d patch.
  assert (is_ok (run (Ok (Some "/data/f", Some patch)) d).1 = true) as Hok by (by vm_compute).
  split; [exact Hok |].
  destruct (apply_patch_confined same (Some "/") no_link (λ _, None) EvalTo (λ _, true) (λ _, true) (λ _ _, true) plain_json
    false ["/data"] None _ d _ _ (surjective_pairing (run (Ok (Some "/data/f", Some patch)) d)))
    as [_ (path & pt & lines & result & Hargs & Hread & Happly & Hd)]; [exact Hok |].
  injection Hargs as <- <-.
  assert (lines = ["a"; "b"]) as -> by (vm_compute in Hread; congruence).
  assert (result = ["a"; "c"]) as -> by (vm_compute in Happly; congruence).
  assert (ResolveRealPath (Some "/") no_link (λ _, None) EvalTo "/data/f" = "/data/f") as E by (by vm_compute).
  rewrite E in Hd. rewrite Hd. by vm_compute.
Defined.

(** A context line before the change is dropped, so the hunk is compared with
    the wrong lines: this patch of a unified diff is refused. *)
Example context_lines_are_dropped :
  let nl := String (byte 10) "" in
  let patch := "@@ -1,2 +1,2 @@" +:+ nl +:+ " a" +:+ nl +:+ "-b" +:+ nl +:+ "+c" in
  is_ok (apply_hunks same (["a"; "b"], 0) (parseHunks patch)) = false.
Proof. by vm_compute. Qed.

(** A header whose first range has no count takes the comma of the second one
    and is read as line 1. *)
Example start_without_count : parseHunkStart "@@ -5 +5,2 @@" = 1 ∧ parseHunkStart "@@ -5,1 +5,2 @@" = 5.
Proof. by vm_compute. Qed.
