(* ===== verification/SemVer.v ===== *)
(** Versions of releases: [compareSemanticVersions] and [validateVersion] of
    [openclaw/core/bundle_updater.go].

    The numbers are read by [fmt.Sscanf] with ["%d"], which takes an optional
    sign and the digits it finds and leaves the rest unread.  Errors are [None]:
    their texts are not kept. *)

From S2P Require Import Prelude GoStrings Utf8.
Local Open Scope string_scope.
Local Open Scope list_scope.

(** ** [fmt.Sscanf(p, "%d", &n)] *)

Definition rune_digit (r : N) : bool := ((48 <=? r) && (r <=? 57))%N.

(** White space is skipped, but no newline. *)
Fixpoint skip_space (rs : list N) : option (list N) :=
  match rs with
  | [] => Some []
  | r :: rest => if (r =? 10)%N then None else if IsSpace r then skip_space rest else Some rs
  end.

Fixpoint scan_digits (acc : Z) (rs : list N) : Z :=
  match rs with
  | [] => acc
  | r :: rs => if rune_digit r then scan_digits (10 * acc + (Z.of_N r - 48)) rs else acc
  end.

Definition scan_sign (rs : list N) : bool * list N :=
  match rs with
  | r :: rest => if (r =? 43)%N then (false, rest) else if (r =? 45)%N then (true, rest) else (false, rs)
  | [] => (false, [])
  end.

Definition scan_int (s : string) : option Z :=
  rs ← skip_space (runes s);
  let '(negative, rs) := scan_sign rs in
  match rs with
  | r :: _ =>
      let v := if negative then (- scan_digits 0 rs)%Z else scan_digits 0 rs in
      if rune_digit r && bool_decide (in_int64 v) then Some v else None
  | [] => None
  end.

(** ** Parsing *)

Record version := mkVersion {
  major : Z;
  minor : Z;
  patch : Z;
  identifiers : option (list string);   (** of a prerelease *)
}.

Definition component (p : string) : option Z :=
  match to_bytes p with
  | [] => None
  | c :: rest => if bool_decide (rest ≠ []) && bool_decide (c = byte 48) then None else scan_int p
  end.

(** [strings.SplitN(val, "-", 2)] *)
Definition split_dash (val : string) : string * option string :=
  match Index val "-" with
  | Some i => (slice_to val i, Some (slice_from val (i + 1)))
  | None => (val, None)
  end.

Definition parse (val : string) : option version :=
  let '(main, pre) := split_dash val in
  match Split main (byte 46) with
  | [a; b; c] =>
      x ← component a; y ← component b; z ← component c;
      Some (mkVersion x y z ((λ p, Split p (byte 46)) <$> pre))
  | _ => None
  end.

(** ** Comparing *)

Definition pre_length (v : version) : nat := from_option length 0 (identifiers v).

(** The first number that differs decides. *)
Fixpoint first_difference (ls rs : list Z) : option Z :=
  match ls, rs with
  | l :: ls, r :: rs => if bool_decide (l = r) then first_difference ls rs else Some (if (l <? r)%Z then (-1)%Z else 1%Z)
  | _, _ => None
  end.
Definition numbers (v : version) : list Z := [major v; minor v; patch v].

Definition compareSemanticVersions (left right : string) : option Z :=
  l ← parse left;
  r ← parse right;
  Some match first_difference (numbers l) (numbers r) with
       | Some d => d
       | None =>
           if (pre_length l =? 0)%nat || (pre_length r =? 0)%nat then
             if (pre_length l =? pre_length r)%nat then 0%Z else if (pre_length l =? 0)%nat then 1%Z else (-1)%Z
           else 0%Z
       end.

Definition version_rune (c : N) : bool :=
  ((97 <=? c) && (c <=? 122) || (65 <=? c) && (c <=? 90) || (48 <=? c) && (c <=? 57) || (c =? 46) || (c =? 45))%N.

Definition validateVersion (version : string) : res () :=
  if bool_decide (version = "") || (80 <? String.length version)%nat || Contains version ".." then Fail "invalid release version"
  else if negb (forallb version_rune (runes version)) then Fail "invalid release version"
  else match compareSemanticVersions version version with
       | Some _ => Ok tt
       | None => Fail "invalid semver"
       end.

(** ** The order of semantic versioning

    Numbers first; a release is above its prereleases; of two prereleases the
    first identifier that differs decides, where numbers are below words and a
    list is above its prefixes. *)

Definition numeric (s : string) : option Z :=
  match to_bytes s with
  | [] => None
  | l => if forallb is_digit l then digits_value 0 l else None
  end.

Definition compare_identifier (a b : string) : comparison :=
  match numeric a, numeric b with
  | Some x, Some y => (x ?= y)%Z
  | Some _, None => Lt
  | None, Some _ => Gt
  | None, None => compare_bytes (to_bytes a) (to_bytes b)
  end.

Fixpoint compare_identifiers (l r : list string) : comparison :=
  match l, r with
  | [], [] => Eq
  | [], _ => Lt
  | _, [] => Gt
  | a :: l, b :: r => match compare_identifier a b with Eq => compare_identifiers l r | c => c end
  end.

Definition precedence (l r : version) : comparison :=
  match (major l ?= major r)%Z with
  | Eq => match (minor l ?= minor r)%Z with
    | Eq => match (patch l ?= patch r)%Z with
      | Eq => match identifiers l, identifiers r with
              | None, None => Eq
              | None, Some _ => Gt
              | Some _, None => Lt
              | Some a, Some b => compare_identifiers a b
              end
      | c => c
      end
    | c => c
    end
  | c => c
  end.

Definition sign (c : comparison) : Z := match c with Lt => -1 | Eq => 0 | Gt => 1 end.

(** Two prereleases of the same release. *)
Definition sibling_prereleases (l r : version) : bool :=
  bool_decide (numbers l = numbers r) && bool_decide (is_Some (identifiers l)) && bool_decide (is_Some (identifiers r)).

(** ** Lemmas *)

Lemma pre_length_zero val v : parse val = Some v → pre_length v = 0%nat ↔ identifiers v = None.
Proof.
  unfold parse, pre_length. destruct (split_dash val) as [main pre].
  destruct (Split main _) as [| a [| b [| c [| ? ?]]]]; [done.. | | done].
  destruct (component a), (component b), (component c); cbn; [| done..]. intros [= <-]. cbn.
  destruct pre as [p |]; cbn; [| done]. split; [| done]. intros H.
  unfold Split in H. rewrite length_fmap in H. apply nil_length_inv in H. by apply split_bytes_nonempty in H.
Qed.

Lemma first_difference_sign ls rs : length ls = length rs →
  first_difference ls rs = None ∧ ls = rs ∨
  (∃ p l r ks ms, ls = p ++ l :: ks ∧ rs = p ++ r :: ms ∧ l ≠ r ∧ first_difference ls rs = Some (sign (l ?= r)%Z)).
Proof.
  revert rs. induction ls as [| l ls IH]; intros [| r rs] Hlen; try done; [by left |]. cbn.
  case_bool_decide as Heq.
  - subst r. destruct (IH rs) as [[H ->] | (p & x & y & ks & ms & -> & -> & Hne & H)]; [by injection Hlen | by left |].
    right. by exists (l :: p), x, y, ks, ms.
  - right. exists [], l, r, ls, rs. repeat split; try done. destruct (Z.ltb_spec l r), (Z.compare_spec l r); try lia; done.
Qed.

Lemma compare_self x : (x ?= x)%Z = Eq.
Proof. apply Z.compare_refl. Qed.

(** The value of the comparison on parsed versions. *)
Definition compare_parsed (v w : version) : Z := if sibling_prereleases v w then 0 else sign (precedence v w).

Lemma compare_spec left right v w : parse left = Some v → parse right = Some w →
  compareSemanticVersions left right = Some (compare_parsed v w).
Proof.
  intros Hl Hr. unfold compareSemanticVersions. rewrite Hl, Hr. cbn [mbind option_bind]. f_equal.
  pose proof (pre_length_zero _ _ Hl) as Zl. pose proof (pre_length_zero _ _ Hr) as Zr.
  unfold compare_parsed, sibling_prereleases, precedence.
  destruct (first_difference_sign (numbers v) (numbers w) eq_refl) as [[-> Heq] | (p & l & r & ks & ms & Hv & Hw & Hne & ->)].
  - rewrite (bool_decide_true (_ = _)) by done. unfold numbers in Heq. injection Heq as -> -> ->. rewrite !compare_self. cbn.
    destruct (identifiers v) as [a |], (identifiers w) as [b |].
    + rewrite !bool_decide_true by done. destruct (pre_length v), (pre_length w); cbn; try done; exfalso; naive_solver.
    + rewrite bool_decide_true, (bool_decide_false (is_Some None)) by (done || by intros [? ?]).
      rewrite (proj2 Zr eq_refl). destruct (pre_length v) eqn:E; [naive_solver | done].
    + rewrite bool_decide_false by (by intros [? ?]). rewrite (proj2 Zl eq_refl). destruct (pre_length w) eqn:E; [naive_solver | done].
    + rewrite bool_decide_false by (by intros [? ?]). by rewrite (proj2 Zl eq_refl), (proj2 Zr eq_refl).
  - rewrite bool_decide_false by (rewrite Hv, Hw; intros H; apply app_inv_head in H; congruence). cbn [andb].
    unfold numbers in Hv, Hw. assert ((l ?= r)%Z ≠ Eq) as Hc by (intros H; apply Hne; by apply Z.compare_eq).
    destruct v, w. cbn in Hv, Hw |- *.
    destruct p as [| p1 [| p2 [| p3 [| p4 p]]]]; cbn in Hv, Hw; simplify_eq; rewrite ?compare_self; by destruct (_ ?= _)%Z.
Qed.

Lemma compare_fails left right : parse left = None ∨ parse right = None → compareSemanticVersions left right = None.
Proof. unfold compareSemanticVersions. intros [-> | ->]; [done |]. by destruct (parse left). Qed.

(** What decides: the numbers, and whether it is a release. *)
Definition rank (v : version) : list Z := numbers v ++ [if identifiers v then 0 else 1]%Z.

Fixpoint lex (l r : list Z) : comparison :=
  match l, r with
  | x :: l, y :: r => match (x ?= y)%Z with Eq => lex l r | c => c end
  | _, _ => Eq
  end.

Lemma compare_rank v w : compare_parsed v w = sign (lex (rank v) (rank w)).
Proof.
  unfold compare_parsed, sibling_prereleases, precedence, rank, numbers. cbn.
  destruct v as [a b c p], w as [a' b' c' q]; cbn.
  destruct (Z.compare_spec a a') as [-> | |];
    [| rewrite bool_decide_false by (intros [=]; lia); done | rewrite bool_decide_false by (intros [=]; lia); done].
  destruct (Z.compare_spec b b') as [-> | |];
    [| rewrite bool_decide_false by (intros [=]; lia); done | rewrite bool_decide_false by (intros [=]; lia); done].
  destruct (Z.compare_spec c c') as [-> | |];
    [| rewrite bool_decide_false by (intros [=]; lia); done | rewrite bool_decide_false by (intros [=]; lia); done].
  rewrite bool_decide_true by done.
  destruct p, q; cbn; rewrite ?bool_decide_true by done; try done; rewrite ?(bool_decide_false (is_Some None)) by (by intros [? ?]); done.
Qed.

Lemma lex_antisym l r : lex r l = CompOpp (lex l r).
Proof. revert r. induction l as [| x l IH]; intros [| y r]; try done. cbn. rewrite (Z.compare_antisym x y). by destruct (x ?= y)%Z; cbn. Qed.

Lemma lex_refl l : lex l l = Eq.
Proof. induction l; cbn; [done |]. by rewrite compare_self. Qed.

Lemma lex_trans l m r : length l = length m → length m = length r → lex l m ≠ Gt → lex m r ≠ Gt → lex l r ≠ Gt.
Proof.
  revert m r. induction l as [| x l IH]; intros [| y m] [| z r] H1 H2; try done. cbn.
  destruct (Z.compare_spec x y), (Z.compare_spec y z), (Z.compare_spec x z); try done; try lia. by eauto.
Qed.

(** A valid version is made of letters, digits, dots and dashes. *)
Lemma ascii_bytes rs l fuel : (length l ≤ fuel)%nat → decode_runes fuel l = rs → Forall (λ r, r < 128)%N rs → l = map byte rs.
Proof.
  revert l rs. induction fuel as [| fuel IH]; intros l rs Hlen Heq Hall.
  - destruct l; [by subst | cbn in Hlen; lia].
  - cbn in Heq. destruct (decode_rune l) as [[r l'] |] eqn:Hd; cbn in Heq.
    + subst rs. apply Forall_cons in Hall as [Hr Hall]. pose proof (decode_shorter _ _ _ Hd).
      cbn. rewrite <- (IH l' (decode_runes fuel l')); [by apply decode_ascii | lia | done | done].
    + subst rs. destruct l as [| c l]; [done |]. unfold decode_rune in Hd. repeat case_hyp Hd; done.
Qed.

Lemma valid_version_bytes version : validateVersion version = Ok tt →
  Forall (λ c, version_rune (code c) = true) (to_bytes version) ∧ version ≠ "" ∧ Contains version ".." = false ∧
  (String.length version ≤ 80)%nat ∧ is_Some (parse version).
Proof.
  unfold validateVersion. destruct (bool_decide_reflect (version = "")); [done |].
  destruct (Nat.ltb_spec 80 (String.length version)); [done |]. destruct (Contains version ".."); [done |]. cbn.
  destruct (forallb version_rune (runes version)) eqn:Hall; [| done]. cbn. intros Hc.
  assert (Forall (λ r, version_rune r = true) (runes version)) as Hr by (by apply Forall_forall; intros r Hr; apply (proj1 (List.forallb_forall _ _) Hall), list_elem_of_In).
  split; [| split; [done |]; split; [done |]; split; [done |]; destruct (parse version) eqn:Hp; [done | by rewrite compare_fails in Hc by auto]].
  assert (Forall (λ r, r < 128)%N (runes version)) as Hlow.
  { eapply Forall_impl; [done |]. intros r Hr'. unfold version_rune in Hr'. rewrite !orb_true_iff, !andb_true_iff, !N.leb_le, !N.eqb_eq in Hr'. lia. }
  rewrite (ascii_bytes (runes version) (to_bytes version) (String.length version)); [| by rewrite to_bytes_length | done | done].
  apply Forall_map. apply Forall_forall. intros r Hin. rewrite Forall_forall in Hr, Hlow. cbn. unfold code, byte. rewrite N_ascii_embedding by (specialize (Hlow _ Hin); lia).
  by apply Hr.
Qed.

(** ** Versions as they are written

    What the grammar of semantic versioning allows, without build metadata:
    numbers that fit, and dotted identifiers of letters, digits and dashes. *)

Definition identifier_byte (c : ascii) : bool := IsLetterOrDigit c || bool_decide (c = byte 45).
Definition proper_identifier (s : string) : Prop :=
  s ≠ "" ∧ Forall (λ c, identifier_byte c = true) (to_bytes s) ∧
  (is_Some (numeric s) → s = "0" ∨ head (to_bytes s) ≠ Some (byte 48)).
Definition semantic (v : version) : Prop :=
  Forall (λ n, 0 ≤ n ≤ max_int64)%Z (numbers v) ∧
  match identifiers v with None => True | Some ids => ids ≠ [] ∧ Forall proper_identifier ids end.

Definition show_version (v : version) : string :=
  (Itoa (major v) +:+ "." +:+ Itoa (minor v) +:+ "." +:+ Itoa (patch v)) +:+
  match identifiers v with None => "" | Some ids => "-" +:+ JoinStrings ids "." end.

Lemma runes_ascii s : Forall (λ c, code c < 128)%N (to_bytes s) → runes s = code <$> to_bytes s.
Proof.
  intros Hs. assert (s = of_runes (code <$> to_bytes s)) as Heq.
  { rewrite <- (of_bytes_to_bytes s) at 1. unfold of_runes. f_equal. induction Hs as [| c l Hc _ IH]; [done |]. cbn [fmap list_fmap map concat].
    rewrite <- IH. unfold encode_rune. destruct (N.ltb_spec (code c) 128); [| lia]. cbn. unfold byte, code. by rewrite ascii_N_embedding. }
  rewrite Heq at 1. apply runes_of_runes. apply Forall_fmap. eapply Forall_impl; [exact Hs |]. intros c Hc. left. cbn beta in *. unfold compose. eapply N.lt_trans; [exact Hc | done].
Qed.

Lemma digit_code c : is_digit c = true → (48 ≤ code c ≤ 57)%N.
Proof. unfold is_digit. rewrite andb_true_iff, !N.leb_le. lia. Qed.

(** A positive number does not start with a zero. *)
Lemma pretty_go_head x : (0 < x)%N → ∀ s, ∃ c l, to_bytes (pretty_N_go x s) = c :: l ∧ c ≠ byte 48.
Proof.
  induction (N.lt_wf_0 x) as [x _ IH]. intros Hx s. rewrite pretty_N_go_step by lia.
  destruct (decide (x / 10 = 0)%N) as [Hz | Hz].
  - rewrite Hz, pretty_N_go_0. eexists _, _. split; [done |]. intros Heq. destruct (code_digit (x mod 10)) as [_ Hc]; [apply N.mod_lt; lia |].
    rewrite Heq in Hc. change (Z.of_N (code (byte 48))) with 48%Z in Hc.
    pose proof (N.div_mod x 10 ltac:(lia)). lia.
  - apply IH; [apply N.div_lt; lia | by apply N.neq_0_lt_0].
Qed.

Lemma scan_digits_value l : Forall (λ c, is_digit c = true) l → ∀ acc, digits_value acc l = Some (scan_digits acc (code <$> l)).
Proof.
  induction 1 as [| c l Hc _ IH]; intros acc; [done |]. cbn [digits_value fmap list_fmap scan_digits]. rewrite Hc, IH.
  apply digit_code in Hc. unfold rune_digit. destruct (N.leb_spec 48 (code c)), (N.leb_spec (code c) 57); try lia. cbn [andb].
  do 2 f_equal. lia.
Qed.

Lemma component_Itoa z : (0 ≤ z ≤ max_int64)%Z → component (Itoa z) = Some z.
Proof.
  intros Hz. destruct (decide (z = 0%Z)) as [-> | Hne]; [by vm_compute |].
  destruct (Itoa_pos z) as (_ & Hd & Hv); [lia |].
  assert (∃ c l, to_bytes (Itoa z) = c :: l ∧ c ≠ byte 48) as (c & l & Hcl & Hc).
  { destruct z as [| p | p]; [lia | | lia]. change (Itoa (Z.pos p)) with (pretty_N_go (N.pos p) ""). apply pretty_go_head. lia. }
  unfold component. rewrite Hcl, (bool_decide_false (c = byte 48)), andb_false_r by done.
  unfold scan_int. rewrite runes_ascii by (eapply Forall_impl; [exact Hd |]; intros d Hd'; apply digit_code in Hd'; lia).
  rewrite Hcl in *. apply Forall_cons in Hd as Hd'. destruct Hd' as [Hdc _]. apply digit_code in Hdc.
  rewrite fmap_cons. cbn [skip_space]. assert (IsSpace (code c) = false) as ->.
  { apply bool_decide_eq_false. intros Hin. set_unfold in Hin. lia. }
  assert (∀ n, (n < 48)%N → (code c =? n)%N = false) as Hno by (intros n Hn; apply N.eqb_neq; lia).
  rewrite Hno by done. cbn [mbind option_bind scan_sign]. rewrite !Hno by done.
  assert (rune_digit (code c) = true) as -> by (apply andb_true_iff; rewrite !N.leb_le; lia). cbn [andb].
  rewrite (scan_digits_value _ Hd) in Hv. assert (scan_digits 0 (code <$> c :: l) = z) as Hs by congruence.
  rewrite fmap_cons in Hs. rewrite Hs.
  rewrite bool_decide_true by (unfold in_int64, min_int64, max_int64 in *; lia). done.
Qed.

Lemma Itoa_plain z c : (0 ≤ z)%Z → c ∈ to_bytes (Itoa z) → is_digit c = true.
Proof.
  intros Hz Hc. destruct (decide (z = 0%Z)) as [-> | Hne]; [by apply list_elem_of_singleton in Hc as -> |].
  destruct (Itoa_pos z) as (_ & Hd & _); [lia |]. rewrite Forall_forall in Hd. by apply Hd.
Qed.

Lemma index_byte c w k : c ∉ w → index_bytes [c] (w ++ c :: k) = Some (length w).
Proof.
  induction w as [| d w IH]; intros Hw; cbn.
  - unfold has_prefix. cbn. by rewrite decide_True.
  - apply not_elem_of_cons in Hw as [Hd Hw]. unfold has_prefix. cbn. rewrite decide_False by congruence. by rewrite IH.
Qed.
Lemma index_byte_none c w : c ∉ w → index_bytes [c] w = None.
Proof.
  induction w as [| d w IH]; intros Hw; cbn; [done |].
  apply not_elem_of_cons in Hw as [Hd Hw]. unfold has_prefix. cbn. rewrite decide_False by congruence. by rewrite IH.
Qed.

Lemma split_dash_at main rest : byte 45 ∉ to_bytes main → split_dash (main +:+ "-" +:+ rest) = (main, Some rest).
Proof.
  intros Hm. unfold split_dash, Index, slice_to, slice_from. rewrite !to_bytes_append. change (to_bytes "-") with [byte 45].
  cbn [app]. rewrite index_byte by done. rewrite take_app_length, drop_app_add.
  rewrite of_bytes_to_bytes. do 2 f_equal. apply of_bytes_to_bytes.
Qed.
Lemma split_dash_none main : byte 45 ∉ to_bytes main → split_dash main = (main, None).
Proof. intros Hm. unfold split_dash, Index. change (to_bytes "-") with [byte 45]. by rewrite index_byte_none. Qed.

Lemma Split_join ids : ids ≠ [] → Forall (λ s, byte 46 ∉ to_bytes s) ids → Split (JoinStrings ids ".") (byte 46) = ids.
Proof.
  intros Hne Hall. unfold Split. induction Hall as [| s ids Hs Hall IH]; [done |]. destruct ids as [| t ids].
  - cbn [JoinStrings]. rewrite split_bytes_none by done. cbn. by rewrite of_bytes_to_bytes.
  - change (JoinStrings (s :: t :: ids) ".") with (s +:+ "." +:+ JoinStrings (t :: ids) ".").
    rewrite !to_bytes_append. change (to_bytes ".") with [byte 46]. cbn [app]. rewrite split_bytes_app by done.
    cbn [fmap list_fmap]. by rewrite of_bytes_to_bytes, IH.
Qed.

(** What is written is read back. *)
Lemma parse_show v : semantic v → parse (show_version v) = Some v.
Proof.
  intros [Hn Hids]. destruct v as [a b c ids]. unfold numbers in Hn. cbn [major minor patch identifiers] in *.
  rewrite !Forall_cons in Hn. destruct Hn as (Ha & Hb & Hc & _). unfold show_version. cbn [major minor patch identifiers].
  assert (∀ z, (0 ≤ z)%Z → byte 45 ∉ to_bytes (Itoa z) ∧ byte 46 ∉ to_bytes (Itoa z)) as Hno.
  { intros z Hz. split; intros Hin; by apply Itoa_plain in Hin. }
  set (main := Itoa a +:+ "." +:+ Itoa b +:+ "." +:+ Itoa c).
  assert (byte 45 ∉ to_bytes main) as Hdash.
  { unfold main. rewrite !to_bytes_append. change (to_bytes ".") with [byte 46]. rewrite !elem_of_app, !list_elem_of_singleton.
    destruct (Hno a), (Hno b), (Hno c); [lia.. |]. intros H'. destruct_or! H'; done. }
  assert (Split main (byte 46) = [Itoa a; Itoa b; Itoa c]) as Hsplit.
  { change main with (JoinStrings [Itoa a; Itoa b; Itoa c] "."). apply Split_join; [done |]. repeat constructor; apply Hno; lia. }
  unfold parse. destruct ids as [ids |].
  - rewrite split_dash_at, Hsplit by done. rewrite !component_Itoa by done. cbn [mbind option_bind fmap option_fmap option_map].
    destruct Hids as [Hne Hall]. rewrite Split_join; [done | done |]. eapply Forall_impl; [exact Hall |].
    intros s (_ & Hs & _) Hin. rewrite Forall_forall in Hs. by specialize (Hs _ Hin).
  - assert (main +:+ "" = main) as ->. { apply (inj to_bytes). by rewrite to_bytes_append, app_nil_r. }
    rewrite split_dash_none, Hsplit by done. by rewrite !component_Itoa.
Qed.

(** ** The order *)

(** C26: Versions written as the grammar of semantic versioning has them,
    without build metadata and with numbers that fit 64 bits, compare by their
    precedence -- except that two prereleases of one release count as equal.  On
    every string that can be read at all the comparison is a total preorder:
    exchanging the sides changes the sign, at-most is transitive, and a valid
    version equals itself. *)
Theorem versions_compare_by_precedence :
  (∀ v w, semantic v → semantic w → compareSemanticVersions (show_version v) (show_version w) =
    Some (if sibling_prereleases v w then 0%Z else sign (precedence v w))) ∧
  (∀ left right c, compareSemanticVersions left right = Some c → compareSemanticVersions right left = Some (- c)%Z) ∧
  (∀ a b c x y, compareSemanticVersions a b = Some x → compareSemanticVersions b c = Some y → (x ≤ 0)%Z → (y ≤ 0)%Z →
    ∃ z, compareSemanticVersions a c = Some z ∧ (z ≤ 0)%Z) ∧
  (∀ a, validateVersion a = Ok tt → compareSemanticVersions a a = Some 0%Z).
Proof.
  assert (∀ left right c, compareSemanticVersions left right = Some c →
    ∃ v w, parse left = Some v ∧ parse right = Some w ∧ c = sign (lex (rank v) (rank w))) as Hinv.
  { intros left right c H. destruct (parse left) as [v |] eqn:Hl; [| by rewrite compare_fails in H by auto].
    destruct (parse right) as [w |] eqn:Hr; [| by rewrite compare_fails in H by auto].
    rewrite (compare_spec _ _ _ _ Hl Hr), compare_rank in H. exists v, w. by injection H. }
  assert (∀ c, (sign c ≤ 0)%Z ↔ c ≠ Gt) as Hsign by (intros []; cbn; split; (done || lia || congruence)).
  split; [| split; [| split]].
  - intros v w Hv%parse_show Hw%parse_show. by rewrite (compare_spec _ _ _ _ Hv Hw).
  - intros left right c (v & w & Hl & Hr & ->)%Hinv. rewrite (compare_spec _ _ _ _ Hr Hl), compare_rank, (lex_antisym (rank v) (rank w)). f_equal. destruct (lex (rank v) (rank w)); reflexivity.
  - intros a b c x y (v & w & Ha & Hb & ->)%Hinv (w' & u & Hb' & Hc & ->)%Hinv. simplify_eq. rewrite !Hsign. intros H1 H2.
    eexists. split; [by rewrite (compare_spec _ _ _ _ Ha Hc), compare_rank |]. apply Hsign. eapply lex_trans; [| | exact H1 | exact H2]; done.
  - intros a (_ & _ & _ & _ & v & Ha)%valid_version_bytes. by rewrite (compare_spec _ _ _ _ Ha Ha), compare_rank, lex_refl.
Qed.

Lemma versions_compare_by_precedence_witness :
  compareSemanticVersions "1.10.0" "1.9.3-rc.1" = Some 1%Z ∧ compareSemanticVersions "1.9.3-rc.1" "1.10.0" = Some (-1)%Z ∧
  validateVersion "1.0.0-beta.2" = Ok tt ∧ compareSemanticVersions "1.0.0-beta.2" "1.0.0-beta.2" = Some 0%Z.
Proof.
  destruct versions_compare_by_precedence as (Hprec & Hsym & _ & Hrefl).
  assert (compareSemanticVersions "1.10.0" "1.9.3-rc.1" = Some 1%Z) as H.
  { refine (Hprec (mkVersion 1 10 0 None) (mkVersion 1 9 3 (Some ["rc"; "1"])) _ _).
    - split; [| done]. repeat constructor; done.
    - split; [repeat constructor; done |]. split; [done |]. repeat constructor; try done; by right. }
  assert (validateVersion "1.0.0-beta.2" = Ok tt) as Hv by (vm_compute; reflexivity).
  split; [exact H |]. split; [exact (Hsym _ _ _ H) |]. split; [exact Hv | exact (Hrefl _ Hv)].
Defined.

(** What is left unread of a number makes no difference, and the digits of a
    build count as a prerelease once a dash follows. *)
Example lax_versions :
  compareSemanticVersions "1.0.1+x-y" "1.0.1" = Some (-1)%Z ∧ compareSemanticVersions "1.0.1+x" "1.0.1" = Some 0%Z.
Proof. vm_compute. done. Qed.

(** Two prereleases are not told apart, and what follows a number is not read. *)
Example prereleases_are_equal :
  compareSemanticVersions "1.0.0-beta.2" "1.0.0-beta.1" = Some 0%Z ∧
  validateVersion "1.2.3garbage" = Ok tt ∧ compareSemanticVersions "1.2.3garbage" "1.2.3" = Some 0%Z.
Proof. vm_compute. done. Qed.
