(* ===== verification/BundleUpdater.v ===== *)
(** Updates of the installed program: [openclaw/core/bundle_updater.go], and the
    two functions of [openclaw/util/crypto.go] it reads keys with.

    [Install] takes a release from a signed feed, downloads its archive, checks
    size and digest, unpacks it next to the bundles that are there, tries it, and
    moves it into place; [active.json] then names it and the one before.

    The world is the disk and a counter of the effects so far: whether an
    operation on files works, what the network answers, the draws of unique
    names and the clock depend on it.  An operation that fails may have done part
    of its work.  RSA, JSON of structs, URLs, archives and the programs started
    are the operations of [Platform].  The platform is Unix; modes of files and
    crashes between two operations are not modelled. *)

From S2P Require Import Prelude GoStrings Utf8 Encoding PathPolicy Paths Disk SemVer.
Local Open Scope string_scope.
Local Open Scope list_scope.

(** ** Data *)

Record UpdateAsset := mkAsset { Rid : string; Url : string; Sha256 : string; Size : Z }.
Record UpdateRelease := mkRelease { Version : string; Channel : string; Assets : list UpdateAsset }.
Record UpdateFeed := mkFeed { SchemaVersion : Z; ExpiresAtUtc : Z; Releases : option (list UpdateRelease) }.
Record UpdateTrust := mkTrust { ManifestUrl : string; PublicKeyPem : string }.
Record BundleActivation := mkActivation { Current : string; Previous : option string }.

(** What the updater uses of the libraries. *)
Record url := mkUrl { Scheme : string; has_user : bool }.
Record response := mkResponse {
  StatusCode : Z;
  final_url : string;              (** of the request that was answered *)
  Body : string;
  body_err : option string;        (** where the body ends early *)
}.
Record zip_file := mkZip {
  Name : string;
  UncompressedSize64 : Z;
  IsDir : bool;
  contents : option (string * option string);   (** [None] cannot be opened *)
}.
(** What becomes of an operation on files. *)
Inductive outcome := Works | Refused | Partly (data : string) (kept : list string).
Inductive stat := Present | Absent | Unknown.

Class Platform := {
  PublicKey : Type;
  pem_Decode : string → option string;
  ParsePKIXPublicKey : string → option (option PublicKey);   (** [Some None]: no RSA key *)
  MarshalPKIXPublicKey : PublicKey → option string;
  EncodeToMemory : string → string;
  key_Size : PublicKey → Z;
  VerifyPKCS1v15 : PublicKey → bytes → string → bool;
  url_Parse : string → option url;
  http_Get : nat → string → res response;
  outcome_of : nat → outcome;
  CleanUUID : nat → string;
  now : nat → Z;
  zip_reader : string → option (list zip_file);
  read_trust : string → option UpdateTrust;
  write_trust : UpdateTrust → string;
  read_feed : string → option UpdateFeed;
  read_activation : string → option BundleActivation;
  write_activation : BundleActivation → string;
  free_port : nat → res Z;
  smoke_config : Z → string → string;
  run : nat → string → list string → list string → option (string * string);   (** the outputs of a failing command *)
  environ : list string;
  platform_rid : string;
  lower_rune : N → N;
  upper_rune : N → N;
}.

(** The script that starts the active bundle; a backtick stands for a double
    quote. *)
Definition script_text : string :=
"#!/bin/sh
set -eu
root=$(CDPATH= cd -- `$(dirname -- `$0`)` && pwd)
component=${1:-companion}
if [ `$#` -gt 0 ]; then shift; fi
case `$component` in
  cli) binary=openclaw ;;
  gateway) binary=OpenClaw.Gateway ;;
  companion) binary=OpenClaw.Companion ;;
  *) echo `Expected cli, gateway or companion` >&2; exit 2 ;;
esac
id=$(sed -n 's/.*`Current`:`\([^` ]*\)`.*/\1/p' `$root/active.json`)
case `$id` in ''|*[!a-zA-Z0-9.-]*|*..*) echo `Invalid activation` >&2; exit 2 ;; esac
exec `$root/bundles/$id/$component/$binary` `$@`
".
Fixpoint with_quotes (s : string) : string :=
  match s with
  | "" => ""
  | String c s => String (if bool_decide (c = byte 96) then byte 34 else c) (with_quotes s)
  end.
Definition launcher : string := with_quotes script_text.

Section Updater.
Context `{Platform}.

(** ** Effects *)

Record world := mkWorld { disk : Disk; ticks : nat }.

Definition M (A : Type) : Type := world → res A * world.
#[global] Instance M_ret : MRet M := λ A a w, (Ok a, w).
#[global] Instance M_bind : MBind M := λ A B f m w, match m w with (Ok a, w) => f a w | (Fail e, w) => (Fail e, w) end.
Definition fails {A} (e : string) : M A := λ w, (Fail e, w).
Definition lift {A} (r : res A) : M A := λ w, (r, w).
Definition ask {A} (f : nat → res A) : M A := λ w, (f (ticks w), mkWorld (disk w) (S (ticks w))).
Definition on_disk {A} (f : outcome → Disk → res A * Disk) : M A := λ w,
  let '(r, d) := f (outcome_of (ticks w)) (disk w) in (r, mkWorld d (S (ticks w))).
(** Errors that are not looked at. *)
Definition ignore {A} (m : M A) : M () := λ w, (Ok tt, (m w).2).
(** [defer] *)
Definition then_always {A B} (m : M A) (cleanup : M B) : M A := λ w, let '(r, w) := m w in (r, (cleanup w).2).

Definition is_file (d : Disk) (path : string) : bool := match d !! path with Some (NFile _) => true | _ => false end.
Definition is_dir (d : Disk) (path : string) : bool := match d !! path with Some NDir => true | _ => false end.

Definition make_dir (d : Disk) (path : string) : Disk := match d !! path with None => <[path := NDir]> d | Some _ => d end.
Definition MkdirAll (path : string) : M () := on_disk (λ o d,
  match o with
  | Works => if existsb (is_file d) (ancestors path) then (Fail ("mkdir " +:+ path), d) else (Ok tt, foldl make_dir d (ancestors path))
  | Refused => (Fail ("mkdir " +:+ path), d)
  | Partly _ kept => (Fail ("mkdir " +:+ path), foldl make_dir d (filter (λ a, a ∈ kept) (ancestors path)))
  end).

(** [os.WriteFile], and writing to a file that was opened. *)
Definition WriteFile (path data : string) : M () := on_disk (λ o d,
  if is_dir d path || negb (is_dir d (Dir path)) then (Fail ("open " +:+ path), d)
  else match o with
       | Works => (Ok tt, <[path := NFile data]> d)
       | Refused => (Fail ("open " +:+ path), d)
       | Partly part _ => (Fail ("write " +:+ path), <[path := NFile part]> d)
       end).

(** A file that is opened and, if need be, created, not truncated. *)
Definition OpenCreate (path : string) : M () := on_disk (λ o d,
  if is_dir d path || negb (is_dir d (Dir path)) then (Fail ("open " +:+ path), d)
  else match o with
       | Works => (Ok tt, if is_file d path then d else <[path := NFile ""]> d)
       | _ => (Fail ("open " +:+ path), d)
       end).

(** [None] is an error [os.IsNotExist] holds of. *)
Definition ReadFile (path : string) : M (option string) := on_disk (λ o d,
  match d !! path, o with
  | Some (NFile data), Works => (Ok (Some data), d)
  | None, Works => if existsb (is_file d) (ancestors (Dir path)) then (Fail ("open " +:+ path), d) else (Ok None, d)
  | _, _ => (Fail ("open " +:+ path), d)
  end).

Definition Stat (path : string) : M stat := on_disk (λ o d,
  match o, d !! path with
  | Works, Some _ => (Ok Present, d)
  | Works, None => (Ok (if existsb (is_file d) (ancestors (Dir path)) then Unknown else Absent), d)
  | _, _ => (Ok Unknown, d)
  end).

Definition Remove (path : string) : M () := on_disk (λ o d,
  match o, d !! path with
  | Works, Some (NFile _) => (Ok tt, delete path d)
  | _, _ => (Fail ("remove " +:+ path), d)
  end).

Definition RemoveAll (path : string) : M () := on_disk (λ o d,
  match o with
  | Works => (Ok tt, filter (λ '(p, _), under path p = false) d)
  | Refused => (Fail ("unlink " +:+ path), d)
  | Partly _ kept => (Fail ("unlink " +:+ path), filter (λ '(p, _), under path p = false ∨ p ∈ kept) d)
  end).

Definition moved_path (from to path : string) : string := to +:+ slice_from path (String.length from).
Definition move (from to : string) (d : Disk) : Disk :=
  list_to_map ((λ '(p, n), (moved_path from to p, n)) <$> map_to_list (filter (λ '(p, _), under from p = true) d)) ∪
  filter (λ '(p, _), under from p = false) d.

(** [os.Rename]: a file replaces a file, a directory an empty directory. *)
Definition Rename (from to : string) : M () := on_disk (λ o d,
  let target_free :=
    bool_decide (map_Forall (λ p _, under to p = true → p = to) d) &&
    match d !! from, d !! to with
    | Some _, None => true
    | Some (NFile _), Some (NFile _) => true
    | Some NDir, Some NDir => true
    | _, _ => false
    end in
  if target_free && is_dir d (Dir to) && negb (under from to) then
    match o with
    | Works => (Ok tt, move from to d)
    | _ => (Fail ("rename " +:+ from), d)
    end
  else (Fail ("rename " +:+ from), d)).

(** ** Trust and feeds *)

Definition ParseRsaPublicKeyFromPem (pemString : string) : res PublicKey :=
  match pem_Decode pemString with
  | None => Fail "failed to parse PEM block"
  | Some block =>
      match ParsePKIXPublicKey block with
      | None => Fail "x509"
      | Some None => Fail "not an RSA public key"
      | Some (Some key) => Ok key
      end
  end.

Definition ParseDataFromRsaPublicKey (key : PublicKey) : res string :=
  match MarshalPKIXPublicKey key with None => Fail "x509" | Some pubBytes => Ok (EncodeToMemory pubBytes) end.

Definition requireHttps (urlStr : string) : res () :=
  match url_Parse urlStr with
  | Some u => if negb (bool_decide (Scheme u = "https")) || has_user u
              then Fail "update downloads require HTTPS without embedded credentials" else Ok tt
  | None => Fail "update downloads require HTTPS without embedded credentials"
  end.

(** A key that is large enough. *)
Definition signing_key (pem error : string) : res PublicKey :=
  match ParseRsaPublicKeyFromPem pem with
  | Ok key => if (key_Size key * 8 <? 3072)%Z then Fail error else Ok key
  | Fail _ => Fail error
  end.

Definition VerifyFeed (manifest signature pemData : string) (time : Z) : res UpdateFeed :=
  key ← signing_key pemData "RSA key must be at least 3072 bits";
  if negb (VerifyPKCS1v15 key (Sum256 (to_bytes manifest)) signature) then Fail "update manifest signature verification failed"
  else match read_feed manifest with
       | None => Fail "update manifest is invalid or expired"
       | Some feed =>
           if negb (SchemaVersion feed =? 1)%Z || (ExpiresAtUtc feed <? time)%Z || bool_decide (Releases feed = None)
           then Fail "update manifest is invalid or expired" else Ok feed
       end.

Definition SelectRelease (feed : UpdateFeed) (channel : string) (version : option string) : res UpdateRelease :=
  match List.find (λ r, bool_decide (Channel r = channel) && match version with None => true | Some v => bool_decide (Version r = v) end)
          (default [] (Releases feed)) with
  | None => Fail "the signed feed has no matching release"
  | Some found => _ ← validateVersion (Version found); Ok found
  end.

(** ** Downloads *)

(** What a reader limited to [max + 1] bytes gives. *)
Definition limited (resp : response) (max : Z) : string * option string :=
  let body := to_bytes (Body resp) in
  (of_bytes (take (Z.to_nat (max + 1)) body), if (max <? Z.of_nat (length body))%Z then None else body_err resp).
Definition too_large (data : string) (max : Z) : bool := (max <? Z.of_nat (String.length data))%Z.

Definition get (urlStr : string) : M response :=
  resp ← ask (λ n, http_Get n urlStr);
  if negb (StatusCode resp =? 200)%Z then fails ("bad status: " +:+ Itoa (StatusCode resp))
  else _ ← lift (requireHttps (final_url resp)); mret resp.

Definition downloadBytes (urlStr : string) (max : Z) : M string :=
  resp ← get urlStr;
  match limited resp max with
  | (_, Some e) => fails e
  | (data, None) => if too_large data max then fails "update download exceeds its allowed size" else mret data
  end.

Definition downloadFile (urlStr path : string) (max : Z) : M () :=
  resp ← get urlStr;
  _ ← WriteFile path "";
  _ ← WriteFile path (limited resp max).1;
  match limited resp max with
  | (_, Some e) => fails e
  | (data, None) => if too_large data max then fails "update download exceeds its allowed size" else mret tt
  end.

(** [NewBundleUpdater] makes the root absolute. *)
Definition NewBundleUpdater (Getwd : option string) (root : string) : option string := Abs Getwd root.

Section Root.
Context (root : string).

Definition TrustPath : string := Join root "trust.json".
Definition activationPath : string := Join root "active.json".
Definition bundlePath (id : string) : string := Join3 root "bundles" id.

Definition ReadActivation : M (option BundleActivation) :=
  data ← ReadFile activationPath;
  match data with
  | None => mret None
  | Some data => match read_activation data with None => fails "invalid JSON" | Some act => mret (Some act) end
  end.

Definition writeAtomic (path text : string) : M () :=
  draw ← ask (λ n, Ok (CleanUUID n));
  let temp := path +:+ "." +:+ draw in
  _ ← WriteFile temp text;
  then_always (Rename temp path) (Remove temp).

Definition ConfigureTrust (trust : UpdateTrust) : M () :=
  _ ← lift (requireHttps (ManifestUrl trust));
  rsaPub ← lift (signing_key (PublicKeyPem trust) "update signing keys must be RSA 3072 bits or larger");
  pemBytes ← lift (ParseDataFromRsaPublicKey rsaPub);
  _ ← MkdirAll root;
  writeAtomic TrustPath (write_trust (mkTrust (ManifestUrl trust) pemBytes)).

Definition read_trust_file : M string := λ w,
  match ReadFile TrustPath w with
  | (Ok (Some data), w) => (Ok data, w)
  | (_, w) => (Fail "configure a manifest URL and independently verified publisher public key first", w)
  end.

Definition Check_release (channel : string) (version : option string) : M UpdateRelease :=
  if negb (bool_decide (channel = "stable")) && negb (bool_decide (channel = "beta")) then fails "channel must be stable or beta"
  else
    trustData ← read_trust_file;
    match read_trust trustData with
    | None => fails "invalid update trust configuration"
    | Some trust =>
        _ ← lift (requireHttps (ManifestUrl trust));
        manifestBytes ← downloadBytes (ManifestUrl trust) (1024 * 1024);
        sigBytes ← downloadBytes (ManifestUrl trust +:+ ".sig") (16 * 1024);
        time ← ask (λ n, Ok (now n));
        feed ← lift (VerifyFeed manifestBytes sigBytes (PublicKeyPem trust) time);
        lift (SelectRelease feed channel version)
    end.

(** ** Archives *)

Definition executablePath (directory component : string) : res string :=
  if bool_decide (component = "cli") then Ok (Join3 directory component "openclaw")
  else if bool_decide (component = "gateway") then Ok (Join3 directory component "OpenClaw.Gateway")
  else if bool_decide (component = "companion") then Ok (Join3 directory component "OpenClaw.Companion")
  else Fail "unknown component".

Definition components : list string := ["cli"; "gateway"; "companion"].

Fixpoint validate_components (dir : string) (comps : list string) : M () :=
  match comps with
  | [] => mret tt
  | comp :: comps =>
      exe ← lift (executablePath dir comp);
      st ← Stat exe;
      match st with
      | Absent => fails ("the update is missing " +:+ comp)
      | _ => validate_components dir comps
      end
  end.
Definition validateBundleDir (dir : string) : M () := validate_components dir components.

(** One entry; the size so far and the names seen. *)
Definition unsafe_name (seen : gset string) (name : string) : bool :=
  HasPrefix name "/" || Contains name ":" || Contains name ".." || bool_decide (ToLower lower_rune name ∈ seen).

Definition extract_file (absDest : string) (file : zip_file) : M () :=
  let targetPath := Join absDest (Name file) in
  if negb (HasPrefix targetPath (absDest +:+ "/")) && negb (bool_decide (targetPath = absDest)) then fails "unsafe update archive path"
  else if IsDir file then MkdirAll targetPath
  else
    _ ← MkdirAll (Dir targetPath);
    match contents file with
    | None => fails "zip"
    | Some (data, err) =>
        _ ← WriteFile targetPath "";
        _ ← WriteFile targetPath data;
        match err with Some e => fails e | None => mret tt end
    end.

Fixpoint extract_files (absDest : string) (totalSize : Z) (seen : gset string) (files : list zip_file) : M () :=
  match files with
  | [] => mret tt
  | file :: files =>
      let name := Name file in
      if unsafe_name seen name then fails "unsafe update archive path"
      else
        let totalSize := wrap64 (totalSize + wrap64 (UncompressedSize64 file)) in
        if (4 * 1024 * 1024 * 1024 <? totalSize)%Z then fails "expanded update is too large"
        else _ ← extract_file absDest file; extract_files absDest totalSize ({[ToLower lower_rune name]} ∪ seen) files
  end.

Definition extractBundle (archivePath destination : string) : M () :=
  _ ← MkdirAll destination;
  archive ← ReadFile archivePath;
  match archive ≫= zip_reader with
  | None => fails "zip: not a valid zip file"
  | Some files =>
      if (20000 <? Z.of_nat (length files))%Z then fails "too many update files"
      else
        _ ← extract_files (Clean destination) 0 ∅ files;
        validateBundleDir destination
  end.

(** ** The startup check *)

Definition filterEnvironment (env : list string) : list string :=
  filter (λ e, HasPrefix (ToUpper upper_rune e) "OPENCLAW" = false) env.

Definition tail (val : string) : string :=
  let val := TrimSpace val in
  if (String.length val <=? 2048)%nat then val else slice_from val (String.length val - 2048).

Definition runCheck (executable : string) (args : list string) : M () :=
  r ← ask (λ n, Ok (run n executable args (filterEnvironment environ)));
  match r with
  | None => mret tt
  | Some (stdout, stderr) =>
      fails ("staged component failed its startup check; current bundle is unchanged. Output: " +:+ TrimSpace (tail stdout +:+ " " +:+ tail stderr))
  end.

Definition internalSmokeCheck (bundle : string) : M () :=
  cliExe ← lift (executablePath bundle "cli");
  _ ← runCheck cliExe ["version"];
  port ← ask free_port;
  let smokeConfig := Join (Dir bundle) "smoke.json" in
  _ ← ignore (WriteFile smokeConfig (smoke_config port (Join (Dir bundle) "smoke-memory")));
  gwExe ← lift (executablePath bundle "gateway");
  runCheck gwExe ["--config"; smokeConfig; "--doctor"].

(** ** Installing *)

(** The check an updater is made with, if any. *)
Context (smokeCheck : option (string → Disk → res ())).

Definition checkFunc (bundle : string) : M () :=
  match smokeCheck with
  | Some check => λ w, (check bundle (disk w), w)
  | None => internalSmokeCheck bundle
  end.

Definition writeLaunchers : M () := WriteFile (Join root "launch") launcher.

(** Whether an active bundle is newer than the release. *)
Definition downgrades (active : option BundleActivation) (release : UpdateRelease) : bool :=
  match active with
  | Some act =>
      if (65 <? String.length (Current act))%nat then
        match compareSemanticVersions (Version release) (slice_to (Current act) (String.length (Current act) - 65)) with
        | Some comp => (comp <? 0)%Z
        | None => false
        end
      else false
  | None => false
  end.

Definition asset_for_platform (release : UpdateRelease) : res UpdateAsset :=
  match List.find (λ asset, bool_decide (Rid asset = platform_rid)) (Assets release) with
  | None => Fail "no update for this operating system and architecture"
  | Some asset =>
      _ ← requireHttps (Url asset);
      if (Size asset <=? 0)%Z || (1024 * 1024 * 1024 <? Size asset)%Z || negb (String.length (Sha256 asset) =? 64)%nat
      then Fail "invalid update asset metadata" else Ok asset
  end.

(** The release to install, what is active, and the asset. *)
Definition choose (channel : string) (version : option string) (allowDowngrade : bool) :
    M (UpdateRelease * option BundleActivation * UpdateAsset) :=
  _ ← MkdirAll root;
  _ ← OpenCreate (Join root "update.lock");
  release ← Check_release channel version;
  active ← ReadActivation;
  if downgrades active release && negb allowDowngrade
  then fails "the feed offers an older version. Use rollback or explicitly allow a downgrade"
  else asset ← lift (asset_for_platform release); mret (release, active, asset).

(** Downloading, checking and unpacking into [staging].  The order of the sides
    is immaterial to [EqualFold]; the computed one is ASCII. *)
Definition verify_archive (asset : UpdateAsset) (archivePath : string) : M () :=
  data ← ReadFile archivePath;
  match data with
  | None => fails ("open " +:+ archivePath)
  | Some data =>
      if negb (Z.of_nat (String.length data) =? Size asset)%Z || negb (EqualFold (Sha256 asset) (hex (Sum256 (to_bytes data))))
      then fails "update asset size or SHA-256 does not match the signed manifest" else mret tt
  end.

Definition bundleDir (staging : string) : string := Join staging "bundle".

Definition stage (asset : UpdateAsset) (staging : string) : M () :=
  let archivePath := Join staging "bundle.zip" in
  _ ← downloadFile (Url asset) archivePath (Size asset);
  _ ← verify_archive asset archivePath;
  _ ← extractBundle archivePath (bundleDir staging);
  checkFunc (bundleDir staging).

Definition move_into_place (staging destination : string) : M () :=
  _ ← MkdirAll (Dir destination);
  st ← Stat destination;
  match st with
  | Present => fails "this bundle is already installed. Use update launch or rollback; existing files are not overwritten"
  | _ => Rename (bundleDir staging) destination
  end.

Definition activate (id : string) (active : option BundleActivation) : M () :=
  _ ← writeLaunchers;
  writeAtomic activationPath (write_activation (mkActivation id (Current <$> active))).

Definition bundle_id (release : UpdateRelease) (asset : UpdateAsset) : string :=
  Version release +:+ "-" +:+ ToLower lower_rune (Sha256 asset).

(** What was moved and not activated is removed again. *)
Definition or_undo (m : M ()) (destination : string) : M () := λ w,
  match m w with
  | (Ok _, w) => (Ok tt, w)
  | (Fail e, w) => (Fail e, (RemoveAll destination w).2)
  end.

Definition Install (channel : string) (version : option string) (allowDowngrade : bool) : M string :=
  '(release, active, asset) ← choose channel version allowDowngrade;
  let id := bundle_id release asset in
  let destination := bundlePath id in
  draw ← ask (λ n, Ok (CleanUUID n));
  let staging := Join root (".staging-" +:+ draw) in
  _ ← MkdirAll staging;
  _ ← then_always
        (_ ← stage asset staging; _ ← move_into_place staging destination; or_undo (activate id active) destination)
        (RemoveAll staging);
  mret destination.

Definition Rollback : M string :=
  active ← λ w, match ReadActivation w with
    | (Ok (Some active), w) => (Ok active, w)
    | (_, w) => (Fail "no managed bundle is active", w)
    end;
  match Previous active with
  | None => fails "no previous bundle is available"
  | Some previous =>
      let path := bundlePath previous in
      _ ← validateBundleDir path;
      _ ← writeAtomic activationPath (write_activation (mkActivation previous (Some (Current active))));
      mret path
  end.

Definition GetActiveExecutable (component : string) : M string :=
  active ← λ w, match ReadActivation w with
    | (Ok (Some active), w) => (Ok active, w)
    | (_, w) => (Fail "no managed bundle is active", w)
    end;
  lift (executablePath (bundlePath (Current active)) component).
End Root.
End Updater.
