(* ===== verification/BundleUpdaterSpec.v ===== *)
(** What the updater promises: archives are unpacked only where they belong; an
    installation leaves the bundles that are there alone, and if it fails also
    what is active; what it activates was named by a signed feed and tried; a
    rollback is undone by a rollback. *)

From S2P Require Import Prelude GoStrings Utf8 Encoding PathPolicy Paths Disk SemVer BundleUpdater.
Local Open Scope string_scope.
Local Open Scope list_scope.

Section Effects.
Context `{Platform}.

Lemma bind_inv {A B} (m : M A) (f : A → M B) w b w' :
  (m ≫= f) w = (Ok b, w') → ∃ a w1, m w = (Ok a, w1) ∧ f a w1 = (Ok b, w').
Proof. unfold mbind, M_bind. destruct (m w) as [[a | e] w1]; [eauto | done]. Qed.

Lemma then_always_inv {A B} (m : M A) (c : M B) w a w' :
  then_always m c w = (Ok a, w') → ∃ w1, m w = (Ok a, w1) ∧ w' = (c w1).2.
Proof. unfold then_always. destruct (m w) as [r w1]. intros [= -> <-]. eauto. Qed.

(** ** What an operation leaves alone *)

(** A path with the node [x], if any, keeps it. *)
Definition stays {A} (p : string) (x : option node) (m : M A) : Prop := ∀ w, disk w !! p = x → disk (m w).2 !! p = x.
(** It keeps it if the operation fails. *)
Definition stays_failing {A} (p : string) (x : option node) (m : M A) : Prop :=
  ∀ w e w', m w = (Fail e, w') → disk w !! p = x → disk w' !! p = x.

Section Stays.
Context (p : string) (x : option node).

Lemma stays_ret {A} (a : A) : stays p x (mret a).
Proof. by intros w Hw. Qed.
Lemma stays_fails {A} e : stays p x (fails (A := A) e).
Proof. by intros w Hw. Qed.
Lemma stays_lift {A} (r : res A) : stays p x (lift r).
Proof. by intros w Hw. Qed.
Lemma stays_ask {A} (f : nat → res A) : stays p x (ask f).
Proof. by intros w Hw. Qed.

Lemma stays_bind {A B} (m : M A) (f : A → M B) : stays p x m → (∀ a, stays p x (f a)) → stays p x (m ≫= f).
Proof.
  intros Hm Hf w Hw. unfold mbind, M_bind. specialize (Hm w Hw). destruct (m w) as [[a | e] w1]; cbn in *; [by apply Hf | done].
Qed.

(** With what is known when the first step succeeded. *)
Lemma stays_bind_when {A B} (m : M A) (f : A → M B) :
  stays p x m → (∀ a, (∃ w w1, m w = (Ok a, w1)) → stays p x (f a)) → stays p x (m ≫= f).
Proof.
  intros Hm Hf w Hw. unfold mbind, M_bind. specialize (Hm w Hw). destruct (m w) as [[a | e] w1] eqn:Heq; cbn in *; [apply Hf; eauto | done].
Qed.

Lemma stays_then_always {A B} (m : M A) (c : M B) : stays p x m → stays p x c → stays p x (then_always m c).
Proof. intros Hm Hc w Hw. unfold then_always. specialize (Hm w Hw). destruct (m w) as [r w1]. cbn in *. by apply Hc. Qed.

Lemma stays_ignore {A} (m : M A) : stays p x m → stays p x (ignore m).
Proof. intros Hm w Hw. by apply Hm. Qed.

Lemma stays_fail {A} (m : M A) : stays p x m → stays_failing p x m.
Proof. intros Hm w e w' Heq Hw. specialize (Hm w Hw). by rewrite Heq in Hm. Qed.

Lemma failing_bind {A B} (m : M A) (f : A → M B) :
  stays p x m → (∀ a, (∃ w w1, m w = (Ok a, w1)) → stays_failing p x (f a)) → stays_failing p x (m ≫= f).
Proof.
  intros Hm Hf w e w' Heq Hw. unfold mbind, M_bind in Heq. specialize (Hm w Hw).
  destruct (m w) as [[a | e1] w1] eqn:Hr; cbn in *; [eapply Hf; eauto | by simplify_eq].
Qed.

Lemma failing_then_always {A B} (m : M A) (c : M B) : stays_failing p x m → stays p x c → stays_failing p x (then_always m c).
Proof.
  intros Hm Hc w e w' Heq Hw. unfold then_always in Heq. destruct (m w) as [r w1] eqn:Hr. simplify_eq. apply Hc. by eapply Hm.
Qed.

Lemma stays_on_disk {A} (f : outcome → Disk → res A * Disk) :
  (∀ o d, d !! p = x → (f o d).2 !! p = x) → stays p x (on_disk f).
Proof. intros Hf w Hw. unfold on_disk. specialize (Hf (outcome_of (ticks w)) _ Hw). by destruct (f _ (disk w)). Qed.

Lemma make_dirs_lookup l d : foldl make_dir d l !! p = match d !! p with Some n => Some n | None => if decide (p ∈ l) then Some NDir else None end.
Proof.
  revert d. induction l as [| q l IH]; intros d; cbn [foldl].
  { destruct (d !! p); [done |]. by rewrite decide_False by (by intros ?%elem_of_nil). }
  rewrite IH. unfold make_dir. destruct (decide (p = q)) as [<- | Hne].
  - destruct (d !! p) eqn:Hd; [by rewrite Hd |]. rewrite lookup_insert_eq, decide_True by by left. done.
  - assert (match d !! q with Some _ => d | None => <[q := NDir]> d end !! p = d !! p) as ->.
    { destruct (d !! q); [done |]. by rewrite lookup_insert_ne. }
    destruct (d !! p); [done |]. destruct (decide (p ∈ l)), (decide (p ∈ q :: l)); set_solver.
Qed.

Lemma stays_MkdirAll q : x ≠ None ∨ (p ∉ ancestors q) → stays p x (MkdirAll q).
Proof.
  intros Hx. apply stays_on_disk. intros o d Hd.
  assert (∀ l, (∀ a, a ∈ l → a ∈ ancestors q) → foldl make_dir d l !! p = x) as Hl.
  { intros l Hl. rewrite make_dirs_lookup, Hd. destruct x; [done |]. destruct Hx as [Hx | Hx]; [done |].
    rewrite decide_False; [done |]. intros Hin. by apply Hx, Hl. }
  destruct o; [destruct (existsb _ _); [done | by apply Hl] | done |].
  apply Hl. intros a Ha. by apply list_elem_of_filter in Ha as [_ ?].
Qed.

Lemma stays_WriteFile q data : p ≠ q → stays p x (WriteFile q data).
Proof.
  intros Hq. apply stays_on_disk. intros o d Hd. destruct (_ || _); [done |].
  destruct o; cbn; [by rewrite lookup_insert_ne | done | by rewrite lookup_insert_ne].
Qed.

Lemma stays_OpenCreate q : p ≠ q → stays p x (OpenCreate q).
Proof.
  intros Hq. apply stays_on_disk. intros o d Hd. destruct (_ || _); [done |].
  destruct o; cbn; [| done..]. destruct (is_file d q); [done |]. by rewrite lookup_insert_ne.
Qed.

Lemma stays_ReadFile q : stays p x (ReadFile q).
Proof. apply stays_on_disk. intros o d Hd. repeat case_next; done. Qed.

Lemma stays_Stat q : stays p x (Stat q).
Proof. apply stays_on_disk. intros o d Hd. repeat case_next; done. Qed.

Lemma stays_Remove q : p ≠ q → stays p x (Remove q).
Proof.
  intros Hq. apply stays_on_disk. intros o d Hd. repeat case_next; try done. cbn. by rewrite lookup_delete_ne.
Qed.

Lemma keep_filter (P : string * node → Prop) `{∀ a, Decision (P a)} (d : Disk) :
  (∀ n, P (p, n)) → filter P d !! p = d !! p.
Proof.
  intros HP. destruct (d !! p) as [n |] eqn:Hd.
  - by apply map_lookup_filter_Some.
  - apply map_lookup_filter_None. by left.
Qed.

Lemma stays_RemoveAll q : under q p = false → stays p x (RemoveAll q).
Proof.
  intros Hq. apply stays_on_disk. intros o d <-. destruct o; cbn; [by rewrite keep_filter | done |]. rewrite keep_filter by auto. done.
Qed.

Lemma move_elsewhere from to d : under from p = false → under to p = false → move from to d !! p = d !! p.
Proof.
  intros Hfrom Hto. unfold move. rewrite lookup_union_r; [by rewrite keep_filter |].
  apply not_elem_of_list_to_map_1. rewrite list_elem_of_fmap. intros ([q n] & -> & Hin).
  apply list_elem_of_fmap in Hin as ([q' n'] & [= -> ->] & Hin). apply elem_of_map_to_list, map_lookup_filter_Some in Hin as [_ Hin].
  cbn in Hto. unfold moved_path in Hto. clear Hfrom.
  assert (under to (to +:+ slice_from q' (String.length from)) = true) as Hu; [| congruence].
  unfold under in Hin |- *. apply orb_true_iff in Hin as [->%bool_decide_eq_true | Hp].
  - rewrite bool_decide_true; [done |]. unfold slice_from. rewrite <- to_bytes_length, drop_all. rewrite <- (of_bytes_to_bytes (_ +:+ _)).
    rewrite to_bytes_append, to_bytes_of_bytes, app_nil_r. apply of_bytes_to_bytes.
  - apply orb_true_iff. right. unfold HasPrefix in *. rewrite has_prefix_spec in *. destruct Hp as [k Hk]. exists k.
    unfold slice_from. rewrite Hk, <- to_bytes_length, !to_bytes_append, to_bytes_of_bytes, <- !app_assoc, drop_app_length. done.
Qed.

Lemma rename_inv from to w a w' : Rename from to w = (Ok a, w') →
  disk w' = move from to (disk w) ∧ map_Forall (λ p _, under to p = true → p = to) (disk w) ∧ is_Some (disk w !! from) ∧
  (disk w !! to = None ∨ disk w !! to = Some NDir ∧ disk w !! from = Some NDir ∨ is_file (disk w) to = true ∧ is_file (disk w) from = true) ∧
  under from to = false.
Proof.
  unfold Rename, on_disk. case_bool_decide as Hfree; cbn [andb]; [| discriminate].
  destruct (match disk w !! from with Some _ => _ | None => _ end) eqn:Hkind; cbn [andb]; [| discriminate].
  destruct (is_dir _ _); cbn [andb]; [| discriminate]. destruct (under from to); cbn [negb]; [discriminate |].
  destruct (outcome_of _); [| discriminate..]. intros Heq. injection Heq as <- <-. cbn [disk].
  split; [done |]. split; [done |]. unfold is_file.
  destruct (disk w !! from) as [[| c] |], (disk w !! to) as [[| c'] |]; try discriminate;
    (split; [by eexists |]); (split; [| done]); [by right; left | by left | by right; right | by left].
Qed.

Lemma stays_Rename from to : under from p = false → p ≠ to → (x = None → under to p = false) → stays p x (Rename from to).
Proof.
  intros Hfrom Hto Hx w Hw. destruct (Rename from to w) as [[a | e] w'] eqn:Hr; cbn [snd].
  - apply rename_inv in Hr as (-> & Hfree & _). destruct (under to p) eqn:Hu; [| by rewrite move_elsewhere].
    destruct x as [n |]; [| by specialize (Hx eq_refl)]. by destruct (Hto (Hfree _ _ Hw Hu)).
  - unfold Rename, on_disk in Hr. destruct (_ && _); [destruct (outcome_of _) |]; by simplify_eq.
Qed.

Lemma failing_Rename from to : stays_failing p x (Rename from to).
Proof. intros w e w' Hr Hw. unfold Rename, on_disk in Hr. destruct (_ && _); [destruct (outcome_of _) |]; by simplify_eq. Qed.
End Stays.
End Effects.

#[export] Hint Resolve stays_ret stays_fails stays_lift stays_ask stays_ReadFile stays_Stat stays_ignore : goproj.

(** Walk through an operation, leaving the steps on files. *)
Ltac stay_step :=
  match goal with
  | |- stays _ _ (_ ≫= _) => apply stays_bind; [| intros]
  | |- stays _ _ (then_always _ _) => apply stays_then_always
  | |- stays _ _ (ignore _) => apply stays_ignore
  | |- stays _ _ (match ?y with _ => _ end) => destruct y eqn:?
  | |- stays _ _ _ => solve [auto with goproj]
  end.

(** ** Moving *)

Lemma under_inv from p : under from p = true → p = from +:+ slice_from p (String.length from).
Proof.
  unfold under, slice_from. intros [->%bool_decide_eq_true | Hp]%orb_true_iff; rewrite <- (of_bytes_to_bytes (_ +:+ _)), to_bytes_append, to_bytes_of_bytes.
  - rewrite <- to_bytes_length, drop_all, app_nil_r. by rewrite of_bytes_to_bytes.
  - unfold HasPrefix in Hp. apply has_prefix_spec in Hp as [k Hk]. rewrite to_bytes_append, <- app_assoc in Hk.
    by rewrite Hk, <- to_bytes_length, drop_app_length, <- Hk, of_bytes_to_bytes.
Qed.

Lemma append_cancel (a b c : string) : a +:+ b = a +:+ c → b = c.
Proof.
  intros Hab. apply (f_equal to_bytes) in Hab. rewrite !to_bytes_append in Hab. apply app_inv_head in Hab.
  by rewrite <- (of_bytes_to_bytes b), Hab, of_bytes_to_bytes.
Qed.

Lemma moved_inj from to p q : under from p = true → under from q = true → moved_path from to p = moved_path from to q → p = q.
Proof. intros Hp%under_inv Hq%under_inv Heq%append_cancel. by rewrite Hp, Hq, Heq. Qed.

Lemma moved_canon fs ts qs : fs ≠ [] → ts ≠ [] → moved_path (canon fs) (canon ts) (canon (fs ++ qs)) = canon (ts ++ qs).
Proof.
  intros Hf Ht. unfold moved_path, slice_from. rewrite !canon_app by done. f_equal.
  by rewrite to_bytes_append, <- to_bytes_length, drop_app_length, to_bytes_of_bytes.
Qed.

Lemma list_to_map_moved from to (d : Disk) p n :
  (list_to_map ((λ '(p, n), (moved_path from to p, n)) <$> map_to_list (filter (λ '(p, _), under from p = true) d)) : Disk) !! p = Some n →
  ∃ q, under from q = true ∧ p = moved_path from to q ∧ d !! q = Some n.
Proof.
  intros Hl%elem_of_list_to_map_2. apply list_elem_of_fmap in Hl as ([q m] & [= -> ->] & Hin).
  apply elem_of_map_to_list, map_lookup_filter_Some in Hin as [Hd Hu]. by exists q.
Qed.

Lemma move_inside fs ts qs (d : Disk) : fs ≠ [] → ts ≠ [] → Forall proper fs → Forall proper ts → Forall proper qs →
  map_Forall (λ p _, under (canon ts) p = true → p = canon ts) d → (is_Some (d !! canon fs)) →
  move (canon fs) (canon ts) d !! canon (ts ++ qs) = d !! canon (fs ++ qs).
Proof.
  intros Hf Ht Hfs Hts Hqs Hfree [nf Hnf]. unfold move. set (moved := list_to_map _).
  assert (Forall proper (fs ++ qs)) as Hfq by by apply Forall_app. assert (Forall proper (ts ++ qs)) as Htq by by apply Forall_app.
  destruct (d !! canon (fs ++ qs)) as [n |] eqn:Hd.
  - apply lookup_union_Some_l. subst moved. apply elem_of_list_to_map_1.
    + rewrite <- list_fmap_compose. apply NoDup_fmap_2_strong; [| apply NoDup_map_to_list].
      intros [p m] [q k] Hp Hq Heq. cbn in Heq. apply elem_of_map_to_list, map_lookup_filter_Some in Hp as [Hp Hup].
      apply elem_of_map_to_list, map_lookup_filter_Some in Hq as [Hq Huq]. assert (p = q) as -> by by eapply moved_inj. by rewrite Hp in Hq; injection Hq as ->.
    + apply list_elem_of_fmap. exists (canon (fs ++ qs), n). split; [by rewrite moved_canon |].
      apply elem_of_map_to_list, map_lookup_filter_Some. split; [done |]. apply under_canon; [done.. | by eexists].
  - apply lookup_union_None. split.
    + destruct (moved !! _) as [n |] eqn:Hm; [| done]. apply list_to_map_moved in Hm as (q & Hq & Heq & Hdq).
      rewrite <- (moved_canon fs) in Heq by done. apply moved_inj in Heq as <-; [congruence | | done]. apply under_canon; [done.. | by eexists].
    + apply map_lookup_filter_None. left. destruct (d !! canon (ts ++ qs)) as [n |] eqn:Hn; [| done].
      assert (canon (ts ++ qs) = canon ts) as Heq.
      { apply (Hfree _ _ Hn). apply under_canon; [done.. | by eexists]. }
      apply canon_inj in Heq; [| done..]. rewrite <- (app_nil_r ts) in Heq at 2. apply app_inv_head in Heq as ->. rewrite app_nil_r in Hd. congruence.
Qed.

(** ** Extraction *)

Section Extraction.
Context `{Platform} (ds : list string) (Hds : Forall proper ds) (Hne : ds ≠ []).
Context (ps : list string) (Hps : Forall proper ps) (Hout : ¬ ds `prefix_of` ps).
Context (x : option node) (Hx : x ≠ None ∨ ¬ ps `prefix_of` ds).

Local Abbreviation kept := (stays (canon ps) x).

Lemma mkdir_on_the_way qs : Forall proper qs → ds `prefix_of` qs ∨ qs `prefix_of` ds → kept (MkdirAll (canon qs)).
Proof.
  intros Hq Hway. apply stays_MkdirAll. destruct Hx as [? | Hup]; [by left | right]. rewrite ancestors_canon by done. intros Hpq.
  destruct Hway as [Hd | Hd]; [| apply Hup; by transitivity qs]. destruct (prefix_weak_total _ _ _ Hd Hpq); tauto.
Qed.

Lemma write_inside qs data : Forall proper qs → ds `prefix_of` qs → kept (WriteFile (canon qs) data).
Proof. intros Hq Hd. apply stays_WriteFile. intros Heq%canon_inj; [| done..]. by subst. Qed.

(** What passes the check of [extractBundle]. *)
Lemma target_inside name : let targetPath := Join (canon ds) name in
  HasPrefix targetPath (canon ds +:+ "/") || bool_decide (targetPath = canon ds) = true →
  ∃ qs, Forall proper qs ∧ targetPath = canon qs ∧ ds `prefix_of` qs.
Proof.
  destruct (Join_clean ds name Hds) as (qs & Hq & ->). cbv zeta. intros Hp%orb_true_iff. exists qs. split; [done |]. split; [done |].
  rewrite HasPrefix_canon, bool_decide_eq_true in Hp by done. destruct Hp as [(p & ks & ->) | ->%canon_inj]; [by eexists | done..].
Qed.

Lemma parent_on_the_way qs : Forall proper qs → ds `prefix_of` qs →
  ∃ us, Forall proper us ∧ Dir (canon qs) = canon us ∧ (ds `prefix_of` us ∨ us `prefix_of` ds).
Proof.
  intros Hq [ks ->]. destruct (decide (ks = [])) as [-> | Hk].
  - rewrite app_nil_r in *. destruct (exists_last Hne) as (us & s & ->). apply Forall_app in Hds as [Hu Hs]. apply Forall_cons in Hs as [Hs _].
    exists us. split; [done |]. split; [by apply Dir_canon | right; by eexists].
  - destruct (exists_last Hk) as (us & s & ->). rewrite app_assoc in *. apply Forall_app in Hq as [Hu Hs]. apply Forall_cons in Hs as [Hs _].
    exists (ds ++ us). split; [done |]. split; [by apply Dir_canon | left; by eexists].
Qed.

Lemma kept_extract_file file : kept (extract_file (canon ds) file).
Proof.
  unfold extract_file. rewrite <- negb_orb. destruct (_ || _) eqn:Hcheck; cbn [negb]; [| apply stays_fails].
  destruct (target_inside _ Hcheck) as (qs & Hq & Heq & Hd). rewrite Heq.
  destruct (IsDir file); [by apply mkdir_on_the_way; auto |]. destruct (parent_on_the_way qs Hq Hd) as (us & Hu & -> & Hway).
  repeat stay_step; by (apply mkdir_on_the_way || apply write_inside).
Qed.

Lemma kept_extract_files files : ∀ totalSize seen, kept (extract_files (canon ds) totalSize seen files).
Proof.
  induction files as [| file files IH]; intros totalSize seen; cbn [extract_files]; [apply stays_ret |].
  repeat stay_step. apply kept_extract_file.
Qed.

Lemma kept_validate dir comps : kept (validate_components dir comps).
Proof. induction comps as [| c comps IH]; cbn [validate_components]; repeat stay_step. Qed.

Lemma kept_extractBundle archivePath : kept (extractBundle archivePath (canon ds)).
Proof.
  unfold extractBundle. rewrite Clean_canon by done.
  repeat stay_step; [by apply mkdir_on_the_way; auto | apply kept_extract_files | apply kept_validate].
Qed.
End Extraction.

(** C23: Whatever an archive holds and however unpacking it ends, outside of the
    destination nothing that is there changes, and nothing appears but
    directories on the way to it. *)
Theorem extraction_stays_inside `{Platform} archivePath ds ps w : ds ≠ [] → Forall proper ds → Forall proper ps →
  ¬ ds `prefix_of` ps → disk w !! canon ps ≠ None ∨ ¬ ps `prefix_of` ds →
  disk (extractBundle archivePath (canon ds) w).2 !! canon ps = disk w !! canon ps.
Proof. intros Hne Hds Hps Hout Hx. by apply (kept_extractBundle ds Hds Hne ps Hps Hout (disk w !! canon ps) Hx). Qed.

(** ** Where extracted files come from *)

Section Origin.
Context `{Platform}.

(** The files an operation leaves were there, or [P] says how they came. *)
Definition adds_files {A} (P : string → string → Prop) (m : M A) : Prop :=
  ∀ w a w' p c, m w = (Ok a, w') → disk w' !! p = Some (NFile c) → disk w !! p = Some (NFile c) ∨ P p c.

Lemma adds_files_bind {A B} P (m : M A) (f : A → M B) : adds_files P m → (∀ a, adds_files P (f a)) → adds_files P (m ≫= f).
Proof.
  intros Hm Hf w b w' p c Heq Hd. apply bind_inv in Heq as (a & w1 & H1 & H2).
  destruct (Hf a w1 b w' p c H2 Hd) as [Hd1 | ?]; [by eapply Hm | by right].
Qed.

Lemma adds_files_weaken {A} (P Q : string → string → Prop) (m : M A) : (∀ p c, P p c → Q p c) → adds_files P m → adds_files Q m.
Proof. intros HPQ Hm w a w' p c Heq Hd. destruct (Hm w a w' p c Heq Hd); auto. Qed.

Lemma adds_files_same {A} P (m : M A) : (∀ w, disk (m w).2 = disk w) → adds_files P m.
Proof. intros Hm w a w' p c Heq Hd. specialize (Hm w). rewrite Heq in Hm. cbn in Hm. rewrite Hm in Hd. by left. Qed.

Lemma same_ReadFile q w : disk (ReadFile q w).2 = disk w.
Proof. unfold ReadFile, on_disk. destruct (disk w !! q) as [[|] |], (outcome_of (ticks w)); try done. by destruct (existsb _ _). Qed.
Lemma same_Stat q w : disk (Stat q w).2 = disk w.
Proof. unfold Stat, on_disk. by destruct (outcome_of (ticks w)), (disk w !! q). Qed.

Lemma adds_files_MkdirAll P q : adds_files P (MkdirAll q).
Proof.
  intros w a w' p c Heq Hd. unfold MkdirAll, on_disk in Heq. destruct (outcome_of _); [destruct (existsb _ _) | |]; try done.
  assert (disk w' = foldl make_dir (disk w) (ancestors q)) as Hw by (by injection Heq as _ <-). rewrite Hw, make_dirs_lookup in Hd. destruct (disk w !! p) as [n |]; [left; exact Hd |]. by destruct (decide _).
Qed.

Lemma WriteFile_inv q data w a w' : WriteFile q data w = (Ok a, w') → disk w' = <[q := NFile data]> (disk w).
Proof. unfold WriteFile, on_disk. destruct (_ || _); [done |]. destruct (outcome_of _); [| done..]. by intros [= _ <-]. Qed.

Lemma ReadFile_inv q w o w' : ReadFile q w = (Ok o, w') →
  disk w' = disk w ∧ match o with Some data => disk w !! q = Some (NFile data) | None => disk w !! q = None end.
Proof.
  intros Heq. pose proof (same_ReadFile q w) as Hs. rewrite Heq in Hs. split; [done |]. unfold ReadFile, on_disk in Heq.
  destruct (disk w !! q) as [[|] |], (outcome_of (ticks w)); try done; [by injection Heq as <- | ..].
  destruct (existsb _ _); [done | by injection Heq as <-].
Qed.

Lemma adds_files_WriteFile q data : adds_files (λ p _, p = q) (WriteFile q data).
Proof.
  intros w a w' p c Heq%WriteFile_inv Hd. rewrite Heq in Hd. apply lookup_insert_Some in Hd as [[<- _] | [_ Hd]]; [by right | by left].
Qed.

Lemma adds_files_OpenCreate q : adds_files (λ p _, p = q) (OpenCreate q).
Proof.
  intros w a w' p c Heq Hd. unfold OpenCreate, on_disk in Heq. destruct (_ || _); [done |]. destruct (outcome_of _); [| done..].
  injection Heq as _ <-. cbn [disk] in Hd. destruct (is_file _ q); [by left |]. apply lookup_insert_Some in Hd as [[<- _] | [_ Hd]]; [by right | by left].
Qed.

Lemma adds_files_pure {A} P (r : res A) : adds_files P (lift r).
Proof. by apply adds_files_same. Qed.
Lemma adds_files_ret {A} P (a : A) : adds_files P (mret a).
Proof. by apply adds_files_same. Qed.
Lemma adds_files_fails {A} P e : adds_files P (fails (A := A) e).
Proof. by apply adds_files_same. Qed.
Lemma adds_files_ask {A} P (f : nat → res A) : adds_files P (ask f).
Proof. by apply adds_files_same. Qed.
Lemma adds_files_ReadFile P q : adds_files P (ReadFile q).
Proof. apply adds_files_same, same_ReadFile. Qed.
Lemma adds_files_ignore {A} P (m : M A) : (∀ w p c, disk (m w).2 !! p = Some (NFile c) → disk w !! p = Some (NFile c) ∨ P p c) → adds_files P (ignore m).
Proof. intros Hm w a w' p c Heq Hd. injection Heq as _ <-. by apply Hm. Qed.

Definition from_entry (ds : list string) (files : list zip_file) (p c : string) : Prop :=
  ∃ file, file ∈ files ∧ IsDir file = false ∧ contents file = Some (c, None) ∧ p = Join (canon ds) (Name file).

Lemma extract_file_origin ds file : adds_files (from_entry ds [file]) (extract_file (canon ds) file).
Proof.
  unfold extract_file. destruct (_ && _); [by intros w a w' p c [=] |].
  destruct (IsDir file) eqn:Hdir; [apply adds_files_MkdirAll |]. apply adds_files_bind; [apply adds_files_MkdirAll |]. intros _.
  destruct (contents file) as [[data err] |] eqn:Hc; [| by intros w a w' p c [=]].
  intros w a w' p c Heq Hd. apply bind_inv in Heq as ([] & w1 & H1%WriteFile_inv & Heq). apply bind_inv in Heq as ([] & w2 & H2%WriteFile_inv & Heq).
  destruct err; [done |]. injection Heq as _ <-. rewrite H2, H1, insert_insert_eq in Hd. apply lookup_insert_Some in Hd as [[<- [= ->]] | [_ Hd]]; [right | by left].
  exists file. split; [by left | done].
Qed.

Lemma extract_files_origin ds files : ∀ totalSize seen, adds_files (from_entry ds files) (extract_files (canon ds) totalSize seen files).
Proof.
  induction files as [| file files IH]; intros totalSize seen; cbn [extract_files]; [by apply adds_files_same |].
  destruct (unsafe_name _ _); [by intros w a w' p c [=] |]. destruct (_ <? _)%Z; [by intros w a w' p c [=] |].
  apply adds_files_bind; [eapply adds_files_weaken; [| apply extract_file_origin] | intros _; eapply adds_files_weaken; [| apply IH]];
    intros p c (f & Hf & Hrest); exists f; (split; [set_solver | done]).
Qed.

Lemma same_validate dir comps w : disk (validate_components dir comps w).2 = disk w.
Proof.
  revert w. induction comps as [| comp comps IH]; intros w; cbn [validate_components]; [done |]. unfold mbind, M_bind, lift.
  destruct (executablePath dir comp) as [exe |]; [| done]. pose proof (same_Stat exe w) as Hs. destruct (Stat exe w) as [[st | e] w1]; [| done].
  cbn in Hs. rewrite <- Hs. destruct st; [apply IH | done | apply IH].
Qed.

(** The archive that is read, and what comes of it. *)
Lemma extractBundle_inv archivePath ds w w' : Forall proper ds → extractBundle archivePath (canon ds) w = (Ok tt, w') →
  ∃ w1 archive files, MkdirAll (canon ds) w = (Ok tt, w1) ∧ disk w1 !! archivePath = Some (NFile archive) ∧ zip_reader archive = Some files ∧
    ∀ p c, disk w' !! p = Some (NFile c) → disk w !! p = Some (NFile c) ∨ from_entry ds files p c.
Proof.
  intros Hds Heq. unfold extractBundle in Heq. apply bind_inv in Heq as ([] & w1 & H1 & Heq). apply bind_inv in Heq as (o & w2 & [Hsame Ho]%ReadFile_inv & Heq).
  destruct o as [archive |]; [| done]. change (Some archive ≫= zip_reader) with (zip_reader archive) in Heq. destruct (zip_reader archive) as [files |] eqn:Hz; [| done].
  destruct (_ <? _)%Z; [done |]. apply bind_inv in Heq as ([] & w3 & H3 & Heq). rewrite Clean_canon in H3 by done.
  exists w1, archive, files. split; [done |]. split; [done |]. split; [done |]. intros p c Hd.
  assert (disk (validateBundleDir (canon ds) w3).2 = disk w3) as Hv by apply same_validate. rewrite Heq in Hv. cbn in Hv. rewrite Hv in Hd.
  destruct (extract_files_origin _ _ _ _ _ _ _ _ _ H3 Hd) as [Hd2 | ?]; [| by right]. rewrite Hsame in Hd2.
  by apply (adds_files_MkdirAll (λ _ _, False) _ _ _ _ _ _ H1) in Hd2 as [? | []]; left.
Qed.
End Origin.

(** Walk through an operation that adds files, leaving the steps that do. *)
Ltac add_step :=
  match goal with
  | |- adds_files _ (_ ≫= _) => apply adds_files_bind; [| intros]
  | |- adds_files _ (match ?y with _ => _ end) => destruct y eqn:?
  | |- adds_files _ _ => first [apply adds_files_ret | apply adds_files_fails | apply adds_files_pure | apply adds_files_ask
                               | apply adds_files_ReadFile | apply adds_files_MkdirAll]
  end.

(** ** Installing *)

Lemma proper_long s : (3 ≤ String.length s)%nat → sep ∉ to_bytes s → proper s.
Proof. intros Hlen Hs. unfold proper. split_and!; [by intros ->; cbn in Hlen; lia.. | done]. Qed.

Lemma proper_append s t : (3 ≤ String.length s)%nat → (sep ∉ to_bytes s) → (sep ∉ to_bytes t) → proper (s +:+ t).
Proof.
  intros Hlen Hs Ht. apply proper_long; [rewrite <- to_bytes_length, to_bytes_append, length_app, to_bytes_length; lia |].
  rewrite to_bytes_append, elem_of_app. tauto.
Qed.

Lemma canon_suffix rs s t : canon (rs ++ [s]) +:+ t = canon (rs ++ [s +:+ t]).
Proof.
  assert (∀ u, to_bytes (canon (rs ++ [u])) = flat rs ++ sep :: to_bytes u) as Hc.
  { intros u. rewrite to_bytes_canon, flat_app by (by destruct rs). unfold flat. cbn. by rewrite app_nil_r. }
  rewrite <- (of_bytes_to_bytes (_ +:+ _)), <- (of_bytes_to_bytes (canon (rs ++ [s +:+ t]))), to_bytes_append, !Hc, to_bytes_append, <- app_assoc. done.
Qed.

Lemma prefix_of_snoc {A} (l k : list A) x y : l ++ [x] `prefix_of` k ++ [y] → l ++ [x] ≠ k ++ [y] → l ++ [x] `prefix_of` k.
Proof.
  intros [m Hm] Hne. destruct m as [| z m _] using rev_ind; [by rewrite app_nil_r in Hm |].
  rewrite app_assoc in Hm. apply app_inj_tail in Hm as [-> _]. by eexists.
Qed.

Section Install.
Context `{Platform} (rs : list string) (Hrs : Forall proper rs).
Context (uuid_name : ∀ n, sep ∉ to_bytes (CleanUUID n)).
Context (smokeCheck : option (string → Disk → res ())).

Local Abbreviation root := (canon rs).
Local Abbreviation staging n := (rs ++ [".staging-" +:+ CleanUUID n]).
Local Abbreviation temporary n := (rs ++ ["active.json" +:+ "." +:+ CleanUUID n]).

(** What an installation has to leave alone. *)
Record spared (ps : list string) (x : option node) : Prop := {
  sp_proper : Forall proper ps;
  sp_lock : ps ≠ rs ++ ["update.lock"];
  sp_launch : ps ≠ rs ++ ["launch"];
  sp_staging n : ¬ staging n `prefix_of` ps;
  sp_temporary n : ¬ temporary n `prefix_of` ps;
  sp_bundle id : ps ≠ rs ++ ["bundles"; id];
  sp_kind : x ≠ None ∨ ∃ a, ps = rs ++ [a] ∧ a ≠ "bundles";
}.

Lemma staging_name n : proper (".staging-" +:+ CleanUUID n).
Proof. apply proper_append; [cbn; lia | refine (bool_decide_unpack _ _); vm_compute; exact I | apply uuid_name]. Qed.
Lemma temporary_name n : proper ("active.json" +:+ "." +:+ CleanUUID n).
Proof.
  apply proper_append; [cbn; lia | refine (bool_decide_unpack _ _); vm_compute; exact I |]. rewrite to_bytes_append, elem_of_app. intros [Hs | Hs]; [| by apply uuid_name in Hs].
  revert Hs. vm_compute. set_solver.
Qed.

Lemma proper_snoc l s : Forall proper l → proper s → Forall proper (l ++ [s]).
Proof. intros Hl Hs. apply Forall_app. by split; [| constructor]. Qed.

Lemma not_own ps x l s : spared ps x → Forall proper l → proper s → ps ≠ l ++ [s] → canon ps ≠ canon (l ++ [s]).
Proof. intros Hsp Hl Hs Hne Heq. apply canon_inj in Heq; [done | apply Hsp | by apply proper_snoc]. Qed.

(** ** The name of a bundle *)

Lemma hex_digits l : Forall (λ c, lower c = c ∧ c ≠ sep ∧ lower c ≠ byte 115 ∧ lower c ≠ byte 107 ∧ (code c < 128)%N) (to_bytes (hex l)).
Proof.
  unfold hex. rewrite to_bytes_of_bytes. apply Forall_concat, Forall_map, Forall_true. intros c.
  assert (∀ n, (n < 16)%N → lower (hex_digit n) = hex_digit n ∧ hex_digit n ≠ sep ∧ lower (hex_digit n) ≠ byte 115 ∧
    lower (hex_digit n) ≠ byte 107 ∧ (code (hex_digit n) < 128)%N) as Hn.
  { intros n Hn. assert (n ∈ N.of_nat <$> seq 0 16) as Hin.
    { apply list_elem_of_fmap. exists (N.to_nat n). split; [by rewrite N2Nat.id | apply elem_of_seq; lia]. }
    clear Hn. revert n Hin. apply Forall_forall. refine (bool_decide_unpack _ _). vm_compute. exact I. }
  pose proof (code_below_256 c). apply Forall_cons. split; [apply Hn, N.Div0.div_lt_upper_bound; lia |].
  apply Forall_cons. split; [apply Hn, N.mod_lt; lia | constructor].
Qed.

(** The digest of the feed is the computed one, up to case. *)
Lemma digest_lower sha l : EqualFold sha (hex l) = true → ToLower lower_rune sha = hex l.
Proof.
  unfold EqualFold. intros Heq. pose proof (hex_digits l) as Hhex.
  assert (map lower (to_bytes sha) = to_bytes (hex l) ∧ forallb (λ c, (code c <? 128)%N) (to_bytes sha) = true) as [Hmap Hall].
  { revert Heq Hhex. generalize (to_bytes (hex l)) (to_bytes sha). intros t. induction t as [| c t IH]; intros s Heq Hhex; [by destruct s |].
    apply Forall_cons in Hhex as [(Hc & _ & Hs & Hk & _) Hhex]. destruct s as [| b s]; [done |]. cbn in Heq.
    destruct (N.ltb_spec (code b) 128) as [Hb |]; cbn [andb] in Heq.
    - case_bool_decide as Hl; [| by rewrite !bool_decide_false in Heq]. destruct (IH s Heq Hhex) as [IH1 IH2]. cbn.
      split; [by rewrite IH1, Hl, Hc |]. by rewrite IH2, (proj2 (N.ltb_lt _ _)).
    - by rewrite !bool_decide_false in Heq. }
  unfold ToLower. by rewrite Hall, Hmap, of_bytes_to_bytes.
Qed.

Lemma version_plain v : validateVersion v = Ok tt → (sep ∉ to_bytes v) ∧ v ≠ "".
Proof.
  intros (Hall & Hne & _)%valid_version_bytes. split; [| done]. intros Hin. rewrite Forall_forall in Hall. by apply Hall in Hin.
Qed.

Lemma bundle_id_proper release asset l : validateVersion (Version release) = Ok tt → EqualFold (Sha256 asset) (hex l) = true →
  length l = 32%nat → bundle_id release asset = Version release +:+ "-" +:+ hex l ∧ proper (bundle_id release asset).
Proof.
  intros [Hv Hne]%version_plain Hd Hl. unfold bundle_id. rewrite (digest_lower _ _ Hd). split; [done |].
  pose proof (hex_digits l) as Hhex. apply proper_long.
  - rewrite <- to_bytes_length, !to_bytes_append, !length_app. unfold hex. rewrite to_bytes_of_bytes.
    assert (∀ k : bytes, length (concat (map (λ c, [hex_digit (code c / 16); hex_digit (code c mod 16)]) k)) = (2 * length k)%nat) as ->.
    { intros k. induction k as [| c k IH]; cbn in *; lia. } lia.
  - rewrite !to_bytes_append, !elem_of_app. intros [? | [Hin | Hin]]; [done | by revert Hin; vm_compute; set_solver |].
    rewrite Forall_forall in Hhex. by apply Hhex in Hin as (_ & ? & _).
Qed.

(** ** The stages *)

Section Spared.
Context (ps : list string) (x : option node) (Hsp : spared ps x).
Local Abbreviation kept := (stays (canon ps) x).

Lemma kept_mkdir qs : Forall proper qs → (∀ a, ps = rs ++ [a] → a ≠ "bundles" → ¬ ps `prefix_of` qs) → kept (MkdirAll (canon qs)).
Proof.
  intros Hq Hno. apply stays_MkdirAll. destruct (sp_kind _ _ Hsp) as [? | (a & Ha & Hab)]; [by left | right].
  rewrite ancestors_canon; [by eapply Hno | apply Hsp | done].
Qed.

Lemma kept_write l s data : Forall proper l → proper s → ps ≠ l ++ [s] → kept (WriteFile (canon (l ++ [s])) data).
Proof. intros Hl Hs Hne. apply stays_WriteFile. by eapply not_own. Qed.

Lemma not_staging n ks : ps ≠ staging n ++ ks.
Proof. intros ->. apply (sp_staging _ _ Hsp n). by eexists. Qed.

Lemma proper_staging n : Forall proper (staging n).
Proof. apply proper_snoc; [done | apply staging_name]. Qed.

Lemma kept_downloadFile url n max : kept (downloadFile url (Join (canon (staging n)) "bundle.zip") max).
Proof.
  rewrite Join_name by (apply proper_staging || name). unfold downloadFile, get.
  repeat stay_step; (apply kept_write; [apply proper_staging | name | apply not_staging]).
Qed.

Lemma kept_checkFunc n : kept (checkFunc smokeCheck (bundleDir (canon (staging n)))).
Proof.
  unfold checkFunc, bundleDir. rewrite Join_name by (apply proper_staging || name). destruct smokeCheck; [by intros w Hw |].
  unfold internalSmokeCheck, runCheck. rewrite Dir_canon, Join_name by (apply proper_staging || name).
  repeat stay_step. apply kept_write; [apply proper_staging | name | apply not_staging].
Qed.

Lemma kept_stage asset n : kept (stage smokeCheck asset (canon (staging n))).
Proof.
  unfold stage, verify_archive. repeat stay_step; [apply kept_downloadFile | | apply kept_checkFunc].
  unfold bundleDir. rewrite (Join_name _ "bundle") by (apply proper_staging || name).
  apply kept_extractBundle; [apply proper_snoc; [apply proper_staging | name] | by destruct rs | apply Hsp | |].
  - intros [k Hk]. rewrite <- app_assoc in Hk. by apply not_staging in Hk.
  - destruct (sp_kind _ _ Hsp) as [? | (b & Hb & _)]; [by left | right]. subst ps. intros Hp.
    apply prefix_of_snoc in Hp; [| intros Heq; apply app_inj_tail in Heq as [Heq _]; apply (f_equal length) in Heq; rewrite length_app in Heq; cbn in Heq; lia].
    apply (sp_staging _ _ Hsp n). destruct Hp as [k Hk]. apply (f_equal length) in Hk as Hlen. rewrite !length_app in Hlen. cbn in Hlen.
    destruct k; [| cbn in Hlen; lia]. exists []. by rewrite app_nil_r in *.
Qed.

Lemma kept_check channel version : kept (Check_release root channel version).
Proof.
  unfold Check_release, downloadBytes, get. repeat stay_step.
  intros w Hw. unfold read_trust_file. pose proof (stays_ReadFile (canon ps) x (TrustPath root) w Hw) as Hr.
  by destruct (ReadFile _ w) as [[[data |] | e] w1].
Qed.

Lemma kept_mkdir_root : kept (MkdirAll root).
Proof. apply kept_mkdir; [done |]. intros b Hb _ Hp. rewrite Hb in Hp. by apply prefix_snoc_not in Hp. Qed.

Lemma kept_lock : kept (OpenCreate (Join root "update.lock")).
Proof. rewrite Join_name by (done || name). apply stays_OpenCreate. eapply not_own; [done.. | name | apply Hsp]. Qed.

Lemma kept_choose channel version allowDowngrade : kept (choose root channel version allowDowngrade).
Proof.
  unfold choose, ReadActivation. repeat stay_step; [apply kept_mkdir_root | apply kept_lock | apply kept_check].
Qed.

Lemma rename_temp n : kept (Rename (canon (temporary n)) (canon (rs ++ ["active.json"]))) ∨ ps = rs ++ ["active.json"].
Proof.
  destruct (decide (ps = rs ++ ["active.json"])) as [| Hne]; [by right | left].
  apply stays_Rename.
  - apply not_under; [by destruct rs | apply proper_snoc; [done | apply temporary_name] | apply Hsp | apply Hsp].
  - eapply not_own; [done.. | name | done].
  - intros ->. destruct (sp_kind _ _ Hsp) as [? | (a & -> & _)]; [done |].
    apply not_under; [by destruct rs | apply proper_snoc; [done | name] | apply Hsp |].
    intros Hp. apply prefix_of_snoc in Hp; [| by intros Heq; rewrite Heq in Hne]. by apply prefix_snoc_not in Hp.
Qed.

Lemma kept_temp n data : kept (WriteFile (canon (temporary n)) data) ∧ kept (Remove (canon (temporary n))).
Proof.
  assert (canon ps ≠ canon (temporary n)) as Hne.
  { eapply not_own; [done.. | apply temporary_name |]. intros ->. by apply (sp_temporary _ _ Hsp n). }
  split; [by apply stays_WriteFile | by apply stays_Remove].
Qed.

Lemma failing_writeAtomic text : stays_failing (canon ps) x (writeAtomic (activationPath root) text).
Proof.
  unfold writeAtomic, activationPath. rewrite Join_name by (done || name).
  apply failing_bind; [apply stays_ask |]. intros draw (w & w1 & [= <- <-]). rewrite canon_suffix.
  apply failing_bind; [apply kept_temp |]. intros _ _. apply failing_then_always; [apply failing_Rename | by apply (kept_temp _ "")].
Qed.

Lemma kept_writeAtomic text : ps ≠ rs ++ ["active.json"] → kept (writeAtomic (activationPath root) text).
Proof.
  intros Hne. unfold writeAtomic, activationPath. rewrite Join_name by (done || name).
  apply stays_bind_when; [apply stays_ask |]. intros draw (w & w1 & [= <- <-]). rewrite canon_suffix.
  apply stays_bind; [apply kept_temp |]. intros _. apply stays_then_always; [by destruct (rename_temp (ticks w)) | by apply (kept_temp _ "")].
Qed.

Lemma kept_launch : kept (writeLaunchers root).
Proof. unfold writeLaunchers. rewrite Join_name by (done || name). apply kept_write; [done | name | apply Hsp]. Qed.
End Spared.

(** The move and what follows it. *)
Definition publish (n : nat) (id : string) (active : option BundleActivation) : M () :=
  _ ← move_into_place (canon (staging n)) (bundlePath root id);
  or_undo (activate root id active) (bundlePath root id).

Lemma proper_bundles : Forall proper (rs ++ ["bundles"]).
Proof. apply proper_snoc; [done | name]. Qed.

Lemma bundlePath_names id : proper id → bundlePath root id = canon ((rs ++ ["bundles"]) ++ [id]).
Proof. intros Hid. unfold bundlePath. rewrite Join3_names by (done || name). by rewrite <- app_assoc. Qed.

Section Publish.
Context (ps : list string) (x : option node) (Hsp : spared ps x) (id : string) (Hid : proper id).

Lemma not_destination : canon ps ≠ bundlePath root id.
Proof.
  rewrite bundlePath_names by done. eapply not_own; [done | apply proper_bundles | done |]. rewrite <- app_assoc. apply Hsp.
Qed.

Lemma short_not_in_destination : x = None → under (bundlePath root id) (canon ps) = false.
Proof.
  intros Hx. destruct (sp_kind _ _ Hsp) as [? | (a & Ha & _)]; [done |].
  rewrite bundlePath_names by done. apply not_under; [by destruct rs | by apply proper_snoc; [apply proper_bundles |] | apply Hsp |].
  rewrite Ha. intros [k Hk]. apply (f_equal length) in Hk. rewrite !length_app in Hk. cbn in Hk. lia.
Qed.

Lemma not_in_bundle n : under (bundleDir (canon (staging n))) (canon ps) = false.
Proof.
  unfold bundleDir. rewrite Join_name by (apply proper_staging || name).
  apply not_under; [by destruct rs | apply proper_snoc; [apply proper_staging | name] | apply Hsp |].
  intros [k Hk]. rewrite <- app_assoc in Hk. by apply (not_staging _ _ Hsp) in Hk.
Qed.

Lemma kept_mkdir_bundles : stays (canon ps) x (MkdirAll (Dir (bundlePath root id))).
Proof.
  rewrite bundlePath_names, Dir_canon by (apply proper_bundles || done). apply (kept_mkdir _ _ Hsp); [apply proper_bundles |].
  intros b Hb Hne Hp. rewrite Hb in Hp. destruct Hp as [k Hk]. rewrite <- app_assoc in Hk. apply app_inv_head in Hk. cbn in Hk. by injection Hk as <-.
Qed.

Lemma kept_move n : stays (canon ps) x (move_into_place (canon (staging n)) (bundlePath root id)).
Proof.
  unfold move_into_place. repeat stay_step; [apply kept_mkdir_bundles | ..];
    (apply stays_Rename; [apply not_in_bundle | apply not_destination | apply short_not_in_destination]).
Qed.

(** After the move nothing that was there lies in the destination. *)
Lemma moved_apart n w w' : move_into_place (canon (staging n)) (bundlePath root id) w = (Ok tt, w') → disk w !! canon ps = x →
  under (bundlePath root id) (canon ps) = false.
Proof.
  intros Hm Hw. destruct (under _ (canon ps)) eqn:Hu; [| done]. unfold move_into_place in Hm.
  apply bind_inv in Hm as ([] & w1 & H1 & Hm). apply bind_inv in Hm as (st & w2 & H2 & Hm).
  assert (disk w2 !! canon ps = x) as Hw2.
  { pose proof kept_mkdir_bundles as Hk. specialize (Hk w). rewrite H1 in Hk. specialize (Hk Hw). cbn in Hk.
    pose proof (stays_Stat (canon ps) x (bundlePath root id) w1 Hk) as Hs. by rewrite H2 in Hs. }
  assert (Rename (bundleDir (canon (staging n))) (bundlePath root id) w2 = (Ok tt, w')) as Hr by by destruct st.
  apply rename_inv in Hr as (_ & Hfree & _). destruct (disk w2 !! canon ps) as [nd |] eqn:Hnd.
  - by destruct (not_destination (Hfree _ _ Hnd Hu)).
  - by rewrite short_not_in_destination in Hu.
Qed.
End Publish.

Section Publishing.
Context (ps : list string) (x : option node) (Hsp : spared ps x) (id : string) (Hid : proper id).
Context (active : option BundleActivation).

Lemma failing_activate : stays_failing (canon ps) x (activate root id active).
Proof. apply failing_bind; [by apply kept_launch |]. intros _ _. by apply failing_writeAtomic. Qed.

Lemma kept_activate : ps ≠ rs ++ ["active.json"] → stays (canon ps) x (activate root id active).
Proof. intros Hne. apply stays_bind; [by apply kept_launch |]. intros _. by apply kept_writeAtomic. Qed.

Lemma failing_publish n : stays_failing (canon ps) x (publish n id active).
Proof.
  intros w e w' Heq Hw. unfold publish, mbind, M_bind in Heq.
  pose proof (kept_move ps x Hsp id Hid n w Hw) as Hmove.
  destruct (move_into_place _ _ w) as [[[] | e1] w1] eqn:Hm; [| by simplify_eq]. cbn in Hmove.
  unfold or_undo in Heq. destruct (activate _ _ _ w1) as [[[] | e2] w2] eqn:Ha; [done |]. injection Heq as <- <-.
  apply stays_RemoveAll; [by eapply moved_apart | by eapply failing_activate].
Qed.

Lemma kept_publish n : ps ≠ rs ++ ["active.json"] → stays (canon ps) x (publish n id active).
Proof.
  intros Hne w Hw. destruct (publish n id active w) as [[[] | e] w'] eqn:Heq; [| by eapply failing_publish]. cbn.
  unfold publish, mbind, M_bind in Heq. pose proof (kept_move ps x Hsp id Hid n w Hw) as Hmove.
  destruct (move_into_place _ _ w) as [[[] | e1] w1] eqn:Hm; [| done]. cbn in Hmove.
  unfold or_undo in Heq. pose proof (kept_activate Hne w1 Hmove) as Hact.
  destruct (activate _ _ _ w1) as [[[] | e2] w2] eqn:Ha; [by injection Heq as <- | done].
Qed.

Lemma kept_RemoveAll_staging n : stays (canon ps) x (RemoveAll (canon (staging n))).
Proof. apply stays_RemoveAll, not_under; [by destruct rs | apply proper_staging | apply Hsp | apply Hsp]. Qed.

Lemma kept_mkdir_staging n : stays (canon ps) x (MkdirAll (canon (staging n))).
Proof.
  apply (kept_mkdir _ _ Hsp); [apply proper_staging |]. intros b Hb _ [k Hk]. rewrite Hb, <- app_assoc in Hk. apply app_inv_head in Hk.
  cbn in Hk. injection Hk as Hk _. apply (sp_staging _ _ Hsp n). rewrite Hb, Hk. done.
Qed.
End Publishing.

(** ** What a chosen release and a staged archive are *)

Lemma select_release feed channel version release : SelectRelease feed channel version = Ok release →
  validateVersion (Version release) = Ok tt ∧ release ∈ default [] (Releases feed) ∧ Channel release = channel ∧
  (∀ v, version = Some v → Version release = v).
Proof.
  unfold SelectRelease. destruct (List.find _ _) as [found |] eqn:Hf; [| done]. apply List.find_some in Hf as [Hin Hf].
  destruct (validateVersion (Version found)) as [[] | e] eqn:Hv; cbn; [| done]. intros [= <-].
  apply andb_true_iff in Hf as [Hc%bool_decide_eq_true Hver]. split; [done |]. split; [by apply list_elem_of_In |]. split; [done |].
  intros v ->. by apply bool_decide_eq_true in Hver.
Qed.

Lemma choose_inv channel version allowDowngrade w release active asset w' :
  choose root channel version allowDowngrade w = (Ok (release, active, asset), w') →
  ∃ w1 w2 w3, Check_release root channel version w1 = (Ok release, w2) ∧ ReadActivation root w2 = (Ok active, w3) ∧
    (downgrades active release = true → allowDowngrade = true) ∧ asset_for_platform release = Ok asset ∧
    w1 = (OpenCreate (Join root "update.lock") (MkdirAll root w).2).2.
Proof.
  unfold choose. intros ([] & wa & Ha & Hc)%bind_inv. apply bind_inv in Hc as ([] & w1 & H1 & Hc). apply bind_inv in Hc as (rel & w2 & H2 & Hc).
  apply bind_inv in Hc as (act & w3 & H3 & Hc). exists w1, w2, w3.
  destruct (downgrades act rel) eqn:Hd, allowDowngrade; cbn [andb negb] in Hc; try done;
    (apply bind_inv in Hc as (a & w4 & H4 & Hc); unfold lift in H4; injection H4 as H4 <-; injection Hc as -> -> -> <-;
     rewrite Ha; cbn [snd]; rewrite H1; cbn [snd]; by rewrite <- Hd || done).
Qed.

(** The release is in a feed that the configured key, of at least 3072 bits,
    signs and that is not expired; the feed was fetched by HTTPS. *)
Record signed_release (w : world) (channel : string) (version : option string) (release : UpdateRelease)
    (trustText : string) (trust : UpdateTrust) (key : PublicKey) (manifest signature : string) (feed : UpdateFeed) (time : nat) : Prop := {
  sr_text : disk w !! TrustPath root = Some (NFile trustText);
  sr_trust : read_trust trustText = Some trust;
  sr_https : requireHttps (ManifestUrl trust) = Ok tt;
  sr_key : ParseRsaPublicKeyFromPem (PublicKeyPem trust) = Ok key;
  sr_size : (3072 ≤ key_Size key * 8)%Z;
  sr_signed : VerifyPKCS1v15 key (Sum256 (to_bytes manifest)) signature = true;
  sr_feed : read_feed manifest = Some feed;
  sr_schema : SchemaVersion feed = 1%Z;
  sr_fresh : (now time ≤ ExpiresAtUtc feed)%Z;
  sr_release : release ∈ default [] (Releases feed);
  sr_channel : Channel release = channel ∧ (channel = "stable" ∨ channel = "beta");
  sr_version : ∀ v, version = Some v → Version release = v;
  sr_valid : validateVersion (Version release) = Ok tt;
}.

Lemma signing_key_inv pem error key : signing_key pem error = Ok key →
  ParseRsaPublicKeyFromPem pem = Ok key ∧ (3072 ≤ key_Size key * 8)%Z.
Proof. unfold signing_key. destruct (ParseRsaPublicKeyFromPem pem) as [k |]; [| done]. destruct (Z.ltb_spec (key_Size k * 8) 3072); [done |]. by intros [= <-]. Qed.

Lemma verify_inv manifest signature pem time feed : VerifyFeed manifest signature pem time = Ok feed →
  ∃ key, ParseRsaPublicKeyFromPem pem = Ok key ∧ (3072 ≤ key_Size key * 8)%Z ∧
    VerifyPKCS1v15 key (Sum256 (to_bytes manifest)) signature = true ∧ read_feed manifest = Some feed ∧
    SchemaVersion feed = 1%Z ∧ (time ≤ ExpiresAtUtc feed)%Z.
Proof.
  unfold VerifyFeed, mbind, res_bind. destruct (signing_key _ _) as [key |] eqn:Hk; [| done]. apply signing_key_inv in Hk as [Hk Hsize].
  destruct (VerifyPKCS1v15 _ _ _) eqn:Hv; [| done]. cbn [negb]. destruct (read_feed manifest) as [f |]; [| done].
  destruct (Z.eqb_spec (SchemaVersion f) 1); [| done]. destruct (Z.ltb_spec (ExpiresAtUtc f) time); [done |]. cbn [negb orb].
  case_bool_decide; [done |]. intros [= <-]. by exists key.
Qed.

Lemma check_inv w channel version release w' : Check_release root channel version w = (Ok release, w') →
  ∃ text trust key manifest signature feed time, signed_release w channel version release text trust key manifest signature feed time.
Proof.
  unfold Check_release. destruct (_ && _) eqn:Hchannel; [done |]. intros (text & w1 & H1 & Heq)%bind_inv.
  assert (channel = "stable" ∨ channel = "beta") as Hch.
  { destruct (bool_decide_reflect (channel = "stable")), (bool_decide_reflect (channel = "beta")); [by left | by left | by right | done]. }
  unfold read_trust_file in H1. destruct (ReadFile (TrustPath root) w) as [[[data |] | e] wr] eqn:Hr; [| done..]. injection H1 as -> ->.
  apply ReadFile_inv in Hr as [_ Hr]. destruct (read_trust text) as [trust |] eqn:Ht; [| done].
  apply bind_inv in Heq as ([] & w2 & H2 & Heq). unfold lift in H2. injection H2 as H2 _.
  apply bind_inv in Heq as (manifest & w3 & _ & Heq). apply bind_inv in Heq as (sig & w4 & _ & Heq).
  apply bind_inv in Heq as (time & w5 & H5 & Heq). unfold ask in H5. injection H5 as <- _.
  apply bind_inv in Heq as (feed & w6 & H6 & Heq). unfold lift in H6, Heq. injection H6 as H6 _. injection Heq as Heq _.
  apply verify_inv in H6 as (key & ? & ? & ? & ? & ? & ?). apply select_release in Heq as (? & ? & ? & ?).
  exists text, trust, key, manifest, sig, feed, (ticks w4). split; auto.
Qed.

(** What was staged: an archive of the size and digest of the asset, unpacked
    and tried. *)
Lemma stage_inv asset n w w' : stage smokeCheck asset (canon (staging n)) w = (Ok tt, w') →
  ∃ archive files w1 w2 w3, (Z.of_nat (String.length archive) = Size asset ∧ EqualFold (Sha256 asset) (hex (Sum256 (to_bytes archive))) = true) ∧
    zip_reader archive = Some files ∧
    downloadFile (Url asset) (Join (canon (staging n)) "bundle.zip") (Size asset) w = (Ok tt, w1) ∧ disk w2 = disk w1 ∧
    (∀ p c, disk w3 !! p = Some (NFile c) → disk w2 !! p = Some (NFile c) ∨ from_entry (staging n ++ ["bundle"]) files p c) ∧
    checkFunc smokeCheck (bundleDir (canon (staging n))) w3 = (Ok tt, w').
Proof.
  unfold stage. intros ([] & w1 & H1 & Heq)%bind_inv. apply bind_inv in Heq as ([] & w2 & H2 & Heq). apply bind_inv in Heq as ([] & w3 & H3 & Hcheck).
  unfold verify_archive in H2. apply bind_inv in H2 as (o & wr & [Hsame Ho]%ReadFile_inv & H2). destruct o as [archive |]; [| done].
  destruct (Z.eqb_spec (Z.of_nat (String.length archive)) (Size asset)); [| done]. cbn [negb orb] in H2.
  destruct (EqualFold _ _) eqn:Hsha; [| done]. injection H2 as <-.
  assert (Forall proper (staging n ++ ["bundle"])) as Hds by (apply proper_snoc; [apply proper_snoc; [done | apply staging_name] | name]).
  assert (Forall proper (staging n)) as Hst by (apply proper_snoc; [done | apply staging_name]).
  unfold bundleDir in H3. rewrite (Join_name _ "bundle") in H3 by (done || name). apply extractBundle_inv in H3 as (wm & data & files & Hm & Hdata & Hz & Horigin); [| done].
  assert (data = archive) as ->.
  { apply (adds_files_MkdirAll (λ _ _, False) _ _ _ _ _ _ Hm) in Hdata as [Hdata | []]. rewrite Hsame, Ho in Hdata. by injection Hdata. }
  exists archive, files, w1, wr, w3. by repeat split.
Qed.

(** The paths an installation may change: its lock, the launcher, its staging
    and temporary files; and the directories of bundles themselves. *)
Definition own_path (ps : list string) : Prop :=
  ps = rs ++ ["update.lock"] ∨ ps = rs ++ ["launch"] ∨ (∃ n, staging n `prefix_of` ps) ∨ (∃ n, temporary n `prefix_of` ps) ∨
  ∃ id, ps = rs ++ ["bundles"; id].

Lemma spared_file ps c : Forall proper ps → ¬ own_path ps → spared ps (Some (NFile c)).
Proof.
  intros Hp Hown. unfold own_path in Hown. split; [done | | | | | | by left]; intros; intros Heq; apply Hown; eauto 10.
Qed.

Lemma spared_name a x : proper a → a ≠ "update.lock" → a ≠ "launch" → a ≠ "bundles" → HasPrefix a ".staging-" = false →
  HasPrefix a "active.json." = false → spared (rs ++ [a]) x.
Proof.
  intros Ha Hl Hlaunch Hb Hst Htmp. split; [by apply proper_snoc | | | | | |].
  - intros Heq. apply app_inj_tail in Heq as [_ ->]. done.
  - intros Heq. apply app_inj_tail in Heq as [_ ->]. done.
  - intros n [k Hk]. rewrite <- app_assoc in Hk. apply app_inv_head in Hk. injection Hk as -> _.
    unfold HasPrefix in Hst. rewrite to_bytes_append in Hst. apply not_true_iff_false in Hst. apply Hst, has_prefix_spec. by eexists.
  - intros n [k Hk]. rewrite <- app_assoc in Hk. apply app_inv_head in Hk. injection Hk as -> _.
    unfold HasPrefix in Htmp. rewrite !to_bytes_append in Htmp. apply not_true_iff_false in Htmp. apply Htmp, has_prefix_spec. rewrite app_assoc. by eexists.
  - intros id Hk. apply app_inv_head in Hk. done.
  - right. by exists a.
Qed.

Lemma spared_activation x : spared (rs ++ ["active.json"]) x.
Proof. apply spared_name; [name | done..]. Qed.
Lemma spared_trust x : spared (rs ++ ["trust.json"]) x.
Proof. apply spared_name; [name | done..]. Qed.

Lemma Install_unfold channel version allowDowngrade : Install root smokeCheck channel version allowDowngrade =
  ('(release, active, asset) ← choose root channel version allowDowngrade;
   draw ← ask (λ n, Ok (CleanUUID n));
   _ ← MkdirAll (Join root (".staging-" +:+ draw));
   _ ← then_always (_ ← stage smokeCheck asset (Join root (".staging-" +:+ draw));
                    _ ← move_into_place (Join root (".staging-" +:+ draw)) (bundlePath root (bundle_id release asset));
                    or_undo (activate root (bundle_id release asset) active) (bundlePath root (bundle_id release asset)))
                   (RemoveAll (Join root (".staging-" +:+ draw)));
   mret (bundlePath root (bundle_id release asset))).
Proof. reflexivity. Qed.

Lemma chosen_id channel version allowDowngrade release active asset :
  (∃ w w1, choose root channel version allowDowngrade w = (Ok (release, active, asset), w1)) →
  ∀ n, (∃ w w1, stage smokeCheck asset (canon (staging n)) w = (Ok tt, w1)) → proper (bundle_id release asset).
Proof.
  intros (w & w1 & Hc) n (wa & wb & Hs). apply choose_inv in Hc as (wx & wy & wz & Hcheck & _).
  apply check_inv in Hcheck as (? & ? & ? & ? & ? & ? & ? & Hsr). apply stage_inv in Hs as (archive & ? & ? & ? & ? & [_ Hsha] & _).
  eapply bundle_id_proper; [apply Hsr | exact Hsha | apply length_Sum256].
Qed.

Section Whole.
Context (ps : list string) (x : option node) (Hsp : spared ps x) (channel : string) (version : option string) (allowDowngrade : bool).

Lemma failing_Install : stays_failing (canon ps) x (Install root smokeCheck channel version allowDowngrade).
Proof.
  rewrite Install_unfold. apply failing_bind; [by apply kept_choose |]. intros [[release active] asset] Hchoose.
  apply failing_bind; [apply stays_ask |]. intros draw (w & w1 & [= <- <-]). rewrite Join_name by (done || apply staging_name).
  apply failing_bind; [by apply kept_mkdir_staging |]. intros _ _.
  intros w2 e w3 Heq Hw. unfold mbind at 1, M_bind in Heq. destruct (then_always _ _ w2) as [[[] | e'] w4] eqn:Ht; [done |]. injection Heq as <- <-.
  revert Ht Hw. apply failing_then_always; [| by apply kept_RemoveAll_staging].
  apply failing_bind; [by apply kept_stage |]. intros [] Hstage. apply failing_publish; [done | by eapply chosen_id].
Qed.

Lemma kept_Install : ps ≠ rs ++ ["active.json"] → stays (canon ps) x (Install root smokeCheck channel version allowDowngrade).
Proof.
  intros Hne. rewrite Install_unfold. apply stays_bind_when; [by apply kept_choose |]. intros [[release active] asset] Hchoose.
  apply stays_bind_when; [apply stays_ask |]. intros draw (w & w1 & [= <- <-]). rewrite Join_name by (done || apply staging_name).
  apply stays_bind; [by apply kept_mkdir_staging |]. intros _. apply stays_bind; [| intros; apply stays_ret].
  apply stays_then_always; [| by apply kept_RemoveAll_staging].
  apply stays_bind_when; [by apply kept_stage |]. intros [] Hstage. apply kept_publish; [done | by eapply chosen_id | done].
Qed.
End Whole.

(** C14: However an installation ends, the files that are there stay, but for
    those it owns; in particular the bundles installed before.  One that fails
    also leaves [active.json] as it is, so that the program goes on with the
    bundle it had. *)
Theorem installs_keep_what_is_there channel version allowDowngrade w r w' :
  Install root smokeCheck channel version allowDowngrade w = (r, w') →
  (∀ ps c, Forall proper ps → ¬ own_path ps → ps ≠ rs ++ ["active.json"] →
     disk w !! canon ps = Some (NFile c) → disk w' !! canon ps = Some (NFile c)) ∧
  (∀ id ps c, Forall proper (id :: ps) → ps ≠ [] → disk w !! canon (rs ++ "bundles" :: id :: ps) = Some (NFile c) →
     disk w' !! canon (rs ++ "bundles" :: id :: ps) = Some (NFile c)) ∧
  (is_ok r = false → disk w' !! activationPath root = disk w !! activationPath root).
Proof.
  intros Heq.
  assert (∀ ps c, Forall proper ps → ¬ own_path ps → ps ≠ rs ++ ["active.json"] →
    disk w !! canon ps = Some (NFile c) → disk w' !! canon ps = Some (NFile c)) as Hkeep.
  { intros ps c Hp Hown Hne Hw. pose proof (kept_Install ps _ (spared_file ps c Hp Hown) channel version allowDowngrade Hne w Hw) as Hk.
    by rewrite Heq in Hk. }
  split; [done |]. split.
  - intros id ps c Hp Hne. apply Hkeep.
    + apply Forall_app. split; [done |]. apply Forall_cons. split; [name | done].
    + unfold own_path. intros [Hk | [Hk | [[n [k Hk]] | [[n [k Hk]] | [i Hk]]]]]; rewrite <- ?app_assoc in Hk; apply app_inv_head in Hk; try done.
      injection Hk as -> Hk. done.
    + intros Hk. by apply app_inv_head in Hk.
  - intros Hr. destruct r as [| e]; [done |]. unfold activationPath. rewrite Join_name by (done || name).
    by eapply (failing_Install _ _ (spared_activation (disk w !! _))).
Qed.

Lemma same_begin ps w : (∀ x, spared ps x) →
  disk (OpenCreate (Join root "update.lock") (MkdirAll root w).2).2 !! canon ps = disk w !! canon ps.
Proof. intros Hsp. by apply kept_lock, kept_mkdir_root. Qed.

Lemma read_activation_inv w active w' : ReadActivation root w = (Ok active, w') →
  disk w !! activationPath root = None ∧ active = None ∨
  ∃ text act, disk w !! activationPath root = Some (NFile text) ∧ read_activation text = Some act ∧ active = Some act.
Proof.
  unfold ReadActivation. intros (o & w1 & [_ Ho]%ReadFile_inv & Heq)%bind_inv. destruct o as [text |]; [| injection Heq as <-; by left].
  destruct (read_activation text) as [act |] eqn:Ht; [| done]. injection Heq as <-. right. by exists text, act.
Qed.

Lemma bundle_path_apart qs s : rs ++ "bundles" :: qs ≠ rs ++ [s] ∨ s = "bundles".
Proof. destruct (decide (s = "bundles")); [by right | left]. intros Hk. apply app_inv_head in Hk. by injection Hk as <- _. Qed.

(** Activating touches no bundle. *)
Lemma kept_activate_bundles qs x id active : Forall proper qs →
  stays (canon (rs ++ "bundles" :: qs)) x (activate root id active).
Proof.
  intros Hq. assert (Forall proper (rs ++ "bundles" :: qs)) as Hp by (apply Forall_app; split; [done |]; apply Forall_cons; split; [name | done]).
  assert (∀ s, proper s → s ≠ "bundles" → canon (rs ++ "bundles" :: qs) ≠ canon (rs ++ [s]) ∧ under (canon (rs ++ [s])) (canon (rs ++ "bundles" :: qs)) = false) as Hs.
  { intros s Hs Hne. split.
    - intros Heq%canon_inj; [| done | by apply proper_snoc]. by destruct (bundle_path_apart qs s).
    - apply not_under; [by destruct rs | by apply proper_snoc | done |]. intros [k Hk]. rewrite <- app_assoc in Hk. apply app_inv_head in Hk.
      by injection Hk as <- _. }
  unfold activate, writeLaunchers, writeAtomic, activationPath. rewrite !Join_name by (done || name).
  apply stays_bind; [apply stays_WriteFile, Hs; [name | done] |]. intros _.
  apply stays_bind_when; [apply stays_ask |]. intros draw (w & w1 & [= <- <-]). rewrite canon_suffix.
  destruct (Hs _ (temporary_name (ticks w))) as [Ht1 Ht2]; [intros Hk; apply (f_equal to_bytes) in Hk; by rewrite to_bytes_append in Hk |].
  apply stays_bind; [by apply stays_WriteFile |]. intros _. apply stays_then_always; [| by apply stays_Remove].
  apply stays_Rename; [done | apply Hs; [name | done] | intros _; apply Hs; [name | done]].
Qed.

(** The temporary file becomes the file. *)
Lemma writeAtomic_inv text w w' : writeAtomic (activationPath root) text w = (Ok tt, w') → disk w' !! activationPath root = Some (NFile text).
Proof.
  unfold writeAtomic, activationPath. rewrite Join_name by (done || name). intros (draw & w1 & H1 & Heq)%bind_inv.
  injection H1 as <- <-. rewrite canon_suffix in Heq. apply bind_inv in Heq as ([] & w2 & H2%WriteFile_inv & Heq). cbn [disk] in H2.
  unfold then_always in Heq. destruct (Rename _ _ w2) as [r w3] eqn:Hr. injection Heq as -> <-.
  assert (canon (rs ++ ["active.json"]) ≠ canon (temporary (ticks w))) as Hne.
  { intros Hk%canon_inj; [| apply proper_snoc; [done | name] | apply proper_snoc; [done | apply temporary_name]].
    apply app_inj_tail in Hk as [_ Hk]. apply (f_equal to_bytes) in Hk. by rewrite to_bytes_append in Hk. }
  apply stays_Remove; [done |]. apply rename_inv in Hr as (-> & Hfree & Hfrom & _).
  pose proof (move_inside (temporary (ticks w)) (rs ++ ["active.json"]) [] (disk w2)) as Hmove. rewrite !app_nil_r in Hmove.
  rewrite Hmove; [rewrite H2; apply lookup_insert_eq | by destruct rs | by destruct rs | | | done | done | done].
  - apply proper_snoc; [done | apply temporary_name].
  - apply proper_snoc; [done | name].
Qed.

(** The move and the activation, when they succeed. *)
Lemma publish_inv n id active w w' : proper id → publish n id active w = (Ok tt, w') →
  (∀ qs, Forall proper qs → disk w' !! canon (rs ++ "bundles" :: id :: qs) = disk w !! canon (staging n ++ "bundle" :: qs)) ∧
  disk w' !! activationPath root = Some (NFile (write_activation (mkActivation id (Current <$> active)))).
Proof.
  intros Hid Heq. unfold publish in Heq. apply bind_inv in Heq as ([] & w1 & Hmove & Hact). unfold or_undo in Hact.
  destruct (activate _ _ _ w1) as [[[] | e] w2] eqn:Ha; [| done]. injection Hact as <-. split.
  - intros qs Hqs. pose proof (kept_activate_bundles (id :: qs) (disk w1 !! canon (rs ++ "bundles" :: id :: qs)) id active) as Hk.
    specialize (Hk (proj2 (Forall_cons _ _ _) (conj Hid Hqs)) w1 eq_refl). rewrite Ha in Hk. cbn [snd] in Hk. rewrite Hk. clear Hk.
    unfold move_into_place in Hmove. apply bind_inv in Hmove as ([] & wa & Hm & Hmove). apply bind_inv in Hmove as (st & wb & Hst & Hmove).
    assert (Rename (bundleDir (canon (staging n))) (bundlePath root id) wb = (Ok tt, w1)) as Hr by by destruct st.
    assert (disk wb = disk wa) as Hab by (pose proof (same_Stat (bundlePath root id) wa) as Hs; by rewrite Hst in Hs).
    assert (disk wa !! canon ((staging n ++ ["bundle"]) ++ qs) = disk w !! canon ((staging n ++ ["bundle"]) ++ qs)) as Hwa.
    { pose proof (stays_MkdirAll (canon ((staging n ++ ["bundle"]) ++ qs)) (disk w !! canon ((staging n ++ ["bundle"]) ++ qs)) (Dir (bundlePath root id))) as Hs.
      specialize (Hs ltac:(right; rewrite bundlePath_names, Dir_canon by (apply proper_bundles || done); rewrite ancestors_canon by
        (apply proper_bundles || (apply Forall_app; split; [apply proper_snoc; [apply proper_staging | name] | done]));
        intros [k Hk]; rewrite <- !app_assoc in Hk; apply app_inv_head in Hk; cbn in Hk; by injection Hk) w eq_refl).
      by rewrite Hm in Hs. }
    apply rename_inv in Hr as (-> & Hfree & Hfrom & _). rewrite bundlePath_names in * by done. unfold bundleDir in *.
    rewrite (Join_name _ "bundle") in * by (apply proper_staging || name).
    replace (rs ++ "bundles" :: id :: qs) with (((rs ++ ["bundles"]) ++ [id]) ++ qs) by by rewrite <- !app_assoc.
    rewrite move_inside; [by rewrite Hab, Hwa, <- !app_assoc | by destruct rs | by destruct rs | | | done | done | done].
    + apply proper_snoc; [apply proper_staging | name].
    + by apply proper_snoc; [apply proper_bundles |].
  - unfold activate in Ha. apply bind_inv in Ha as ([] & wa & _ & Ha). by apply writeAtomic_inv in Ha.
Qed.

(** ** Which files appear *)

Lemma choose_files channel version allowDowngrade :
  adds_files (λ p _, p = Join root "update.lock") (choose root channel version allowDowngrade).
Proof.
  unfold choose, Check_release, downloadBytes, get, ReadActivation. repeat add_step.
  - apply adds_files_OpenCreate.
  - apply adds_files_same. intros w. unfold read_trust_file. pose proof (same_ReadFile (TrustPath root) w) as Hs.
    by destruct (ReadFile _ w) as [[[data |] | err] w1].
Qed.

Lemma download_files url path max : adds_files (λ p _, p = path) (downloadFile url path max).
Proof. unfold downloadFile, get. repeat add_step; apply adds_files_WriteFile. Qed.

Lemma check_files n : adds_files (λ p _, p = canon (staging n ++ ["smoke.json"])) (checkFunc smokeCheck (bundleDir (canon (staging n)))).
Proof.
  unfold checkFunc, bundleDir. rewrite Join_name by (apply proper_staging || name). destruct smokeCheck; [by apply adds_files_same |].
  unfold internalSmokeCheck, runCheck. rewrite Dir_canon, Join_name by (apply proper_staging || name). repeat add_step.
  apply adds_files_ignore. intros w p c Hd. unfold WriteFile, on_disk in Hd. destruct (_ || _); [by left |].
  destruct (outcome_of _); cbn [disk snd] in Hd; [| by left |]; (apply lookup_insert_Some in Hd as [[<- _] | [_ Hd]]; [by right | by left]).
Qed.

Lemma staged_names n s qs : Forall proper qs → proper s → s ≠ "bundle" →
  canon (staging n ++ "bundle" :: qs) ≠ canon (staging n ++ [s]).
Proof.
  intros Hq Hs Hne Heq%canon_inj; [| apply Forall_app; split; [apply proper_staging | apply Forall_cons; split; [name | done]] | by apply proper_snoc; [apply proper_staging |]].
  apply app_inv_head in Heq. by injection Heq as <- _.
Qed.

Lemma length_hex l : String.length (hex l) = (2 * length l)%nat.
Proof. unfold hex. rewrite <- to_bytes_length, to_bytes_of_bytes. induction l as [| c l IH]; [done |]. cbn in *. lia. Qed.

(** What the check for a downgrade lets through. *)
Lemma not_a_downgrade act release v l new : Current act = show_version v +:+ "-" +:+ hex l → length l = 32%nat → semantic v →
  Version release = show_version new → semantic new → downgrades (Some act) release = false →
  sibling_prereleases new v = true ∨ precedence new v ≠ Lt.
Proof.
  intros Hcur Hl Hv Hnew Hsem. unfold downgrades.
  assert (String.length (Current act) = String.length (show_version v) + 65)%nat as Hlen.
  { rewrite Hcur, <- !to_bytes_length, !to_bytes_append, !length_app, (to_bytes_length (hex l)), length_hex, Hl. done. }
  assert (slice_to (Current act) (String.length (Current act) - 65) = show_version v) as Hslice.
  { rewrite Hlen, Nat.add_sub. unfold slice_to. rewrite Hcur, to_bytes_append, <- to_bytes_length, take_app_length. apply of_bytes_to_bytes. }
  assert (show_version v ≠ "") as Hne.
  { intros Heq. pose proof (parse_show v Hv) as Hp. rewrite Heq in Hp. by vm_compute in Hp. }
  destruct (Nat.ltb_spec 65 (String.length (Current act))); [| destruct (show_version v); [done | cbn in *; lia]].
  rewrite Hslice, Hnew, (compare_spec _ _ _ _ (parse_show _ Hsem) (parse_show _ Hv)). unfold compare_parsed.
  destruct (sibling_prereleases new v); [by left |]. intros Hlt. right. intros Hprec. by rewrite Hprec in Hlt.
Qed.

(** C13: A bundle becomes active only if its archive has the size and digest
    that a release of a feed signed with the configured key names for this
    platform, and after it passed the startup check: the installed files are
    the ones that were checked, each an entry of that archive, [active.json]
    names the bundle by version and digest and keeps the one before.  Unless a
    downgrade is allowed, the release does not precede the active one, if both
    versions are written as semantic versions and are not prereleases of one
    release, which are not told apart; an active name of another form is not
    compared. *)
Theorem installed_bundles_are_signed channel version allowDowngrade w destination w' :
  (∀ n qs, disk w !! canon (staging n ++ qs) = None) →
  Install root smokeCheck channel version allowDowngrade w = (Ok destination, w') →
  ∃ release asset archive files active id,
    (∃ text trust key manifest signature feed time, signed_release w channel version release text trust key manifest signature feed time) ∧
    asset_for_platform release = Ok asset ∧ Z.of_nat (String.length archive) = Size asset ∧
    EqualFold (Sha256 asset) (hex (Sum256 (to_bytes archive))) = true ∧ zip_reader archive = Some files ∧
    id = Version release +:+ "-" +:+ hex (Sum256 (to_bytes archive)) ∧ destination = bundlePath root id ∧
    (∃ n before after, checkFunc smokeCheck (bundleDir (canon (staging n))) before = (Ok tt, after) ∧
       ∀ qs, Forall proper qs → disk w' !! canon (rs ++ "bundles" :: id :: qs) = disk after !! canon (staging n ++ "bundle" :: qs)) ∧
    (∀ qs c, Forall proper qs → disk w' !! canon (rs ++ "bundles" :: id :: qs) = Some (NFile c) →
       ∃ file, file ∈ files ∧ contents file = Some (c, None)) ∧
    disk w' !! activationPath root = Some (NFile (write_activation (mkActivation id (Current <$> active)))) ∧
    (disk w !! activationPath root = None ∧ active = None ∨
     ∃ text act, disk w !! activationPath root = Some (NFile text) ∧ read_activation text = Some act ∧ active = Some act) ∧
    (∀ act v l new, active = Some act → Current act = show_version v +:+ "-" +:+ hex l → length l = 32%nat → semantic v →
       Version release = show_version new → semantic new → allowDowngrade = false →
       sibling_prereleases new v = true ∨ precedence new v ≠ Lt).
Proof.
  intros Hfresh Heq. rewrite Install_unfold in Heq. apply bind_inv in Heq as ([[release active] asset] & w1 & Hchoose & Heq).
  apply bind_inv in Heq as (draw & w2 & Hdraw & Heq). injection Hdraw as <- <-. set (n := ticks w1) in *.
  rewrite Join_name in Heq by (done || apply staging_name).
  apply bind_inv in Heq as ([] & w3 & Hmk & Heq). apply bind_inv in Heq as ([] & w4 & Hbody & Heq). injection Heq as <- <-.
  apply then_always_inv in Hbody as (w5 & Hrun & ->).
  apply bind_inv in Hrun as ([] & w6 & Hstage & Hpublish).
  assert (proper (bundle_id release asset)) as Hid by (eapply chosen_id; eauto).
  pose proof Hstage as (archive & files & wa & wb & wc & [Hsize Hsha] & Hz & Hdl & Hab & Horigin & Hcheck)%stage_inv.
  pose proof Hchoose as (wx & wy & wz & Hrel & Hact & Hdown & Hasset & Hwx)%choose_inv.
  apply (publish_inv n) in Hpublish as [Hfiles Hactive]; [| done].
  assert (bundle_id release asset = Version release +:+ "-" +:+ hex (Sum256 (to_bytes archive))) as Hname.
  { unfold bundle_id. by rewrite (digest_lower _ _ Hsha). }
  assert (∀ x, spared (rs ++ ["active.json"]) x ∧ spared (rs ++ ["trust.json"]) x) as Hspared by (split; [apply spared_activation | apply spared_trust]).
  assert (∀ p, p = activationPath root ∨ p = TrustPath root → disk wx !! p = disk w !! p) as Hbegin.
  { unfold activationPath, TrustPath. rewrite !Join_name by (done || name). rewrite Hwx. intros p [-> | ->]; by apply same_begin; intros; apply Hspared. }
  assert (∀ qs, Forall proper qs → disk ((RemoveAll (canon (staging n)) w5).2) !! canon (rs ++ "bundles" :: qs) = disk w5 !! canon (rs ++ "bundles" :: qs)) as Hremove.
  { intros qs Hqs. apply (stays_RemoveAll _ (disk w5 !! canon (rs ++ "bundles" :: qs))); [| done]. apply not_under; [by destruct rs | apply proper_staging | |].
    - apply Forall_app. split; [done |]. apply Forall_cons. split; [name | done].
    - intros [k Hk]. rewrite <- app_assoc in Hk. apply app_inv_head in Hk. by injection Hk. }
  exists release, asset, archive, files, active, (bundle_id release asset).
  split. { apply check_inv in Hrel as (text & trust & key & manifest & sig & feed & time & Hsr). exists text, trust, key, manifest, sig, feed, time.
    destruct Hsr. split; try done. by rewrite <- Hbegin by by right. }
  do 4 (split; [done |]). split; [done |]. split; [done |]. split; [| split; [| split; [| split]]].
  - exists n, wc, w6. split; [done |]. intros qs Hqs. rewrite Hremove by (by apply Forall_cons). by apply Hfiles.
  - intros qs c Hqs Hd. rewrite Hremove, Hfiles in Hd by (done || by apply Forall_cons).
    destruct (check_files n _ _ _ _ _ Hcheck Hd) as [Hd1 | Hk]; [| by apply staged_names in Hk; [| done | name |]].
    destruct (Horigin _ _ Hd1) as [Hd2 | (file & Hin & _ & Hc & _)]; [exfalso | by exists file].
    rewrite Hab in Hd2. rewrite Join_name in Hdl by (apply proper_staging || name).
    destruct (download_files _ _ _ _ _ _ _ _ Hdl Hd2) as [Hd3 | Hk]; [| by apply staged_names in Hk; [| done | name |]].
    apply (adds_files_MkdirAll (λ _ _, False) _ _ _ _ _ _ Hmk) in Hd3 as [Hd3 | []]. cbn [disk] in Hd3.
    destruct (choose_files _ _ _ _ _ _ _ _ Hchoose Hd3) as [Hd4 | Hk]; [by rewrite Hfresh in Hd4 |].
    rewrite Join_name in Hk by (done || name). apply canon_inj in Hk; [| apply Forall_app; split; [apply proper_staging | apply Forall_cons; split; [name | done]] | apply proper_snoc; [done | name]].
    apply (f_equal length) in Hk. rewrite !length_app in Hk. cbn in Hk. lia.
  - pose proof (kept_RemoveAll_staging _ _ (spared_activation (disk w5 !! activationPath root)) n w5) as Hk.
    unfold activationPath in *. rewrite Join_name in * by (done || name). by rewrite Hk.
  - pose proof Hact as Hact'%read_activation_inv. assert (disk wy !! activationPath root = disk wx !! activationPath root) as Hy.
    { pose proof (kept_check (rs ++ ["active.json"]) (disk wx !! activationPath root) channel version wx) as Hk.
      unfold activationPath in *. rewrite Join_name in * by (done || name). rewrite Hrel in Hk. by apply Hk. }
    rewrite Hy, Hbegin in Hact' by by left. done.
  - intros act v l new -> Hcur Hl Hv Hnew Hsem Hallow. eapply not_a_downgrade; [done.. |].
    destruct (downgrades (Some act) release); [| done]. by rewrite Hdown in Hallow.
Qed.
End Install.

(** ** Rollback *)

Section Rollback.
Context `{Platform} (rs : list string) (Hrs : Forall proper rs).
Context (uuid_name : ∀ n, sep ∉ to_bytes (CleanUUID n)).
Local Abbreviation root := (canon rs).

(** The activation a disk holds. *)
Definition activated (w : world) (act : BundleActivation) : Prop :=
  ∃ text, disk w !! activationPath root = Some (NFile text) ∧ read_activation text = Some act.

Lemma read_active w act w' : ReadActivation root w = (Ok (Some act), w') → activated w act ∧ disk w' = disk w.
Proof.
  intros Heq. split; [by apply read_activation_inv in Heq as [[_ ?] | (text & a & ? & ? & [= ->])]; [| exists text] |].
  unfold ReadActivation in Heq. apply bind_inv in Heq as (o & w1 & [Hs _]%ReadFile_inv & Heq). destruct o as [text |]; [| done].
  destruct (read_activation text); [| done]. by injection Heq as _ <-.
Qed.

Lemma activated_inj w a b : activated w a → activated w b → a = b.
Proof. intros (t & H1 & H2) (t' & H1' & H2'). simplify_eq. done. Qed.

Lemma rollback_inv w path w' : Rollback root w = (Ok path, w') →
  ∃ act previous, activated w act ∧ Previous act = Some previous ∧ path = bundlePath root previous ∧
    disk w' !! activationPath root = Some (NFile (write_activation (mkActivation previous (Some (Current act))))).
Proof.
  intros Heq. unfold Rollback in Heq. apply bind_inv in Heq as (act & w1 & H1 & Heq).
  destruct (ReadActivation root w) as [[[a |] | e] wr] eqn:Hr; [| done..]. injection H1 as -> ->.
  apply read_active in Hr as [Hact _]. destruct (Previous act) as [previous |] eqn:Hp; [| done].
  apply bind_inv in Heq as ([] & w2 & _ & Heq). apply bind_inv in Heq as ([] & w3 & Hw & Heq). injection Heq as <- <-.
  exists act, previous. split; [done |]. split; [done |]. split; [done |]. by eapply writeAtomic_inv.
Qed.

Definition valid_text (s : string) : Prop := of_runes (runes s) = s.
Definition valid_activation (a : BundleActivation) : Prop := valid_text (Current a) ∧ from_option valid_text True (Previous a).
Context (json : ∀ a, valid_activation a → read_activation (write_activation a) = Some a).

(** C27: A rollback makes the previous bundle the active one, whose executables
    are then used, and remembers the one it left; a second rollback brings the
    activation back as it was. *)
Theorem rollback_is_undone_by_rollback w path w1 act : activated w act → valid_activation act →
  Rollback root w = (Ok path, w1) →
  ∃ previous, Previous act = Some previous ∧ path = bundlePath root previous ∧
    activated w1 (mkActivation previous (Some (Current act))) ∧
    (∀ component exe w2, GetActiveExecutable root component w1 = (Ok exe, w2) → executablePath path component = Ok exe) ∧
    (∀ path' w2, Rollback root w1 = (Ok path', w2) → path' = bundlePath root (Current act) ∧ activated w2 act).
Proof.
  intros Hact [Hv1 Hv2] Hroll. apply rollback_inv in Hroll as (act' & previous & Hact' & Hp & -> & Hd).
  pose proof (activated_inj _ _ _ Hact Hact') as <-. rewrite Hp in Hv2. cbn in Hv2.
  assert (activated w1 (mkActivation previous (Some (Current act)))) as H1 by (eexists; split; [exact Hd | by apply json]).
  exists previous. split; [done |]. split; [done |]. split; [done |]. split.
  - intros component exe w2 Hexe. unfold GetActiveExecutable in Hexe. apply bind_inv in Hexe as (a & wa & Ha & Hexe).
    destruct (ReadActivation root w1) as [[[b |] | e] wr] eqn:Hr; [| done..]. injection Ha as -> ->.
    apply read_active in Hr as [Hr _]. rewrite (activated_inj _ _ _ Hr H1) in Hexe. cbn [Current] in Hexe. unfold lift in Hexe. by injection Hexe.
  - intros path' w2 Hroll. apply rollback_inv in Hroll as (b & p & Hb & Hpb & -> & Hd2). rewrite (activated_inj _ _ _ Hb H1) in Hpb, Hd2.
    cbn in Hpb, Hd2. injection Hpb as <-. split; [done |]. eexists. split; [exact Hd2 |]. rewrite (json (mkActivation (Current act) (Some previous))) by done.
    f_equal. destruct act as [c p]. cbn in *. by rewrite Hp.
Qed.
End Rollback.

(** ** A sample *)

Module Sample.
(** A text for activations that can be read back. *)
Fixpoint ones (l : bytes) : nat * bytes :=
  match l with
  | [] => (0%nat, [])
  | c :: l => if bool_decide (c = byte 49) then let '(n, r) := ones l in (S n, r) else (0%nat, l)
  end.
Definition write (a : BundleActivation) : string :=
  of_bytes (repeat (byte 49) (String.length (Current a)) ++ byte 48 :: to_bytes (Current a) ++
            match Previous a with None => [] | Some p => byte 49 :: to_bytes p end).
Definition read (s : string) : BundleActivation :=
  let '(n, r) := ones (to_bytes s) in
  mkActivation (of_bytes (take n r)) (match drop n r with [] => None | _ :: p => Some (of_bytes p) end).

Lemma ones_repeat n r : ones (repeat (byte 49) n ++ byte 48 :: r) = (n, r).
Proof. induction n as [| n IH]; cbn [repeat app ones]; [done |]. by rewrite bool_decide_true, IH. Qed.

Lemma read_write a : read (write a) = a.
Proof.
  unfold read, write. rewrite to_bytes_of_bytes, ones_repeat, <- to_bytes_length, take_app_length, drop_app_length, of_bytes_to_bytes.
  destruct a as [c [p |]]; cbn; [by rewrite of_bytes_to_bytes | done].
Qed.

Definition archive : string := "archive".
Definition digest : string := hex (Sum256 (to_bytes archive)).
Definition feed : UpdateFeed :=
  mkFeed 1 2000 (Some [mkRelease "1.1.0" "stable" [mkAsset "linux-amd64" "https://host/bundle.zip" digest 7]]).
Definition entry (name data : string) : zip_file := mkZip name 10 false (Some (data, None)).

#[local] Instance platform : Platform := {|
  PublicKey := unit; pem_Decode s := Some s; ParsePKIXPublicKey _ := Some (Some tt); MarshalPKIXPublicKey _ := Some "der"; EncodeToMemory s := s;
  key_Size _ := 384%Z; VerifyPKCS1v15 _ _ sig := bool_decide (sig = "signature");
  url_Parse s := if HasPrefix s "https://" then Some (mkUrl "https" false) else None;
  http_Get _ u := Ok (mkResponse 200 u (if HasSuffix u ".sig" then "signature" else if HasSuffix u ".zip" then archive else "manifest") None);
  outcome_of _ := Works; CleanUUID _ := "0123456789abcdef0123456789abcdef"; now _ := 1000%Z;
  zip_reader _ := Some [entry "cli/openclaw" "c"; entry "gateway/OpenClaw.Gateway" "g"; entry "companion/OpenClaw.Companion" "d"];
  read_trust _ := Some (mkTrust "https://host/feed" "pem"); write_trust _ := "trust"; read_feed _ := Some feed;
  read_activation s := Some (read s); write_activation := write;
  free_port _ := Ok 4711%Z; smoke_config _ s := s; run _ _ _ _ := None; environ := []; platform_rid := "linux-amd64";
  lower_rune := id; upper_rune := id |}.

Definition old : string := "1.0.0-" +:+ digest.
Definition older : string := "0.9.0-" +:+ digest.
Definition bundle (id : string) : list (string * node) :=
  (λ p, ("/u/bundles/" +:+ id +:+ p, NFile "x")) <$> ["/cli/openclaw"; "/gateway/OpenClaw.Gateway"; "/companion/OpenClaw.Companion"].
Definition files : list (string * node) :=
  [("/", NDir); ("/u", NDir); ("/u/trust.json", NFile "trust"); ("/u/active.json", NFile (write (mkActivation old (Some older)))); ("/u/bundles", NDir)]
  ++ bundle old ++ bundle older.
Definition start : world := mkWorld (list_to_map files) 0.

Lemma uuid_plain n : sep ∉ to_bytes (CleanUUID n).
Proof. refine (bool_decide_unpack _ _). vm_compute. exact I. Qed.

Lemma no_staging n qs : disk start !! canon (["u"] ++ [".staging-" +:+ CleanUUID n] ++ qs) = None.
Proof.
  apply not_elem_of_list_to_map_1. intros Hin. change ((".staging-" +:+ CleanUUID n)) with (".staging-0123456789abcdef0123456789abcdef") in Hin.
  assert (Forall (λ k, HasPrefix k "/u/.s" = false) (files.*1)) as Hall by (refine (bool_decide_unpack _ _); vm_compute; exact I).
  rewrite Forall_forall in Hall. apply Hall in Hin. rewrite canon_app in Hin by done. revert Hin.
  apply eq_true_false_abs. unfold HasPrefix. apply has_prefix_spec. rewrite to_bytes_append, to_bytes_of_bytes. by eexists.
Qed.
End Sample.

Abbreviation sample_install := (Install (H := Sample.platform) "/u" None "stable" None false Sample.start).
Abbreviation sample_rollback := (Rollback (H := Sample.platform) "/u").

Lemma sample_root : Forall proper ["u"].
Proof. apply Forall_cons. split; [name | constructor]. Qed.

Lemma sample_installs : ∃ w', sample_install = (Ok ("/u/bundles/1.1.0-" +:+ Sample.digest), w').
Proof.
  destruct sample_install as [r w'] eqn:Heq. exists w'. f_equal. change r with (fst (r, w')). rewrite <- Heq. vm_compute. reflexivity.
Qed.

Lemma installed_bundles_are_signed_witness :
  ∃ w' id, sample_install = (Ok ("/u/bundles/1.1.0-" +:+ Sample.digest), w') ∧
    disk w' !! "/u/active.json" = Some (NFile (Sample.write (mkActivation id (Some Sample.old)))).
Proof.
  destruct sample_installs as [w' Heq].
  assert (∀ n qs, disk Sample.start !! canon ((["u"] ++ [".staging-" +:+ CleanUUID (Platform := Sample.platform) n]) ++ qs) = None) as Hfresh.
  { intros n qs. rewrite <- app_assoc. apply Sample.no_staging. }
  destruct (installed_bundles_are_signed (H := Sample.platform) ["u"] sample_root Sample.uuid_plain
    None "stable" None false Sample.start _ w' Hfresh Heq)
    as (release & asset & archive & files & active & id & _ & _ & _ & _ & _ & _ & _ & _ & _ & Hd & Hact & _).
  exists w', id. split; [exact Heq |]. destruct Hact as [[Hnone _] | (text & act & Htext & Hread & ->)].
  - vm_compute in Hnone. discriminate Hnone.
  - cbn [fmap option_fmap option_map] in Hd. change (activationPath (canon ["u"])) with "/u/active.json" in *. rewrite Hd.
    assert (act = Sample.read text) as -> by (by injection Hread).
    assert (text = Sample.write (mkActivation Sample.old (Some Sample.older))) as -> by (vm_compute in Htext |- *; by injection Htext).
    by rewrite Sample.read_write.
Defined.

Lemma installs_keep_what_is_there_witness :
  ∃ w', sample_install = (Ok ("/u/bundles/1.1.0-" +:+ Sample.digest), w') ∧
    disk w' !! canon ["u"; "bundles"; Sample.old; "cli"; "openclaw"] = Some (NFile "x").
Proof.
  destruct sample_installs as [w' Heq]. exists w'. split; [exact Heq |].
  destruct (installs_keep_what_is_there (H := Sample.platform) ["u"] sample_root Sample.uuid_plain None "stable" None false _ _ _ Heq)
    as (_ & Hkeep & _).
  refine (Hkeep Sample.old ["cli"; "openclaw"] "x" _ _ _); [repeat (apply Forall_cons; split; [name |]); constructor | done | vm_compute; reflexivity].
Defined.

(** The same disk, with nothing but the staging directory. *)
Lemma extraction_stays_inside_witness :
  disk (extractBundle (H := Sample.platform) "/u/trust.json" (canon ["u"; "s"; "bundle"]) Sample.start).2 !! canon ["u"; "active.json"] =
  Some (NFile (Sample.write (mkActivation Sample.old (Some Sample.older)))).
Proof.
  rewrite (extraction_stays_inside (H := Sample.platform) "/u/trust.json" ["u"; "s"; "bundle"] ["u"; "active.json"] Sample.start);
    [vm_compute; reflexivity | done | repeat (apply Forall_cons; split; [name |]); constructor
    | repeat (apply Forall_cons; split; [name |]); constructor | by intros [k Hk] | by right; intros [k Hk]].
Defined.

Lemma rollback_is_undone_by_rollback_witness :
  ∃ w1 w2, sample_rollback Sample.start = (Ok ("/u/bundles/" +:+ Sample.older), w1) ∧
    sample_rollback w1 = (Ok ("/u/bundles/" +:+ Sample.old), w2) ∧
    activated (H := Sample.platform) ["u"] w2 (mkActivation Sample.old (Some Sample.older)).
Proof.
  set (act := mkActivation Sample.old (Some Sample.older)).
  destruct (sample_rollback Sample.start) as [r w1] eqn:H1. destruct (sample_rollback w1) as [r2 w2] eqn:H2. exists w1, w2.
  assert (r = Ok ("/u/bundles/" +:+ Sample.older)) as -> by (change r with (fst (r, w1)); rewrite <- H1; vm_compute; reflexivity).
  assert (r2 = Ok ("/u/bundles/" +:+ Sample.old)) as ->.
  { change r2 with (fst (r2, w2)). rewrite <- H2. change w1 with (snd (Ok ("/u/bundles/" +:+ Sample.older), w1)). rewrite <- H1. vm_compute. reflexivity. }
  destruct (rollback_is_undone_by_rollback (H := Sample.platform) ["u"] sample_root Sample.uuid_plain
    (λ a _, f_equal Some (Sample.read_write a)) Sample.start ("/u/bundles/" +:+ Sample.older) w1 act) as (previous & _ & _ & _ & _ & Hback).
  - exists (Sample.write act). split; [vm_compute; reflexivity | exact (f_equal Some (Sample.read_write act))].
  - split; vm_compute; reflexivity.
  - exact H1.
  - split; [reflexivity |]. split; [exact H2 |]. by apply Hback in H2 as [_ ?].
Defined.

(** ** What is not caught *)

(** An older prerelease is no downgrade. *)
Example older_prereleases_are_installed `{Platform} release hash : String.length hash = 64%nat → Version release = "2.0.0-beta.1" →
  downgrades (Some (mkActivation ("2.0.0-beta.2" +:+ "-" +:+ hash) None)) release = false.
Proof.
  intros Hlen Hv. unfold downgrades. cbn [Current]. rewrite Hv.
  assert (String.length ("2.0.0-beta.2" +:+ "-" +:+ hash) = 77)%nat as Hl by (rewrite <- to_bytes_length, !to_bytes_append, !length_app, (to_bytes_length hash), Hlen; done).
  rewrite Hl. assert (slice_to ("2.0.0-beta.2" +:+ "-" +:+ hash) (77 - 65) = "2.0.0-beta.2") as ->.
  { unfold slice_to. by rewrite !to_bytes_append. }
  vm_compute. reflexivity.
Qed.

(** A bundle that was installed cannot be activated by installing it again,
    say after a rollback. *)
Example installed_bundles_stay_inactive :
  let w := (sample_install).2 in
  let w := (sample_rollback w).2 in
  (Install (H := Sample.platform) "/u" None "stable" None false w).1 =
    Fail "this bundle is already installed. Use update launch or rollback; existing files are not overwritten".
Proof. vm_compute. reflexivity. Qed.

(** The sum of the declared sizes wraps. *)
Example declared_sizes_wrap :
  let huge := mkZip "a" (2^63) false (Some ("", None)) in
  let more := mkZip "b" (2^40) false (Some ("", None)) in
  (extract_files (H := Sample.platform) "/u" 0 ∅ [huge; more] Sample.start).1 = Ok tt.
Proof. vm_compute. reflexivity. Qed.
