(* ===== verification/Json.v ===== *)
(** JSON values as [encoding/json] hands them to the code, and the accessors
    of [openclaw/util/json.go].

    A [json.RawMessage] and a decoded [any] are both a [json] value; a number
    keeps its literal, which the decoder converts at the type asked for.  A Go
    string that is to be decoded is a [json_text]: blank, not JSON, or the text
    of a value.  [json.Unmarshal] into a Go type is one function per type; it
    leaves the zero value of the type on [null]. *)

From S2P Require Import Prelude GoStrings.

Inductive json : Type :=
  | JNull
  | JBool (b : bool)
  | JNum (lit : string)
  | JStr (s : string)
  | JArr (l : list json)
  | JObj (kvs : list (string * json)).

Inductive json_text : Type :=
  | TBlank
  | TMalformed
  | TDoc (j : json).

(** ** [json.Unmarshal] *)

(** Into [map[string]json.RawMessage] or [map[string]any]: a later duplicate of
    a key replaces the earlier one; [null] gives a nil map, which reads as an
    empty one. *)
Definition obj_map (kvs : list (string * json)) : gmap string json :=
  foldl (λ m '(k, v), <[k := v]> m) ∅ kvs.
Definition as_map (j : json) : option (gmap string json) :=
  match j with JObj kvs => Some (obj_map kvs) | JNull => Some ∅ | _ => None end.

Definition as_string (j : json) : option string :=
  match j with JStr s => Some s | JNull => Some "" | _ => None end.

Definition as_list (j : json) : option (list json) :=
  match j with JArr l => Some l | JNull => Some [] | _ => None end.

(** Into [[]string]. *)
Definition as_strings (j : json) : option (list string) := as_list j ≫= mapM as_string.

(** Into [int]: a literal with a fraction or an exponent is an error. *)
Definition as_int (j : json) : option Z :=
  match j with JNum lit => Atoi lit | JNull => Some 0%Z | _ => None end.

Definition as_bool (j : json) : option bool :=
  match j with JBool b => Some b | JNull => Some false | _ => None end.

(** A document decoded into [map[string]any]. *)
Definition text_map (t : json_text) : option (gmap string json) :=
  match t with TDoc j => as_map j | _ => None end.

Definition is_null (j : json) : bool := match j with JNull => true | _ => false end.

Definition text_is_blank (t : json_text) : bool :=
  match t with TBlank => true | _ => false end.

(** [strconv.ParseBool] *)
Definition ParseBool (s : string) : option bool :=
  if bool_decide (s ∈ ["1"; "t"; "T"; "TRUE"; "true"; "True"]) then Some true
  else if bool_decide (s ∈ ["0"; "f"; "F"; "FALSE"; "false"; "False"]) then Some false
  else None.

(** ** [openclaw/util/json.go] *)

Definition TryGetProperty (root : gmap string json) (name : string) : option json :=
  match root !! name with
  | Some v => Some v
  | None =>
      match name with
      | String c rest => root !! String (upper c) rest
      | EmptyString => None
      end
  end.

Section Accessors.
(** [fmt.Sprintf("%v", v)] of a decoded value that is not a string. *)
Context (sprint : json → string).

Definition GetString (root : gmap string json) (name : string) : option string :=
  match TryGetProperty root name with
  | None | Some JNull => None
  | Some (JStr s) => Some s
  | Some v => Some (sprint v)
  end.

Definition ParseStringArray (root : gmap string json) (propertyName : string) : list string :=
  match TryGetProperty root propertyName with
  | Some (JArr arr) =>
      omap (λ item,
        match item with
        | JNull => None
        | JStr s => if IsBlank s then None else Some s
        | v => if IsBlank (sprint v) then None else Some (sprint v)
        end) arr
  | _ => []
  end.
End Accessors.

Definition GetBool (root : gmap string json) (name : string) : option bool :=
  match TryGetProperty root name with
  | Some (JBool b) => Some b
  | Some (JStr s) => ParseBool s
  | _ => None
  end.

Definition DeserializeMap (withJson : json_text) : gmap string json :=
  default ∅ (text_map withJson).

(** [util.Deref] on strings *)
Definition Deref (p : option string) : string := default "" p.

Lemma ParseStringArray_not_blank sprint root name s :
  s ∈ ParseStringArray sprint root name → IsBlank s = false.
Proof.
  unfold ParseStringArray. destruct (TryGetProperty root name) as [[] |]; try by intros ?%not_elem_of_nil.
  intros (j & _ & Hj)%list_elem_of_omap. destruct j; simplify_eq; repeat case_match; naive_solver.
Qed.
