(* ===== verification/MetaCondition.v ===== *)
(** Conditions of meta-skill plans: [MetaConditionEvaluator] of
    [openclaw/core/skills_meta.go].

    An expression is split at the words [and] and [or] outside quotes,
    parentheses and template delimiters; each part is rendered as a template
    and its text read as a truth value.  The template engine is third-party
    code: [Render] is a template in the context of the run. *)

From S2P Require Import Prelude GoStrings Json.

Record operatorPart := MkPart { Expression : string; Operator : string }.

Section Condition.
(** [unicode.ToLower], and [MetaTemplateRenderer.Render] in a fixed context. *)
Context (lower_rune : N → N) (Render : string → string).

Definition rune (c : ascii) : N := code c.

(** ** Splitting *)

Fixpoint skip_spaces (runes : list N) (nextIndex fuel : nat) : nat :=
  match fuel with
  | O => nextIndex
  | S fuel =>
      match runes !! nextIndex with
      | Some r => if IsSpace r then skip_spaces runes (S nextIndex) fuel else nextIndex
      | None => nextIndex
      end
  end.

(** The index after the operator and the spaces that follow it. *)
Definition TryMatchLogicalOperator (runes : list N) (index : nat) (operatorText : string) : option nat :=
  let opRunes := GoStrings.runes operatorText in
  let opLen := length opRunes in
  let boundary := λ (other : ascii) (o : option N),
    match o with Some r => IsSpace r || bool_decide (r = rune other) | None => false end in
  if Nat.ltb (length runes) (index + opLen) then None
  else if negb (bool_decide (lower_rune <$> take opLen (drop index runes) = lower_rune <$> opRunes)) then None
  else if negb (bool_decide (index = 0) || boundary "("%char (runes !! (index - 1))) then None
  else
    let afterIndex := index + opLen in
    if negb (bool_decide (afterIndex = length runes) || boundary ")"%char (runes !! afterIndex)) then None
    else Some (skip_spaces runes afterIndex (length runes)).

(** What the loop carries from one rune to the next. *)
Record split_state := MkSplit {
  depth : Z;
  inSingleQuote : bool;
  inDoubleQuote : bool;
  inCurly : Z;
  lastSplit : nat;
  parts : list operatorPart }.

(** [string(runes[a:b])] without the spaces around it, added unless empty. *)
Definition add_part (runes : list N) (a b : nat) (op : string) (parts : list operatorPart) : list operatorPart :=
  let expr := TrimSpace (of_runes (take (b - a) (drop a runes))) in
  if bool_decide (expr = "") then parts else parts ++ [MkPart expr op].

(** One rune: the index and the state of the next round. *)
Definition split_step (runes : list N) (i : nat) (ch : N) (s : split_state) : nat * split_state :=
  let inS := if bool_decide (ch = rune "'"%char) && negb (inDoubleQuote s)
             then negb (inSingleQuote s) else inSingleQuote s in
  let inD := if bool_decide (ch = rune "'"%char) && negb (inDoubleQuote s) then inDoubleQuote s
             else if bool_decide (ch = 34%N) && negb (inSingleQuote s)
             then negb (inDoubleQuote s) else inDoubleQuote s in
  if inS || inD then (S i, MkSplit (depth s) inS inD (inCurly s) (lastSplit s) (parts s))
  else
    let depth := (if bool_decide (ch = rune "("%char) then depth s + 1
                  else if bool_decide (ch = rune ")"%char) then depth s - 1 else depth s)%Z in
    let next := runes !! S i in
    if bool_decide (ch = rune "{"%char) && bool_decide (next = Some (rune "{"%char) ∨ next = Some (rune "%"%char))
    then (S (S i), MkSplit depth inS inD (inCurly s + 1) (lastSplit s) (parts s))
    else if (bool_decide (ch = rune "}"%char) || bool_decide (ch = rune "%"%char)) &&
            bool_decide (next = Some (rune "}"%char))
    then (S (S i), MkSplit depth inS inD (if (0 <? inCurly s)%Z then inCurly s - 1 else inCurly s)
                     (lastSplit s) (parts s))
    else if (0 <? depth)%Z || (0 <? inCurly s)%Z
    then (S i, MkSplit depth inS inD (inCurly s) (lastSplit s) (parts s))
    else
      match TryMatchLogicalOperator runes i "and" with
      | Some nextIndex =>
          (nextIndex, MkSplit depth inS inD (inCurly s) nextIndex (add_part runes (lastSplit s) i "and" (parts s)))
      | None =>
          match TryMatchLogicalOperator runes i "or" with
          | Some nextIndex =>
              (nextIndex, MkSplit depth inS inD (inCurly s) nextIndex (add_part runes (lastSplit s) i "or" (parts s)))
          | None => (S i, MkSplit depth inS inD (inCurly s) (lastSplit s) (parts s))
          end
      end.

(** Every round moves the index on. *)
Fixpoint split_loop (fuel : nat) (runes : list N) (i : nat) (s : split_state) : split_state :=
  match fuel with
  | O => s
  | S fuel =>
      match runes !! i with
      | None => s
      | Some ch => let '(i, s) := split_step runes i ch s in split_loop fuel runes i s
      end
  end.

Definition SplitByTopLevelOperators (expression : string) : list operatorPart :=
  let rs := GoStrings.runes expression in
  let s := split_loop (length rs) rs 0 (MkSplit 0 false false 0 0 []) in
  add_part rs (lastSplit s) (length rs) "" (parts s).

(** ** Truth values *)

Definition IsTruthy (value : string) : bool :=
  let normalized := TrimSpace value in
  if bool_decide (normalized = "") then false
  else
    match ParseBool (ToLower lower_rune normalized) with
    | Some boolValue => boolValue
    | None =>
        bool_decide (ToLower lower_rune normalized ∉ ["0"; "no"; "off"; "null"; "none"; "undefined"])
    end.

Definition ExtractIfCondition (template : string) : string :=
  let inner := slice_from template 2 in
  match Index inner "%}" with
  | None => inner
  | Some endIdx =>
      let inner := TrimSpace (slice_to inner endIdx) in
      if Nat.leb 3 (String.length inner) && EqualFold (slice_to inner 3) "if "
      then TrimSpace (slice_from inner 3)
      else if Nat.leb 7 (String.length inner) && EqualFold (slice_to inner 7) "unless "
      then TrimSpace (slice_from inner 7)
      else inner
  end.

(** [notPrefix], the pattern [(?i)^not\s+]: what follows a match. *)
Definition is_re_space (c : ascii) : bool := bool_decide (code c ∈ [9; 10; 12; 13; 32]%N).
Fixpoint drop_re_spaces (l : bytes) : bytes :=
  match l with c :: r => if is_re_space c then drop_re_spaces r else l | [] => [] end.
Definition strip_not (candidate : string) : option string :=
  match to_bytes candidate with
  | n :: o :: t :: c :: rest =>
      if bool_decide (map lower [n; o; t] = to_bytes "not") && is_re_space c
      then Some (of_bytes (drop_re_spaces rest)) else None
  | _ => None
  end.

Definition has_word_operator (candidate : string) : bool :=
  Contains (ToLower lower_rune candidate) " and " || Contains (ToLower lower_rune candidate) " or ".

(** ** Evaluation

    [Evaluate] and [EvaluateAtomic] call each other; [None] is a call out of
    fuel, [Panic] an index out of range. *)
Definition evaluate_plain (candidate : string) : bool :=
  let '(negate, candidate) :=
    match strip_not candidate with
    | Some rest => (true, TrimSpace rest)
    | None => (false, candidate)
    end in
  let template :=
    if Contains candidate "{{" || Contains candidate "{%" then candidate
    else "{{ " +:+ candidate +:+ " }}" in
  let result := IsTruthy (Render template) in
  if negate : bool then negb result else result.

Definition EvaluateAtomic (Evaluate : string → option (go bool)) (expression : string) : option (go bool) :=
  let candidate := TrimSpace expression in
  if (HasPrefix candidate "{{" || HasPrefix candidate "{%") && has_word_operator candidate then
    let inner :=
      if HasPrefix candidate "{{" && HasSuffix candidate "}}"
      then TrimSpace (slice_from (slice_to candidate (String.length candidate - 2)) 2)
      else if HasPrefix candidate "{%" && HasSuffix candidate "%}"
      then ExtractIfCondition candidate
      else candidate in
    Evaluate inner
  else
    finish (evaluate_plain candidate).

(** The loop over the operators between the parts. *)
Fixpoint combine (currentAnd : bool) (orResults : list bool) (rest : list (string * bool)) : list bool :=
  match rest with
  | [] => orResults ++ [currentAnd]
  | (op, v) :: rest =>
      if EqualFold op "and" then combine (currentAnd && v) orResults rest
      else combine v (orResults ++ [currentAnd]) rest
  end.

Fixpoint evaluate_all (atomic : string → option (go bool)) (l : list operatorPart) : option (go (list bool)) :=
  match l with
  | [] => finish []
  | part :: l =>
      v ←! atomic (Expression part);
      vs ←! evaluate_all atomic l;
      finish (v :: vs)
  end.

Fixpoint Evaluate (fuel : nat) (expression : string) : option (go bool) :=
  match fuel with
  | O => None
  | S fuel =>
      let candidate := TrimSpace expression in
      if bool_decide (candidate = "") then finish false
      else
        let parts := SplitByTopLevelOperators candidate in
        match parts with
        | [part] => EvaluateAtomic (Evaluate fuel) (Expression part)
        | _ =>
            evaluated ←! evaluate_all (EvaluateAtomic (Evaluate fuel)) parts;
            match evaluated with
            | [] => Some Panic
            | first :: rest =>
                finish (existsb id (combine first [] (zip (Operator <$> parts) rest)))
            end
        end
  end.
End Condition.

(** ** And binds tighter than or

    The reference reading of [v1 op1 v2 op2 ... vn], each value paired with the
    operator after it: the groups between the operators other than [and]. *)
Fixpoint or_of_ands (l : list (string * bool)) : list (list bool) :=
  match l with
  | [] => []
  | (op, v) :: r =>
      match or_of_ands r with
      | [] => [[v]]
      | g :: gs => if EqualFold op "and" then (v :: g) :: gs else [v] :: g :: gs
      end
  end.

Lemma or_of_ands_head op r : ∃ g gs, ∀ v, or_of_ands ((op, v) :: r) = (v :: g) :: gs.
Proof.
  simpl. destruct (or_of_ands r) as [| g gs]; [by exists [], [] |].
  destruct (EqualFold op "and"); [by exists g, gs | by exists [], (g :: gs)].
Qed.

(** [cur] stands for a conjunction read already. *)
Lemma combine_spec ops : ∀ cur ors vs, length ops = S (length vs) →
  existsb id (combine cur ors (zip ops vs)) =
    existsb id ors || existsb (forallb id) (or_of_ands (zip ops (cur :: vs))).
Proof.
  induction ops as [| op ops IH]; intros cur ors vs Hlen; [done |].
  destruct vs as [| v vs]; simpl in Hlen.
  { destruct ops; [| done]. simpl. rewrite existsb_app. by destruct cur. }
  destruct ops as [| op' ops]; [done |]. destruct (or_of_ands_head op' (zip ops vs)) as (g & gs & Hg).
  change (zip (op :: op' :: ops) (cur :: v :: vs)) with ((op, cur) :: (op', v) :: zip ops vs).
  change (zip (op :: op' :: ops) (v :: vs)) with ((op, v) :: zip (op' :: ops) vs).
  cbn [or_of_ands combine]. cbn [or_of_ands] in Hg. rewrite (Hg v).
  destruct (EqualFold op "and"); rewrite IH by (simpl in *; lia).
  - change (zip (op' :: ops) ((cur && v) :: vs)) with ((op', cur && v) :: zip ops vs).
    cbn [or_of_ands]. rewrite (Hg (cur && v)). simpl. by destruct cur.
  - change (zip (op' :: ops) (v :: vs)) with ((op', v) :: zip ops vs).
    cbn [or_of_ands]. rewrite (Hg v), existsb_app. simpl. destruct cur; simpl; by rewrite ?orb_false_r, <- ?orb_assoc.
Qed.

Section Evaluation.
Context (lower_rune : N → N) (Render : string → string).

(** A part that is a whole template is evaluated again as an expression. *)
Definition wrapped (candidate : string) : bool :=
  (HasPrefix candidate "{{" || HasPrefix candidate "{%") && has_word_operator lower_rune candidate.

Lemma EvaluateAtomic_plain ev e : wrapped (TrimSpace e) = false →
  EvaluateAtomic lower_rune Render ev e = finish (evaluate_plain lower_rune Render (TrimSpace e)).
Proof. unfold EvaluateAtomic, wrapped. cbv zeta. by intros ->. Qed.

Definition part_value (p : operatorPart) : bool := evaluate_plain lower_rune Render (TrimSpace (Expression p)).

Lemma evaluate_all_plain ev l : Forall (λ p, wrapped (TrimSpace (Expression p)) = false) l →
  evaluate_all (EvaluateAtomic lower_rune Render ev) l = finish (part_value <$> l).
Proof.
  induction 1 as [| p l Hp _ IH]; [done |]. simpl. rewrite EvaluateAtomic_plain by done. simpl. by rewrite IH.
Qed.

(** C37: an expression none of whose parts is a whole template is evaluated at
    once, and it holds when all parts of one of its [and] groups hold: [and]
    binds tighter than [or].  An expression of operators only panics. *)
Theorem conditions_are_ors_of_ands fuel expression :
  IsBlank expression = false →
  let parts := SplitByTopLevelOperators lower_rune (TrimSpace expression) in
  Forall (λ p, wrapped (TrimSpace (Expression p)) = false) parts →
  Evaluate lower_rune Render (S fuel) expression =
    Some (if bool_decide (parts = []) then Panic
          else Done (existsb (forallb id) (or_of_ands ((λ p, (Operator p, part_value p)) <$> parts)))).
Proof.
  intros Hb parts Hplain. apply bool_decide_eq_false in Hb. cbn [Evaluate].
  rewrite bool_decide_eq_false_2 by done. fold parts.
  assert (Hzip : ∀ l, (λ p, (Operator p, part_value p)) <$> l = zip (Operator <$> l) (part_value <$> l)).
  { intros l. induction l as [| p l IH]; [done |]. rewrite !fmap_cons. cbn [zip zip_with]. by rewrite <- IH. }
  rewrite Hzip. destruct parts as [| p [| q l]]; [done | |].
  - inversion Hplain; subst. rewrite EvaluateAtomic_plain by done. simpl. by rewrite orb_false_r, andb_true_r.
  - rewrite evaluate_all_plain by done. rewrite bool_decide_eq_false_2 by done.
    unfold finish, fueled_bind. rewrite !(fmap_cons part_value), !(fmap_cons Operator).
    rewrite combine_spec; [done |]. simpl. by rewrite !length_fmap.
Qed.
End Evaluation.

Definition sample_render (s : string) : string := if bool_decide (s = "{{ b }}") then "no" else "yes".

Lemma conditions_are_ors_of_ands_witness :
  Evaluate (λ r, r) sample_render 1 "a or b and c" = Some (Done true) ∧
  Evaluate (λ r, r) sample_render 1 " and " = Some Panic.
Proof.
  split.
  - etrans; [apply (conditions_are_ors_of_ands (λ r, r) sample_render 0) |]; [reflexivity | | vm_compute; reflexivity].
    assert (SplitByTopLevelOperators (λ r, r) (TrimSpace "a or b and c") =
      [MkPart "a" "or"; MkPart "b" "and"; MkPart "c" ""]) as -> by (vm_compute; reflexivity).
    repeat (apply Forall_cons; split; [reflexivity |]). constructor.
  - etrans; [apply (conditions_are_ors_of_ands (λ r, r) sample_render 0) |]; [reflexivity | | vm_compute; reflexivity].
    assert (SplitByTopLevelOperators (λ r, r) (TrimSpace " and ") = []) as -> by (vm_compute; reflexivity).
    constructor.
Defined.

(** An opening template delimiter without its closing one at the end of the
    expression, around an operator, is evaluated for ever: the call returns at
    no depth of recursion. *)
Theorem unclosed_template_never_returns lower_rune Render fuel :
  Evaluate lower_rune Render fuel "{{ a and b }}x" = None.
Proof.
  induction fuel as [| fuel IH]; [done |].
  assert (Hparts : SplitByTopLevelOperators lower_rune (TrimSpace "{{ a and b }}x") = [MkPart "{{ a and b }}x" ""])
    by reflexivity.
  cbn [Evaluate]. rewrite bool_decide_eq_false_2 by done. rewrite Hparts.
  unfold EvaluateAtomic. cbn [Expression]. exact IH.
Qed.
