(* ===== verification/MetaPlan.v ===== *)
(** Meta-skill plans: [openclaw/core/skills_meta.go] (the data model and the
    route planner) and the plan functions of
    [openclaw/agent/agent_runtime.go].

    A plan is a list of steps with dependencies, routes and failure branches.
    [TryValidateMetaPlan] checks it before a run; [HasDependencyCycle] is its
    depth-first search.  During a run the sets [pending] and [blocked] and the
    map [failureAliases] are updated by the functions below, which take and
    return them. *)

From S2P Require Import Prelude GoStrings Json.
From stdpp Require Import fin_maps relations.
From Stdlib Require Import SpecFloat.

(** ** Data model *)

Record MetaRouteDefinition := MkRoute { RouteWhen : string; RouteTo : string }.

Record MetaStepRetryPolicy := MkRetry { MaxAttempts : Z; BackoffMs : Z }.

Record MetaStepOutputContract := MkContract { Format : string; RequiredProperties : list string }.

Record MetaClarifyField := MkField {
  FieldName : string;
  FieldType : string;
  Required : bool;
  DefaultValue : option json;
  Options : list string;
  MinLength : option Z;
  MaxLength : option Z;
  Min : option spec_float;
  Max : option spec_float }.

Record MetaClarifySchema := MkClarify {
  Mode : string;
  ExtractNaturalLanguage : bool;
  Fields : list MetaClarifyField;
  CancelWords : list string;
  SkipIf : string;
  ClarifyTimeoutSeconds : option Z }.

Record MetaCapabilityRefDefinition := MkCapabilityRef {
  Provider : string; Binding : string; SelectionPolicy : string; Fallback : string }.

Inductive MetaSkillStepDefinition := MkStep {
  Id : string;
  Kind : string;
  Skill : string;
  Tool : string;
  SkillExecEntrypoint : string;
  CapabilityRef : option MetaCapabilityRefDefinition;
  SkillExecArgs : list string;
  SkillExecStdin : string;
  SkillExecCwd : string;
  SkillExecParseMode : string;
  WithJSON : json_text;
  When : string;
  ToolArgsJSON : json_text;
  ToolAllowlist : list string;
  OutputChoices : list string;
  Clarify : option MetaClarifySchema;
  Routes : list MetaRouteDefinition;
  DependsOn : list string;
  OnFailure : string;
  TimeoutSeconds : option Z;
  Retry : option MetaStepRetryPolicy;
  OutputContract : option MetaStepOutputContract;
  Iterable : string;
  FanOutMaxConcurrency : Z;
  FanOutTemplate : option MetaSkillStepDefinition;
  FanOutMergeMode : string }.

(** The zero value, which a Go map lookup returns for a missing key. *)
Definition zero_step : MetaSkillStepDefinition :=
  MkStep "" "" "" "" "" None [] "" "" "" TBlank "" TBlank [] [] None [] [] ""
    None None None "" 0 None "".

Inductive SkillKind := SkillKind_Standard | SkillKind_Meta.
#[export] Instance SkillKind_eq_dec : EqDecision SkillKind.
Proof. solve_decision. Defined.

Record MetaSkillComposition := MkComposition {
  CompositionToolArgs : json_text; Steps : list MetaSkillStepDefinition }.

(** The fields of [SkillDefinition] that plans use. *)
Record SkillDefinition := MkSkill {
  SkillName : string;
  SkillKindOf : SkillKind;
  DisableModelInvocation : bool;
  Capabilities : list string;
  FinalTextMode : string;
  Composition : option MetaSkillComposition }.

(** ** Dependency cycles

    Two copies of the search exist: the runtime's compares ids as they are, the
    loader's in lower case.  [key] is what ids are compared by. *)
Section Cycle.
Context (key : string → string).

Definition index_steps (steps : list MetaSkillStepDefinition) : gmap string MetaSkillStepDefinition :=
  foldl (λ m step, <[key (Id step) := step]> m) ∅ steps.

(** [slices.ContainsFunc] with a function that updates a captured variable:
    stops at the first element accepted. *)
Fixpoint ContainsFunc {S} (f : string → S → option (bool * S)) (l : list string) (s : S)
    : option (bool * S) :=
  match l with
  | [] => Some (false, s)
  | x :: l =>
      match f x s with
      | Some (false, s) => ContainsFunc f l s
      | r => r
      end
  end.

(** [state]: 1 while a step's dependencies are searched, 2 after. *)
Fixpoint dfs (fuel : nat) (stepById : gmap string MetaSkillStepDefinition)
    (stepId : string) (state : gmap string Z) : option (bool * gmap string Z) :=
  match fuel with
  | O => None
  | S fuel =>
      match state !! key stepId with
      | Some currentState => Some (bool_decide (currentState = 1%Z), state)
      | None =>
          let step := default zero_step (stepById !! key stepId) in
          match ContainsFunc (dfs fuel stepById) (DependsOn step) (<[key stepId := 1%Z]> state) with
          | Some (false, state) => Some (false, <[key stepId := 2%Z]> state)
          | r => r
          end
      end
  end.

Fixpoint cycle_loop (fuel : nat) (stepById : gmap string MetaSkillStepDefinition)
    (steps : list MetaSkillStepDefinition) (state : gmap string Z) : option bool :=
  match steps with
  | [] => Some false
  | step :: steps =>
      if bool_decide (state !! key (Id step) = Some 2%Z) then cycle_loop fuel stepById steps state
      else
        match dfs fuel stepById (Id step) state with
        | Some (false, state) => cycle_loop fuel stepById steps state
        | Some (true, _) => Some true
        | None => None
        end
  end.

(** A search is at most as deep as there are steps, and one more call: on an id
    that is no step or that has been visited. *)
Definition has_cycle (steps : list MetaSkillStepDefinition) : option bool :=
  cycle_loop (S (length steps)) (index_steps steps) steps ∅.
End Cycle.

Definition HasDependencyCycle (steps : list MetaSkillStepDefinition) : option bool :=
  has_cycle (λ id, id) steps.

(** ** Validation before a run *)

(** A [for] loop whose body returns an error to leave the function. *)
Fixpoint for_each {A} (f : A → res ()) (l : list A) : res () :=
  match l with
  | [] => Ok tt
  | x :: l => match f x with Ok _ => for_each f l | Fail e => Fail e end
  end.

(** The same with a variable the body updates. *)
Fixpoint for_fold {A S} (f : S → A → res S) (s : S) (l : list A) : res S :=
  match l with
  | [] => Ok s
  | x :: l => match f s x with Ok s => for_fold f s l | Fail e => Fail e end
  end.

Abbreviation step_map := (gmap string MetaSkillStepDefinition).

Definition add_step (stepById : step_map) (step : MetaSkillStepDefinition) : res step_map :=
  match stepById !! Id step with
  | Some _ => Fail ("Meta execution graph contains duplicate step id '" +:+ Id step +:+ "'.")
  | None => Ok (<[Id step := step]> stepById)
  end.

Definition find_skill (loadedSkills : list SkillDefinition) (name : string) : option SkillDefinition :=
  snd <$> list_find (λ skill, SkillName skill = name) loadedSkills.

Definition check_dependency (stepById : step_map) (step : MetaSkillStepDefinition) (dependency : string) : res () :=
  match stepById !! dependency with
  | None =>
      Fail ("Meta execution graph references missing dependency '" +:+ dependency +:+
        "' from step '" +:+ Id step +:+ "'.")
  | Some _ =>
      if bool_decide (Id step = dependency)
      then Fail ("Meta execution graph contains self-dependency on step '" +:+ Id step +:+ "'.")
      else Ok tt
  end.

Definition check_step (loadedSkills : list SkillDefinition) (stepById : step_map)
    (step : MetaSkillStepDefinition) : res () :=
  let deps := for_each (check_dependency stepById step) (DependsOn step) in
  if bool_decide (Skill step = "") then deps
  else
    match find_skill loadedSkills (Skill step) with
    | Some delegatedSkill =>
        if bool_decide (SkillKindOf delegatedSkill = SkillKind_Meta)
        then Fail ("Meta execution graph cannot compose meta skill '" +:+ SkillName delegatedSkill +:+
               "' from step '" +:+ Id step +:+ "'.")
        else deps
    | None => deps
    end.

(** [designatedFallbacks] maps each fallback to the step it stands in for;
    [fallbackTargets] is its key set. *)
Definition check_fallback (stepById : step_map) (designatedFallbacks : gmap string string)
    (step : MetaSkillStepDefinition) : res (gmap string string) :=
  if bool_decide (OnFailure step = "") then Ok designatedFallbacks
  else
    let ok := bool_decide (is_Some (stepById !! OnFailure step)) in
    let substitute := default zero_step (stepById !! OnFailure step) in
    if bool_decide (Id step = OnFailure step) && negb ok
    then Fail ("Meta execution graph references invalid on_failure target '" +:+ OnFailure step +:+
           "' from step '" +:+ Id step +:+ "'.")
    else if negb (bool_decide (OnFailure substitute = "")) || negb (bool_decide (DependsOn substitute = []))
    then Fail ("Meta execution graph has invalid on_failure substitute '" +:+ Id substitute +:+
           "' from step '" +:+ Id step +:+ "'.")
    else
      match designatedFallbacks !! OnFailure step with
      | Some priorStep =>
          Fail ("Meta execution graph fallback step '" +:+ OnFailure step +:+ "' is shared by steps '" +:+
            priorStep +:+ "' and '" +:+ Id step +:+ "'.")
      | None => Ok (<[OnFailure step := Id step]> designatedFallbacks)
      end.

Definition check_no_fallback_dependency (fallbackTargets : gmap string string)
    (step : MetaSkillStepDefinition) : res () :=
  for_each (λ dependency,
    match fallbackTargets !! dependency with
    | None => Ok tt
    | Some _ =>
        Fail ("Meta execution graph step '" +:+ Id step +:+
          "' depends directly on fallback-only step '" +:+ dependency +:+ "'.")
    end) (DependsOn step).

(** [None] is a search out of fuel. *)
Definition TryValidateMetaPlan (steps : list MetaSkillStepDefinition)
    (loadedSkills : list SkillDefinition) : option (res ()) :=
  match for_fold add_step ∅ steps with
  | Fail e => Some (Fail e)
  | Ok stepById =>
      match for_each (check_step loadedSkills stepById) steps with
      | Fail e => Some (Fail e)
      | Ok _ =>
          match for_fold (check_fallback stepById) ∅ steps with
          | Fail e => Some (Fail e)
          | Ok fallbackTargets =>
              match for_each (check_no_fallback_dependency fallbackTargets) steps with
              | Fail e => Some (Fail e)
              | Ok _ =>
                  match HasDependencyCycle steps with
                  | None => None
                  | Some true => Some (Fail "Meta execution graph contains a dependency cycle.")
                  | Some false => Some (Ok tt)
                  end
              end
          end
      end
  end.

(** ** Sets of a run *)

(** The variable [children] is a copy of the slice header: [append] does not
    reach the map. *)
Definition add_dependency (stepId : string) (dependents : gmap string (list string))
    (dependency : string) : gmap string (list string) :=
  match dependents !! dependency with
  | None => dependents
  | Some children => let _children := children ++ [stepId] in dependents
  end.

Definition BuildDependentsIndex (steps : list MetaSkillStepDefinition) : gmap string (list string) :=
  let dependents := foldl (λ m step, <[Id step := []]> m) ∅ steps in
  foldl (λ m step, foldl (add_dependency (Id step)) m (DependsOn step)) dependents steps.

(** The stack is kept with its top first; dependents are pushed in order. *)
Fixpoint block_loop (fuel : nat) (stack : list string) (blocked pending : gset string)
    (dependentsByStep : gmap string (list string)) : option (gset string * gset string) :=
  match stack, fuel with
  | [], _ => Some (blocked, pending)
  | _ :: _, O => None
  | current :: stack, S fuel =>
      if bool_decide (current ∈ blocked) then block_loop fuel stack blocked pending dependentsByStep
      else
        let dependents := default [] (dependentsByStep !! current) in
        block_loop fuel (rev dependents ++ stack) ({[current]} ∪ blocked) (pending ∖ {[current]})
          dependentsByStep
  end.

(** Every id is pushed once by the caller and once per mention in the index. *)
Definition mentions (dependentsByStep : gmap string (list string)) : nat :=
  map_fold (λ _ l n, length l + n) 0 dependentsByStep.

Definition BlockStepAndDependents (stepId : string) (blocked pending : gset string)
    (dependentsByStep : gmap string (list string)) : option (gset string * gset string) :=
  block_loop (S (mentions dependentsByStep)) [stepId] blocked pending dependentsByStep.

Section PlanRun.
(** The code point table of [strings.ToLower], [strings.EqualFold] on any two
    strings, and the JSON decoder. *)
Context (lower_rune : N → N) (EqualFoldU : string → string → bool) (parse : string → option json).

Definition NormalizeMetaStepKind (kind : string) : string := ToLower lower_rune (TrimSpace kind).

(** ** Classification *)

Definition TryResolveClassificationLabel (raw : string) (options : list string) : option string :=
  if IsBlank raw then None
  else
    let candidate := Trim (TrimSpace raw) (String (byte 34) "'`") in
    let selected := default "" (snd <$> list_find (λ option, option = candidate) options) in
    if negb (IsBlank selected) then Some selected
    else snd <$> list_find (λ option, Contains candidate option = true) options.

(** The values of a route entry: a string, or the strings of an array. *)
Definition route_targets (value : json) : list string :=
  match value with
  | JStr v => if bool_decide (TrimSpace v = "") then [] else [TrimSpace v]
  | JArr l =>
      omap (λ item,
        match item with
        | JStr s => if bool_decide (TrimSpace s = "") then None else Some (TrimSpace s)
        | _ => None
        end) l
  | _ => []
  end.

(** The entries in the order the map is iterated over. *)
Definition TryGetRouteMap (args : gmap string json) : list (string * list string) :=
  match args !! "route" with
  | Some (JObj kvs) =>
      filter (λ e, e.2 ≠ []) (prod_map id route_targets <$> map_to_list (obj_map kvs))
  | _ => []
  end.

Definition block_all (targets : list string) (stepById : step_map)
    (dependentsByStep : gmap string (list string)) (st : gset string * gset string)
    : option (gset string * gset string) :=
  foldl (λ r target,
    '(blocked, pending) ← r;
    match stepById !! target with
    | None => Some (blocked, pending)
    | Some _ => BlockStepAndDependents target blocked pending dependentsByStep
    end) (Some st) targets.

Definition ApplyClassificationRouting (selectedLabel : string)
    (routeMap : list (string * list string)) (blocked pending : gset string)
    (dependentsByStep : gmap string (list string)) (stepById : step_map)
    : option (gset string * gset string) :=
  let matchedTargets := default [] (snd <$> (snd <$> list_find (λ e, e.1 = selectedLabel) routeMap)) in
  '(blocked, pending) ←
    foldl (λ r '(label, targets),
      st ← r;
      if bool_decide (label = selectedLabel) then Some st
      else block_all targets stepById dependentsByStep st) (Some (blocked, pending)) routeMap;
  Some (blocked ∖ list_to_set matchedTargets, pending).

(** ** Output contracts *)

Definition SanitizeJsonOutput (output : string) : string :=
  let trimmed := TrimSpace output in
  if bool_decide (trimmed = "") then ""
  else
    let trimmed :=
      if HasPrefix trimmed "```" then
        match Index trimmed (String (byte 10) "") with
        | None => trimmed
        | Some fenceEnd =>
            let contentStart := fenceEnd + 1 in
            match LastIndex trimmed "```" with
            | Some closingFence =>
                if Nat.ltb contentStart closingFence
                then TrimSpace (slice_from (slice_to trimmed closingFence) contentStart)
                else trimmed
            | None => trimmed
            end
        end
      else trimmed in
    match to_bytes trimmed with
    | c :: _ =>
        if bool_decide (c = "{"%char) then trimmed
        else
          match Index trimmed "{}", LastIndex trimmed "}" with
          | Some openBrace, Some closeBrace =>
              if Nat.ltb openBrace closeBrace
              then TrimSpace (slice_from (slice_to trimmed (closeBrace + 1)) openBrace)
              else trimmed
          | _, _ => trimmed
          end
    | [] => trimmed
    end.

(** The failure code, or success. *)
Definition TryValidateMetaStepOutput (step : MetaSkillStepDefinition) (output : string) : res () :=
  if negb (bool_decide (OutputChoices step = [])) && negb (bool_decide (TrimSpace output ∈ OutputChoices step))
  then Fail "invalid_output_choice"
  else
    match OutputContract step with
    | None => Ok tt
    | Some contract =>
        if IsBlank (Format contract) || bool_decide (Format contract = "text") then Ok tt
        else if negb (bool_decide (Format contract = "json")) then Fail "output_contract_failed"
        else
          match parse (SanitizeJsonOutput output) ≫= as_map with
          | None => Fail "output_contract_failed"
          | Some doc =>
              for_each (λ requiredProperty,
                let requiredProperty := TrimSpace requiredProperty in
                if bool_decide (requiredProperty = "") then Ok tt
                else match doc !! requiredProperty with Some _ => Ok tt | None => Fail "output_contract_failed" end)
                (RequiredProperties contract)
          end
    end.

(** ** Failure branches and completion *)

Record run_sets := MkSets {
  pending : gset string;
  blocked : gset string;
  outputs : gmap string string;
  failureAliases : gmap string string }.

Definition TryActivateFailureBranch (step : MetaSkillStepDefinition) (stepById : step_map) (st : run_sets)
    : bool * run_sets :=
  let fallbackStepId := TrimSpace (OnFailure step) in
  if bool_decide (fallbackStepId = "") then (false, st)
  else
    match stepById !! fallbackStepId with
    | None => (false, st)
    | Some _ =>
        (true, MkSets ({[fallbackStepId]} ∪ (pending st ∖ {[Id step]})) (blocked st ∖ {[fallbackStepId]})
                 (outputs st) (<[fallbackStepId := Id step]> (failureAliases st)))
    end.

Definition CompleteMetaStepOutput (step : MetaSkillStepDefinition) (output : string) (st : run_sets) : run_sets :=
  let outs := <[Id step := output]> (outputs st) in
  let outs := match failureAliases st !! Id step with Some primaryStepId => <[primaryStepId := output]> outs | None => outs end in
  MkSets (pending st ∖ {[Id step]}) (blocked st) outs (failureAliases st).

(** The deadline of an attempt, in seconds; [Panic] is the dereference of a nil
    [TimeoutSeconds]. *)
Definition CreateMetaStepTimeout (step : MetaSkillStepDefinition) : go (option Z) :=
  match TimeoutSeconds step with
  | None => Panic
  | Some t => if (t <=? 0)%Z then Done None else Done (Some t)
  end.

(** ** Routes *)

(** [Evaluate] is the condition evaluator in the context of the run. *)
Definition SelectNextStep (Evaluate : string → go bool) (step : MetaSkillStepDefinition) : go (option string) :=
  (fix select (routes : list MetaRouteDefinition) : go (option string) :=
     match routes with
     | [] => Done None
     | route :: routes =>
         if IsBlank (RouteWhen route) then Done (Some (RouteTo route))
         else
           b ← Evaluate (RouteWhen route);
           if b : bool then Done (Some (RouteTo route)) else select routes
     end) (Routes step).

Definition ApplyInitialRoutingBlocks (steps : list MetaSkillStepDefinition) (blocked pending : gset string)
    : gset string * gset string :=
  let targets := list_to_set (RouteTo <$> (steps ≫= Routes)) in
  (targets ∪ blocked, pending ∖ targets).

Definition route_one (selected : option string) (stepById : step_map)
    (dependentsByStep : gmap string (list string)) (st : gset string * gset string)
    (route : MetaRouteDefinition) : option (gset string * gset string) :=
  let '(blocked, pending) := st in
  match stepById !! RouteTo route with
  | None => Some (blocked, pending)
  | Some _ =>
      if match selected with Some t => EqualFoldU (RouteTo route) t | None => false end
      then Some (blocked ∖ {[RouteTo route]}, {[RouteTo route]} ∪ pending)
      else BlockStepAndDependents (RouteTo route) blocked pending dependentsByStep
  end.

(** [None] inside [Done] is a block loop out of fuel. *)
Definition ApplyCompletionRouting (Evaluate : string → go bool) (step : MetaSkillStepDefinition)
    (stepById : step_map) (blocked pending : gset string) (dependentsByStep : gmap string (list string))
    : go (option (gset string * gset string)) :=
  match Routes step with
  | [] => Done (Some (blocked, pending))
  | _ =>
      selected ← SelectNextStep Evaluate step;
      Done (foldl (λ r route, st ← r; route_one selected stepById dependentsByStep st route)
        (Some (blocked, pending)) (Routes step))
  end.
End PlanRun.

(** ** The search finds a cycle exactly when there is one *)

Section CycleSpec.
Context (key : string → string) (idx : gmap string MetaSkillStepDefinition).

(** Step [a] waits for step [b]. *)
Definition dep (a b : string) : Prop :=
  ∃ step, idx !! a = Some step ∧ b ∈ key <$> DependsOn step.

(** [a] waits, directly or not, for no step that waits for itself. *)
Definition grounded (a : string) : Prop := Acc (flip dep) a.

Lemma grounded_no_cycle a : grounded a → ¬ tc dep a a.
Proof.
  induction 1 as [a _ IH]. intros Hc.
  inversion Hc as [x y Hd | x y z Hd Hr]; subst; [by eapply IH |].
  eapply IH; [exact Hd |]. eapply tc_transitive; [exact Hr | by apply tc_once].
Qed.

(** What holds of [state] between calls. *)
Record searched (state : gmap string Z) : Prop := {
  searched_done a : state !! a = Some 2%Z → grounded a;
  searched_values a v : state !! a = Some v → v = 1%Z ∨ v = 2%Z }.

(** What a call that found no cycle leaves: the steps being searched are the
    same, no step is forgotten. *)
Record searched_on (state state' : gmap string Z) : Prop := {
  on_searched : searched state';
  on_open a : state' !! a = Some 1%Z ↔ state !! a = Some 1%Z;
  on_dom : dom state ⊆ dom state' }.

Definition search_ok (id : string) (state : gmap string Z) (r : option (bool * gmap string Z)) : Prop :=
  ∃ found state', r = Some (found, state') ∧
    if found then ∃ a, tc dep a a
    else searched_on state state' ∧ state' !! id = Some 2%Z.

Lemma searched_on_refl state : searched state → searched_on state state.
Proof. by constructor. Qed.

Lemma searched_on_trans s1 s2 s3 : searched_on s1 s2 → searched_on s2 s3 → searched_on s1 s3.
Proof.
  intros [_ Ho1 Hd1] [Hs Ho2 Hd2]. split; [done | | set_solver].
  intros a. by rewrite Ho2, Ho1.
Qed.

Lemma searched_done_mono s1 s2 a :
  searched_on s1 s2 → s1 !! a = Some 2%Z → s2 !! a = Some 2%Z.
Proof.
  intros [Hs Ho Hd] H1. assert (is_Some (s2 !! a)) as [v Hv].
  { apply elem_of_dom, Hd, elem_of_dom. eauto. }
  destruct (searched_values _ Hs a v Hv) as [-> | ->]; [| done].
  apply Ho in Hv. congruence.
Qed.

Lemma ContainsFunc_spec f (l : list string) (s0 s1 : gmap string Z) :
  searched_on s0 s1 →
  (∀ x s, x ∈ l → searched_on s0 s → search_ok (key x) s (f x s)) →
  ∃ found s2, ContainsFunc f l s1 = Some (found, s2) ∧
    if found then ∃ a, tc dep a a
    else searched_on s1 s2 ∧ ∀ x, x ∈ l → s2 !! key x = Some 2%Z.
Proof.
  revert s1; induction l as [| x l IH]; intros s1 Hon Hf; simpl.
  { exists false, s1. split; [done |]. split; [by apply searched_on_refl, Hon |].
    by intros x ?%not_elem_of_nil. }
  destruct (Hf x s1) as (found & s2 & -> & H2); [by left | done |].
  destruct found; [by exists true, s2 |]. destruct H2 as [Hon2 Hx].
  destruct (IH s2) as (found & s3 & -> & H3).
  { by eapply searched_on_trans. }
  { intros y s Hy. apply Hf. by right. }
  exists found, s3. split; [done |]. destruct found; [done |]. destruct H3 as [Hon3 Hl].
  split; [by eapply searched_on_trans |].
  intros y [-> | Hy]%elem_of_cons; [by eapply searched_done_mono | by apply Hl].
Qed.

(** Opening [id]: its dependencies are searched below every open step. *)
Lemma searched_open state id :
  searched state → state !! id = None → searched (<[id := 1%Z]> state).
Proof.
  intros Hs Hid. split.
  - intros a. destruct (decide (a = id)) as [-> | ?]; simplify_map_eq; [done |]. apply Hs.
  - intros a v Hv. destruct (decide (a = id)) as [-> | ?]; simplify_map_eq; [by left | by eapply Hs].
Qed.

Lemma searched_close s0 s1 id :
  s0 !! id = None → searched s0 → searched_on (<[id := 1%Z]> s0) s1 → grounded id →
  searched_on s0 (<[id := 2%Z]> s1).
Proof.
  intros Hid Hs0 [Hs1 Ho Hd] Hg. split.
  - split.
    + intros a. destruct (decide (a = id)) as [-> | ?]; simplify_map_eq; [done |]. apply Hs1.
    + intros a v Hv. destruct (decide (a = id)) as [-> | ?]; simplify_map_eq; [by right | by eapply Hs1].
  - intros a. destruct (decide (a = id)) as [-> | ?]; simplify_map_eq; [naive_solver |].
    rewrite Ho. by simplify_map_eq.
  - rewrite dom_insert_L. rewrite dom_insert_L in Hd. set_solver.
Qed.

(** The steps left to open. *)
Definition unopened (state : gmap string Z) : gset string := dom idx ∖ dom state.

Lemma dfs_spec fuel : ∀ id state,
  searched state →
  (∀ a, state !! a = Some 1%Z → tc dep a (key id)) →
  size (unopened state) < fuel →
  search_ok (key id) state (dfs key fuel idx id state).
Proof.
  induction fuel as [| fuel IH]; intros id state Hs Hopen Hfuel; [lia |]. simpl.
  destruct (state !! key id) as [v |] eqn:Hid.
  { destruct (searched_values _ Hs _ _ Hid) as [-> | ->].
    - exists true, state. split; [done |]. exists (key id). by apply Hopen.
    - exists false, state. split; [done |]. split; [by apply searched_on_refl | done]. }
  set (deps := DependsOn (default zero_step (idx !! key id))).
  assert (Hdep : ∀ x, x ∈ deps → dep (key id) (key x) ∧ key id ∈ dom idx).
  { intros x. unfold deps. destruct (idx !! key id) as [step |] eqn:Hstep; simpl.
    - intros Hx. split; [| apply elem_of_dom; eauto]. exists step. split; [done |].
      apply list_elem_of_fmap. eauto.
    - by intros ?%not_elem_of_nil. }
  edestruct (ContainsFunc_spec (dfs key fuel idx) deps (<[key id := 1%Z]> state))
    as (found & s2 & -> & H2).
  { by apply searched_on_refl, searched_open. }
  { intros x s Hx [Hs2 Ho Hd]. destruct (Hdep x Hx) as [Hdx Hin].
    apply IH; [done | |].
    - intros a Ha%Ho. destruct (decide (a = key id)) as [-> | Hne]; simplify_map_eq.
      + by apply tc_once.
      + eapply tc_r; [by apply Hopen | done].
    - unfold unopened in *. rewrite dom_insert_L in Hd.
      assert (Hnin : key id ∉ dom state) by (by apply not_elem_of_dom).
      enough (size (dom idx ∖ dom s) < size (dom idx ∖ dom state)) by lia.
      apply subset_size. set_solver. }
  destruct found; [by exists true, s2 |]. destruct H2 as [Hon Hall].
  exists false, (<[key id := 2%Z]> s2). split; [done |]. split; [| by simplify_map_eq].
  apply searched_close; [done.. |].
  constructor. intros b (step & Hstep & Hb). apply list_elem_of_fmap in Hb as (x & -> & Hx).
  eapply searched_done; [apply Hon |]. apply Hall. unfold deps. by rewrite Hstep.
Qed.

Lemma cycle_loop_spec fuel steps : ∀ state,
  searched state → (∀ a, state !! a ≠ Some 1%Z) → size (dom idx) < fuel →
  ∃ b, cycle_loop key fuel idx steps state = Some b ∧
    if b then ∃ a, tc dep a a else ∀ step, step ∈ steps → grounded (key (Id step)).
Proof.
  induction steps as [| step steps IH]; intros state Hs Hno Hfuel; simpl.
  { exists false. split; [done |]. by intros x ?%not_elem_of_nil. }
  case_bool_decide as Hdone.
  { destruct (IH state Hs Hno Hfuel) as (b & -> & Hb). exists b. split; [done |].
    destruct b; [done |]. intros x [-> | Hx]%elem_of_cons; [by eapply searched_done | by apply Hb]. }
  destruct (dfs_spec fuel (Id step) state) as (found & s2 & -> & H2); [done | by intros ? ?%Hno | |].
  { eapply Nat.le_lt_trans; [apply subseteq_size | exact Hfuel]. unfold unopened. set_solver. }
  destruct found; [by exists true |]. destruct H2 as [[Hs2 Ho _] Hid].
  destruct (IH s2) as (b & -> & Hb); [done | intros a Ha%Ho; by eapply Hno | done |].
  exists b. split; [done |]. destruct b; [done |].
  intros x [-> | Hx]%elem_of_cons; [by eapply searched_done | by apply Hb].
Qed.
End CycleSpec.

Section HasCycle.
Context (key : string → string).

Lemma index_steps_acc steps : ∀ m : gmap string MetaSkillStepDefinition,
  foldl (λ m step, <[key (Id step) := step]> m) m steps =
  index_steps key steps ∪ m.
Proof.
  unfold index_steps. induction steps as [| step steps IH]; intros m; simpl.
  { by rewrite (left_id_L ∅ (∪)). }
  rewrite (IH (<[_ := _]> m)), (IH (<[_ := _]> ∅)).
  rewrite <- (assoc_L (∪)). f_equal. rewrite <- insert_union_l. by rewrite (left_id_L ∅ (∪)).
Qed.

Lemma index_steps_cons step steps :
  index_steps key (step :: steps) = index_steps key steps ∪ {[key (Id step) := step]}.
Proof. unfold index_steps at 1. simpl. by rewrite index_steps_acc. Qed.

Lemma index_steps_size steps : size (dom (index_steps key steps)) ≤ length steps.
Proof.
  induction steps as [| step steps IH]; [done |].
  rewrite index_steps_cons, dom_union_L, dom_singleton_L, size_union_alt. simpl.
  enough (size ({[key (Id step)]} ∖ dom (index_steps key steps)) ≤ 1) by lia.
  rewrite <- (size_singleton (C := gset string) (key (Id step))). apply subseteq_size. set_solver.
Qed.

(** With distinct ids the index is the list. *)
Lemma index_steps_lookup steps : NoDup (key ∘ Id <$> steps) → ∀ a step,
  index_steps key steps !! a = Some step ↔ step ∈ steps ∧ key (Id step) = a.
Proof.
  induction steps as [| s steps IH]; intros Hnd a step.
  { split; [done |]. by intros [?%not_elem_of_nil _]. }
  rewrite fmap_cons in Hnd. apply NoDup_cons in Hnd as [Hs Hnd]. rewrite index_steps_cons.
  rewrite lookup_union_Some_raw, IH by done. rewrite elem_of_cons, lookup_singleton_Some.
  assert (Hno : index_steps key steps !! key (Id s) = None).
  { apply eq_None_not_Some. intros (step' & [Hin Hk]%IH); [| done]. apply Hs.
    apply list_elem_of_fmap. exists step'. by split. }
  split.
  - intros [[? ?] | (_ & <- & <-)]; auto.
  - intros [[-> | ?] <-]; [right | left]; auto.
Qed.

Lemma index_steps_dom steps a : a ∈ dom (index_steps key steps) ↔ ∃ step, step ∈ steps ∧ key (Id step) = a.
Proof.
  induction steps as [| s steps IH].
  { split; [set_solver |]. by intros (? & ?%not_elem_of_nil & _). }
  rewrite index_steps_cons, dom_union_L, dom_singleton_L, elem_of_union, IH, elem_of_singleton.
  setoid_rewrite elem_of_cons. naive_solver.
Qed.

Lemma has_cycle_spec steps :
  ∃ b, has_cycle key steps = Some b ∧
    (b = true ↔ ∃ a, tc (dep key (index_steps key steps)) a a).
Proof.
  destruct (cycle_loop_spec key (index_steps key steps) (S (length steps)) steps ∅) as (b & Hb & Hspec).
  { by split. }
  { done. }
  { pose proof (index_steps_size steps). lia. }
  exists b. split; [exact Hb |]. destruct b; [done |]. split; [done |].
  intros (a & Ha). exfalso.
  assert (∃ step, step ∈ steps ∧ key (Id step) = a) as (step & Hin & <-).
  { apply index_steps_dom, elem_of_dom.
    inversion Ha as [x y (s & Hs & _) | x y z (s & Hs & _)]; subst; eauto. }
  by eapply grounded_no_cycle; [apply Hspec |].
Qed.
End HasCycle.
(** ** Validation accepts the well-formed plans *)

Lemma for_each_ok {A} (f : A → res ()) l : for_each f l = Ok tt ↔ ∀ x, x ∈ l → f x = Ok tt.
Proof.
  induction l as [| x l IH]; simpl.
  { split; [by intros _ x ?%not_elem_of_nil | done]. }
  destruct (f x) as [[] | e] eqn:Hx; rewrite ?IH; setoid_rewrite elem_of_cons.
  - naive_solver.
  - split; [done |]. intros H. rewrite H in Hx; auto.
Qed.

Lemma for_each_cases {A} (f : A → res ()) l : for_each f l = Ok tt ∨ ∃ e, for_each f l = Fail e.
Proof. destruct (for_each f l) as [[] | e]; eauto. Qed.

Lemma tc_mono {A} (R R' : A → A → Prop) : (∀ x y, R x y → R' x y) → ∀ x y, tc R x y → tc R' x y.
Proof. intros H x y Hxy. induction Hxy; [apply tc_once | eapply tc_l]; eauto. Qed.

(** Step [a] of the plan depends on [b]. *)
Definition depends (steps : list MetaSkillStepDefinition) (a b : string) : Prop :=
  ∃ step, step ∈ steps ∧ Id step = a ∧ b ∈ DependsOn step.

(** What a plan must be.  A failure branch may name no step at all. *)
Record well_formed_plan (steps : list MetaSkillStepDefinition) (loadedSkills : list SkillDefinition) : Prop := {
  wf_ids : NoDup (Id <$> steps);
  wf_delegates step skill : step ∈ steps → Skill step ≠ "" →
    find_skill loadedSkills (Skill step) = Some skill → SkillKindOf skill ≠ SkillKind_Meta;
  wf_dependencies step d : step ∈ steps → d ∈ DependsOn step → d ∈ Id <$> steps;
  wf_substitutes step substitute : step ∈ steps → OnFailure step ≠ "" →
    substitute ∈ steps → Id substitute = OnFailure step →
    OnFailure substitute = "" ∧ DependsOn substitute = [];
  wf_exclusive : NoDup (filter (λ f, f ≠ "") (OnFailure <$> steps));
  wf_fallback_only step step' : step ∈ steps → step' ∈ steps → OnFailure step ≠ "" →
    OnFailure step ∉ DependsOn step';
  wf_acyclic a : ¬ tc (depends steps) a a }.

Lemma add_steps_spec steps : ∀ m : step_map,
  (NoDup (Id <$> steps) ∧ (∀ step, step ∈ steps → m !! Id step = None) ∧
    for_fold add_step m steps = Ok (foldl (λ m step, <[Id step := step]> m) m steps)) ∨
  (¬ (NoDup (Id <$> steps) ∧ ∀ step, step ∈ steps → m !! Id step = None) ∧
    ∃ e, for_fold add_step m steps = Fail e).
Proof.
  induction steps as [| s steps IH]; intros m; simpl.
  { left. split_and!; [apply NoDup_nil_2 | by intros ? ?%not_elem_of_nil | done]. }
  unfold add_step at 1 3. destruct (m !! Id s) as [s' |] eqn:Hs.
  { right. split; [| eauto]. intros [_ H]. specialize (H s). rewrite H in Hs; [done | by left]. }
  setoid_rewrite NoDup_cons. setoid_rewrite list_elem_of_fmap.
  destruct (IH (<[Id s := s]> m)) as [(Hnd & Hm & ->) | (Hno & Hfail)].
  - left. split_and!; [| done | | done].
    + intros (x & Hx & Hin). specialize (Hm x Hin). by rewrite <- Hx, lookup_insert_eq in Hm.
    + intros x [-> | Hx]%elem_of_cons; [done |]. specialize (Hm x Hx).
      by apply lookup_insert_None in Hm as [? _].
  - right. split; [| done]. intros ((Hnin & Hnd) & Hm). apply Hno. split; [done |].
    intros x Hx. apply lookup_insert_None. split; [by apply Hm; right |]. intros Heq. apply Hnin. eauto.
Qed.

Lemma check_step_ok loadedSkills stepById step :
  check_step loadedSkills stepById step = Ok tt ↔
  (∀ skill, Skill step ≠ "" → find_skill loadedSkills (Skill step) = Some skill →
     SkillKindOf skill ≠ SkillKind_Meta) ∧
  ∀ d, d ∈ DependsOn step → is_Some (stepById !! d) ∧ Id step ≠ d.
Proof.
  assert (Hdeps : for_each (check_dependency stepById step) (DependsOn step) = Ok tt ↔
    ∀ d, d ∈ DependsOn step → is_Some (stepById !! d) ∧ Id step ≠ d).
  { rewrite for_each_ok. unfold check_dependency. split; intros H d Hd; specialize (H d Hd).
    - destruct (stepById !! d) eqn:Hl; [| done]. case_bool_decide; [done |]. eauto.
    - destruct H as ([s ->] & Hne). by rewrite bool_decide_eq_false_2. }
  unfold check_step. case_bool_decide as Hsk; [naive_solver |].
  destruct (find_skill loadedSkills (Skill step)) as [sk |]; [| naive_solver].
  case_bool_decide; [| naive_solver]. split; [done |]. intros [H1 _]. by destruct (H1 sk).
Qed.

(** The fallbacks of [steps], in order. *)
Definition fallbacks (steps : list MetaSkillStepDefinition) : list string :=
  filter (λ f, f ≠ "") (OnFailure <$> steps).

Definition substitute_ok (stepById : step_map) (step : MetaSkillStepDefinition) : Prop :=
  OnFailure step ≠ "" →
  (Id step = OnFailure step → is_Some (stepById !! OnFailure step)) ∧
  OnFailure (default zero_step (stepById !! OnFailure step)) = "" ∧
  DependsOn (default zero_step (stepById !! OnFailure step)) = [].

Lemma check_fallback_spec stepById m step :
  (substitute_ok stepById step ∧ (OnFailure step ≠ "" → m !! OnFailure step = None) ∧
    check_fallback stepById m step =
      Ok (if bool_decide (OnFailure step = "") then m else <[OnFailure step := Id step]> m)) ∨
  (¬ (substitute_ok stepById step ∧ (OnFailure step ≠ "" → m !! OnFailure step = None)) ∧
    ∃ e, check_fallback stepById m step = Fail e).
Proof.
  unfold check_fallback, substitute_ok. case_bool_decide as Hf; [left; naive_solver |].
  destruct (bool_decide (Id step = OnFailure step) && negb _) eqn:Hself.
  { right. split; [| eauto]. apply andb_prop in Hself as [H1%bool_decide_eq_true H2].
    apply negb_true_iff, bool_decide_eq_false in H2. naive_solver. }
  destruct (negb _ || negb _) eqn:Hsub.
  { right. split; [| eauto]. intros [H _]. destruct (H Hf) as (_ & H1 & H2).
    by rewrite !bool_decide_eq_true_2 in Hsub. }
  apply orb_false_iff in Hsub as [H1%negb_false_iff%bool_decide_eq_true H2%negb_false_iff%bool_decide_eq_true].
  destruct (m !! OnFailure step) as [p |] eqn:Hm; [right | left].
  - split; [| eauto]. intros [_ H]. by specialize (H Hf).
  - split_and!; [| done | done]. intros _. split_and!; [| done | done]. intros Heq.
    rewrite (bool_decide_eq_true_2 _ Heq) in Hself. simpl in Hself.
    by apply negb_false_iff, bool_decide_eq_true in Hself.
Qed.

Lemma check_fallbacks_spec stepById steps : ∀ m,
  (∃ m', for_fold (check_fallback stepById) m steps = Ok m' ∧
    (∀ step, step ∈ steps → substitute_ok stepById step) ∧
    NoDup (fallbacks steps) ∧ (∀ f, f ∈ fallbacks steps → m !! f = None) ∧
    ∀ f, is_Some (m' !! f) ↔ is_Some (m !! f) ∨ f ∈ fallbacks steps) ∨
  (¬ ((∀ step, step ∈ steps → substitute_ok stepById step) ∧
      NoDup (fallbacks steps) ∧ ∀ f, f ∈ fallbacks steps → m !! f = None) ∧
    ∃ e, for_fold (check_fallback stepById) m steps = Fail e).
Proof.
  induction steps as [| s steps IH]; intros m; simpl.
  { left. exists m. split_and!; [done | by intros ? ?%not_elem_of_nil | apply NoDup_nil_2 |
      by intros ? ?%not_elem_of_nil |]. intros f. split; [by left |]. by intros [? | ?%not_elem_of_nil]. }
  destruct (check_fallback_spec stepById m s) as [(H1 & H2 & ->) | (Hno & e & ->)]; cycle 1.
  { right. split; [| eauto]. intros (Ha & Hb & Hc). apply Hno. split; [apply Ha; by left |].
    intros Hf. apply Hc. unfold fallbacks. rewrite fmap_cons, filter_cons_True by done. by left. }
  unfold fallbacks in *. rewrite fmap_cons, filter_cons.
  setoid_rewrite elem_of_cons.
  case_bool_decide as Hf.
  { rewrite decide_False by (intros H; by apply H).
    destruct (IH m) as [(m' & -> & Ha & Hb) | (Hno & Hfail)]; [left | right].
    - exists m'. split; [done |]. split; [| done]. intros step [-> | Hin]; [done | by apply Ha].
    - split; [| done]. intros (Ha & Hb). apply Hno. split; [| done]. intros step Hin. apply Ha. by right. }
  rewrite decide_True by done. setoid_rewrite NoDup_cons. setoid_rewrite elem_of_cons.
  destruct (IH (<[OnFailure s := Id s]> m)) as [(m' & -> & Ha & Hb & Hc & Hd) | (Hno & Hfail)].
  - left. exists m'. split; [done |].     split_and!.
    + intros step [-> | Hin]; [done | by apply Ha].
    + intros Hin. by specialize (Hc _ Hin); rewrite lookup_insert_eq in Hc.
    + done.
    + intros f [-> | Hin]; [by apply H2 |]. by apply Hc, lookup_insert_None in Hin as [? _].
    + intros f. rewrite Hd, lookup_insert_is_Some.
      destruct (decide (OnFailure s = f)) as [<- | Hne]; [tauto |]. split; [tauto |].
      intros [? | [? | ?]]; [tauto | by subst | tauto].
  - right. split; [| done]. intros (Ha & (Hb & Hb') & Hc). apply Hno.
    split_and!; [intros; apply Ha; by right | done |]. intros f Hin. apply lookup_insert_None.
    split; [apply Hc; by right | congruence].
Qed.

Lemma HasDependencyCycle_spec steps : NoDup (Id <$> steps) →
  ∃ b, HasDependencyCycle steps = Some b ∧ (b = true ↔ ∃ a, tc (depends steps) a a).
Proof.
  intros Hnd. destruct (has_cycle_spec (λ id, id) steps) as (b & Hb & Hspec).
  exists b. split; [exact Hb |]. rewrite Hspec.
  assert (Heq : ∀ x y, dep (λ id, id) (index_steps (λ id, id) steps) x y ↔ depends steps x y).
  { intros x y. unfold dep, depends.
    setoid_rewrite index_steps_lookup; [| done]. setoid_rewrite list_fmap_id. naive_solver. }
  split; intros (a & Ha); exists a; (eapply tc_mono; [| exact Ha]); intros x y; apply Heq.
Qed.

Lemma elem_of_fallbacks steps f :
  f ∈ fallbacks steps ↔ f ≠ "" ∧ ∃ step, step ∈ steps ∧ OnFailure step = f.
Proof. unfold fallbacks. rewrite list_elem_of_filter, list_elem_of_fmap. naive_solver. Qed.

(** Substitutes by the list and by the index agree. *)
Lemma substitutes_spec steps : NoDup (Id <$> steps) →
  (∀ step, step ∈ steps → substitute_ok (index_steps (λ id, id) steps) step) ↔
  ∀ step substitute, step ∈ steps → OnFailure step ≠ "" → substitute ∈ steps →
    Id substitute = OnFailure step → OnFailure substitute = "" ∧ DependsOn substitute = [].
Proof.
  intros Hnd. assert (Hidx := index_steps_lookup (λ id, id) steps Hnd). simpl in Hidx.
  split; intros H step.
  - intros sub Hin Hf Hsub Heq. destruct (H step Hin Hf) as (_ & H1 & H2).
    by rewrite (proj2 (Hidx (OnFailure step) sub)) in H1, H2.
  - intros Hin Hf. split; [intros <-; exists step; by apply Hidx |].
    destruct (index_steps (λ id, id) steps !! OnFailure step) as [sub |] eqn:Hsub; [| done].
    apply Hidx in Hsub as [Hsub Heq]. by apply (H step sub).
Qed.

Lemma check_no_fallbacks_ok m steps :
  for_each (check_no_fallback_dependency m) steps = Ok tt ↔
  ∀ step d, step ∈ steps → d ∈ DependsOn step → m !! d = None.
Proof.
  rewrite for_each_ok. unfold check_no_fallback_dependency. setoid_rewrite for_each_ok.
  split; intros H step; [intros d Hin Hd | intros Hin d Hd]; specialize (H step).
  - specialize (H Hin d Hd). by destruct (m !! d).
  - by rewrite (H d Hin Hd).
Qed.

Lemma no_fallback_dependency_iff (m : gmap string string) steps :
  (∀ f, is_Some (m !! f) ↔ f ∈ fallbacks steps) →
  (∀ step d, step ∈ steps → d ∈ DependsOn step → m !! d = None) ↔
  ∀ step step', step ∈ steps → step' ∈ steps → OnFailure step ≠ "" → OnFailure step ∉ DependsOn step'.
Proof.
  intros Hm. setoid_rewrite elem_of_fallbacks in Hm. split.
  - intros H step step' Hin Hin' Hne Hd. destruct (proj2 (Hm (OnFailure step))) as [p Hp]; [eauto |].
    by rewrite (H _ _ Hin' Hd) in Hp.
  - intros H step d Hin Hd. apply eq_None_not_Some. intros (Hne & s & Hs & <-)%Hm. by eapply (H s step).
Qed.

Lemma check_steps_ok loadedSkills steps :
  for_each (check_step loadedSkills (index_steps (λ id, id) steps)) steps = Ok tt ↔
  (∀ step skill, step ∈ steps → Skill step ≠ "" →
     find_skill loadedSkills (Skill step) = Some skill → SkillKindOf skill ≠ SkillKind_Meta) ∧
  ∀ step d, step ∈ steps → d ∈ DependsOn step → d ∈ Id <$> steps ∧ Id step ≠ d.
Proof.
  rewrite for_each_ok. setoid_rewrite check_step_ok. setoid_rewrite <- elem_of_dom.
  setoid_rewrite index_steps_dom. setoid_rewrite list_elem_of_fmap. split; [intros H | intros [H1 H2]].
  - split; [intros step skill Hin; by apply H |]. intros step d Hin Hd.
    destruct (proj2 (H step Hin) d Hd) as [(s & Hs & <-) ?]. eauto.
  - intros step Hin. split; [intros skill; by apply H1 |]. intros d Hd.
    destruct (H2 step d Hin Hd) as [(s & -> & Hs) ?]. eauto.
Qed.

Lemma validate_spec steps loadedSkills :
  ∃ r, TryValidateMetaPlan steps loadedSkills = Some r ∧
    (r = Ok tt ↔ well_formed_plan steps loadedSkills).
Proof.
  unfold TryValidateMetaPlan.
  destruct (add_steps_spec steps ∅) as [(Hnd & _ & ->) | (Hno & e & ->)]; cycle 1.
  { eexists. split; [done |]. split; [done |]. intros []. destruct Hno. split; [done |].
    intros. apply lookup_empty. }
  change (foldl _ ∅ steps) with (index_steps (λ id, id) steps).
  destruct (for_each_cases (check_step loadedSkills (index_steps (λ id, id) steps)) steps)
    as [Hok | (e & Hfail)]; cycle 1.
  { rewrite Hfail. eexists. split; [done |]. split; [done |]. intros Hwf. exfalso.
    enough (for_each (check_step loadedSkills (index_steps (λ id, id) steps)) steps = Ok tt) by congruence.
    apply check_steps_ok. split; [apply Hwf |]. intros step d Hin Hd. split; [by eapply Hwf |].
    intros Heq. apply (wf_acyclic _ _ Hwf d), tc_once. by exists step. }
  rewrite Hok. apply check_steps_ok in Hok as [Hskill Hdeps].
  destruct (check_fallbacks_spec (index_steps (λ id, id) steps) steps ∅)
    as [(m' & -> & Hsub & Hex & _ & Hm') | (Hno & e & ->)]; cycle 1.
  { eexists. split; [done |]. split; [done |]. intros Hwf. destruct Hno. split_and!.
    - apply substitutes_spec; [done | apply Hwf].
    - apply Hwf.
    - intros. apply lookup_empty. }
  assert (Hsub' := proj1 (substitutes_spec steps Hnd) Hsub).
  assert (Hfb : ∀ f, is_Some (m' !! f) ↔ f ∈ fallbacks steps).
  { intros f. rewrite Hm', lookup_empty. split; [by intros [[] | ?] | by right]. }
  apply no_fallback_dependency_iff, (iff_trans (check_no_fallbacks_ok m' steps)) in Hfb.
  destruct (for_each_cases (check_no_fallback_dependency m') steps) as [Hok | (e & Hfail)]; cycle 1.
  { rewrite Hfail in *. eexists. split; [done |]. split; [done |]. intros Hwf.
    by apply Hfb, (wf_fallback_only _ _ Hwf). }
  rewrite Hok. destruct (HasDependencyCycle_spec steps Hnd) as ([] & -> & Hcyc).
  - eexists. split; [done |]. split; [done |]. intros Hwf. destruct (proj1 Hcyc eq_refl) as (a & Ha).
    by destruct (wf_acyclic _ _ Hwf a).
  - eexists. split; [done |]. split; [intros _ | done]. split; try done.
    + intros step d Hin Hd. by eapply Hdeps.
    + by apply Hfb.
    + intros a Ha. by assert (false = true) by (apply Hcyc; eauto).
Qed.

(** C2: validation of a plan returns for every plan, and it returns no error
    exactly when the plan is well formed: distinct ids, no meta skill
    delegated to, every dependency a step, failure branches that stand alone
    and serve one step each, and no step that waits for itself. *)
Theorem validation_accepts_well_formed_plans steps loadedSkills :
  ∃ r, TryValidateMetaPlan steps loadedSkills = Some r ∧
    (r = Ok tt ↔ well_formed_plan steps loadedSkills).
Proof. apply validate_spec. Qed.

Lemma validated_well_formed steps loadedSkills :
  TryValidateMetaPlan steps loadedSkills = Some (Ok tt) → well_formed_plan steps loadedSkills.
Proof. destruct (validate_spec steps loadedSkills) as (r & -> & Hr). intros [= ->]. by apply Hr. Qed.

(** ** Blocking *)

(** [dependents] of the index. *)
Definition next (index : gmap string (list string)) (x : string) : list string := default [] (index !! x).

(** [y] is reached from [id] through steps that were not blocked. *)
Inductive reached (index : gmap string (list string)) (b0 : gset string) (id : string) : string → Prop :=
  | reached_start : reached index b0 id id
  | reached_next x y : reached index b0 id x → x ∉ b0 → y ∈ next index x → reached index b0 id y.

(** The pushes still to come: the dependents of the steps not blocked yet. *)
Definition pushes (index : gmap string (list string)) (b : gset string) : nat :=
  mentions (filter (λ kv, kv.1 ∉ b) index).

Lemma mentions_insert (m : gmap string (list string)) i l :
  m !! i = None → mentions (<[i := l]> m) = length l + mentions m.
Proof. intros H. unfold mentions. rewrite map_fold_insert_L; [done | intros; lia | done]. Qed.

Lemma pushes_block index b x : x ∉ b → pushes index b = length (next index x) + pushes index ({[x]} ∪ b).
Proof.
  intros Hx. unfold pushes, next. destruct (index !! x) as [l |] eqn:Hl; simpl.
  - rewrite <- (insert_id index x l) at 1 by done. rewrite <- insert_delete_eq, map_filter_insert_True by done.
    rewrite mentions_insert by (apply map_lookup_filter_None; left; apply lookup_delete_eq).
    f_equal. f_equal. apply map_eq. intros j. apply option_eq. intros v.
    rewrite !map_lookup_filter_Some, lookup_delete_Some. simpl. set_solver.
  - f_equal. apply map_eq. intros j. apply option_eq. intros v.
    rewrite !map_lookup_filter_Some. simpl. split; [| set_solver].
    intros [Hj Hb]. split; [done |]. intros [-> %elem_of_singleton | ?]%elem_of_union; congruence.
Qed.

Lemma pushes_mentions index b : pushes index b ≤ mentions index.
Proof.
  unfold pushes. induction index as [| i l index Hi IH] using map_ind.
  - by rewrite map_filter_empty.
  - rewrite mentions_insert by done. rewrite map_filter_insert. case_decide.
    + rewrite mentions_insert; [lia |]. apply map_lookup_filter_None. by left.
    + rewrite delete_id; [lia | done].
Qed.

Lemma elem_of_revs {A} (l : list A) x : x ∈ rev l ↔ x ∈ l.
Proof. rewrite rev_alt. fold (reverse l). apply elem_of_reverse. Qed.

Record blocked_from (index : gmap string (list string)) (stack : list string) (b0 b1 : gset string) : Prop := {
  from_old : b0 ⊆ b1;
  from_stack x : x ∈ stack → x ∈ b1;
  from_closed x y : x ∈ b1 → x ∉ b0 → y ∈ next index x → y ∈ b1 }.

(** [R] holds of what is pushed. *)
Lemma block_loop_spec (R : string → Prop) (b0 : gset string) index :
  (∀ x y, R x → x ∉ b0 → y ∈ next index x → R y) →
  ∀ fuel stack b p, b0 ⊆ b → (∀ x, x ∈ stack → R x) → length stack + pushes index b ≤ fuel →
  ∃ b', block_loop fuel stack b p index = Some (b', p ∖ (b' ∖ b)) ∧
    blocked_from index stack b b' ∧ ∀ x, x ∈ b' → x ∈ b ∨ R x.
Proof.
  intros HR. induction fuel as [| fuel IH]; intros stack b p Hb Hstack Hfuel; destruct stack as [| x stack];
    simpl in *; try lia.
  1,2: exists b; rewrite difference_diag_L, difference_empty_L; split_and!; [done | | by left];
    split; [done | by intros ? ?%not_elem_of_nil | done].
  case_bool_decide as Hx.
  { destruct (IH stack b p) as (b' & -> & [H1 H2 H3] & Hr); [done | intros; apply Hstack; by right | lia |].
    exists b'. split_and!; [done | | done]. split; [done | | done].
    intros y [-> | Hy]%elem_of_cons; [by apply H1 | by apply H2]. }
  rewrite (pushes_block index b x Hx) in Hfuel.
  destruct (IH (rev (next index x) ++ stack) ({[x]} ∪ b) (p ∖ {[x]})) as (b' & Hloop & [H1 H2 H3] & Hr).
  { set_solver. }
  { intros y. rewrite elem_of_app, elem_of_revs. intros [Hy | Hy]; [| apply Hstack; by right].
    eapply HR; [apply Hstack; by left | set_solver | done]. }
  { rewrite length_app, length_rev. unfold next in *. lia. }
  exists b'. split_and!.
  - unfold next in Hloop. rewrite Hloop. do 2 f_equal. set_solver.
  - split; [set_solver | |].
    + intros y [-> | Hy]%elem_of_cons; [set_solver | apply H2; set_solver].
    + intros y z Hy Hny Hz. destruct (decide (y = x)) as [-> | Hne]; [| apply (H3 y); set_solver].
      apply H2. rewrite elem_of_app, elem_of_revs. by left.
  - intros y Hy. destruct (Hr y Hy) as [[->%elem_of_singleton | ?]%elem_of_union | ?]; auto.
    right. apply Hstack. by left.
Qed.

(** Blocking a step terminates and blocks exactly the step and what the
    index lists below it, stopping at steps that were blocked already; what is
    newly blocked is no longer pending. *)
Theorem blocking_is_the_closure stepId b p index :
  ∃ b', BlockStepAndDependents stepId b p index = Some (b', p ∖ (b' ∖ b)) ∧
    ∀ x, x ∈ b' ↔ x ∈ b ∨ reached index b stepId x.
Proof.
  destruct (block_loop_spec (reached index b stepId) b index) with
    (fuel := S (mentions index)) (stack := [stepId]) (b := b) (p := p) as (b' & Hloop & [H1 H2 H3] & Hr).
  { intros x y Hx Hn Hy. by eapply reached_next. }
  { done. }
  { intros x ->%list_elem_of_singleton. constructor. }
  { simpl. pose proof (pushes_mentions index b). lia. }
  exists b'. split; [done |]. intros x. split; [apply Hr |].
  intros [Hx | Hx]; [by apply H1 |]. induction Hx as [| x y Hx IH Hn Hy]; [apply H2; by left |].
  by eapply H3.
Qed.

(** ** The index of dependents is empty *)

Lemma add_dependency_id stepId m d : add_dependency stepId m d = m.
Proof. unfold add_dependency. by destruct (m !! d). Qed.

Lemma BuildDependentsIndex_next steps x : next (BuildDependentsIndex steps) x = [].
Proof.
  unfold next, BuildDependentsIndex.
  assert (Hid : ∀ (m : gmap string (list string)),
    foldl (λ m step, foldl (add_dependency (Id step)) m (DependsOn step)) m steps = m).
  { induction steps as [| s steps IH]; [done |]. intros m. simpl. rewrite IH.
    induction (DependsOn s) as [| d l IHl]; simpl; [done | by rewrite add_dependency_id]. }
  rewrite Hid. clear Hid.
  enough (∀ m : gmap string (list string), default [] (m !! x) = [] →
    default [] (foldl (λ m step, <[Id step := []]> m) m steps !! x) = []) as H by (apply H; by rewrite lookup_empty).
  induction steps as [| s steps IH]; intros m Hm; [done |]. apply IH.
  destruct (decide (Id s = x)) as [<- | ?]; [by rewrite lookup_insert_eq | by rewrite lookup_insert_ne].
Qed.

Lemma block_with_built_index steps stepId b p :
  BlockStepAndDependents stepId b p (BuildDependentsIndex steps) =
    Some ({[stepId]} ∪ b, if bool_decide (stepId ∈ b) then p else p ∖ {[stepId]}).
Proof.
  unfold BlockStepAndDependents. simpl. case_bool_decide as Hb.
  { assert ({[stepId]} ∪ b = b) as -> by set_solver. by destruct (mentions _). }
  fold (next (BuildDependentsIndex steps) stepId). rewrite BuildDependentsIndex_next.
  by destruct (mentions _).
Qed.

(** ** Routing *)

Section Routing.
Context (EqualFoldU : string → string → bool) (Evaluate : string → go bool)
  (stepById : step_map) (steps : list MetaSkillStepDefinition).

(** [x] is the target of one of the routes and a step; [chosen] if it is the
    selected target up to case. *)
Definition target_of (routes : list MetaRouteDefinition) (x : string) : Prop :=
  x ∈ RouteTo <$> routes ∧ is_Some (stepById !! x).
Definition chosen (selected : option string) (x : string) : Prop :=
  match selected with Some t => EqualFoldU x t = true | None => False end.

Lemma chosen_dec selected x : {chosen selected x} + {¬ chosen selected x}.
Proof. unfold chosen. destruct selected as [t |]; apply decide; apply _. Qed.

Lemma route_one_spec selected b p route : ∃ b' p',
  route_one EqualFoldU selected stepById (BuildDependentsIndex steps) (b, p) route = Some (b', p') ∧
  ∀ x,
    (chosen selected x → (x ∈ b' ↔ x ∈ b ∧ ¬ target_of [route] x) ∧ (x ∈ p' ↔ target_of [route] x ∨ x ∈ p)) ∧
    (¬ chosen selected x → (x ∈ b' ↔ target_of [route] x ∨ x ∈ b) ∧
       (x ∈ p' ↔ x ∈ p ∧ (x ∈ b ∨ ¬ target_of [route] x))).
Proof.
  unfold route_one, target_of. simpl.
  assert (Hin : ∀ x, x ∈ [RouteTo route] ↔ x = RouteTo route) by (intros x; apply list_elem_of_singleton).
  setoid_rewrite Hin. destruct (stepById !! RouteTo route) as [s |] eqn:Hs; cycle 1.
  { exists b, p. split; [done |]. intros x.
    assert (¬ (x = RouteTo route ∧ is_Some (stepById !! x))) by (intros [-> [? ?]]; congruence). tauto. }
  assert (Hcase : (match selected with Some t => EqualFoldU (RouteTo route) t | None => false end) = true
    ↔ chosen selected (RouteTo route)) by (unfold chosen; destruct selected; done).
  destruct (match selected with Some t => _ | None => false end).
  - eexists _, _. split; [done |]. intros x. rewrite elem_of_difference, elem_of_union, elem_of_singleton.
    assert (chosen selected (RouteTo route)) by (by apply Hcase).
    destruct (decide (x = RouteTo route)) as [-> | ?]; [| tauto].
    assert (is_Some (stepById !! RouteTo route)) by eauto. tauto.
  - assert (¬ chosen selected (RouteTo route)) by (intros ?%Hcase; done).
    rewrite block_with_built_index. eexists _, _. split; [done |]. intros x.
    rewrite elem_of_union, elem_of_singleton.
    case_bool_decide; rewrite ?elem_of_difference, ?elem_of_singleton;
      (destruct (decide (x = RouteTo route)) as [-> | ?]; [| tauto]);
      assert (is_Some (stepById !! RouteTo route)) by eauto; tauto.
Qed.

Lemma target_of_cons route routes x : target_of (route :: routes) x ↔ target_of [route] x ∨ target_of routes x.
Proof. unfold target_of. rewrite !fmap_cons, !elem_of_cons, fmap_nil, elem_of_nil. tauto. Qed.

Lemma routes_spec selected routes : ∀ b p, ∃ b' p',
  foldl (λ r route, st ← r; route_one EqualFoldU selected stepById (BuildDependentsIndex steps) st route)
    (Some (b, p)) routes = Some (b', p') ∧
  ∀ x,
    (chosen selected x → (x ∈ b' ↔ x ∈ b ∧ ¬ target_of routes x) ∧ (x ∈ p' ↔ target_of routes x ∨ x ∈ p)) ∧
    (¬ chosen selected x → (x ∈ b' ↔ target_of routes x ∨ x ∈ b) ∧
       (x ∈ p' ↔ x ∈ p ∧ (x ∈ b ∨ ¬ target_of routes x))).
Proof.
  induction routes as [| route routes IH]; intros b p.
  { exists b, p. split; [done |]. intros x. assert (¬ target_of [] x) by (intros [?%not_elem_of_nil _]; done). tauto. }
  destruct (route_one_spec selected b p route) as (b1 & p1 & H1 & Hx1).
  destruct (IH b1 p1) as (b2 & p2 & H2 & Hx2). exists b2, p2. split.
  { cbn [foldl]. rewrite <- H2. f_equal. exact H1. }
  intros x. destruct (Hx1 x) as [Hb1 Hp1], (Hx2 x) as [Hb2 Hp2]. rewrite target_of_cons.
  split; intros Hc.
  - destruct (Hb1 Hc) as [Hb Hp], (Hb2 Hc) as [Hb' Hp']. rewrite Hb', Hp', Hb, Hp. clear. tauto.
  - destruct (Hp1 Hc) as [Hb Hp], (Hp2 Hc) as [Hb' Hp']. rewrite Hb', Hp', Hb, Hp. clear. tauto.
Qed.

(** Completing a step with routes releases the selected target, which is
    then pending and not blocked, and blocks every other target; a target that
    is not yet blocked leaves [pending], no other step is touched. *)
Theorem completion_routing_selects step b p selected :
  Routes step ≠ [] → SelectNextStep Evaluate step = Done selected → ∃ b' p',
  ApplyCompletionRouting EqualFoldU Evaluate step stepById b p (BuildDependentsIndex steps) = Done (Some (b', p')) ∧
  ∀ x,
    (chosen selected x → (x ∈ b' ↔ x ∈ b ∧ ¬ target_of (Routes step) x) ∧ (x ∈ p' ↔ target_of (Routes step) x ∨ x ∈ p)) ∧
    (¬ chosen selected x → (x ∈ b' ↔ target_of (Routes step) x ∨ x ∈ b) ∧
       (x ∈ p' ↔ x ∈ p ∧ (x ∈ b ∨ ¬ target_of (Routes step) x))).
Proof.
  intros Hne Hsel. destruct (routes_spec selected (Routes step) b p) as (b' & p' & Hr & Hspec).
  exists b', p'. split; [| done]. unfold ApplyCompletionRouting. rewrite Hsel.
  destruct (Routes step) eqn:Hroutes; [done |]. cbn [mbind go_bind]. f_equal. exact Hr.
Qed.
End Routing.

(** A step with two routes: to the second when the first is not taken. *)
Definition two_routes : MetaSkillStepDefinition :=
  MkStep "classify" "llm_classify" "" "" "" None [] "" "" "" TBlank "" TBlank [] [] None
    [MkRoute "urgent" "page"; MkRoute "" "mail"] [] "" (Some 30%Z) (Some (MkRetry 1 0)) None "" 0 None "".
Definition plain_step (id : string) (deps : list string) (onFailure : string) : MetaSkillStepDefinition :=
  MkStep id "agent" "" "" "" None [] "" "" "" TBlank "" TBlank [] [] None [] deps onFailure
    (Some 30%Z) (Some (MkRetry 1 0)) None "" 0 None "".

Lemma completion_routing_selects_witness :
  let steps := [two_routes; plain_step "page" [] ""; plain_step "mail" [] ""] in
  ∃ b' p',
  ApplyCompletionRouting (λ s t, bool_decide (s = t)) (λ _, Done false) two_routes (index_steps (λ id, id) steps)
    {["page"; "mail"]} ∅ (BuildDependentsIndex steps) = Done (Some (b', p')) ∧
  "mail" ∈ p' ∧ "mail" ∉ b' ∧ "page" ∈ b' ∧ "page" ∉ p'.
Proof.
  destruct (completion_routing_selects (λ s t, bool_decide (s = t)) (λ _, Done false)
    (index_steps (λ id, id) [two_routes; plain_step "page" [] ""; plain_step "mail" [] ""])
    [two_routes; plain_step "page" [] ""; plain_step "mail" [] ""] two_routes {["page"; "mail"]} ∅ (Some "mail"))
    as (b' & p' & H & Hx); [done | reflexivity |].
  exists b', p'. split; [exact H |].
  assert (Hm : target_of (index_steps (λ id, id) [two_routes; plain_step "page" [] ""; plain_step "mail" [] ""])
    (Routes two_routes) "mail") by (split; [by right; left | by eexists]).
  assert (Hp : target_of (index_steps (λ id, id) [two_routes; plain_step "page" [] ""; plain_step "mail" [] ""])
    (Routes two_routes) "page") by (split; [by left | by eexists]).
  destruct (Hx "mail") as [Hb1 Hp1], (Hx "page") as [Hb2 Hp2].
  destruct (Hb1 eq_refl) as [Hb Hp0], (Hp2 ltac:(done)) as [Hb' Hp'].
  rewrite Hb, Hp0, Hb', Hp'. split_and!; [by left | intros [_ Hn]; exact (Hn Hm) | by left | intros [Hn _]; by apply not_elem_of_empty in Hn].
Defined.

(** ** Failure branches *)

(** In a plan that passed validation, a failed step whose [on_failure] names
    a step (without blanks around it) hands over to it: the branch is pending,
    not blocked and waits for nothing, the failed step is no longer pending, and
    when the branch completes its output is also the failed step's, so that what
    depends on the failed step can go on. *)
Theorem failure_branch_takes_over steps loadedSkills step st output :
  TryValidateMetaPlan steps loadedSkills = Some (Ok tt) → step ∈ steps →
  OnFailure step ≠ "" → TrimSpace (OnFailure step) = OnFailure step → OnFailure step ∈ Id <$> steps →
  ∃ substitute, substitute ∈ steps ∧ Id substitute = OnFailure step ∧ DependsOn substitute = [] ∧
  ∃ st', TryActivateFailureBranch step (index_steps (λ id, id) steps) st = (true, st') ∧
    Id substitute ∈ pending st' ∧ Id substitute ∉ blocked st' ∧ Id step ∉ pending st' ∧
    let outs := outputs (CompleteMetaStepOutput substitute output st') in
    outs !! Id substitute = Some output ∧ outs !! Id step = Some output.
Proof.
  intros Hval Hin Hne Htrim Hf.
  assert (Hwf : well_formed_plan steps loadedSkills) by (by apply validated_well_formed).
  apply list_elem_of_fmap in Hf as (sub & Hsub & Hsubin). exists sub.
  destruct (wf_substitutes _ _ Hwf step sub) as [Hsf Hsd]; [done.. |].
  split_and!; [done.. |]. unfold TryActivateFailureBranch. rewrite Htrim, bool_decide_eq_false_2 by done.
  rewrite (proj2 (index_steps_lookup (λ id, id) steps (wf_ids _ _ Hwf) (OnFailure step) sub)) by done.
  assert (Id step ≠ Id sub).
  { intros Heq. assert (Hl := index_steps_lookup (λ id, id) steps (wf_ids _ _ Hwf) (Id sub)). simpl in Hl.
    assert (H1 := proj2 (Hl step) (conj Hin Heq)). assert (H2 := proj2 (Hl sub) (conj Hsubin eq_refl)).
    rewrite H1 in H2. injection H2 as ->. done. }
  eexists. split; [done |]. unfold CompleteMetaStepOutput. simpl. rewrite Hsub.
  split_and!; [set_solver | set_solver | set_solver | |]; simplify_map_eq; done.
Qed.

Lemma failure_branch_takes_over_witness :
  let steps := [plain_step "fetch" [] "cache"; plain_step "cache" [] ""; plain_step "report" ["fetch"] ""] in
  TryValidateMetaPlan steps [] = Some (Ok tt) ∧
  ∃ substitute, substitute ∈ steps ∧ Id substitute = "cache" ∧ DependsOn substitute = [] ∧
  ∃ st', TryActivateFailureBranch (plain_step "fetch" [] "cache") (index_steps (λ id, id) steps)
      (MkSets {["fetch"; "report"]} ∅ ∅ ∅) = (true, st') ∧
    Id substitute ∈ pending st' ∧ Id substitute ∉ blocked st' ∧ "fetch" ∉ pending st' ∧
    let outs := outputs (CompleteMetaStepOutput substitute "cached" st') in
    outs !! Id substitute = Some "cached" ∧ outs !! "fetch" = Some "cached".
Proof.
  split; [reflexivity |].
  apply (failure_branch_takes_over
    [plain_step "fetch" [] "cache"; plain_step "cache" [] ""; plain_step "report" ["fetch"] ""] []
    (plain_step "fetch" [] "cache")); [reflexivity | by left | done | reflexivity | by right; left].
Defined.
