(* ===== verification/MetaLoader.v ===== *)
(** Reading meta-skill plans: the composition part of
    [openclaw/core/skills_loader.go].

    [ParseComposition] decodes the JSON form of a plan step by step and checks
    the result with [ValidateComposition].  A step element is the decoded
    [map[string]json.RawMessage]; every [TryParse...] reads the properties it is
    about and gives a value or an error code.  [strings.ToLower] goes through a
    code point table, [ParseFloat] is [strconv]'s. *)

From S2P Require Import Prelude GoStrings Json MetaPlan.
From stdpp Require Import fin_maps.
From Stdlib Require Import SpecFloat.

(** A function that can panic or return an error code. *)
Definition gbind {A B} (m : go (res A)) (f : A → go (res B)) : go (res B) :=
  match m with
  | Done (Ok a) => f a
  | Done (Fail e) => Done (Fail e)
  | Panic => Panic
  | Deadlock => Deadlock
  end.
Notation "x ←? m ; k" := (gbind m (λ x, k))
  (at level 20, m at level 100, k at level 200, right associativity).

(** [Fail e] unless the test holds. *)
Definition require (b : bool) (e : string) : res () := if b then Ok tt else Fail e.
Definition or_fail {A} (o : option A) (e : string) : res A :=
  match o with Some a => Ok a | None => Fail e end.

(** The value of a property if there is one, decoded. *)
Definition optional {A} (m : gmap string json) (name : string) (dec : json → res A) (dflt : A) : res A :=
  match m !! name with None => Ok dflt | Some raw => dec raw end.

Definition not_blank_string (e : string) (raw : json) : res string :=
  match as_string raw with
  | Some s => if IsBlank s then Fail e else Ok s
  | None => Fail e
  end.

Section Loader.
Context (lower_rune : N → N) (EqualFoldU : string → string → bool)
  (ParseFloat : string → option spec_float).
Let Lower := ToLower lower_rune.

Definition as_float (j : json) : option spec_float :=
  match j with JNum lit => ParseFloat lit | JNull => Some (S754_zero false) | _ => None end.

(** [float64(i)] *)
Definition float_of_int (i : Z) : spec_float := binary_normalize 53 1024 i 0 false.

(** ** Properties of a step *)

Definition TryParseStringArrayProperty (stepElement : gmap string json) (propertyName : string)
    : res (list string) :=
  match stepElement !! propertyName with
  | None => Ok []
  | Some (JArr rawItems) =>
      for_fold (λ items itemElement,
        itemStr ← not_blank_string "invalid_meta_composition" itemElement;
        Ok (items ++ [itemStr])) [] rawItems
  | Some _ => Fail "invalid_meta_composition"
  end.

(** The same with the caller's error code. *)
Definition string_array (stepElement : gmap string json) (propertyName e : string) : res (list string) :=
  match TryParseStringArrayProperty stepElement propertyName with Ok l => Ok l | Fail _ => Fail e end.

Definition IsToolStepKind (stepKind : string) : bool := bool_decide ("tool_call" = stepKind).

Definition TryParseStepToolArgs (stepElement : gmap string json) (stepKind : string) : res json_text :=
  match stepElement !! "tool_args" with
  | None => Ok TBlank
  | Some raw =>
      let isObject := match raw with JObj _ => true | _ => false end in
      if negb (IsToolStepKind stepKind) || negb isObject then Fail "invalid_tool_args" else Ok (TDoc raw)
  end.

Definition TryParseToolAllowlist (stepElement : gmap string json) (stepKind : string) : res (list string) :=
  match stepElement !! "tool_allowlist" with
  | None => Ok []
  | Some _ =>
      if negb (IsToolStepKind stepKind) then Fail "invalid_tool_allowlist"
      else
        values ← string_array stepElement "tool_allowlist" "invalid_tool_allowlist";
        if bool_decide (values = []) then Fail "invalid_tool_allowlist" else Ok values
  end.

Definition IsOutputChoicesStepKind (stepKind : string) : bool :=
  bool_decide (stepKind ∈ ["agent"; "skill_exec"; "tool_call"; "llm_chat"; "llm_classify"]).

Definition TryParseOutputChoices (stepElement : gmap string json) (kind : string) : res (list string) :=
  match stepElement !! "output_choices" with
  | None => Ok []
  | Some _ =>
      if negb (IsOutputChoicesStepKind kind) then Fail "invalid_output_choices"
      else
        values ← string_array stepElement "output_choices" "invalid_output_choices";
        if bool_decide (values = []) then Fail "invalid_output_choices" else Ok values
  end.

Definition BuildClassifyOptionsWithJson (outputChoices : list string) : json_text :=
  TDoc (JObj [("options", JArr (JStr <$> outputChoices))]).

(** Assigning to the nil map that [null] decodes to panics. *)
Definition TryNormalizeClassifyOptions (stepKind : string) (withJson : json_text)
    (outputChoices : list string) : go (res json_text) :=
  if negb (EqualFold stepKind "llm_classify") then Done (Ok withJson)
  else
    match withJson with
    | TBlank =>
        if bool_decide (outputChoices = []) then Done (Ok withJson)
        else Done (Ok (BuildClassifyOptionsWithJson outputChoices))
    | TMalformed => Done (Fail "invalid_meta_composition")
    | TDoc j =>
        match as_map j with
        | None => Done (Fail "invalid_meta_composition")
        | Some doc =>
            match doc !! "options" with
            | Some _ => Done (Ok withJson)
            | None =>
                if bool_decide (outputChoices = []) then Done (Ok withJson)
                else
                  match j with
                  | JNull => Panic
                  | _ => Done (Ok (TDoc (JObj (map_to_list (<["options" := JArr (JStr <$> outputChoices)]> doc)))))
                  end
            end
        end
    end.

Record skill_exec_options := MkSkillExec {
  entrypoint : string; exec_args : list string; exec_stdin : string; exec_cwd : string; parseMode : string }.

Definition TryParseSkillExecOptions (stepElement : gmap string json) (kind : string) : res skill_exec_options :=
  let isSkillExec := EqualFold kind "skill_exec" in
  let bad := "invalid_skill_exec" in
  let text raw := (_ ← require isSkillExec bad; not_blank_string bad raw) in
  entrypoint ← optional stepElement "entrypoint" (λ raw, val ← text raw; Ok (TrimSpace val)) "";
  args ← optional stepElement "args" (λ _,
    _ ← require isSkillExec bad; string_array stepElement "args" bad) [];
  stdin ← optional stepElement "stdin" text "";
  cwd ← optional stepElement "cwd" (λ raw,
    val ← text raw;
    let cwd := TrimSpace val in
    if HasPrefix cwd "/" || Contains cwd ".." then Fail bad else Ok cwd) "";
  parseMode ← optional stepElement "parse_mode" (λ raw,
    val ← text raw;
    let parseMode := Lower (TrimSpace val) in
    if bool_decide (parseMode = "text") || bool_decide (parseMode = "json") then Ok parseMode else Fail bad) "";
  Ok (MkSkillExec entrypoint args stdin cwd parseMode).

Definition isSupportedOutputContractProperty (propertyName : string) : bool :=
  bool_decide (propertyName = "format") || bool_decide (propertyName = "required_properties").

(** The loop over [required_properties]; [seen] holds the names in lower case. *)
Definition add_required (acc : list string * gset string) (itemRaw : json) : res (list string * gset string) :=
  let '(requiredProperties, seen) := acc in
  itemStr ← or_fail (as_string itemRaw) "invalid_output_contract";
  let trimmedItem := TrimSpace itemStr in
  if bool_decide (trimmedItem = "") || bool_decide (Lower trimmedItem ∈ seen)
  then Fail "invalid_output_contract"
  else Ok (requiredProperties ++ [trimmedItem], {[Lower trimmedItem]} ∪ seen).

Definition TryParseOutputContract (stepElement : gmap string json) : res MetaStepOutputContract :=
  let bad := "invalid_output_contract" in
  let contractRaw :=
    match stepElement !! "output_contract" with
    | Some raw => Some raw
    | None => stepElement !! "output_schema"
    end in
  match contractRaw with
  | None => Ok (MkContract "" [])
  | Some raw =>
      if is_null raw then Ok (MkContract "" []) else
      contractMap ← or_fail (as_map raw) bad;
      _ ← require (forallb isSupportedOutputContractProperty (map_to_list contractMap).*1) bad;
      format ← optional contractMap "format" (λ formatRaw,
        formatStr ← not_blank_string bad formatRaw; Ok (Lower (TrimSpace formatStr))) "text";
      _ ← require (bool_decide (format = "text") || bool_decide (format = "json")) bad;
      requiredProperties ← optional contractMap "required_properties" (λ requiredRaw,
        rawList ← or_fail (as_list requiredRaw) bad;
        acc ← for_fold add_required ([], ∅) rawList; Ok acc.1) [];
      if negb (bool_decide (requiredProperties = [])) && negb (bool_decide (format = "json"))
      then Fail bad else Ok (MkContract format requiredProperties)
  end.

(** [retryPolicyInput]: pointers, [None] for a property that is absent or null. *)
Record retryPolicyInput := MkRetryInput { in_MaxAttempts : option Z; in_BackoffMs : option Z }.

(** The decoder matches property names without case and refuses unknown ones. *)
Definition decode_retry (input : retryPolicyInput) (kv : string * json) : res retryPolicyInput :=
  let '(k, v) := kv in
  let value := match v with JNull => Ok None | _ => z ← or_fail (as_int v) "invalid_step_retry"; Ok (Some z) end in
  if EqualFold k "max_attempts" then z ← value; Ok (MkRetryInput z (in_BackoffMs input))
  else if EqualFold k "backoff_ms" then z ← value; Ok (MkRetryInput (in_MaxAttempts input) z)
  else Fail "invalid_step_retry".

Definition TryParseRetryPolicy (stepElement : gmap string json) : res MetaStepRetryPolicy :=
  match stepElement !! "retry" with
  | None | Some JNull => Ok (MkRetry 1 0)
  | Some (JObj kvs) =>
      input ← for_fold decode_retry (MkRetryInput None None) kvs;
      maxAttempts ←
        match in_MaxAttempts input with
        | Some val => if (val <? 1)%Z || (10 <? val)%Z then Fail "invalid_step_retry" else Ok val
        | None => Ok 1%Z
        end;
      backoffMs ←
        match in_BackoffMs input with
        | Some val => if (val <? 0)%Z || (600000 <? val)%Z then Fail "invalid_step_retry" else Ok val
        | None => Ok 0%Z
        end;
      Ok (MkRetry maxAttempts backoffMs)
  | Some _ => Fail "invalid_step_retry"
  end.

Definition TryParseTimeoutSeconds (stepElement : gmap string json) : res Z :=
  match stepElement !! "timeout_seconds" with
  | None => Fail "invalid_timeout_seconds"
  | Some timeoutSecondsVal =>
      timeoutSeconds ← or_fail (as_int timeoutSecondsVal) "invalid_timeout_seconds";
      if (timeoutSeconds <=? 0)%Z then Fail "invalid_timeout_seconds" else Ok timeoutSeconds
  end.

Definition TryParseOnFailure (stepElement : gmap string json) : res string :=
  match stepElement !! "on_failure" with
  | None => Fail "invalid_on_failure"
  | Some onFailureVal =>
      onFailure ← or_fail (as_string onFailureVal) "invalid_on_failure";
      if bool_decide (onFailure = "") then Fail "invalid_on_failure" else Ok onFailure
  end.

(** ** Routes *)

Definition IsSupportedRouteProperty (name : string) : bool :=
  bool_decide (name = "when") || bool_decide (name = "to").

Definition parse_route (routeElementRaw : json) : res MetaRouteDefinition :=
  routeMap ← or_fail (as_map routeElementRaw) "invalid_route";
  _ ← require (forallb IsSupportedRouteProperty (map_to_list routeMap).*1) "invalid_route";
  whenStr ← optional routeMap "when" (not_blank_string "invalid_when_expression") "";
  toRaw ← or_fail (routeMap !! "to") "invalid_route";
  toStr ← not_blank_string "invalid_route" toRaw;
  Ok (MkRoute whenStr toStr).

(** The routes, and whether there is a route array. *)
Definition TryParseRouteArray (stepMap : gmap string json) : res (list MetaRouteDefinition * bool) :=
  match stepMap !! "route" with
  | None => Ok ([], false)
  | Some routeRaw =>
      routeArray ← or_fail (as_list routeRaw) "invalid_route";
      if bool_decide (routeArray = []) then Fail "invalid_route"
      else
        parsedRoutes ← for_fold (λ acc raw, r ← parse_route raw; Ok (acc ++ [r])) [] routeArray;
        Ok (parsedRoutes, true)
  end.

Definition HasLegacyRouteObject (withJson : json_text) : bool :=
  match text_map withJson with
  | None => false
  | Some doc =>
      match doc !! "route" with
      | None => false
      | Some routeRaw => match as_map routeRaw with Some _ => true | None => false end
      end
  end.

(** ** Clarification schemas *)

Definition IsSupportedClarifyProperty (propertyName : string) : bool :=
  bool_decide (propertyName ∈
    ["mode"; "extract_natural_language"; "cancel_words"; "skip_if"; "timeout_seconds"; "fields"]).

Definition IsSupportedClarifyFieldProperty (propertyName : string) : bool :=
  bool_decide (propertyName ∈
    ["name"; "type"; "required"; "default"; "options"; "min_length"; "max_length"; "min"; "max"]).

Definition TryGetClarifyElement (stepElement : gmap string json) (withJson : json_text) : res (option json) :=
  withClarifyElement ←
    (if text_is_blank withJson then Ok None
     else
       doc ← or_fail (text_map withJson) "invalid_clarify_schema";
       Ok (doc !! "clarify"));
  Ok (match stepElement !! "clarify" with Some e => Some e | None => withClarifyElement end).

Definition option_lt {A} (ltb : A → A → bool) (x y : option A) : bool :=
  match x, y with Some x, Some y => ltb x y | _, _ => false end.

Definition ValidateClarifyFieldConstraints (fieldType : string) (options : list string)
    (minLength maxLength : option Z) (min max : option spec_float) : res () :=
  let isString := EqualFold fieldType "string" in
  let isInteger := EqualFold fieldType "integer" in
  let isNumber := EqualFold fieldType "number" in
  let isEnum := EqualFold fieldType "enum" in
  if (negb isString && (bool_decide (is_Some minLength) || bool_decide (is_Some maxLength))) ||
     (negb (isInteger || isNumber) && (bool_decide (is_Some min) || bool_decide (is_Some max))) ||
     (negb isEnum && negb (bool_decide (options = [])))
  then Fail "invalid_clarify_schema"
  else if option_lt Z.ltb maxLength minLength then Fail "invalid_clarify_schema"
  else if option_lt SFltb max min then Fail "invalid_clarify_schema"
  else Ok tt.

(** [v < *lo], [v > *hi] for optional bounds. *)
Definition in_bounds {A} (ltb : A → A → bool) (lo hi : option A) (v : A) : bool :=
  negb (option_lt ltb (Some v) lo) && negb (option_lt ltb hi (Some v)).

Definition IsValidClarifyDefaultValue (fieldType : string) (options : list string)
    (minLength maxLength : option Z) (min max : option spec_float) (defaultElement : json) : bool :=
  if EqualFold fieldType "string" then
    match as_string defaultElement with
    | None => false
    | Some value => in_bounds Z.ltb minLength maxLength (Z.of_nat (String.length value))
    end
  else if EqualFold fieldType "integer" then
    match as_int defaultElement with
    | None => false
    | Some intValue => in_bounds SFltb min max (float_of_int intValue)
    end
  else if EqualFold fieldType "number" then
    match as_float defaultElement with
    | None => false
    | Some doubleValue => in_bounds SFltb min max doubleValue
    end
  else if EqualFold fieldType "boolean" then bool_decide (is_Some (as_bool defaultElement))
  else if EqualFold fieldType "enum" then
    match as_string defaultElement with
    | None => false
    | Some defaultText => negb (IsBlank defaultText) && bool_decide (defaultText ∈ options)
    end
  else false.

Definition not_negative (e : string) (raw : json) : res (option Z) :=
  z ← or_fail (as_int raw) e; if (z <? 0)%Z then Fail e else Ok (Some z).

(** One round of the loop over [fields]; [fieldNames] are in lower case. *)
Definition add_field (acc : list MetaClarifyField * gset string) (fieldRaw : json)
    : res (list MetaClarifyField * gset string) :=
  let '(fields, fieldNames) := acc in
  let bad := "invalid_clarify_schema" in
  fieldObj ← or_fail (as_map fieldRaw) bad;
  _ ← require (forallb IsSupportedClarifyFieldProperty (map_to_list fieldObj).*1) bad;
  nameRaw ← or_fail (fieldObj !! "name") bad;
  typeRaw ← or_fail (fieldObj !! "type") bad;
  fieldName ← not_blank_string bad nameRaw;
  fieldType ← not_blank_string bad typeRaw;
  _ ← require (bool_decide (Lower fieldName ∉ fieldNames)) bad;
  options ← string_array fieldObj "options" bad;
  minLength ← optional fieldObj "min_length" (not_negative bad) None;
  maxLength ← optional fieldObj "max_length" (not_negative bad) None;
  min ← optional fieldObj "min" (λ raw, f ← or_fail (as_float raw) bad; Ok (Some f)) None;
  max ← optional fieldObj "max" (λ raw, f ← or_fail (as_float raw) bad; Ok (Some f)) None;
  required ← optional fieldObj "required" (λ raw, or_fail (as_bool raw) bad) false;
  _ ← require (existsb (EqualFold fieldType) ["string"; "integer"; "number"; "boolean"; "enum"]) bad;
  _ ← require (negb (EqualFold fieldType "enum" && bool_decide (options = []))) bad;
  _ ← ValidateClarifyFieldConstraints fieldType options minLength maxLength min max;
  defaultValue ← optional fieldObj "default" (λ defaultRaw,
    if IsValidClarifyDefaultValue fieldType options minLength maxLength min max defaultRaw
    then Ok (Some defaultRaw) else Fail bad) None;
  Ok (fields ++ [MkField fieldName fieldType required defaultValue options minLength maxLength min max],
      {[Lower fieldName]} ∪ fieldNames).

Definition TryParseClarify (stepElement : gmap string json) (withJson : json_text) (stepKind : string)
    : res (option MetaClarifySchema) :=
  let bad := "invalid_clarify_schema" in
  clarifyElement ← TryGetClarifyElement stepElement withJson;
  match clarifyElement with
  | None => Ok None
  | Some clarifyElement =>
      _ ← require (EqualFold stepKind "user_input") bad;
      clarifyObj ← or_fail (as_map clarifyElement) bad;
      _ ← require (forallb IsSupportedClarifyProperty (map_to_list clarifyObj).*1) bad;
      mode ← optional clarifyObj "mode" (λ modeRaw,
        modeStr ← not_blank_string bad modeRaw;
        if EqualFold modeStr "chat" || EqualFold modeStr "form" then Ok modeStr else Fail bad) "chat";
      extractNaturalLanguage ← optional clarifyObj "extract_natural_language"
        (λ raw, or_fail (as_bool raw) bad) false;
      cancelWords ← string_array clarifyObj "cancel_words" bad;
      timeoutSeconds ← optional clarifyObj "timeout_seconds" (λ raw,
        t ← or_fail (as_int raw) bad; if (t <=? 0)%Z then Fail bad else Ok (Some t)) None;
      skipIf ← optional clarifyObj "skip_if" (not_blank_string bad) "";
      fields ← optional clarifyObj "fields" (λ fieldsRaw,
        fieldsSlice ← or_fail (as_list fieldsRaw) bad;
        acc ← for_fold add_field ([], ∅) fieldsSlice; Ok acc.1) [];
      if EqualFold mode "form" && bool_decide (fields = []) then Fail bad
      else Ok (Some (MkClarify mode extractNaturalLanguage fields cancelWords skipIf timeoutSeconds))
  end.

(** ** Checks on the whole plan *)

Definition supportedKinds : list string :=
  ["agent"; "skill_exec"; "tool_call"; "llm_chat"; "llm_classify"; "user_input"].

Definition check_kind_fields (step : MetaSkillStepDefinition) : res () :=
  let bad := "invalid_step_kind_fields" in
  let is_kind := EqualFold (Kind step) in
  _ ← require (negb (is_kind "tool_call" && (IsBlank (Tool step) || negb (IsBlank (Skill step))))) bad;
  _ ← require (negb (is_kind "skill_exec" &&
        (IsBlank (Skill step) || IsBlank (SkillExecEntrypoint step) || negb (IsBlank (Tool step))))) bad;
  _ ← require (negb (is_kind "agent" && negb (IsBlank (Tool step)))) bad;
  require (negb ((is_kind "llm_chat" || is_kind "llm_classify" || is_kind "user_input") &&
    (negb (IsBlank (Skill step)) || negb (IsBlank (Tool step))))) bad.

(** [ids] holds the ids in lower case. *)
Definition collect_id (ids : gset string) (step : MetaSkillStepDefinition) : res (gset string) :=
  _ ← require (bool_decide (Lower (Id step) ∉ ids)) "duplicate_step_id";
  _ ← require (bool_decide (Lower (Kind step) ∈ supportedKinds)) "unsupported_step_kind";
  _ ← check_kind_fields step;
  Ok ({[Lower (Id step)]} ∪ ids).

(** A route target of a classify step is looked up as it is written, in a map
    whose keys are in lower case. *)
Definition known_target (knownStepIds : gset string) (target : json) : bool :=
  match target with
  | JStr v => negb (IsBlank v) && bool_decide (v ∈ knownStepIds)
  | _ => false
  end.

Definition ValidateClassifyStep (withJSON : json_text) (knownStepIds : gset string) : bool :=
  match text_map withJSON with
  | None => false
  | Some root =>
      match root !! "options" with
      | Some (JArr (o :: os)) =>
          match mapM (λ optRaw, match optRaw with JStr s => if IsBlank s then None else Some s | _ => None end)
                  (o :: os) with
          | None => false
          | Some optionsSet =>
              match root !! "route" with
              | None => true
              | Some (JObj kvs) =>
                  forallb (λ '(routeKey, routeValue),
                    negb (IsBlank routeKey) &&
                    bool_decide (Lower routeKey ∈ map Lower optionsSet) &&
                    match routeValue with
                    | JStr _ => known_target knownStepIds routeValue
                    | JArr v => forallb (known_target knownStepIds) v
                    | _ => false
                    end) (map_to_list (obj_map kvs))
              | Some _ => false
              end
          end
      | _ => false
      end
  end.

Definition check_references (ids : gset string) (step : MetaSkillStepDefinition) : res () :=
  _ ← require (negb (EqualFold (Kind step) "llm_classify") || ValidateClassifyStep (WithJSON step) ids)
        "invalid_classify_step";
  for_each (λ dependency,
    _ ← require (bool_decide (Lower dependency ∈ ids)) "invalid_dependency";
    require (negb (EqualFoldU (Id step) dependency)) "self_dependency") (DependsOn step).

(** The routes of a step after [fallbackCount] unconditional ones. *)
Fixpoint check_routes (ids : gset string) (stepIdLower : string) (fallbackCount : nat)
    (routes : list MetaRouteDefinition) : res () :=
  match routes with
  | [] => Ok tt
  | route :: routes =>
      let routeToLower := Lower (RouteTo route) in
      if bool_decide (routeToLower ∉ ids) then Fail "invalid_route_target"
      else if bool_decide (routeToLower = stepIdLower) then Fail "invalid_route_scope"
      else if IsBlank (RouteWhen route) then
        if Nat.ltb 1 (S fallbackCount) then Fail "invalid_route_fallback"
        else if negb (bool_decide (routes = [])) then Fail "invalid_route_fallback"
        else check_routes ids stepIdLower (S fallbackCount) routes
      else check_routes ids stepIdLower fallbackCount routes
  end.

Definition ValidateRouteArrays (steps : list MetaSkillStepDefinition) : res () :=
  let ids : gset string := list_to_set ((λ step, Lower (Id step)) <$> steps) in
  for_each (λ step, check_routes ids (Lower (Id step)) 0 (Routes step)) steps.

(** [fallbackTargets] in lower case *)
Definition containsFallbackTargetInLegacyClassifyRoutes (withJson : json_text) (fallbackTargets : gset string) : bool :=
  let hit v := match v with
    | JStr t => negb (bool_decide (TrimSpace t = "")) && bool_decide (Lower (TrimSpace t) ∈ fallbackTargets)
    | _ => false
    end in
  match text_map withJson with
  | None => false
  | Some doc =>
      match doc !! "route" with
      | Some (JObj kvs) =>
          existsb (λ e, match e.2 with JArr v => existsb hit v | v => hit v end) (map_to_list (obj_map kvs))
      | _ => false
      end
  end.

Definition designate (stepById : step_map) (knownStepIds designated : gset string) (step : MetaSkillStepDefinition)
    : res (gset string) :=
  let onFailureTrimmed := TrimSpace (OnFailure step) in
  if bool_decide (onFailureTrimmed = "") then Ok designated
  else
    let onFailureLower := Lower onFailureTrimmed in
    if bool_decide (Lower (Id step) = onFailureLower) || bool_decide (onFailureLower ∉ knownStepIds)
    then Fail "invalid_on_failure"
    else
      match stepById !! onFailureLower with
      | None => Fail "invalid_on_failure"
      | Some substitute =>
          if negb (bool_decide (TrimSpace (OnFailure substitute) = "")) ||
             negb (bool_decide (DependsOn substitute = []))
          then Fail "invalid_on_failure"
          else if bool_decide (onFailureLower ∈ designated) then Fail "invalid_on_failure"
          else Ok ({[onFailureLower]} ∪ designated)
      end.

Definition ValidateFailureBranches (steps : list MetaSkillStepDefinition) (ids : gset string) : res () :=
  let stepById := index_steps Lower steps in
  let knownStepIds : gset string := set_map Lower ids in
  fallbackTargets ← for_fold (designate stepById knownStepIds) ∅ steps;
  for_each (λ step,
    _ ← for_each (λ dependency,
          require (bool_decide (Lower dependency ∉ fallbackTargets)) "invalid_on_failure") (DependsOn step);
    _ ← for_each (λ route,
          require (bool_decide (Lower (RouteTo route) ∉ fallbackTargets)) "invalid_on_failure") (Routes step);
    require (negb (containsFallbackTargetInLegacyClassifyRoutes (WithJSON step) fallbackTargets))
      "invalid_on_failure") steps.

(** [None] is a cycle search out of fuel. *)
Definition ValidateComposition (steps : list MetaSkillStepDefinition) : option (res ()) :=
  if bool_decide (steps = []) then Some (Fail "invalid_meta_composition")
  else
    match for_fold collect_id ∅ steps with
    | Fail e => Some (Fail e)
    | Ok ids =>
        match for_each (check_references ids) steps with
        | Fail e => Some (Fail e)
        | Ok _ =>
            match has_cycle Lower steps with
            | None => None
            | Some true => Some (Fail "dependency_cycle")
            | Some false =>
                Some (_ ← ValidateRouteArrays steps; ValidateFailureBranches steps ids)
            end
        end
    end.

Definition ValidateFinalTextMode (finalTextMode : string) (steps : list MetaSkillStepDefinition) : bool :=
  let mode := TrimSpace finalTextMode in
  if IsBlank finalTextMode then true
  else if bool_decide (mode ∈ ["auto"; "raw"; "structured"]) then true
  else if negb (HasPrefix mode "step:") then false
  else
    let stepId := TrimSpace (slice_from mode 5) in
    if IsBlank stepId then false else bool_decide (stepId ∈ Id <$> steps).

(** ** The plan *)

(** A string property that is ignored unless it is a string. *)
Definition lenient_string (stepElement : gmap string json) (name : string) : string :=
  default "" (stepElement !! name ≫= as_string).

(** One round of the loop over [steps]. *)
Definition parse_step (stepElement : gmap string json) : go (res MetaSkillStepDefinition) :=
  let bad := "invalid_meta_composition" in
  id ←? Done (idRaw ← or_fail (stepElement !! "id") bad; not_blank_string bad idRaw);
  let kind := match stepElement !! "kind" with
    | Some kindRaw => default "" (as_string kindRaw)
    | None => lenient_string stepElement "type"
    end in
  _ ←? Done (require (negb (IsBlank kind)) bad);
  dependsOn ←? Done (optional stepElement "depends_on" (λ raw,
    depArray ← or_fail (as_strings raw) bad;
    if existsb IsBlank depArray then Fail bad else Ok depArray) []);
  let skill := lenient_string stepElement "skill" in
  let tool := lenient_string stepElement "tool" in
  withJson ←? Done (optional stepElement "with" (λ withElement,
    _ ← or_fail (as_map withElement) "invalid_with_payload"; Ok (TDoc withElement)) TBlank);
  when ←? Done (optional stepElement "when" (not_blank_string "invalid_when_expression") "");
  stepToolArgsJson ←? Done (TryParseStepToolArgs stepElement kind);
  toolAllowlist ←? Done (TryParseToolAllowlist stepElement kind);
  outputChoices ←? Done (TryParseOutputChoices stepElement kind);
  withJson ←? TryNormalizeClassifyOptions kind withJson outputChoices;
  clarify ←? Done (TryParseClarify stepElement withJson kind);
  routes ←? Done (TryParseRouteArray stepElement);
  _ ←? Done (require (negb (routes.2 && HasLegacyRouteObject withJson)) "invalid_route");
  onFailure ←? Done (TryParseOnFailure stepElement);
  timeoutSeconds ←? Done (TryParseTimeoutSeconds stepElement);
  retry ←? Done (TryParseRetryPolicy stepElement);
  outputContract ←? Done (TryParseOutputContract stepElement);
  exec ←? Done (TryParseSkillExecOptions stepElement kind);
  Done (Ok (MkStep id kind skill tool (entrypoint exec) None (exec_args exec) (exec_stdin exec)
    (exec_cwd exec) (parseMode exec) withJson when stepToolArgsJson toolAllowlist outputChoices clarify
    routes.1 dependsOn onFailure (Some timeoutSeconds) (Some retry) (Some outputContract) "" 0 None "")).

Fixpoint parse_steps (stepsArray : list (gmap string json)) : go (res (list MetaSkillStepDefinition)) :=
  match stepsArray with
  | [] => Done (Ok [])
  | stepElement :: stepsArray =>
      step ←? parse_step stepElement;
      steps ←? parse_steps stepsArray;
      Done (Ok (step :: steps))
  end.

(** [None] is a cycle search out of fuel. *)
Definition ParseComposition (jsonStr : json_text) : option (go (res MetaSkillComposition)) :=
  let bad := "invalid_meta_composition" in
  let head :=
    (doc ← or_fail (text_map jsonStr) bad;
     stepsRaw ← or_fail (doc !! "steps") bad;
     stepsArray ← or_fail (as_list stepsRaw ≫= mapM as_map) bad;
     toolArgsJson ← optional doc "tool_args" (λ raw,
       _ ← or_fail (as_map raw) "invalid_tool_args"; Ok (TDoc raw)) TBlank;
     Ok (stepsArray, toolArgsJson)) in
  match head with
  | Fail e => Some (Done (Fail e))
  | Ok (stepsArray, toolArgsJson) =>
      match parse_steps stepsArray with
      | Done (Ok steps) =>
          match ValidateComposition steps with
          | None => None
          | Some (Fail e) => Some (Done (Fail e))
          | Some (Ok _) => Some (Done (Ok (MkComposition toolArgsJson steps)))
          end
      | Done (Fail e) => Some (Done (Fail e))
      | Panic => Some Panic
      | Deadlock => Some Deadlock
      end
  end.
End Loader.

(** ** Inversion of the two monads *)

Lemma gbind_inv {A B} (m : go (res A)) (f : A → go (res B)) b :
  gbind m f = Done (Ok b) → ∃ a, m = Done (Ok a) ∧ f a = Done (Ok b).
Proof. destruct m as [[a | e] | |]; [eauto | done..]. Qed.

Lemma res_bind_inv {A B} (m : res A) (f : A → res B) b :
  m ≫= f = Ok b → ∃ a, m = Ok a ∧ f a = Ok b.
Proof. destruct m as [a | e]; [eauto | done]. Qed.

Lemma or_fail_inv {A} (o : option A) e a : or_fail o e = Ok a → o = Some a.
Proof. destruct o; [by intros [= ->] | done]. Qed.

Lemma require_inv b e u : require b e = Ok u → b = true.
Proof. by destruct b. Qed.

Lemma not_blank_string_inv e raw s : not_blank_string e raw = Ok s → IsBlank s = false.
Proof. unfold not_blank_string. destruct (as_string raw) as [t |]; [| done]. destruct (IsBlank t) eqn:?; [done | by intros [= <-]]. Qed.

(** Take one binding of [H : m ≫= f = Ok b] or of the panicking version. *)
Ltac bind_step H :=
  first [apply gbind_inv in H as (? & ?H & H) | apply res_bind_inv in H as (? & ?H & H)].
Ltac bind_inv H := repeat bind_step H.

Lemma for_fold_invariant {A S} (P : S → Prop) (f : S → A → res S) l : ∀ s s',
  (∀ s x s', x ∈ l → P s → f s x = Ok s' → P s') → P s → for_fold f s l = Ok s' → P s'.
Proof.
  induction l as [| x l IH]; intros s s' Hf Hs H; simpl in H; [by simplify_eq |].
  destruct (f s x) as [s1 | e] eqn:Hx; [| done].
  eapply (IH s1); [intros; eapply Hf; [by right | done..] | | exact H].
  eapply Hf; [by left | done..].
Qed.

Section LoaderSpec.
Context (lower_rune : N → N) (EqualFoldU : string → string → bool)
  (ParseFloat : string → option spec_float).
Abbreviation Lower := (ToLower lower_rune).

Lemma TryParseRetryPolicy_bounds stepElement r :
  TryParseRetryPolicy stepElement = Ok r → (1 ≤ MaxAttempts r ≤ 10 ∧ 0 ≤ BackoffMs r ≤ 600000)%Z.
Proof.
  unfold TryParseRetryPolicy. destruct (stepElement !! "retry") as [[] |]; try done;
    try by intros [= <-]; simpl; lia.
  intros H. bind_inv H. simplify_eq. simpl.
  destruct (in_MaxAttempts _), (in_BackoffMs _); repeat case_bool; simplify_eq/=; lia.
Qed.

Lemma TryParseTimeoutSeconds_positive stepElement t :
  TryParseTimeoutSeconds stepElement = Ok t → (0 < t)%Z.
Proof.
  unfold TryParseTimeoutSeconds. destruct (stepElement !! "timeout_seconds"); [| done].
  intros H. bind_inv H. case_bool; simplify_eq. lia.
Qed.

Lemma TryParseOnFailure_not_empty stepElement s : TryParseOnFailure stepElement = Ok s → s ≠ "".
Proof.
  unfold TryParseOnFailure. destruct (stepElement !! "on_failure"); [| done].
  intros H. bind_inv H. case_bool_decide; by simplify_eq.
Qed.

Lemma TryParseOutputContract_format stepElement c :
  TryParseOutputContract lower_rune stepElement = Ok c →
  Format c ∈ [""; "text"; "json"] ∧ (RequiredProperties c ≠ [] → Format c = "json").
Proof.
  unfold TryParseOutputContract.
  destruct (match stepElement !! "output_contract" with Some _ => _ | None => _ end) as [raw |];
    [| intros [= <-]; split; [by left | done]].
  destruct (is_null raw); [intros [= <-]; split; [by left | done] |]. intros H. bind_inv H.
  match goal with Hr : require (_ || _) _ = Ok _ |- _ => apply require_inv, orb_prop in Hr as Hf end.
  destruct (_ && _) eqn:Hn; [done | simplify_eq; simpl].
  assert (Hformat : ∀ s t : string, bool_decide (s = t) = true → s = t) by (intros s t; apply bool_decide_eq_true).
  split.
  - destruct Hf as [->%Hformat | ->%Hformat]; [by right; left | by right; right; left].
  - intros Hne. apply andb_false_iff in Hn as [Hn | Hn]; apply negb_false_iff in Hn;
      by apply bool_decide_eq_true in Hn.
Qed.

(** ** Loaded steps *)

(** What the runtime relies on in a step, the pointers it dereferences among it. *)
Record loaded_step (step : MetaSkillStepDefinition) : Prop := {
  ls_id : IsBlank (Id step) = false;
  ls_kind : IsBlank (Kind step) = false;
  ls_timeout : ∃ t, TimeoutSeconds step = Some t ∧ (0 < t)%Z;
  ls_retry : ∃ r, Retry step = Some r ∧ (1 ≤ MaxAttempts r ≤ 10 ∧ 0 ≤ BackoffMs r ≤ 600000)%Z;
  ls_contract : ∃ c, OutputContract step = Some c ∧ Format c ∈ [""; "text"; "json"] ∧
    (RequiredProperties c ≠ [] → Format c = "json");
  ls_clarify : Clarify step ≠ None → EqualFold (Kind step) "user_input" = true;
  ls_depends : Forall (λ d, IsBlank d = false) (DependsOn step);
  ls_on_failure : OnFailure step ≠ "";
  ls_capability : CapabilityRef step = None }.

Lemma TryParseClarify_kind stepElement withJson kind c :
  TryParseClarify lower_rune ParseFloat stepElement withJson kind = Ok (Some c) →
  EqualFold kind "user_input" = true.
Proof.
  unfold TryParseClarify. intros H. bind_step H. case_match; [| done]. bind_step H.
  by eapply require_inv.
Qed.

Lemma parse_step_loaded stepElement step :
  parse_step lower_rune ParseFloat stepElement = Done (Ok step) → loaded_step step.
Proof.
  unfold parse_step. cbv zeta. intros H. bind_inv H. simplify_eq.
  split; cbn [Id Kind TimeoutSeconds Retry OutputContract Clarify DependsOn OnFailure CapabilityRef].
  - match goal with Hid : or_fail _ _ ≫= _ = Ok ?x |- IsBlank ?x = _ =>
      apply res_bind_inv in Hid as (? & _ & Hid); by apply not_blank_string_inv in Hid end.
  - match goal with Hk : require _ _ = Ok _ |- _ => apply require_inv in Hk; by apply negb_true_iff in Hk end.
  - eexists. split; [done |]. by eapply TryParseTimeoutSeconds_positive.
  - eexists. split; [done |]. by eapply TryParseRetryPolicy_bounds.
  - eexists. split; [done |]. by eapply TryParseOutputContract_format.
  - match goal with Hc : TryParseClarify _ _ _ _ _ = Ok ?c |- _ => destruct c; [| done] end.
    intros _. by eapply TryParseClarify_kind.
  - match goal with Hd : optional _ "depends_on" _ _ = Ok _ |- _ => unfold optional in Hd; rename Hd into Hdep end.
    destruct (stepElement !! "depends_on"); [| simplify_eq; constructor].
    bind_inv Hdep. destruct (existsb IsBlank _) eqn:He; [done |]. simplify_eq.
    apply Forall_forall. intros d Hd. destruct (IsBlank d) eqn:Hb; [| done].
    enough (false = true) by done. rewrite <- He. apply existsb_exists. exists d. split; [by apply list_elem_of_In | done].
  - by eapply TryParseOnFailure_not_empty.
  - done.
Qed.

Lemma parse_steps_loaded elements : ∀ steps,
  parse_steps lower_rune ParseFloat elements = Done (Ok steps) → Forall loaded_step steps.
Proof.
  induction elements as [| e elements IH]; intros steps H; simpl in H; [simplify_eq; constructor |].
  bind_inv H. simplify_eq. constructor; [by eapply parse_step_loaded | by apply IH].
Qed.

Lemma ParseComposition_inv jsonStr c :
  ParseComposition lower_rune EqualFoldU ParseFloat jsonStr = Some (Done (Ok c)) →
  Forall loaded_step (Steps c) ∧ ValidateComposition lower_rune EqualFoldU (Steps c) = Some (Ok tt).
Proof.
  unfold ParseComposition. destruct (_ ≫= _ : res (list (gmap string json) * json_text)) as [[elements args] | e]; [| done].
  destruct (parse_steps _ _ elements) as [[steps | e] | |] eqn:Hs; [| done..].
  destruct (ValidateComposition _ _ steps) as [[[] | e] |] eqn:Hv; [| done..].
  intros [= <-]. split; [by eapply parse_steps_loaded | done].
Qed.

(** C32: what the loader accepts is typed as the runtime needs it: every step
    has an id, a kind, a positive time limit, a retry policy and an output
    contract in range (the pointers the runtime dereferences), and a
    clarification schema only if it is a [user_input] step. *)
Theorem loaded_plans_are_typed jsonStr c :
  ParseComposition lower_rune EqualFoldU ParseFloat jsonStr = Some (Done (Ok c)) →
  Forall loaded_step (Steps c).
Proof. intros [H _]%ParseComposition_inv. exact H. Qed.

(** ** Accepted plans *)

Lemma collect_id_inv ids step ids' :
  collect_id lower_rune ids step = Ok ids' →
  Lower (Id step) ∉ ids ∧ Lower (Kind step) ∈ supportedKinds ∧ ids' = {[Lower (Id step)]} ∪ ids.
Proof.
  unfold collect_id. intros H. bind_inv H. simplify_eq.
  repeat match goal with Hr : require (bool_decide _) _ = Ok _ |- _ => apply require_inv, bool_decide_eq_true in Hr end.
  done.
Qed.

Lemma collect_id_tool ids step ids' :
  collect_id lower_rune ids step = Ok ids' → Kind step = "tool_call" → IsBlank (Tool step) = false.
Proof.
  unfold collect_id, check_kind_fields. intros H Hk. bind_inv H. rewrite Hk in *.
  match goal with Hr : _ ≫= _ = Ok _ |- _ => bind_inv Hr end.
  match goal with Hr : require (negb (EqualFold "tool_call" "tool_call" && _)) _ = Ok _ |- _ =>
    apply require_inv, negb_true_iff in Hr; by apply orb_false_iff in Hr as [Hr _] end.
Qed.

Lemma collect_ids_tool steps step : ∀ ids ids',
  for_fold (collect_id lower_rune) ids steps = Ok ids' → step ∈ steps → Kind step = "tool_call" →
  IsBlank (Tool step) = false.
Proof.
  induction steps as [| s steps IH]; intros ids ids' H Hin Hk; simpl in H; [by apply not_elem_of_nil in Hin |].
  destruct (collect_id lower_rune ids s) as [ids1 | e] eqn:Hc; [| done].
  apply elem_of_cons in Hin as [-> | Hin]; [by eapply collect_id_tool | by eapply IH].
Qed.

Lemma ValidateComposition_tool steps step :
  ValidateComposition lower_rune EqualFoldU steps = Some (Ok tt) → step ∈ steps → Kind step = "tool_call" →
  IsBlank (Tool step) = false.
Proof.
  unfold ValidateComposition. case_bool_decide; [done |].
  destruct (for_fold (collect_id lower_rune) ∅ steps) as [ids | e] eqn:Hids; [| done]. intros _.
  by eapply collect_ids_tool.
Qed.

Lemma collect_ids_spec steps : ∀ ids ids',
  for_fold (collect_id lower_rune) ids steps = Ok ids' →
  NoDup ((Lower ∘ Id) <$> steps) ∧ (∀ step, step ∈ steps → Lower (Id step) ∉ ids ∧ Lower (Kind step) ∈ supportedKinds) ∧
  ∀ x, x ∈ ids' ↔ x ∈ ids ∨ ∃ step, step ∈ steps ∧ Lower (Id step) = x.
Proof.
  induction steps as [| s steps IH]; intros ids ids' H; simpl in H.
  { simplify_eq. split_and!; [apply NoDup_nil_2 | by intros ? ?%not_elem_of_nil |].
    intros x. split; [by left |]. by intros [? | (? & ?%not_elem_of_nil & _)]. }
  destruct (collect_id lower_rune ids s) as [ids1 | e] eqn:Hc; [| done].
  apply collect_id_inv in Hc as (Hs & Hk & ->). apply IH in H as (Hnd & Hnew & Hids). split_and!.
  - rewrite fmap_cons. apply NoDup_cons. split; [| done].
    intros (t & Ht & Hin)%list_elem_of_fmap. destruct (Hnew t Hin) as [Hn _]. simpl in Ht. set_solver.
  - intros t [-> | Ht]%elem_of_cons; [done |]. destruct (Hnew t Ht). set_solver.
  - intros x. rewrite Hids, elem_of_union, elem_of_singleton. setoid_rewrite elem_of_cons. naive_solver.
Qed.

(** The steps of a loaded plan have distinct ids, even without regard to
    case, supported kinds, dependencies that name steps, and no step waits for
    itself, directly or through others. *)
Theorem loaded_plans_are_graphs jsonStr c :
  ParseComposition lower_rune EqualFoldU ParseFloat jsonStr = Some (Done (Ok c)) →
  Steps c ≠ [] ∧ NoDup ((Lower ∘ Id) <$> Steps c) ∧
  (∀ step, step ∈ Steps c → Lower (Kind step) ∈ supportedKinds ∧
     ∀ d, d ∈ DependsOn step → Lower d ∈ (Lower ∘ Id) <$> Steps c) ∧
  ∀ a, ¬ tc (dep Lower (index_steps Lower (Steps c))) a a.
Proof.
  intros [_ H]%ParseComposition_inv. unfold ValidateComposition in H.
  case_bool_decide as Hne; [done |].
  destruct (for_fold (collect_id lower_rune) ∅ (Steps c)) as [ids | e] eqn:Hids; [| done].
  apply collect_ids_spec in Hids as (Hnd & Hkind & Hin).
  destruct (for_each (check_references lower_rune EqualFoldU ids) (Steps c)) as [[] | e] eqn:Hrefs; [| done].
  destruct (has_cycle_spec Lower (Steps c)) as (b & Hb & Hcyc). rewrite Hb in H. destruct b; [done |].
  split_and!; [done | done | |].
  - intros step Hstep. split; [by apply Hkind |]. intros d Hd.
    setoid_rewrite for_each_ok in Hrefs. specialize (Hrefs step Hstep). unfold check_references in Hrefs.
    apply res_bind_inv in Hrefs as (u & _ & Hrefs). setoid_rewrite for_each_ok in Hrefs.
    specialize (Hrefs d Hd). apply res_bind_inv in Hrefs as (u' & Hd' & _).
    apply require_inv, bool_decide_eq_true, Hin in Hd' as [?%not_elem_of_empty | (t & Ht & <-)]; [done |].
    apply list_elem_of_fmap. by exists t.
  - intros a Ha. by assert (false = true) by (apply Hcyc; eauto).
Qed.

(** The loader demands [on_failure] of every step, and validation before a
    run demands that a failure branch has none: no step of a plan that passes
    both hands over to the step its [on_failure] names. *)
Theorem loaded_failure_branches_never_taken jsonStr c loadedSkills step st :
  ParseComposition lower_rune EqualFoldU ParseFloat jsonStr = Some (Done (Ok c)) →
  TryValidateMetaPlan (Steps c) loadedSkills = Some (Ok tt) →
  step ∈ Steps c → TrimSpace (OnFailure step) = OnFailure step →
  TryActivateFailureBranch step (index_steps (λ id, id) (Steps c)) st = (false, st).
Proof.
  intros [Hl _]%ParseComposition_inv Hwf%validated_well_formed Hin Htrim.
  rewrite Forall_forall in Hl. unfold TryActivateFailureBranch. rewrite Htrim.
  case_bool_decide; [done |].
  destruct (index_steps (λ id, id) (Steps c) !! OnFailure step) as [sub |] eqn:Hsub; [| done].
  apply (index_steps_lookup (λ id, id) _ (wf_ids _ _ Hwf)) in Hsub as [Hsub Heq].
  destruct (wf_substitutes _ _ Hwf step sub) as [Hf _]; [done.. |]. by destruct (ls_on_failure _ (Hl sub Hsub)).
Qed.

Lemma on_failure_is_mandatory stepElement step :
  stepElement !! "on_failure" = None →
  parse_step lower_rune ParseFloat stepElement ≠ Done (Ok step).
Proof.
  unfold parse_step. cbv zeta. intros Hno H. bind_inv H. simplify_eq.
  match goal with Hf : TryParseOnFailure _ = Ok _ |- _ => unfold TryParseOnFailure in Hf; by rewrite Hno in Hf end.
Qed.
End LoaderSpec.

(** ** A plan that loads

    Two steps; the first hands over to the second when it fails. *)
Definition step_json (id onFailure : string) (deps : list string) : json :=
  JObj [("id", JStr id); ("kind", JStr "agent"); ("depends_on", JArr (JStr <$> deps));
        ("on_failure", JStr onFailure); ("timeout_seconds", JNum "30");
        ("output_contract", JObj [("format", JStr "json"); ("required_properties", JArr [JStr "title"])])].
Definition plan_json : json_text :=
  TDoc (JObj [("steps", JArr [step_json "fetch" "Cache" []; step_json "cache" " " []; step_json "report" "  " ["fetch"]])]).

Definition load := ParseComposition (λ r, r) (λ s t, bool_decide (s = t)) (λ _, None).
Definition loaded_plan : MetaSkillComposition :=
  match load plan_json with Some (Done (Ok c)) => c | _ => MkComposition TBlank [] end.


Lemma plan_json_loads : load plan_json = Some (Done (Ok loaded_plan)).
Proof. reflexivity. Qed.

Lemma loaded_plans_are_typed_witness : length (Steps loaded_plan) = 3 ∧ Forall loaded_step (Steps loaded_plan).
Proof. split; [reflexivity |]. exact (loaded_plans_are_typed _ _ _ plan_json loaded_plan plan_json_loads). Defined.

Lemma loaded_plans_are_graphs_witness :
  length (Steps loaded_plan) = 3 ∧
  ∀ a, ¬ tc (dep (ToLower (λ r, r)) (index_steps (ToLower (λ r, r)) (Steps loaded_plan))) a a.
Proof. split; [reflexivity |]. apply (loaded_plans_are_graphs _ _ _ plan_json loaded_plan plan_json_loads). Defined.

Lemma loaded_failure_branches_never_taken_witness :
  TryValidateMetaPlan (Steps loaded_plan) [] = Some (Ok tt) ∧
  ∃ step, Id step = "fetch" ∧ OnFailure step = "Cache" ∧ ∀ st,
    TryActivateFailureBranch step (index_steps (λ id, id) (Steps loaded_plan)) st = (false, st).
Proof.
  split; [reflexivity |]. eexists (default zero_step (head (Steps loaded_plan))).
  split_and!; [reflexivity | reflexivity |]. intros st.
  apply (loaded_failure_branches_never_taken _ _ _ plan_json loaded_plan [] _ st plan_json_loads);
    [reflexivity | by left | reflexivity].
Defined.
