(* ===== verification/MetaPolicy.v ===== *)
(** Running one step of a meta-skill plan, and what a run reports and keeps:
    [openclaw/agent/agent_runtime.go], the [...WithPolicy] functions, the
    capability check, the final text, the error codes and the checkpoint.

    Tools, skills and the model are outside: an oracle in the state [W] answers
    each attempt.  Durations of steps are not kept. *)

From S2P Require Import Prelude GoStrings Json MetaPlan.
From stdpp Require Import fin_maps.

Record ToolExecutionResult := MkTool {
  ResultText : string;
  ResultStatus : string;
  FailureCode : string;
  FailureMessage : string;
  RetrySafe : bool }.

(** The status constant the tool executor sets on success
    ([core.ToolResultStatusesCompleted]), and the other two. *)
Definition ToolResultStatusesCompleted : string := "Completed".
Definition ToolResultStatusesFailed : string := "failed".
Definition ToolResultStatusesBlocked : string := "blocked".

Definition CreateMetaStepFailedToolResult (failureCode failureMessage : string) : ToolExecutionResult :=
  MkTool failureMessage "failed" failureCode failureMessage false.

(** The kinds of error the policies tell apart. *)
Inductive exec_error := NoError | Canceled | DeadlineExceeded | OtherError (text : string).

Definition is_context_error (e : exec_error) : bool :=
  match e with Canceled | DeadlineExceeded => true | _ => false end.

Section Policy.
Context {W : Type}.

(** [ExecuteMetaToolStepWithPolicy] and its siblings have the same head:
    [step.Retry] is dereferenced, and every attempt makes a deadline from
    [step.TimeoutSeconds]. *)
Definition max_attempts (step : MetaSkillStepDefinition) : go nat :=
  match Retry step with
  | None => Panic
  | Some r => Done (Z.to_nat (Z.max 1 (MaxAttempts r)))
  end.

Definition backoff_ms (step : MetaSkillStepDefinition) : Z :=
  match Retry step with Some r => BackoffMs r | None => 0%Z end.

(** One attempt of a tool: the result pointer and the error; [sleep] waits
    and tells whether the run was cancelled meanwhile. *)
Context (sleep : Z → W → bool * W).

Definition back_off (step : MetaSkillStepDefinition) (w : W) : bool * W :=
  if (0 <? backoff_ms step)%Z then sleep (backoff_ms step) w else (false, w).

(** ** Tools *)

Section Tool.
Context (Execute : nat → W → (option ToolExecutionResult * exec_error) * W) (timeout_message : string).

(** The loop at [attempt], with [n] rounds to go.  The test for the last
    attempt compares with [maxAttempts], which [attempt] never reaches. *)
Fixpoint tool_attempts (step : MetaSkillStepDefinition) (maxAttempts n : nat) (attempt : nat)
    (lastResult : option ToolExecutionResult) (w : W)
    : go ((option ToolExecutionResult * exec_error) * W) :=
  match n with
  | O => Done ((lastResult, NoError), w)
  | S n =>
      _ ← CreateMetaStepTimeout step;
      let '((lastResult, err), w) := Execute attempt w in
      match lastResult with
      | Some r =>
          if bool_decide (ResultStatus r = "completed") || bool_decide (attempt = maxAttempts)
          then Done ((Some r, NoError), w)
          else
            let '(_, w) := back_off step w in
            if is_context_error err then Done ((None, err), w)
            else tool_attempts step maxAttempts n (S attempt)
                   (Some (CreateMetaStepFailedToolResult "step_timeout" timeout_message)) w
      | None =>
          let '(_, w) := back_off step w in
          if is_context_error err then Done ((None, err), w)
          else tool_attempts step maxAttempts n (S attempt)
                 (Some (CreateMetaStepFailedToolResult "step_timeout" timeout_message)) w
      end
  end.

Definition ExecuteMetaToolStepWithPolicy (step : MetaSkillStepDefinition) (w : W)
    : go ((res ToolExecutionResult) * W) :=
  maxAttempts ← max_attempts step;
  '((lastResult, err), w) ← tool_attempts step maxAttempts maxAttempts 0 None w;
  match lastResult, err with
  | Some r, _ => Done (Ok r, w)
  | None, NoError =>
      Done (Ok (CreateMetaStepFailedToolResult "step_failed"
        ("Meta step '" +:+ Id step +:+ "' failed before producing a result.")), w)
  | None, _ => Done (Fail "context", w)
  end.
End Tool.

(** ** Skill entry points *)

Section SkillExec.
Context (ExecuteSkillEntrypoint : nat → W → option ToolExecutionResult * W).

Fixpoint skill_attempts (step : MetaSkillStepDefinition) (maxAttempts n : nat) (attempt : nat)
    (lastResult : option ToolExecutionResult) (w : W) : go (option ToolExecutionResult * W) :=
  match n with
  | O => Done (lastResult, w)
  | S n =>
      _ ← CreateMetaStepTimeout step;
      let '(lastResult, w) := ExecuteSkillEntrypoint attempt w in
      if match lastResult with Some r => bool_decide (ResultStatus r = "completed") | None => false end
         || bool_decide (attempt = maxAttempts)
      then Done (lastResult, w)
      else
        let '(_, w) := back_off step w in
        skill_attempts step maxAttempts n (S attempt) lastResult w
  end.

Definition ExecuteMetaSkillExecStepWithPolicy (step : MetaSkillStepDefinition) (w : W)
    : go (ToolExecutionResult * W) :=
  maxAttempts ← max_attempts step;
  '(lastResult, w) ← skill_attempts step maxAttempts maxAttempts 0 None w;
  Done (default (CreateMetaStepFailedToolResult "step_failed"
    ("Meta step '" +:+ Id step +:+ "' failed before producing a result.")) lastResult, w).
End SkillExec.

(** ** Capability slots *)

Section Capability.
(** The result, the error, and whether the run's own context still stands. *)
Context (ExecuteGoverned : nat → W → (ToolExecutionResult * exec_error * bool) * W) (timeout_message : string).

(** Attempts count from 1. *)
Fixpoint capability_attempts (step : MetaSkillStepDefinition) (maxAttempts n : nat) (attempt : nat)
    (lastResult : option ToolExecutionResult) (w : W) : go (res (option ToolExecutionResult) * W) :=
  match n with
  | O => Done (Ok lastResult, w)
  | S n =>
      _ ← CreateMetaStepTimeout step;
      let '((r, execErr, ctxAlive), w) := ExecuteGoverned attempt w in
      let settled :=
        match execErr with
        | NoError => Some r
        | DeadlineExceeded =>
            if ctxAlive : bool then Some (CreateMetaStepFailedToolResult "step_timeout" timeout_message) else None
        | _ => None
        end in
      match settled with
      | None => Done (Fail "context", w)
      | Some r =>
          if bool_decide (ResultStatus r = ToolResultStatusesCompleted) || negb (RetrySafe r) ||
             bool_decide (attempt = maxAttempts)
          then Done (Ok (Some r), w)
          else
            let '(cancelled, w) := back_off step w in
            if cancelled : bool then Done (Fail "context", w)
            else capability_attempts step maxAttempts n (S attempt) (Some r) w
      end
  end.

Definition ExecuteMetaCapabilityStepWithPolicy (configured : bool) (step : MetaSkillStepDefinition) (w : W)
    : go (res ToolExecutionResult * W) :=
  if negb configured then
    Done (Ok (CreateMetaStepFailedToolResult "capability_not_configured"
      ("Meta step '" +:+ Id step +:+
       "' declares a capability slot but no capability executor is wired (no capability provider registry).")), w)
  else
    maxAttempts ← max_attempts step;
    '(r, w) ← capability_attempts step maxAttempts maxAttempts 1 None w;
    match r with
    | Fail e => Done (Fail e, w)
    | Ok lastResult =>
        Done (Ok (default (CreateMetaStepFailedToolResult "step_failed"
          ("Meta step '" +:+ Id step +:+ "' failed before producing a result.")) lastResult), w)
    end.
End Capability.

(** ** The model *)

Inductive llm_outcome :=
  | LlmCompleted (text : string)
  | LlmFailed (failureCode failureMessage : string).

Section Llm.
(** The executor: a response or none, and the error. *)
Context (executor : W → (option string * exec_error) * W).

Fixpoint llm_attempts (step : MetaSkillStepDefinition) (n : nat) (lastFailureCode lastFailureMessage : string) (w : W)
    : go (res llm_outcome * W) :=
  match n with
  | O => Done (Ok (LlmFailed "llm_failed" ("Meta step '" +:+ Id step +:+ "' failed before producing a response.")), w)
  | S n =>
      _ ← CreateMetaStepTimeout step;
      let '((r, err), w) := executor w in
      match r with
      | Some text => Done (Ok (LlmCompleted text), w)
      | None =>
          if is_context_error err then Done (Fail "context", w)
          else
            let '(code, msg) :=
              match err with
              | OtherError text => ("step_timeout", "Meta step '" +:+ Id step +:+ "' failed: " +:+ text)
              | _ => (lastFailureCode, lastFailureMessage)
              end in
            if bool_decide (n = 0) then
              Done (Ok (LlmFailed (if bool_decide (code = "") then "llm_failed" else code)
                (if bool_decide (msg = "") then "Meta step '" +:+ Id step +:+ "' failed before producing a response."
                 else msg)), w)
            else
              let '(cancelled, w) := back_off step w in
              if cancelled : bool then Done (Fail "context", w) else llm_attempts step n code msg w
      end
  end.

Definition ExecuteMetaLlmStepWithPolicy (step : MetaSkillStepDefinition) (w : W) : go (res llm_outcome * W) :=
  maxAttempts ← max_attempts step;
  llm_attempts step maxAttempts "" "" w.
End Llm.
End Policy.

(** ** What a step may use *)

Definition IsToolAllowedByMetaCapabilities (capabilities : list string) (toolName : string) : bool :=
  bool_decide (capabilities = []) ||
  existsb (λ rawCapability,
    let capability := TrimSpace rawCapability in
    let normalizedTool := TrimSpace toolName in
    negb (bool_decide (capability = "")) &&
    bool_decide (capability ∈ ["*"; "all-tools"; "tools:*"; "tool:*"; normalizedTool; "tool:" +:+ normalizedTool]))
    capabilities.

(** ** Results of a run *)

Record SessionMetaStepExecutionEvidence := MkEvidence {
  CommandPreview : string; InputMode : string; StdinBytes : Z; ParseMode : string }.

Record MetaStepExecutionResult := MkResult {
  ResId : string;
  ResKind : string;
  ResStatus : string;
  ResFailureCode : string;
  ResContinued : bool;
  ResEvidence : option SessionMetaStepExecutionEvidence }.

Definition NewMetaStepExecutionResult (id kind status failureCode : string) (continued : bool) : MetaStepExecutionResult :=
  MkResult id kind status failureCode continued None.

Definition BuildSkillExecExecutionEvidence (entrypoint : string) (renderedArgs : list string)
    (renderedStdin parseMode : string) : option SessionMetaStepExecutionEvidence :=
  let entrypoint := TrimSpace entrypoint in
  let hasEntrypoint := negb (bool_decide (entrypoint = "")) in
  if negb hasEntrypoint && bool_decide (renderedArgs = []) then None
  else
    let commandParts := (if hasEntrypoint then [entrypoint] else []) ++ take 4 renderedArgs in
    let renderedStdin := TrimSpace renderedStdin in
    Some (MkEvidence (JoinStrings commandParts " ")
      (if bool_decide (renderedStdin = "") then "args" else "stdin")
      (Z.of_nat (String.length renderedStdin))
      (if bool_decide (parseMode = "") then "text" else parseMode)).

(** The code of the last result that has one, else by the words of the error. *)
Definition DeriveMetaErrorCode (errorstr : string) (stepResults : list MetaStepExecutionResult) : string :=
  match list_find (λ step, ResFailureCode step ≠ "") (reverse stepResults) with
  | Some (_, step) => ResFailureCode step
  | None =>
      default "meta_step_error"
        (snd <$> (snd <$> list_find (λ e, Contains errorstr e.1 = true)
          [("depends on", "dependency_not_completed");
           ("does not declare a tool", "invalid_tool_step");
           ("unsupported kind", "unsupported_step_kind");
           ("failed with status", "step_failed");
           ("missing dependency", "invalid_dag");
           ("dependency cycle", "invalid_dag");
           ("execution graph stalled", "invalid_dag");
           ("requires user input", "user_input_required");
           ("classify", "invalid_classification");
           ("metadata capabilities", "metadata_capability_denied")]))
  end.

(** The first test accepts every mode but the empty one. *)
Definition ResolveMetaFinalText (finalTextMode : string) (outputs : gmap string string) (executedStepIds : list string) : string :=
  let mode := TrimSpace finalTextMode in
  let last_output := match last executedStepIds with None => "" | Some id => default "" (outputs !! id) end in
  if negb (bool_decide (mode = "")) || bool_decide (mode = "auto") || bool_decide (mode = "raw") then last_output
  else if HasPrefix mode "step:" then
    match outputs !! TrimSpace (slice_from mode 5) with
    | Some finalStepOutput => finalStepOutput
    | None => last_output
    end
  else last_output.

(** ** Checkpoints and history of a session *)

Record SessionMetaExecutionCheckpoint := MkCheckpoint {
  cp_SkillName : string;
  cp_PendingStepId : string;
  cp_Prompt : string;
  cp_CreatedAtUtc : Z;
  cp_LastUpdatedAtUtc : Z;
  cp_PendingStepIds : list string;
  cp_BlockedStepIds : list string;
  cp_Outputs : gmap string string;
  cp_FailureAliases : gmap string string;
  cp_StepResults : list MetaStepExecutionResult }.

Record SessionMetaRunRecord := MkRunRecord {
  run_SkillName : string;
  run_Status : string;
  run_FinalText : string;
  run_Error : string;
  run_ErrorCode : string;
  run_StepResults : list MetaStepExecutionResult }.

Record MetaSession := MkSession {
  MetaExecutionCheckpoint : option SessionMetaExecutionCheckpoint;
  MetaRunHistory : list SessionMetaRunRecord }.

(** The zero [time.Time], in nanoseconds of the Unix epoch. *)
Definition zero_time : Z := (-62135596800 * 10 ^ 9)%Z.

Definition ClearMetaExecutionCheckpoint (session : MetaSession) (skillName : string) : MetaSession :=
  match MetaExecutionCheckpoint session with
  | None => session
  | Some c =>
      if negb (bool_decide (cp_SkillName c = skillName)) then session
      else MkSession None (MetaRunHistory session)
  end.

(** [CreatedAtUtc] is not set. *)
Definition SaveMetaExecutionCheckpoint (now : Z) (session : MetaSession) (skillName pendingStepId prompt : string)
    (st : run_sets) (stepResults : list MetaStepExecutionResult) : MetaSession :=
  MkSession (Some (MkCheckpoint skillName pendingStepId prompt zero_time now
      (elements (pending st)) (elements (blocked st)) (outputs st) (failureAliases st) stepResults))
    (MetaRunHistory session).

(** [Some (prompt, ...)] is a run resumed from the session's checkpoint; the
    evidence of results is not restored. *)
Definition TryRestoreMetaExecutionCheckpoint (now : Z) (session : MetaSession) (skillName : string)
    (stepIds : gset string) (rawPending : gset string)
    : MetaSession * run_sets * list MetaStepExecutionResult * option string :=
  let fresh := MkSets rawPending ∅ ∅ ∅ in
  match MetaExecutionCheckpoint session with
  | None => (session, fresh, [], None)
  | Some c =>
      if negb (bool_decide (cp_SkillName c = skillName)) then (session, fresh, [], None)
      else if
        forallb (λ id, bool_decide (id ∈ stepIds)) (cp_PendingStepIds c) &&
        forallb (λ id, bool_decide (id ∈ stepIds)) (cp_BlockedStepIds c) &&
        bool_decide (dom (cp_Outputs c) ⊆ stepIds) &&
        bool_decide (dom (cp_FailureAliases c) ⊆ stepIds) &&
        forallb (λ id, bool_decide (id ∈ stepIds)) (map_to_list (cp_FailureAliases c)).*2 &&
        forallb (λ r, bool_decide (ResId r ∈ stepIds)) (cp_StepResults c)
      then
        (MkSession (Some (MkCheckpoint (cp_SkillName c) (cp_PendingStepId c) (cp_Prompt c) (cp_CreatedAtUtc c) now
            (cp_PendingStepIds c) (cp_BlockedStepIds c) (cp_Outputs c) (cp_FailureAliases c) (cp_StepResults c)))
          (MetaRunHistory session),
         MkSets (list_to_set (cp_PendingStepIds c)) (list_to_set (cp_BlockedStepIds c))
           (cp_Outputs c) (cp_FailureAliases c),
         (λ r, MkResult (ResId r) (ResKind r) (ResStatus r) (ResFailureCode r) (ResContinued r) None) <$> cp_StepResults c,
         Some (cp_Prompt c))
      else (MkSession None (MetaRunHistory session), fresh, [], None)
  end.

Definition AppendMetaRunHistory (session : MetaSession) (skillName finalText : string)
    (stepResults : list MetaStepExecutionResult) (errorstr : string) (preserveCheckpoint : bool) : MetaSession :=
  let status :=
    if negb preserveCheckpoint then (if bool_decide (errorstr = "") then "completed" else "failed") else "paused" in
  let errorCode := if negb (bool_decide (errorstr = "")) then DeriveMetaErrorCode errorstr stepResults else "" in
  MkSession (MetaExecutionCheckpoint session)
    (MetaRunHistory session ++ [MkRunRecord skillName status finalText errorstr errorCode stepResults]).

(** The JSON document of the structured mode is built by [structured]. *)
Definition ReturnMetaExecutionOutput
    (structured : string → string → list MetaStepExecutionResult → string → string → string)
    (session : MetaSession) (metaSkill : SkillDefinition) (finalText : string)
    (stepResults : list MetaStepExecutionResult) (errorstr : string) (preserveCheckpoint : bool) : MetaSession * string :=
  let session := AppendMetaRunHistory session (SkillName metaSkill) finalText stepResults errorstr preserveCheckpoint in
  let session :=
    if negb preserveCheckpoint then ClearMetaExecutionCheckpoint session (SkillName metaSkill) else session in
  (session,
   if negb (bool_decide (FinalTextMode metaSkill = "structured")) then
     (if bool_decide (errorstr = "") then finalText else "error: " +:+ errorstr)
   else structured (SkillName metaSkill) finalText stepResults errorstr
          (if bool_decide (errorstr = "") then "" else DeriveMetaErrorCode errorstr stepResults)).

(** [time.Second * time.Duration(n)] *)
Definition seconds (n : Z) : Z := wrap64 (1000000000 * n).

Definition IsClarifyInputTimedOut (now : Z) (session : MetaSession) (skillName : string)
    (step : MetaSkillStepDefinition) : go bool :=
  if match Clarify step with
     | Some c => match ClarifyTimeoutSeconds c with Some t => (0 <? t)%Z | None => false end
     | None => false
     end
  then Done false
  else
    match MetaExecutionCheckpoint session with
    | None => Done false
    | Some checkpoint =>
        if negb (bool_decide (cp_SkillName checkpoint = skillName)) ||
           negb (bool_decide (cp_PendingStepId checkpoint = Id step))
        then Done false
        else
          match Clarify step with
          | None => Panic
          | Some c =>
              match ClarifyTimeoutSeconds c with
              | None => Panic
              | Some t => Done (cp_CreatedAtUtc checkpoint + seconds t <? now)%Z
              end
          end
    end.

(** ** Tool steps never complete *)

Section ToolSpec.
Context {W : Type} (sleep : Z → W → bool * W)
  (Execute : nat → W → (option ToolExecutionResult * exec_error) * W) (timeout_message : string).

(** The state after [n] attempts from number [attempt] on. *)
Fixpoint after_attempts (step : MetaSkillStepDefinition) (n attempt : nat) (w : W) : W :=
  match n with
  | O => w
  | S n => after_attempts step n (S attempt) (back_off sleep step (Execute attempt w).2).2
  end.

(** The executor answers with its own status constants and is not cancelled. *)
Definition executor_statuses : Prop := ∀ attempt w,
  let '((r, err), _) := Execute attempt w in
  is_context_error err = false ∧
  ∀ t, r = Some t →
    ResultStatus t ∈ [ToolResultStatusesCompleted; ToolResultStatusesFailed; ToolResultStatusesBlocked].

Lemma tool_attempts_spec step maxAttempts t n : executor_statuses → TimeoutSeconds step = Some t →
  ∀ attempt last w, attempt + n ≤ maxAttempts → 0 < n →
  tool_attempts sleep Execute timeout_message step maxAttempts n attempt last w =
    Done ((Some (CreateMetaStepFailedToolResult "step_timeout" timeout_message), NoError),
      after_attempts step n attempt w).
Proof.
  intros Hex Ht. induction n as [| n IH]; intros attempt last w Hmax Hn; [lia |]. clear Hn.
  assert (Hrest : ∀ w,
    tool_attempts sleep Execute timeout_message step maxAttempts n (S attempt)
      (Some (CreateMetaStepFailedToolResult "step_timeout" timeout_message)) w =
    Done ((Some (CreateMetaStepFailedToolResult "step_timeout" timeout_message), NoError),
      after_attempts step n (S attempt) w)).
  { intros w1. destruct n; [done |]. apply IH; lia. }
  cbn [tool_attempts]. unfold CreateMetaStepTimeout. rewrite Ht.
  specialize (Hex attempt w).
  replace (if (t <=? 0)%Z then Done None else Done (Some t))
    with (Done (if (t <=? 0)%Z then None else Some t)) by (by destruct (t <=? 0)%Z).
  cbn [mbind go_bind after_attempts].
  destruct (Execute attempt w) as [[[r |] err] w1] eqn:Hrun; cbn [fst snd]; destruct Hex as [Herr Hst].
  - rewrite !bool_decide_eq_false_2; [| lia |].
    + cbn [orb]. destruct (back_off sleep step w1) as [b w2]. rewrite Herr. apply Hrest.
    + specialize (Hst r eq_refl). intros Heq. rewrite Heq in Hst.
      repeat (apply elem_of_cons in Hst as [Hst | Hst]; [discriminate Hst |]). by apply not_elem_of_nil in Hst.
  - destruct (back_off sleep step w1) as [b w2]. rewrite Herr. apply Hrest.
Qed.

(** Whatever the tool answers, a tool step of a meta skill ends as failed
    with the code [step_timeout], after the tool has been executed as often as
    the retry policy allows: the status of a success is compared with another
    spelling than the one the executor sets, and the answer is then replaced. *)
Theorem tool_steps_report_timeout step r t w :
  executor_statuses → Retry step = Some r → TimeoutSeconds step = Some t →
  ExecuteMetaToolStepWithPolicy sleep Execute timeout_message step w =
    Done (Ok (CreateMetaStepFailedToolResult "step_timeout" timeout_message),
      after_attempts step (Z.to_nat (Z.max 1 (MaxAttempts r))) 0 w).
Proof.
  intros Hex Hr Ht. unfold ExecuteMetaToolStepWithPolicy, max_attempts. rewrite Hr. cbn [mbind go_bind].
  rewrite (tool_attempts_spec step _ t) by (done || lia). done.
Qed.
End ToolSpec.

(** A payment tool that succeeds, and counts its executions. *)
Definition counting_tool (attempt : nat) (w : nat) : (option ToolExecutionResult * exec_error) * nat :=
  ((Some (MkTool "paid" ToolResultStatusesCompleted "" "" false), NoError), S w).
Definition retried_step : MetaSkillStepDefinition :=
  MkStep "pay" "tool_call" "" "payment" "" None [] "" "" "" TBlank "" TBlank [] [] None [] [] ""
    (Some 30%Z) (Some (MkRetry 3 0)) None "" 0 None "".

Lemma tool_steps_report_timeout_witness :
  ExecuteMetaToolStepWithPolicy (λ _ w, (false, w)) counting_tool "timed out" retried_step 0 =
    Done (Ok (CreateMetaStepFailedToolResult "step_timeout" "timed out"), 3).
Proof.
  apply (tool_steps_report_timeout (λ _ w, (false, w)) counting_tool "timed out" retried_step (MkRetry 3 0) 30);
    [| reflexivity | reflexivity].
  intros attempt w. split; [reflexivity |]. intros t [= <-]. by left.
Defined.

(** ** The final text *)

(** The final text of a run is the output of the last executed step,
    whatever mode the skill asks for: [step:x] and [structured] make no
    difference here. *)
Theorem final_text_ignores_mode finalTextMode outputs executedStepIds :
  ResolveMetaFinalText finalTextMode outputs executedStepIds =
    default "" (last executedStepIds ≫= λ id, outputs !! id).
Proof.
  unfold ResolveMetaFinalText. cbv zeta.
  assert (Hlast : match last executedStepIds with None => "" | Some id => default "" (outputs !! id) end =
    default "" (last executedStepIds ≫= λ id, outputs !! id)) by (by destruct (last executedStepIds)).
  case_bool_decide as Hm; cbn [negb orb]; [| exact Hlast].
  rewrite Hm. exact Hlast.
Qed.

(** ** Checkpoints *)

Lemma list_to_set_elements_str (s : gset string) : list_to_set (elements s) = s.
Proof. apply list_to_set_elements_L. Qed.

Lemma forallb_in {A} (f : A → string) (l : list A) (ids : gset string) :
  (∀ x, x ∈ l → f x ∈ ids) → forallb (λ x, bool_decide (f x ∈ ids)) l = true.
Proof. intros H. apply forallb_forall. intros x Hx. apply bool_decide_eq_true, H. by apply list_elem_of_In. Qed.

Lemma forallb_ids (l : list string) (ids : gset string) :
  (∀ x, x ∈ l → x ∈ ids) → forallb (λ id, bool_decide (id ∈ ids)) l = true.
Proof. apply (forallb_in (λ id, id)). Qed.

Definition without_evidence (r : MetaStepExecutionResult) : MetaStepExecutionResult :=
  MkResult (ResId r) (ResKind r) (ResStatus r) (ResFailureCode r) (ResContinued r) None.

(** A run resumed from the checkpoint it saved has the same pending and
    blocked steps, outputs, aliases and prompt, and the same results but for
    their evidence, provided it ran the steps of the plan. *)
Theorem checkpoint_round_trip now now' session skillName pendingStepId prompt st stepResults stepIds rawPending :
  pending st ⊆ stepIds → blocked st ⊆ stepIds → dom (outputs st) ⊆ stepIds →
  (∀ alias primary, failureAliases st !! alias = Some primary → alias ∈ stepIds ∧ primary ∈ stepIds) →
  (∀ r, r ∈ stepResults → ResId r ∈ stepIds) →
  ∃ session',
    TryRestoreMetaExecutionCheckpoint now'
      (SaveMetaExecutionCheckpoint now session skillName pendingStepId prompt st stepResults)
      skillName stepIds rawPending =
    (session', st, without_evidence <$> stepResults, Some prompt).
Proof.
  intros Hp Hb Ho Ha Hr. unfold TryRestoreMetaExecutionCheckpoint, SaveMetaExecutionCheckpoint.
  cbn -[map_to_list dom elements]. rewrite bool_decide_eq_true_2 by done. cbn [negb].
  rewrite (forallb_ids (elements (pending st))) by (intros x Hx%elem_of_elements; by apply Hp).
  rewrite (forallb_ids (elements (blocked st))) by (intros x Hx%elem_of_elements; by apply Hb).
  rewrite forallb_ids; cycle 1.
  { intros p ([a p'] & -> & Hin)%list_elem_of_fmap. apply elem_of_map_to_list in Hin. by destruct (Ha a p'). }
  rewrite (forallb_in ResId) by done. rewrite bool_decide_eq_true_2 by done.
  rewrite bool_decide_eq_true_2 by (intros a [p Hp']%elem_of_dom; by destruct (Ha a p)).
  cbn [andb]. eexists. rewrite !list_to_set_elements_str. by destruct st.
Qed.

Lemma checkpoint_round_trip_witness :
  let st := MkSets {["ask"]} {["skip"]} {["first" := "done"]} ∅ in
  ∃ session',
    TryRestoreMetaExecutionCheckpoint 9
      (SaveMetaExecutionCheckpoint 5 (MkSession None []) "plan" "ask" "Which?" st
        [NewMetaStepExecutionResult "first" "agent" "completed" "" false])
      "plan" {["ask"; "skip"; "first"]} ∅ =
    (session', st, [NewMetaStepExecutionResult "first" "agent" "completed" "" false], Some "Which?").
Proof.
  apply (checkpoint_round_trip 5 9 (MkSession None []) "plan" "ask" "Which?"
    (MkSets {["ask"]} {["skip"]} {["first" := "done"]} ∅)
    [NewMetaStepExecutionResult "first" "agent" "completed" "" false] {["ask"; "skip"; "first"]} ∅); cbn.
  - set_solver.
  - set_solver.
  - rewrite dom_singleton_L. set_solver.
  - intros alias primary Hf. by rewrite lookup_empty in Hf.
  - intros r ->%list_elem_of_singleton. set_solver.
Defined.
