(* ===== verification/MetaRun.v ===== *)
(** Running a meta-skill plan: [ExecuteMetaSkill] of
    [openclaw/agent/agent_runtime.go], with the parallel wave and the fan-out
    executor of [openclaw/core/skills_meta.go].

    [exec_step] is the body of the loop over the steps, one definition per kind
    of step; [run_loop] is the outer loop, on fuel.  The plan functions are
    those of [MetaPlan.v], the attempts those of [MetaPolicy.v]; tools, skill
    entry points and the model answer in the state [W]; conditions and
    templates are evaluated by functions of the run's context. *)

From S2P Require Import Prelude GoStrings Json MetaPlan MetaLoader MetaPolicy.
From stdpp Require Import fin_maps.
From Stdlib Require Import SpecFloat.

(** [NewMetaExecutionContext] and, without the session's inputs,
    [SampleMetaExecutionContext]. *)
Record MetaExecutionContext := MkContext {
  ctx_input : string; ctx_outputs : gmap string string; ctx_session : bool }.

(** What a call of the model is made from: the two messages, and the arguments
    its numeric options are read from. *)
Record llm_request := MkLlm { llm_system : string; llm_user : string; llm_args : gmap string json }.

(** What the run is made of that is not the plan: the tables and codecs of the
    language, the evaluators of conditions and templates, and the outside. *)
Class MetaEnv (W : Type) := {
  lower_rune : N → N;
  EqualFoldU : string → string → bool;
  parse : string → option json;
  marshal : json → string;
  sprint : json → string;
  structured : string → string → list MetaStepExecutionResult → string → string → string;
  ParseFloat : string → option spec_float;
  FormatFloat : spec_float → string;
  Evaluate : string → MetaExecutionContext → go bool;
  Render : string → MetaExecutionContext → string;
  now : W → Z;
  cancelled : W → bool;
  sleep : Z → W → bool * W;
  ExecuteTool : MetaSkillStepDefinition → string → string → nat → W → (option ToolExecutionResult * exec_error) * W;
  capability_configured : bool;
  ExecuteGoverned : MetaSkillStepDefinition → string → nat → W → (ToolExecutionResult * exec_error * bool) * W;
  ExecuteSkillEntrypoint :
    SkillDefinition → MetaSkillStepDefinition → list string → string → string → nat → W → option ToolExecutionResult * W;
  CallLlm : llm_request → W → (option string * exec_error) * W;
  timeout_text : MetaSkillStepDefinition → string;
  BuildSkillBody : SkillDefinition → string }.

(** The plan of a run. *)
Class RunPlan := MkRunPlan {
  LoadedSkills : list SkillDefinition;
  metaSkill : SkillDefinition;
  input : string;
  steps : list MetaSkillStepDefinition;
  stepById : step_map;
  dependentsByStep : gmap string (list string) }.

Section Run.
Context {W : Type} `{E : MetaEnv W}.

(** ** Tool arguments *)

Definition mergeInto (target : gmap string json) (jsonStr : json_text) : res (gmap string json) :=
  match jsonStr with
  | TBlank => Ok target
  | _ =>
      match text_map jsonStr with
      | None => Fail "invalid_tool_args"
      | Some parsedNode => Ok (parsedNode ∪ target)
      end
  end.

(** [MetaToolArgumentResolver.Resolve]; [marshal] sorts the keys of a map. *)
Definition ResolveToolArguments (compositionToolArgsJSON withJSON stepToolArgsJSON : json_text)
    (context : MetaExecutionContext) : res string :=
  merged ← mergeInto ∅ compositionToolArgsJSON;
  merged ← mergeInto merged withJSON;
  merged ← mergeInto merged stepToolArgsJSON;
  match parse (Render (marshal (JObj (map_to_list merged))) context) ≫= as_map with
  | None => Fail "invalid_tool_args"
  | Some finalObj => Ok (marshal (JObj (map_to_list finalObj)))
  end.

(** ** Clarification answers *)

Definition matchesCancelWord (answer : string) (cancelWords : list string) : bool :=
  let trimmed := TrimSpace answer in
  negb (bool_decide (trimmed = "")) && existsb (EqualFoldU trimmed) cancelWords.

Definition check_length (field : MetaClarifyField) (strVal : string) : res () :=
  let n := Z.of_nat (String.length strVal) in
  if option_lt Z.ltb (Some n) (MinLength field) then Fail "clarify_min_length"
  else if option_lt Z.ltb (MaxLength field) (Some n) then Fail "clarify_max_length"
  else Ok tt.

Definition check_range (field : MetaClarifyField) (v : spec_float) : res () :=
  if option_lt SFltb (Some v) (Min field) then Fail "clarify_min"
  else if option_lt SFltb (Max field) (Some v) then Fail "clarify_max"
  else Ok tt.

(** [None] inside [Ok] is a property left out. *)
Definition tryResolveFieldValue (root : gmap string json) (field : MetaClarifyField) : res (option json) :=
  let invalid := Fail "clarify_invalid_type" in
  match root !! FieldName field with
  | None =>
      match DefaultValue field with
      | Some d => Ok (Some d)
      | None => if Required field then Fail "clarify_required_field_missing" else Ok None
      end
  | Some JNull => if Required field then Fail "clarify_required_field_missing" else Ok None
  | Some rawVal =>
      let kind := ToLower lower_rune (FieldType field) in
      if bool_decide (kind = "string") then
        match rawVal with
        | JStr strVal => _ ← check_length field strVal; Ok (Some (JStr strVal))
        | _ => invalid
        end
      else if bool_decide (kind = "enum") then
        match rawVal with
        | JStr strVal => if bool_decide (strVal ∈ Options field) then Ok (Some (JStr strVal)) else Fail "clarify_invalid_option"
        | _ => invalid
        end
      else if bool_decide (kind = "number") then
        match rawVal with
        | JNum lit =>
            match ParseFloat lit with
            | Some numVal => _ ← check_range field numVal; Ok (Some (JNum (FormatFloat numVal)))
            | None => invalid
            end
        | _ => invalid
        end
      else if bool_decide (kind = "integer") then
        match rawVal with
        | JNum lit =>
            match Atoi lit with
            | Some intVal => _ ← check_range field (float_of_int intVal); Ok (Some (JNum (Itoa intVal)))
            | None => invalid
            end
        | _ => invalid
        end
      else if bool_decide (kind = "boolean") then
        match rawVal with JBool b => Ok (Some (JBool b)) | _ => invalid end
      else invalid
  end.

(** The normalized output, or the failure code. *)
Definition ValidateAndNormalize (answer : string) (schema : MetaClarifySchema) : res string :=
  if matchesCancelWord answer (CancelWords schema) then Fail "user_input_cancelled"
  else if negb (EqualFold (Mode schema) "form") then Ok answer
  else if IsBlank answer then Fail "clarify_input_required"
  else
    match parse (TrimSpace answer) with
    | None => Fail "clarify_invalid_json"
    | Some j =>
        match as_map j with
        | None => Fail "clarify_invalid_json"
        | Some root =>
            if is_null j then Fail "clarify_invalid_shape"
            else
              normalizedMap ← for_fold (λ m field,
                value ← tryResolveFieldValue root field;
                Ok (match value with Some v => <[FieldName field := v]> m | None => m end)) ∅ (Fields schema);
              Ok (marshal (JObj (map_to_list (normalizedMap : gmap string json))))
        end
    end.

(** ** State of a run *)

Record run := MkRun {
  sets : run_sets;
  stepResults : list MetaStepExecutionResult;
  session : MetaSession;
  world : W }.

Definition set_sets (s : run_sets) (r : run) : run := MkRun s (stepResults r) (session r) (world r).
Definition add_result (x : MetaStepExecutionResult) (r : run) : run :=
  MkRun (sets r) (stepResults r ++ [x]) (session r) (world r).
Definition set_session (s : MetaSession) (r : run) : run := MkRun (sets r) (stepResults r) s (world r).
Definition set_world (w : W) (r : run) : run := MkRun (sets r) (stepResults r) (session r) w.

(** The round of a step either goes on, with progress or without, or the run
    returns a text. *)
Inductive flow :=
  | Goes (r : run) (progress : bool)
  | Returns (r : run) (text : string).

Section Plan.
Context `{P : RunPlan}.

Definition sample (r : run) : MetaExecutionContext := MkContext input (outputs (sets r)) false.

(** [return ReturnMetaExecutionOutput(...)] with an error text. *)
Definition return_error (r : run) (errorstr : string) (preserveCheckpoint : bool) : flow :=
  let '(s, text) := ReturnMetaExecutionOutput structured (session r) metaSkill "" (stepResults r) errorstr preserveCheckpoint in
  Returns (set_session s r) text.

Definition lift_go {A} (m : go (option A)) : option (go A) :=
  match m with
  | Done (Some a) => Some (Done a)
  | Done None => None
  | Panic => Some Panic
  | Deadlock => Some Deadlock
  end.

(** [CompleteMetaStepOutput] followed by [ApplyCompletionRouting]. *)
Definition complete_and_route (step : MetaSkillStepDefinition) (output : string) (r : run) : option (go run) :=
  let r := set_sets (CompleteMetaStepOutput step output (sets r)) r in
  '(b, p) ←! lift_go (ApplyCompletionRouting EqualFoldU (λ c, Evaluate c (sample r)) step stepById
                        (blocked (sets r)) (pending (sets r)) dependentsByStep);
  finish (set_sets (MkSets p b (outputs (sets r)) (failureAliases (sets r))) r).

Definition block_step (step : MetaSkillStepDefinition) (r : run) : option (go run) :=
  match BlockStepAndDependents (Id step) (blocked (sets r)) (pending (sets r)) dependentsByStep with
  | None => None
  | Some (b, p) => finish (set_sets (MkSets p b (outputs (sets r)) (failureAliases (sets r))) r)
  end.

(** What every kind does with a failed step: hand over to the failure branch, or
    return, or complete the step with [output] all the same. *)
Definition settle_failure (step : MetaSkillStepDefinition) (result : MetaStepExecutionResult)
    (continueOnError : bool) (errorstr output : string) (r : run) : option (go flow) :=
  let r := add_result result r in
  let '(activated, s) := TryActivateFailureBranch step stepById (sets r) in
  if activated : bool then finish (Goes (set_sets s r) true)
  else if negb continueOnError then finish (return_error r errorstr false)
  else r ←! complete_and_route step output r; finish (Goes r true).

Definition step_failed (step : MetaSkillStepDefinition) (failureCode : string) (continueOnError : bool) : MetaStepExecutionResult :=
  NewMetaStepExecutionResult (Id step) (Kind step) "failed" failureCode continueOnError.

Definition meta_step (step : MetaSkillStepDefinition) (text : string) : string :=
  "Meta step '" +:+ Id step +:+ "' " +:+ text.

(** The end of a step that answered with a text: check it, complete the step,
    record the result. *)
Definition settle_output (step : MetaSkillStepDefinition) (continueOnError : bool) (checked failed_output : string)
    (r : run) : option (go flow) :=
  match TryValidateMetaStepOutput parse step checked with
  | Fail failureCode =>
      settle_failure step (step_failed step failureCode continueOnError) continueOnError
        (meta_step step "failed output contract validation.") failed_output r
  | Ok _ =>
      r ←! complete_and_route step checked r;
      finish (Goes (add_result (NewMetaStepExecutionResult (Id step) (Kind step) "completed" "" false) r) true)
  end.

(** ** [tool_call] *)

(** The status and failure code recorded for a tool's or skill's answer, and
    whether the step completed. *)
Definition judge_result (step : MetaSkillStepDefinition) (t : ToolExecutionResult) : bool * string * string :=
  let completed := bool_decide (ResultStatus t = "completed") in
  match TryValidateMetaStepOutput parse step (ResultText t) with
  | Ok _ => (completed, ResultStatus t, "")
  | Fail failureCode => (false, if completed then "failed" else ResultStatus t, failureCode)
  end.

Definition run_tool_call (step : MetaSkillStepDefinition) (continueOnError : bool) (context : MetaExecutionContext)
    (r : run) : option (go flow) :=
  let toolName := Tool step in
  let no_capability := bool_decide (CapabilityRef step = None) in
  if negb (bool_decide (toolName = "")) && no_capability
  then finish (return_error r (meta_step step "is 'tool_call' but does not declare a tool.") false)
  else if no_capability && negb (bool_decide (ToolAllowlist step = [])) && negb (bool_decide (toolName ∈ ToolAllowlist step))
  then finish (return_error
         (add_result (NewMetaStepExecutionResult (Id step) (Kind step) "blocked" "tool_not_allowlisted" false) r)
         (meta_step step ("tool '" +:+ toolName +:+ "' is not allowlisted.")) false)
  else if no_capability && negb (IsToolAllowedByMetaCapabilities (Capabilities metaSkill) toolName)
  then
    let s := sets r in
    finish (return_error
      (add_result (NewMetaStepExecutionResult (Id step) (Kind step) "blocked" "metadata_capability_denied" false)
        (set_sets (MkSets (pending s ∖ {[Id step]}) (blocked s) (outputs s) (failureAliases s)) r))
      (meta_step step ("tool '" +:+ toolName +:+ "' is not permitted by metadata capabilities.")) false)
  else
    let compositionToolArgsJSON := match Composition metaSkill with Some c => CompositionToolArgs c | None => TBlank end in
    match ResolveToolArguments compositionToolArgsJSON (WithJSON step) (ToolArgsJSON step) context with
    | Fail _ => finish (return_error r (meta_step step "declared invalid tool arguments.") false)
    | Ok toolArgsJson =>
        '(toolResult, w) ←!
          Some (if no_capability
                then ExecuteMetaToolStepWithPolicy sleep (ExecuteTool step toolName toolArgsJson) (timeout_text step) step (world r)
                else ExecuteMetaCapabilityStepWithPolicy sleep (ExecuteGoverned step toolArgsJson) (timeout_text step)
                       capability_configured step (world r));
        let r := set_world w r in
        match toolResult with
        | Fail _ => finish (return_error r (meta_step step "exec error.") false)
        | Ok t =>
            let '(completed, resultStatus, failureCode) := judge_result step t in
            let result := NewMetaStepExecutionResult (Id step) (Kind step) resultStatus failureCode
                            (negb completed && continueOnError) in
            if completed : bool then
              r ←! complete_and_route step (ResultText t) (add_result result r); finish (Goes r true)
            else settle_failure step result continueOnError
                   (meta_step step ("failed with status '" +:+ ResultStatus t +:+ "'.")) (ResultText t) r
        end
    end.

(** ** [skill_exec] *)

(** [renderedStdin] is not rendered; its rendering replaces [renderedCwd]. *)
Definition run_skill_exec (step : MetaSkillStepDefinition) (continueOnError : bool) (r : run) : option (go flow) :=
  match (if bool_decide (Skill step = "") then None else find_skill LoadedSkills (Skill step)) with
  | None =>
      settle_failure step (step_failed step "skill_not_found" continueOnError) continueOnError
        (meta_step step ("references missing skill '" +:+ Skill step +:+ "'.")) "" r
  | Some delegatedSkill =>
      let renderedArgs := (λ argument, Render argument (sample r)) <$> SkillExecArgs step in
      let renderedCwd := if bool_decide (SkillExecCwd step = "") then "" else Render (SkillExecCwd step) (sample r) in
      let renderedStdin := SkillExecStdin step in
      let renderedCwd := if bool_decide (renderedStdin = "") then renderedCwd else Render renderedStdin (sample r) in
      '(t, w) ←! Some (ExecuteMetaSkillExecStepWithPolicy sleep
                    (ExecuteSkillEntrypoint delegatedSkill step renderedArgs renderedCwd renderedStdin) step (world r));
      let r := set_world w r in
      let '(completed, resultStatus, failureCode) := judge_result step t in
      let result := MkResult (Id step) (Kind step) resultStatus failureCode (negb completed && continueOnError)
        (BuildSkillExecExecutionEvidence (SkillExecEntrypoint step) renderedArgs renderedStdin (SkillExecParseMode step)) in
      if completed : bool then
        r ←! complete_and_route step (ResultText t) (add_result result r); finish (Goes r true)
      else settle_failure step result continueOnError
             (if bool_decide (FailureMessage t = "")
              then meta_step step ("failed with status '" +:+ ResultStatus t +:+ "'.") else FailureMessage t)
             (ResultText t) r
  end.

(** ** [agent], [llm_chat] and [llm_classify] *)

(** Call the model; a failure is settled here, an answer is handed on. *)
Definition with_answer (step : MetaSkillStepDefinition) (continueOnError : bool) (request : llm_request)
    (k : string → run → option (go flow)) (r : run) : option (go flow) :=
  '(answer, w) ←! Some (ExecuteMetaLlmStepWithPolicy sleep (CallLlm request) step (world r));
  let r := set_world w r in
  match answer with
  | Fail _ => finish (return_error r (meta_step step "exec error.") false)
  | Ok (LlmFailed code msg) =>
      let failureMessage := if bool_decide (msg = "") then meta_step step "failed before producing a response." else msg in
      settle_failure step (step_failed step code continueOnError) continueOnError failureMessage failureMessage r
  | Ok (LlmCompleted text) => k text r
  end.

Definition run_agent (step : MetaSkillStepDefinition) (continueOnError : bool) (stepInput : string) (r : run)
    : option (go flow) :=
  let delegatedSkill :=
    if bool_decide (Skill step = "") then None
    else snd <$> list_find (λ skill, DisableModelInvocation skill = false ∧ SkillName skill = Skill step) LoadedSkills in
  let delegatedInstructions := match delegatedSkill with Some s => BuildSkillBody s | None => "" end in
  let syscontent :=
    if bool_decide (delegatedInstructions = "")
    then "You are executing a meta-skill delegated step. Return only the final useful result for this step."
    else "You are executing a meta-skill delegated step. Follow the delegated skill instructions. Return only the final useful result for this step."
           +:+ String (byte 10) (String (byte 10) delegatedInstructions) in
  with_answer step continueOnError
    (MkLlm syscontent (if bool_decide (stepInput = "") then input else stepInput) ∅)
    (λ stepOutput, settle_output step continueOnError stepOutput stepOutput) r.

Definition run_llm_chat (step : MetaSkillStepDefinition) (stepArgs : gmap string json) (continueOnError : bool)
    (stepInput : string) (r : run) : option (go flow) :=
  let systemPrompt :=
    default "You are executing a meta-skill llm_chat step. Return only the final useful result for this step."
      (GetString sprint stepArgs "system_prompt") in
  with_answer step continueOnError (MkLlm systemPrompt stepInput stepArgs)
    (λ stepOutput, settle_output step continueOnError stepOutput stepOutput) r.

Definition BuildClassificationPrompt (text : string) (options : list string) : string :=
  "Classify the following text into exactly one label from [" +:+ JoinStrings options ", " +:+
  "]. Return only the label." +:+ String (byte 10) (String (byte 10) ("Text:" +:+ String (byte 10) text)).

(** A classified step completes, records its result and routes; then the legacy
    route map blocks the steps of the other labels. *)
Definition settle_label (step : MetaSkillStepDefinition) (stepArgs : gmap string json) (continueOnError : bool)
    (selectedLabel : string) (r : run) : option (go flow) :=
  match TryValidateMetaStepOutput parse step selectedLabel with
  | Fail failureCode =>
      settle_failure step (step_failed step failureCode continueOnError) continueOnError
        (meta_step step "failed output contract validation.") selectedLabel r
  | Ok _ =>
      r ←! complete_and_route step selectedLabel r;
      let r := add_result (NewMetaStepExecutionResult (Id step) (Kind step) "completed" "" false) r in
      let routeMap := TryGetRouteMap stepArgs in
      if bool_decide (routeMap = []) then finish (Goes r true)
      else
        match ApplyClassificationRouting selectedLabel routeMap (blocked (sets r)) (pending (sets r))
                dependentsByStep stepById with
        | None => None
        | Some (b, p) =>
            finish (Goes (set_sets (MkSets p b (outputs (sets r)) (failureAliases (sets r))) r) true)
        end
  end.

Definition run_llm_classify (step : MetaSkillStepDefinition) (stepArgs : gmap string json) (continueOnError : bool)
    (stepInput : string) (r : run) : option (go flow) :=
  let optionsValues := ParseStringArray sprint stepArgs "options" in
  if bool_decide (optionsValues = [])
  then finish (return_error r (meta_step step "is 'llm_classify' but does not declare non-empty options.") false)
  else
    with_answer step continueOnError
      (MkLlm "You are a strict classifier. Return exactly one label from the provided options."
         (BuildClassificationPrompt stepInput optionsValues) stepArgs)
      (λ rawLabel r,
        match TryResolveClassificationLabel rawLabel optionsValues with
        | None =>
            settle_failure step (step_failed step "invalid_classification" continueOnError) continueOnError
              (meta_step step "returned classification '{rawLabel}' outside declared options.") rawLabel r
        | Some selectedLabel => settle_label step stepArgs continueOnError selectedLabel r
        end) r.
(** ** [user_input] *)

Definition user_value (stepArgs : gmap string json) (stepInput : string) : string :=
  let or a b := if bool_decide (a = "") then b else a in
  or (Deref (GetString sprint stepArgs "value"))
    (or (Deref (GetString sprint stepArgs "default"))
      (or (Deref (GetString sprint stepArgs "default_input")) stepInput)).

(** Asking for input: the checkpoint is saved before the failure branch is
    tried, and the step completes without routing under [continueOnError]. *)
Definition ask_user (step : MetaSkillStepDefinition) (stepArgs : gmap string json) (continueOnError : bool) (r : run)
    : flow :=
  let prompt0 := Deref (GetString sprint stepArgs "prompt") in
  let prompt :=
    if bool_decide (prompt0 = "") then "Please provide input for step '" +:+ Id step +:+ "'." else prompt0 in
  let r := add_result (step_failed step "user_input_required" continueOnError) r in
  let r := set_session (SaveMetaExecutionCheckpoint (now (world r)) (session r) (SkillName metaSkill) (Id step) prompt
                          (sets r) (stepResults r)) r in
  let '(activated, s) := TryActivateFailureBranch step stepById (sets r) in
  if activated : bool then Goes (set_sets s r) true
  else if negb continueOnError then
    return_error r (meta_step step
      ("requires user input but no value/default is available in the current execution context. Prompt: " +:+ prompt)) true
  else Goes (set_sets (CompleteMetaStepOutput step "" (sets r)) r) true.

Definition clarify_failure (step : MetaSkillStepDefinition) (failureCode : string) : string :=
  if bool_decide (failureCode = "user_input_cancelled") then meta_step step "clarify input was cancelled."
  else if bool_decide (failureCode = "user_input_timeout") then meta_step step "clarify input timed out."
  else meta_step step "failed clarify validation.".

Definition accept_user_value (step : MetaSkillStepDefinition) (continueOnError : bool) (userValue : string) (r : run)
    : option (go flow) :=
  timedOut ←! Some (IsClarifyInputTimedOut (now (world r)) (session r) (SkillName metaSkill) step);
  if timedOut : bool then
    settle_failure step (step_failed step "user_input_timeout" continueOnError) continueOnError
      (meta_step step "clarify input timed out.") "" r
  else
    match match Clarify step with None => Ok userValue | Some c => ValidateAndNormalize userValue c end with
    | Fail failureCode =>
        settle_failure step (step_failed step failureCode continueOnError) continueOnError
          (clarify_failure step failureCode) userValue r
    | Ok normalized =>
        let normalizedUserValue := if bool_decide (normalized = "") then userValue else normalized in
        settle_output step continueOnError normalizedUserValue userValue r
    end.

(** The test is on a value that is there, not on one that is missing. *)
Definition run_user_input (step : MetaSkillStepDefinition) (stepArgs : gmap string json) (continueOnError : bool)
    (stepInput : string) (r : run) : option (go flow) :=
  let userValue := user_value stepArgs stepInput in
  skipClarify ←! Some
    match Clarify step with
    | Some c => if bool_decide (SkipIf c = "") then Done false else Evaluate (SkipIf c) (sample r)
    | None => Done false
    end;
  if negb (bool_decide (userValue = "")) then
    if skipClarify : bool then
      r ←! complete_and_route step "" r;
      finish (Goes (add_result (NewMetaStepExecutionResult (Id step) (Kind step) "completed" "" false) r) true)
    else finish (ask_user step stepArgs continueOnError r)
  else accept_user_value step continueOnError userValue r.

(** ** One step *)

Inductive readiness := BlockedByDependency | WaitingForDependency | Ready.

Fixpoint dependencies_state (r : run) (deps : list string) : readiness :=
  match deps with
  | [] => Ready
  | dependency :: deps =>
      if bool_decide (dependency ∈ blocked (sets r)) then BlockedByDependency
      else if bool_decide (outputs (sets r) !! dependency = None) then WaitingForDependency
      else dependencies_state r deps
  end.

Definition run_kind (step : MetaSkillStepDefinition) (stepArgs : gmap string json) (continueOnError : bool)
    (context : MetaExecutionContext) (r : run) : option (go flow) :=
  let stepInput := Render (default "" (GetString sprint stepArgs "input")) context in
  let kind := NormalizeMetaStepKind lower_rune (Kind step) in
  if bool_decide (kind = "tool_call") then run_tool_call step continueOnError context r
  else if bool_decide (kind = "skill_exec") then run_skill_exec step continueOnError r
  else if bool_decide (kind = "agent") then run_agent step continueOnError stepInput r
  else if bool_decide (kind = "llm_chat") then run_llm_chat step stepArgs continueOnError stepInput r
  else if bool_decide (kind = "llm_classify") then run_llm_classify step stepArgs continueOnError stepInput r
  else if bool_decide (kind = "user_input") then run_user_input step stepArgs continueOnError stepInput r
  else if bool_decide (kind = "fan_out") then finish (Goes r false)
  else finish (return_error r ("Meta step '" +:+ Id step +:+ "' has unsupported kind '" +:+ Kind step +:+ "'.") false).

(** The body of the loop over the steps. *)
Definition exec_step (step : MetaSkillStepDefinition) (r : run) : option (go flow) :=
  let s := sets r in
  if negb (bool_decide (Id step ∈ pending s)) then finish (Goes r false)
  else if bool_decide (Id step ∈ blocked s) then
    finish (Goes (set_sets (MkSets (pending s ∖ {[Id step]}) (blocked s) (outputs s) (failureAliases s)) r) true)
  else
    match dependencies_state r (DependsOn step) with
    | BlockedByDependency => r ←! block_step step r; finish (Goes r true)
    | WaitingForDependency => finish (Goes r false)
    | Ready =>
        let stepArgs := DeserializeMap (WithJSON step) in
        let context := MkContext input (outputs s) true in
        let continueOnError := default false (GetBool stepArgs "continue_on_error") in
        holds ←! Some (if bool_decide (When step = "") then Done true else Evaluate (When step) context);
        if negb holds then
          r ←! block_step step r;
          finish (Goes (add_result (NewMetaStepExecutionResult (Id step) (Kind step) "blocked" "condition_false" false) r) true)
        else run_kind step stepArgs continueOnError context r
    end.

Fixpoint step_loop (todo : list MetaSkillStepDefinition) (progress : bool) (r : run) : option (go flow) :=
  match todo with
  | [] => finish (Goes r progress)
  | step :: todo =>
      f ←! exec_step step r;
      match f with
      | Goes r p => step_loop todo (progress || p) r
      | Returns r text => finish (Returns r text)
      end
  end.

(** ** The parallel wave *)

(** The test on [blocked] lets only blocked steps through. *)
Definition wave_candidate (r : run) (step : MetaSkillStepDefinition) : go (option (MetaSkillStepDefinition * string * string)) :=
  let s := sets r in
  if negb (bool_decide (Id step ∈ pending s)) || negb (bool_decide (Id step ∈ blocked s)) then Done None
  else
    match dependencies_state r (DependsOn step) with
    | Ready =>
        if negb (bool_decide (NormalizeMetaStepKind lower_rune (Kind step) = "tool_call")) then Done None
        else if negb (bool_decide (OnFailure step = "")) || negb (bool_decide (Routes step = [])) then Done None
        else
          let stepArgs := DeserializeMap (WithJSON step) in
          if negb (default false (GetBool stepArgs "continue_on_error")) then Done None
          else
            holds ← (if bool_decide (When step = "") then Done true else Evaluate (When step) (sample r));
            if negb holds then Done None
            else if bool_decide (Tool step = "") then Done None
            else if negb (bool_decide (ToolAllowlist step = [])) && negb (bool_decide (Tool step ∈ ToolAllowlist step)) then Done None
            else if negb (IsToolAllowedByMetaCapabilities (Capabilities metaSkill) (Tool step)) then Done None
            else
              let compositionToolArgsJSON := match Composition metaSkill with Some c => CompositionToolArgs c | None => TBlank end in
              match ResolveToolArguments compositionToolArgsJSON (WithJSON step) (ToolArgsJSON step) (sample r) with
              | Fail _ => Done None
              | Ok toolArgsJson => Done (Some (step, Tool step, toolArgsJson))
              end
    | _ => Done None
    end.

Fixpoint wave_candidates (todo : list MetaSkillStepDefinition) (r : run)
    : go (list (MetaSkillStepDefinition * string * string)) :=
  match todo with
  | [] => Done []
  | step :: todo =>
      c ← wave_candidate r step;
      cs ← wave_candidates todo r;
      Done (match c with Some c => c :: cs | None => cs end)
  end.

(** The candidates run one after the other here; one whose call fails sends no
    execution. *)
Fixpoint wave_run (cs : list (MetaSkillStepDefinition * string * string)) (w : W)
    : go (list (MetaSkillStepDefinition * ToolExecutionResult) * W) :=
  match cs with
  | [] => Done ([], w)
  | (step, toolName, toolArgsJson) :: cs =>
      '(t, w) ← ExecuteMetaToolStepWithPolicy sleep (ExecuteTool step toolName toolArgsJson) (timeout_text step) step w;
      '(ts, w) ← wave_run cs w;
      Done (match t with Ok t => (step, t) :: ts | Fail _ => ts end, w)
  end.

Fixpoint wave_complete (executions : list (MetaSkillStepDefinition * ToolExecutionResult)) (r : run) : option (go run) :=
  match executions with
  | [] => finish r
  | (step, t) :: executions => r ←! complete_and_route step (ResultText t) r; wave_complete executions r
  end.

(** The results of a wave are appended to a copy of the slice and lost. *)
Definition TryExecuteParallelToolWave (r : run) : option (go (bool * run)) :=
  if Nat.ltb (size (pending (sets r))) 2 then finish (false, r)
  else
    candidates ←! Some (wave_candidates steps r);
    if Nat.ltb (length candidates) 2 then finish (false, r)
    else
      '(executions, w) ←! Some (wave_run candidates (world r));
      r ←! wave_complete executions (set_world w r);
      finish (true, r).

(** ** Fan-out *)

(** The answer of a child: output, failure code, or an error. *)
Inductive child_answer := ChildOutput (output failureCode : string) | ChildError (text : string).

(** The output of a model call that passes its contract is not kept. *)
Definition ExecuteFanOutChild (template : MetaSkillStepDefinition) (childId childInput : string)
    (childContext : MetaExecutionContext) (w : W) : go (child_answer * W) :=
  let kind := NormalizeMetaStepKind lower_rune (Kind template) in
  let child := MkStep childId (Kind template) "" "" "" None [] "" "" "" TBlank "" TBlank [] [] None [] [] ""
                 (TimeoutSeconds template) (Retry template) None "" 0 None "" in
  let toolName := Tool template in
  if bool_decide (kind = "tool_call") then
    if bool_decide (toolName = "") then
      Done (ChildOutput ("Error: fan-out child step '" +:+ childId +:+ "' is 'tool_call' but does not declare a tool.") "missing_tool", w)
    else if negb (bool_decide (ToolAllowlist template = [])) && negb (bool_decide (toolName ∈ ToolAllowlist template)) then
      Done (ChildOutput ("Error: tool '" +:+ toolName +:+ "' is not allowlisted for fan-out child step '" +:+ childId +:+ "'.")
        "tool_not_allowlisted", w)
    else if negb (IsToolAllowedByMetaCapabilities (Capabilities metaSkill) toolName) then
      Done (ChildOutput ("Error: tool '" +:+ toolName +:+ "' is not permitted by metadata capabilities for fan-out child step '"
        +:+ childId +:+ "'.") "metadata_capability_denied", w)
    else
      match ResolveToolArguments TBlank (WithJSON template) (ToolArgsJSON template) childContext with
      | Fail _ => Done (ChildOutput ("Error: invalid tool arguments for child step '" +:+ childId +:+ "'.") "invalid_tool_args", w)
      | Ok toolArgsJson =>
          '(t, w) ← ExecuteMetaToolStepWithPolicy sleep (ExecuteTool child toolName toolArgsJson) (timeout_text child) child w;
          match t with
          | Fail e => Done (ChildError e, w)
          | Ok t =>
              match TryValidateMetaStepOutput parse template (ResultText t) with
              | Ok _ => Done (ChildOutput (ResultText t) "", w)
              | Fail failureCode => Done (ChildOutput (ResultText t) failureCode, w)
              end
          end
      end
  else if bool_decide (kind = "llm_chat") then
    let stepArgs := DeserializeMap (WithJSON template) in
    let systemPrompt := default "Return the result for this step." (GetString sprint stepArgs "system_prompt") in
    '(answer, w) ← ExecuteMetaLlmStepWithPolicy sleep (CallLlm (MkLlm systemPrompt childInput stepArgs)) child w;
    match answer with
    | Fail e => Done (ChildError e, w)
    | Ok (LlmFailed code msg) => Done (ChildOutput msg code, w)
    | Ok (LlmCompleted op) =>
        match TryValidateMetaStepOutput parse template op with
        | Ok _ => Done (ChildOutput "" "", w)
        | Fail failureCode => Done (ChildOutput op failureCode, w)
        end
    end
  else Done (ChildOutput ("Error: unsupported fan_out child kind '" +:+ Kind template +:+ "'.") "unsupported_child_kind", w).

Record batchResult := MkBatch { b_id : string; b_output : string; b_status : string; b_failureCode : string }.

(** One child; a cancelled run sends nothing, and the template is dereferenced
    otherwise.  The logger the runtime passes
    calls [Error] on the error it is given, which is nil for a failure code. *)
Definition run_child (fanOutStep : MetaSkillStepDefinition) (template : option MetaSkillStepDefinition) (outs : gmap string string) (index : nat)
    (item : string) (w : W) : go (option batchResult * W) :=
  if cancelled w then Done (None, w)
  else match template with None => Panic | Some template =>
    let childId := Id fanOutStep +:+ "_" +:+ Itoa (Z.of_nat index) in
    '(answer, w) ← ExecuteFanOutChild template childId item (MkContext item outs false) w;
    match answer with
    | ChildError text => Done (Some (MkBatch childId text "failed" "child_step_failed"), w)
    | ChildOutput output failureCode =>
        if negb (IsBlank failureCode) then Panic
        else Done (Some (MkBatch childId output ToolResultStatusesCompleted ""), w)
    end
  end.

(** The children in the order of their items; batches only bound how many run
    at a time. *)
Fixpoint run_children (fanOutStep : MetaSkillStepDefinition) (template : option MetaSkillStepDefinition) (outs : gmap string string) (index : nat)
    (items : list string) (w : W) : go (list batchResult * W) :=
  match items with
  | [] => Done ([], w)
  | item :: items =>
      '(b, w) ← run_child fanOutStep template outs index item w;
      '(bs, w) ← run_children fanOutStep template outs (S index) items w;
      Done (match b with Some b => b :: bs | None => bs end, w)
  end.

Definition getOptionalBoolean (args : gmap string json) (key : string) : bool :=
  match args !! key with
  | Some (JBool b) => b
  | Some (JStr s) => bool_decide (ToLower lower_rune s = "true")
  | _ => false
  end.

Definition merge_outputs (mode : string) (orderedOutputs : list string) : string :=
  if bool_decide (mode = "json_array") then marshal (JArr (JStr <$> orderedOutputs))
  else if bool_decide (mode = "first") then default "" (head orderedOutputs)
  else if bool_decide (mode = "last") then default "" (last orderedOutputs)
  else JoinStrings orderedOutputs (String (byte 10) "").

Definition fan_out_ready (r : run) (step : MetaSkillStepDefinition) : bool :=
  bool_decide (Id step ∈ pending (sets r)) && negb (bool_decide (Id step ∈ blocked (sets r))) &&
  bool_decide (NormalizeMetaStepKind lower_rune (Kind step) = "fan_out") &&
  match dependencies_state r (DependsOn step) with Ready => true | _ => false end.

Definition completed_result (step : MetaSkillStepDefinition) : MetaStepExecutionResult :=
  NewMetaStepExecutionResult (Id step) (Kind step) ToolResultStatusesCompleted "" false.

(** The children ran; [r] has their results. *)
Definition settle_fan_out (step : MetaSkillStepDefinition) (continueOnError : bool) (items : list string)
    (children : list batchResult) (r : run) : option (go run) :=
  let anyChildFailed :=
    negb continueOnError &&
    existsb (λ result, HasPrefix (ResId result) (Id step +:+ "_") && bool_decide (ResStatus result = "failed")) (stepResults r) in
  if anyChildFailed then
    let r := add_result (NewMetaStepExecutionResult (Id step) (Kind step) "failed" "child_step_failed" false) r in
    let '(activated, s) := TryActivateFailureBranch step stepById (sets r) in
    if activated : bool then finish (set_sets s r) else block_step step r
  else
    let childOutputs : gmap string string := foldl (λ m b, <[b_id b := b_output b]> m) ∅ children in
    let orderedOutputs :=
      imap (λ i _, default "" (childOutputs !! (Id step +:+ "_" +:+ Itoa (Z.of_nat i)))) items in
    r ←! complete_and_route step (merge_outputs (FanOutMergeMode step) orderedOutputs) r;
    finish (add_result (completed_result step) r).

Definition TryExecuteFanOutStep (r : run) : option (go (bool * run)) :=
  match list_find (λ step, fan_out_ready r step = true) steps with
  | None => finish (false, r)
  | Some (_, fanOutStep) =>
      let context := sample r in
      let continueOnError := getOptionalBoolean (DeserializeMap (WithJSON fanOutStep)) "continue_on_error" in
      holds ←! Some (if bool_decide (When fanOutStep = "") then Done true else Evaluate (When fanOutStep) context);
      if negb holds then
        r ←! block_step fanOutStep r;
        finish (true, add_result
          (NewMetaStepExecutionResult (Id fanOutStep) (Kind fanOutStep) "blocked" "condition_false" false) r)
      else
        match parse (Render (Iterable fanOutStep) context) ≫= as_strings with
        | None =>
            let r := add_result (NewMetaStepExecutionResult (Id fanOutStep) (Kind fanOutStep) "failed" "iterable_eval_failed" false) r in
            let s := sets r in
            finish (true, set_sets (MkSets (pending s ∖ {[Id fanOutStep]}) (blocked s) (outputs s) (failureAliases s)) r)
        | Some [] =>
            let emptyOutput := if bool_decide (FanOutMergeMode fanOutStep = "json_array") then "[]" else "" in
            r ←! complete_and_route fanOutStep emptyOutput r;
            finish (true, add_result (completed_result fanOutStep) r)
        | Some items =>
            let template := FanOutTemplate fanOutStep in
            let kind := match template with Some t => Kind t | None => "" end in
            '(children, w) ←! Some (run_children fanOutStep template (outputs (sets r)) 0 items (world r));
            let r := foldl (λ r b, add_result
              (NewMetaStepExecutionResult (b_id b) kind (b_status b) (b_failureCode b) continueOnError) r)
              (set_world w r) children in
            r ←! settle_fan_out fanOutStep continueOnError items children r;
            finish (true, r)
        end
  end.

(** ** The run *)

(** The end of the run: the last executed step's output, by the mode. *)
Definition finish_run (r : run) : flow :=
  let executedStepIds := filter (λ id, is_Some (outputs (sets r) !! id)) (Id <$> steps) in
  let finalText := ResolveMetaFinalText (FinalTextMode metaSkill) (outputs (sets r)) executedStepIds in
  let '(s, text) := ReturnMetaExecutionOutput structured (session r) metaSkill finalText (stepResults r) "" false in
  Returns (set_session s r) text.

(** [None]: still running when the fuel ends. *)
Fixpoint run_loop (fuel : nat) (r : run) : option (go (run * string)) :=
  match fuel with
  | O => None
  | S fuel =>
      let done (f : flow) := match f with Returns r text => finish (r, text) | Goes r _ => run_loop fuel r end in
      if bool_decide (pending (sets r) = ∅) then done (finish_run r)
      else
        '(waved, r) ←! TryExecuteParallelToolWave r;
        if waved : bool then run_loop fuel r
        else
          '(fanned, r) ←! TryExecuteFanOutStep r;
          if fanned : bool then run_loop fuel r
          else
            f ←! step_loop steps false r;
            match f with
            | Returns r text => finish (r, text)
            | Goes r true => run_loop fuel r
            | Goes r false =>
                let remaining :=
                  filter (λ id, id ∈ pending (sets r) ∧ id ∉ blocked (sets r)) (Id <$> steps) in
                done (if bool_decide (remaining = []) then finish_run r
                      else return_error r ("Meta execution graph stalled. Remaining unresolved steps: " +:+
                             JoinStrings remaining ", " +:+ ".") false)
            end
  end.
End Plan.

(** ** [ExecuteMetaSkill] *)

(** What happens to a resumed run before its loop starts. *)
Definition resume `{P : RunPlan} (waitingPrompt : string) (r : run) : go flow :=
  let resumedStepId := match MetaExecutionCheckpoint (session r) with Some c => cp_PendingStepId c | None => "" end in
  let resumedStep :=
    if bool_decide (resumedStepId = "") then None
    else snd <$> list_find (λ step, Id step = resumedStepId) steps in
  resumedSkipClarify ←
    match resumedStep with
    | None => Panic
    | Some step =>
        match Clarify step with
        | None => Panic
        | Some c => Done (negb (bool_decide (SkipIf c = "")))
        end
    end;
  let prompt := if bool_decide (waitingPrompt = "") then "Meta execution is waiting for user input to continue." else waitingPrompt in
  if bool_decide (input = "") then
    match resumedStep with
    | None => Done (Goes r true)
    | Some step =>
        timedOut ← IsClarifyInputTimedOut (now (world r)) (session r) (SkillName metaSkill) step;
        if timedOut : bool then
          let r := add_result (NewMetaStepExecutionResult (Id step) (Kind step) "failed" "user_input_timeout" false) r in
          let '(activated, s) := TryActivateFailureBranch step stepById (sets r) in
          if activated : bool
          then Done (Goes (set_session (ClearMetaExecutionCheckpoint (session r) (SkillName metaSkill)) (set_sets s r)) true)
          else Done (return_error r (meta_step step "clarify input timed out.") false)
        else Done (Goes r true)
    end
  else if resumedSkipClarify : bool
  then Done (Goes (set_session (ClearMetaExecutionCheckpoint (session r) (SkillName metaSkill)) r) true)
  else Done (return_error r prompt true).

Definition find_meta_skill (skills : list SkillDefinition) (skillName : string) : option SkillDefinition :=
  snd <$> list_find (λ skill, SkillKindOf skill = SkillKind_Meta ∧ DisableModelInvocation skill = false ∧
                       SkillName skill = skillName) skills.

Definition ExecuteMetaSkill (fuel : nat) (metaSkillsEnabled : bool) (skills : list SkillDefinition)
    (skillName text : string) (sess : MetaSession) (w : W) : option (go (string * MetaSession * W)) :=
  if negb metaSkillsEnabled then
    finish ("Error: Meta skill invocation is disabled by runtime policy.", sess, w)
  else
    match find_meta_skill skills skillName with
    | None => finish ("Error: Meta skill '" +:+ skillName +:+ "' was not found.", sess, w)
    | Some skill =>
        let plan := match Composition skill with Some c => Steps c | None => [] end in
        if bool_decide (plan = []) then
          finish ("Error: Meta skill '" +:+ SkillName skill +:+ "' has no executable composition steps.", sess, w)
        else
          match TryValidateMetaPlan plan skills with
          | None => None
          | Some (Fail e) =>
              let '(s, out) := ReturnMetaExecutionOutput structured sess skill "" [] e false in
              finish (out, s, w)
          | Some (Ok _) =>
              let byId := index_steps (λ id, id) plan in
              let failureBranchTargets := fallbacks plan in
              let rawPending := dom byId ∖ list_to_set failureBranchTargets in
              let P := MkRunPlan skills skill text plan byId (BuildDependentsIndex plan) in
              let '(sess, st, results, resumed) :=
                TryRestoreMetaExecutionCheckpoint (now w) sess (SkillName skill) (dom byId) rawPending in
              let r := MkRun st results sess w in
              start ←! Some
                match resumed with
                | Some waitingPrompt => resume waitingPrompt r
                | None =>
                    let '(b, p) := ApplyInitialRoutingBlocks plan (blocked st) (pending st) in
                    Done (Goes (set_sets (MkSets p b (outputs st) (failureAliases st)) r) true)
                end;
              match start with
              | Returns r out => finish (out, session r, world r)
              | Goes r _ =>
                  '(r, out) ←! run_loop fuel r;
                  finish (out, session r, world r)
              end
          end
    end.
End Run.
