(* ===== verification/MetaRunSpec.v ===== *)
(** What runs of meta-skill plans do: theorems about [MetaRun.v].

    Every round of a step that makes progress moves the sets of the run in one
    of two ways, [moved]; from this follow that no step is ever pending and
    blocked, so that the parallel wave never runs, and that the run of a plan
    without routes ends. *)

From S2P Require Import Prelude GoStrings Json MetaPlan MetaLoader MetaPolicy MetaRun.
From stdpp Require Import fin_maps.

Section RunSpec.
Context {W : Type} `{E : MetaEnv W} `{P : RunPlan}.
Context (index_built : dependentsByStep = BuildDependentsIndex MetaRun.steps).
Implicit Types (r : run (W := W)) (s : run_sets) (step : MetaSkillStepDefinition).

(** No step is pending and blocked. *)
Definition apart s : Prop := pending s ## blocked s.

(** The failure branch [f] of [step] takes its place. *)
Definition branch_of step (f : string) : Prop :=
  f = TrimSpace (OnFailure step) ∧ f ≠ "" ∧ is_Some (stepById !! f).

(** What a round with progress does to the sets. *)
Record moved step s s' : Prop := {
  moved_apart : apart s → apart s';
  moved_pending : Routes step = [] →
    pending s' ⊆ pending s ∖ {[Id step]} ∨
    ∃ f, branch_of step f ∧ pending s' ⊆ {[f]} ∪ (pending s ∖ {[Id step]}) }.

(** The result of a round: the run returns or panics, goes on as it was, or
    goes on with progress. *)
Definition good step r (o : option (go (flow (W := W)))) : Prop :=
  match o with
  | None => False
  | Some (Done (Goes r' true)) => moved step (sets r) (sets r')
  | Some (Done (Goes r' false)) => r' = r
  | _ => True
  end.

(** The same for a part of a round. *)
Definition good_run step r (o : option (go (run (W := W)))) : Prop :=
  match o with None => False | Some (Done r') => moved step (sets r) (sets r') | _ => True end.

Lemma good_bind step r o (f : run → run) : good_run step r o → (∀ r', sets (f r') = sets r') →
  good step r (r' ←! o; finish (Goes (f r') true)).
Proof. intros H Hf. destruct o as [[r' | |] |]; simpl in *; [by rewrite Hf | done..]. Qed.

Lemma complete_moved step output s :
  apart s → apart (CompleteMetaStepOutput step output s).
Proof. unfold apart, CompleteMetaStepOutput. simpl. set_solver. Qed.

Lemma complete_and_route_good step output r r0 : sets r0 = sets r → good_run step r (complete_and_route step output r0).
Proof.
  intros Hr. unfold complete_and_route. rewrite index_built. rewrite Hr.
  set (s1 := CompleteMetaStepOutput step output (sets r)). unfold set_sets at 1 2 3 4. cbn [sets].
  unfold ApplyCompletionRouting. destruct (Routes step) as [| route routes] eqn:Hroutes.
  { cbn. split; [intros H; by apply complete_moved |]. intros _. left. done. }
  destruct (SelectNextStep _ step) as [sel | |]; [| done..]. cbn [mbind go_bind].
  destruct (routes_spec EqualFoldU (λ _, Panic) stepById MetaRun.steps sel (route :: routes) (blocked s1) (pending s1))
    as (b & p & Hrs & Hx).
  match goal with |- context [foldl ?f ?a ?l] => replace (foldl f a l) with (Some (b, p)) by (symmetry; exact Hrs) end.
  cbn. split; [| by rewrite Hroutes]. intros Hap. apply (complete_moved step output) in Hap. fold s1 in Hap.
  unfold apart in *. intros x Hp Hb. destruct (Hx x) as [Hc Hn].
  destruct (chosen_dec EqualFoldU sel x) as [Hch | Hch].
  - destruct (Hc Hch) as [Hb' Hp']. apply Hb' in Hb as [Hb Ht]. apply Hp' in Hp as [? | Hp]; [done |]. by apply (Hap x).
  - destruct (Hn Hch) as [Hb' Hp']. apply Hp' in Hp as [Hp [Hb0 | Ht]]; [by apply (Hap x) |].
    apply Hb' in Hb as [? | Hb]; [done |]. by apply (Hap x).
Qed.

Lemma block_step_good step r : Id step ∉ blocked (sets r) → good_run step r (block_step step r).
Proof.
  intros Hb. unfold block_step. rewrite index_built, block_with_built_index, bool_decide_eq_false_2 by done.
  cbn. split; [unfold apart; simpl; set_solver | intros _; by left].
Qed.

Lemma activate_moved step s s' :
  TryActivateFailureBranch step stepById s = (true, s') → moved step s s'.
Proof.
  unfold TryActivateFailureBranch. case_bool_decide as Hf; [done |].
  destruct (stepById !! TrimSpace (OnFailure step)) as [sub |] eqn:Hs; [| done]. intros [= <-].
  split; [unfold apart; simpl; set_solver |]. intros _. right. exists (TrimSpace (OnFailure step)). simpl.
  split; [| done]. by split_and!; eauto.
Qed.

Lemma settle_failure_good step result c e out r r0 : sets r0 = sets r →
  good step r (settle_failure step result c e out r0).
Proof.
  intros Hr. unfold settle_failure. cbn [sets add_result]. rewrite Hr.
  destruct (TryActivateFailureBranch step stepById (sets r)) as [act s'] eqn:Hact. destruct act.
  { cbn. by eapply activate_moved. }
  destruct c; cbn [negb].
  - by apply (good_bind step r _ (λ r, r)); [apply complete_and_route_good |].
  - unfold return_error. by destruct (ReturnMetaExecutionOutput _ _ _ _ _ _ _).
Qed.

Lemma return_error_good step r r0 e p : good step r (finish (return_error r0 e p)).
Proof. unfold return_error. by destruct (ReturnMetaExecutionOutput _ _ _ _ _ _ _). Qed.

Lemma settle_output_good step c checked out r r0 : sets r0 = sets r →
  good step r (settle_output step c checked out r0).
Proof.
  intros Hr. unfold settle_output. destruct (TryValidateMetaStepOutput _ _ _) as [[] | code].
  - by apply good_bind; [apply complete_and_route_good |].
  - by apply settle_failure_good.
Qed.

(** ** Every kind of step *)

Lemma run_tool_call_good step c ctx r : good step r (run_tool_call step c ctx r).
Proof.
  unfold run_tool_call. repeat (case_match; [apply return_error_good |]).
  destruct (ResolveToolArguments _ _ _ _) as [args | e]; [| apply return_error_good].
  destruct (if bool_decide (CapabilityRef step = None) then _ else _) as [[[t | e] w] | |];
    cbn [fueled_bind]; [| apply return_error_good | done..].
  destruct (judge_result step t) as [[[] st] code].
  - by apply (good_bind step r _ (λ r, r)); [apply complete_and_route_good |].
  - by apply settle_failure_good.
Qed.

Lemma run_skill_exec_good step c r : good step r (run_skill_exec step c r).
Proof.
  unfold run_skill_exec. destruct (if bool_decide (Skill step = "") then _ else _); [| by apply settle_failure_good].
  cbv zeta. destruct (ExecuteMetaSkillExecStepWithPolicy _ _ _ _) as [[t w] | |]; cbn [fueled_bind]; [| done..].
  destruct (judge_result step t) as [[[] st] code].
  - by apply (good_bind step r _ (λ r, r)); [apply complete_and_route_good |].
  - by apply settle_failure_good.
Qed.

Lemma with_answer_good step c req k r :
  (∀ text r0, sets r0 = sets r → good step r (k text r0)) → good step r (with_answer step c req k r).
Proof.
  intros Hk. unfold with_answer.
  destruct (ExecuteMetaLlmStepWithPolicy _ _ _ _) as [[[[text | code msg] | e] w] | |]; cbn [fueled_bind]; [| | | done..].
  - by apply Hk.
  - by apply settle_failure_good.
  - apply return_error_good.
Qed.

(** Blocking the targets of other labels leaves fewer steps pending. *)
Lemma block_all_apart targets : ∀ b p,
  ∃ b' p', block_all targets stepById (BuildDependentsIndex MetaRun.steps) (b, p) = Some (b', p') ∧
    p' ⊆ p ∧ (p ## b → p' ## b').
Proof.
  unfold block_all. induction targets as [| t targets IH]; intros b p; [by exists b, p |].
  cbn [foldl mbind option_bind]. destruct (stepById !! t); [| apply IH].
  rewrite block_with_built_index.
  destruct (IH ({[t]} ∪ b) (if bool_decide (t ∈ b) then p else p ∖ {[t]})) as (b' & p' & Hbl & Hp & Hap).
  exists b', p'. split; [exact Hbl |]. revert Hp Hap. case_bool_decide; intros Hp Hap; split; set_solver.
Qed.

Lemma classification_routing_apart label routeMap b p :
  ∃ b' p', ApplyClassificationRouting label routeMap b p (BuildDependentsIndex MetaRun.steps) stepById = Some (b', p') ∧
    p' ⊆ p ∧ (p ## b → p' ## b').
Proof.
  unfold ApplyClassificationRouting.
  match goal with |- context [foldl ?f _ routeMap] => set (F := f) end.
  assert (∃ b' p', foldl F (Some (b, p)) routeMap = Some (b', p') ∧ p' ⊆ p ∧ (p ## b → p' ## b'))
    as (b' & p' & -> & Hp & Hap).
  { revert b p. induction routeMap as [| [l ts] routeMap IH]; intros b p; [by exists b, p |].
    cbn [foldl F mbind option_bind]. case_bool_decide; [apply IH |].
    destruct (block_all_apart ts b p) as (b1 & p1 & -> & Hp1 & Hap1).
    destruct (IH b1 p1) as (b2 & p2 & -> & Hp2 & Hap2). exists b2, p2. split; [done |]. split; [set_solver | auto]. }
  eexists _, _. split; [done |]. split; [done |]. set_solver.
Qed.

Lemma settle_label_good step args c label r r0 : sets r0 = sets r → good step r (settle_label step args c label r0).
Proof.
  intros Hr. unfold settle_label. destruct (TryValidateMetaStepOutput _ _ _) as [[] | code];
    [| by apply settle_failure_good].
  pose proof (complete_and_route_good step label r r0 Hr) as Hg.
  destruct (complete_and_route step label r0) as [[r1 | |] |]; cbn [fueled_bind]; [| done..].
  cbn zeta. case_bool_decide; [exact Hg |]. cbn [sets add_result]. rewrite index_built.
  destruct (classification_routing_apart label (TryGetRouteMap args) (blocked (sets r1)) (pending (sets r1)))
    as (b & p & -> & Hp & Hap). cbn. destruct Hg as [Hg1 Hg2]. split.
  - intros Ha. unfold apart in *. simpl. auto.
  - intros Hroutes. simpl. destruct (Hg2 Hroutes) as [? | (f & Hf & ?)]; [left | right; exists f; split; [done |]]; set_solver.
Qed.

Lemma run_llm_classify_good step args c text r : good step r (run_llm_classify step args c text r).
Proof.
  unfold run_llm_classify. cbn zeta. case_bool_decide; [apply return_error_good |].
  apply with_answer_good. intros raw r0 Hr. destruct (TryResolveClassificationLabel raw _).
  - by apply settle_label_good.
  - by apply settle_failure_good.
Qed.

Lemma run_user_input_good step args c text r : good step r (run_user_input step args c text r).
Proof.
  unfold run_user_input. cbn zeta.
  destruct (match Clarify step with Some _ => _ | None => _ end) as [skip | |]; cbn [fueled_bind]; [| done..].
  case_bool_decide; cbn [negb].
  - unfold accept_user_value. destruct (IsClarifyInputTimedOut _ _ _ _) as [[] | |]; cbn [fueled_bind]; [| | done..].
    + by apply settle_failure_good.
    + destruct (match Clarify step with Some _ => _ | None => _ end).
      * by apply settle_output_good.
      * by apply settle_failure_good.
  - destruct skip.
    + by apply good_bind; [apply complete_and_route_good |].
    + unfold ask_user. cbv zeta. cbn [sets set_session add_result].
      destruct (TryActivateFailureBranch step stepById (sets r)) as [[] s'] eqn:Hact; [by eapply activate_moved |].
      destruct c; cbn [negb]; [| apply return_error_good].
      cbn. split; [by apply complete_moved | intros _; by left].
Qed.

Lemma run_kind_good step args c ctx r : good step r (run_kind step args c ctx r).
Proof.
  unfold run_kind. cbn zeta. repeat case_bool_decide.
  - apply run_tool_call_good.
  - apply run_skill_exec_good.
  - apply with_answer_good. intros. by apply settle_output_good.
  - apply with_answer_good. intros. by apply settle_output_good.
  - apply run_llm_classify_good.
  - apply run_user_input_good.
  - done.
  - apply return_error_good.
Qed.

(** A round that makes progress is a round of a step that was pending. *)
Lemma exec_step_good step r : good step r (exec_step step r) ∧
  ∀ r', exec_step step r = finish (Goes r' true) → Id step ∈ pending (sets r).
Proof.
  unfold exec_step. cbv zeta. case_bool_decide as Hp; cbn [negb]; [| split; [done | by intros ?]].
  split; [| done]. case_bool_decide as Hb.
  { cbn. split; [unfold apart; simpl; set_solver | intros _; by left]. }
  destruct (dependencies_state r (DependsOn step)).
  - by apply (good_bind step r _ (λ r, r)); [apply block_step_good |].
  - done.
  - destruct (if bool_decide (When step = "") then _ else _) as [[] | |]; cbn [fueled_bind negb]; [| | done..].
    + apply run_kind_good.
    + by apply good_bind; [apply block_step_good |].
Qed.

(** ** The parallel wave never runs *)

Lemma wave_candidates_none todo r : apart (sets r) → wave_candidates todo r = Done [].
Proof.
  intros Hap. induction todo as [| step todo IH]; [done |]. simpl.
  assert (wave_candidate r step = Done None) as ->.
  { unfold wave_candidate. cbv zeta. case_bool_decide as Hp; [| done]. case_bool_decide as Hb; [| done].
    by destruct (Hap (Id step)). }
  cbn [mbind go_bind]. rewrite IH. done.
Qed.

Lemma wave_never_runs r : apart (sets r) → TryExecuteParallelToolWave r = finish (false, r).
Proof.
  intros Hap. unfold TryExecuteParallelToolWave. case_match; [done |]. by rewrite wave_candidates_none.
Qed.

(** ** The loop over the steps *)

Lemma step_loop_apart todo : ∀ progress r, apart (sets r) →
  ∃ o, step_loop todo progress r = Some o ∧
    match o with Done (Goes r' _) => apart (sets r') | _ => True end.
Proof.
  induction todo as [| step todo IH]; intros progress r Hap; [by exists (Done (Goes r progress)) |]. simpl.
  destruct (exec_step_good step r) as [Hg _].
  destruct (exec_step step r) as [[[r' p | r' text] | |] |]; cbn [fueled_bind]; [| | | | done]; try by eexists.
  apply IH. destruct p; simpl in Hg; [by apply Hg | by subst].
Qed.

(** ** Fan-out *)

Lemma add_children_sets (f : batchResult → MetaStepExecutionResult) bs : ∀ r,
  sets (foldl (λ r b, add_result (f b) r) r bs) = sets r.
Proof. induction bs as [| b bs IH]; intros r; [done |]. simpl. by rewrite IH. Qed.

Lemma settle_fan_out_good step c items bs r r0 : sets r0 = sets r → Id step ∉ blocked (sets r) →
  good_run step r (settle_fan_out step c items bs r0).
Proof.
  intros Hr Hb. unfold settle_fan_out. cbv zeta. case_match.
  - cbn [sets add_result]. rewrite Hr.
    destruct (TryActivateFailureBranch step stepById (sets r)) as [[] s'] eqn:Hact; [by eapply activate_moved |].
    match goal with |- good_run _ _ (block_step _ ?r1) => assert (Hs : sets r1 = sets r) by done;
      pose proof (block_step_good step r1) as Hg end.
    rewrite Hs in Hg. unfold good_run in *. rewrite Hs in Hg. by apply Hg.
  - match goal with |- good_run _ _ (fueled_bind (complete_and_route _ ?out _) _) =>
      pose proof (complete_and_route_good step out r r0 Hr) as Hg;
      destruct (complete_and_route step out r0) as [[r1 | |] |] end; by simpl in *.
Qed.

Definition good_fan step r (o : option (go (bool * run (W := W)))) : Prop :=
  match o with None => False | Some (Done (b, r')) => b = true ∧ moved step (sets r) (sets r') | _ => True end.

Lemma good_fan_bind step r o (f : run → run) : good_run step r o → (∀ r', sets (f r') = sets r') →
  good_fan step r (r' ←! o; finish (true, f r')).
Proof. intros H Hf. destruct o as [[r' | |] |]; simpl in *; [by rewrite Hf | done..]. Qed.

(** The step a fan-out round is about was pending. *)
Lemma fan_out_good r :
  TryExecuteFanOutStep r = finish (false, r) ∨
  ∃ step, step ∈ MetaRun.steps ∧ Id step ∈ pending (sets r) ∧ good_fan step r (TryExecuteFanOutStep r).
Proof.
  unfold TryExecuteFanOutStep.
  destruct (list_find _ MetaRun.steps) as [[i step] |] eqn:Hfind; [right | by left].
  apply list_find_Some in Hfind as (Hi & Hready & _). apply list_elem_of_lookup_2 in Hi.
  unfold fan_out_ready in Hready. apply andb_prop in Hready as [Hready _].
  apply andb_prop in Hready as [Hready _]. apply andb_prop in Hready as [Hp%bool_decide_eq_true Hb].
  apply negb_true_iff, bool_decide_eq_false in Hb.
  exists step. split; [done |]. split; [done |]. cbv zeta.
  destruct (if bool_decide (When step = "") then _ else _) as [holds | |]; cbn [fueled_bind]; [| done..].
  destruct holds; cbn [negb]; [| by apply good_fan_bind; [apply block_step_good |]].
  destruct (parse _ ≫= as_strings) as [[| item items] |].
  - by apply good_fan_bind; [apply complete_and_route_good |].
  - destruct (run_children _ _ _ _ _ _) as [[bs w] | |]; cbn [fueled_bind]; [| done..].
    apply (good_fan_bind step r _ (λ r, r)); [| done]. apply settle_fan_out_good; [| done].
    by rewrite add_children_sets.
  - cbn. split; [done |]. split; [unfold apart; simpl; set_solver | intros _; by left].
Qed.

(** ** Plans without routes end *)

Section Ends.
Context (no_routes : ∀ step, step ∈ MetaRun.steps → Routes step = []).

Definition has_branch (id : string) : bool :=
  match stepById !! id with Some step => negb (bool_decide (OnFailure step = "")) | None => false end.

(** Failure branches have none, and belong to steps that have one. *)
Context (branches : ∀ step f, step ∈ MetaRun.steps → branch_of step f →
  has_branch f = false ∧ has_branch (Id step) = true).

(** Steps to do, those that may hand over counted twice. *)
Definition work s : nat :=
  size (pending s) + size (filter (λ id, has_branch id = true) (pending s)).

Lemma moved_less_work step s s' : step ∈ MetaRun.steps → Id step ∈ pending s → moved step s s' → work s' < work s.
Proof.
  intros Hin Hp [_ Hm]. specialize (Hm (no_routes step Hin)). unfold work.
  assert (Hsize : size (pending s) = S (size (pending s ∖ {[Id step]}))).
  { rewrite (union_difference_L {[Id step]} (pending s)) at 1 by set_solver.
    rewrite size_union by set_solver. by rewrite size_singleton. }
  destruct Hm as [Hsub | (f & Hf & Hsub)].
  - apply Nat.add_lt_le_mono; [| apply subseteq_size; set_solver].
    rewrite Hsize. apply Nat.lt_succ_r. by apply subseteq_size.
  - destruct (branches step f Hin Hf) as [Hf0 Hs1].
    apply Nat.add_le_lt_mono.
    + rewrite Hsize. etrans; [by apply subseteq_size |]. rewrite size_union_alt, size_singleton.
      apply le_n_S, subseteq_size. set_solver.
    + apply subset_size. split.
      * intros x [Hx Hin']%elem_of_filter. apply elem_of_filter. split; [done |].
        apply Hsub, elem_of_union in Hin' as [->%elem_of_singleton | ?]; [congruence | set_solver].
      * intros Hss. assert (Id step ∈ filter (λ id, has_branch id = true) (pending s)) as Hid by (by apply elem_of_filter).
        apply Hss, elem_of_filter in Hid as [_ Hid].
        apply Hsub, elem_of_union in Hid as [Heq%elem_of_singleton | ?]; [congruence | set_solver].
Qed.

Lemma step_loop_work todo : (∀ step, step ∈ todo → step ∈ MetaRun.steps) → ∀ progress r,
  match step_loop todo progress r with
  | Some (Done (Goes r' p)) =>
      work (sets r') ≤ work (sets r) ∧ (p = true → progress = true ∨ work (sets r') < work (sets r))
  | _ => True
  end.
Proof.
  induction todo as [| step todo IH]; intros Hin progress r; simpl; [auto |].
  destruct (exec_step_good step r) as [Hg Hp].
  destruct (exec_step step r) as [[[r' p | r' text] | |] |]; cbn [fueled_bind]; try done.
  specialize (IH ltac:(intros; apply Hin; by right) (progress || p) r').
  destruct (step_loop todo (progress || p) r') as [[[r2 p2 | ? ?] | |] |]; try done.
  destruct IH as [Hle Hpr]. destruct p; simpl in Hg.
  - assert (work (sets r') < work (sets r)).
    { eapply moved_less_work; [apply Hin; by left | by eapply Hp | done]. }
    split; [lia |]. right. lia.
  - subst r'. rewrite orb_false_r in Hpr. done.
Qed.

Lemma finish_run_returns r : ∃ r' text, finish_run r = Returns r' text.
Proof. unfold finish_run. cbv zeta. destruct (ReturnMetaExecutionOutput _ _ _ _ _ _ _). by eexists _, _. Qed.

Lemma return_error_returns r e p : ∃ r' text, return_error r e p = Returns r' text.
Proof. unfold return_error. destruct (ReturnMetaExecutionOutput _ _ _ _ _ _ _). by eexists _, _. Qed.

Lemma run_loop_ends fuel : ∀ r, apart (sets r) → work (sets r) < fuel → ∃ o, run_loop fuel r = Some o.
Proof.
  induction fuel as [| fuel IH]; intros r Hap Hw; [lia |]. cbn [run_loop]. case_bool_decide.
  { destruct (finish_run_returns r) as (r' & text & ->). by eexists. }
  rewrite wave_never_runs by done. unfold finish at 1. cbn [fueled_bind].
  destruct (fan_out_good r) as [-> | (step & Hin & Hp & Hg)]; cbn [fueled_bind finish].
  - destruct (step_loop_apart MetaRun.steps false r Hap) as (o & Ho & Hap').
    pose proof (step_loop_work MetaRun.steps ltac:(done) false r) as Hwork. rewrite Ho in *.
    destruct o as [[r' p | r' text] | |]; cbn [fueled_bind]; try by eexists.
    destruct p.
    + apply IH; [done |]. destruct Hwork as [_ Hlt]. destruct (Hlt eq_refl) as [? | ?]; [done | lia].
    + case_bool_decide; [destruct (finish_run_returns r') as (r2 & text & ->); by eexists |].
      match goal with |- context [return_error ?r ?e ?p] => destruct (return_error_returns r e p) as (r2 & text & ->) end.
      by eexists.
  - destruct (TryExecuteFanOutStep r) as [[[b r'] | |] |]; cbn [fueled_bind good_fan] in *;
      [| by eexists | by eexists | done].
    destruct Hg as [-> Hg]. apply IH; [by apply Hg |].
    enough (work (sets r') < work (sets r)) by lia. by eapply moved_less_work.
Qed.
End Ends.
End RunSpec.

(** C8: a run that starts afresh, with no checkpoint to go on from, of a skill
    whose steps have no routes and name their [on_failure] branches without
    blanks around the names, comes to an end whatever its steps do: within one
    round for each step and one for each failure branch. *)
Theorem plans_without_routes_end {W} `{E : MetaEnv W} skills skill c name text sess w :
  find_meta_skill skills name = Some skill → Composition skill = Some c →
  (∀ step, step ∈ Steps c → Routes step = [] ∧ TrimSpace (OnFailure step) = OnFailure step) →
  MetaExecutionCheckpoint sess = None →
  ∃ o, ExecuteMetaSkill (S (2 * length (Steps c))) true skills name text sess w = Some o.
Proof.
  intros Hfind Hc Hsteps Hcp. unfold ExecuteMetaSkill. rewrite Hfind, Hc. cbn [negb]. cbv zeta.
  case_bool_decide; [by eexists |].
  destruct (validate_spec (Steps c) skills) as ([[] | e] & -> & Hwf); cycle 1.
  { destruct (ReturnMetaExecutionOutput _ _ _ _ _ _ _). by eexists. }
  specialize (proj1 Hwf eq_refl) as Hplan. clear Hwf.
  unfold TryRestoreMetaExecutionCheckpoint. rewrite Hcp.
  set (byId := index_steps (λ id, id) (Steps c)).
  set (P := MkRunPlan skills skill text (Steps c) byId (BuildDependentsIndex (Steps c))).
  destruct (ApplyInitialRoutingBlocks _ _ _) as [b p] eqn:Hb. cbn [fueled_bind].
  assert (Hr : RouteTo <$> (Steps c ≫= Routes) = []).
  { clear -Hsteps. induction (Steps c) as [| s l IH]; [done |]. simpl.
    destruct (Hsteps s) as [-> _]; [by left |]. apply IH. intros; apply Hsteps; by right. }
  unfold ApplyInitialRoutingBlocks in Hb. rewrite Hr in Hb. injection Hb as <- <-.
  match goal with |- context [run_loop ?n ?r] => edestruct (λ H1 H2, run_loop_ends (P := P) eq_refl H1 H2 n r) as [o Ho] end.
  - intros step Hin. by apply Hsteps.
  - intros step f Hin (-> & Hf & [sub Hsub]). destruct (Hsteps step Hin) as [_ Ht]. rewrite Ht in *.
    assert (Hl := index_steps_lookup (λ id, id) (Steps c) (wf_ids _ _ Hplan)). simpl in Hl.
    unfold has_branch.
    change (@stepById P) with (index_steps (λ id, id) (Steps c)) in *. rewrite Hsub.
    rewrite (proj2 (Hl (Id step) step)) by done. apply Hl in Hsub as [Hsub Heq].
    destruct (wf_substitutes _ _ Hplan step sub) as [-> _]; [done.. |]. split; [done |]. by rewrite bool_decide_eq_false_2.
  - unfold apart. cbn. set_solver.
  - unfold work. cbn [sets set_sets pending blocked].
    match goal with |- size ?A + size ?B < _ => assert (HB : size B ≤ size A) by (apply subseteq_size; set_solver);
      assert (HA : size A ≤ length (Steps c)) end.
    { etrans; [apply subseteq_size | apply (index_steps_size (λ id, id))]. unfold byId. set_solver. }
    lia.
  - rewrite Ho. destruct o as [[r' out] | |]; by eexists.
Qed.

(** ** Loaded tool steps *)

Lemma tool_kind lower_rune : NormalizeMetaStepKind lower_rune "tool_call" = "tool_call".
Proof. reflexivity. Qed.

(** A [tool_call] step of a loaded plan, when its turn comes, ends the run
    with an error saying it declares no tool: it does declare one, as the loader
    makes sure, and the test is the other way round. *)
Theorem loaded_tool_steps_end_the_run {W} `{E : MetaEnv W} `{P : RunPlan} jsonStr c step (r : run (W := W)) :
  ParseComposition lower_rune EqualFoldU ParseFloat jsonStr = Some (Done (Ok c)) →
  step ∈ Steps c → Kind step = "tool_call" → When step = "" →
  Id step ∈ pending (sets r) → Id step ∉ blocked (sets r) → dependencies_state r (DependsOn step) = Ready →
  Tool step ≠ "" ∧
  exec_step step r =
    finish (return_error r ("Meta step '" +:+ Id step +:+ "' is 'tool_call' but does not declare a tool.") false).
Proof.
  intros [Hl Hv]%ParseComposition_inv Hin Hk Hw Hp Hb Hd.
  assert (Ht : Tool step ≠ "").
  { intros Ht. pose proof (ValidateComposition_tool _ _ _ step Hv Hin Hk) as Hblank. by rewrite Ht in Hblank. }
  split; [done |]. rewrite Forall_forall in Hl. destruct (Hl step Hin).
  unfold exec_step. cbv zeta. rewrite bool_decide_eq_true_2 by done. cbn [negb].
  rewrite bool_decide_eq_false_2 by done. rewrite Hd, Hw. rewrite bool_decide_eq_true_2 by done.
  cbn [fueled_bind negb]. unfold run_kind. rewrite Hk, tool_kind. cbv zeta. rewrite bool_decide_eq_true_2 by done.
  unfold run_tool_call. cbv zeta. rewrite bool_decide_eq_false_2 by done. by rewrite bool_decide_eq_true_2.
Qed.

(** ** Answers to a paused run *)

(** A paused run that is called again with the user's answer, for a step
    whose schema has no [skip_if], does not take the answer: it returns the
    prompt once more, and the session is paused as before. *)
Theorem answers_are_not_taken {W} `{E : MetaEnv W} `{P : RunPlan} (r : run (W := W)) cp i step c waitingPrompt :
  input ≠ "" → waitingPrompt ≠ "" → MetaExecutionCheckpoint (session r) = Some cp → cp_PendingStepId cp ≠ "" →
  list_find (λ step, Id step = cp_PendingStepId cp) MetaRun.steps = Some (i, step) →
  Clarify step = Some c → SkipIf c = "" → FinalTextMode metaSkill ≠ "structured" →
  ∃ r', resume waitingPrompt r = Done (Returns r' ("error: " +:+ waitingPrompt)) ∧
    MetaExecutionCheckpoint (session r') = Some cp ∧ sets r' = sets r ∧ world r' = world r.
Proof.
  intros Hi Hw Hcp Hid Hfind Hc Hs Hmode. unfold resume. cbv zeta. rewrite Hcp.
  rewrite (bool_decide_eq_false_2 (input = "")), (bool_decide_eq_false_2 (cp_PendingStepId cp = "")) by done.
  rewrite Hfind. change (snd <$> Some (i, step)) with (Some step). cbv iota. rewrite Hc. cbv iota. rewrite Hs.
  rewrite (bool_decide_eq_true_2 ("" = "")) by done. cbn [negb mbind go_bind].
  rewrite (bool_decide_eq_false_2 (waitingPrompt = "")) by done.
  unfold return_error, ReturnMetaExecutionOutput. cbn [negb].
  rewrite (bool_decide_eq_false_2 (FinalTextMode metaSkill = _)) by done. rewrite bool_decide_eq_false_2 by done.
  cbn [negb]. eexists. split; [done |]. by rewrite <- Hcp.
Qed.

(** ** Fan-out children *)

(** A fan-out child that asks the model gets an answer that satisfies its
    output contract and reports an empty output. *)
Theorem fan_out_answers_are_lost {W} `{E : MetaEnv W} `{P : RunPlan} template childId childInput ctx text (w w1 : W) t rt :
  Kind template = "llm_chat" → TimeoutSeconds template = Some t → Retry template = Some rt →
  (∀ req, CallLlm req w = ((Some text, NoError), w1)) →
  TryValidateMetaStepOutput parse template text = Ok tt →
  ExecuteFanOutChild template childId childInput ctx w = Done (ChildOutput "" "", w1).
Proof.
  intros Hk Ht Hr Hllm Hok. unfold ExecuteFanOutChild. rewrite Hk, Ht, Hr. cbv zeta.
  change (NormalizeMetaStepKind _ "llm_chat") with "llm_chat".
  rewrite bool_decide_eq_false_2 by done. rewrite bool_decide_eq_true_2 by done.
  unfold ExecuteMetaLlmStepWithPolicy, max_attempts. cbn [Retry mbind go_bind].
  destruct (Z.to_nat (Z.max 1 (MaxAttempts rt))) as [| n] eqn:Hn; [lia |].
  cbn [llm_attempts]. unfold CreateMetaStepTimeout. cbn [TimeoutSeconds].
  replace (if (t <=? 0)%Z then Done None else Done (Some t))
    with (Done (if (t <=? 0)%Z then None else Some t)) by (by destruct (t <=? 0)%Z).
  cbn [mbind go_bind]. rewrite Hllm. cbn [mbind go_bind]. by rewrite Hok.
Qed.

(** ** Runs in a simple environment

    The model answers ["ok"], tools and skills answer nothing, conditions fail,
    templates are their text. *)
#[local] Instance simple_env : MetaEnv unit := {|
  lower_rune r := r;
  EqualFoldU s t := bool_decide (s = t);
  parse _ := None;
  marshal _ := "{}";
  sprint _ := "";
  structured _ _ _ _ _ := "";
  ParseFloat _ := None;
  FormatFloat _ := "0";
  Evaluate _ _ := Done false;
  Render t _ := t;
  now _ := 0%Z;
  cancelled _ := false;
  sleep _ w := (false, w);
  ExecuteTool _ _ _ _ w := ((None, NoError), w);
  capability_configured := false;
  ExecuteGoverned _ _ _ w := ((CreateMetaStepFailedToolResult "" "", NoError, true), w);
  ExecuteSkillEntrypoint _ _ _ _ _ _ w := (None, w);
  CallLlm _ w := ((Some "ok", NoError), w);
  timeout_text _ := "";
  BuildSkillBody _ := "" |}.

Definition meta_skill (name : string) (c : MetaSkillComposition) : SkillDefinition :=
  MkSkill name SkillKind_Meta false [] "" (Some c).

Definition triage : MetaSkillComposition :=
  MkComposition TBlank [plain_step "fetch" [] "cache"; plain_step "cache" [] ""; plain_step "report" ["fetch"] ""].

Lemma plans_without_routes_end_witness :
  ∃ o, ExecuteMetaSkill 7 true [meta_skill "triage" triage] "triage" "hello" (MkSession None []) tt = Some o.
Proof.
  apply (plans_without_routes_end (E := simple_env) _ (meta_skill "triage" triage) triage);
    [reflexivity | reflexivity | | reflexivity].
  intros step Hin. repeat (apply elem_of_cons in Hin as [-> | Hin]; [split; reflexivity |]).
  by apply not_elem_of_nil in Hin.
Defined.

(** One step of a plan in JSON that runs a tool. *)
Definition tool_plan_json : json_text :=
  TDoc (JObj [("steps", JArr [JObj [("id", JStr "pay"); ("kind", JStr "tool_call"); ("tool", JStr "payment");
    ("on_failure", JStr " "); ("timeout_seconds", JNum "30")]])]).
Definition tool_plan : MetaSkillComposition :=
  match load tool_plan_json with Some (Done (Ok c)) => c | _ => MkComposition TBlank [] end.

Lemma loaded_tool_steps_end_the_run_witness :
  let step := default zero_step (head (Steps tool_plan)) in
  let P := MkRunPlan [] (meta_skill "pay" tool_plan) "go" (Steps tool_plan)
             (index_steps (λ id, id) (Steps tool_plan)) ∅ in
  let r := MkRun (MkSets {["pay"]} ∅ ∅ ∅) [] (MkSession None []) tt in
  Tool step = "payment" ∧
  exec_step step r = finish (return_error r "Meta step 'pay' is 'tool_call' but does not declare a tool." false).
Proof.
  cbv zeta. set (P := MkRunPlan [] _ _ _ _ _). split; [reflexivity |].
  apply (loaded_tool_steps_end_the_run (E := simple_env) (P := P) tool_plan_json tool_plan);
    [reflexivity | by left | reflexivity | reflexivity | reflexivity | | reflexivity].
  intros Hb. vm_compute in Hb. discriminate Hb.
Defined.

Definition clarify_step : MetaSkillStepDefinition :=
  MkStep "ask" "user_input" "" "" "" None [] "" "" "" TBlank "" TBlank [] []
    (Some (MkClarify "chat" false [] [] "" None)) [] [] "" (Some 30%Z) (Some (MkRetry 1 0)) None "" 0 None "".

Lemma answers_are_not_taken_witness :
  let cp := MkCheckpoint "plan" "ask" "Which city?" 0 0 ["ask"] [] ∅ ∅ [] in
  let P := MkRunPlan [] (meta_skill "plan" (MkComposition TBlank [clarify_step])) "Paris" [clarify_step] ∅ ∅ in
  let r := MkRun (MkSets {["ask"]} ∅ ∅ ∅) [] (MkSession (Some cp) []) tt in
  ∃ r', resume "Which city?" r = Done (Returns r' "error: Which city?") ∧
    MetaExecutionCheckpoint (session r') = Some cp ∧ sets r' = sets r ∧ world r' = world r.
Proof.
  cbv zeta. set (cp := MkCheckpoint _ _ _ _ _ _ _ _ _ _). set (P := MkRunPlan [] _ _ _ _ _).
  by apply (answers_are_not_taken (E := simple_env) (P := P)
    (MkRun (MkSets {["ask"]} ∅ ∅ ∅) [] (MkSession (Some cp) []) tt) cp 0 clarify_step
    (MkClarify "chat" false [] [] "" None) "Which city?").
Defined.

Lemma fan_out_answers_are_lost_witness :
  let template := MkStep "t" "llm_chat" "" "" "" None [] "" "" "" TBlank "" TBlank [] [] None [] [] "" (Some 30%Z)
    (Some (MkRetry 1 0)) None "" 0 None "" in
  ∀ P : RunPlan, ExecuteFanOutChild template "t_0" "item" (MkContext "item" ∅ false) tt = Done (ChildOutput "" "", tt).
Proof.
  intros template P.
  by apply (fan_out_answers_are_lost (E := simple_env) (P := P) template "t_0" "item" _ "ok" tt tt 30 (MkRetry 1 0)).
Defined.

(** ** Routes can go round *)

Definition route_step_json (id onFailure : string) (target : string) : json :=
  JObj [("id", JStr id); ("kind", JStr "agent"); ("on_failure", JStr onFailure); ("timeout_seconds", JNum "30");
        ("route", JArr [JObj [("to", JStr target)]])].
Definition loop_plan_json : json_text :=
  TDoc (JObj [("steps", JArr [route_step_json "start" " " "draft"; route_step_json "draft" "  " "review";
                              route_step_json "review" "   " "draft"])]).
Definition loop_plan : MetaSkillComposition :=
  match load loop_plan_json with Some (Done (Ok c)) => c | _ => MkComposition TBlank [] end.
Definition loop_skill : SkillDefinition := meta_skill "loop" loop_plan.
Definition loop_run : RunPlan :=
  MkRunPlan [loop_skill] loop_skill "go" (Steps loop_plan) (index_steps (λ id, id) (Steps loop_plan))
    (BuildDependentsIndex (Steps loop_plan)).

Definition answered (id : string) : MetaStepExecutionResult := NewMetaStepExecutionResult id "agent" "completed" "" false.

(** The sets after every round but the first. *)
Definition loop_sets : run_sets :=
  MkSets {["draft"]} ∅ {["start" := "ok"; "draft" := "ok"; "review" := "ok"]} ∅.

Lemma loop_round fuel results :
  run_loop (P := loop_run) (S fuel) (MkRun loop_sets results (MkSession None []) tt) =
  run_loop (P := loop_run) fuel
    (MkRun loop_sets ((results ++ [answered "draft"]) ++ [answered "review"]) (MkSession None []) tt).
Proof. reflexivity. Qed.

Lemma loop_for_ever fuel : ∀ results,
  run_loop (P := loop_run) fuel (MkRun loop_sets results (MkSession None []) tt) = None.
Proof. induction fuel as [| fuel IH]; intros results; [done |]. rewrite loop_round. apply IH. Qed.

(** Routes may lead back: this plan of three steps, which the loader and
    the validation accept, never ends when the model answers. *)
Theorem routes_can_run_for_ever fuel :
  load loop_plan_json = Some (Done (Ok loop_plan)) ∧
  TryValidateMetaPlan (Steps loop_plan) [loop_skill] = Some (Ok tt) ∧
  ExecuteMetaSkill fuel true [loop_skill] "loop" "go" (MkSession None []) tt = None.
Proof.
  split; [reflexivity |]. split; [reflexivity |]. destruct fuel as [| fuel]; [reflexivity |].
  change (ExecuteMetaSkill (S fuel) true [loop_skill] "loop" "go" (MkSession None []) tt)
    with ('(r, out) ←! run_loop (P := loop_run) fuel
            (MkRun loop_sets [answered "start"; answered "draft"; answered "review"] (MkSession None []) tt);
          finish (out, session r, world r)).
  by rewrite loop_for_ever.
Qed.
