(* ===== verification/ToolApproval.v ===== *)
(** Approval of tool calls: [ToolApprovalService] of [openclaw/core/pipeline.go].

    A request waits in the map [pending] for a decision.  The map holds
    pointers: a caller keeps its [*pendingRequest] after the lock is released,
    so the requests live in a heap and the map gives their locations.  A
    [pendingRequest] decides once ([sync.Once]) and hands the decision over
    through a channel of capacity one.

    Callers run concurrently.  A call of [TrySetDecision] or
    [WaitForDecisionOutcome] is a thread whose phases are the points where
    another caller can run in between; [exec] runs one phase.  [ListPending]
    holds the lock throughout, but senders do not take the lock to send, so it
    is one [LSweep] step per entry it visits.  Times are nanoseconds; the timer
    of a wait may fire at any moment. *)

From S2P Require Import Prelude GoStrings.
Local Open Scope string_scope.

(** ** Data *)

Record ToolApprovalRequest := MkRequest {
  ApprovalId : string;
  SessionId : string;
  ChannelId : string;
  SenderId : string;
  ToolName : string;
  Arguments : string;
  Action : string;
  IsMutation : bool;
  Summary : string;
}.

Record pendingRequest := MkPending {
  Request : ToolApprovalRequest;
  ExpiresAt : Z;
  decisionChan : option bool;
  (** whether [setDecision.Do] has run *)
  setDecision : bool;
}.

Inductive ToolApprovalDecisionResult :=
  | ToolApprovalDecisionResult_Recorded
  | ToolApprovalDecisionResult_NotFound
  | ToolApprovalDecisionResult_Unauthorized.

Inductive ToolApprovalWaitResult :=
  | ToolApprovalWaitResult_Approved
  | ToolApprovalWaitResult_Denied
  | ToolApprovalWaitResult_TimedOut
  | ToolApprovalWaitResult_NotFound.

#[export] Instance ToolApprovalDecisionResult_eq_dec : EqDecision ToolApprovalDecisionResult.
Proof. solve_decision. Defined.
#[export] Instance ToolApprovalWaitResult_eq_dec : EqDecision ToolApprovalWaitResult.
Proof. solve_decision. Defined.

Abbreviation loc := nat.

(** The identity a decision is checked against: [Some (channel, sender)] when
    [requireRequesterMatch]. *)
Abbreviation requester := (option (string * string)).

(** A call of [TrySetDecision]. *)
Inductive setter :=
  | SFound (p : loc) (approved : bool) (by_whom : requester)
  | SReturned (r : ToolApprovalDecisionResult) (p : option loc) (approved : bool) (by_whom : requester).

(** A call of [WaitForDecisionOutcome]: in its [select]; after the receive of
    a decision; after its timer; after the delete that follows the timer;
    waiting for a decision that came with the timer; returned. *)
Inductive waiter :=
  | WSelect (approvalId : string) (p : loc)
  | WReceived (approvalId : string) (p : loc) (approved : bool)
  | WFired (approvalId : string) (p : loc)
  | WRemoved (p : loc)
  | WLate (p : loc)
  | WCanceled (p : loc)
  | WReturned (r : ToolApprovalWaitResult) (p : option loc).

Record service := MkService {
  pending : gmap string loc;
  heap : gmap loc pendingRequest;
  next_loc : loc;
  setters : gmap nat setter;
  waiters : gmap nat waiter;
}.

Definition NewToolApprovalService : service := MkService ∅ ∅ 0 ∅ ∅.

Definition set_pending (f : gmap string loc → gmap string loc) (s : service) : service :=
  MkService (f (pending s)) (heap s) (next_loc s) (setters s) (waiters s).
Definition set_heap (f : gmap loc pendingRequest → gmap loc pendingRequest) (s : service) : service :=
  MkService (pending s) (f (heap s)) (next_loc s) (setters s) (waiters s).
Definition set_setter (t : nat) (x : setter) (s : service) : service :=
  MkService (pending s) (heap s) (next_loc s) (<[t := x]> (setters s)) (waiters s).
Definition set_waiter (w : nat) (x : waiter) (s : service) : service :=
  MkService (pending s) (heap s) (next_loc s) (setters s) (<[w := x]> (waiters s)).

(** ** Operations *)

(** The id is random; [CreatedAt] is never set. *)
Definition Create (sessionId channelId senderId toolName arguments : string) (now timeout : Z)
    (action : string) (isMutation : bool) (summary : string) (approvalId : string) (s : service)
    : ToolApprovalRequest * service :=
  let act := if bool_decide (TrimSpace action = "") then "" else action in
  let req := MkRequest approvalId sessionId channelId senderId toolName arguments act isMutation summary in
  (req, MkService (<[approvalId := next_loc s]> (pending s))
          (<[next_loc s := MkPending req (now + timeout) None false]> (heap s))
          (S (next_loc s)) (setters s) (waiters s)).

Definition requester_matches (req : ToolApprovalRequest) (by_whom : requester) : bool :=
  match by_whom with
  | None => true
  | Some (channel, sender) =>
      negb (bool_decide (TrimSpace channel = "")) && negb (bool_decide (TrimSpace sender = "")) &&
      bool_decide (channel = ChannelId req) && bool_decide (sender = SenderId req)
  end.

(** The part of [TrySetDecision] before [setDecision.Do]. *)
Definition find_request (approvalId : string) (approved : bool) (by_whom : requester) (s : service) : setter :=
  match pending s !! approvalId with
  | None => SReturned ToolApprovalDecisionResult_NotFound None approved by_whom
  | Some p =>
      match heap s !! p with
      | None => SReturned ToolApprovalDecisionResult_NotFound None approved by_whom
      | Some c =>
          if requester_matches (Request c) by_whom then SFound p approved by_whom
          else SReturned ToolApprovalDecisionResult_Unauthorized (Some p) approved by_whom
      end
  end.

(** [setDecision.Do]: the first caller sends its decision. *)
Definition send_decision (p : loc) (approved : bool) (s : service) : ToolApprovalDecisionResult * service :=
  match heap s !! p with
  | None => (ToolApprovalDecisionResult_NotFound, s)
  | Some c =>
      if setDecision c then (ToolApprovalDecisionResult_NotFound, s)
      else (ToolApprovalDecisionResult_Recorded,
            set_heap <[p := MkPending (Request c) (ExpiresAt c) (Some approved) true]> s)
  end.

(** The call as a whole, when nothing runs in between. *)
Definition TrySetDecision (approvalId : string) (approved : bool) (by_whom : requester) (s : service)
    : ToolApprovalDecisionResult * service :=
  match find_request approvalId approved by_whom s with
  | SReturned r _ _ _ => (r, s)
  | SFound p approved _ => send_decision p approved s
  end.

Definition decided (approved : bool) : ToolApprovalWaitResult :=
  if approved then ToolApprovalWaitResult_Approved else ToolApprovalWaitResult_Denied.

(** Receiving from the channel empties it; [None] while it is empty. *)
Definition receive (p : loc) (s : service) : option (bool * service) :=
  c ← heap s !! p;
  approved ← decisionChan c;
  Some (approved, set_heap <[p := MkPending (Request c) (ExpiresAt c) None (setDecision c)]> s).

(** [setDecision.Do] of a wait whose timer fired: it closes the request, or
    waits for the decision that was faster. *)
Definition close_request (p : loc) (s : service) : waiter * service :=
  match heap s !! p with
  | None => (WLate p, s)
  | Some c =>
      if setDecision c then (WLate p, s)
      else (WReturned ToolApprovalWaitResult_TimedOut (Some p),
            set_heap <[p := MkPending (Request c) (ExpiresAt c) (decisionChan c) true]> s)
  end.

(** The visit of one entry by [ListPending]: a request that has expired is
    dropped, and so is one whose decision can be received -- which receives
    it. *)
Definition sweep (now : Z) (approvalId : string) (s : service) : service :=
  match pending s !! approvalId with
  | None => s
  | Some p =>
      match heap s !! p with
      | None => s
      | Some c =>
          if bool_decide (ExpiresAt c ≤ now)%Z then set_pending (delete approvalId) s
          else
            match receive p s with
            | Some (_, s) => set_pending (delete approvalId) s
            | None => s
            end
      end
  end.

Definition listed (channelId senderId : string) (req : ToolApprovalRequest) : bool :=
  (bool_decide (channelId = "") || bool_decide (ChannelId req = channelId)) &&
  (bool_decide (senderId = "") || bool_decide (SenderId req = senderId)).

(** [order] is the order in which the map is ranged over. *)
Fixpoint ListPending (now : Z) (channelId senderId : string) (order : list string) (s : service)
    : list ToolApprovalRequest * service :=
  match order with
  | [] => ([], s)
  | id :: order =>
      let s := sweep now id s in
      let '(result, s') := ListPending now channelId senderId order s in
      match pending s !! id ≫= (λ p, heap s !! p) with
      | Some c => (if listed channelId senderId (Request c) then Request c :: result else result, s')
      | None => (result, s')
      end
  end.

Definition PendingCount (now : Z) (order : list string) (s : service) : nat * service :=
  let '(result, s) := ListPending now "" "" order s in (length result, s).

(** ** Threads *)

Inductive label :=
  | LCreate (sessionId channelId senderId toolName arguments : string) (now timeout : Z)
      (action : string) (isMutation : bool) (summary approvalId : string)
  | LSetFind (t : nat) (approvalId : string) (approved : bool) (by_whom : requester)
  | LSetDo (t : nat)
  | LWaitStart (w : nat) (approvalId : string)
  | LWaitCancel (w : nat)
  | LWaitReceive (w : nat)
  | LWaitTimer (w : nat)
  | LWaitDelete (w : nat)
  | LWaitOnce (w : nat)
  | LWaitLate (w : nat)
  | LSweep (now : Z) (approvalId : string).

(** [None]: the step is not enabled.  A thread id names one call. *)
Definition exec (l : label) (s : service) : option service :=
  match l with
  | LCreate se ch sn tn ar now timeout ac mu su id =>
      Some (Create se ch sn tn ar now timeout ac mu su id s).2
  | LSetFind t id approved by_whom =>
      match setters s !! t with
      | Some _ => None
      | None => Some (set_setter t (find_request id approved by_whom s) s)
      end
  | LSetDo t =>
      match setters s !! t with
      | Some (SFound p approved by_whom) =>
          let '(r, s) := send_decision p approved s in
          Some (set_setter t (SReturned r (Some p) approved by_whom) s)
      | _ => None
      end
  | LWaitStart w id =>
      match waiters s !! w with
      | Some _ => None
      | None =>
          Some (set_waiter w (match pending s !! id with
                              | None => WReturned ToolApprovalWaitResult_NotFound None
                              | Some p => WSelect id p
                              end) s)
      end
  | LWaitCancel w =>
      match waiters s !! w with
      | Some (WSelect _ p) => Some (set_waiter w (WCanceled p) s)
      | _ => None
      end
  | LWaitReceive w =>
      match waiters s !! w with
      | Some (WSelect id p) =>
          '(approved, s) ← receive p s; Some (set_waiter w (WReceived id p approved) s)
      | _ => None
      end
  | LWaitTimer w =>
      match waiters s !! w with
      | Some (WSelect id p) => Some (set_waiter w (WFired id p) s)
      | _ => None
      end
  | LWaitDelete w =>
      match waiters s !! w with
      | Some (WReceived id p approved) =>
          Some (set_waiter w (WReturned (decided approved) (Some p)) (set_pending (delete id) s))
      | Some (WFired id p) => Some (set_waiter w (WRemoved p) (set_pending (delete id) s))
      | _ => None
      end
  | LWaitOnce w =>
      match waiters s !! w with
      | Some (WRemoved p) => let '(x, s) := close_request p s in Some (set_waiter w x s)
      | _ => None
      end
  | LWaitLate w =>
      match waiters s !! w with
      | Some (WLate p) =>
          '(approved, s) ← receive p s; Some (set_waiter w (WReturned (decided approved) (Some p)) s)
      | _ => None
      end
  | LSweep now id => Some (sweep now id s)
  end.

Definition step (s : service) (l : label) (s' : service) : Prop := exec l s = Some s'.

Definition reachable (s : service) : Prop := ∃ ls, steps step NewToolApprovalService ls s.

(** ** Who decided what *)

Definition recorded (s : service) (t : nat) (p : loc) (approved : bool) (by_whom : requester) : Prop :=
  setters s !! t = Some (SReturned ToolApprovalDecisionResult_Recorded (Some p) approved by_whom).

(** The request a call of [TrySetDecision] has got past the checks for. *)
Definition accepted (x : setter) : option (loc * requester) :=
  match x with
  | SFound p _ by_whom => Some (p, by_whom)
  | SReturned ToolApprovalDecisionResult_Recorded (Some p) _ by_whom => Some (p, by_whom)
  | _ => None
  end.

(** The decision a wait has received. *)
Definition collected (x : waiter) : option (loc * bool) :=
  match x with
  | WReceived _ p approved => Some (p, approved)
  | WReturned ToolApprovalWaitResult_Approved (Some p) => Some (p, true)
  | WReturned ToolApprovalWaitResult_Denied (Some p) => Some (p, false)
  | _ => None
  end.

Definition waits_on (x : waiter) : option loc :=
  match x with
  | WSelect _ p | WReceived _ p _ | WFired _ p | WRemoved p | WLate p | WCanceled p => Some p
  | WReturned _ p => p
  end.

Definition timed_out (s : service) (w : nat) (p : loc) : Prop :=
  waiters s !! w = Some (WReturned ToolApprovalWaitResult_TimedOut (Some p)).

Record inv (s : service) : Prop := {
  inv_heap p : is_Some (heap s !! p) → p < next_loc s;
  inv_pending id p : pending s !! id = Some p → is_Some (heap s !! p);
  inv_waits w x p : waiters s !! w = Some x → waits_on x = Some p → is_Some (heap s !! p);
  inv_accepted t x p by_whom : setters s !! t = Some x → accepted x = Some (p, by_whom) →
    ∃ c, heap s !! p = Some c ∧ requester_matches (Request c) by_whom = true;
  inv_once t p b by_whom c : recorded s t p b by_whom → heap s !! p = Some c → setDecision c = true;
  inv_one t t' p b b' by_whom by_whom' :
    recorded s t p b by_whom → recorded s t' p b' by_whom' → t = t';
  inv_chan p c b : heap s !! p = Some c → decisionChan c = Some b →
    (∃ t by_whom, recorded s t p b by_whom) ∧
    ∀ w x b', waiters s !! w = Some x → collected x ≠ Some (p, b');
  inv_collected w x p b : waiters s !! w = Some x → collected x = Some (p, b) →
    ∃ t by_whom, recorded s t p b by_whom;
  inv_collected_one w w' x x' p b b' : waiters s !! w = Some x → waiters s !! w' = Some x' →
    collected x = Some (p, b) → collected x' = Some (p, b') → w = w';
  inv_timeout w p c : timed_out s w p → heap s !! p = Some c →
    setDecision c = true ∧ ∀ t b by_whom, ¬ recorded s t p b by_whom;
}.

(** Look-ups in the updated maps. *)
Ltac lookups :=
  repeat match goal with
  | H : <[_ := _]> _ !! _ = Some _ |- _ => apply lookup_insert_Some in H as [[? ?] | [? ?]]; simplify_eq/=
  | H : delete _ _ !! _ = Some _ |- _ => apply lookup_delete_Some in H as [? ?]
  | H : is_Some (<[_ := _]> _ !! _) |- _ => apply lookup_insert_is_Some in H as [? | [? ?]]; simplify_eq/=
  end.

Lemma inv_new : inv NewToolApprovalService.
Proof.
  split; unfold recorded, timed_out; simpl; intros *; rewrite ?lookup_empty; try done; by intros [? ?].
Qed.

Lemma inv_create se ch sn tn ar now timeout ac mu su id s :
  inv s → inv (Create se ch sn tn ar now timeout ac mu su id s).2.
Proof.
  intros I. assert (heap s !! next_loc s = None) as Hnew.
  { destruct (heap s !! next_loc s) as [c |] eqn:E; [| done].
    pose proof (inv_heap s I _ (mk_is_Some _ _ E)). lia. }
  assert (∀ p, is_Some (heap s !! p) → next_loc s ≠ p) as Hne by (intros p [c Hc] Heq; congruence).
  split; unfold recorded, timed_out; simpl.
  - intros p H%lookup_insert_is_Some. destruct H as [<- | [_ H%(inv_heap s I)]]; lia.
  - intros i p H. lookups; [by rewrite lookup_insert_eq |].
    rewrite lookup_insert_ne; [by eapply (inv_pending s I) | apply Hne; by eapply (inv_pending s I)].
  - intros w x p H Hx. pose proof (inv_waits s I w x p H Hx). by rewrite lookup_insert_ne; [| apply Hne].
  - intros t x p by_whom H Hx. destruct (inv_accepted s I t x p by_whom H Hx) as (c & Hc & Hm). exists c.
    by rewrite lookup_insert_ne; [| apply Hne; rewrite Hc].
  - intros t p b by_whom c Ht H. destruct (inv_accepted s I t _ p by_whom Ht eq_refl) as (c' & Hc & _).
    lookups. by eapply (inv_once s I).
  - apply (inv_one s I).
  - intros p c b H Hb. lookups. by eapply (inv_chan s I).
  - apply (inv_collected s I).
  - apply (inv_collected_one s I).
  - intros w p c Hw H. pose proof (inv_waits s I w _ p Hw eq_refl) as [c' Hc]. lookups.
    by eapply (inv_timeout s I).
Qed.

Lemma inv_set_setter t x s :
  inv s → setters s !! t = None → (∀ p b by_whom, x ≠ SReturned ToolApprovalDecisionResult_Recorded (Some p) b by_whom) →
  (∀ p by_whom, accepted x = Some (p, by_whom) →
     ∃ c, heap s !! p = Some c ∧ requester_matches (Request c) by_whom = true) →
  inv (set_setter t x s).
Proof.
  intros I Hnew Hx Hacc.
  assert (∀ t' p b by_whom, recorded (set_setter t x s) t' p b by_whom ↔ recorded s t' p b by_whom) as Hrec.
  { unfold recorded. simpl. intros t' p b by_whom. split; intros H; [lookups; [by destruct (Hx p b by_whom) | done] |].
    rewrite lookup_insert_ne; [done | congruence]. }
  split; unfold timed_out; try setoid_rewrite Hrec; try apply I.
  simpl. intros t' y p by_whom H. lookups; [apply Hacc | by apply (inv_accepted s I t')].
Qed.

Lemma inv_set_pending id s : inv s → inv (set_pending (delete id) s).
Proof.
  intros I. split; try apply I. simpl. intros i p H. lookups. by eapply (inv_pending s I).
Qed.

Lemma inv_send t p b by_whom s :
  inv s → setters s !! t = Some (SFound p b by_whom) →
  let '(r, s') := send_decision p b s in inv (set_setter t (SReturned r (Some p) b by_whom) s').
Proof.
  intros I Ht. destruct (inv_accepted s I t _ p by_whom Ht eq_refl) as (c & Hc & Hm).
  unfold send_decision. rewrite Hc. destruct (setDecision c) eqn:Hset.
  - assert (∀ t' p' b' y, recorded (set_setter t (SReturned ToolApprovalDecisionResult_NotFound (Some p) b by_whom) s)
      t' p' b' y ↔ recorded s t' p' b' y) as Hrec.
    { unfold recorded. simpl. intros t' p' b' y. split; intros H; [by lookups |].
      rewrite lookup_insert_ne; [done | congruence]. }
    split; unfold timed_out; try setoid_rewrite Hrec; try apply I.
    simpl. intros t' y p' z H. lookups; [done | by apply (inv_accepted s I t')].
  - assert (∀ t' b' y, ¬ recorded s t' p b' y) as Hno.
    { intros t' b' y H. pose proof (inv_once s I t' p b' y c H Hc). congruence. }
    assert (decisionChan c = None) as Hempty.
    { destruct (decisionChan c) as [b' |] eqn:E; [| done].
      destruct (inv_chan s I p c b' Hc E) as [(t' & y & H) _]. by apply Hno in H. }
    split; unfold recorded, timed_out; simpl.
    + intros q H. apply (inv_heap s I). lookups; [by rewrite Hc | done].
    + intros i q H. rewrite lookup_insert_is_Some. destruct (decide (p = q)); [by left | right].
      split; [done | by eapply (inv_pending s I)].
    + intros w x q H Hx. rewrite lookup_insert_is_Some. destruct (decide (p = q)); [by left | right].
      split; [done | by eapply (inv_waits s I)].
    + intros t' x q z H Hx. lookups.
      * eexists. split; [apply lookup_insert_eq | done].
      * destruct (inv_accepted s I t' x q z) as (c' & Hc' & Hm'); [done..|].
        destruct (decide (p = q)) as [<- | Hpq].
        -- simplify_eq. eexists. split; [apply lookup_insert_eq | done].
        -- exists c'. by rewrite lookup_insert_ne.
    + intros t' q b' z c' H H'. lookups; try done; try (by destruct (Hno t' b' z)).
      by eapply (inv_once s I t').
    + intros t1 t2 q b1 b2 y z H1 H2. lookups; try done; try (by destruct (Hno t2 b2 z)); try (by destruct (Hno t1 b1 y)).
      by eapply (inv_one s I t1 t2).
    + intros q c' b' H Hb'. lookups.
      * split; [exists t, by_whom; apply lookup_insert_eq |]. intros w x b1 Hw Hx.
        destruct (inv_collected s I w x _ _ Hw Hx) as (t' & y & H'). by apply Hno in H'.
      * destruct (inv_chan s I q c' b') as [(t' & y & H') Hw]; [done..|]. split; [| done]. exists t', y.
        rewrite lookup_insert_ne; [done |]. unfold recorded in H'. congruence.
    + intros w x q b' Hw Hx. destruct (inv_collected s I w x q b') as (t' & y & H'); [done..|]. exists t', y.
      rewrite lookup_insert_ne; [done |]. unfold recorded in H'. congruence.
    + apply (inv_collected_one s I).
    + intros w q c' Hw H. lookups; [pose proof (inv_timeout s I w _ c Hw Hc) as [Hd _]; congruence |].
      destruct (inv_timeout s I w q c' Hw) as [Hd Hn]; [done |]. split; [done |].
      intros t' b' y H'. lookups. by apply (Hn t' b' y).
Qed.

(** A change of one waiter that receives nothing. *)
Lemma inv_set_waiter w x s :
  inv s →
  (∀ p, waits_on x = Some p → is_Some (heap s !! p)) →
  (∀ p b, collected x = Some (p, b) → ∃ y, waiters s !! w = Some y ∧ collected y = Some (p, b)) →
  (∀ p, x ≠ WReturned ToolApprovalWaitResult_TimedOut (Some p)) →
  inv (set_waiter w x s).
Proof.
  intros I Hwaits Hcoll Htime.
  assert (∀ w' y p b, waiters (set_waiter w x s) !! w' = Some y → collected y = Some (p, b) →
    ∃ z, waiters s !! w' = Some z ∧ collected z = Some (p, b)) as Hback.
  { simpl. intros w' y p b H Hy. lookups; [by apply Hcoll | eauto]. }
  split; unfold timed_out; try apply I.
  - simpl. intros w' y p H Hy. lookups; [by apply Hwaits | by eapply (inv_waits s I)].
  - intros p c b H Hb. destruct (inv_chan s I p c b H Hb) as [Ht Hno]. split; [done |].
    intros w' y b' Hw Hy. destruct (Hback w' y p b' Hw Hy) as (z & Hz & Hz'). by apply (Hno w' z b').
  - intros w' y p b Hw Hy. destruct (Hback w' y p b Hw Hy) as (z & Hz & Hz'). by apply (inv_collected s I w' z).
  - intros w1 w2 y1 y2 p b1 b2 H1 H2 Hy1 Hy2.
    destruct (Hback _ _ _ _ H1 Hy1) as (z1 & Hz1 & Hz1'). destruct (Hback _ _ _ _ H2 Hy2) as (z2 & Hz2 & Hz2').
    by apply (inv_collected_one s I w1 w2 z1 z2 p b1 b2).
  - intros w' p c H. simpl in H. lookups; [by destruct (Htime p) | by apply (inv_timeout s I w')].
Qed.

(** Changing the channel or the [sync.Once] of one request. *)
Definition update_request (p : loc) (chan : option bool) (once : bool) (c : pendingRequest) (s : service) : service :=
  set_heap <[p := MkPending (Request c) (ExpiresAt c) chan once]> s.

Lemma inv_update_request p chan c s :
  inv s → heap s !! p = Some c → (∀ b, chan = Some b → decisionChan c = Some b) →
  inv (update_request p chan (setDecision c) c s).
Proof.
  intros I Hc Hchan. assert (∀ q, is_Some (heap s !! q) → is_Some (<[p := MkPending (Request c) (ExpiresAt c) chan
    (setDecision c)]> (heap s) !! q)) as Hsome.
  { intros q Hq. rewrite lookup_insert_is_Some. destruct (decide (p = q)); [by left | by right]. }
  split; unfold recorded, timed_out; simpl; try apply I.
  - intros q H. apply (inv_heap s I). lookups; [by rewrite Hc | done].
  - intros i q H. apply Hsome. by eapply (inv_pending s I).
  - intros w x q H Hx. apply Hsome. by eapply (inv_waits s I).
  - intros t x q z H Hx. destruct (inv_accepted s I t x q z) as (c' & Hc' & Hm'); [done..|].
    destruct (decide (p = q)) as [<- | Hpq].
    + simplify_eq. eexists. split; [apply lookup_insert_eq | done].
    + exists c'. by rewrite lookup_insert_ne.
  - intros t q b y c' H H'. lookups; by eapply (inv_once s I t).
  - intros q c' b H Hb. lookups; [eapply (inv_chan s I); eauto | by eapply (inv_chan s I)].
  - intros w q c' Hw H. lookups; [by apply (inv_timeout s I w _ c) | by eapply (inv_timeout s I w)].
Qed.

Lemma receive_inv p s b s' :
  receive p s = Some (b, s') →
  ∃ c, heap s !! p = Some c ∧ decisionChan c = Some b ∧ s' = update_request p None (setDecision c) c s.
Proof.
  unfold receive. intros H. destruct (heap s !! p) as [c |]; [| done]. simpl in H.
  destruct (decisionChan c) eqn:Hb; [| done]. simpl in H. simplify_eq. by exists c.
Qed.

Lemma inv_receive p s b s' : inv s → receive p s = Some (b, s') → inv s'.
Proof. intros I (c & Hc & Hb & ->)%receive_inv. by apply inv_update_request. Qed.

Lemma inv_sweep now id s : inv s → inv (sweep now id s).
Proof.
  intros I. unfold sweep. destruct (pending s !! id) as [p |]; [| done].
  destruct (heap s !! p) as [c |]; [| done]. case_bool_decide; [by apply inv_set_pending |].
  destruct (receive p s) as [[b s'] |] eqn:Hr; [| done]. by eapply inv_set_pending, inv_receive.
Qed.

(** A waiter takes the decision out of the channel. *)
Lemma inv_collect w y x p b s s' :
  inv s → receive p s = Some (b, s') → waiters s !! w = Some y →
  collected x = Some (p, b) → waits_on x = Some p → inv (set_waiter w x s').
Proof.
  intros I Hr Hw Hx Hp. pose proof (inv_receive p s b s' I Hr) as I'.
  apply receive_inv in Hr as (c & Hc & Hb & ->). destruct (inv_chan s I p c b Hc Hb) as [Hrec Hno].
  split; unfold timed_out; try apply I'; simpl.
  - intros w' z q H Hz. lookups; [by rewrite lookup_insert_eq | by eapply (inv_waits _ I')].
  - intros q c' b' H Hb'. lookups. destruct (inv_chan s I q c' b') as [Hr' Hno']; [done..|]. split; [done |].
    intros w' z b1 Hw' Hz. lookups. by apply (Hno' w' z b1).
  - intros w' z q b' H Hz. lookups; [done | by eapply (inv_collected s I)].
  - intros w1 w2 z1 z2 q b1 b2 H1 H2 Hz1 Hz2. lookups; [done | edestruct Hno; eassumption | edestruct Hno; eassumption |
      by eapply (inv_collected_one s I w1 w2)].
  - intros w' q c' H. lookups. by apply (inv_timeout _ I' w').
Qed.

Lemma inv_close w p s :
  inv s → waiters s !! w = Some (WRemoved p) →
  let '(x, s') := close_request p s in inv (set_waiter w x s').
Proof.
  intros I Hw. destruct (inv_waits s I w _ p Hw eq_refl) as [c Hc]. unfold close_request. rewrite Hc.
  destruct (setDecision c) eqn:Hset.
  { apply inv_set_waiter; [done | | done | done]. intros q [= <-]. by rewrite Hc. }
  assert (∀ t b y, ¬ recorded s t p b y) as Hno.
  { intros t b y H. pose proof (inv_once s I t p b y c H Hc). congruence. }
  assert (decisionChan c = None) as Hempty.
  { destruct (decisionChan c) as [b |] eqn:E; [| done].
    destruct (inv_chan s I p c b Hc E) as [(t & y & H) _]. by apply Hno in H. }
  split; unfold recorded, timed_out; simpl; try apply I.
  - intros q H. apply (inv_heap s I). lookups; [by rewrite Hc | done].
  - intros i q H. rewrite lookup_insert_is_Some. destruct (decide (p = q)); [by left | right].
    split; [done | by eapply (inv_pending s I)].
  - intros w' x q H Hx. rewrite lookup_insert_is_Some. destruct (decide (p = q)); [by left | right].
    split; [done |]. lookups. by eapply (inv_waits s I).
  - intros t x q z H Hx. destruct (inv_accepted s I t x q z) as (c' & Hc' & Hm'); [done..|].
    destruct (decide (p = q)) as [<- | Hpq].
    + simplify_eq. eexists. split; [apply lookup_insert_eq | done].
    + exists c'. by rewrite lookup_insert_ne.
  - intros t q b y c' H H'. lookups; [done | by eapply (inv_once s I t)].
  - intros q c' b H Hb. lookups. destruct (inv_chan s I q c' b) as [Hr Hn]; [done..|].
    split; [done |]. intros w' x b' H' Hx. lookups. by eapply Hn.
  - intros w' x q b H Hx. lookups. by eapply (inv_collected s I).
  - intros w1 w2 x1 x2 q b1 b2 H1 H2 Hx1 Hx2. lookups. by eapply (inv_collected_one s I w1 w2).
  - intros w' q c' H H'. lookups; [split; [done | exact Hno] | split; [done |]; by apply (inv_timeout s I w' _ c) | by eapply (inv_timeout s I w')].
Qed.

Lemma inv_step s l s' : inv s → step s l s' → inv s'.
Proof.
  unfold step. intros I. destruct l; cbn [exec]; intros H.
  - injection H as <-. by apply inv_create.
  - destruct (setters s !! t) eqn:Ht; [done |]. injection H as <-.
    unfold find_request. destruct (pending s !! approvalId) as [p |]; [| by apply inv_set_setter].
    destruct (heap s !! p) as [c |] eqn:Hc; [| by apply inv_set_setter].
    destruct (requester_matches (Request c) by_whom) eqn:Hm; [| by apply inv_set_setter].
    apply inv_set_setter; [done..|]. intros q y [= <- <-]. by exists c.
  - destruct (setters s !! t) as [[p b y |] |] eqn:Ht; [| done..].
    pose proof (inv_send t p b y s I Ht) as Hsend. destruct (send_decision p b s). by injection H as <-.
  - destruct (waiters s !! w) eqn:Hw; [done |]. injection H as <-.
    destruct (pending s !! approvalId) as [p |] eqn:Hp; apply inv_set_waiter; try done.
    intros q [= <-]. by eapply (inv_pending s I).
  - destruct (waiters s !! w) as [[id p | | | | | |] |] eqn:Hw; try done. injection H as <-.
    apply inv_set_waiter; try done. intros q [= <-]. by eapply (inv_waits s I w).
  - destruct (waiters s !! w) as [[id p | | | | | |] |] eqn:Hw; try done.
    destruct (receive p s) as [[b s1] |] eqn:Hr; [| done]. injection H as <-. by eapply inv_collect.
  - destruct (waiters s !! w) as [[id p | | | | | |] |] eqn:Hw; try done. injection H as <-.
    apply inv_set_waiter; try done. intros q [= <-]. by eapply (inv_waits s I w).
  - destruct (waiters s !! w) as [[| id p b | id p | | | |] |] eqn:Hw; try done; injection H as <-;
      apply inv_set_waiter; try (by apply inv_set_pending).
    + simpl. intros q [= <-]. by eapply (inv_waits s I w).
    + intros q b' Hx. exists (WReceived id p b). split; [done |]. by destruct b; simpl in *; simplify_eq.
    + by destruct b.
    + simpl. intros q [= <-]. by eapply (inv_waits s I w).
    + done.
    + done.
  - destruct (waiters s !! w) as [[| | | p | | |] |] eqn:Hw; try done.
    pose proof (inv_close w p s I Hw) as Hclose. destruct (close_request p s). by injection H as <-.
  - destruct (waiters s !! w) as [[| | | | p | |] |] eqn:Hw; try done.
    destruct (receive p s) as [[b s1] |] eqn:Hr; [| done]. injection H as <-.
    eapply inv_collect; try done. by destruct b.
  - injection H as <-. by apply inv_sweep.
Qed.

Lemma reachable_inv s : reachable s → inv s.
Proof. intros [ls H]. eapply (steps_invariant step inv inv_step); [exact H | apply inv_new]. Qed.

(** ** One decision, one outcome *)

(** C6: however the callers interleave, a request gets at most one decision; a
    wait that answers approved or denied answers the decision of a caller whose
    channel and sender passed the check, no two waits answer the same decision,
    and a request whose wait timed out has no decision. *)
Theorem decisions_are_exclusive s :
  reachable s →
  (∀ t t' p b b' y y', recorded s t p b y → recorded s t' p b' y' → t = t') ∧
  (∀ w p b, waiters s !! w = Some (WReturned (decided b) (Some p)) →
    ∃ t y c, recorded s t p b y ∧ heap s !! p = Some c ∧ requester_matches (Request c) y = true) ∧
  (∀ w w' p b b', waiters s !! w = Some (WReturned (decided b) (Some p)) →
    waiters s !! w' = Some (WReturned (decided b') (Some p)) → w = w') ∧
  (∀ w p t b y, timed_out s w p → ¬ recorded s t p b y).
Proof.
  intros I%reachable_inv. assert (∀ b p, collected (WReturned (decided b) (Some p)) = Some (p, b)) as Hdec
    by (by intros []).
  split_and!.
  - apply (inv_one s I).
  - intros w p b Hw. destruct (inv_collected s I w _ p b Hw (Hdec b p)) as (t & y & Ht). exists t, y.
    destruct (inv_accepted s I t _ p y Ht eq_refl) as (c & Hc & Hm). eauto.
  - intros w w' p b b' H H'. by eapply (inv_collected_one s I w w').
  - intros w p t b y Hw. destruct (inv_waits s I w _ p Hw eq_refl) as [c Hc]. by apply (inv_timeout s I w p c).
Qed.

(** ** Listing takes decisions away *)

Lemma ListPending_sweeps now channelId senderId order : ∀ s,
  steps step s (LSweep now <$> order) (ListPending now channelId senderId order s).2.
Proof.
  induction order as [| id order IH]; intros s; [constructor |]. simpl.
  econstructor; [done |]. specialize (IH (sweep now id s)).
  destruct (ListPending now channelId senderId order (sweep now id s)). repeat case_match; exact IH.
Qed.

(** The request has been decided, its decision is gone, and [w] waits for it. *)
Definition stuck (w : nat) (p : loc) (s : service) : Prop :=
  inv s ∧ (∃ c, heap s !! p = Some c ∧ decisionChan c = None ∧ setDecision c = true) ∧
  ∃ x, waiters s !! w = Some x ∧
    ((∃ id, x = WSelect id p) ∨ x = WCanceled p ∨ (∃ id, x = WFired id p) ∨ x = WRemoved p ∨ x = WLate p).

Lemma stuck_receive w p s : stuck w p s → receive p s = None.
Proof. intros (_ & (c & Hc & Hb & _) & _). unfold receive. rewrite Hc. simpl. by rewrite Hb. Qed.

(** The cell of a decided request without a decision never changes again. *)
Lemma stuck_cell w p s l s' c :
  stuck w p s → step s l s' → heap s !! p = Some c → heap s' !! p = Some c.
Proof.
  intros H Hstep Hc. pose proof (stuck_receive w p s H) as Hrec.
  destruct H as (I & (c' & Hc' & Hb & Hset) & _). assert (c' = c) as -> by congruence.
  assert (∀ q b s2, receive q s = Some (b, s2) → heap s2 !! p = Some c) as Hr.
  { intros q b s2 Hq. destruct (decide (p = q)) as [<- | Hne]; [congruence |].
    apply receive_inv in Hq as (d & Hd & _ & ->). simpl. by rewrite lookup_insert_ne. }
  unfold step in Hstep. destruct l; cbn [exec] in Hstep.
  - injection Hstep as <-. simpl. rewrite lookup_insert_ne; [done |].
    pose proof (inv_heap s I p (mk_is_Some _ _ Hc)). lia.
  - case_hyp Hstep; [done |]. by injection Hstep as <-.
  - destruct (setters s !! t) as [[q b y |] |]; try done. unfold send_decision in Hstep.
    destruct (heap s !! q) as [d |] eqn:Hd; [| by injection Hstep as <-].
    destruct (setDecision d) eqn:Hd'; injection Hstep as <-; [done |]. simpl.
    rewrite lookup_insert_ne; [done |]. intros ->. congruence.
  - case_hyp Hstep; [done |]. by injection Hstep as <-.
  - destruct (waiters s !! w0) as [[] |]; try done. by injection Hstep as <-.
  - destruct (waiters s !! w0) as [[id q | | | | | |] |]; try done.
    destruct (receive q s) as [[b s2] |] eqn:Hq; [| done]. injection Hstep as <-. exact (Hr q b s2 Hq).
  - destruct (waiters s !! w0) as [[] |]; try done. by injection Hstep as <-.
  - destruct (waiters s !! w0) as [[] |]; try done; by injection Hstep as <-.
  - destruct (waiters s !! w0) as [[| | | q | | |] |]; try done. unfold close_request in Hstep.
    destruct (heap s !! q) as [d |] eqn:Hd; [| by injection Hstep as <-].
    destruct (setDecision d) eqn:Hd'; injection Hstep as <-; [done |]. simpl.
    rewrite lookup_insert_ne; [done |]. intros ->. congruence.
  - destruct (waiters s !! w0) as [[| | | | q | |] |]; try done.
    destruct (receive q s) as [[b s2] |] eqn:Hq; [| done]. injection Hstep as <-. exact (Hr q b s2 Hq).
  - injection Hstep as <-. unfold sweep. destruct (pending s !! approvalId) as [q |]; [| done].
    destruct (heap s !! q) as [d |]; [| done]. case_bool_decide; [done |].
    destruct (receive q s) as [[b s2] |] eqn:Hq; [| done]. exact (Hr q b s2 Hq).
Qed.

(** The phases a wait that receives nothing goes through. *)
Definition waiting_phase (p : loc) (x : waiter) : Prop :=
  (∃ id, x = WSelect id p) ∨ x = WCanceled p ∨ (∃ id, x = WFired id p) ∨ x = WRemoved p ∨ x = WLate p.

Lemma stuck_waiter w p s l s' x :
  stuck w p s → step s l s' → waiters s !! w = Some x → waiting_phase p x →
  ∃ x', waiters s' !! w = Some x' ∧ waiting_phase p x'.
Proof.
  intros H Hstep Hx Hphase. pose proof (stuck_receive w p s H) as Hrec.
  destruct H as (I & (c & Hc & Hb & Hset) & _).
  assert (∀ w0 y s2, s' = set_waiter w0 y s2 → waiters s2 = waiters s → (w0 = w → waiting_phase p y) →
    ∃ x', waiters s' !! w = Some x' ∧ waiting_phase p x') as Hset_waiter.
  { intros w0 y s2 -> Hs Hy. simpl. rewrite Hs. destruct (decide (w0 = w)) as [-> | Hne].
    - rewrite lookup_insert_eq. eauto.
    - rewrite lookup_insert_ne; eauto. }
  unfold step in Hstep. destruct l; cbn [exec] in Hstep.
  - injection Hstep as <-. eauto.
  - case_hyp Hstep; [done |]. injection Hstep as <-. eauto.
  - destruct (setters s !! t) as [[q b y |] |]; try done. unfold send_decision in Hstep.
    destruct (heap s !! q) as [d |]; [destruct (setDecision d) |]; injection Hstep as <-; eauto.
  - destruct (waiters s !! w0) eqn:Hw; [done |]. injection Hstep as <-.
    eapply Hset_waiter; [done | done |]. intros ->. congruence.
  - destruct (waiters s !! w0) as [[id q | | | | | |] |] eqn:Hw; try done. injection Hstep as <-.
    eapply Hset_waiter; [done | done |]. intros ->. unfold waiting_phase in *. naive_solver.
  - destruct (waiters s !! w0) as [[id q | | | | | |] |] eqn:Hw; try done.
    destruct (receive q s) as [[b s2] |] eqn:Hq; [| done]. injection Hstep as <-.
    eapply Hset_waiter; [done | by apply receive_inv in Hq as (d & _ & _ & ->) |]. intros ->.
    assert (q = p) as ->; [unfold waiting_phase in *; naive_solver | congruence].
  - destruct (waiters s !! w0) as [[id q | | | | | |] |] eqn:Hw; try done. injection Hstep as <-.
    eapply Hset_waiter; [done | done |]. intros ->. unfold waiting_phase in *. naive_solver.
  - destruct (waiters s !! w0) as [[| id q b | id q | | | |] |] eqn:Hw; try done; injection Hstep as <-;
      eapply Hset_waiter; try done; intros ->; unfold waiting_phase in *; naive_solver.
  - destruct (waiters s !! w0) as [[| | | q | | |] |] eqn:Hw; try done.
    destruct (close_request q s) as [y s2] eqn:Hy. injection Hstep as <-.
    assert (waiters s2 = waiters s) as Hs2 by (unfold close_request in Hy; repeat case_hyp Hy; by simplify_eq).
    eapply Hset_waiter; [done | done |]. intros ->.
    assert (q = p) as -> by (unfold waiting_phase in *; naive_solver).
    unfold close_request in Hy. rewrite Hc, Hset in Hy. injection Hy as <- <-. by do 4 right.
  - destruct (waiters s !! w0) as [[| | | | q | |] |] eqn:Hw; try done.
    destruct (receive q s) as [[b s2] |] eqn:Hq; [| done]. injection Hstep as <-.
    eapply Hset_waiter; [done | by apply receive_inv in Hq as (d & _ & _ & ->) |]. intros ->.
    assert (q = p) as ->; [unfold waiting_phase in *; naive_solver | congruence].
  - injection Hstep as <-. unfold sweep. destruct (pending s !! approvalId) as [q |]; [| eauto].
    destruct (heap s !! q) as [d |]; [| eauto]. case_bool_decide; [eauto |].
    destruct (receive q s) as [[b s2] |] eqn:Hq; [| eauto].
    apply receive_inv in Hq as (d' & _ & _ & ->). eauto.
Qed.

Lemma stuck_step w p s l s' : stuck w p s → step s l s' → stuck w p s'.
Proof.
  intros H Hstep. destruct H as (I & (c & Hc & Hb & Hset) & (x & Hx & Hphase)) eqn:E. clear E. split_and!.
  - by eapply inv_step.
  - exists c. split; [by eapply (stuck_cell w p s) | done].
  - by eapply (stuck_waiter w p s).
Qed.

(** When a list of the pending requests is taken between a decision and
    its receipt by the wait for it, that wait never returns, whatever happens
    next: it can only be cancelled before its timer fires. *)
Theorem listing_hangs_the_wait s w id p c b now ls s' :
  reachable s → waiters s !! w = Some (WSelect id p) → pending s !! id = Some p →
  heap s !! p = Some c → decisionChan c = Some b → (now < ExpiresAt c)%Z →
  steps step (sweep now id s) ls s' →
  ∀ r q, waiters s' !! w ≠ Some (WReturned r q).
Proof.
  intros I%reachable_inv Hw Hp Hc Hb Hnow Hrun.
  assert (stuck w p (sweep now id s)) as Hstuck.
  { destruct (inv_chan s I p c b Hc Hb) as [(t & y & Ht) _].
    pose proof (inv_once s I t p b y c Ht Hc) as Hset. split; [by apply inv_sweep |].
    unfold sweep, receive. rewrite Hp, Hc. rewrite (bool_decide_eq_false_2 (ExpiresAt c ≤ now)%Z) by lia.
    simpl. rewrite Hb. simpl. split; [eexists; by rewrite lookup_insert_eq | eauto 6]. }
  assert (stuck w p s') as (_ & _ & x & Hx & Hphase).
  { eapply (steps_invariant step (stuck w p)); [by apply stuck_step | exact Hrun | exact Hstuck]. }
  intros r q Hr. naive_solver.
Qed.

(** ** Without listing, a wait can finish *)

Definition is_sweep (l : label) : bool := match l with LSweep _ _ => true | _ => false end.

Definition is_waiting (x : waiter) : bool :=
  match x with WSelect _ _ | WFired _ _ | WRemoved _ | WLate _ => true | _ => false end.

(** A request that has been closed or decided still holds the decision, or some
    wait on it has stopped waiting. *)
Definition answered (s : service) : Prop :=
  (∀ p c, heap s !! p = Some c → setDecision c = true →
     is_Some (decisionChan c) ∨
     ∃ w x, waiters s !! w = Some x ∧ waits_on x = Some p ∧ is_waiting x = false) ∧
  (∀ w p c, waiters s !! w = Some (WLate p) → heap s !! p = Some c → setDecision c = true).

(** A new wait, or a wait that stays with its request and does not start to wait
    again. *)
Lemma answered_waiter w x s :
  answered s →
  (∀ y, waiters s !! w = Some y → waits_on x = waits_on y ∧ (is_waiting y = false → is_waiting x = false)) →
  (∀ q, x ≠ WLate q) →
  answered (set_waiter w x s).
Proof.
  intros [H1 H2] Hy Hlate. split; simpl.
  - intros q c Hc Hset. destruct (H1 q c Hc Hset) as [Hsome | (w' & z & Hz & Hz' & Hcl)]; [by left | right].
    destruct (decide (w = w')) as [<- | Hne].
    + destruct (Hy z Hz) as [Hon Hcl']. exists w, x. rewrite lookup_insert_eq. by rewrite Hon, Hcl'.
    + exists w', z. by rewrite lookup_insert_ne.
  - intros w' q c Hw Hc. lookups; [by destruct (Hlate q) | by eapply H2].
Qed.

(** A wait stops waiting for the request whose channel or [sync.Once] it
    changes. *)
Lemma answered_update w x y p chan once c s :
  answered s → heap s !! p = Some c → waiters s !! w = Some y → waits_on x = Some p →
  waits_on y = Some p → is_waiting x = false → (setDecision c = true → once = true) →
  answered (set_waiter w x (update_request p chan once c s)).
Proof.
  intros [H1 H2] Hc Hw Hx Hy Hcl Honce. split; simpl.
  - intros q d Hd Hset. destruct (decide (p = q)) as [<- | Hne].
    + right. exists w, x. by rewrite lookup_insert_eq.
    + rewrite lookup_insert_ne in Hd by done.
      destruct (H1 q d Hd Hset) as [Hsome | (w' & z & Hz & Hz' & Hcl')]; [by left | right].
      exists w', z. rewrite lookup_insert_ne; [done |]. congruence.
  - intros w' q d Hl Hd. lookups; [apply Honce; by eapply H2 | by eapply H2].
Qed.

Lemma answered_step s l s' : is_sweep l = false → inv s ∧ answered s → step s l s' → inv s' ∧ answered s'.
Proof.
  intros Hl [I H] Hstep. split; [by eapply inv_step |]. unfold step in Hstep.
  destruct l; cbn [exec] in Hstep; try discriminate Hl.
  - injection Hstep as <-. destruct H as [H1 H2]. split; simpl.
    + intros p c Hc Hset. lookups. by apply H1.
    + intros w p c Hw Hc. lookups; [| by eapply H2].
      destruct (inv_waits s I w _ _ Hw eq_refl) as [d Hd]. pose proof (inv_heap s I _ (mk_is_Some _ _ Hd)). lia.
  - case_hyp Hstep; [done |]. by injection Hstep as <-.
  - destruct (setters s !! t) as [[p b y |] |]; try done. unfold send_decision in Hstep.
    destruct (heap s !! p) as [c |] eqn:Hc; [| by injection Hstep as <-].
    destruct (setDecision c) eqn:Hset; injection Hstep as <-; [done |]. destruct H as [H1 H2]. split; simpl.
    + intros q d Hd Hd'. lookups; [by left | by apply H1].
    + intros w q d Hw Hd. lookups; [done | by eapply H2].
  - destruct (waiters s !! w) eqn:Hw; [done |]. injection Hstep as <-.
    apply answered_waiter; [done | by rewrite Hw | by intros q; case_match].
  - destruct (waiters s !! w) as [[id p | | | | | |] |] eqn:Hw; try done. injection Hstep as <-.
    apply answered_waiter; [done | | done]. intros y Hy. by simplify_eq.
  - destruct (waiters s !! w) as [[id p | | | | | |] |] eqn:Hw; try done.
    destruct (receive p s) as [[b s1] |] eqn:Hr; [| done]. injection Hstep as <-.
    apply receive_inv in Hr as (c & Hc & Hb & ->). by eapply answered_update.
  - destruct (waiters s !! w) as [[id p | | | | | |] |] eqn:Hw; try done. injection Hstep as <-.
    apply answered_waiter; [done | | done]. intros y Hy. by simplify_eq.
  - destruct (waiters s !! w) as [[| id p b | id p | | | |] |] eqn:Hw; try done; injection Hstep as <-;
      apply (answered_waiter w _ (set_pending (delete id) s)); try done; intros y Hy; simpl in Hy;
      rewrite Hw in Hy; by injection Hy as <-.
  - destruct (waiters s !! w) as [[| | | p | | |] |] eqn:Hw; try done.
    destruct (inv_waits s I w _ _ Hw eq_refl) as [c Hc]. unfold close_request in Hstep. rewrite Hc in Hstep.
    destruct (setDecision c) eqn:Hset; injection Hstep as <-; [| by eapply answered_update].
    destruct H as [H1 H2]. split; simpl.
    + intros q d Hd Hd'. destruct (H1 q d Hd Hd') as [? | (w' & z & Hz & Hz' & Hcl)]; [by left | right].
      exists w', z. rewrite lookup_insert_ne; [done |]. intros ->. rewrite Hw in Hz. by injection Hz as <-.
    + intros w' q d Hl' Hd. lookups; [congruence | by eapply H2].
  - destruct (waiters s !! w) as [[| | | | p | |] |] eqn:Hw; try done.
    destruct (receive p s) as [[b s1] |] eqn:Hr; [| done]. injection Hstep as <-.
    apply receive_inv in Hr as (c & Hc & Hb & ->). eapply answered_update; done.
Qed.

(** While no list is taken, a call of [WaitForDecisionOutcome] that is the
    only one on its request is never left waiting for a decision that cannot
    come: after its timer it can receive the decision that was faster. *)
Theorem lone_waits_can_finish ls s w p :
  Forall (λ l, is_sweep l = false) ls → steps step NewToolApprovalService ls s →
  waiters s !! w = Some (WLate p) →
  (∀ w' x, waiters s !! w' = Some x → waits_on x = Some p → w' = w) →
  ∃ b s', step s (LWaitLate w) s' ∧ waiters s' !! w = Some (WReturned (decided b) (Some p)).
Proof.
  intros Hls Hrun Hw Honly. assert (inv s ∧ answered s) as [I [H1 H2]].
  { eapply (steps_invariant_on step _ (λ s, inv s ∧ answered s)); [exact answered_step | exact Hls | exact Hrun |].
    split; [apply inv_new |]. split; simpl; intros *; by rewrite lookup_empty. }
  destruct (inv_waits s I w _ p Hw eq_refl) as [c Hc].
  destruct (H1 p c Hc (H2 w p c Hw Hc)) as [[b Hb] | (w' & x & Hx & Hon & Hcl)].
  - exists b. eexists. unfold step. cbn [exec]. rewrite Hw. unfold receive. rewrite Hc. simpl. rewrite Hb. simpl.
    split; [done |]. simpl. by rewrite lookup_insert_eq.
  - pose proof (Honly w' x Hx Hon). subst. rewrite Hw in Hx. by injection Hx as <-.
Qed.

(** ** Two runs *)

(** Running labels; [None] when one is not enabled. *)
Fixpoint run (ls : list label) (s : service) : option service :=
  match ls with
  | [] => Some s
  | l :: ls => exec l s ≫= run ls
  end.

Lemma run_steps ls : ∀ s s', run ls s = Some s' → steps step s ls s'.
Proof.
  induction ls as [| l ls IH]; intros s s' H; simpl in H; [injection H as <-; constructor |].
  destruct (exec l s) as [s1 |] eqn:E; [| done]. econstructor; [exact E | by apply IH].
Qed.

Lemma run_reachable ls s : run ls NewToolApprovalService = Some s → reachable s.
Proof. intros H. exists ls. by apply run_steps. Qed.

(** A shell command is approved by the user who asked for it, after somebody
    else tried. *)
Definition ask : list label :=
  [LCreate "s1" "web" "ann" "shell" "rm x" 0 100 " " true "Run rm" "apr_1"; LWaitStart 0 "apr_1";
   LSetFind 0 "apr_1" true (Some ("web", "bob")); LSetFind 1 "apr_1" true (Some ("web", "ann")); LSetDo 1].
Definition approve_in_time : list label := ask ++ [LWaitReceive 0; LWaitDelete 0].

Lemma decisions_are_exclusive_witness :
  let s := default NewToolApprovalService (run approve_in_time NewToolApprovalService) in
  setters s !! 0 = Some (SReturned ToolApprovalDecisionResult_Unauthorized (Some 0) true (Some ("web", "bob"))) ∧
  ∃ t y c, recorded s t 0 true y ∧ heap s !! 0 = Some c ∧ requester_matches (Request c) y = true.
Proof.
  intros s. split; [reflexivity |].
  apply (proj1 (proj2 (decisions_are_exclusive s (run_reachable approve_in_time s eq_refl))) 0 0 true).
  reflexivity.
Defined.

(** The same, with a list taken before the wait receives. *)
Lemma listing_hangs_the_wait_witness :
  let s := default NewToolApprovalService (run ask NewToolApprovalService) in
  let s' := default s (run [LWaitTimer 0; LWaitDelete 0; LWaitOnce 0] (sweep 50 "apr_1" s)) in
  waiters s' !! 0 = Some (WLate 0) ∧ ∀ r q, waiters s' !! 0 ≠ Some (WReturned r q).
Proof.
  intros s s'. split; [reflexivity |].
  apply (listing_hangs_the_wait s 0 "apr_1" 0
    (MkPending (MkRequest "apr_1" "s1" "web" "ann" "shell" "rm x" "" true "Run rm") 100 (Some true) true) true 50
    [LWaitTimer 0; LWaitDelete 0; LWaitOnce 0]); try reflexivity.
  - by apply (run_reachable ask).
  - by apply run_steps.
Defined.

(** Without the list the same wait gets the decision, even though its timer has
    fired. *)
Lemma lone_waits_can_finish_witness :
  let s := default NewToolApprovalService
    (run (ask ++ [LWaitTimer 0; LWaitDelete 0; LWaitOnce 0]) NewToolApprovalService) in
  ∃ b s', step s (LWaitLate 0) s' ∧ waiters s' !! 0 = Some (WReturned (decided b) (Some 0)).
Proof.
  intros s. apply (lone_waits_can_finish (ask ++ [LWaitTimer 0; LWaitDelete 0; LWaitOnce 0])).
  - repeat (apply Forall_cons; split; [reflexivity |]). constructor.
  - by apply run_steps.
  - reflexivity.
  - intros w' x Hx _. assert (waiters s = {[0 := WLate 0]}) as E by reflexivity. rewrite E in Hx.
    by apply lookup_singleton_Some in Hx as [<- _].
Defined.
