(* ===== verification/ToolPolicy.v ===== *)
(** Policies on tool calls of [openclaw/core]: the description of an action
    ([ToolActionPolicyResolver] of [pipeline.go]), the risk catalogue of the tools
    ([ToolGovernanceDescriptorCatalog] of [governance_ledger_models.go]) and the
    decisions of the governance sidecar ([HttpSidecarToolGovernanceService] of
    [governance_service.go]).

    The HTTP exchange with the sidecar is an argument: its outcome is one of the
    cases [Authorize] tells apart.  Arguments of a tool are decoded JSON. *)

From S2P Require Import Prelude GoStrings Json.
Local Open Scope string_scope.

(** ** [ToolActionPolicyResolver] *)

Record ToolActionDescriptor := MkAction {
  Action : string;
  IsMutation : bool;
  RequiresApproval : bool;
  Summary : string;
  ApprovalFingerprint : string;
  RiskLevel : string;
}.

Definition zero_action : ToolActionDescriptor := MkAction "" false false "" "" "".
Definition described (summary : string) : ToolActionDescriptor := MkAction "" false false summary "" "".

Definition AlwaysMutatingTools : list string :=
  ["write_file"; "edit_file"; "apply_patch"; "shell"; "code_exec"; "git"; "database"; "home_assistant_write";
   "mqtt_publish"; "notion_write"; "inbox_zero"; "email"; "calendar"; "delegate_agent"].

(** The closure [getString]. *)
Definition getString (root : gmap string json) (key fallback : string) : string :=
  match root !! key with
  | Some (JStr s) => if bool_decide (s = "") then fallback else s
  | _ => fallback
  end.

Definition isOneOf (val : string) (options : list string) : bool := bool_decide (val ∈ options).

Definition or_else (x : string) (none some : string) : string := if bool_decide (x = "") then none else some.

Definition resolve_process (root : gmap string json) : ToolActionDescriptor :=
  let action := getString root "action" "start" in
  let command := getString root "command" "" in
  let processId := getString root "process_id" (getString root "session_id" "") in
  let summary :=
    if bool_decide (action = "start")
    then or_else command "Start a background process." ("Start process: " +:+ command)
    else if bool_decide (action = "write")
    then or_else processId "Write input to a background process." ("Write input to process " +:+ processId +:+ ".")
    else if bool_decide (action = "kill")
    then or_else processId "Terminate a background process." ("Terminate process " +:+ processId +:+ ".")
    else if bool_decide (action = "wait")
    then or_else processId "Wait for a background process." ("Wait for process " +:+ processId +:+ ".")
    else if bool_decide (action = "log")
    then or_else processId "Read background process logs." ("Read logs for process " +:+ processId +:+ ".")
    else if bool_decide (action = "poll")
    then or_else processId "Check background process status." ("Check status for process " +:+ processId +:+ ".")
    else "Inspect background processes." in
  MkAction action (isOneOf action ["start"; "write"; "kill"]) false summary "" "".

Definition resolve_automation (root : gmap string json) : ToolActionDescriptor :=
  let action := getString root "action" "list" in
  let automationId := getString root "automation_id" (getString root "id" "") in
  let name := getString root "name" "" in
  let on (verb none : string) := or_else automationId none (verb +:+ automationId +:+ ".") in
  let summary :=
    if bool_decide (action = "create")
    then or_else name "Create an automation." ("Create automation '" +:+ name +:+ "'.")
    else if bool_decide (action = "update") then on "Update automation " "Update an automation."
    else if bool_decide (action = "pause") then on "Pause automation " "Pause an automation."
    else if bool_decide (action = "resume") then on "Resume automation " "Resume an automation."
    else if bool_decide (action = "run") then on "Run automation " "Run an automation."
    else if bool_decide (action = "preview") then "Preview an automation."
    else if bool_decide (action = "get") then on "Read automation " "Read automation details."
    else "List automations." in
  MkAction action (isOneOf action ["create"; "update"; "pause"; "resume"; "run"]) false summary "" "".

Definition resolve_external_cli (root : gmap string json) : ToolActionDescriptor :=
  let action := getString root "action" "list_connectors" in
  let connector := getString root "connector" "" in
  let command := getString root "command" "" in
  let target :=
    if negb (bool_decide (connector = "")) && negb (bool_decide (command = ""))
    then connector +:+ "/" +:+ command else "an external CLI command" in
  let summary :=
    if bool_decide (action = "execute") then "Execute " +:+ target +:+ "."
    else if bool_decide (action = "preview") then "Preview " +:+ target +:+ "."
    else if bool_decide (action = "connector_status")
    then or_else connector "Check external CLI connector status."
           ("Check external CLI connector '" +:+ connector +:+ "'.")
    else if bool_decide (action = "list_commands")
    then or_else connector "List external CLI commands."
           ("List commands for external CLI connector '" +:+ connector +:+ "'.")
    else if bool_decide (action = "command_schema") then "Inspect schema for " +:+ target +:+ "."
    else "List external CLI connectors." in
  let execute := bool_decide (action = "execute") in
  MkAction action execute execute summary "" "".

Definition resolve_todo (root : gmap string json) : ToolActionDescriptor :=
  let action := getString root "action" "list" in
  let summary :=
    if bool_decide (action = "add") then "Add a todo item."
    else if bool_decide (action = "update") then "Update a todo item."
    else if bool_decide (action = "complete") then "Complete a todo item."
    else if bool_decide (action = "remove") then "Remove a todo item."
    else if bool_decide (action = "clear") then "Clear all todo items."
    else "List todo items." in
  MkAction action (negb (bool_decide (action = "list"))) false summary "" "".

(** Blank arguments stand for an empty object. *)
Definition Resolve (toolName : string) (argumentsJson : json_text) : ToolActionDescriptor :=
  if bool_decide (TrimSpace toolName = "") then zero_action
  else
    match (match argumentsJson with TBlank => Some ∅ | t => text_map t end) with
    | None => described ("Execute tool '" +:+ toolName +:+ "'.")
    | Some root =>
        if EqualFold toolName "process" then resolve_process root
        else if EqualFold toolName "automation" then resolve_automation root
        else if EqualFold toolName "external_cli" then resolve_external_cli root
        else if EqualFold toolName "todo" then resolve_todo root
        else described ("Execute tool '" +:+ toolName +:+ "'.")
    end.

Definition SupportsActionAwareApproval (toolName : string) : bool :=
  EqualFold toolName "process" || EqualFold toolName "automation" || EqualFold toolName "external_cli".

Definition IsMutationCapable (toolName : string) (argumentsJson : json_text) : bool :=
  if IsBlank toolName then false
  else if bool_decide (toolName ∈ AlwaysMutatingTools) then true
  else IsMutation (Resolve toolName argumentsJson).

(** ** [ToolGovernanceDescriptorCatalog] *)

Inductive ToolGovernanceRiskLevel :=
  | ToolGovernanceRiskLevelLow
  | ToolGovernanceRiskLevelMedium
  | ToolGovernanceRiskLevelHigh
  | ToolGovernanceRiskLevelCritical.
#[export] Instance ToolGovernanceRiskLevel_eq_dec : EqDecision ToolGovernanceRiskLevel.
Proof. solve_decision. Defined.

Definition risk_int (r : ToolGovernanceRiskLevel) : Z :=
  match r with
  | ToolGovernanceRiskLevelLow => 0
  | ToolGovernanceRiskLevelMedium => 1
  | ToolGovernanceRiskLevelHigh => 2
  | ToolGovernanceRiskLevelCritical => 3
  end.

Record ToolGovernanceDescriptor := MkDescriptor {
  Name : string;
  Description : string;
  Category : string;
  Risk : ToolGovernanceRiskLevel;
  NeedsApproval : bool;
  ReadOnly : bool;
  CanAccessNetwork : bool;
  CanAccessFileSystem : bool;
  CanExecuteCode : bool;
  CanSendDataExternally : bool;
  Capabilities : list string;
}.

Definition read (name category : string) (capabilities : list string) (network fileSystem external : bool)
    : ToolGovernanceDescriptor :=
  MkDescriptor name "" category ToolGovernanceRiskLevelLow false true network fileSystem false external capabilities.

Definition write (name category : string) (risk : ToolGovernanceRiskLevel) (capabilities : list string)
    (network fileSystem executeCode external approval : bool) : ToolGovernanceDescriptor :=
  MkDescriptor name "" category risk approval false network fileSystem executeCode external capabilities.

Definition descriptor_list : list ToolGovernanceDescriptor :=
  [
   read "read_file" "filesystem" ["filesystem.read"] false true false;
   write "write_file" "filesystem" ToolGovernanceRiskLevelHigh ["filesystem.write"] false true false false false;
   write "edit_file" "filesystem" ToolGovernanceRiskLevelHigh ["filesystem.read"; "filesystem.write"] false true false false false;
   write "apply_patch" "filesystem" ToolGovernanceRiskLevelHigh ["filesystem.read"; "filesystem.write"] false true false false false;
   write "shell" "execution" ToolGovernanceRiskLevelCritical ["process.execute"; "filesystem.read"; "filesystem.write"] false true true false true;
   write "process" "execution" ToolGovernanceRiskLevelCritical ["process.execute"; "process.control"; "filesystem.read"; "filesystem.write"] false true true false true;
   write "code_exec" "execution" ToolGovernanceRiskLevelCritical ["code.execute"; "filesystem.read"; "filesystem.write"] false true true false true;
   write "git" "source-control" ToolGovernanceRiskLevelHigh ["source.read"; "source.write"; "network.write"] true true false true true;
   write "memory" "memory" ToolGovernanceRiskLevelMedium ["memory.read"; "memory.write"] false false false false false;
   read "memory_get" "memory" ["memory.read"] false false false;
   read "memory_search" "memory" ["memory.search"] false false false;
   write "project_memory" "memory" ToolGovernanceRiskLevelMedium ["memory.read"; "memory.write"] false false false false false;
   read "session_search" "session" ["session.search"] false false false;
   write "sessions" "session" ToolGovernanceRiskLevelMedium ["session.read"; "session.message"] false false false false false;
   read "sessions_history" "session" ["session.read"] false false false;
   write "sessions_send" "session" ToolGovernanceRiskLevelMedium ["session.message"; "message.send"] false false false true false;
   write "sessions_spawn" "session" ToolGovernanceRiskLevelMedium ["session.create"] false false false false false;
   read "session_status" "session" ["session.read"] false false false;
   write "sessions_yield" "session" ToolGovernanceRiskLevelMedium ["session.message"; "message.send"] false false false true false;
   read "agents_list" "delegation" ["agent.list"] false false false;
   write "delegate_agent" "delegation" ToolGovernanceRiskLevelHigh ["agent.delegate"; "tool.invoke"] false false false false true;
   read "profile_read" "profile" ["profile.read"] false false false;
   write "profile_write" "profile" ToolGovernanceRiskLevelMedium ["profile.write"] false false false false false;
   write "todo" "productivity" ToolGovernanceRiskLevelMedium ["todo.read"; "todo.write"] false false false false false;
   write "automation" "automation" ToolGovernanceRiskLevelHigh ["automation.read"; "automation.write"; "automation.run"] false false false false true;
   write "cron" "automation" ToolGovernanceRiskLevelHigh ["automation.read"; "automation.run"] false false false false true;
   read "gateway" "runtime" ["runtime.read"] false false false;
   write "message" "messaging" ToolGovernanceRiskLevelHigh ["message.send"; "data.export"] false false false true true;
   read "web_search" "network" ["network.read"; "external.http"] true false true;
   read "web_fetch" "network" ["network.read"; "external.http"] true false true;
   read "x_search" "network" ["network.read"; "external.http"] true false true;
   write "browser" "browser" ToolGovernanceRiskLevelHigh ["browser.navigate"; "browser.evaluate"; "network.read"; "external.http"] true false true true true;
   read "vision_analyze" "multimodal" ["vision.analyze"; "data.export"] false false true;
   write "text_to_speech" "multimodal" ToolGovernanceRiskLevelMedium ["audio.generate"; "data.export"] false false false true false;
   write "image_gen" "multimodal" ToolGovernanceRiskLevelMedium ["image.generate"; "data.export"] true false false true false;
   read "pdf_read" "document" ["filesystem.read"; "document.read"] false true false;
   write "canvas_present" "canvas" ToolGovernanceRiskLevelLow ["ui.present"] false false false false false;
   write "canvas_hide" "canvas" ToolGovernanceRiskLevelLow ["ui.present"] false false false false false;
   write "canvas_navigate" "canvas" ToolGovernanceRiskLevelMedium ["ui.navigate"; "network.read"] true false false false false;
   read "canvas_snapshot" "canvas" ["ui.snapshot"] false false false;
   write "a2ui_push" "canvas" ToolGovernanceRiskLevelMedium ["ui.write"] false false false false false;
   write "a2ui_reset" "canvas" ToolGovernanceRiskLevelMedium ["ui.write"] false false false false false;
   write "a2ui_eval" "canvas" ToolGovernanceRiskLevelHigh ["ui.evaluate"; "code.execute"] false false true false true;
   write "a2ui_create_surface" "canvas" ToolGovernanceRiskLevelMedium ["ui.write"] false false false false false;
   write "a2ui_update_components" "canvas" ToolGovernanceRiskLevelMedium ["ui.write"] false false false false false;
   write "a2ui_update_data_model" "canvas" ToolGovernanceRiskLevelMedium ["ui.write"] false false false false false;
   write "a2ui_delete_surface" "canvas" ToolGovernanceRiskLevelMedium ["ui.write"] false false false false false;
   write "a2ui_sync_ui_to_data" "canvas" ToolGovernanceRiskLevelMedium ["ui.write"] false false false false false;
   write "external_cli" "external-cli" ToolGovernanceRiskLevelHigh ["process.execute"; "external.cli"] false true true false true;
   write "payment" "payment" ToolGovernanceRiskLevelCritical ["payment.execute"; "data.export"] false false false true true;
   read "stream_echo" "diagnostic" ["diagnostic.echo"] false false false;
   write "calendar" "calendar" ToolGovernanceRiskLevelHigh ["calendar.read"; "calendar.write"; "data.export"] true false false true true;
   write "email" "email" ToolGovernanceRiskLevelHigh ["email.read"; "email.send"; "data.export"] true false false true true;
   write "inbox_zero" "email" ToolGovernanceRiskLevelHigh ["email.read"; "email.write"; "data.export"] true false false true true;
   write "database" "database" ToolGovernanceRiskLevelHigh ["database.read"; "database.write"] false true false false true;
   read "home_assistant" "home-automation" ["home_assistant.read"; "network.read"] true false false;
   write "home_assistant_write" "home-automation" ToolGovernanceRiskLevelHigh ["home_assistant.write"; "network.write"] true false false true true;
   read "mqtt" "iot" ["mqtt.read"; "network.read"] true false false;
   write "mqtt_publish" "iot" ToolGovernanceRiskLevelHigh ["mqtt.publish"; "network.write"] true false false true true;
   read "notion" "notion" ["notion.read"; "network.read"] true false true;
   write "notion_write" "notion" ToolGovernanceRiskLevelHigh ["notion.write"; "network.write"; "data.export"] true false false true true].

(** The names are distinct, so the map built from the list is a search in it. *)
Definition find_descriptor (toolName : string) : option ToolGovernanceDescriptor :=
  snd <$> list_find (λ d, Name d = toolName) descriptor_list.

Definition CatalogContains (toolName : string) : bool :=
  match find_descriptor toolName with Some _ => true | None => false end.

Definition createFallback (toolName description : string) : ToolGovernanceDescriptor :=
  MkDescriptor toolName description "plugin" ToolGovernanceRiskLevelMedium false false false false false false
    ["plugin.invoke"].

Definition maxRisk (left right : ToolGovernanceRiskLevel) : ToolGovernanceRiskLevel :=
  if (risk_int right <=? risk_int left)%Z then left else right.

Section Policy.
(** Lower case of a non-ASCII rune. *)
Context (lower_rune : N → N).

Definition parseRisk (riskLevel : string) : option ToolGovernanceRiskLevel :=
  let trimmed := ToLower lower_rune (TrimSpace riskLevel) in
  if bool_decide (trimmed = "") then None
  else if bool_decide (trimmed = "low") then Some ToolGovernanceRiskLevelLow
  else if bool_decide (trimmed = "ToolGovernanceRiskLevelMedium") then Some ToolGovernanceRiskLevelMedium
  else if bool_decide (trimmed = "ToolGovernanceRiskLevelHigh") then Some ToolGovernanceRiskLevelHigh
  else if bool_decide (trimmed = "ToolGovernanceRiskLevelCritical") then Some ToolGovernanceRiskLevelCritical
  else None.

Definition CatalogResolve (toolName description : string) (actionDescriptor : ToolActionDescriptor)
    : ToolGovernanceDescriptor :=
  let d :=
    match find_descriptor toolName with
    | Some k =>
        if bool_decide (TrimSpace (Description k) = "")
        then MkDescriptor (Name k) description (Category k) (Risk k) (NeedsApproval k) (ReadOnly k)
               (CanAccessNetwork k) (CanAccessFileSystem k) (CanExecuteCode k) (CanSendDataExternally k) (Capabilities k)
        else k
    | None => createFallback toolName description
    end in
  if RequiresApproval actionDescriptor || IsMutation actionDescriptor then
    let riskToCompare := default ToolGovernanceRiskLevelMedium (parseRisk (RiskLevel actionDescriptor)) in
    MkDescriptor (Name d) (Description d) (Category d) (maxRisk (Risk d) riskToCompare)
      (NeedsApproval d || RequiresApproval actionDescriptor) (negb (IsMutation actionDescriptor) && ReadOnly d)
      (CanAccessNetwork d) (CanAccessFileSystem d) (CanExecuteCode d) (CanSendDataExternally d) (Capabilities d)
  else d.

(** ** [HttpSidecarToolGovernanceService] *)

Inductive GovernanceAction :=
  | GovernanceActionAllow
  | GovernanceActionDeny
  | GovernanceActionRequireApproval
  | GovernanceActionRedact
  | GovernanceActionAuditOnly.

Record GovernanceDecision := MkDecision {
  Allowed : bool;
  GAction : GovernanceAction;
  Reason : string;
  IsUnavailable : bool;
  RedactedArgumentsJson : string;
  ReplacementArgumentsJson : string;
}.

Record ToolGovernanceConfig := MkGovernanceConfig {
  Enabled : bool;
  FailClosed : bool;
  FailOpenReadOnlyLowRisk : bool;
  RequireGovernanceForHighRiskTools : bool;
}.

(** A decoded answer of the sidecar. *)
Record ToolGovernanceSidecarResponse := MkSidecarResponse {
  SidecarAllowed : option bool;
  SidecarAction : string;
  SidecarReason : string;
  SidecarRedacted : string;
  SidecarReplacement : string;
}.

(** The exchange with the sidecar: it failed with a reason, or answered. *)
Inductive exchange :=
  | NoAnswer (reason : string)
  | Answer (r : ToolGovernanceSidecarResponse).

Definition NewGovernanceDecisionAllow (reason : string) : GovernanceDecision :=
  MkDecision true GovernanceActionAllow reason false "" "".

Definition highRiskCapabilities : list string :=
  ["process.execute"; "filesystem.write"; "external.http"; "data.export"; "message.send"].

Definition isHighRiskOrSideEffecting (d : ToolGovernanceDescriptor) : bool :=
  if bool_decide (Risk d = ToolGovernanceRiskLevelHigh) || bool_decide (Risk d = ToolGovernanceRiskLevelCritical)
  then true
  else if negb (ReadOnly d) || CanExecuteCode d || CanSendDataExternally d then true
  else existsb (λ capability, bool_decide (capability ∈ highRiskCapabilities)) (Capabilities d).

Definition isLowRiskReadOnly (d : ToolGovernanceDescriptor) : bool :=
  ReadOnly d && bool_decide (Risk d = ToolGovernanceRiskLevelLow) && negb (CanExecuteCode d) &&
  negb (CanSendDataExternally d).

Definition shouldFailClosed (config : ToolGovernanceConfig) (d : ToolGovernanceDescriptor) : bool :=
  if RequireGovernanceForHighRiskTools config && isHighRiskOrSideEffecting d then true
  else if isLowRiskReadOnly d && FailOpenReadOnlyLowRisk config then false
  else FailClosed config.

Definition buildUnavailableDecision (config : ToolGovernanceConfig) (d : ToolGovernanceDescriptor) (reason : string)
    : GovernanceDecision :=
  if shouldFailClosed config d then MkDecision false GovernanceActionDeny reason true "" ""
  else MkDecision true GovernanceActionAuditOnly reason true "" "".

(** [strings.ReplaceAll(s, "-", "_")] *)
Definition dashes_to_underscores (s : string) : string :=
  of_bytes ((λ c, if bool_decide (c = "-"%char) then "_"%char else c) <$> to_bytes s).

Definition mapAction (action : string) : GovernanceAction :=
  let normalized := ToLower lower_rune (dashes_to_underscores (TrimSpace action)) in
  if bool_decide (normalized = "allow") then GovernanceActionAllow
  else if bool_decide (normalized = "deny") then GovernanceActionDeny
  else if bool_decide (normalized ∈ ["require_approval"; "requireapproval"]) then GovernanceActionRequireApproval
  else if bool_decide (normalized = "redact") then GovernanceActionRedact
  else if bool_decide (normalized ∈ ["audit_only"; "auditonly"; "log"; "warn"]) then GovernanceActionAuditOnly
  else GovernanceActionDeny.

Definition Authorize (config : ToolGovernanceConfig) (d : ToolGovernanceDescriptor) (e : exchange)
    : GovernanceDecision :=
  if negb (Enabled config) then NewGovernanceDecisionAllow "Governance disabled"
  else
    match e with
    | NoAnswer reason => buildUnavailableDecision config d reason
    | Answer r =>
        let action := mapAction (SidecarAction r) in
        let allowed :=
          match action with
          | GovernanceActionDeny => false
          | GovernanceActionRequireApproval => true
          | _ => default true (SidecarAllowed r)
          end in
        MkDecision allowed action (SidecarReason r) false (SidecarRedacted r) (SidecarReplacement r)
    end.
End Policy.

(** ** What happens to a call when the sidecar does not answer *)

(** The tools that are not high-risk and have no side effect. *)
Definition unattended_tools : list string :=
  ["read_file"; "memory_get"; "memory_search"; "session_search"; "sessions_history"; "session_status"; "agents_list";
   "profile_read"; "gateway"; "canvas_snapshot"; "pdf_read"; "stream_echo"; "home_assistant"; "mqtt"].

Lemma find_descriptor_spec toolName :
  match find_descriptor toolName with
  | Some d => d ∈ descriptor_list ∧ Name d = toolName
  | None => ∀ d, d ∈ descriptor_list → Name d ≠ toolName
  end.
Proof.
  unfold find_descriptor. destruct (list_find _ descriptor_list) as [[i d] |] eqn:Hfind; simpl.
  - apply list_find_Some in Hfind as (Hi & Hname & _). split; [by eapply list_elem_of_lookup_2 | done].
  - apply list_find_None in Hfind. by rewrite Forall_forall in Hfind.
Qed.

(** The catalogue, row by row: a tool of low impact is read-only and of low risk. *)
Definition row_ok (d : ToolGovernanceDescriptor) : bool :=
  Bool.eqb (negb (isHighRiskOrSideEffecting d)) (bool_decide (Name d ∈ unattended_tools)) &&
  (isHighRiskOrSideEffecting d || isLowRiskReadOnly d).

Lemma catalogue_rows_ok d : d ∈ descriptor_list →
  isHighRiskOrSideEffecting d = negb (bool_decide (Name d ∈ unattended_tools)) ∧
  (isHighRiskOrSideEffecting d = false → isLowRiskReadOnly d = true).
Proof.
  assert (forallb row_ok descriptor_list = true) as H by (vm_compute; reflexivity).
  intros Hd. rewrite forallb_forall in H. specialize (H d (proj1 (list_elem_of_In _ _) Hd)).
  unfold row_ok in H. apply andb_true_iff in H as [H1 H2]. apply eqb_prop in H1. rewrite <- H1, negb_involutive.
  split; [done |]. intros Hlow. by rewrite Hlow in H2.
Qed.

Lemma unattended_catalogued toolName : toolName ∈ unattended_tools → is_Some (find_descriptor toolName).
Proof.
  assert (forallb CatalogContains unattended_tools = true) as H by (vm_compute; reflexivity).
  intros Hin. rewrite forallb_forall in H. specialize (H toolName (proj1 (list_elem_of_In _ _) Hin)).
  unfold CatalogContains in H. by destruct (find_descriptor toolName).
Qed.

(** The risk a call of a low-risk tool ends up with. *)
Definition call_risk (lower_rune : N → N) (a : ToolActionDescriptor) : ToolGovernanceRiskLevel :=
  if RequiresApproval a then default ToolGovernanceRiskLevelMedium (parseRisk lower_rune (RiskLevel a))
  else ToolGovernanceRiskLevelLow.

Definition high (r : ToolGovernanceRiskLevel) : bool := (risk_int ToolGovernanceRiskLevelHigh <=? risk_int r)%Z.

(** What makes a call high-risk, besides its risk. *)
Definition side_effects (d : ToolGovernanceDescriptor) : bool :=
  (negb (ReadOnly d) || CanExecuteCode d || CanSendDataExternally d) ||
  existsb (λ capability, bool_decide (capability ∈ highRiskCapabilities)) (Capabilities d).

Lemma isHighRiskOrSideEffecting_spec d : isHighRiskOrSideEffecting d = high (Risk d) || side_effects d.
Proof.
  unfold isHighRiskOrSideEffecting, side_effects, high.
  destruct (Risk d); simpl; [| | done..]; by destruct (negb _ || _ || _).
Qed.

Lemma isLowRiskReadOnly_spec d : side_effects d = false →
  isLowRiskReadOnly d = bool_decide (Risk d = ToolGovernanceRiskLevelLow).
Proof.
  unfold side_effects, isLowRiskReadOnly.
  destruct (ReadOnly d), (CanExecuteCode d), (CanSendDataExternally d); simpl; try done.
  by rewrite !andb_true_r.
Qed.

(** The call as [shouldFailClosed] sees it. *)
Lemma CatalogResolve_impact lower_rune toolName description a :
  let d := CatalogResolve lower_rune toolName description a in
  isHighRiskOrSideEffecting d = negb (bool_decide (toolName ∈ unattended_tools) && negb (IsMutation a) &&
    negb (high (call_risk lower_rune a))) ∧
  (isHighRiskOrSideEffecting d = false →
   isLowRiskReadOnly d = bool_decide (call_risk lower_rune a = ToolGovernanceRiskLevelLow)).
Proof.
  cbv zeta. unfold CatalogResolve, call_risk. pose proof (find_descriptor_spec toolName) as Hspec.
  destruct (find_descriptor toolName) as [k |] eqn:Hfind.
  - destruct Hspec as [Hk <-]. destruct (catalogue_rows_ok k Hk) as [Hhigh Hlow].
    set (d := if bool_decide (TrimSpace (Description k) = "") then _ else k).
    assert (Risk d = Risk k ∧ side_effects d = side_effects k) as [HR HS]
      by (unfold d; by destruct (bool_decide (TrimSpace _ = _))). clearbody d.
    rewrite isHighRiskOrSideEffecting_spec in Hhigh, Hlow.
    destruct (bool_decide (Name k ∈ unattended_tools)); simpl in Hhigh |- *.
    + apply orb_false_iff in Hhigh as [Hk1 Hk2]. rewrite Hk1, Hk2 in Hlow. specialize (Hlow eq_refl).
      rewrite isLowRiskReadOnly_spec in Hlow by done. apply bool_decide_eq_true in Hlow.
      destruct (IsMutation a); [by rewrite orb_true_r, isHighRiskOrSideEffecting_spec; simpl; rewrite orb_true_r |].
      rewrite orb_false_r. destruct (RequiresApproval a); simpl.
      * set (d' := MkDescriptor _ _ _ _ _ _ _ _ _ _ _). rewrite isHighRiskOrSideEffecting_spec.
        assert (side_effects d' = false) as Hd' by (change (side_effects d = false); congruence).
        rewrite Hd', orb_false_r, isLowRiskReadOnly_spec by done. simpl. rewrite HR, Hlow.
        by destruct (parseRisk _ _) as [[] |].
      * rewrite isHighRiskOrSideEffecting_spec, HR, HS, Hlow. split; [done |].
        intros _. by rewrite isLowRiskReadOnly_spec, HR, Hlow by congruence.
    + assert (isHighRiskOrSideEffecting (if RequiresApproval a || IsMutation a then
          MkDescriptor (Name d) (Description d) (Category d)
            (maxRisk (Risk d) (default ToolGovernanceRiskLevelMedium (parseRisk lower_rune (RiskLevel a))))
            (NeedsApproval d || RequiresApproval a) (negb (IsMutation a) && ReadOnly d) (CanAccessNetwork d)
            (CanAccessFileSystem d) (CanExecuteCode d) (CanSendDataExternally d) (Capabilities d)
        else d) = true) as ->; [| done].
      destruct (RequiresApproval a || IsMutation a); rewrite isHighRiskOrSideEffecting_spec; [| by rewrite HR, HS].
      apply orb_true_iff in Hhigh as [H | H]; apply orb_true_iff; [left | right].
      * simpl. rewrite HR. revert H. by destruct (Risk k), (parseRisk _ _) as [[] |].
      * revert H. rewrite <- HS. unfold side_effects. simpl. destruct (IsMutation a); [done |]. by destruct (ReadOnly d).
  - assert (bool_decide (toolName ∈ unattended_tools) = false) as ->.
    { apply bool_decide_eq_false_2. intros [d Hd]%unattended_catalogued. congruence. }
    destruct (RequiresApproval a || IsMutation a); [destruct (IsMutation a) |]; simpl;
      by rewrite isHighRiskOrSideEffecting_spec, orb_true_r.
Qed.

Lemma silent_decision (lower_rune : N → N) failClosed failOpenReadOnly toolName description a reason :
  Allowed (Authorize lower_rune (MkGovernanceConfig true failClosed failOpenReadOnly true)
    (CatalogResolve lower_rune toolName description a) (NoAnswer reason)) = true ↔
  toolName ∈ unattended_tools ∧ IsMutation a = false ∧
  high (call_risk lower_rune a) = false ∧
  (failClosed = false ∨ failOpenReadOnly = true ∧ call_risk lower_rune a = ToolGovernanceRiskLevelLow).
Proof.
  unfold Authorize, buildUnavailableDecision, shouldFailClosed. simpl.
  destruct (CatalogResolve_impact lower_rune toolName description a) as [Hhigh Hlow].
  destruct (isHighRiskOrSideEffecting _); simpl.
  - split; [done |]. intros (H1 & H2 & H3 & _). symmetry in Hhigh. apply negb_true_iff in Hhigh.
    by rewrite H2, H3, bool_decide_eq_true_2 in Hhigh.
  - rewrite Hlow by done. symmetry in Hhigh. apply negb_false_iff in Hhigh.
    apply andb_true_iff in Hhigh as [[H1 H2]%andb_true_iff H3]. apply bool_decide_eq_true in H1.
    apply negb_true_iff in H2, H3. case_bool_decide; destruct failClosed, failOpenReadOnly; naive_solver.
Qed.

Lemma silent_allows_unattended lower_rune failClosed failOpenReadOnly toolName description a reason :
  Allowed (Authorize lower_rune (MkGovernanceConfig true failClosed failOpenReadOnly true)
    (CatalogResolve lower_rune toolName description a) (NoAnswer reason)) = true → toolName ∈ unattended_tools.
Proof. by intros (H & _)%silent_decision. Qed.

(** When the governance sidecar does not answer, and governance is enabled
    and required for high-risk tools, exactly these calls are allowed: calls of
    one of fourteen catalogued read-only tools, that change nothing, whose risk
    is low or medium, and either the configuration does not fail closed or it
    lets low-risk reads through and the risk is low. *)
Theorem silent_sidecar_allows (lower_rune : N → N) failClosed failOpenReadOnly toolName description a reason :
  Allowed (Authorize lower_rune (MkGovernanceConfig true failClosed failOpenReadOnly true)
    (CatalogResolve lower_rune toolName description a) (NoAnswer reason)) = true ↔
  toolName ∈ unattended_tools ∧ IsMutation a = false ∧
  high (call_risk lower_rune a) = false ∧
  (failClosed = false ∨ failOpenReadOnly = true ∧ call_risk lower_rune a = ToolGovernanceRiskLevelLow).
Proof. apply silent_decision. Qed.
