(* ===== verification/ExternalCli.v ===== *)
(** The configuration of external command-line tools and its merging with
    presets: [openclaw/core/models_external_cli.go] and the first part of
    [openclaw/core/external_cli.go].

    A connector is a program, a command of it a template of arguments.  Maps of
    Go that can be nil are [option (gmap ...)]: writing to a nil one panics.  Go
    visits a map in any order, each time another: [visit n] of the class
    [MapOrder] is the order of the [n]th time.  Cloning is the identity here,
    since nothing else refers to what is merged. *)

From stdpp Require Import sorting.
From S2P Require Import Prelude GoStrings.
Local Open Scope string_scope.
Local Open Scope list_scope.

(** ** The order of maps *)

Class MapOrder := {
  visit : nat → ∀ {A}, gmap string A → list (string * A);
  visit_all : ∀ n A (m : gmap string A), visit n m ≡ₚ map_to_list m;
}.

Lemma elem_of_visit `{MapOrder} n {A} (m : gmap string A) k a : (k, a) ∈ visit n m ↔ m !! k = Some a.
Proof. by rewrite visit_all, elem_of_map_to_list. Qed.

(** ** Data *)

Record ExternalCliParameterOptions := mkParameter {
  par_Required : bool;
  par_Description : string;
  MaxLength : Z;
  Pattern : string;
  AllowedValues : list string;
}.

Record ExternalCliStatusCommandOptions := mkStatusCommand { Args : list string; status_TimeoutSeconds : Z }.

Record ExternalCliCommandOptions := mkCommand {
  cmd_Description : string;
  ArgsTemplate : list string;
  Parameters : option (gmap string ExternalCliParameterOptions);
  AllowUnknownParameters : bool;
  cmd_RiskLevel : string;
  ReadOnly : bool;
  cmd_RequiresApproval : bool;
  SupportsDryRun : bool;
  DryRunArgsTemplate : list string;
  cmd_StructuredOutput : string;
  cmd_TimeoutSeconds : option Z;
  cmd_WorkingDirectory : string;
  cmd_Environment : option (gmap string string);
  cmd_RedactionRules : list string;
  RequiredScopes : list string;
  RequiredIdentity : string;
  cmd_Tags : list string;
}.

Record ExternalCliConnectorOptions := mkConnector {
  con_Enabled : bool;
  DisplayName : string;
  Executable : string;
  DefaultArgs : list string;
  con_WorkingDirectory : string;
  con_Environment : option (gmap string string);
  StatusCommand : option ExternalCliStatusCommandOptions;
  VersionCommand : option ExternalCliStatusCommandOptions;
  DefaultOutputFormat : string;
  con_RequiresApproval : bool;
  con_RedactionRules : list string;
  Commands : gmap string ExternalCliCommandOptions;
}.

Record ExternalCliOptions := mkOptions {
  Enabled : bool;
  DefaultTimeoutSeconds : Z;
  MaxStdoutBytes : Z;
  MaxStderrBytes : Z;
  RedactSecrets : bool;
  AllowFreeformCommands : bool;
  RequireApprovalForMutatingCommands : bool;
  Presets : list string;
  Connectors : gmap string ExternalCliConnectorOptions;
}.

(** The defaults. *)
Definition DefaultExternalCliOptions : ExternalCliOptions := mkOptions false 60 262144 65536 true false true [] ∅.
Definition DefaultExternalCliConnectorOptions : ExternalCliConnectorOptions :=
  mkConnector false "" "" [] "" (Some ∅) None None "text" false [] ∅.
Definition DefaultExternalCliCommandOptions : ExternalCliCommandOptions :=
  mkCommand "" [] (Some ∅) false "low" true false false [] "" None "" (Some ∅) [] [] "" [].
Definition DefaultExternalCliParameterOptions : ExternalCliParameterOptions := mkParameter false "" 0 "" [].
Definition DefaultExternalCliStatusCommandOptions : ExternalCliStatusCommandOptions := mkStatusCommand [] 0.

Definition NormalizeRiskLevel (val : string) : string :=
  if bool_decide (val = "medium") || bool_decide (val = "high") then val else "low".

Definition NormalizeOutputFormat (val : string) : string :=
  if bool_decide (val ∈ ["json"; "ndjson"; "csv"; "table"]) then val else "text".

Definition sort_strings : list string → list string := merge_sort string_le.

(** ** Merging *)

Definition riskRank (risk : string) : Z :=
  let r := NormalizeRiskLevel risk in
  if bool_decide (r = "high") then 3 else if bool_decide (r = "medium") then 2 else 1.

Definition maxRisk (left right : string) : string :=
  let normalizedLeft := NormalizeRiskLevel left in
  let normalizedRight := NormalizeRiskLevel right in
  if (riskRank normalizedLeft <? riskRank normalizedRight)%Z then normalizedRight else normalizedLeft.

Definition prefer (configured preset : string) : string := if IsBlank configured then preset else configured.
Definition preferNullable (one two : string) : string := if bool_decide (one = "") then two else one.
Definition preferOptionalInt (one two : option Z) : option Z := match one with Some _ => one | None => two end.

(** Strings that are not blank, each once. *)
Fixpoint distinct (seen : gset string) (l : list string) : list string :=
  match l with
  | [] => []
  | v :: l => if IsBlank v || bool_decide (v ∈ seen) then distinct seen l else v :: distinct ({[v]} ∪ seen) l
  end.
Definition mergeStringSet (preset configured : list string) : list string := distinct ∅ (preset ++ configured).

(** [maps.Copy]: a nil map cannot be written to. *)
Definition mergeDictionary (preset configured : option (gmap string string)) : go (option (gmap string string)) :=
  match preset with
  | Some p => Done (Some (default ∅ configured ∪ p))
  | None => if decide (default ∅ configured = ∅) then Done None else Panic
  end.

Definition mergeParameter (preset configured : ExternalCliParameterOptions) : ExternalCliParameterOptions :=
  mkParameter (par_Required preset || par_Required configured) (prefer (par_Description configured) (par_Description preset))
    (if bool_decide (MaxLength configured = 0%Z) then MaxLength preset else MaxLength configured)
    (prefer (Pattern configured) (Pattern preset))
    (match AllowedValues configured with [] => AllowedValues preset | l => l end).

Definition mergeParameters (preset configured : option (gmap string ExternalCliParameterOptions)) :
    go (option (gmap string ExternalCliParameterOptions)) :=
  match preset with
  | Some p => Done (Some (union_with (λ a b, Some (mergeParameter a b)) p (default ∅ configured)))
  | None => if decide (default ∅ configured = ∅) then Done None else Panic
  end.

Definition mergeStatusCommand (preset configured : option ExternalCliStatusCommandOptions) : option ExternalCliStatusCommandOptions :=
  match preset, configured with
  | None, _ => configured
  | _, None => preset
  | Some p, Some c =>
      Some (mkStatusCommand (match Args c with [] => Args p | l => l end)
              (if bool_decide (status_TimeoutSeconds c = 0%Z) then status_TimeoutSeconds p else status_TimeoutSeconds c))
  end.

Definition or_else (configured preset : list string) : list string := match configured with [] => preset | l => l end.

Definition mergeCommand (preset configured : ExternalCliCommandOptions) : go ExternalCliCommandOptions :=
  parameters ← mergeParameters (Parameters preset) (Parameters configured);
  environment ← mergeDictionary (cmd_Environment preset) (cmd_Environment configured);
  mret (mkCommand (prefer (cmd_Description configured) (cmd_Description preset))
    (or_else (ArgsTemplate configured) (ArgsTemplate preset)) parameters
    (AllowUnknownParameters preset || AllowUnknownParameters configured)
    (maxRisk (cmd_RiskLevel preset) (cmd_RiskLevel configured))
    (ReadOnly preset && ReadOnly configured) (cmd_RequiresApproval preset || cmd_RequiresApproval configured)
    (SupportsDryRun preset || SupportsDryRun configured) (or_else (DryRunArgsTemplate configured) (DryRunArgsTemplate preset))
    (prefer (cmd_StructuredOutput configured) (cmd_StructuredOutput preset))
    (preferOptionalInt (cmd_TimeoutSeconds configured) (cmd_TimeoutSeconds preset))
    (preferNullable (cmd_WorkingDirectory configured) (cmd_WorkingDirectory preset)) environment
    (mergeStringSet (cmd_RedactionRules preset) (cmd_RedactionRules configured))
    (mergeStringSet (RequiredScopes preset) (RequiredScopes configured))
    (preferNullable (RequiredIdentity configured) (RequiredIdentity preset))
    (mergeStringSet (cmd_Tags preset) (cmd_Tags configured))).

Section Merge.
Context `{MapOrder} (lower_rune : N → N) (n : nat).

Definition cloneCommands (source : gmap string ExternalCliCommandOptions) : gmap string ExternalCliCommandOptions :=
  foldl (λ m '(name, command), <[ToLower lower_rune name := command]> m) ∅ (visit n source).

Definition cloneConnector (source : ExternalCliConnectorOptions) : ExternalCliConnectorOptions :=
  mkConnector (con_Enabled source) (DisplayName source) (Executable source) (DefaultArgs source) (con_WorkingDirectory source)
    (con_Environment source) (StatusCommand source) (VersionCommand source) (DefaultOutputFormat source)
    (con_RequiresApproval source) (con_RedactionRules source) (cloneCommands (Commands source)).

Definition merge_step (commands : gmap string ExternalCliCommandOptions) (nc : string * ExternalCliCommandOptions) :
    go (gmap string ExternalCliCommandOptions) :=
  let '(name, command) := nc in
  let lowerName := ToLower lower_rune name in
  match commands !! lowerName with
  | Some presetCommand => merged ← mergeCommand presetCommand command; mret (<[lowerName := merged]> commands)
  | None => mret (<[lowerName := command]> commands)
  end.

Fixpoint merge_commands (commands : gmap string ExternalCliCommandOptions) (l : list (string * ExternalCliCommandOptions)) :
    go (gmap string ExternalCliCommandOptions) :=
  match l with
  | [] => mret commands
  | nc :: l => commands ← merge_step commands nc; merge_commands commands l
  end.

Definition mergeConnector (preset configured : ExternalCliConnectorOptions) : go ExternalCliConnectorOptions :=
  commands ← merge_commands (cloneCommands (Commands preset)) (visit n (Commands configured));
  environment ← mergeDictionary (con_Environment preset) (con_Environment configured);
  mret (mkConnector (con_Enabled preset || con_Enabled configured) (prefer (DisplayName configured) (DisplayName preset))
    (prefer (Executable configured) (Executable preset)) (or_else (DefaultArgs configured) (DefaultArgs preset))
    (preferNullable (con_WorkingDirectory configured) (con_WorkingDirectory preset)) environment
    (mergeStatusCommand (StatusCommand preset) (StatusCommand configured))
    (mergeStatusCommand (VersionCommand preset) (VersionCommand configured))
    (prefer (DefaultOutputFormat configured) (DefaultOutputFormat preset))
    (con_RequiresApproval preset || con_RequiresApproval configured)
    (mergeStringSet (con_RedactionRules preset) (con_RedactionRules configured)) commands).
End Merge.

(** ** What configuration may do to a preset *)

(** The command is restricted at least as the preset: its risk is no lower, it
    needs approval where that did, it is read-only only if that was, and what
    was required still is. *)
Definition parameter_kept (preset merged : ExternalCliParameterOptions) : Prop :=
  (par_Required preset = true → par_Required merged = true) ∧
  (IsBlank (Pattern preset) = false → IsBlank (Pattern merged) = false) ∧
  (MaxLength preset ≠ 0%Z → MaxLength merged ≠ 0%Z) ∧
  (AllowedValues preset ≠ [] → AllowedValues merged ≠ []).

Record as_strict (preset merged : ExternalCliCommandOptions) : Prop := {
  as_risk : (riskRank (cmd_RiskLevel preset) ≤ riskRank (cmd_RiskLevel merged))%Z;
  as_approval : cmd_RequiresApproval preset = true → cmd_RequiresApproval merged = true;
  as_readonly : ReadOnly merged = true → ReadOnly preset = true;
  as_rules : ∀ r, r ∈ cmd_RedactionRules preset → IsBlank r = false → r ∈ cmd_RedactionRules merged;
  as_parameters : ∀ name p, default ∅ (Parameters preset) !! name = Some p →
    ∃ q, default ∅ (Parameters merged) !! name = Some q ∧ parameter_kept p q;
}.

Lemma distinct_mem l : ∀ seen v, v ∈ distinct seen l ↔ v ∈ l ∧ IsBlank v = false ∧ v ∉ seen.
Proof.
  induction l as [| u l IH]; intros seen v; cbn [distinct].
  { split; [by intros ?%elem_of_nil | by intros [?%elem_of_nil _]]. }
  destruct (IsBlank u) eqn:Hb; cbn [orb].
  - rewrite IH, elem_of_cons. split; [naive_solver |]. intros ([-> | ?] & ? & ?); [congruence | done].
  - case_bool_decide as Hu.
    + rewrite IH, elem_of_cons. split; [naive_solver |]. by intros ([-> | ?] & ? & ?).
    + rewrite !elem_of_cons, IH. set_unfold. split; [naive_solver |].
      intros ([-> | ?] & ? & ?); [by left |]. destruct (decide (v = u)); [by left | right; naive_solver].
Qed.

Lemma riskRank_normalize r : riskRank (NormalizeRiskLevel r) = riskRank r.
Proof.
  unfold riskRank, NormalizeRiskLevel. destruct (bool_decide_reflect (r = "medium")) as [-> |]; [done |].
  by destruct (bool_decide_reflect (r = "high")) as [-> |].
Qed.

Lemma maxRisk_rank l r : riskRank (maxRisk l r) = Z.max (riskRank l) (riskRank r).
Proof. unfold maxRisk. rewrite !riskRank_normalize. destruct (Z.ltb_spec (riskRank l) (riskRank r)); rewrite riskRank_normalize; lia. Qed.

Lemma mergeParameter_kept p c : parameter_kept p (mergeParameter p c).
Proof.
  unfold parameter_kept, mergeParameter, prefer. cbn. split_and!.
  - by intros ->.
  - intros Hp. by destruct (IsBlank (Pattern c)) eqn:Hc.
  - intros Hm. by case_bool_decide.
  - intros Ha. by destruct (AllowedValues c).
Qed.

Lemma parameter_kept_refl p : parameter_kept p p.
Proof. by repeat split. Qed.

Lemma mergeParameters_kept preset configured merged name p : mergeParameters preset configured = Done merged →
  default ∅ preset !! name = Some p → ∃ q, default ∅ merged !! name = Some q ∧ parameter_kept p q.
Proof.
  unfold mergeParameters. destruct preset as [m |]; [intros [= <-] | destruct (decide _); [intros [= <-] | done]]; cbn [default from_option id].
  - intros Hp. rewrite lookup_union_with, Hp. destruct (default ∅ configured !! name) as [c |]; cbn.
    + exists (mergeParameter p c). split; [done | apply mergeParameter_kept].
    + exists p. split; [done | apply parameter_kept_refl].
  - by rewrite lookup_empty.
Qed.

Lemma as_strict_refl c : as_strict c c.
Proof. split; [lia | done.. | intros name p Hp; exists p; split; [done | apply parameter_kept_refl]]. Qed.

Lemma mergeCommand_strict preset configured merged : mergeCommand preset configured = Done merged → as_strict preset merged.
Proof.
  unfold mergeCommand, mbind, go_bind. destruct (mergeParameters _ _) as [params | |] eqn:Hp; [| done..].
  destruct (mergeDictionary _ _) as [env | |]; [| done..]. intros [= <-]. split; cbn.
  - rewrite maxRisk_rank. lia.
  - by intros ->.
  - by intros [? _]%andb_true_iff.
  - intros r Hr Hb. unfold mergeStringSet. rewrite distinct_mem, elem_of_app. split; [by left | split; [done | apply not_elem_of_empty]].
  - intros name p Hn. by eapply mergeParameters_kept.
Qed.

Lemma parameter_kept_trans p q r : parameter_kept p q → parameter_kept q r → parameter_kept p r.
Proof. unfold parameter_kept. naive_solver. Qed.

Lemma as_strict_trans a b c : as_strict a b → as_strict b c → as_strict a c.
Proof.
  intros [] []. split; [lia | auto.. | |]; [auto |].
  intros name p Hp. destruct (as_parameters0 _ _ Hp) as (q & Hq & Hk). destruct (as_parameters1 _ _ Hq) as (r & Hr & Hk2).
  exists r. split; [done | by eapply parameter_kept_trans].
Qed.

(** Copying a map whose keys are in lower case. *)
Lemma lookup_foldl_insert {A} (f : string → string) (l : list (string * A)) : ∀ (m : gmap string A) k a,
  NoDup l.*1 → Forall (λ p, f p.1 = p.1) l →
  foldl (λ m '(name, c), <[f name := c]> m) m l !! k = Some a ↔ (k, a) ∈ l ∨ (k ∉ l.*1 ∧ m !! k = Some a).
Proof.
  induction l as [| [name c] l IH]; intros m k a Hnd Hf; cbn [foldl fmap list_fmap].
  { set_solver. }
  apply NoDup_cons in Hnd as [Hn Hnd]. apply Forall_cons in Hf as [Hc Hf]. cbn [fst] in *. rewrite IH by done. rewrite Hc, elem_of_cons.
  destruct (decide (k = name)) as [-> | Hne].
  - rewrite lookup_insert_eq. split.
    + intros [Hin | [_ [= ->]]]; [| by left; left]. destruct Hn. by apply (list_elem_of_fmap_2 fst) in Hin.
    + intros [[[= ->] | Hin] | [Hk _]]; [by right | by left | set_solver].
  - rewrite lookup_insert_ne by done. set_solver.
Qed.

Lemma visit_nodup `{MapOrder} n {A} (m : gmap string A) : NoDup (visit n m).*1.
Proof. rewrite visit_all. apply NoDup_fst_map_to_list. Qed.

Section Kept.
Context `{MapOrder} (lower_rune : N → N) (n : nat).

Lemma cloneCommands_lower commands : map_Forall (λ name _, ToLower lower_rune name = name) commands →
  cloneCommands lower_rune n commands = commands.
Proof.
  intros Hlow. apply map_eq. intros k. apply option_eq. intros c. unfold cloneCommands. rewrite lookup_foldl_insert.
  - rewrite elem_of_visit, lookup_empty. naive_solver.
  - apply visit_nodup.
  - apply Forall_forall. intros [name c'] Hin. apply elem_of_visit in Hin. by apply (Hlow _ _ Hin).
Qed.


Lemma merge_commands_strict l : ∀ commands merged, merge_commands lower_rune commands l = Done merged →
  ∀ name c, commands !! name = Some c → ∃ c', merged !! name = Some c' ∧ as_strict c c'.
Proof.
  induction l as [| [name0 command] l IH]; intros commands merged; cbn [merge_commands].
  { intros [= <-] name c Hc. exists c. split; [done | apply as_strict_refl]. }
  unfold mbind, go_bind. destruct (merge_step _ _ _) as [next | |] eqn:Hstep; [| done..]. intros Hrest name c Hc.
  assert (∃ c1, next !! name = Some c1 ∧ as_strict c c1) as (c1 & H1 & Hs1).
  { unfold merge_step in Hstep. destruct (commands !! ToLower lower_rune name0) as [p |] eqn:Hp.
    - unfold mbind, go_bind in Hstep. destruct (mergeCommand p command) as [merged1 | |] eqn:Hm; [| done..]. injection Hstep as <-.
      destruct (decide (ToLower lower_rune name0 = name)) as [<- | Hne].
      + exists merged1. rewrite Hp in Hc. injection Hc as ->. rewrite lookup_insert_eq. split; [done | by eapply mergeCommand_strict].
      + exists c. rewrite lookup_insert_ne by done. split; [done | apply as_strict_refl].
    - injection Hstep as <-. exists c. rewrite lookup_insert_ne by congruence. split; [done | apply as_strict_refl]. }
  destruct (IH _ _ Hrest _ _ H1) as (c2 & H2 & Hs2). exists c2. split; [done | by eapply as_strict_trans].
Qed.

Lemma mergeConnector_strict preset configured merged : map_Forall (λ name _, ToLower lower_rune name = name) (Commands preset) →
  mergeConnector lower_rune n preset configured = Done merged →
  (con_RequiresApproval preset = true → con_RequiresApproval merged = true) ∧
  ∀ name c, Commands preset !! name = Some c → ∃ c', Commands merged !! name = Some c' ∧ as_strict c c'.
Proof.
  intros Hlow. unfold mergeConnector, mbind, go_bind. rewrite cloneCommands_lower by done.
  destruct (merge_commands _ _ _) as [commands | |] eqn:Hm; [| done..]. destruct (mergeDictionary _ _); [| done..].
  intros [= <-]. cbn. split; [by intros -> |]. by eapply merge_commands_strict.
Qed.

(** A preset without environment cannot be given one. *)
Lemma mergeConnector_environment preset configured env merged : con_Environment preset = None → con_Environment configured = Some env →
  env ≠ ∅ → mergeConnector lower_rune n preset configured ≠ Done merged.
Proof.
  intros Hp Hc He. unfold mergeConnector, mbind, go_bind. rewrite Hp, Hc. destruct (merge_commands _ _ _); [| done..].
  cbn. by rewrite decide_False by done.
Qed.
End Kept.
