(* ===== verification/ExternalCliPresets.v ===== *)
(** The presets of external command-line tools, and how a configuration is
    applied to them: [ExternalCliPresetCatalog] of [openclaw/core/external_cli.go].

    The catalog is built once.  [Apply] takes the presets a configuration names
    and merges its connectors into them.  What a preset has approved stays so
    ([configured_presets_stay_governed]). *)

From stdpp Require Import sorting.
From S2P Require Import Prelude GoStrings ExternalCli.
Local Open Scope string_scope.
Local Open Scope list_scope.

(** ** Data *)

Record ExternalCliPresetSummary := mkSummary {
  Id : string;
  Connector : string;
  sum_DisplayName : string;
  sum_Description : string;
  sum_Tags : list string;
  sum_Commands : list string;
}.

Record ExternalCliPresetDefinition := mkPreset {
  Summary : ExternalCliPresetSummary;
  Options : ExternalCliConnectorOptions;
}.

Definition RepoPattern : string := "^[A-Za-z0-9_.-]+/[A-Za-z0-9_.-]+$".
Definition NumberPattern : string := "^[0-9]+$".
Definition SimpleNamePattern : string := "^[A-Za-z0-9_.:-]+$".

(** The literals of the presets; fields they do not give are zero. *)
Definition required (description : string) (maxLength : Z) (pattern : string) : ExternalCliParameterOptions :=
  mkParameter true description maxLength pattern [].

Definition preset_command (description : string) (args : list string) (readOnly : bool) (riskLevel : string) (requiresApproval : bool)
    (parameters : list (string * ExternalCliParameterOptions)) (structuredOutput : string) (tags : list string) :
    ExternalCliCommandOptions :=
  mkCommand description args (Some (list_to_map parameters)) false riskLevel readOnly requiresApproval false [] structuredOutput None ""
    None [] [] "" tags.

(** ** The catalog *)

Definition ghCommands : gmap string ExternalCliCommandOptions := list_to_map [
  ("repo_view", preset_command "View repository metadata."
     ["repo"; "view"; "{{repo}}"; "--json"; "name,owner,description,url,isPrivate"]
     true "low" false [("repo", required "owner/repo repository name." 0 RepoPattern)] "json" ["github"; "repository"]);
  ("issue_list", preset_command "List repository issues."
     ["issue"; "list"; "--repo"; "{{repo}}"; "--json"; "number,title,state,author,url,labels"]
     true "low" false [("repo", required "owner/repo repository name." 0 RepoPattern)] "json" ["github"; "issues"]);
  ("pr_list", preset_command "List repository pull requests."
     ["pr"; "list"; "--repo"; "{{repo}}"; "--json"; "number,title,state,author,url,headRefName,baseRefName"]
     true "low" false [("repo", required "owner/repo repository name." 0 RepoPattern)] "json" ["github"; "pull-requests"]);
  ("pr_view", preset_command "View pull request metadata."
     ["pr"; "view"; "{{number}}"; "--repo"; "{{repo}}"; "--json"; "number,title,state,url,mergeStateStatus,reviewDecision,headRefName,baseRefName"]
     true "low" false [("repo", required "owner/repo repository name." 0 RepoPattern);
       ("number", required "Pull request number." 0 NumberPattern)] "json" ["github"; "pull-requests"]);
  ("release_list", preset_command "List repository releases."
     ["release"; "list"; "--repo"; "{{repo}}"; "--json"; "name,tagName,isDraft,isPrerelease,publishedAt,url"]
     true "low" false [("repo", required "owner/repo repository name." 0 RepoPattern)] "json" ["github"; "releases"]);
  ("issue_comment", preset_command "Add a comment to a GitHub issue or pull request."
     ["issue"; "comment"; "{{number}}"; "--repo"; "{{repo}}"; "--body"; "{{body}}"]
     false "medium" true [("repo", required "owner/repo repository name." 0 RepoPattern);
       ("number", required "Issue or pull request number." 0 NumberPattern);
       ("body", required "Comment body." 16000 "")] "" ["github"; "issues"; "mutating"])].

Definition azCommands : gmap string ExternalCliCommandOptions := list_to_map [
  ("account_show", preset_command "Show the active Azure account."
     ["account"; "show"; "--output"; "json"]
     true "low" false [] "json" ["azure"; "account"]);
  ("group_list", preset_command "List Azure resource groups."
     ["group"; "list"; "--output"; "json"]
     true "low" false [] "json" ["azure"; "resource-groups"]);
  ("resource_list", preset_command "List Azure resources."
     ["resource"; "list"; "--output"; "json"]
     true "low" false [] "json" ["azure"; "resources"])].

Definition kubeCommands : gmap string ExternalCliCommandOptions := list_to_map [
  ("current_context", preset_command "Show the current Kubernetes context."
     ["config"; "current-context"]
     true "low" false [] "text" ["kubernetes"; "context"]);
  ("get_pods_all", preset_command "List pods in all namespaces."
     ["get"; "pods"; "--all-namespaces"; "-o"; "json"]
     true "low" false [] "json" ["kubernetes"; "pods"]);
  ("get_pods", preset_command "List pods in one namespace."
     ["get"; "pods"; "--namespace"; "{{namespace}}"; "-o"; "json"]
     true "low" false [("namespace", required "Kubernetes namespace." 0 SimpleNamePattern)] "json" ["kubernetes"; "pods"]);
  ("get_services_all", preset_command "List services in all namespaces."
     ["get"; "services"; "--all-namespaces"; "-o"; "json"]
     true "low" false [] "json" ["kubernetes"; "services"]);
  ("get_deployments_all", preset_command "List deployments in all namespaces."
     ["get"; "deployments"; "--all-namespaces"; "-o"; "json"]
     true "low" false [] "json" ["kubernetes"; "deployments"])].

Definition stripeCommands : gmap string ExternalCliCommandOptions := list_to_map [
  ("version", preset_command "Show Stripe CLI version."
     ["--version"]
     true "low" false [] "text" ["stripe"; "diagnostics"]);
  ("customers_list", preset_command "List Stripe customers with a small limit. Customer data can contain PII."
     ["customers"; "list"; "--limit"; "{{limit}}"]
     true "medium" true [("limit", required "Maximum customers to list." 0 NumberPattern)] "text" ["stripe"; "customers"; "pii"])].

Definition larkCommands : gmap string ExternalCliCommandOptions := list_to_map [
  ("auth_status", preset_command "Show Lark CLI authentication status."
     ["auth"; "status"]
     true "low" false [] "json" ["lark"; "auth"]);
  ("docs_search", preset_command "Search Lark docs."
     ["docs"; "search"; "{{query}}"; "--output"; "json"]
     true "low" false [("query", required "Search query." 500 "")] "json" ["lark"; "docs"]);
  ("docs_read", preset_command "Read a Lark document."
     ["docs"; "read"; "{{document_id}}"; "--output"; "json"]
     true "low" false [("document_id", required "Lark document identifier." 0 SimpleNamePattern)] "json" ["lark"; "docs"]);
  ("sheets_read", preset_command "Read a Lark sheet range."
     ["sheets"; "read"; "{{sheet_id}}"; "{{range}}"; "--output"; "json"]
     true "low" false [("sheet_id", required "Lark sheet identifier." 0 SimpleNamePattern);
       ("range", required "Sheet range." 200 "")] "json" ["lark"; "sheets"]);
  ("message_send", preset_command "Send a Lark message."
     ["messages"; "send"; "--chat"; "{{chat_id}}"; "--text"; "{{text}}"; "--output"; "json"]
     false "medium" true [("chat_id", required "Lark chat identifier." 0 SimpleNamePattern);
       ("text", required "Message text." 4000 "")] "json" ["lark"; "messages"; "mutating"])].

Definition copilotCommands : gmap string ExternalCliCommandOptions := list_to_map [
  ("version", preset_command "Show GitHub Copilot CLI version."
     ["version"]
     true "low" false [] "text" ["github"; "copilot"; "diagnostics"]);
  ("prompt", preset_command "Run a non-interactive GitHub Copilot CLI prompt."
     ["-p"; "{{prompt}}"]
     false "high" true [("prompt", required "Prompt to send to GitHub Copilot CLI." 8000 "")] "" ["github"; "copilot"; "ai-agent"])].

Definition codexCommands : gmap string ExternalCliCommandOptions := list_to_map [
  ("version", preset_command "Show Codex CLI version."
     ["--version"]
     true "low" false [] "text" ["codex"; "diagnostics"]);
  ("exec_readonly", preset_command "Run Codex non-interactively in an explicit read-only sandbox."
     ["exec"; "--sandbox"; "read-only"; "{{prompt}}"]
     true "medium" true [("prompt", required "Prompt to send to Codex CLI." 8000 "")] "" ["codex"; "ai-agent"]);
  ("exec_readonly_json", preset_command "Run Codex non-interactively with JSON Lines events in a read-only sandbox."
     ["exec"; "--sandbox"; "read-only"; "--json"; "{{prompt}}"]
     true "medium" true [("prompt", required "Prompt to send to Codex CLI." 8000 "")] "ndjson" ["codex"; "ai-agent"; "jsonl"]);
  ("exec_workspace_write", preset_command "Run Codex non-interactively with workspace-write sandboxing."
     ["exec"; "--sandbox"; "workspace-write"; "{{prompt}}"]
     false "high" true [("prompt", required "Prompt to send to Codex CLI." 8000 "")] "" ["codex"; "ai-agent"; "mutating"])].

Definition geminiCommands : gmap string ExternalCliCommandOptions := list_to_map [
  ("version", preset_command "Show Gemini CLI version."
     ["--version"]
     true "low" false [] "text" ["gemini"; "diagnostics"]);
  ("prompt", preset_command "Run a non-interactive Gemini CLI prompt."
     ["-p"; "{{prompt}}"]
     false "high" true [("prompt", required "Prompt to send to Gemini CLI." 8000 "")] "" ["gemini"; "ai-agent"])].

Section Catalog.
Context `{MapOrder} (lower_rune : N → N) (n : nat).

(** Keys in the order of their lower-case forms; equal ones in any order. *)
Definition key_le (a b : string) : Prop := string_le (ToLower lower_rune a) (ToLower lower_rune b).
#[global] Instance key_le_dec a b : Decision (key_le a b) := _.
Definition getSortedKeys {V} (m : gmap string V) : list string := merge_sort key_le (visit n m).*1.

Definition preset (id connector displayName description : string) (tags : list string) (executable format : string)
    (status version : option ExternalCliStatusCommandOptions) (commands : gmap string ExternalCliCommandOptions) :
    ExternalCliPresetDefinition :=
  mkPreset (mkSummary id connector displayName description tags (getSortedKeys commands))
    (mkConnector false displayName executable [] "" None status version format false [] commands).

Definition ghPreset : ExternalCliPresetDefinition :=
  preset "gh" "gh" "GitHub CLI"
    "Read-oriented GitHub repository, issue, pull request, and release commands."
    ["github"; "vcs"] "gh" "json" (Some (mkStatusCommand ["auth"; "status"] 20))
    (Some (mkStatusCommand ["--version"] 10)) ghCommands.

Definition azPreset : ExternalCliPresetDefinition :=
  preset "az" "az" "Azure CLI"
    "Read-only Azure account, resource group, and resource inventory commands."
    ["azure"; "cloud"] "az" "json" (Some (mkStatusCommand ["account"; "show"; "--output"; "json"] 20))
    (Some (mkStatusCommand ["--version"] 10)) azCommands.

Definition kubePreset : ExternalCliPresetDefinition :=
  preset "kubectl" "kubectl" "kubectl"
    "Read-only Kubernetes context and workload inventory commands."
    ["kubernetes"; "cluster"] "kubectl" "json" (Some (mkStatusCommand ["config"; "current-context"] 10))
    (Some (mkStatusCommand ["version"; "--client=true"; "-o"; "json"] 15)) kubeCommands.

Definition stripePreset : ExternalCliPresetDefinition :=
  preset "stripe" "stripe" "Stripe CLI"
    "Conservative Stripe CLI commands with PII-bearing reads approval-gated."
    ["stripe"; "payments"] "stripe" "text" None
    (Some (mkStatusCommand ["--version"] 10)) stripeCommands.

Definition larkPreset : ExternalCliPresetDefinition :=
  preset "lark" "lark" "Lark CLI"
    "Generic lark-cli compatible templates for auth checks, docs, sheets, and guarded sends."
    ["lark"; "feishu"; "collaboration"] "lark-cli" "json" (Some (mkStatusCommand ["auth"; "status"] 20))
    (Some (mkStatusCommand ["--version"] 10)) larkCommands.

Definition copilotPreset : ExternalCliPresetDefinition :=
  preset "github-copilot" "github-copilot" "GitHub Copilot CLI"
    "GitHub Copilot CLI non-interactive prompt and diagnostic commands."
    ["github"; "copilot"; "ai"] "copilot" "text" None
    (Some (mkStatusCommand ["version"] 10)) copilotCommands.

Definition codexPreset : ExternalCliPresetDefinition :=
  preset "codex" "codex" "Codex CLI"
    "Codex CLI non-interactive exec commands with explicit sandbox choices."
    ["codex"; "openai"; "ai"] "codex" "text" None
    (Some (mkStatusCommand ["--version"] 10)) codexCommands.

Definition geminiPreset : ExternalCliPresetDefinition :=
  preset "gemini" "gemini" "Gemini CLI"
    "Gemini CLI non-interactive prompt and diagnostic commands."
    ["gemini"; "google"; "ai"] "gemini" "text" None
    (Some (mkStatusCommand ["--version"] 10)) geminiCommands.

Definition preset_list : list (string * ExternalCliPresetDefinition) :=
  [("gh", ghPreset);
   ("az", azPreset);
   ("kubectl", kubePreset);
   ("stripe", stripePreset);
   ("lark", larkPreset);
   ("github-copilot", copilotPreset);
   ("codex", codexPreset);
   ("gemini", geminiPreset)].
Definition buildPresets : gmap string ExternalCliPresetDefinition := list_to_map preset_list.

Definition preset_connectors (ids : list string) : gmap string ExternalCliConnectorOptions :=
  foldl (λ m id, match buildPresets !! id with
                 | Some p => <[Connector (Summary p) := cloneConnector lower_rune n (Options p)]> m
                 | None => m
                 end) ∅ ids.

Definition merge_connector (presetConnector : option ExternalCliConnectorOptions) (connector : ExternalCliConnectorOptions) :
    go ExternalCliConnectorOptions :=
  match presetConnector with
  | Some p => mergeConnector lower_rune n p connector
  | None => mret (cloneConnector lower_rune n connector)
  end.

Fixpoint merge_connectors (effective : gmap string ExternalCliConnectorOptions) (l : list (string * ExternalCliConnectorOptions)) :
    go (gmap string ExternalCliConnectorOptions) :=
  match l with
  | [] => mret effective
  | (name, connector) :: l =>
      merged ← merge_connector (effective !! name) connector;
      merge_connectors (<[name := merged]> effective) l
  end.

Definition Apply (options : ExternalCliOptions) : go ExternalCliOptions :=
  connectors ← merge_connectors (preset_connectors (Presets options)) (visit n (Connectors options));
  mret (mkOptions (Enabled options) (DefaultTimeoutSeconds options) (MaxStdoutBytes options) (MaxStderrBytes options)
          (RedactSecrets options) (AllowFreeformCommands options) (RequireApprovalForMutatingCommands options) (Presets options)
          connectors).

Definition FindUnknownPresetIds (options : ExternalCliOptions) : list string :=
  sort_strings (remove_dups (filter (λ id, buildPresets !! id = None) (Presets options))).

Definition TryGet (id : string) : option ExternalCliPresetSummary := Summary <$> buildPresets !! id.

Definition id_le (a b : ExternalCliPresetSummary) : Prop := string_le (Id a) (Id b).
#[global] Instance id_le_dec a b : Decision (id_le a b) := _.
Definition List : list ExternalCliPresetSummary := merge_sort id_le ((λ p, Summary p.2) <$> visit n buildPresets).

(** ** Lemmas *)

Lemma buildPresets_list id p : buildPresets !! id = Some p → (id, p) ∈ preset_list.
Proof. apply elem_of_list_to_map_2. Qed.

(** Connectors are named as their presets. *)
Lemma preset_connector id p : buildPresets !! id = Some p → Connector (Summary p) = id.
Proof.
  intros Hp%buildPresets_list. assert (Forall (λ ip, Connector (Summary ip.2) = ip.1) preset_list) as Hall by by repeat constructor.
  rewrite Forall_forall in Hall. by apply (Hall _ Hp).
Qed.

(** A command that is risky or changes something needs approval. *)
Definition governed (c : ExternalCliCommandOptions) : bool :=
  (ReadOnly c && bool_decide (cmd_RiskLevel c ≠ "high")) || cmd_RequiresApproval c.

Definition well_named (name : string) (c : ExternalCliCommandOptions) : bool :=
  bool_decide (ToLower lower_rune name = name) && governed c.

Lemma map_Forall_check {A} (f : string → A → bool) (m : gmap string A) : forallb (uncurry f) (map_to_list m) = true →
  map_Forall (λ k a, f k a = true) m.
Proof. rewrite forallb_forall. intros Hf k a Hk. apply (Hf (k, a)). apply list_elem_of_In. by apply elem_of_map_to_list. Qed.

Lemma preset_commands id p : buildPresets !! id = Some p → map_Forall (λ name c, well_named name c = true) (Commands (Options p)).
Proof.
  intros Hp%buildPresets_list.
  assert (Forall (λ ip, map_Forall (λ name c, well_named name c = true) (Commands (Options ip.2))) preset_list) as Hall.
  { repeat (apply Forall_cons; split; [apply map_Forall_check; vm_compute; reflexivity |]). constructor. }
  rewrite Forall_forall in Hall. by apply (Hall _ Hp).
Qed.

Lemma preset_lower id p : buildPresets !! id = Some p → map_Forall (λ name _, ToLower lower_rune name = name) (Commands (Options p)).
Proof. intros Hp name c Hc. pose proof (preset_commands _ _ Hp _ _ Hc) as H1. apply andb_true_iff in H1 as [H1 _]. by apply bool_decide_eq_true in H1. Qed.

Lemma preset_connectors_in ids id p : id ∈ ids → buildPresets !! id = Some p →
  preset_connectors ids !! id = Some (cloneConnector lower_rune n (Options p)).
Proof.
  intros Hin Hp. unfold preset_connectors.
  assert (∀ m : gmap string ExternalCliConnectorOptions, id ∈ ids ∨ m !! id = Some (cloneConnector lower_rune n (Options p)) →
    foldl (λ m id, match buildPresets !! id with
                   | Some p => <[Connector (Summary p) := cloneConnector lower_rune n (Options p)]> m
                   | None => m end) m ids !! id = Some (cloneConnector lower_rune n (Options p))) as Hgen; [| apply Hgen; by left].
  clear Hin. induction ids as [| i ids IH]; intros m Hm; cbn [foldl]; [by destruct Hm as [?%elem_of_nil |] |].
  apply IH. rewrite elem_of_cons in Hm. destruct (decide (i = id)) as [-> | Hne].
  - right. rewrite Hp, (preset_connector _ _ Hp). apply lookup_insert_eq.
  - destruct Hm as [[-> | Hm] | Hm]; [done | by left | right]. destruct (buildPresets !! i) as [q |] eqn:Hq; [| done].
    rewrite (preset_connector _ _ Hq). by rewrite lookup_insert_ne.
Qed.

(** What becomes of the connector [name]. *)
Lemma merge_connectors_lookup l : ∀ effective r name, NoDup l.*1 → merge_connectors effective l = Done r →
  (name ∉ l.*1 ∧ r !! name = effective !! name) ∨
  ∃ c merged, (name, c) ∈ l ∧ r !! name = Some merged ∧ merge_connector (effective !! name) c = Done merged.
Proof.
  induction l as [| [name0 c0] l IH]; intros effective r name Hnd; cbn [merge_connectors].
  { intros [= <-]. left. split; [apply not_elem_of_nil | done]. }
  apply NoDup_cons in Hnd as [Hn Hnd]. unfold mbind, go_bind. destruct (merge_connector (effective !! name0) c0) as [merged | |] eqn:Hm; [| done..].
  intros Hrest. destruct (IH _ _ name Hnd Hrest) as [[Hnot ->] | (c & m' & Hin & Hr & Heq)].
  - destruct (decide (name = name0)) as [-> | Hne].
    + right. exists c0, merged. split; [by left |]. rewrite lookup_insert_eq. done.
    + left. rewrite lookup_insert_ne by done. cbn. set_solver.
  - right. exists c, m'. split; [by right |]. split; [done |]. rewrite lookup_insert_ne in Heq; [done |].
    intros <-. apply Hn. by apply (list_elem_of_fmap_2 fst) in Hin.
Qed.

Lemma Apply_inv options effective : Apply options = Done effective →
  merge_connectors (preset_connectors (Presets options)) (visit n (Connectors options)) = Done (Connectors effective) ∧
  RequireApprovalForMutatingCommands effective = RequireApprovalForMutatingCommands options.
Proof. unfold Apply, mbind, go_bind. destruct (merge_connectors _ _) as [c | |]; [| done..]. by intros [= <-]. Qed.

(** C22: Whatever a configuration says, a preset it names keeps its commands:
    each is still there, with the same parameters required, limited and matched,
    no lower risk, read-only and without approval only if it was, and what is
    risky or changes something still needs approval. *)
Theorem configured_presets_stay_governed options effective id p : Apply options = Done effective → id ∈ Presets options →
  buildPresets !! id = Some p →
  ∃ con, Connectors effective !! id = Some con ∧
    ∀ name c, Commands (Options p) !! name = Some c →
      ∃ c', Commands con !! name = Some c' ∧ as_strict c c' ∧
        (ReadOnly c = false ∨ cmd_RiskLevel c = "high" → cmd_RequiresApproval c' = true).
Proof.
  intros [Hm _]%Apply_inv Hin Hp.
  assert (∃ con, Connectors effective !! id = Some con ∧
    ∀ name c, Commands (Options p) !! name = Some c → ∃ c', Commands con !! name = Some c' ∧ as_strict c c') as (con & Hcon & Hstrict).
  { pose proof (preset_connectors_in _ _ _ Hin Hp) as Hpre. pose proof (preset_lower _ _ Hp) as Hlow.
    destruct (merge_connectors_lookup _ _ _ id (visit_nodup n _) Hm) as [[_ Heq] | (c & merged & _ & Heq & Hmerge)]; rewrite Hpre in *.
    - exists (cloneConnector lower_rune n (Options p)). split; [done |]. intros name c Hc. cbn [Commands cloneConnector].
      rewrite cloneCommands_lower by done. exists c. split; [done | apply as_strict_refl].
    - exists merged. split; [done |]. apply mergeConnector_strict in Hmerge as [_ Hmerge].
      + intros name c' Hc. apply Hmerge. cbn [Commands cloneConnector]. by rewrite cloneCommands_lower.
      + cbn [Commands cloneConnector]. by rewrite cloneCommands_lower. }
  exists con. split; [done |]. intros name c Hc. destruct (Hstrict _ _ Hc) as (c' & Hc' & Hs). exists c'. split; [done |]. split; [done |].
  intros Hrisk. apply (as_approval _ _ Hs). pose proof (preset_commands _ _ Hp _ _ Hc) as Hw. apply andb_true_iff in Hw as [_ Hw].
  unfold governed in Hw. destruct Hrisk as [Hr | Hr]; rewrite Hr in Hw; [done |]. by rewrite andb_false_r in Hw.
Qed.

(** A preset has no environment, and one that is configured cannot be merged:
    the program panics while it starts. *)
Theorem configured_environments_panic options effective id p con env : id ∈ Presets options → buildPresets !! id = Some p →
  Connectors options !! id = Some con → con_Environment con = Some env → env ≠ ∅ → Apply options ≠ Done effective.
Proof.
  intros Hin Hp Hcon Henv Hne Heq. apply Apply_inv in Heq as [Hm _].
  pose proof (preset_connectors_in _ _ _ Hin Hp) as Hpre. apply (elem_of_visit n) in Hcon.
  destruct (merge_connectors_lookup _ _ _ id (visit_nodup n _) Hm) as [[Hnot _] | (c & merged & Hc & _ & Hmerge)].
  - apply Hnot. by apply (list_elem_of_fmap_2 fst) in Hcon.
  - apply elem_of_visit in Hc. apply elem_of_visit in Hcon. assert (c = con) as -> by congruence. rewrite Hpre in Hmerge.
    apply (mergeConnector_environment _ _ _ _ env) in Hmerge; [done | | done | done]. cbn.
    apply buildPresets_list in Hp. assert (Forall (λ ip, con_Environment (Options ip.2) = None) preset_list) as Hall by by repeat constructor.
    rewrite Forall_forall in Hall. by apply (Hall _ Hp).
Qed.
End Catalog.
