(* ===== verification/ExternalCliTemplates.v ===== *)
(** Templates of arguments and the values put into them:
    [PlaceholderRegex], [findPlaceholders], [expandTemplate], [toParameterString]
    and [validateParameters] of [openclaw/core/external_cli.go].

    A template is cut into its placeholders and the bytes between them, as the
    expression finds them from the left: two braces, white space, a name, white
    space, two braces.  These have no byte in common, so it never goes back.

    The computations read maps in an order of their own each time ([MapOrder]),
    count the times, and may end with an error or a panic.  Regular expressions of
    the configuration, the values of JSON strings and the tables of Unicode are
    the operations of [CliText]. *)

From S2P Require Import Prelude GoStrings ExternalCli.
Local Open Scope string_scope.
Local Open Scope list_scope.

Class CliText := {
  lower_table : N → N;
  fold_table : N → N;                                (** the least rune of an orbit of simple folding *)
  Unmarshal_string : string → option string;         (** of a JSON string *)
  regexp_Match : string → string → option bool;      (** pattern, text; [None]: it does not compile *)
  regexp_Replace : string → string → string → option string;   (** pattern, text, replacement *)
  Redact : string → string;
}.

(** ** Computations *)

Definition C (A : Type) : Type := nat → go (res A * nat).
#[global] Instance C_ret : MRet C := λ A a n, Done (Ok a, n).
#[global] Instance C_bind : MBind C := λ A B f m n,
  match m n with
  | Done (Ok a, n) => f a n
  | Done (Fail e, n) => Done (Fail e, n)
  | Panic => Panic
  | Deadlock => Deadlock
  end.
Definition fails {A} (e : string) : C A := λ n, Done (Fail e, n).
Definition lift {A} (r : res A) : C A := λ n, Done (r, n).
(** What may be another each time. *)
Definition look {A} (f : nat → A) : C A := λ n, Done (Ok (f n), S n).

Fixpoint each {A} (f : A → C ()) (l : list A) : C () :=
  match l with
  | [] => mret tt
  | a :: l => _ ← f a; each f l
  end.

Fixpoint traverse {A B} (f : A → C B) (l : list A) : C (list B) :=
  match l with
  | [] => mret []
  | a :: l => b ← f a; bs ← traverse f l; mret (b :: bs)
  end.

(** For each entry of a map. *)
Definition each_entry `{MapOrder} {A} (f : string * A → C ()) (m : gmap string A) : C () :=
  entries ← look (λ n, visit n m); each f entries.

(** ** Placeholders *)

Definition letter (c : ascii) : bool :=
  (((97 <=? code c) && (code c <=? 122)) || ((65 <=? code c) && (code c <=? 90)) || (code c =? 95))%N.
Definition name_byte (c : ascii) : bool := letter c || is_digit c || (code c =? 45)%N.
Definition blank (c : ascii) : bool := bool_decide (code c ∈ [9; 10; 12; 13; 32]%N).

(** The longest front all in [p], and the rest. *)
Fixpoint span (p : ascii → bool) (l : bytes) : bytes * bytes :=
  match l with
  | c :: r => if p c then let '(a, b) := span p r in (c :: a, b) else ([], l)
  | [] => ([], [])
  end.

(** The name of a placeholder at the front, and what follows it. *)
Definition placeholder_at (l : bytes) : option (bytes * bytes) :=
  match strip_prefix [byte 123; byte 123] l with
  | None => None
  | Some l =>
      match (span blank l).2 with
      | c :: l =>
          if letter c then
            let '(name, l) := span name_byte l in
            match strip_prefix [byte 125; byte 125] (span blank l).2 with
            | Some rest => Some (c :: name, rest)
            | None => None
            end
          else None
      | [] => None
      end
  end.

Inductive piece := Text (c : ascii) | Hole (name : string).
#[global] Instance piece_eq_dec : EqDecision piece.
Proof. solve_decision. Defined.

Fixpoint cut (fuel : nat) (l : bytes) : list piece :=
  match fuel with
  | O => []
  | S fuel =>
      match l with
      | [] => []
      | c :: l' =>
          match placeholder_at l with
          | Some (name, rest) => Hole (of_bytes name) :: cut fuel rest
          | None => Text c :: cut fuel l'
          end
      end
  end.
Definition pieces (item : string) : list piece := cut (String.length item) (to_bytes item).

Definition holes (ps : list piece) : list string := omap (λ p, match p with Hole name => Some name | Text _ => None end) ps.

Section Text.
Context `{MapOrder} `{CliText}.

Notation ToLower := (ToLower lower_table).

Fixpoint first_of_each (seen : gset string) (names : list string) : list string :=
  match names with
  | [] => []
  | rawName :: names =>
      if bool_decide (ToLower rawName ∈ seen) then first_of_each seen names
      else rawName :: first_of_each ({[ToLower rawName]} ∪ seen) names
  end.
Definition findPlaceholders (template : list string) : list string := first_of_each ∅ (template ≫= λ item, holes (pieces item)).

(** ** Names *)

Definition same_name : string → string → bool := EqualFoldRunes fold_table.

(** The entry of that name; if there is none, one that differs in case only. *)
Definition lookup_name {A} (m : gmap string A) (name : string) : C (option (string * A)) :=
  match m !! name with
  | Some a => mret (Some (name, a))
  | None => look (λ n, List.find (λ '(k, _), same_name k name) (visit n m))
  end.

Definition tryGetParameter (parameters : gmap string string) (name : string) : C (option string) :=
  found ← lookup_name parameters name; mret (snd <$> found).
Definition tryGetParameterSchema (parameters : gmap string ExternalCliParameterOptions) (key : string) :
    C (option ExternalCliParameterOptions) :=
  found ← lookup_name parameters key; mret (snd <$> found).

(** ** Values *)

Definition is_19 (c : ascii) : bool := ((49 <=? code c) && (code c <=? 57))%N.
Definition some_digits (l : bytes) : option bytes :=
  match l with c :: l => if is_digit c then Some (span is_digit l).2 else None | [] => None end.

(** The number literals of JSON. *)
Definition exponent (l : bytes) : bool :=
  match l with
  | [] => true
  | c :: l =>
      if ((code c =? 69) || (code c =? 101))%N then
        let l := match l with s :: r => if ((code s =? 43) || (code s =? 45))%N then r else l | [] => [] end in
        bool_decide (some_digits l = Some [])
      else false
  end.
Definition fraction (l : bytes) : bool :=
  match l with
  | c :: r => if (code c =? 46)%N then match some_digits r with Some l => exponent l | None => false end else exponent l
  | [] => true
  end.
Definition json_number (s : string) : bool :=
  let l := to_bytes s in
  let l := match l with c :: r => if (code c =? 45)%N then r else l | [] => [] end in
  match l with
  | c :: r => if (code c =? 48)%N then fraction r else if is_19 c then fraction (span is_digit r).2 else false
  | [] => false
  end.

Definition not_plain (key : string) : string := "external CLI parameter '" +:+ key +:+ "' must be a string, number, or boolean".

(** Reading [null] into a [json.Number] leaves it empty. *)
Definition toParameterString (key value : string) : res string :=
  let trimmed := TrimSpace value in
  match to_bytes trimmed with
  | [] => Fail (not_plain key)
  | c :: _ =>
      if (code c =? 34)%N then
        match Unmarshal_string trimmed with
        | Some s => Ok s
        | None => Fail ("invalid string format for parameter '" +:+ key +:+ "'")
        end
      else if bool_decide (trimmed = "true") || bool_decide (trimmed = "false") then Ok trimmed
      else if json_number trimmed then Ok trimmed
      else if bool_decide (trimmed = "null") then Ok ""
      else Fail (not_plain key)
  end.

(** ** Expanding and validating *)

Fixpoint expand (parameters : gmap string string) (ps : list piece) : C bytes :=
  match ps with
  | [] => mret []
  | Text c :: ps => rest ← expand parameters ps; mret (c :: rest)
  | Hole name :: ps =>
      value ← tryGetParameter parameters name;
      match value with
      | None => fails ("External CLI parameter '" +:+ name +:+ "' is required.")
      | Some value =>
          rest ← expand parameters ps;
          mret (match toParameterString name value with Ok r => to_bytes r | Fail _ => [] end ++ rest)
      end
  end.
Definition expandTemplate (template : list string) (parameters : gmap string string) : C (list string) :=
  traverse (λ arg, expanded ← expand parameters (pieces arg); mret (of_bytes expanded)) template.

Definition validateParameterValue (name value : string) (schema : ExternalCliParameterOptions) : res () :=
  if negb (MaxLength schema =? 0)%Z && (MaxLength schema <? Z.of_nat (String.length value))%Z
  then Fail ("external CLI parameter '" +:+ name +:+ "' exceeds max length " +:+ Itoa (MaxLength schema))
  else if negb (bool_decide (AllowedValues schema = [])) && negb (bool_decide (value ∈ AllowedValues schema))
  then Fail ("external CLI parameter '" +:+ name +:+ "' has a value that is not allowed")
  else if negb (IsBlank (Pattern schema)) && negb (bool_decide (regexp_Match (Pattern schema) value = Some true))
  then Fail ("external CLI parameter '" +:+ name +:+ "' does not match the required pattern")
  else Ok tt.

Definition must_be_given (parameters : gmap string string) (name : string) : C () :=
  value ← tryGetParameter parameters name;
  match value with
  | Some _ => mret tt
  | None => fails ("external CLI parameter '" +:+ name +:+ "' is required")
  end.

Definition validate_value (command : ExternalCliCommandOptions) (kv : string * string) : C () :=
  let '(key, value) := kv in
  paramStr ← lift (toParameterString key value);
  schema ← tryGetParameterSchema (default ∅ (Parameters command)) key;
  match schema with
  | Some schema => lift (validateParameterValue key paramStr schema)
  | None => mret tt
  end.

Definition allowedNames (command : ExternalCliCommandOptions) (template : list string) : gset string :=
  list_to_set (ToLower <$> (findPlaceholders template ++ (map_to_list (default ∅ (Parameters command))).*1)).

Definition validateParameters (command : ExternalCliCommandOptions) (template : list string) (parameters : gmap string string) : C () :=
  _ ← each (must_be_given parameters) (findPlaceholders template);
  _ ← each_entry (λ '(paramName, schema), if par_Required schema then must_be_given parameters paramName else mret tt)
        (default ∅ (Parameters command));
  _ ← (if AllowUnknownParameters command then mret tt
       else each_entry (λ '(key, _), if bool_decide (ToLower key ∈ allowedNames command template) then mret tt
                                     else fails ("external CLI parameter '" +:+ key +:+ "' is not allowed for this command")) parameters);
  each_entry (validate_value command) parameters.
End Text.
