(* ===== verification/ExternalCliRegistry.v ===== *)
(** The registry of external command-line tools:
    [ExternalCliConnectorRegistry] of [openclaw/core/external_cli.go].

    [BuildPreview] turns a request into a command that is ready to run, with a
    preview of it whose fingerprint an approval refers to; it is all that stands
    between a request and an argument of a program.  The host is the class
    [CliHost]: what a file is and how a status command ends may be another each
    time; the platform is Unix. *)

From stdpp Require Import sorting.
From S2P Require Import Prelude GoStrings Encoding PathPolicy ExternalCli ExternalCliPresets ExternalCliTemplates.
Local Open Scope string_scope.
Local Open Scope list_scope.

(** ** Data *)

Record ExternalCliPreviewRequest := mkPreviewRequest {
  req_Connector : string;
  req_Command : string;
  req_Parameters : gmap string string;      (** raw JSON *)
  ExecuteDryRun : bool;
}.

Record ExternalCliInvocationPreview := mkPreview {
  pv_Connector : string;
  pv_Command : string;
  pv_Executable : string;
  pv_Arguments : list string;
  pv_RedactedArguments : list string;
  RedactedCommandLine : string;
  pv_RiskLevel : string;
  pv_ReadOnly : bool;
  pv_RequiresApproval : bool;
  pv_SupportsDryRun : bool;
  IsDryRun : bool;
  pv_StructuredOutput : string;
  pv_RequiredScopes : list string;
  pv_RequiredIdentity : string;
  pv_WorkingDirectory : string;
  pv_TimeoutSeconds : Z;
  Fingerprint : string;
  ParametersHash : string;
  Warnings : list string;
}.

Record ExternalCliPreparedCommand := mkPrepared {
  ConnectorName : string;
  CommandName : string;
  pre_Connector : ExternalCliConnectorOptions;
  pre_Command : ExternalCliCommandOptions;
  pre_Executable : string;
  pre_Arguments : list string;
  pre_RedactedArguments : list string;
  pre_WorkingDirectory : string;
  pre_Environment : gmap string string;
  Preview : ExternalCliInvocationPreview;
  pre_MaxStdoutBytes : Z;
  pre_MaxStderrBytes : Z;
  pre_RedactionRules : list string;
}.

Record ExternalCliConnectorSummary := mkConnectorSummary {
  cs_Name : string;
  cs_DisplayName : string;
  cs_Enabled : bool;
  cs_Executable : string;
  CommandCount : nat;
}.

Record ExternalCliCommandSummary := mkCommandSummary {
  co_Name : string;
  co_Description : string;
  co_RiskLevel : string;
  co_ReadOnly : bool;
  co_RequiresApproval : bool;
  co_SupportsDryRun : bool;
  co_StructuredOutput : string;
  co_Tags : list string;
}.

Record ExternalCliCommandSchemaResponse := mkSchema {
  sc_Connector : string;
  sc_Command : string;
  sc_Description : string;
  sc_Parameters : option (gmap string ExternalCliParameterOptions);
  RequiredParameters : list string;
  sc_RiskLevel : string;
  sc_ReadOnly : bool;
  sc_RequiresApproval : bool;
  sc_SupportsDryRun : bool;
  sc_StructuredOutput : string;
}.

Record ExternalCliConnectorStatus := mkStatus {
  st_Connector : string;
  st_DisplayName : string;
  st_Enabled : bool;
  st_Executable : string;
  ExecutableFound : bool;
  ResolvedExecutablePath : string;
  st_Version : string;
  Authenticated : bool;
  AuthenticationStatus : string;
  st_Warnings : list string;
}.

(** What [os.Stat] says, and how a command that was run ends. *)
Inductive file_info := IsFile | IsDirectory | NotExist | StatFails.
Record status_run := mkRun {
  deadline : bool;              (** its time ran out, and it was not cancelled *)
  run_stdout : string;
  run_stderr : string;
  exit_code : option Z;         (** [None]: an error that is not an exit *)
}.

Class CliHost := {
  Stat : nat → string → file_info;
  Getenv : string → string;
  ExpandEnv : string → string;
  UserHomeDir : option string;
  Getwd : option string;
  RunCommand : nat → string → list string → string → gmap string string → Z → status_run;
}.

Section Registry.
Context `{MapOrder} `{CliText} `{CliHost}.
Context (options : ExternalCliOptions).

Definition Clamp (val min max : Z) : Z := if (val <? min)%Z then min else if (max <? val)%Z then max else val.

(** ** Connectors and commands *)

Definition getConnector (connectorName : string) : res ExternalCliConnectorOptions :=
  if IsBlank connectorName then Fail "External CLI connector is required"
  else match Connectors options !! connectorName with
       | None => Fail ("Unknown external CLI connector '" +:+ connectorName +:+ "'")
       | Some conn => Ok conn
       end.

Definition getCommand (connector : ExternalCliConnectorOptions) (commandName : string) : res ExternalCliCommandOptions :=
  if IsBlank commandName then Fail "External CLI command is required"
  else match Commands connector !! commandName with
       | None => Fail ("Unknown external CLI command '" +:+ commandName +:+ "'")
       | Some comm => Ok comm
       end.

Definition requiresApproval (connector : ExternalCliConnectorOptions) (command : ExternalCliCommandOptions) : bool :=
  con_RequiresApproval connector || cmd_RequiresApproval command
  || bool_decide (NormalizeRiskLevel (cmd_RiskLevel command) = "high")
  || (negb (ReadOnly command) && RequireApprovalForMutatingCommands options).

Definition resolveOutputFormat (connector : ExternalCliConnectorOptions) (command : ExternalCliCommandOptions) : string :=
  if IsBlank (cmd_StructuredOutput command) then NormalizeOutputFormat (DefaultOutputFormat connector)
  else NormalizeOutputFormat (cmd_StructuredOutput command).

Definition GetCommandSchema (connectorName commandName : string) : C ExternalCliCommandSchemaResponse :=
  connector ← lift (getConnector connectorName);
  command ← lift (getCommand connector commandName);
  parameters ← look (λ n, visit n (default ∅ (Parameters command)));
  let parameterKeys := (filter (λ kv, par_Required kv.2 = true) parameters).*1 in
  mret (mkSchema connectorName commandName (cmd_Description command) (Parameters command)
    (sort_strings (remove_dups (findPlaceholders (ArgsTemplate command) ++ parameterKeys)))
    (NormalizeRiskLevel (cmd_RiskLevel command)) (ReadOnly command) (requiresApproval connector command)
    (SupportsDryRun command) (resolveOutputFormat connector command)).

Definition summary_of (connector : ExternalCliConnectorOptions) (kv : string * ExternalCliCommandOptions) : ExternalCliCommandSummary :=
  let '(key, command) := kv in
  mkCommandSummary key (cmd_Description command) (NormalizeRiskLevel (cmd_RiskLevel command)) (ReadOnly command)
    (requiresApproval connector command) (SupportsDryRun command) (resolveOutputFormat connector command) (cmd_Tags command).
Definition command_le (a b : ExternalCliCommandSummary) : Prop := string_le (co_Name a) (co_Name b).
#[global] Instance command_le_dec a b : Decision (command_le a b) := _.

Definition ListCommands (connectorName : string) : C (list ExternalCliCommandSummary) :=
  connector ← lift (getConnector connectorName);
  commands ← look (λ n, visit n (Commands connector));
  mret (merge_sort command_le (summary_of connector <$> commands)).

Definition connector_summary (kv : string * ExternalCliConnectorOptions) : ExternalCliConnectorSummary :=
  let '(key, v) := kv in
  mkConnectorSummary key (if IsBlank (DisplayName v) then key else DisplayName v) (con_Enabled v) (Executable v) (size (Commands v)).
Definition connector_le (a b : ExternalCliConnectorSummary) : Prop := string_le (cs_Name a) (cs_Name b).
#[global] Instance connector_le_dec a b : Decision (connector_le a b) := _.

Definition ListConnectors : C (list ExternalCliConnectorSummary) :=
  connectors ← look (λ n, visit n (Connectors options));
  mret (merge_sort connector_le (connector_summary <$> connectors)).

(** ** The executable *)

(** [util.FileExists] dereferences nil for an error that is not "not found". *)
Definition FileExists (path : string) : C bool := λ n,
  match Stat n path with
  | IsFile => Done (Ok true, S n)
  | IsDirectory | NotExist => Done (Ok false, S n)
  | StatFails => Panic
  end.

Definition getEnvIgnoreCase (env : gmap string string) (target : string) : C string :=
  look (λ n, match List.find (λ '(k, _), same_name k target) (visit n env) with Some (_, v) => v | None => "" end).

Fixpoint first_file (dirs : list string) (executable : string) : C string :=
  match dirs with
  | [] => mret ""
  | dir :: dirs =>
      let dir := TrimSpace dir in
      if bool_decide (dir = "") then first_file dirs executable
      else
        let fullPath := Join dir executable in
        found ← FileExists fullPath;
        if found : bool then mret fullPath else first_file dirs executable
  end.

Definition resolveExecutable (executable : string) (environment : gmap string string) : C string :=
  if IsBlank executable then mret ""
  else if IsAbs executable then found ← FileExists executable; mret (if found : bool then executable else "")
  else
    pathVal ← getEnvIgnoreCase environment "PATH";
    let pathVal := if bool_decide (pathVal = "") then Getenv "PATH" else pathVal in
    if IsBlank pathVal then mret "" else first_file (Split pathVal (byte 58)) executable.

(** ** The working directory *)

Definition resolveWorkingDirectory (configured : string) : C string :=
  if IsBlank configured then mret ""
  else
    let expanded := ExpandEnv configured in
    expanded ← lift
      (if bool_decide (expanded = "~") || HasPrefix expanded "~/" || HasPrefix expanded "~\" then
         match UserHomeDir with
         | None => Fail "failed to get user home directory"
         | Some homeDir => Ok (if bool_decide (expanded = "~") then homeDir else Join homeDir (slice_from expanded 2))
         end
       else Ok expanded);
    match Abs Getwd expanded with
    | None => fails ("failed to resolve absolute path for '" +:+ configured +:+ "'")
    | Some fullPath =>
        info ← look (λ n, Stat n fullPath);
        match info with
        | IsDirectory => mret fullPath
        | NotExist => fails ("external CLI working directory '" +:+ configured +:+ "' does not exist")
        | StatFails => fails ("failed to check working directory '" +:+ configured +:+ "'")
        | IsFile => fails ("external CLI working directory '" +:+ configured +:+ "' is a file, not a directory")
        end
    end.

(** ** Redaction and quoting *)

Definition redact_rules (rules : list string) (text : string) : string :=
  foldl (λ current pattern,
    if IsBlank pattern then current
    else default current (regexp_Replace pattern current "[REDACTED:external-cli]")) text rules.
Definition redact (value : string) (redactionRules : list string) : string :=
  if negb (RedactSecrets options) then value else redact_rules redactionRules (Redact value).
Definition redactArgs (args redactionRules : list string) : list string := (λ a, redact a redactionRules) <$> args.

Definition quotation : ascii := byte 34.
(** A quotation mark becomes a backslash and a quotation mark. *)
Definition escaped (arg : string) : string :=
  of_bytes (to_bytes arg ≫= λ c, if bool_decide (c = quotation) then [byte 92; quotation] else [c]).
Definition quoteForPreview (arg : string) : string :=
  if existsb IsSpace (runes arg) then of_bytes ([quotation] ++ to_bytes (escaped arg) ++ [quotation]) else arg.
Definition buildCommandLine (executable : string) (args : list string) : string :=
  match args with
  | [] => executable
  | _ => executable +:+ " " +:+ JoinStrings (quoteForPreview <$> args) " "
  end.

(** ** Hashes *)

(** [util.ComputeTurnHash] *)
Definition ComputeTurnHash (text : string) : string := if bool_decide (text = "") then "" else hex (Sum256 (to_bytes text)).

Definition line (s : string) : string := s +:+ of_bytes [byte 10].
Definition fingerprint_text (connectorName commandName resolvedExecutable : string) (args : list string) (workingDirectory : string)
    (timeout : Z) (outputFormat : string) (dryRun : bool) (command : ExternalCliCommandOptions) : string :=
  line connectorName +:+ line commandName +:+ line resolvedExecutable +:+ line workingDirectory +:+ line (Itoa timeout)
  +:+ line outputFormat +:+ line (if dryRun then "dry-run" else "execute") +:+ line (NormalizeRiskLevel (cmd_RiskLevel command))
  +:+ line (if ReadOnly command then "readonly" else "mutation") +:+ foldr (λ arg text, line arg +:+ text) "" args.
Definition computeFingerprint connectorName commandName resolvedExecutable args workingDirectory timeout outputFormat dryRun command : string :=
  ComputeTurnHash (fingerprint_text connectorName commandName resolvedExecutable args workingDirectory timeout outputFormat dryRun command).

(** Keys in the order of their lower-case forms, equal ones in their own. *)
Definition parameter_le (a b : string * string) : Prop :=
  match compare_bytes (to_bytes (ToLower lower_table a.1)) (to_bytes (ToLower lower_table b.1)) with
  | Lt => True
  | Eq => string_le a.1 b.1
  | Gt => False
  end.
#[global] Instance parameter_le_dec a b : Decision (parameter_le a b).
Proof. unfold parameter_le. destruct (compare_bytes _ _); apply _. Defined.
Definition computeParametersHash (parameters : gmap string string) : C string :=
  entries ← look (λ n, visit n parameters);
  mret (ComputeTurnHash (foldr (λ kv text, line (kv.1 +:+ "=" +:+ kv.2) +:+ text) "" (merge_sort parameter_le entries))).

(** ** Previews *)

Definition buildPreviewWarnings (executable : string) (environment : gmap string string) : C (list string) :=
  found ← resolveExecutable executable environment;
  mret (if bool_decide (found = "") then ["Executable '" +:+ executable +:+ "' was not found on PATH."] else []).

Definition template_of (command : ExternalCliCommandOptions) (dryRun : bool) : list string :=
  if dryRun then DryRunArgsTemplate command else ArgsTemplate command.

(** The connector, the command and its template, if the options allow them. *)
Definition allowed_command (request : ExternalCliPreviewRequest) : res (ExternalCliConnectorOptions * ExternalCliCommandOptions) :=
  if negb (Enabled options) then Fail "external CLI connectors are disabled"
  else if AllowFreeformCommands options then Fail "external CLI free-form commands are not supported by this native connector"
  else
    connector ← getConnector (req_Connector request);
    if negb (con_Enabled connector) then Fail ("external CLI connector '" +:+ req_Connector request +:+ "' is disabled")
    else if IsBlank (Executable connector) then Fail ("external CLI connector '" +:+ req_Connector request +:+ "' has no executable configured")
    else command ← getCommand connector (req_Command request); Ok (connector, command).

Definition qualified (request : ExternalCliPreviewRequest) : string := req_Connector request +:+ "/" +:+ req_Command request.

Definition checked_template (request : ExternalCliPreviewRequest) (command : ExternalCliCommandOptions) (dryRun : bool) : res (list string) :=
  if dryRun && (negb (SupportsDryRun command) || bool_decide (DryRunArgsTemplate command = []))
  then Fail ("external CLI command '" +:+ qualified request +:+ "' does not have an explicit dry-run template")
  else match template_of command dryRun with
       | [] => Fail ("external CLI command '" +:+ qualified request +:+ "' has no argument template")
       | template => Ok template
       end.

(** The arguments the program is given. *)
Definition arguments (request : ExternalCliPreviewRequest) (connector : ExternalCliConnectorOptions) (command : ExternalCliCommandOptions)
    (template : list string) : C (list string) :=
  _ ← validateParameters command template (req_Parameters request);
  expandedArgs ← expandTemplate template (req_Parameters request);
  mret (DefaultArgs connector ++ expandedArgs).

Definition timeout_of (command : ExternalCliCommandOptions) : Z :=
  Clamp (default (DefaultTimeoutSeconds options) (cmd_TimeoutSeconds command)) 1 3600.
Definition environment_of (connector : ExternalCliConnectorOptions) (command : ExternalCliCommandOptions) : gmap string string :=
  default ∅ (cmd_Environment command) ∪ default ∅ (con_Environment connector).

Definition prepare (request : ExternalCliPreviewRequest) (dryRun : bool) (connector : ExternalCliConnectorOptions)
    (command : ExternalCliCommandOptions) (workingDirectory : string) (args : list string) : C ExternalCliPreparedCommand :=
  let redactionRules := con_RedactionRules connector ++ cmd_RedactionRules command in
  let redactedArgs := redactArgs args redactionRules in
  let timeout := timeout_of command in
  let outputFormat := resolveOutputFormat connector command in
  let environment := environment_of connector command in
  found ← resolveExecutable (Executable connector) environment;
  let resolvedExecutable := if bool_decide (found = "") then Executable connector else found in
  parametersHash ← computeParametersHash (req_Parameters request);
  warnings ← buildPreviewWarnings (Executable connector) environment;
  let preview :=
    mkPreview (req_Connector request) (req_Command request) resolvedExecutable args redactedArgs
      (buildCommandLine resolvedExecutable redactedArgs) (NormalizeRiskLevel (cmd_RiskLevel command)) (ReadOnly command)
      (requiresApproval connector command) (SupportsDryRun command) dryRun outputFormat (RequiredScopes command)
      (RequiredIdentity command) workingDirectory timeout
      (computeFingerprint (req_Connector request) (req_Command request) resolvedExecutable args workingDirectory timeout outputFormat
         dryRun command)
      parametersHash warnings in
  mret (mkPrepared (req_Connector request) (req_Command request) connector command resolvedExecutable args redactedArgs workingDirectory
    environment preview (Clamp (MaxStdoutBytes options) 1 (16 * 1024 * 1024)) (Clamp (MaxStderrBytes options) 1 (4 * 1024 * 1024))
    redactionRules).

Definition BuildPreview (request : ExternalCliPreviewRequest) (dryRun : bool) : C ExternalCliPreparedCommand :=
  '(connector, command) ← lift (allowed_command request);
  workingDirectory ← resolveWorkingDirectory
    (if bool_decide (cmd_WorkingDirectory command = "") then con_WorkingDirectory connector else cmd_WorkingDirectory command);
  template ← lift (checked_template request command dryRun);
  args ← arguments request connector command template;
  prepare request dryRun connector command workingDirectory args.

(** ** Status *)

Definition status_timeout (command : ExternalCliStatusCommandOptions) : Z :=
  let timeoutSec := if (20 <? DefaultTimeoutSeconds options)%Z then 20%Z else DefaultTimeoutSeconds options in
  let timeoutSec := if (0 <? status_TimeoutSeconds command)%Z then status_TimeoutSeconds command else timeoutSec in
  Clamp timeoutSec 1 120.

Definition runStatusCommand (executable : string) (command : ExternalCliStatusCommandOptions) (connector : ExternalCliConnectorOptions)
    (captureExitCode : bool) : C string :=
  workDir ← resolveWorkingDirectory (con_WorkingDirectory connector);
  r ← look (λ n, RunCommand n executable (DefaultArgs connector ++ Args command) workDir (default ∅ (con_Environment connector))
                   (status_timeout command));
  if deadline r then mret (if captureExitCode then line "exit=-1" +:+ "timeout" else "timeout")
  else
    let outStr := TrimSpace (run_stdout r) in
    let outStr := if bool_decide (outStr = "") then TrimSpace (run_stderr r) else outStr in
    let outStr := redact outStr (con_RedactionRules connector) in
    mret (if captureExitCode then line ("exit=" +:+ Itoa (default (-1)%Z (exit_code r))) +:+ outStr else outStr).

Definition has_args (command : option ExternalCliStatusCommandOptions) : option ExternalCliStatusCommandOptions :=
  match command with Some c => if bool_decide (Args c = []) then None else Some c | None => None end.

Definition authentication (statusOutput : string) : bool * string :=
  if HasPrefix statusOutput (line "exit=0") then (true, "authenticated")
  else if HasPrefix statusOutput "exit=" then (false, "not_authenticated")
  else (false, "unknown").

Definition GetStatus (connectorName : string) : C ExternalCliConnectorStatus :=
  connector ← lift (getConnector connectorName);
  resolvedExecutable ← resolveExecutable (Executable connector) (default ∅ (con_Environment connector));
  let warnings :=
    (if IsBlank resolvedExecutable then ["Executable '" +:+ Executable connector +:+ "' was not found on PATH"] else [])
    ++ (if Enabled options then [] else ["External CLI connectors are disabled."])
    ++ (if con_Enabled connector then [] else ["External CLI connector '" +:+ connectorName +:+ "' is disabled"]) in
  let runs := Enabled options && con_Enabled connector && negb (bool_decide (resolvedExecutable = "")) in
  version ← match has_args (VersionCommand connector) with
            | Some command => if runs then runStatusCommand resolvedExecutable command connector false else mret ""
            | None => mret ""
            end;
  '(authenticated, authStatus) ← match has_args (StatusCommand connector) with
            | Some command =>
                if runs then statusOutput ← runStatusCommand resolvedExecutable command connector true; mret (authentication statusOutput)
                else mret (false, "unknown")
            | None => mret (false, "unknown")
            end;
  mret (mkStatus connectorName (if IsBlank (DisplayName connector) then connectorName else DisplayName connector) (con_Enabled connector)
    (Executable connector) (negb (bool_decide (resolvedExecutable = ""))) resolvedExecutable version authenticated authStatus warnings).
End Registry.
