(* ===== verification/ExternalCliSpec.v ===== *)
(** What the registry of external command-line tools promises: every argument of
    a prepared command is its template with checked values put in, and preparing
    a request again gives the same command, if no two names differ in case only. *)

From stdpp Require Import sorting.
From S2P Require Import Prelude GoStrings Encoding PathPolicy ExternalCli ExternalCliPresets ExternalCliTemplates ExternalCliRegistry.
Local Open Scope string_scope.
Local Open Scope list_scope.

(** ** Computations *)

Lemma C_bind_inv {A B} (m : C A) (f : A → C B) n b n2 : (m ≫= f) n = Done (Ok b, n2) →
  ∃ a n1, m n = Done (Ok a, n1) ∧ f a n1 = Done (Ok b, n2).
Proof. unfold mbind, C_bind. destruct (m n) as [[[a | e] n1] | |]; [eauto | done..]. Qed.

Lemma C_bind_ok {A B} (m : C A) (f : A → C B) n a n1 : m n = Done (Ok a, n1) → (m ≫= f) n = f a n1.
Proof. intros Hm. unfold mbind, C_bind. by rewrite Hm. Qed.

Lemma lift_inv {A} (r : res A) n a n1 : lift r n = Done (Ok a, n1) → r = Ok a ∧ n1 = n.
Proof. by intros [= -> ->]. Qed.

Lemma each_inv {A} (f : A → C ()) l n n1 : each f l n = Done (Ok tt, n1) → ∀ a, a ∈ l → ∃ m m1, f a m = Done (Ok tt, m1).
Proof.
  revert n. induction l as [| b l IH]; intros n Heq a Ha; [by apply elem_of_nil in Ha |].
  cbn [each] in Heq. apply C_bind_inv in Heq as ([] & n2 & Hb & Hl). apply elem_of_cons in Ha as [-> | Ha]; [eauto | by eapply IH].
Qed.

(** ** Names and values *)

Section Spec.
Context `{MapOrder} `{CliText}.

Lemma same_name_refl s : same_name s s = true.
Proof. apply EqualFoldRunes_refl. Qed.
Lemma same_name_sym s t : same_name s t = same_name t s.
Proof. apply EqualFoldRunes_sym. Qed.
Lemma same_name_trans s t u : same_name s t = true → same_name t u = true → same_name s u = true.
Proof. apply EqualFoldRunes_trans. Qed.

(** No two names of a map differ in case only. *)
Definition unambiguous {A} (m : gmap string A) : Prop :=
  ∀ k1 k2, is_Some (m !! k1) → is_Some (m !! k2) → same_name k1 k2 = true → k1 = k2.

Lemma find_visit {A} n (m : gmap string A) (p : string → bool) :
  match List.find (λ '(k, _), p k) (visit n m) with
  | Some (k, a) => m !! k = Some a ∧ p k = true
  | None => ∀ k a, m !! k = Some a → p k = false
  end.
Proof.
  destruct (List.find _ _) as [[k a] |] eqn:Hf.
  - apply List.find_some in Hf as [Hin Hp]. split; [| done]. apply (elem_of_visit n). by apply list_elem_of_In.
  - intros k a Hk. apply (elem_of_visit n), list_elem_of_In in Hk. by apply (List.find_none _ _ Hf (k, a)).
Qed.

Lemma lookup_name_spec {A} (m : gmap string A) name n r n1 : lookup_name m name n = Done (Ok r, n1) →
  match r with
  | Some (k, a) => m !! k = Some a ∧ same_name k name = true
  | None => ∀ k a, m !! k = Some a → same_name k name = false
  end.
Proof.
  unfold lookup_name. destruct (m !! name) as [a |] eqn:Hm.
  - intros [= <- _]. split; [done | apply same_name_refl].
  - unfold look. intros [= <- _]. apply (find_visit n m (λ k, same_name k name)).
Qed.

Lemma lookup_name_total {A} (m : gmap string A) name n : ∃ r n1, lookup_name m name n = Done (Ok r, n1).
Proof. unfold lookup_name. destruct (m !! name); eauto. Qed.

(** The value is checked against a declaration of its name, if there is one. *)
Definition accepted (command : ExternalCliCommandOptions) (key v : string) : Prop :=
  (∃ sname schema, default ∅ (Parameters command) !! sname = Some schema ∧ same_name sname key = true ∧
     validateParameterValue key v schema = Ok tt) ∨
  (∀ sname schema, default ∅ (Parameters command) !! sname = Some schema → same_name sname key = false).

(** A value the caller gives for a placeholder. *)
Definition supplied (command : ExternalCliCommandOptions) (parameters : gmap string string) (name v : string) : Prop :=
  ∃ key raw, parameters !! key = Some raw ∧ same_name key name = true ∧ toParameterString key raw = Ok v ∧ accepted command key v.

(** The bytes of a template with values for its placeholders. *)
Inductive filled (V : string → string → Prop) : list piece → bytes → Prop :=
  | filled_nil : filled V [] []
  | filled_text c ps l : filled V ps l → filled V (Text c :: ps) (c :: l)
  | filled_hole name v ps l : V name v → filled V ps l → filled V (Hole name :: ps) (to_bytes v ++ l).

Lemma toParameterString_key key key' raw v : toParameterString key raw = Ok v → toParameterString key' raw = Ok v.
Proof.
  unfold toParameterString. destruct (to_bytes (TrimSpace raw)) as [| c l]; [done |].
  destruct (code c =? 34)%N; [by destruct (Unmarshal_string _) |]. by repeat case_match.
Qed.

Lemma validate_value_inv command key raw n n1 : validate_value command (key, raw) n = Done (Ok tt, n1) →
  ∃ v, toParameterString key raw = Ok v ∧ accepted command key v.
Proof.
  unfold validate_value. intros (v & n2 & [Hv ->]%lift_inv & Heq)%C_bind_inv. exists v. split; [done |].
  unfold tryGetParameterSchema in Heq. apply C_bind_inv in Heq as (s & n3 & Hs & Heq).
  apply C_bind_inv in Hs as (found & n4 & Hfound & [= <- <-]). apply lookup_name_spec in Hfound.
  destruct found as [[sname schema] |]; cbn in Heq.
  - apply lift_inv in Heq as [Hok _]. left. exists sname, schema. naive_solver.
  - by right.
Qed.

Lemma must_be_given_inv parameters name n n1 : must_be_given parameters name n = Done (Ok tt, n1) →
  ∃ key raw, parameters !! key = Some raw ∧ same_name key name = true.
Proof.
  unfold must_be_given, tryGetParameter. intros (v & n2 & Hv & Heq)%C_bind_inv.
  apply C_bind_inv in Hv as (found & n3 & Hfound & [= <- <-]). apply lookup_name_spec in Hfound.
  destruct found as [[key raw] |]; [eauto | done].
Qed.

(** What validation establishes. *)
Record validated (command : ExternalCliCommandOptions) (template : list string) (parameters : gmap string string) : Prop := {
  val_values : ∀ key raw, parameters !! key = Some raw → ∃ v, toParameterString key raw = Ok v ∧ accepted command key v;
  val_required : ∀ name schema, default ∅ (Parameters command) !! name = Some schema → par_Required schema = true →
    ∃ key raw, parameters !! key = Some raw ∧ same_name key name = true;
  val_known : AllowUnknownParameters command = false → ∀ key raw, parameters !! key = Some raw →
    ToLower lower_table key ∈ allowedNames command template;
}.

Lemma each_entry_inv {A} (f : string * A → C ()) m n n1 k a : each_entry f m n = Done (Ok tt, n1) → m !! k = Some a →
  ∃ n2 n3, f (k, a) n2 = Done (Ok tt, n3).
Proof.
  unfold each_entry. intros (l & n2 & [= <- <-] & Hall)%C_bind_inv Hk. by eapply each_inv, elem_of_visit.
Qed.

Lemma validateParameters_inv command template parameters n n1 : validateParameters command template parameters n = Done (Ok tt, n1) →
  validated command template parameters.
Proof.
  unfold validateParameters. intros ([] & n2 & _ & Heq)%C_bind_inv.
  apply C_bind_inv in Heq as ([] & n3 & Hreq & Heq). apply C_bind_inv in Heq as ([] & n4 & Hknown & Hval). split.
  - intros key raw Hk. destruct (each_entry_inv _ _ _ _ _ _ Hval Hk) as (m & m1 & Hv). by eapply validate_value_inv.
  - intros name schema Hs Hr. destruct (each_entry_inv _ _ _ _ _ _ Hreq Hs) as (m & m1 & Hv).
    cbn in Hv. rewrite Hr in Hv. by eapply must_be_given_inv.
  - intros Hun key raw Hk. rewrite Hun in Hknown. destruct (each_entry_inv _ _ _ _ _ _ Hknown Hk) as (m & m1 & Hv). cbn in Hv.
    by case_bool_decide as Hin.
Qed.

Lemma expand_inv command parameters ps : ∀ n l n1,
  (∀ key raw, parameters !! key = Some raw → ∃ v, toParameterString key raw = Ok v ∧ accepted command key v) →
  expand parameters ps n = Done (Ok l, n1) → filled (supplied command parameters) ps l.
Proof.
  induction ps as [| [c | name] ps IH]; intros n l n1 Hval; cbn [expand].
  - intros [= <- _]. constructor.
  - intros (rest & n2 & Hrest & [= <- _])%C_bind_inv. constructor. by eapply IH.
  - intros (v & n2 & Hv & Heq)%C_bind_inv. apply C_bind_inv in Hv as (found & n3 & Hfound & [= <- <-]).
    apply lookup_name_spec in Hfound. destruct found as [[key raw] |]; [| done]. cbn in Heq.
    apply C_bind_inv in Heq as (rest & n4 & Hrest & [= <- _]). destruct Hfound as [Hk Hname].
    destruct (Hval _ _ Hk) as (v & Hv & Hacc). rewrite (toParameterString_key key name raw v Hv).
    constructor; [by exists key, raw | by eapply IH].
Qed.

Lemma traverse_inv {A B} (f : A → C B) l : ∀ n bs n1, traverse f l n = Done (Ok bs, n1) →
  Forall2 (λ a b, ∃ m m1, f a m = Done (Ok b, m1)) l bs.
Proof.
  induction l as [| a l IH]; intros n bs n1; cbn [traverse].
  - intros [= <- _]. constructor.
  - intros (b & n2 & Hb & Heq)%C_bind_inv. apply C_bind_inv in Heq as (rest & n3 & Hrest & [= <- _]). constructor; [eauto | by eapply IH].
Qed.
End Spec.

(** ** Prepared commands *)

Section Prepared.
Context `{MapOrder} `{CliText} `{CliHost} (options : ExternalCliOptions).

Lemma allowed_command_inv request connector command : allowed_command options request = Ok (connector, command) →
  Enabled options = true ∧ AllowFreeformCommands options = false ∧ Connectors options !! req_Connector request = Some connector ∧
  con_Enabled connector = true ∧ Commands connector !! req_Command request = Some command.
Proof.
  unfold allowed_command, getConnector, getCommand. destruct (Enabled options); [| done]. destruct (AllowFreeformCommands options); [done |].
  cbn [negb]. destruct (IsBlank (req_Connector request)); [done |]. destruct (Connectors options !! _) as [conn |]; [| done].
  unfold mbind, res_bind. destruct (con_Enabled conn) eqn:Hen; [| done]. cbn [negb]. destruct (IsBlank (Executable conn)); [done |].
  destruct (IsBlank (req_Command request)); [done |]. destruct (Commands conn !! _) as [cmd |] eqn:Hcmd; [| done]. naive_solver.
Qed.

Lemma checked_template_inv request command dryRun template : checked_template request command dryRun = Ok template →
  template = template_of command dryRun ∧ template ≠ [].
Proof.
  unfold checked_template. destruct (dryRun && _); [done |]. destruct (template_of command dryRun) as [| t ts] eqn:Ht; [done |]. by intros [= <-].
Qed.

Lemma arguments_inv request connector command template n all n1 :
  arguments request connector command template n = Done (Ok all, n1) →
  validated command template (req_Parameters request) ∧
  ∃ args, all = DefaultArgs connector ++ args ∧
    Forall2 (λ item arg, filled (supplied command (req_Parameters request)) (pieces item) (to_bytes arg)) template args.
Proof.
  unfold arguments. intros ([] & n2 & Hval & Heq)%C_bind_inv. apply validateParameters_inv in Hval.
  apply C_bind_inv in Heq as (args & n3 & Hexp & [= <- _]). split; [done |]. exists args. split; [done |].
  apply traverse_inv in Hexp. eapply Forall2_impl; [exact Hexp |]. intros item arg (m & m1 & Harg). cbn beta in Harg.
  apply C_bind_inv in Harg as (l & m2 & Hl & [= <- _]). rewrite to_bytes_of_bytes. eapply expand_inv; [apply (val_values _ _ _ Hval) | exact Hl].
Qed.

Lemma Clamp_bounds v lo hi : (lo ≤ hi)%Z → (lo ≤ Clamp v lo hi ≤ hi)%Z.
Proof. unfold Clamp. intros Hle. destruct (Z.ltb_spec v lo); [lia |]. destruct (Z.ltb_spec hi v); lia. Qed.

Lemma BuildPreview_inv request dryRun n p n1 : BuildPreview options request dryRun n = Done (Ok p, n1) →
  ∃ connector command workingDirectory args m m1,
    allowed_command options request = Ok (connector, command) ∧
    checked_template request command dryRun = Ok (template_of command dryRun) ∧ template_of command dryRun ≠ [] ∧
    (∃ k k1, arguments request connector command (template_of command dryRun) k = Done (Ok args, k1)) ∧
    prepare options request dryRun connector command workingDirectory args m = Done (Ok p, m1).
Proof.
  unfold BuildPreview. intros ([connector command] & n2 & [Hallow ->]%lift_inv & Heq)%C_bind_inv.
  apply C_bind_inv in Heq as (wd & n3 & _ & Heq). apply C_bind_inv in Heq as (template & n4 & [Ht ->]%lift_inv & Heq).
  apply C_bind_inv in Heq as (args & n5 & Hargs & Hprep). pose proof Ht as Ht'. apply checked_template_inv in Ht as [-> Hne].
  exists connector, command, wd, args, n5, n1. split_and!; [done.. | eauto | done].
Qed.

Lemma prepare_inv request dryRun connector command wd args n p n1 :
  prepare options request dryRun connector command wd args n = Done (Ok p, n1) →
  pre_Arguments p = args ∧ pv_Arguments (Preview p) = args ∧ pre_Environment p = environment_of connector command ∧
  pv_Executable (Preview p) = pre_Executable p ∧ pv_WorkingDirectory (Preview p) = pre_WorkingDirectory p ∧
  pv_ReadOnly (Preview p) = ReadOnly command ∧ pv_RequiresApproval (Preview p) = requiresApproval options connector command ∧
  IsDryRun (Preview p) = dryRun ∧
  Fingerprint (Preview p) = computeFingerprint (req_Connector request) (req_Command request) (pre_Executable p) args
    (pre_WorkingDirectory p) (pv_TimeoutSeconds (Preview p)) (resolveOutputFormat connector command) dryRun command ∧
  (1 ≤ pv_TimeoutSeconds (Preview p) ≤ 3600)%Z ∧ (1 ≤ pre_MaxStdoutBytes p ≤ 16 * 1024 * 1024)%Z ∧
  (1 ≤ pre_MaxStderrBytes p ≤ 4 * 1024 * 1024)%Z.
Proof.
  unfold prepare. intros (found & n2 & _ & Heq)%C_bind_inv. apply C_bind_inv in Heq as (hash & n3 & _ & Heq).
  apply C_bind_inv in Heq as (warnings & n4 & _ & [= <- _]). cbn. split_and!; try done; apply Clamp_bounds; lia.
Qed.

(** C11: A command that is prepared is one of an enabled connector; its
    arguments are the connector's own and then, one for one, the items of the
    command's template with values for their placeholders, so that no value
    becomes a second argument.  Each value is one the caller gave under that
    name, and keeps length, values and pattern of its declaration; nothing
    required is missing and nothing unknown is given.  The preview shows these
    arguments, its fingerprint covers them, and a command that is risky or
    changes something is marked for approval. *)
Theorem prepared_arguments_are_checked request dryRun n p n1 : BuildPreview options request dryRun n = Done (Ok p, n1) →
  ∃ connector command args,
    Enabled options = true ∧ AllowFreeformCommands options = false ∧ Connectors options !! req_Connector request = Some connector ∧
    con_Enabled connector = true ∧ Commands connector !! req_Command request = Some command ∧
    pre_Arguments p = DefaultArgs connector ++ args ∧
    Forall2 (λ item arg, filled (supplied command (req_Parameters request)) (pieces item) (to_bytes arg)) (template_of command dryRun) args ∧
    validated command (template_of command dryRun) (req_Parameters request) ∧
    pv_Arguments (Preview p) = pre_Arguments p ∧
    Fingerprint (Preview p) = computeFingerprint (req_Connector request) (req_Command request) (pre_Executable p) (pre_Arguments p)
      (pre_WorkingDirectory p) (pv_TimeoutSeconds (Preview p)) (resolveOutputFormat connector command) dryRun command ∧
    (cmd_RequiresApproval command = true ∨ con_RequiresApproval connector = true ∨ cmd_RiskLevel command = "high" ∨
     (ReadOnly command = false ∧ RequireApprovalForMutatingCommands options = true) → pv_RequiresApproval (Preview p) = true) ∧
    (1 ≤ pv_TimeoutSeconds (Preview p) ≤ 3600)%Z ∧ (1 ≤ pre_MaxStdoutBytes p ≤ 16 * 1024 * 1024)%Z ∧
    (1 ≤ pre_MaxStderrBytes p ≤ 4 * 1024 * 1024)%Z.
Proof.
  intros Heq. apply BuildPreview_inv in Heq as (connector & command & wd & all & m & m1 & Hallow & _ & _ & (k & k1 & Hargs) & Hprep).
  apply allowed_command_inv in Hallow as (Hen & Hfree & Hcon & Hcen & Hcmd).
  apply arguments_inv in Hargs as (Hval & args & -> & Hfill). apply prepare_inv in Hprep as (Hpa & Hpv & _ & _ & _ & _ & Hra & _ & Hfp & Ht & Ho & He).
  exists connector, command, args. rewrite Hpa, Hpv, Hra, Hfp. split_and!; try done; try lia.
  unfold requiresApproval. intros [-> | [-> | [Hhigh | [-> ->]]]]; rewrite ?orb_true_r, ?orb_true_l; try done.
  rewrite Hhigh. cbn. by rewrite orb_true_r.
Qed.
End Prepared.

(** ** The order of parameters *)

Section Order.
Context `{CliText}.

Lemma parameter_le_alt (a b : string * string) : parameter_le a b ↔
  compare_bytes (to_bytes (ToLower lower_table a.1)) (to_bytes (ToLower lower_table b.1)) = Lt ∨
  to_bytes (ToLower lower_table a.1) = to_bytes (ToLower lower_table b.1) ∧ string_le a.1 b.1.
Proof.
  unfold parameter_le. rewrite <- compare_bytes_eq. destruct (compare_bytes _ _); naive_solver.
Qed.

#[global] Instance parameter_le_total : Total parameter_le.
Proof.
  intros a b. rewrite !parameter_le_alt.
  rewrite (compare_bytes_opp (to_bytes (ToLower lower_table a.1)) (to_bytes (ToLower lower_table b.1))).
  destruct (compare_bytes (to_bytes (ToLower lower_table a.1)) _) eqn:Hc; cbn; [| naive_solver..].
  apply compare_bytes_eq in Hc. destruct (total string_le a.1 b.1); [left | right]; right; done.
Qed.

#[global] Instance parameter_le_trans : Transitive parameter_le.
Proof.
  intros a b c. rewrite !parameter_le_alt. intros [H1 | [H1 H1']] [H2 | [H2 H2']].
  - left. by eapply compare_bytes_trans.
  - left. by rewrite <- H2.
  - left. by rewrite H1.
  - right. split; [congruence | by etrans].
Qed.

Lemma parameter_le_antisym a b : parameter_le a b → parameter_le b a → a.1 = b.1.
Proof.
  rewrite !parameter_le_alt. rewrite (compare_bytes_opp (to_bytes (ToLower lower_table a.1)) (to_bytes (ToLower lower_table b.1))).
  intros [H1 | [H1 H1']] [H2 | [H2 H2']].
  - by rewrite H1 in H2.
  - rewrite <- H2, (proj2 (compare_bytes_eq _ _)) in H1; done.
  - rewrite H1, (proj2 (compare_bytes_eq _ _)) in H2; done.
  - by apply (anti_symm string_le).
Qed.

(** The sorted entries do not depend on the order they were visited in. *)
Lemma sorted_entries `{MapOrder} (m : gmap string string) n1 n2 : merge_sort parameter_le (visit n1 m) = merge_sort parameter_le (visit n2 m).
Proof.
  apply (StronglySorted_unique_strong parameter_le); [| apply StronglySorted_merge_sort; apply _.. |].
  - intros [k1 v1] [k2 v2]. rewrite !merge_sort_Permutation, !elem_of_visit. intros Ha Hb H1 H2.
    pose proof (parameter_le_antisym _ _ H1 H2) as Hk. cbn in Hk. congruence.
  - by rewrite !merge_sort_Permutation, !visit_all.
Qed.
End Order.

(** ** Computations that come out the same

    [settled m]: once [m] gives a value, it gives that value each time. *)

Definition stable {A} (m : C A) (a : A) : Prop := ∀ n, ∃ n1, m n = Done (Ok a, n1).
Definition settled {A} (m : C A) : Prop := ∀ n a n1, m n = Done (Ok a, n1) → stable m a.

Lemma settled_ret {A} (a : A) : settled (mret a).
Proof. intros n a' n1 [= <- _] n'. by exists n'. Qed.
Lemma settled_lift {A} (r : res A) : settled (lift r).
Proof. intros n a n1 [-> _]%lift_inv n'. by exists n'. Qed.
Lemma settled_fails {A} e : settled (@fails A e).
Proof. by intros n a n1. Qed.
Lemma settled_look {A} (f : nat → A) : (∀ n m, f n = f m) → settled (look f).
Proof. intros Hf n a n1 [= <- _] n'. exists (S n'). unfold look. by rewrite (Hf n' n). Qed.
Lemma settled_bind {A B} (m : C A) (f : A → C B) : settled m → (∀ a, settled (f a)) → settled (m ≫= f).
Proof.
  intros Hm Hf n b n1 (a & n2 & Ha & Hb)%C_bind_inv n'. destruct (Hm _ _ _ Ha n') as [n3 Ha'].
  rewrite (C_bind_ok _ _ _ _ _ Ha'). by apply (Hf _ _ _ _ Hb).
Qed.
Lemma settled_if {A} (b : bool) (m1 m2 : C A) : settled m1 → settled m2 → settled (if b then m1 else m2).
Proof. by destruct b. Qed.

Lemma stable_each {A} (f : A → C ()) l : (∀ a, a ∈ l → stable (f a) tt) → stable (each f l) tt.
Proof.
  induction l as [| a l IH]; intros Hf n; [by exists n |]. destruct (Hf a ltac:(by left) n) as [n1 Ha].
  cbn [each]. rewrite (C_bind_ok _ _ _ _ _ Ha). apply IH. intros b Hb. apply Hf. by right.
Qed.

Lemma settled_each {A} (f : A → C ()) l : (∀ a, settled (f a)) → settled (each f l).
Proof.
  intros Hf n [] n1 Heq. apply stable_each. intros a Ha. destruct (each_inv _ _ _ _ Heq _ Ha) as (m & m1 & Hm). by eapply Hf.
Qed.

Lemma settled_traverse {A B} (f : A → C B) l : (∀ a, settled (f a)) → settled (traverse f l).
Proof.
  intros Hf. induction l as [| a l IH]; cbn [traverse]; [apply settled_ret |].
  apply settled_bind; [done |]. intros b. apply settled_bind; [done |]. intros bs. apply settled_ret.
Qed.

Section Settled.
Context `{MapOrder} `{CliText}.

(** An entry of a map is checked whenever the map is visited. *)
Lemma settled_each_entry {A} (f : string * A → C ()) m : (∀ a, settled (f a)) → settled (each_entry f m).
Proof.
  intros Hf n [] n1 Heq n'. unfold each_entry. rewrite (C_bind_ok _ _ n' (visit n' m) (S n')) by done.
  apply stable_each. intros [k a] Hk%elem_of_visit. destruct (each_entry_inv _ _ _ _ _ _ Heq Hk) as (n2 & n3 & Hok). by eapply Hf.
Qed.

Lemma settled_lookup_name {A} (m : gmap string A) name : unambiguous m → settled (lookup_name m name).
Proof.
  intros Hun n r n1 Heq n'. destruct (lookup_name_total m name n') as (r' & n2 & Heq'). exists n2. rewrite Heq'. do 3 f_equal.
  apply lookup_name_spec in Heq, Heq'.
  destruct r as [[k a] |], r' as [[k' a'] |]; [| naive_solver congruence.. | done].
  destruct Heq as [Hk Hn], Heq' as [Hk' Hn'].
  assert (k' = k) as -> by (apply Hun; [eauto.. | eapply same_name_trans; [exact Hn' | by rewrite same_name_sym]]). congruence.
Qed.

Tactic Notation "settle" tactic3(tac) := repeat (intros; first [tac | apply settled_each_entry | by apply settled_lookup_name | apply settled_each | apply settled_traverse
  | apply settled_ret | apply settled_lift | apply settled_fails | apply settled_if | apply settled_bind | case_match]).
Tactic Notation "settle" := settle fail.

Lemma settled_tryGetParameter parameters name : unambiguous parameters → settled (tryGetParameter parameters name).
Proof. intros Hun. unfold tryGetParameter. settle. Qed.

Lemma settled_expand parameters ps : unambiguous parameters → settled (expand parameters ps).
Proof.
  intros Hun. induction ps as [| [c | name] ps IH]; cbn [expand]; settle; done.
Qed.

Lemma settled_must_be_given parameters name : unambiguous parameters → settled (must_be_given parameters name).
Proof. intros Hun. unfold must_be_given. settle. Qed.

Lemma settled_validateParameters command template parameters : unambiguous parameters → unambiguous (default ∅ (Parameters command)) →
  settled (validateParameters command template parameters).
Proof.
  intros Hp Hs. unfold validateParameters, validate_value, tryGetParameterSchema. settle.
Qed.

Context `{CliHost} (options : ExternalCliOptions).
Context (same_files : ∀ n m path, Stat n path = Stat m path).

Lemma settled_FileExists path : settled (FileExists path).
Proof.
  intros n b n1. unfold FileExists. intros Heq n'. rewrite (same_files n' n). destruct (Stat n path); naive_solver.
Qed.

Lemma settled_getEnv env target : unambiguous env → settled (getEnvIgnoreCase env target).
Proof.
  intros Hun. apply settled_look. intros n m. pose proof (find_visit n env (λ k, same_name k target)) as Hf.
  pose proof (find_visit m env (λ k, same_name k target)) as Hg. cbn beta in Hf, Hg.
  destruct (List.find _ (visit n env)) as [[k v] |], (List.find _ (visit m env)) as [[k' v'] |]; [| | | done]; cbn in Hf, Hg;
    [| destruct Hf as [Hk Hn]; by rewrite (Hg _ _ Hk) in Hn | destruct Hg as [Hk Hn]; by rewrite (Hf _ _ Hk) in Hn].
  destruct Hf as [Hk Hn], Hg as [Hk' Hn'].
  assert (k' = k) as -> by (apply Hun; [eauto.. | eapply same_name_trans; [exact Hn' | by rewrite same_name_sym]]). congruence.
Qed.

Lemma settled_first_file dirs executable : settled (first_file dirs executable).
Proof. induction dirs as [| dir dirs IH]; cbn [first_file]; settle; first [done | apply settled_FileExists]. Qed.

Lemma settled_resolveExecutable executable env : unambiguous env → settled (resolveExecutable executable env).
Proof.
  intros Hun. unfold resolveExecutable. settle; first [apply settled_FileExists | by apply settled_getEnv | apply settled_first_file].
Qed.

Lemma settled_resolveWorkingDirectory configured : settled (resolveWorkingDirectory configured).
Proof. unfold resolveWorkingDirectory. settle. by apply settled_look. Qed.

Lemma settled_computeParametersHash parameters : settled (computeParametersHash parameters).
Proof.
  intros n hash n1 [= <- _] n'. exists (S n'). unfold computeParametersHash, mbind, C_bind, look, mret, C_ret.
  by rewrite (sorted_entries _ n' n).
Qed.

Lemma settled_prepare request dryRun connector command wd args : unambiguous (environment_of connector command) →
  settled (prepare options request dryRun connector command wd args).
Proof.
  intros Hun. unfold prepare, buildPreviewWarnings.
  settle (first [by apply settled_resolveExecutable | apply settled_computeParametersHash]).
Qed.

(** If no two parameters a caller gives, no two a command declares and no
    two variables of its environment differ in case only, and the files stay as
    they are, then preparing a request that was prepared once gives the same
    command each time: what an approval was asked for is what runs. *)
Theorem prepared_commands_stay_the_same request dryRun n p n1 n' :
  unambiguous (req_Parameters request) →
  (∀ connector command, allowed_command options request = Ok (connector, command) →
     unambiguous (default ∅ (Parameters command)) ∧ unambiguous (environment_of connector command)) →
  BuildPreview options request dryRun n = Done (Ok p, n1) →
  ∃ n2, BuildPreview options request dryRun n' = Done (Ok p, n2).
Proof.
  intros Hp Hcmd Heq. revert n'. apply C_bind_inv in Heq as ([connector command] & n2 & Hallow & Heq).
  pose proof Hallow as [Hok _]%lift_inv. destruct (Hcmd _ _ Hok) as [Hs He]. intros n'. unfold BuildPreview.
  destruct (settled_lift _ _ _ _ Hallow n') as [n3 Hn3]. rewrite (C_bind_ok _ _ _ _ _ Hn3). revert Heq. generalize n3.
  intros n4 Heq. eapply settled_bind; [| | exact Heq]; [apply settled_resolveWorkingDirectory |]. intros wd. unfold arguments, expandTemplate.
  settle (first [by apply settled_validateParameters | by apply settled_expand | by apply settled_prepare]).
Qed.
End Settled.

(** ** Fingerprints *)

Section Fingerprints.

Definition one_line (s : string) : Prop := byte 10 ∉ to_bytes s.

Lemma split_line s rest : one_line s → split_bytes (byte 10) (to_bytes (line s +:+ rest)) = to_bytes s :: split_bytes (byte 10) (to_bytes rest).
Proof. intros Hs. unfold line. rewrite !to_bytes_append, to_bytes_of_bytes, <- app_assoc. by apply split_bytes_app. Qed.

Lemma split_lines args : Forall one_line args →
  split_bytes (byte 10) (to_bytes (foldr (λ arg text, line arg +:+ text) "" args)) = (to_bytes <$> args) ++ [[]].
Proof. induction 1 as [| arg args Harg _ IH]; cbn [foldr fmap list_fmap app]; [done |]. by rewrite split_line, IH. Qed.

Lemma risk_one_line command : one_line (NormalizeRiskLevel (cmd_RiskLevel command)).
Proof.
  unfold NormalizeRiskLevel. case_bool_decide as H1; [rewrite H1; refine (bool_decide_unpack _ _); vm_compute; exact I |].
  case_bool_decide as H2; [rewrite H2 |]; refine (bool_decide_unpack _ _); vm_compute; exact I.
Qed.

Lemma fingerprint_split connectorName commandName executable args wd timeout format dryRun command :
  one_line connectorName → one_line commandName → one_line executable → one_line wd → one_line (Itoa timeout) → one_line format →
  Forall one_line args →
  split_bytes (byte 10) (to_bytes (fingerprint_text connectorName commandName executable args wd timeout format dryRun command)) =
  to_bytes <$> [connectorName; commandName; executable; wd; Itoa timeout; format; if dryRun then "dry-run" else "execute";
    NormalizeRiskLevel (cmd_RiskLevel command); if ReadOnly command then "readonly" else "mutation"] ++ args ++ [""].
Proof.
  intros Hcon Hcmd Hexe Hwd Ht Hf Hargs. unfold fingerprint_text.
  assert (∀ b : bool, one_line (if b then "dry-run" else "execute")) as Hd by (intros []; refine (bool_decide_unpack _ _); vm_compute; exact I).
  assert (∀ b : bool, one_line (if b then "readonly" else "mutation")) as Hr by (intros []; refine (bool_decide_unpack _ _); vm_compute; exact I).
  rewrite !split_line by (done || apply risk_one_line). rewrite split_lines by done. rewrite !fmap_app. done.
Qed.
End Fingerprints.

(** C24: Two commands whose names, executable, working directory and arguments
    are free of line breaks have the same fingerprint text only if they agree in
    all of them, in the time they are given, and in being a dry run and in
    changing something. *)
Theorem fingerprint_text_identifies c1 d1 e1 args1 w1 t1 f1 r1 command1 c2 d2 e2 args2 w2 t2 f2 r2 command2 :
  Forall one_line ([c1; d1; e1; w1; Itoa t1; f1] ++ args1) → Forall one_line ([c2; d2; e2; w2; Itoa t2; f2] ++ args2) →
  fingerprint_text c1 d1 e1 args1 w1 t1 f1 r1 command1 = fingerprint_text c2 d2 e2 args2 w2 t2 f2 r2 command2 →
  c1 = c2 ∧ d1 = d2 ∧ e1 = e2 ∧ args1 = args2 ∧ w1 = w2 ∧ t1 = t2 ∧ f1 = f2 ∧ r1 = r2 ∧
  NormalizeRiskLevel (cmd_RiskLevel command1) = NormalizeRiskLevel (cmd_RiskLevel command2) ∧ ReadOnly command1 = ReadOnly command2.
Proof.
  intros H1 H2 Heq. rewrite Forall_app in H1, H2. destruct H1 as [H1 Ha1], H2 as [H2 Ha2].
  repeat (apply Forall_cons in H1 as [? H1]); repeat (apply Forall_cons in H2 as [? H2]).
  apply (f_equal (λ s, split_bytes (byte 10) (to_bytes s))) in Heq. rewrite !fingerprint_split in Heq by done.
  apply (inj (fmap to_bytes)) in Heq. injection Heq as -> -> -> -> Ht -> Hr -> Hm Hargs.
  apply (inj pretty) in Ht as ->. apply app_inj_tail in Hargs as [-> _].
  split_and!; [done.. | by destruct r1, r2 | done | by destruct (ReadOnly command1), (ReadOnly command2)].
Qed.

(** ** On concrete inputs *)

Module Sample.

(** Every other time a map is visited backwards. *)
#[local] Instance order : MapOrder.
Proof.
  refine {| visit n A m := if Nat.even n then map_to_list m else rev (map_to_list m) |}.
  intros n A m. destruct (Nat.even n); [done | by rewrite <- Permutation_rev].
Defined.

#[local] Instance text : CliText := {|
  lower_table := id; fold_table := id;
  Unmarshal_string s := Some (of_bytes (removelast (drop 1 (to_bytes s))));
  regexp_Match pattern s :=
    Some (if bool_decide (pattern = NumberPattern) then negb (bool_decide (s = "")) && forallb is_digit (to_bytes s)
          else if bool_decide (pattern = RepoPattern) then Contains s "/" else true);
  regexp_Replace _ s _ := Some s; Redact := id |}.

#[local] Instance host : CliHost := {|
  Stat _ path := if bool_decide (path = "/usr/bin/gh") then IsFile else NotExist;
  Getenv name := if bool_decide (name = "PATH") then "/bin:/usr/bin" else ""; ExpandEnv := id; UserHomeDir := None; Getwd := Some "/";
  RunCommand _ _ _ _ _ _ := mkRun false "" "" (Some 0%Z) |}.

Definition enabled (executable : string) : ExternalCliConnectorOptions :=
  mkConnector true "" executable [] "" (Some ∅) None None "" false [] ∅.
Definition configured : ExternalCliOptions :=
  mkOptions true 60 1000 1000 false false true ["gh"; "lark"] {["gh" := enabled ""; "lark" := enabled ""]}.
Definition applied : ExternalCliOptions :=
  match Apply lower_table 0 configured with Done options => options | _ => DefaultExternalCliOptions end.

Definition quoted (s : string) : string := of_bytes ([byte 34] ++ to_bytes s ++ [byte 34]).
Definition view (parameters : list (string * string)) : ExternalCliPreviewRequest :=
  mkPreviewRequest "gh" "pr_view" (list_to_map parameters) false.
Definition one_view : ExternalCliPreviewRequest := view [("repo", quoted "a/b"); ("number", "7")].

(** What comes of a computation. *)
Definition outcome {A B} (f : A → B) (m : C A) (n : nat) : option B :=
  match m n with Done (Ok a, _) => Some (f a) | _ => None end.
End Sample.

Local Existing Instances Sample.order Sample.text Sample.host.

Lemma sample_applies : Apply lower_table 0 Sample.configured = Done Sample.applied.
Proof. vm_compute. reflexivity. Qed.

Lemma configured_presets_stay_governed_witness :
  ∃ con c', Connectors Sample.applied !! "gh" = Some con ∧ Commands con !! "issue_comment" = Some c' ∧ cmd_RequiresApproval c' = true.
Proof.
  destruct (configured_presets_stay_governed lower_table 0 Sample.configured Sample.applied "gh" (ghPreset lower_table 0) sample_applies)
    as (con & Hcon & Hcmds); [by left | vm_compute; reflexivity |].
  destruct (ghCommands !! "issue_comment") as [c |] eqn:Hc; [| vm_compute in Hc; discriminate Hc].
  destruct (Hcmds "issue_comment" c Hc) as (c' & Hc' & _ & Happroval). exists con, c'. split; [exact Hcon |]. split; [exact Hc' |].
  apply Happroval. left. vm_compute in Hc. by injection Hc as <-.
Defined.

Lemma sample_prepares : ∃ p n1, BuildPreview Sample.applied Sample.one_view false 0 = Done (Ok p, n1) ∧
  pre_Executable p = "/usr/bin/gh" ∧ pre_Arguments p !! 2%nat = Some "7".
Proof.
  assert (Sample.outcome (λ p, (pre_Executable p, pre_Arguments p !! 2%nat)) (BuildPreview Sample.applied Sample.one_view false) 0 =
    Some ("/usr/bin/gh", Some "7")) as Heq by (vm_compute; reflexivity).
  unfold Sample.outcome in Heq. destruct (BuildPreview _ _ _ _) as [[[p | e] n1] | |]; [| discriminate Heq..].
  exists p, n1. injection Heq as He Ha. done.
Qed.

Lemma prepared_arguments_are_checked_witness :
  ∃ p n1 v, BuildPreview Sample.applied Sample.one_view false 0 = Done (Ok p, n1) ∧ pv_Arguments (Preview p) = pre_Arguments p ∧
    toParameterString "number" "7" = Ok v ∧ (1 ≤ pv_TimeoutSeconds (Preview p) ≤ 3600)%Z.
Proof.
  destruct sample_prepares as (p & n1 & Heq & _ & _). exists p, n1, "7". split; [exact Heq |].
  destruct (prepared_arguments_are_checked Sample.applied Sample.one_view false 0 p n1 Heq)
    as (connector & command & args & _ & _ & _ & _ & _ & _ & _ & _ & Hpv & _ & _ & Ht & _).
  split; [exact Hpv |]. split; [vm_compute; reflexivity | exact Ht].
Defined.

(** Whether the names of a map stay apart when folded. *)
Definition names_apart {A} (m : gmap string A) : bool := bool_decide (NoDup (folded fold_table <$> (map_to_list m).*1)).

Lemma names_apart_unambiguous {A} (m : gmap string A) : names_apart m = true → unambiguous m.
Proof.
  intros Hnd%bool_decide_eq_true k1 k2 [a1 H1] [a2 H2] Hs%bool_decide_eq_true.
  apply elem_of_map_to_list, (list_elem_of_fmap_2 fst) in H1, H2. cbn in H1, H2.
  apply list_elem_of_lookup_1 in H1 as [i Hi]. apply list_elem_of_lookup_1 in H2 as [j Hj].
  assert (i = j) as <-; [| congruence]. eapply NoDup_lookup; [exact Hnd | by rewrite list_lookup_fmap, Hi | by rewrite list_lookup_fmap, Hj, Hs].
Qed.

Lemma sample_names_apart connector command : allowed_command Sample.applied Sample.one_view = Ok (connector, command) →
  unambiguous (default ∅ (Parameters command)) ∧ unambiguous (environment_of connector command).
Proof.
  assert (match allowed_command Sample.applied Sample.one_view with
          | Ok (connector, command) => names_apart (default ∅ (Parameters command)) && names_apart (environment_of connector command)
          | Fail _ => false
          end = true) as Hok by (vm_compute; reflexivity).
  intros Heq. rewrite Heq in Hok. apply andb_true_iff in Hok as [H1 H2]. split; by apply names_apart_unambiguous.
Qed.

Lemma prepared_commands_stay_the_same_witness : ∃ p n1 n2,
  BuildPreview Sample.applied Sample.one_view false 0 = Done (Ok p, n1) ∧ BuildPreview Sample.applied Sample.one_view false 1 = Done (Ok p, n2).
Proof.
  destruct sample_prepares as (p & n1 & Heq & _ & _).
  assert (unambiguous (req_Parameters Sample.one_view)) as Hp by (apply names_apart_unambiguous; vm_compute; reflexivity).
  assert (∀ n m path, Stat n path = Stat m path) as Hfiles by done.
  destruct (prepared_commands_stay_the_same Sample.applied Hfiles Sample.one_view false 0 p n1 1 Hp sample_names_apart Heq) as [n2 Heq'].
  exists p, n1, n2. split; [exact Heq | exact Heq'].
Defined.

(** Given under two names that differ from the declared one in case, a parameter
    is checked under both, and either value runs: what was approved need not be
    what runs. *)
Definition two_views : ExternalCliPreviewRequest :=
  Sample.view [("Repo", Sample.quoted "a/b"); ("REPO", Sample.quoted "c/d"); ("number", "7")].
Definition shown (n : nat) : option (list string * string) :=
  Sample.outcome (λ p, (pre_Arguments p, Fingerprint (Preview p))) (BuildPreview Sample.applied two_views false) n.
Example ambiguous_names_change_the_command :
  ((λ s, s.1 !! 4%nat) <$> shown 0) = Some (Some "c/d") ∧ ((λ s, s.1 !! 4%nat) <$> shown 1) = Some (Some "a/b") ∧
  snd <$> shown 0 ≠ snd <$> shown 1.
Proof. split_and!; [vm_compute; reflexivity.. | vm_compute; discriminate]. Qed.

(** A value can be an option of the program; this command needs no approval. *)
Example values_can_be_options :
  Sample.outcome (λ p, (take 3 (pre_Arguments p), pv_RequiresApproval (Preview p)))
    (BuildPreview Sample.applied (mkPreviewRequest "lark" "docs_search" {["query" := Sample.quoted "--profile=admin"]} false) false) 0 =
  Some (["docs"; "search"; "--profile=admin"], false).
Proof. vm_compute. reflexivity. Qed.

(** [null] counts as a value, the empty one. *)
Example null_is_an_empty_value : toParameterString "number" "null" = Ok "" ∧ toParameterString "number" "1e5" = Ok "1e5".
Proof. vm_compute. done. Qed.

(** Commands are kept under their names in lower case and looked up as given. *)
Example commands_must_be_lower_case :
  let deploy := mkCommand "" ["go"] None false "low" true false false [] "" None "" None [] [] "" [] in
  let connector := mkConnector true "" "tool" [] "" None None None "" false [] {["Deploy" := deploy]} in
  ∃ effective, Apply lower_table 0 (mkOptions true 60 1000 1000 false false true [] {["tool" := connector]}) = Done effective ∧
    is_ok (allowed_command effective (mkPreviewRequest "tool" "Deploy" ∅ false)) = false ∧
    is_ok (allowed_command effective (mkPreviewRequest "tool" "deploy" ∅ false)) = true.
Proof. eexists. split; [vm_compute; reflexivity |]. vm_compute. done. Qed.

(** A line break moves between arguments without changing the fingerprint. *)
Lemma line_breaks_move con cmd exe a b c rest wd t f r command :
  computeFingerprint con cmd exe ((line a +:+ b) :: c :: rest) wd t f r command =
  computeFingerprint con cmd exe (a :: (line b +:+ c) :: rest) wd t f r command.
Proof.
  unfold computeFingerprint. f_equal. unfold fingerprint_text. do 9 (apply (f_equal (String.append _))). cbn [foldr].
  apply (inj to_bytes). unfold line. by rewrite !to_bytes_append, <- !app_assoc.
Qed.

Lemma fingerprint_text_identifies_witness : fingerprint_text "gh" "pr_view" "/usr/bin/gh" ["pr"; "7"] "" 60 "json" false DefaultExternalCliCommandOptions ≠
  fingerprint_text "gh" "pr_view" "/usr/bin/gh" ["pr"; "8"] "" 60 "json" false DefaultExternalCliCommandOptions.
Proof.
  intros Heq. apply fingerprint_text_identifies in Heq as (_ & _ & _ & Hargs & _); [discriminate Hargs | |];
    refine (bool_decide_unpack _ _); vm_compute; exact I.
Defined.
