(* ===== verification/ExternalCliTool.v ===== *)
(** The runner and the tool of external command-line tools:
    [ExternalCliRunner] of [openclaw/core/external_cli.go] and
    [openclaw/agent/tool/externalcli/tool.go].

    A program that is started is what the class [CliPrograms] says of it: the
    chunks its streams are read in, and how it ends.  The tool records what it
    does: what it runs, and what it tells its sinks, whose errors it ignores.
    Waiting for a program closes its streams, which may end a read with an error. *)

From S2P Require Import Prelude GoStrings ExternalCli ExternalCliTemplates ExternalCliRegistry Json ToolPolicy.
Local Open Scope string_scope.
Local Open Scope list_scope.

(** ** Data *)

Record ExternalCliExecutionResult := mkResult {
  res_Preview : ExternalCliInvocationPreview;
  Success : bool;
  ExitCode : Z;
  Stdout : string;
  Stderr : string;
  StdoutTruncated : bool;
  StderrTruncated : bool;
  TimedOut : bool;
  DurationMs : Z;
  StartedAtUtc : Z;
  CompletedAtUtc : Z;
  ParsedJson : option string;
  ParseError : string;
  ErrorMessage : string;
}.

Record ExternalCliToolRequest := mkToolRequest {
  tr_Action : string;
  tr_Connector : string;
  tr_Command : string;
  tr_Parameters : gmap string string;
  tr_ExecuteDryRun : bool;
  ApprovedFingerprint : string;
  ApprovalReason : string;
}.

Record ExternalCliRuntimeEvent := mkRuntimeEvent {
  ev_SessionId : string;
  ev_ChannelId : string;
  ev_SenderId : string;
  ev_Action : string;
  Severity : string;
  ev_Summary : string;
  Metadata : gmap string string;
}.

Record ExternalCliAuditEntry := mkAudit {
  au_Id : string;
  TimestampUtc : Z;
  au_SessionId : string;
  au_ChannelId : string;
  au_SenderId : string;
  au_Connector : string;
  au_Command : string;
  au_Executable : string;
  ArgsHash : string;
  RedactedArgsPreview : string;
  au_ParametersHash : string;
  au_ApprovalFingerprint : string;
  au_ExitCode : Z;
  au_DurationMs : Z;
  au_TimedOut : bool;
  Failed : bool;
  au_StdoutTruncated : bool;
  au_StderrTruncated : bool;
  au_RiskLevel : string;
  au_ReadOnly : bool;
  au_WorkingDirectory : string;
}.

Inductive response :=
  | RConnectors (items : list ExternalCliConnectorSummary)
  | RStatus (status : ExternalCliConnectorStatus)
  | RCommands (connector : string) (items : list ExternalCliCommandSummary)
  | RSchema (schema : ExternalCliCommandSchemaResponse)
  | RPreview (preview : ExternalCliInvocationPreview) (dryRunResult : option ExternalCliExecutionResult)
  | RExecution (result : ExternalCliExecutionResult).

(** ** Reading what a program writes *)

(** The chunks of a stream, and the error that ends it, if it is not its end. *)
Record stream := mkStream { chunks : list bytes; read_error : option string }.

Definition read_chunk (s : bytes * Z * bool) (chunk : bytes) : bytes * Z * bool :=
  let '(out, remaining, truncated) := s in
  match chunk with
  | [] => s
  | _ =>
      if (remaining <=? 0)%Z then (out, remaining, true)
      else if (remaining <? Z.of_nat (length chunk))%Z then (out ++ take (Z.to_nat remaining) chunk, 0%Z, true)
      else (out ++ chunk, (remaining - Z.of_nat (length chunk))%Z, truncated)
  end.

(** Bytes and whether there were more; an error loses them. *)
Definition readCapped (s : stream) (maxBytes : Z) : bytes * bool :=
  let '(out, _, truncated) := foldl read_chunk ([], maxBytes, false) (chunks s) in
  match read_error s with
  | Some _ => ([], false)
  | None => (out, truncated)
  end.

(** How waiting for a program ends. *)
Inductive ending := ExitsWith (code : Z) | Signaled | WaitFails (e : string).
Record program_run := mkProgramRun {
  stdout_stream : stream;
  stderr_stream : stream;
  deadline_exceeded : bool;     (** when the wait was over *)
  ends : ending;
}.

Class CliPrograms := {
  Start : nat → ExternalCliPreparedCommand → res program_run;
  Now : nat → Z;
  CleanUUID : nat → string;
  json_Valid : string → bool;
  Unmarshal_request : string → option ExternalCliToolRequest;
  parse_json : string → json_text;
  Marshal_response : response → option string;
}.

Section Runner.
Context `{MapOrder} `{CliText} `{CliHost} `{CliPrograms}.

Definition parseStructuredOutput (outputFormat stdout : string) : res (option string) :=
  let stdout := TrimSpace stdout in
  if bool_decide (stdout = "") then Ok None
  else if bool_decide (outputFormat = "json") then
    if json_Valid stdout then Ok (Some stdout) else Fail "invalid JSON"
  else if bool_decide (outputFormat = "ndjson") then
    let lines := filter (λ l, l ≠ "") (TrimSpace <$> Split stdout (byte 10)) in
    if negb (forallb json_Valid lines) then Fail "invalid JSON"
    else match lines with [] => Ok None | _ => Ok (Some ("[" +:+ JoinStrings lines "," +:+ "]")) end
  else Ok None.

(** Whether it timed out, the exit code, and what is said of it. *)
Definition outcome_of (r : program_run) : bool * Z * string :=
  match ends r with
  | ExitsWith 0 => (false, 0%Z, "")
  | e =>
      if deadline_exceeded r then (true, (-1)%Z, "External CLI command timed out.")
      else match e with
           | ExitsWith code => (false, code, "")
           | Signaled => (false, (-1)%Z, "")
           | WaitFails text => (false, (-1)%Z, text)
           end
  end.

Definition milliseconds (from to : Z) : Z := (sat64 (to - from) `quot` 1000000)%Z.

Definition createErrorResult (command : ExternalCliPreparedCommand) (startedAt : Z) (err : string) : C ExternalCliExecutionResult :=
  now ← look Now;
  mret (mkResult (Preview command) false (-1) "" "" false false false (milliseconds startedAt now) startedAt now None "" (Redact err)).

Definition Execute (command : ExternalCliPreparedCommand) : C ExternalCliExecutionResult :=
  startedAt ← look Now;
  started ← look (λ n, Start n command);
  match started with
  | Fail err => createErrorResult command startedAt err
  | Ok r =>
      completedAt ← look Now;
      let '(stdout, stdoutTruncated) := readCapped (stdout_stream r) (pre_MaxStdoutBytes command) in
      let '(stderr, stderrTruncated) := readCapped (stderr_stream r) (pre_MaxStderrBytes command) in
      let '(timedOut, exitCode, errMsg) := outcome_of r in
      let stdoutText := redact_rules (pre_RedactionRules command) (Redact (of_bytes stdout)) in
      let stderrText := redact_rules (pre_RedactionRules command) (Redact (of_bytes stderr)) in
      let outputFormat := ToLower lower_table (TrimSpace (pv_StructuredOutput (Preview command))) in
      let '(parsedJson, parseErr) :=
        match parseStructuredOutput outputFormat stdoutText with Ok j => (j, "") | Fail e => (None, e) end in
      mret (mkResult (Preview command) (negb timedOut && (exitCode =? 0)%Z) exitCode stdoutText stderrText stdoutTruncated stderrTruncated
              timedOut (milliseconds startedAt completedAt) startedAt completedAt parsedJson parseErr errMsg)
  end.

(** ** The tool *)

Inductive event :=
  | Ran (command : ExternalCliPreparedCommand)
  | Recorded (e : ExternalCliRuntimeEvent)
  | Audited (a : ExternalCliAuditEntry).

Record state := mkState { ticks : nat; trace : list event }.
Definition T (A : Type) : Type := state → go (res A * state).
#[global] Instance T_ret : MRet T := λ A a s, Done (Ok a, s).
#[global] Instance T_bind : MBind T := λ A B f m s,
  match m s with
  | Done (Ok a, s) => f a s
  | Done (Fail e, s) => Done (Fail e, s)
  | Panic => Panic
  | Deadlock => Deadlock
  end.
Definition of_C {A} (m : C A) : T A := λ s,
  match m (ticks s) with
  | Done (r, n) => Done (r, mkState n (trace s))
  | Panic => Panic
  | Deadlock => Deadlock
  end.
Definition emit (e : event) : T () := λ s, Done (Ok tt, mkState (ticks s) (trace s ++ [e])).
Definition errs {A} (e : string) : T A := λ s, Done (Fail e, s).

Definition Name : string := "external_cli".

(** The session a tool is called for; it is dereferenced. *)
Record ToolExecutionContext := mkContext { Session : option (string * string * string) }.

Definition buildSummary (request : ExternalCliToolRequest) : string :=
  if bool_decide (tr_Connector request = "") || bool_decide (tr_Command request = "") then "Use an external CLI connector."
  else
    let target := tr_Connector request +:+ "/" +:+ tr_Command request +:+ "." in
    if bool_decide (tr_Action request = "execute") then "Execute external CLI command " +:+ target
    else if bool_decide (tr_Action request = "preview") then "Preview external CLI command " +:+ target
    else "Inspect external CLI connector " +:+ tr_Connector request +:+ ".".

Definition toPreviewRequest (request : ExternalCliToolRequest) : ExternalCliPreviewRequest :=
  mkPreviewRequest (tr_Connector request) (tr_Command request) (tr_Parameters request) (tr_ExecuteDryRun request).

Definition or_request (of_preview of_request : string) : string := if bool_decide (of_preview = "") then of_request else of_preview.

Definition recordEvent (execContext : ToolExecutionContext) (action severity summary : string) (request : ExternalCliToolRequest)
    (preview : option ExternalCliInvocationPreview) : T () :=
  match Session execContext with
  | None => λ _, Panic
  | Some (sessionId, channelId, senderId) =>
      let metadata : gmap string string := list_to_map [
        ("connector", or_request (from_option pv_Connector "" preview) (tr_Connector request));
        ("command", or_request (from_option pv_Command "" preview) (tr_Command request));
        ("riskLevel", from_option pv_RiskLevel "" preview);
        ("readOnly", from_option (λ p, if pv_ReadOnly p then "true" else "false") "" preview);
        ("fingerprint", from_option Fingerprint "" preview)] in
      emit (Recorded (mkRuntimeEvent sessionId channelId senderId action severity summary metadata))
  end.

Definition computeArgsHash (args : list string) : string := ComputeTurnHash (JoinStrings args (of_bytes [byte 10])).

Definition audit_entry (id : string) (time : Z) (session : string * string * string) (result : ExternalCliExecutionResult)
    (request : ExternalCliToolRequest) : ExternalCliAuditEntry :=
  let '(sessionId, channelId, senderId) := session in
  let p := res_Preview result in
  let approvalFingerprint := if bool_decide (ApprovedFingerprint request = "") then Fingerprint p else ApprovedFingerprint request in
  mkAudit id time sessionId channelId senderId (pv_Connector p) (pv_Command p) (pv_Executable p) (computeArgsHash (pv_Arguments p))
    (RedactedCommandLine p) (ParametersHash p) approvalFingerprint (ExitCode result) (DurationMs result) (TimedOut result)
    (negb (Success result)) (StdoutTruncated result) (StderrTruncated result) (pv_RiskLevel p) (pv_ReadOnly p) (pv_WorkingDirectory p).

Definition recordAudit (execContext : ToolExecutionContext) (result : ExternalCliExecutionResult) (request : ExternalCliToolRequest) : T () :=
  uuid ← of_C (look CleanUUID);
  time ← of_C (look Now);
  match Session execContext with
  | None => λ _, Panic
  | Some session => emit (Audited (audit_entry (slice_to ("ecli_" +:+ uuid) 21) time session result request))
  end.

Definition run (command : ExternalCliPreparedCommand) : T ExternalCliExecutionResult := _ ← emit (Ran command); of_C (Execute command).

Section Tool.
Context (options : ExternalCliOptions).

Definition executeCommand (request : ExternalCliToolRequest) (execContext : ToolExecutionContext) : T ExternalCliExecutionResult :=
  prepared ← of_C (BuildPreview options (toPreviewRequest request) false);
  result ← run prepared;
  let action := if TimedOut result then "command_timed_out" else if Success result then "command_executed" else "command_failed" in
  let severity := if Success result then "info" else "warning" in
  _ ← recordEvent execContext action severity
        ("External CLI command " +:+ ConnectorName prepared +:+ "/" +:+ CommandName prepared +:+ " completed with exit code "
         +:+ Itoa (ExitCode result) +:+ ".") request (Some (Preview prepared));
  _ ← recordAudit execContext result request;
  mret result.

Definition preview (request : ExternalCliToolRequest) (execContext : ToolExecutionContext) :
    T (ExternalCliInvocationPreview * option ExternalCliExecutionResult) :=
  prepared ← of_C (BuildPreview options (toPreviewRequest request) (tr_ExecuteDryRun request));
  let name := ConnectorName prepared +:+ "/" +:+ CommandName prepared +:+ "." in
  _ ← recordEvent execContext (if tr_ExecuteDryRun request then "dry_run_previewed" else "previewed") "info"
        ("Previewed external CLI command " +:+ name) request (Some (Preview prepared));
  if tr_ExecuteDryRun request then
    dryRunResult ← run prepared;
    _ ← recordEvent execContext "dry_run_executed" (if Success dryRunResult then "info" else "warning")
          ("Dry-run executed for external CLI command " +:+ name) request (Some (Preview prepared));
    _ ← recordAudit execContext dryRunResult request;
    mret (Preview prepared, Some dryRunResult)
  else mret (Preview prepared, None).

(** What a call is, before it is approved. *)
Definition ResolveActionDescriptor (argumentsJson : string) : T ToolActionDescriptor :=
  match Unmarshal_request argumentsJson with
  | None => mret (Resolve Name (parse_json argumentsJson))
  | Some request =>
      if negb (bool_decide (tr_Action request = "execute")) && negb (bool_decide (tr_Action request = "preview"))
      then mret (MkAction (tr_Action request) false false (buildSummary request) "" "")
      else
        let dryRun := bool_decide (tr_Action request = "preview") && tr_ExecuteDryRun request in
        λ s, match of_C (BuildPreview options (toPreviewRequest request) dryRun) s with
             | Done (Ok prepared, s) =>
                 let p := Preview prepared in
                 Done (Ok (MkAction (tr_Action request) (negb (pv_ReadOnly p)) (pv_RequiresApproval p) (buildSummary request)
                         (Fingerprint p) (pv_RiskLevel p)), s)
             | Done (Fail _, s) => Done (Ok (Resolve Name (parse_json argumentsJson)), s)
             | Panic => Panic
             | Deadlock => Deadlock
             end
  end.

Definition unknown_action : string :=
  "Error: Unknown action. Valid actions are list_connectors, connector_status, list_commands, command_schema, preview, and execute.".

(** The response, or the error that is told to the event sink. *)
Definition respond (request : ExternalCliToolRequest) (toolContext : ToolExecutionContext) : T response :=
  let action := tr_Action request in
  if bool_decide (action = "list_connectors") then items ← of_C (ListConnectors options); mret (RConnectors items)
  else if bool_decide (action = "connector_status") then
    status ← of_C (GetStatus options (TrimSpace (tr_Connector request))); mret (RStatus status)
  else if bool_decide (action = "list_commands") then
    items ← of_C (ListCommands options (TrimSpace (tr_Connector request))); mret (RCommands (TrimSpace (tr_Connector request)) items)
  else if bool_decide (action = "command_schema") then
    schema ← of_C (GetCommandSchema options (TrimSpace (tr_Connector request)) (TrimSpace (tr_Command request))); mret (RSchema schema)
  else if bool_decide (action = "preview") then
    '(p, result) ← preview request toolContext; mret (RPreview p result)
  else if bool_decide (action = "execute") then result ← executeCommand request toolContext; mret (RExecution result)
  else errs unknown_action.

(** Requests that are refused without an event. *)
Definition missing_name (request : ExternalCliToolRequest) : option string :=
  let action := tr_Action request in
  let needs_connector := bool_decide (action ∈ ["connector_status"; "list_commands"; "command_schema"]) in
  if needs_connector && IsBlank (tr_Connector request) then Some "request.Connector MUST have 'connector'"
  else if bool_decide (action = "command_schema") && IsBlank (tr_Command request) then Some "request.Command MUST have 'command'"
  else None.

Definition ExecuteContext (argumentsJson : string) (toolContext : ToolExecutionContext) : T string :=
  match Unmarshal_request argumentsJson with
  | None => errs "invalid JSON"
  | Some request =>
      match missing_name request with
      | Some e => errs e
      | None => λ s,
          match respond request toolContext s with
          | Done (Ok r, s) => match Marshal_response r with Some data => Done (Ok data, s) | None => Done (Fail "json", s) end
          | Done (Fail e, s) =>
              match recordEvent toolContext "blocked_by_policy" "warning" e request None s with
              | Done (_, s) => Done (Fail e, s)
              | Panic => Panic
              | Deadlock => Deadlock
              end
          | Panic => Panic
          | Deadlock => Deadlock
          end
      end
  end.

(** Without a context the tool refuses. *)
Definition Execute_plain (argumentsJson : string) : T string := errs "Error: external_cli requires execution context.".
End Tool.
End Runner.
