(* ===== verification/ExternalCliToolSpec.v ===== *)
(** What the tool of external command-line tools promises: capped reading keeps
    the front of a stream, and what runs is what its descriptor said, and is
    audited. *)

From S2P Require Import Prelude GoStrings ExternalCli ExternalCliPresets ExternalCliTemplates ExternalCliRegistry ExternalCliSpec Json ToolPolicy ExternalCliTool.
Local Open Scope string_scope.
Local Open Scope list_scope.

(** ** Capped reading *)

Lemma read_chunks max : ∀ cs front, (0 ≤ max)%Z →
  foldl read_chunk (take (Z.to_nat max) front, (max - Z.of_nat (length (take (Z.to_nat max) front)))%Z,
                    bool_decide (max < Z.of_nat (length front))%Z) cs =
  (take (Z.to_nat max) (front ++ concat cs), (max - Z.of_nat (length (take (Z.to_nat max) (front ++ concat cs))))%Z,
   bool_decide (max < Z.of_nat (length (front ++ concat cs)))%Z).
Proof.
  intros cs. induction cs as [| c cs IH]; intros front Hmax; cbn [foldl concat]; [by rewrite app_nil_r |].
  rewrite app_assoc, <- IH by done. f_equal. unfold read_chunk. destruct c as [| b c]; [by rewrite app_nil_r |].
  set (chunk := b :: c). assert (0 < length chunk)%nat by (cbn; lia). rewrite !length_take, length_app.
  destruct (Z.leb_spec (max - Z.of_nat (Z.to_nat max `min` length front)%nat) 0) as [Hle | Hgt].
  - rewrite take_app_le, bool_decide_true by lia. f_equal; f_equal. lia.
  - assert (length front < Z.to_nat max)%nat as Hshort by lia. rewrite take_app_ge, (take_ge front) by lia.
    destruct (Z.ltb_spec (max - Z.of_nat (Z.to_nat max `min` length front)%nat) (Z.of_nat (length chunk))) as [Hlt | Hge].
    + rewrite bool_decide_true by lia. f_equal; f_equal; [f_equal; f_equal; lia | lia].
    + rewrite (take_ge chunk) by lia. rewrite !bool_decide_false by lia. f_equal; f_equal. lia.
Qed.

(** Reading a stream to its end with a limit gives its first bytes up to the
    limit, however it is cut into chunks, and says that something is missing
    exactly if it is longer. *)
Theorem capped_reading_keeps_the_front cs max : (0 ≤ max)%Z →
  readCapped (mkStream cs None) max = (take (Z.to_nat max) (concat cs), bool_decide (max < Z.of_nat (length (concat cs)))%Z).
Proof.
  intros Hmax. unfold readCapped. pose proof (read_chunks max cs [] Hmax) as Hall.
  rewrite take_nil in Hall. cbn [length app] in Hall. rewrite Z.sub_0_r, bool_decide_false in Hall by lia. cbn [chunks read_error].
  by rewrite Hall.
Qed.

Lemma capped_reading_keeps_the_front_witness :
  readCapped (mkStream [to_bytes "abc"; []; to_bytes "defg"; to_bytes "h"] None) 5 = (to_bytes "abcde", true).
Proof. rewrite capped_reading_keeps_the_front by lia. reflexivity. Defined.

(** A read that is interrupted loses what was read, and says nothing of it. *)
Lemma interrupted_reads_lose_the_output cs e max : readCapped (mkStream cs (Some e)) max = ([], false).
Proof. unfold readCapped. cbn [chunks read_error]. by destruct (foldl _ _ _) as [[out remaining] truncated]. Qed.

(** ** Traces *)

Section Trace.
Context `{MapOrder} `{CliText} `{CliHost} `{CliPrograms} (options : ExternalCliOptions).

Lemma Execute_ok command n : ∃ result n1, Execute command n = Done (Ok result, n1) ∧ res_Preview result = Preview command.
Proof.
  unfold Execute, createErrorResult, mbind, C_bind, look, mret, C_ret. destruct (Start _ _) as [r | e]; [| by eexists _, _].
  destruct (readCapped _ _) as [o ot]. destruct (readCapped _ _) as [er ert]. destruct (outcome_of r) as [[t c] m].
  destruct (match parseStructuredOutput _ _ with Ok j => (j, "") | Fail e => (None, e) end) as [j pe]. by eexists _, _.
Qed.

Definition is_record (e : event) : Prop := match e with Recorded _ => True | _ => False end.

(** The audit entry of a run. *)
Definition audits (p : ExternalCliPreparedCommand) (request : ExternalCliToolRequest) (a : ExternalCliAuditEntry) : Prop :=
  au_Connector a = pv_Connector (Preview p) ∧ au_Command a = pv_Command (Preview p) ∧ au_Executable a = pv_Executable (Preview p) ∧
  ArgsHash a = computeArgsHash (pv_Arguments (Preview p)) ∧
  au_ApprovalFingerprint a = (if bool_decide (ApprovedFingerprint request = "") then Fingerprint (Preview p) else ApprovedFingerprint request).

(** What a call leaves in the trace: nothing but events for the sink, or also one
    run with its audit entry. *)
Inductive activity (request : ExternalCliToolRequest) : list event → Prop :=
  | quiet es : Forall is_record es → activity request es
  | ran before p e a after n n1 :
      Forall is_record before → Forall is_record after →
      tr_Action request = "execute" ∨ tr_Action request = "preview" ∧ tr_ExecuteDryRun request = true →
      BuildPreview options (toPreviewRequest request) (bool_decide (tr_Action request = "preview") && tr_ExecuteDryRun request) n = Done (Ok p, n1) →
      audits p request a →
      activity request (before ++ [Ran p; Recorded e; Audited a] ++ after).

Lemma activity_snoc request es e : activity request es → is_record e → activity request (es ++ [e]).
Proof.
  intros [es' Hes | before p e' a after n n1 Hb Ha Hact Hp Haud] He.
  - apply quiet. apply Forall_app. split; [done | by apply Forall_singleton].
  - rewrite <- !app_assoc. eapply ran; [done | | done..]. apply Forall_app. split; [done | by apply Forall_singleton].
Qed.

(** The events a computation adds. *)
Definition adds {A} (P : list event → Prop) (m : T A) : Prop :=
  ∀ s r s', m s = Done (r, s') → ∃ es, trace s' = trace s ++ es ∧ P es.

Lemma of_C_inv {A} (m : C A) s r s' : of_C m s = Done (r, s') → trace s' = trace s ∧ m (ticks s) = Done (r, ticks s').
Proof. unfold of_C. destruct (m (ticks s)) as [[r' n] | |]; [| done..]. by intros [= <- <-]. Qed.

Lemma T_bind_cases {A B} (m : T A) (f : A → T B) s r s' : (m ≫= f) s = Done (r, s') →
  (∃ a s1, m s = Done (Ok a, s1) ∧ f a s1 = Done (r, s')) ∨ (∃ e, m s = Done (Fail e, s') ∧ r = Fail e).
Proof. unfold mbind, T_bind. destruct (m s) as [[[a | e] s1] | |]; [left; eauto | intros [= <- <-]; right; eauto | done..]. Qed.

Lemma recordEvent_inv tc action severity summary request pv s r s' : recordEvent tc action severity summary request pv s = Done (r, s') →
  r = Ok tt ∧ ∃ e, trace s' = trace s ++ [Recorded e].
Proof. unfold recordEvent. destruct (Session tc) as [[[? ?] ?] |]; [| done]. intros [= <- <-]. split; [done |]. by eexists. Qed.

Lemma recordAudit_inv tc result request s r s' : recordAudit tc result request s = Done (r, s') →
  r = Ok tt ∧ ∃ id time session, trace s' = trace s ++ [Audited (audit_entry id time session result request)].
Proof.
  unfold recordAudit, mbind, T_bind, of_C, look. destruct (Session tc) as [session |]; [| done]. intros [= <- <-]. split; [done |]. by eexists _, _, _.
Qed.

Lemma run_inv p s r s' : run p s = Done (r, s') → ∃ result, r = Ok result ∧ res_Preview result = Preview p ∧ trace s' = trace s ++ [Ran p].
Proof.
  unfold run. intros [([] & s1 & [= <-] & Hrun) | (e & [=] & _)]%T_bind_cases. apply of_C_inv in Hrun as [Ht Hrun].
  destruct (Execute_ok p (ticks (mkState (ticks s) (trace s ++ [Ran p])))) as (result & n1 & Heq & Hp).
  rewrite Heq in Hrun. injection Hrun as <- _. exists result. by rewrite Ht.
Qed.

Lemma audits_entry p request result id time session : res_Preview result = Preview p → audits p request (audit_entry id time session result request).
Proof. intros Hp. unfold audit_entry. destruct session as [[? ?] ?]. rewrite Hp. done. Qed.

Lemma executeCommand_adds request tc : tr_Action request = "execute" → adds (activity request) (executeCommand options request tc).
Proof.
  intros Hact s r s' Heq. unfold executeCommand in Heq.
  apply T_bind_cases in Heq as [(p & s1 & Hp & Heq) | (e & Hp & _)]; apply of_C_inv in Hp as [Ht Hp].
  2: { exists []. rewrite Ht, app_nil_r. split; [done | by apply quiet]. }
  apply T_bind_cases in Heq as [(result & s2 & Hrun & Heq) | (e & Hrun & _)]; apply run_inv in Hrun as (result' & Hr & Hpv & Ht2); [| done].
  injection Hr as <-. apply T_bind_cases in Heq as [([] & s3 & Hev & Heq) | (e & Hev & _)]; apply recordEvent_inv in Hev as [Hr3 [ev Ht3]]; [| done].
  apply T_bind_cases in Heq as [([] & s4 & Haud & Heq) | (e & Haud & _)]; apply recordAudit_inv in Haud as [Hr4 (id & time & session & Ht4)]; [| done].
  injection Heq as <- <-. eexists ([] ++ [Ran p; Recorded ev; Audited _] ++ []). split; [rewrite Ht4, Ht3, Ht2, Ht, <- !app_assoc; reflexivity |].
  eapply ran; [constructor | constructor | by left | | by apply audits_entry]. rewrite bool_decide_false by (by rewrite Hact). exact Hp.
Qed.

Lemma preview_adds request tc : tr_Action request = "preview" → adds (activity request) (preview options request tc).
Proof.
  intros Hact s r s' Heq. unfold preview in Heq.
  apply T_bind_cases in Heq as [(p & s1 & Hp & Heq) | (e & Hp & _)]; apply of_C_inv in Hp as [Ht Hp].
  2: { exists []. rewrite Ht, app_nil_r. split; [done | by apply quiet]. }
  apply T_bind_cases in Heq as [([] & s2 & Hev & Heq) | (e & Hev & _)]; apply recordEvent_inv in Hev as [Hr2 [ev Ht2]]; [| done].
  destruct (tr_ExecuteDryRun request) eqn:Hdry.
  2: { injection Heq as <- <-. exists [Recorded ev]. rewrite Ht2, Ht. split; [done | apply quiet; by apply Forall_singleton]. }
  apply T_bind_cases in Heq as [(result & s3 & Hrun & Heq) | (e & Hrun & _)]; apply run_inv in Hrun as (result' & Hr & Hpv & Ht3); [| done].
  injection Hr as <-. apply T_bind_cases in Heq as [([] & s4 & Hev & Heq) | (e & Hev & _)]; apply recordEvent_inv in Hev as [Hr4 [ev4 Ht4]]; [| done].
  apply T_bind_cases in Heq as [([] & s5 & Haud & Heq) | (e & Haud & _)]; apply recordAudit_inv in Haud as [Hr5 (id & time & session & Ht5)]; [| done].
  injection Heq as <- <-. eexists ([Recorded ev] ++ [Ran p; Recorded ev4; Audited _] ++ []).
  split; [rewrite Ht5, Ht4, Ht3, Ht2, Ht, <- !app_assoc; reflexivity |].
  eapply ran; [by apply Forall_singleton | constructor | by right | | by apply audits_entry]. rewrite bool_decide_true, Hdry by done. exact Hp.
Qed.

Lemma adds_quiet {A B} request (m : C A) (f : A → B) : adds (activity request) (a ← of_C m; mret (f a)).
Proof.
  intros s r s' [(a & s1 & Hm & [= <- <-]) | (e & Hm & _)]%T_bind_cases; apply of_C_inv in Hm as [Ht _];
    (exists []; rewrite Ht, app_nil_r; split; [done | by apply quiet]).
Qed.

Lemma adds_then {A B} P (m : T A) (f : A → B) : adds P m → adds P (a ← m; mret (f a)).
Proof.
  intros Hm s r s' [(a & s1 & Ha & [= <- <-]) | (e & Ha & _)]%T_bind_cases; by eapply Hm.
Qed.

Lemma respond_adds request tc : adds (activity request) (respond options request tc).
Proof.
  unfold respond. repeat case_bool_decide; try apply adds_quiet.
  - intros s r s' [([p result] & s1 & Hm & [= <- <-]) | (e & Hm & _)]%T_bind_cases; by eapply (preview_adds request tc).
  - apply adds_then. by apply executeCommand_adds.
  - intros s r s' [= <- <-]. exists []. rewrite app_nil_r. split; [done | by apply quiet].
Qed.

Lemma ExecuteContext_adds argumentsJson tc s r s' : ExecuteContext options argumentsJson tc s = Done (r, s') →
  s' = s ∨ ∃ request es, Unmarshal_request argumentsJson = Some request ∧ trace s' = trace s ++ es ∧ activity request es.
Proof.
  unfold ExecuteContext. destruct (Unmarshal_request argumentsJson) as [request |]; [| intros [= _ <-]; by left].
  destruct (missing_name request); [intros [= _ <-]; by left |]. intros Heq. right. exists request.
  destruct (respond options request tc s) as [[[resp | e] s1] | |] eqn:Hresp; [| | done..];
    destruct (respond_adds _ _ _ _ _ Hresp) as (es & Ht & Hes).
  - destruct (Marshal_response resp); injection Heq as <- <-; eauto.
  - destruct (recordEvent _ _ _ _ _ _ s1) as [[u s2] | |] eqn:Hev; [| done..]. injection Heq as <- <-.
    apply recordEvent_inv in Hev as [_ [ev Ht2]]. exists (es ++ [Recorded ev]). split; [done |]. split; [by rewrite Ht2, Ht, <- app_assoc |].
    by apply activity_snoc.
Qed.

Lemma no_run es p : Forall is_record es → Ran p ∈ es → False.
Proof. rewrite Forall_forall. intros Hall Hin. by apply Hall in Hin. Qed.

(** C12: A call that runs a program runs one, and audits its arguments and
    executable; if no two names differ in case only and the files stay as they
    are, the descriptor of the call says of it, before and after, whether it
    changes something, whether it needs approval, and its fingerprint. *)
Theorem what_runs_was_described argumentsJson tc s r s' es p (request : ExternalCliToolRequest) :
  (∀ n m path, Stat n path = Stat m path) →
  unambiguous (tr_Parameters request) →
  (∀ connector command, allowed_command options (toPreviewRequest request) = Ok (connector, command) →
     unambiguous (default ∅ (Parameters command)) ∧ unambiguous (environment_of connector command)) →
  Unmarshal_request argumentsJson = Some request →
  ExecuteContext options argumentsJson tc s = Done (r, s') → trace s' = trace s ++ es → Ran p ∈ es →
  (∀ q, Ran q ∈ es → q = p) ∧ (∃ a, Audited a ∈ es ∧ audits p request a) ∧
  ∀ s0, ∃ d s1, ResolveActionDescriptor options argumentsJson s0 = Done (Ok d, s1) ∧
    Action d = tr_Action request ∧ IsMutation d = negb (pv_ReadOnly (Preview p)) ∧ RequiresApproval d = pv_RequiresApproval (Preview p) ∧
    RiskLevel d = pv_RiskLevel (Preview p) ∧ ApprovalFingerprint d = Fingerprint (Preview p).
Proof.
  intros Hfiles Hpar Hnames Hreq Heq Ht Hin. destruct (ExecuteContext_adds _ _ _ _ _ Heq) as [-> | (request' & es' & Hreq' & Ht' & Hact)].
  { rewrite <- (app_nil_r (trace s)) in Ht at 1. apply (inj (app _)) in Ht as <-. by apply elem_of_nil in Hin. }
  assert (request' = request) as -> by congruence. rewrite Ht in Ht'. apply (inj (app _)) in Ht' as <-.
  destruct Hact as [es Hall | before q e a after n n1 Hb Ha Hwhich Hprep Haud]; [by destruct (no_run _ _ Hall Hin) |].
  assert (∀ q', Ran q' ∈ before ++ [Ran q; Recorded e; Audited a] ++ after → q' = q) as Honly.
  { intros q'. rewrite !elem_of_app, !elem_of_cons, elem_of_nil. intros [Hq | [[[= ->] | [Hq | [Hq | []]]] | Hq]]; try done; by apply no_run in Hq. }
  pose proof (Honly _ Hin) as ->. split; [done |]. split; [exists a; split; [rewrite !elem_of_app, !elem_of_cons; naive_solver | done] |].
  intros s0. unfold ResolveActionDescriptor. rewrite Hreq.
  assert (negb (bool_decide (tr_Action request = "execute")) && negb (bool_decide (tr_Action request = "preview")) = false) as ->
    by (by destruct Hwhich as [-> | [-> _]]).
  destruct (prepared_commands_stay_the_same options Hfiles (toPreviewRequest request) _ n q n1 (ticks s0) Hpar Hnames Hprep) as [n2 Hn2].
  unfold of_C. rewrite Hn2. by eexists _, _.
Qed.
End Trace.

(** ** On concrete inputs *)

Local Existing Instances Sample.order Sample.text Sample.host.

Definition sample_request (fingerprint : string) : ExternalCliToolRequest :=
  mkToolRequest "execute" "gh" "pr_view" (req_Parameters Sample.one_view) false fingerprint "".

(** A program that prints a line; every text is the request, with the text for
    the fingerprint it claims. *)
#[local] Instance sample_programs : CliPrograms := {|
  Start _ _ := Ok (mkProgramRun (mkStream [to_bytes "ok"] None) (mkStream [] None) false (ExitsWith 0));
  Now n := Z.of_nat n; CleanUUID _ := "0123456789abcdef0123456789abcdef"; json_Valid _ := true;
  Unmarshal_request s := Some (sample_request s); parse_json _ := TBlank; Marshal_response _ := Some "done" |}.

Definition sample_context : ToolExecutionContext := mkContext (Some ("s", "web", "me")).
Definition sample_start : state := mkState 0 [].
Definition sample_trace (fingerprint : string) : list event :=
  match ExecuteContext Sample.applied fingerprint sample_context sample_start with Done (_, s) => trace s | _ => [] end.

Lemma sample_runs : ∃ s' p, ExecuteContext Sample.applied "" sample_context sample_start = Done (Ok "done", s') ∧
  trace s' = sample_trace "" ∧ Ran p ∈ sample_trace "" ∧ pre_Executable p = "/usr/bin/gh".
Proof.
  assert (match ExecuteContext Sample.applied "" sample_context sample_start with
          | Done (Ok m, s') =>
              match trace s' with Ran p :: _ => bool_decide (m = "done" ∧ pre_Executable p = "/usr/bin/gh") | _ => false end
          | _ => false
          end = true) as Hok by (vm_compute; reflexivity).
  unfold sample_trace. destruct (ExecuteContext Sample.applied "" sample_context sample_start) as [[[m | e] s'] | |] eqn:Heq; [| done..].
  destruct (trace s') as [| [p | |] rest] eqn:Ht; [done | | done..]. apply bool_decide_eq_true in Hok as [-> Hp].
  exists s', p. split; [done |]. split; [done |]. split; [by left | done].
Qed.

Lemma what_runs_was_described_witness : ∃ s' p d s1,
  ExecuteContext Sample.applied "" sample_context sample_start = Done (Ok "done", s') ∧
  ResolveActionDescriptor Sample.applied "" sample_start = Done (Ok d, s1) ∧ ApprovalFingerprint d = Fingerprint (Preview p) ∧
  Ran p ∈ trace s'.
Proof.
  destruct sample_runs as (s' & p & Heq & Ht & Hin & _). rewrite <- Ht in Hin.
  assert (unambiguous (tr_Parameters (sample_request ""))) as Hp by (apply names_apart_unambiguous; vm_compute; reflexivity).
  assert (∀ n m path, Stat n path = Stat m path) as Hfiles by done.
  assert (Unmarshal_request "" = Some (sample_request "")) as Hreq by done.
  destruct (what_runs_was_described Sample.applied "" sample_context sample_start (Ok "done") s' (trace s') p (sample_request "")
    Hfiles Hp sample_names_apart Hreq Heq eq_refl Hin) as (_ & _ & Hd).
  destruct (Hd sample_start) as (d & s1 & Hres & _ & _ & _ & _ & Hfp). exists s', p, d, s1.
  split; [exact Heq |]. split; [exact Hres |]. split; [exact Hfp | exact Hin].
Defined.

(** The tool does not look at the fingerprint a call claims to be approved: it
    runs, and the claim is what the audit records. *)
Example claimed_fingerprints_are_recorded :
  (λ e, match e with Ran _ => "ran" | Recorded e => ev_Action e | Audited a => au_ApprovalFingerprint a end) <$> sample_trace "claimed" =
  ["ran"; "command_executed"; "claimed"].
Proof. vm_compute. reflexivity. Qed.
