(* ===== verification/Chat.v ===== *)
(** The messages of a conversation with a model: the contents of
    [extensions_ai/abstractions/contents], media markers in a message
    ([openclaw/core/media_markers.go], [BuildTurnContents] of
    [openclaw/agent/agent_runtime.go]) and the estimate of input tokens
    ([openclaw/agent/agent.go]).

    A content is an interface value: it holds a struct or a pointer to one, and
    a type assertion tells the two apart, so each content says how it is held.
    The arguments of a function call are a map of JSON values. *)

From S2P Require Import Prelude GoStrings Json.
Local Open Scope string_scope.
Local Open Scope list_scope.

(** ** Contents *)

Inductive held := ByValue | ByPointer.

Record function_call := MkCall {
  CallId : string;
  CallName : string;
  (** [None] for a nil map *)
  CallArguments : option (gmap string json);
}.

Inductive IAIContent :=
  | TextContent (h : held) (Text : string)
  | UriContent (h : held) (URI MediaType : string)
  | FunctionCallContent (h : held) (call : function_call)
  | FunctionResultContent (h : held) (ResultCallId Result : string)
  | OtherContent.

Inductive ChatRole := RoleSystem | RoleUser | RoleAssistant | RoleTool.
#[export] Instance ChatRole_eq_dec : EqDecision ChatRole.
Proof. solve_decision. Defined.

Record ChatMessage := MkMessage {
  Role : ChatRole;
  Contents : list IAIContent;
}.

Definition NewTextContent (text : string) : IAIContent := TextContent ByPointer text.
Definition NewUriContent (url mediaType : string) : IAIContent := UriContent ByPointer url mediaType.
Definition NewFunctionResultContent (callId result : string) : IAIContent := FunctionResultContent ByPointer callId result.
Definition NewChatMessageWithText (role : ChatRole) (text : string) : ChatMessage := MkMessage role [NewTextContent text].

(** The texts that are held by value. *)
Definition ConcatTextContents (contents : list IAIContent) : string :=
  foldr (λ content text, match content with TextContent ByValue t => t +:+ text | _ => text end) "" contents.

Definition ConcatMessagesContents (messages : list ChatMessage) : string :=
  foldr (λ m text, ConcatTextContents (Contents m) +:+ text) "" messages.

(** ** Media markers *)

Inductive MediaMarkerKind :=
  | MediaMarkerImageUrl
  | MediaMarkerImagePath
  | MediaMarkerFileUrl
  | MediaMarkerFilePath
  | MediaMarkerTelegramImageFileId
  | MediaMarkerTelegramVideoFileId
  | MediaMarkerTelegramAudioFileId
  | MediaMarkerTelegramDocumentFileId
  | MediaMarkerTelegramStickerFileId
  | MediaMarkerVideoUrl
  | MediaMarkerAudioUrl
  | MediaMarkerDocumentUrl
  | MediaMarkerStickerUrl.

Record MediaMarker := MkMarker {
  MarkerKind : MediaMarkerKind;
  MarkerValue : string;
}.

Definition nonblank (value : string) : option string :=
  let value := TrimSpace value in if bool_decide (value = "") then None else Some value.

Definition tryParseBracketValue (line prefix : string) : option string :=
  if bool_decide (String.length line < String.length prefix + 2) then None
  else if negb (HasPrefix line "[") || negb (HasSuffix line "]") then None
  else
    let inner := slice_to (slice_from line 1) (String.length line - 2) in
    if negb (HasPrefix inner prefix) then None else nonblank (slice_from inner (String.length prefix)).

(** The first byte of the prefix is a bracket and the last of the line another,
    so the slice is in range. *)
Definition tryParseTelegramFileId (line mediaType : string) : option string :=
  let prefix := "[" +:+ mediaType +:+ ":telegram:file_id=" in
  if negb (HasPrefix line prefix) || negb (HasSuffix line "]") then None
  else nonblank (slice_from (slice_to line (String.length line - 1)) (String.length prefix)).

Definition bracket_prefixes : list (string * MediaMarkerKind) :=
  [("IMAGE_URL:", MediaMarkerImageUrl); ("IMAGE_PATH:", MediaMarkerImagePath); ("FILE_URL:", MediaMarkerFileUrl);
   ("FILE_PATH:", MediaMarkerFilePath); ("VIDEO_URL:", MediaMarkerVideoUrl); ("AUDIO_URL:", MediaMarkerAudioUrl);
   ("DOCUMENT_URL:", MediaMarkerDocumentUrl); ("STICKER_URL:", MediaMarkerStickerUrl)].

Definition tgTypes : list (string * MediaMarkerKind) :=
  [("IMAGE", MediaMarkerTelegramImageFileId); ("VIDEO", MediaMarkerTelegramVideoFileId);
   ("AUDIO", MediaMarkerTelegramAudioFileId); ("DOCUMENT", MediaMarkerTelegramDocumentFileId);
   ("STICKER", MediaMarkerTelegramStickerFileId)].

Fixpoint first_marker (parse : string → option string) (table : list (string * MediaMarkerKind)) : option MediaMarker :=
  match table with
  | [] => None
  | (name, kind) :: table =>
      match parse name with Some value => Some (MkMarker kind value) | None => first_marker parse table end
  end.

Definition TryParseMarker (line : string) : option MediaMarker :=
  if bool_decide (TrimSpace line = "") then None
  else
    match first_marker (tryParseBracketValue line) bracket_prefixes with
    | Some marker => Some marker
    | None => first_marker (tryParseTelegramFileId line) tgTypes
    end.

(** [strings.ReplaceAll(text, "\r\n", "\n")] *)
Fixpoint crlf_to_lf (l : bytes) : bytes :=
  match l with
  | [] => []
  | c :: rest =>
      match rest with
      | d :: _ => if bool_decide (c = byte 13) && bool_decide (d = byte 10) then crlf_to_lf rest else c :: crlf_to_lf rest
      | [] => [c]
      end
  end.

Fixpoint extract_lines (lines : list string) : list MediaMarker * list string :=
  match lines with
  | [] => ([], [])
  | line :: lines =>
      let '(markers, remaining) := extract_lines lines in
      match TryParseMarker (TrimSpace line) with
      | Some marker => (marker :: markers, remaining)
      | None => (markers, line :: remaining)
      end
  end.

Definition newline : string := String (byte 10) "".

Definition MediaMarkerExtract (text : string) : list MediaMarker * string :=
  if bool_decide (text = "") then ([], "")
  else
    let '(markers, remaining) := extract_lines (Split (of_bytes (crlf_to_lf (to_bytes text))) (byte 10)) in
    (markers, TrimSpace (JoinStrings remaining newline)).

Definition media_type (kind : MediaMarkerKind) : string :=
  match kind with
  | MediaMarkerImageUrl | MediaMarkerImagePath | MediaMarkerTelegramImageFileId => "image/*"
  | MediaMarkerAudioUrl | MediaMarkerTelegramAudioFileId => "audio/*"
  | MediaMarkerVideoUrl | MediaMarkerTelegramVideoFileId => "video/*"
  | _ => "application/octet-stream"
  end.

Section Contents.
(** [url.Parse] succeeds and the URL is absolute. *)
Context (absolute_url : string → bool).

Definition marker_content (marker : MediaMarker) : IAIContent :=
  match MarkerKind marker with
  | MediaMarkerImagePath | MediaMarkerFilePath => NewUriContent (MarkerValue marker) (media_type (MarkerKind marker))
  | _ =>
      if absolute_url (MarkerValue marker) then NewUriContent (MarkerValue marker) (media_type (MarkerKind marker))
      else NewTextContent (MarkerValue marker)
  end.

Definition BuildTurnContents (content : string) : list IAIContent :=
  let '(markers, remainingText) := MediaMarkerExtract content in
  let aicontents :=
    (if bool_decide (remainingText = "") then [] else [NewTextContent remainingText]) ++ (marker_content <$> markers) in
  if bool_decide (length aicontents = 0) then [NewTextContent content] else aicontents.
End Contents.

(** ** The estimate of input tokens *)

Definition message_chars (m : ChatMessage) : Z := Z.of_nat (String.length (TrimSpace (ConcatTextContents (Contents m)))).

Definition LlmExecutionEstimateTokenCount (charCount : Z) : Z :=
  if (charCount <=? 0)%Z then 0 else Z.max 1 ((charCount + 3) / 4).

Definition sum_chars (messages : list ChatMessage) : Z := foldr (λ m n, (message_chars m + n)%Z) 0%Z messages.

Definition LlmExecutionEstimateInputTokens (messages : list ChatMessage) (additionalSystemPromptChars : Z) : Z :=
  LlmExecutionEstimateTokenCount (Z.max 0 additionalSystemPromptChars + sum_chars messages).

Record InputTokenComponentEstimate := MkEstimate {
  SystemPrompt : Z;
  Skills : Z;
  History : Z;
  ToolOutputs : Z;
  UserInput : Z;
}.

(** [float64] of an [int64]: to 53 bits, halves to even. *)
Definition to_float (z : Z) : Z :=
  let a := Z.abs z in
  if (a <=? 2^53)%Z then z
  else
    let e := (Z.log2 a - 52)%Z in
    let q := (a / 2^e)%Z in
    let r := (a mod 2^e)%Z in
    let q := if (2 * r <? 2^e)%Z || ((2 * r =? 2^e)%Z && Z.even q) then q else (q + 1)%Z in
    (Z.sgn z * (q * 2^e))%Z.

(** [int64] of a [float64], as amd64 does it. *)
Definition of_float (z : Z) : Z := if bool_decide (in_int64 z) then z else min_int64.

(** The quotient is one of integers, so rounding it changes nothing. *)
Definition share (totalTokens chars totalChars : Z) : Z := to_float (Z.quot (wrap64 (totalTokens * chars)) totalChars).

Definition float_sub (a b : Z) : Z := to_float (a - b).

Definition distributeEstimatedTokens (totalTokens systemPromptChars skillChars historyChars toolChars userChars : Z)
    : InputTokenComponentEstimate :=
  let totalChars := wrap64 (systemPromptChars + skillChars + historyChars + toolChars + userChars) in
  if (totalTokens <=? 0)%Z || (totalChars <=? 0)%Z then MkEstimate 0 0 0 0 0
  else
    let systemTokens := share totalTokens systemPromptChars totalChars in
    let skillTokens := share totalTokens skillChars totalChars in
    let historyTokens := share totalTokens historyChars totalChars in
    let toolTokens := share totalTokens toolChars totalChars in
    let userTokens :=
      Z.max 0 (float_sub (float_sub (float_sub (float_sub (to_float totalTokens) systemTokens) skillTokens) historyTokens)
        toolTokens) in
    MkEstimate (of_float systemTokens) (of_float skillTokens) (of_float historyTokens) (of_float toolTokens)
      (of_float userTokens).

(** The characters of the messages, by component; [i] is the index of the first
    message. *)
Fixpoint component_chars (i n : nat) (messages : list ChatMessage) : Z * Z * Z * Z :=
  match messages with
  | [] => (0, 0, 0, 0)%Z
  | m :: messages =>
      let '(system, history, tool, user) := component_chars (S i) n messages in
      let chars := message_chars m in
      if bool_decide (i = 0) && bool_decide (Role m = RoleSystem) then ((chars + system)%Z, history, tool, user)
      else if bool_decide (Role m = RoleTool) then (system, history, (chars + tool)%Z, user)
      else if bool_decide (Role m = RoleUser) && bool_decide (i = n - 1) then (system, history, tool, (chars + user)%Z)
      else (system, (chars + history)%Z, tool, user)
  end.

Definition BuildInputTokenEstimate (messages : list ChatMessage)
    (totalInputTokens skillPromptLength additionalSystemPromptChars : Z) : InputTokenComponentEstimate :=
  let '(system, history, tool, user) := component_chars 0 (length messages) messages in
  let systemChars := (Z.max 0 additionalSystemPromptChars + system)%Z in
  let skillChars := Z.min systemChars skillPromptLength in
  let systemPromptChars := Z.max 0 (systemChars - skillChars) in
  distributeEstimatedTokens totalInputTokens systemPromptChars skillChars history tool user.

(** ** Lemmas *)

(** Contents the code makes itself. *)
Definition by_pointer (c : IAIContent) : Prop := match c with TextContent ByValue _ => False | _ => True end.

Lemma by_pointer_text contents : Forall by_pointer contents → ConcatTextContents contents = "".
Proof. induction 1 as [| [[] | | | |] contents H _ IH]; simpl in *; [done | done | done..]. Qed.

Lemma BuildTurnContents_by_pointer absolute_url content : Forall by_pointer (BuildTurnContents absolute_url content).
Proof.
  unfold BuildTurnContents. destruct (MediaMarkerExtract content) as [markers remaining].
  case_bool_decide; [by repeat constructor |]. apply Forall_app. split.
  - case_bool_decide; by repeat constructor.
  - apply Forall_fmap, Forall_true. intros [kind value]. unfold marker_content. simpl.
    destruct kind; simpl; try done; by destruct (absolute_url value).
Qed.

(** A message is never empty. *)
Lemma BuildTurnContents_not_empty absolute_url content : BuildTurnContents absolute_url content ≠ [].
Proof.
  unfold BuildTurnContents. destruct (MediaMarkerExtract content) as [markers remaining].
  case_bool_decide as H; [done |]. intros E. by rewrite E in H.
Qed.

Lemma pointer_messages_have_no_chars messages :
  Forall (λ m, Forall by_pointer (Contents m)) messages → sum_chars messages = 0%Z.
Proof.
  induction 1 as [| m messages Hm _ IH]; simpl; [done |]. rewrite IH. unfold message_chars.
  by rewrite by_pointer_text.
Qed.

Lemma component_chars_sum messages : ∀ i n, let '(s, h, t, u) := component_chars i n messages in
  (s + h + t + u = sum_chars messages ∧ 0 ≤ s ∧ 0 ≤ h ∧ 0 ≤ t ∧ 0 ≤ u)%Z.
Proof.
  induction messages as [| m messages IH]; intros i n; simpl; [lia |].
  specialize (IH (S i) n). destruct (component_chars (S i) n messages) as [[[s h] t] u].
  assert (0 ≤ message_chars m)%Z by (unfold message_chars; lia).
  destruct (bool_decide (i = 0) && _); [lia |]. case_bool_decide; [lia |]. destruct (_ && _); lia.
Qed.

Lemma to_float_id z : (Z.abs z ≤ 2^53)%Z → to_float z = z.
Proof. intros H. unfold to_float. rewrite (proj2 (Z.leb_le _ _)) by done. done. Qed.

Lemma share_exact total chars totalChars : (0 ≤ total)%Z → (0 ≤ chars ≤ totalChars)%Z → (0 < totalChars)%Z →
  (total * totalChars ≤ 2^53)%Z →
  share total chars totalChars = (total * chars / totalChars)%Z ∧ (0 ≤ total * chars / totalChars ≤ total)%Z.
Proof.
  intros Ht Hc Hpos Hb. unfold share.
  assert (0 ≤ total * chars ≤ 2^53)%Z as H by nia. rewrite wrap64_id by (unfold in_int64, min_int64, max_int64; lia).
  rewrite Z.quot_div_nonneg by lia.
  assert (0 ≤ total * chars / totalChars ≤ total)%Z as Hr.
  { split; [apply Z.div_pos; lia |]. apply Z.div_le_upper_bound; nia. }
  split; [| done]. apply to_float_id. assert (total ≤ total * totalChars)%Z by nia. lia.
Qed.

(** The estimate shares out all the tokens and none is negative, for a
    request whose tokens times characters stay below 2^53. *)
Theorem estimate_adds_up messages total skillPromptLength extra :
  let e := BuildInputTokenEstimate messages total skillPromptLength extra in
  let chars := (Z.max 0 extra + sum_chars messages)%Z in
  (0 < total)%Z → (0 < chars)%Z → (0 ≤ skillPromptLength)%Z → (total * chars ≤ 2^53)%Z →
  (SystemPrompt e + Skills e + History e + ToolOutputs e + UserInput e = total ∧
   0 ≤ SystemPrompt e ∧ 0 ≤ Skills e ∧ 0 ≤ History e ∧ 0 ≤ ToolOutputs e ∧ 0 ≤ UserInput e)%Z.
Proof.
  intros e chars Ht Hc Hs Hb. subst e. unfold BuildInputTokenEstimate.
  pose proof (component_chars_sum messages 0 (length messages)) as Hsum.
  destruct (component_chars 0 _ messages) as [[[s h] t] u]. destruct Hsum as (Hsum & ? & ? & ? & ?).
  set (skill := Z.min _ _). set (sys := Z.max 0 (Z.max 0 extra + s - skill)).
  assert (sys + skill + h + t + u = chars)%Z as Hall by (unfold sys, skill, chars; lia).
  assert (0 ≤ sys ∧ 0 ≤ skill)%Z as [? ?] by (unfold sys, skill; lia).
  clearbody skill sys chars. unfold distributeEstimatedTokens. cbv zeta.
  assert (chars ≤ total * chars ∧ total ≤ total * chars)%Z as [? ?] by nia.
  rewrite Hall, wrap64_id by (unfold in_int64, min_int64, max_int64; lia).
  rewrite (proj2 (Z.leb_gt total 0)), (proj2 (Z.leb_gt chars 0)) by lia. cbn [orb].
  destruct (share_exact total sys chars) as [E1 ?]; [lia.. |]. destruct (share_exact total skill chars) as [E2 ?]; [lia.. |].
  destruct (share_exact total h chars) as [E3 ?]; [lia.. |]. destruct (share_exact total t chars) as [E4 ?]; [lia.. |].
  rewrite E1, E2, E3, E4. clear E1 E2 E3 E4.
  assert (total * sys / chars + total * skill / chars + total * h / chars + total * t / chars ≤ total)%Z as Hle.
  { assert (∀ x, (total * x / chars * chars ≤ total * x)%Z) as Hx.
    { intros x. rewrite Z.mul_comm. apply Z.mul_div_le. lia. }
    pose proof (Hx sys). pose proof (Hx skill). pose proof (Hx h). pose proof (Hx t). nia. }
  unfold float_sub. rewrite !(to_float_id total), !(to_float_id (total - _)) by lia.
  rewrite !(to_float_id (total - _ - _)) by lia. rewrite !(to_float_id (total - _ - _ - _)) by lia.
  rewrite !(to_float_id (total - _ - _ - _ - _)) by lia.
  unfold of_float. rewrite !bool_decide_eq_true_2 by (unfold in_int64, min_int64, max_int64; lia). simpl. lia.
Qed.

Lemma estimate_adds_up_witness :
  let e := BuildInputTokenEstimate [MkMessage RoleSystem [TextContent ByValue "You are a helper."];
    MkMessage RoleUser [TextContent ByValue "Hello"]] 7 4 0 in
  (SystemPrompt e + Skills e + History e + ToolOutputs e + UserInput e = 7 ∧
   0 ≤ SystemPrompt e ∧ 0 ≤ Skills e ∧ 0 ≤ History e ∧ 0 ≤ ToolOutputs e ∧ 0 ≤ UserInput e)%Z.
Proof.
  apply (estimate_adds_up [MkMessage RoleSystem [TextContent ByValue "You are a helper."];
    MkMessage RoleUser [TextContent ByValue "Hello"]] 7 4 0); vm_compute; first [reflexivity | intros H; discriminate H].
Defined.

Example markers_are_taken_out :
  BuildTurnContents (λ u, HasPrefix u "https:")
    ("Look:" +:+ newline +:+ "[IMAGE_URL: https://e.org/a.png]" +:+ newline +:+ "[IMAGE:telegram:file_id=x1]") =
  [NewTextContent "Look:"; NewUriContent "https://e.org/a.png" "image/*"; NewTextContent "x1"].
Proof. vm_compute. reflexivity. Qed.
