(* ===== verification/Effects.v ===== *)
(** Effects: a state monad over a world of its own, which records events.

    What the program does not compute itself (tools, models, services) answers
    from the world; what it does to it is in the trace, so that theorems can say
    what happened and in which order.  [adds] and [yields] are the calculus for
    such theorems: the events a computation adds, and with which answer. *)

From S2P Require Import Prelude GoStrings ToolPolicy Chat.
Local Open Scope string_scope.
Local Open Scope list_scope.
Declare Scope effect_scope.
Open Scope effect_scope.

(** A Go error: its text, and whether it is [context.DeadlineExceeded] or
    [context.Canceled] for [errors.Is]. *)
Record go_error := MkError {
  Error : string;
  IsDeadline : bool;
  IsCanceled : bool;
}.
Definition plain_error (text : string) : go_error := MkError text false false.
Definition canceled_error : go_error := MkError "context canceled" false true.

(** ** Effects *)

(** Where something ran. *)
Inductive place := InProcess | OnBackend (key : string) | AsStream | AsMetaSkill.

Inductive event :=
  | EvGovernance (d : GovernanceDecision)
  | EvHook (name : string) (allowed : bool)
  | EvPlan (decision : string) (requiresApproval : bool)
  | EvApproval (tool arguments : string) (approved : bool)
  | EvRun (tool arguments : string) (where_ : place)
  | EvDelta (chunk : string)
  | EvAudit (tool : string) (failed : bool)
  | EvAfter (name : string)
  (** a request to the model: whether for a summary, and the tokens used before *)
  | EvModel (summary : bool) (tokens : Z) (request : list ChatMessage)
  (** a meta skill a tool call started, with the events of its own run *)
  | EvMeta (skill : string) (inner : list event).

(** An event with what happened in it. *)
Fixpoint everything (e : event) : list event :=
  e :: match e with EvMeta _ inner => flat_map everything inner | _ => [] end.

Lemma everything_self e : e ∈ everything e.
Proof. destruct e; left. Qed.

Section State.
Context {W : Type}.

Record state := MkState {
  world : W;
  trace : list event;
}.

Definition M (A : Type) : Type := state → A * state.
#[global] Instance M_ret : MRet M := λ A a s, (a, s).
#[global] Instance M_bind : MBind M := λ A B f m s, let '(a, s') := m s in f a s'.

Definition emit (e : event) : M () := λ s, (tt, MkState (world s) (trace s ++ [e])).
Definition ask {A} (f : W → A * W) : M A := λ s, let '(a, w) := f (world s) in (a, MkState w (trace s)).

(** A meta skill that runs within, with the events it records. *)
Definition run_within (skill : string) (f : W → (string * list event) * W) : M string :=
  λ s, let '((text, inner), w) := f (world s) in (text, MkState w (trace s ++ [EvMeta skill inner])).
End State.
Arguments state W : clear implicits.
Arguments M W A : clear implicits.

(** A computation that may end early with an [E]. *)
Definition try_bind {W E A B} (m : M W (E + A)) (f : A → M W (E + B)) : M W (E + B) :=
  r ← m; match r with inl o => mret (inl o) | inr a => f a end.
Notation "x ←? m ; k" := (try_bind m (λ x, k))
  (at level 20, m at level 100, k at level 200, right associativity) : effect_scope.
Notation "' x ←? m ; k" := (try_bind m (λ y, match y with x => k end))
  (at level 20, x pattern, m at level 100, k at level 200, right associativity) : effect_scope.

(** ** What a computation records *)

(** The events a computation adds. *)
Definition adds {W A} (m : M W A) (s : state W) (P : list event → Prop) : Prop :=
  ∃ evs, trace (m s).2 = trace s ++ evs ∧ P evs.

Lemma adds_ret {W A} (a : A) (s : state W) (P : list event → Prop) : P [] → adds (mret a) s P.
Proof. intros H. exists []. by rewrite app_nil_r. Qed.

Lemma adds_bind {W A B} (m : M W A) (f : A → M W B) (s : state W) (P Q R : list event → Prop) :
  adds m s P → (∀ a s', adds (f a) s' Q) → (∀ l1 l2, P l1 → Q l2 → R (l1 ++ l2)) → adds (m ≫= f) s R.
Proof.
  unfold adds, mbind, M_bind. intros (l1 & H1 & HP) Hf HR. destruct (m s) as [a s1]. simpl in H1.
  destruct (Hf a s1) as (l2 & H2 & HQ). exists (l1 ++ l2). rewrite H2, H1, app_assoc. auto.
Qed.

Lemma adds_weaken {W A} (m : M W A) (s : state W) (P Q : list event → Prop) :
  adds m s P → (∀ l, P l → Q l) → adds m s Q.
Proof. intros (l & H & HP) HQ. exists l. auto. Qed.

(** Case on the condition the computation starts with. *)
Ltac case_head :=
  match goal with |- adds (if ?b then _ else _) _ _ => destruct b end.

(** ** What a computation answers and records *)

Definition yields {W A} (m : M W A) (s : state W) (P : A → list event → Prop) : Prop :=
  ∃ evs, trace (m s).2 = trace s ++ evs ∧ P (m s).1 evs.

Lemma yields_ret {W A} (a : A) (s : state W) (P : A → list event → Prop) : P a [] → yields (mret a) s P.
Proof. intros H. exists []. by rewrite app_nil_r. Qed.

Lemma yields_bind {W A B} (m : M W A) (f : A → M W B) (s : state W) (P : A → list event → Prop)
    (Q : B → list event → Prop) :
  yields m s P → (∀ a l s', P a l → yields (f a) s' (λ b l', Q b (l ++ l'))) → yields (m ≫= f) s Q.
Proof.
  unfold yields, mbind, M_bind. intros (l1 & H1 & HP) Hf. destruct (m s) as [a s1]. simpl in *.
  destruct (Hf a l1 s1 HP) as (l2 & H2 & HQ). exists (l1 ++ l2). by rewrite H2, H1, app_assoc.
Qed.

Lemma yields_ask {W A} (f : W → A * W) (s : state W) (P : A → list event → Prop) :
  P (f (world s)).1 [] → yields (ask f) s P.
Proof. intros H. exists []. unfold ask. destruct (f (world s)). simpl. by rewrite app_nil_r. Qed.

Lemma yields_emit {W} e (s : state W) (P : () → list event → Prop) : P tt [e] → yields (emit e) s P.
Proof. intros H. by exists [e]. Qed.

Lemma yields_within {W} skill (f : W → (string * list event) * W) (s : state W) (P : string → list event → Prop) :
  P (f (world s)).1.1 [EvMeta skill (f (world s)).1.2] → yields (run_within skill f) s P.
Proof. intros H. exists [EvMeta skill (f (world s)).1.2]. unfold run_within. by destruct (f (world s)) as [[text inner] w]. Qed.

Lemma yields_weaken {W A} (m : M W A) (s : state W) (P Q : A → list event → Prop) :
  yields m s P → (∀ a l, P a l → Q a l) → yields m s Q.
Proof. intros (l & H & HP) HQ. exists l. auto. Qed.

Lemma yields_and {W A} (m : M W A) (s : state W) (P Q : A → list event → Prop) :
  yields m s P → yields m s Q → yields m s (λ a l, P a l ∧ Q a l).
Proof. intros (l & H & HP) (l' & H' & HQ). exists l. rewrite H in H'. apply app_inv_head in H' as <-. done. Qed.

Lemma adds_yields {W A} (m : M W A) (s : state W) (P : list event → Prop) : adds m s P → yields m s (λ _, P).
Proof. done. Qed.

(** A step of [try_bind]: what a refusal leaves, and how the call goes on. *)
Lemma yields_try {W E A B} (m : M W (E + A)) (f : A → M W (E + B)) (s : state W)
    (P : E + A → list event → Prop) (Q : E + B → list event → Prop) :
  yields m s P → (∀ o l, P (inl o) l → Q (inl o) l) →
  (∀ a l s', P (inr a) l → yields (f a) s' (λ b l', Q b (l ++ l'))) → yields (try_bind m f) s Q.
Proof.
  intros Hm Hl Hr. unfold try_bind. eapply yields_bind; [exact Hm |]. intros [o | a] l s' HP; [| by apply Hr].
  apply yields_ret. rewrite app_nil_r. by apply Hl.
Qed.

(** Case on the condition the computation starts with. *)
Ltac case_yields :=
  match goal with |- yields (if ?b then _ else _) _ _ => destruct b end.

(** ** What a computation answers *)

Definition answers {W A} (m : M W A) (P : A → Prop) : Prop := ∀ s, P (m s).1.

Lemma answers_ret {W A} (a : A) (P : A → Prop) : P a → answers (W := W) (mret a) P.
Proof. by intros H s. Qed.
Lemma answers_bind {W A B} (m : M W A) (f : A → M W B) (P : B → Prop) : (∀ a, answers (f a) P) → answers (m ≫= f) P.
Proof. intros Hf s. unfold mbind, M_bind. destruct (m s) as [a s']. apply Hf. Qed.
Lemma answers_then {W A B} (m : M W A) (f : A → M W B) (P : A → Prop) (Q : B → Prop) :
  answers m P → (∀ a, P a → answers (f a) Q) → answers (m ≫= f) Q.
Proof. intros Hm Hf s. unfold mbind, M_bind. specialize (Hm s). destruct (m s) as [a s']. by apply Hf. Qed.
Lemma answers_try {W E A B} (m : M W (E + A)) (f : A → M W (E + B)) (P : E + B → Prop) :
  answers m (λ r, match r with inl e => P (inl e) | inr a => answers (f a) P end) → answers (try_bind m f) P.
Proof. intros Hm s. unfold try_bind, mbind, M_bind. specialize (Hm s). destruct (m s) as [[e | a] s']; [done | apply Hm]. Qed.
Lemma answers_weaken {W A} (m : M W A) (P Q : A → Prop) : answers m P → (∀ a, P a → Q a) → answers m Q.
Proof. intros H HPQ s. apply HPQ, H. Qed.

(** One step at a time, case by case. *)
Ltac answering := repeat first [apply answers_ret; done | apply answers_bind; intros | case_match].

(** ** Safe computations *)

(** The requests to the model. *)
Definition model_calls (evs : list event) : nat := sum_list_with (λ e, match e with EvModel _ _ _ => 1 | _ => 0 end) evs.

(** Every event is fine, the model is asked at most [n] times, and the answer
    satisfies [P]. *)
Definition safe {W A} (ok : event → Prop) (n : nat) (m : M W A) (s : state W) (P : A → Prop) : Prop :=
  yields m s (λ a evs, Forall ok evs ∧ (model_calls evs ≤ n)%nat ∧ P a).

Section Safe.
Context {W : Type} (ok : event → Prop).

Lemma safe_weaken {A} n n' (m : M W A) s (P Q : A → Prop) :
  safe ok n m s P → (n ≤ n')%nat → (∀ a, P a → Q a) → safe ok n' m s Q.
Proof. intros H Hn HPQ. eapply yields_weaken; [exact H |]. intros a l (? & ? & ?). split_and!; [done | lia | auto]. Qed.

Lemma safe_ret {A} n (a : A) (s : state W) (P : A → Prop) : P a → safe ok n (mret a) s P.
Proof. intros H. apply yields_ret. split_and!; [done | simpl; lia | done]. Qed.

Lemma safe_bind {A B} n1 n2 n (m : M W A) (f : A → M W B) s (P : A → Prop) (Q : B → Prop) :
  safe ok n1 m s P → (∀ a s', P a → safe ok n2 (f a) s' Q) → (n1 + n2 ≤ n)%nat → safe ok n (m ≫= f) s Q.
Proof.
  intros Hm Hf Hn. eapply yields_bind; [exact Hm |]. intros a l s' (Hl & Hc & HP).
  eapply yields_weaken; [by apply Hf |]. intros b l' (Hl' & Hc' & HQ). split_and!; [by apply Forall_app | | done].
  unfold model_calls in *. rewrite sum_list_with_app. lia.
Qed.

Lemma safe_asked {A} n (g : W → A * W) s : safe ok n (ask g) s (λ _, True).
Proof. apply yields_ask. split; [done |]. split; [apply Nat.le_0_l | done]. Qed.

Lemma safe_ask {A B} n (g : W → A * W) (f : A → M W B) s (Q : B → Prop) :
  (∀ a s', safe ok n (f a) s' Q) → safe ok n (ask g ≫= f) s Q.
Proof.
  intros Hf. eapply (safe_bind 0 n n _ _ _ (λ _, True)); [| by intros; apply Hf | lia].
  apply safe_asked.
Qed.

Lemma safe_emit {B} n summary tokens request (f : () → M W B) s (Q : B → Prop) :
  ok (EvModel summary tokens request) → (∀ s', safe ok n (f tt) s' Q) →
  safe ok (S n) (emit (EvModel summary tokens request) ≫= f) s Q.
Proof.
  intros Hok Hf. eapply (safe_bind 1 n (S n) _ _ _ (λ _, True)); [| by intros [] s' _; apply Hf | lia].
  apply yields_emit. split_and!; [by constructor | simpl; lia | done].
Qed.

Lemma safe_try {E A B} n1 n2 n (m : M W (E + A)) (f : A → M W (E + B)) s (P : E + A → Prop) (Q : E + B → Prop) :
  safe ok n1 m s P → (∀ o, P (inl o) → Q (inl o)) → (∀ a s', P (inr a) → safe ok n2 (f a) s' Q) → (n1 + n2 ≤ n)%nat →
  safe ok n (try_bind m f) s Q.
Proof.
  intros Hm Hl Hr Hn. unfold try_bind. eapply safe_bind; [exact Hm | | exact Hn]. intros [o | a] s' HP; [| by apply Hr].
  by apply safe_ret, Hl.
Qed.

(** The first part does not ask the model. *)
Lemma safe_then {A B} n (m : M W A) (f : A → M W B) s (P : A → Prop) (Q : B → Prop) :
  safe ok 0 m s P → (∀ a s', P a → safe ok n (f a) s' Q) → safe ok n (m ≫= f) s Q.
Proof. intros Hm Hf. by eapply safe_bind; [exact Hm | exact Hf |]. Qed.

Lemma safe_try_then {E A B} n (m : M W (E + A)) (f : A → M W (E + B)) s (P : E + A → Prop) (Q : E + B → Prop) :
  safe ok 0 m s P → (∀ o, P (inl o) → Q (inl o)) → (∀ a s', P (inr a) → safe ok n (f a) s' Q) →
  safe ok n (try_bind m f) s Q.
Proof. intros Hm Hl Hr. by eapply safe_try; [exact Hm | exact Hl | exact Hr |]. Qed.
End Safe.
