(* ===== verification/ToolRouting.v ===== *)
(** Where a tool call runs: [ExecuteToolWithRouting] of
    [openclaw/agent/tool_executor.go], the [ToolExecutionRouter] of
    [openclaw/agent/execution.go] and the sandbox settings of
    [openclaw/core/sandbox_config.go].

    Tools and execution backends are not part of it: they answer through the
    class [ToolWorld], on a world of their own. *)

From S2P Require Import Prelude GoStrings Json ToolPolicy Effects.
Local Open Scope string_scope.
Local Open Scope list_scope.

(** ** Data *)

Inductive ToolSandboxMode := ToolSandboxModeNone | ToolSandboxModePrefer | ToolSandboxModeRequire.
#[export] Instance ToolSandboxMode_eq_dec : EqDecision ToolSandboxMode.
Proof. solve_decision. Defined.

Record SandboxExecutionRequest := MkSandboxRequest {
  SbCommand : string;
  SbWorkingDirectory : string;
  SbArguments : list string;
  SbLeaseKey : string;
  SbTemplate : string;
  SbTimeToLiveSeconds : Z;
}.

Record SandboxResult := MkSandboxResult {
  SbExitCode : Z;
  SbStdout : string;
  SbStderr : string;
}.

Record ISandboxCapableTool := MkSandboxCapable {
  DefaultSandboxMode : ToolSandboxMode;
  CreateSandboxRequest : string → SandboxExecutionRequest + go_error;
  FormatSandboxResult : string → SandboxResult → string;
}.

Record IToolLocalExecutionPolicy := MkLocalPolicy {
  LocalExecutionSupported : bool;
  LocalExecutionUnavailableFailureCode : string;
  LocalExecutionUnavailableMessage : string;
}.

(** A tool with the optional interfaces it implements.  A descriptor provider
    may answer nil. *)
Record ITool := MkTool {
  ToolName : string;
  ToolDescription : string;
  ActionDescriptorProvider : option (string → option ToolActionDescriptor);
  Sandbox : option ISandboxCapableTool;
  LocalPolicy : option IToolLocalExecutionPolicy;
  IsStreamingTool : bool;
}.

Record ExecutionToolRouteConfig := MkRoute {
  Backend : string;
  FallbackBackend : string;
  RequireWorkspace : bool;
}.

Record ExecutionBackendProfileConfig := MkProfile {
  ProfileType : string;
  Image : string;
}.

Record SandboxToolConfig := MkSandboxTool {
  Mode : string;
  Template : string;
  TTL : option Z;
}.

(** The settings of [GatewayConfig] the executor and its router read. *)
Record GatewayConfig := MkConfig {
  ExecutionEnabled : bool;
  DefaultBackend : string;
  Profiles : gmap string ExecutionBackendProfileConfig;
  ExecutionTools : gmap string ExecutionToolRouteConfig;
  SandboxProvider : string;
  SandboxTools : gmap string SandboxToolConfig;
  SandboxDefaultTTL : Z;
  WorkspaceRoot : string;
  ApprovalRequiredTools : list string;
}.

Record ExecutionRequest := MkExecRequest {
  ReqToolName : string;
  ReqBackendName : string;
  ReqCommand : string;
  ReqArguments : list string;
  ReqLeaseKey : string;
  ReqWorkingDirectory : string;
  ReqTemplate : string;
  ReqTimeToLiveSeconds : Z;
  ReqRequireWorkspace : bool;
  ReqAllowLocalFallback : bool;
}.

Record ExecutionResult := MkExecResult {
  ExitCode : Z;
  Stdout : string;
  Stderr : string;
  TimedOut : bool;
  FallbackUsed : bool;
}.

(** What the tools, backends and services of an executor do. *)
Class ToolWorld (W : Type) := {
  (** [InvokeTool]: a tool in this process, with a time limit or without *)
  invoke_tool : ITool → string → option Z → W → (string + go_error) * W;
  (** [IExecutionBackend.Execute] of the backend registered under a key *)
  backend_execute : string → ExecutionRequest → W → (ExecutionResult + go_error) * W;
}.

(** ** Sandbox settings *)

Definition SandboxProviderNamesNormalize (provider : string) : string :=
  let trimmed := TrimSpace provider in if bool_decide (trimmed = "") then "None" else trimmed.

Definition IsOpenSandboxProviderConfigured (config : GatewayConfig) : bool :=
  EqualFold (SandboxProviderNamesNormalize (SandboxProvider config)) "OpenSandbox".

Definition TryParseMode (value : string) : ToolSandboxMode * bool :=
  let trimmed := TrimSpace value in
  if bool_decide (trimmed = "") then (ToolSandboxModeNone, false)
  else if EqualFold trimmed "None" then (ToolSandboxModeNone, true)
  else if EqualFold trimmed "Prefer" then (ToolSandboxModePrefer, true)
  else if EqualFold trimmed "Require" then (ToolSandboxModeRequire, true)
  else (ToolSandboxModeNone, false).

(** The effective mode of [ResolveModeDetailed]; the rest of its result is for
    the log. *)
Definition ResolveModeDetailed (config : GatewayConfig) (toolName : string) (defaultMode : ToolSandboxMode)
    : ToolSandboxMode :=
  let provider := SandboxProviderNamesNormalize (SandboxProvider config) in
  let configured :=
    match SandboxTools config !! toolName with
    | Some toolConfig => if bool_decide (Mode toolConfig = "") then None else Some (TryParseMode (Mode toolConfig)).1
    | None => None
    end in
  if EqualFold provider "None" then ToolSandboxModeNone else default defaultMode configured.

Definition ResolveTemplate (config : GatewayConfig) (toolName : string) : string :=
  match SandboxTools config !! toolName with Some t => Template t | None => "" end.

Definition ResolveTimeToLiveSeconds (config : GatewayConfig) (toolName : string) (requested : Z) : Z :=
  if (0 <? requested)%Z then requested
  else
    match SandboxTools config !! toolName ≫= TTL with
    | Some ttl => if (0 <? ttl)%Z then ttl else SandboxDefaultTTL config
    | None => SandboxDefaultTTL config
    end.

(** ** [ToolExecutionRouter] *)

Definition tryResolveConfiguredRoute (config : GatewayConfig) (toolName : string)
    : option (ExecutionToolRouteConfig * option string) :=
  if ExecutionEnabled config then
    match ExecutionTools config !! toolName with
    | Some route =>
        if bool_decide (TrimSpace (Backend route) = "") then None
        else
          let template :=
            match Profiles config !! Backend route with
            | Some profile => if bool_decide (Image profile = "") then None else Some (Image profile)
            | None => None
            end in
          Some (route, template)
    | None => None
    end
  else None.

(** [route, template, legacySandboxRoute, sandboxMode]; [None] is [ok == false]. *)
Definition TryResolveRoute (config : GatewayConfig) (tool : ITool)
    : option (option ExecutionToolRouteConfig * option string * bool * ToolSandboxMode) :=
  match tryResolveConfiguredRoute config (ToolName tool) with
  | Some (route, template) => Some (Some route, template, false, ToolSandboxModeNone)
  | None =>
      match Sandbox tool with
      | None => None
      | Some sandboxCapable =>
          let sandboxMode := ResolveModeDetailed config (ToolName tool) (DefaultSandboxMode sandboxCapable) in
          if bool_decide (sandboxMode = ToolSandboxModeNone) then None
          else if negb (IsOpenSandboxProviderConfigured config) then Some (None, None, false, sandboxMode)
          else Some (Some (MkRoute "opensandbox" "" false), Some (ResolveTemplate config (ToolName tool)), true, sandboxMode)
      end
  end.

Definition RequiresWorkspace (config : GatewayConfig) (backendName : string) : bool :=
  match Profiles config !! backendName with
  | Some profile => EqualFold (ProfileType profile) "docker" || EqualFold (ProfileType profile) "ssh"
  | None => false
  end.

Section Routing.
Context {W : Type} {TW : ToolWorld W}.
(** Lower case of a non-ASCII rune, and folding of two strings. *)
Context (lower_rune : N → N).

(** [OpenClawToolExecutor], the part routing uses: the backends of its router by
    key, whether it has a sandbox, and its time limit. *)
Context (config : GatewayConfig) (backends : gset string) (hasSandbox : bool) (toolTimeout : Z).

(** A backend runs in this process when it is the local one. *)
Definition on_backend (tool arguments key : string) (request : ExecutionRequest) : M W (ExecutionResult + go_error) :=
  emit (EvRun tool arguments (OnBackend key));; ask (backend_execute key request).

(** [ToolExecutionRouter.Execute].  The fallback request is the request itself,
    with its backend name overwritten. *)
Definition router_Execute (arguments : string) (request : ExecutionRequest) (fallbackBackend : string)
    : M W (ExecutionResult + go_error) :=
  let backendKey := ToLower lower_rune (ReqBackendName request) in
  if bool_decide (backendKey ∈ backends) then
    res ← on_backend (ReqToolName request) arguments backendKey request;
    match res with
    | inl r => mret (inl r)
    | inr err =>
        if bool_decide (TrimSpace fallbackBackend = "") then mret (inr err)
        else
          let fallbackKey := ToLower lower_rune fallbackBackend in
          let canFallbackToLocal := ReqAllowLocalFallback request || negb (EqualFold fallbackBackend "local") in
          if bool_decide (fallbackKey ∈ backends) && canFallbackToLocal then
            let fallbackReq :=
              MkExecRequest (ReqToolName request) fallbackBackend (ReqCommand request) (ReqArguments request)
                (ReqLeaseKey request) (ReqWorkingDirectory request) (ReqTemplate request)
                (ReqTimeToLiveSeconds request) (ReqRequireWorkspace request) (ReqAllowLocalFallback request) in
            fallbackResult ← on_backend (ReqToolName request) arguments fallbackKey fallbackReq;
            match fallbackResult with
            | inl r => mret (inl (MkExecResult (ExitCode r) (Stdout r) (Stderr r) (TimedOut r) true))
            | inr _ => mret (inr err)
            end
          else mret (inr err)
    end
  else mret (inr (plain_error ("execution backend '" +:+ ReqBackendName request +:+ "' is not configured"))).

(** ** [ExecuteToolWithRouting] *)

Definition IsLocalExecutionDisabled (tool : ITool) : bool :=
  match LocalPolicy tool with Some policy => negb (LocalExecutionSupported policy) | None => false end.

Definition GetLocalExecutionUnavailableMessage (tool : ITool) : string :=
  match LocalPolicy tool with
  | Some policy =>
      if LocalExecutionSupported policy
      then "Error: Tool '" +:+ ToolName tool +:+
             "' requires a configured execution backend or sandbox in this runtime. Local execution is unavailable."
      else LocalExecutionUnavailableMessage policy
  | None => "Error: Tool '" +:+ ToolName tool +:+
              "' requires a configured execution backend or sandbox in this runtime. Local execution is unavailable."
  end.

Definition ToolFailureCodesRuntimeCapabilityUnavailable : string := "runtime_capability_unavailable".

Definition GetLocalExecutionUnavailableFailureCode (tool : ITool) : string :=
  match LocalPolicy tool with
  | Some policy =>
      if LocalExecutionSupported policy then ToolFailureCodesRuntimeCapabilityUnavailable
      else LocalExecutionUnavailableFailureCode policy
  | None => ToolFailureCodesRuntimeCapabilityUnavailable
  end.

(** [strings.Join(..., "\n")] of the message and the code *)
Definition CreateLocalExecutionUnavailableException (tool : ITool) : go_error :=
  plain_error (GetLocalExecutionUnavailableMessage tool +:+ String (ascii_of_nat 10) "" +:+
                GetLocalExecutionUnavailableFailureCode tool).

Definition ExecuteToolWithTimeout (tool : ITool) (argsJson : string) : M W (string + go_error) :=
  emit (EvRun (ToolName tool) argsJson InProcess);;
  ask (invoke_tool tool argsJson (if (toolTimeout <=? 0)%Z then None else Some toolTimeout)).

Definition tool_error (tool : ITool) (text : string) : go_error :=
  plain_error ("Error: Tool '" +:+ ToolName tool +:+ "' " +:+ text).

Definition handleToolExecutorError (legacySandboxRoute : bool) (route : option ExecutionToolRouteConfig) (tool : ITool)
    (backendName : string) (sandboxMode : ToolSandboxMode) (argsJson : string) (err : go_error)
    : M W (string + go_error) :=
  let has_fallback := match route with Some r => negb (bool_decide (FallbackBackend r = "")) | None => false end in
  if legacySandboxRoute || has_fallback then
    if IsLocalExecutionDisabled tool then
      mret (inr (if legacySandboxRoute
                 then tool_error tool "requires sandboxing but the sandbox provider is unavailable."
                 else tool_error tool ("requires execution backend '" +:+ backendName +:+
                                         "' but the provider is unavailable.")))
    else if bool_decide (sandboxMode = ToolSandboxModeRequire)
    then mret (inr (tool_error tool "requires sandboxing but the sandbox provider is unavailable."))
    else ExecuteToolWithTimeout tool argsJson
  else mret (inr err).

(** The end of [ExecuteToolWithRouting]: the sandbox request and its execution. *)
Definition execute_on_backend (tool : ITool) (sandboxCapableTool : ISandboxCapableTool) (argsJson sessionId : string)
    (route : option ExecutionToolRouteConfig) (template : option string) (legacySandboxRoute : bool)
    (sandboxMode : ToolSandboxMode) (backendName fallbackBackend : string) (requireWorkspace : bool)
    : M W (string + go_error) :=
  match CreateSandboxRequest sandboxCapableTool argsJson with
  | inr err => handleToolExecutorError legacySandboxRoute route tool backendName sandboxMode argsJson err
  | inl q =>
      let leaseKey := if bool_decide (SbLeaseKey q = "") then sessionId +:+ ":" +:+ ToolName tool else SbLeaseKey q in
      let tmpl := if bool_decide (SbTemplate q = "") then default (SbTemplate q) template else SbTemplate q in
      let ttl := ResolveTimeToLiveSeconds config (ToolName tool) (SbTimeToLiveSeconds q) in
      executionResult ←
        router_Execute argsJson
          (MkExecRequest (ToolName tool) backendName (SbCommand q) (SbArguments q) leaseKey
             (SbWorkingDirectory q) tmpl ttl requireWorkspace (negb (IsLocalExecutionDisabled tool)))
          fallbackBackend;
      match executionResult with
      | inr err => handleToolExecutorError legacySandboxRoute route tool backendName sandboxMode argsJson err
      | inl r =>
          mret (inl (FormatSandboxResult sandboxCapableTool argsJson
                       (MkSandboxResult (ExitCode r) (Stdout r) (Stderr r))))
      end
  end.

Definition ExecuteToolWithRouting (tool : ITool) (argsJson sessionId : string) : M W (string + go_error) :=
  match TryResolveRoute config tool with
  | None =>
      if IsLocalExecutionDisabled tool then mret (inr (CreateLocalExecutionUnavailableException tool))
      else ExecuteToolWithTimeout tool argsJson
  | Some (route, template, legacySandboxRoute, sandboxMode) =>
      match Sandbox tool with
      | None => ExecuteToolWithTimeout tool argsJson
      | Some sandboxCapableTool =>
          let backendName :=
            match route with
            | Some r => if bool_decide (Backend r = "") then DefaultBackend config else Backend r
            | None => DefaultBackend config
            end in
          let fallbackBackend := match route with Some r => FallbackBackend r | None => "" end in
          let requireWorkspace := match route with Some r => RequireWorkspace r | None => false end in
          let no_route := match route with None => true | _ => false end in
          if bool_decide (sandboxMode = ToolSandboxModeRequire) && negb legacySandboxRoute && no_route
          then mret (inr (tool_error tool "requires sandboxing but no sandbox provider is configured."))
          else if bool_decide (backendName = "local") && IsLocalExecutionDisabled tool
          then mret (inr (CreateLocalExecutionUnavailableException tool))
          else if bool_decide (backendName = "local") && negb legacySandboxRoute
          then ExecuteToolWithTimeout tool argsJson
          else if RequiresWorkspace config backendName && negb (bool_decide (WorkspaceRoot config = ""))
          then mret (inr (tool_error tool ("is configured to use execution backend '" +:+ backendName +:+
                                             "' but Tooling.WorkspaceRoot is not set.")))
          else if legacySandboxRoute && match template with Some t => negb (bool_decide (t = "")) | None => false end &&
                  negb (bool_decide (fallbackBackend = ""))
          then mret (inr (tool_error tool "requires sandboxing but no sandbox template is configured."))
          else if legacySandboxRoute && negb hasSandbox
          then mret (inr (tool_error tool "requires sandboxing but no sandbox provider is configured."))
          else
            execute_on_backend tool sandboxCapableTool argsJson sessionId route template legacySandboxRoute sandboxMode
              backendName fallbackBackend requireWorkspace
      end
  end.
End Routing.

(** ** What runs where *)

(** Only runs of [name] on [args], at places that satisfy [Q]. *)
Definition runs_at (name args : string) (Q : place → Prop) (evs : list event) : Prop :=
  Forall (λ e, ∃ p, e = EvRun name args p ∧ Q p) evs.

Lemma runs_at_app name args Q l1 l2 : runs_at name args Q l1 → runs_at name args Q l2 → runs_at name args Q (l1 ++ l2).
Proof. apply Forall_app_2. Qed.

Section RoutingSpec.
Context {W : Type} {TW : ToolWorld W} (lower_rune : N → N).
Context (config : GatewayConfig) (backends : gset string) (hasSandbox : bool) (toolTimeout : Z).

Lemma ExecuteToolWithTimeout_runs tool args (Q : place → Prop) (s : state W) :
  Q InProcess → adds (ExecuteToolWithTimeout toolTimeout tool args) s (runs_at (ToolName tool) args Q).
Proof.
  intros HQ. unfold adds, ExecuteToolWithTimeout, mbind, M_bind, emit, ask. simpl.
  destruct (invoke_tool _ _ _ _). exists [EvRun (ToolName tool) args InProcess]. split; [done |].
  repeat constructor. eauto.
Qed.

Lemma on_backend_runs tool args key q (Q : place → Prop) (s : state W) :
  Q (OnBackend key) → adds (on_backend tool args key q) s (runs_at tool args Q).
Proof.
  intros HQ. unfold adds, on_backend, mbind, M_bind, emit, ask. simpl.
  destruct (backend_execute _ _ _). exists [EvRun tool args (OnBackend key)]. split; [done |].
  repeat constructor. eauto.
Qed.

(** The router runs a request on its own backend, and on the fallback. *)
Lemma router_Execute_runs args q fallback (Q : place → Prop) (s : state W) :
  Q (OnBackend (ToLower lower_rune (ReqBackendName q))) →
  (TrimSpace fallback ≠ "" → Q (OnBackend (ToLower lower_rune fallback))) →
  adds (router_Execute lower_rune backends args q fallback) s (runs_at (ReqToolName q) args Q).
Proof.
  intros H1 H2. unfold router_Execute. case_bool_decide; [| apply adds_ret; constructor].
  eapply adds_bind; [by apply on_backend_runs | | apply runs_at_app].
  intros [r | err] s1; [apply adds_ret; constructor |]. case_bool_decide; [apply adds_ret; constructor |].
  destruct (bool_decide _ && _); [| apply adds_ret; constructor].
  eapply adds_bind; [by apply on_backend_runs, H2 | | apply runs_at_app].
  intros [r | ?] s2; apply adds_ret; constructor.
Qed.

Lemma handleToolExecutorError_runs legacy route tool backendName mode args err (Q : place → Prop) (s : state W) :
  (IsLocalExecutionDisabled tool = false → mode ≠ ToolSandboxModeRequire → Q InProcess) →
  adds (handleToolExecutorError toolTimeout legacy route tool backendName mode args err) s
    (runs_at (ToolName tool) args Q).
Proof.
  intros HQ. unfold handleToolExecutorError. case_match; [| apply adds_ret; constructor].
  destruct (IsLocalExecutionDisabled tool); [apply adds_ret; constructor |].
  case_bool_decide; [apply adds_ret; constructor |]. by apply ExecuteToolWithTimeout_runs, HQ.
Qed.

Lemma execute_on_backend_runs tool capable args sessionId route template legacy mode backendName fallback ws
    (Q : place → Prop) (s : state W) :
  Q (OnBackend (ToLower lower_rune backendName)) →
  (TrimSpace fallback ≠ "" → Q (OnBackend (ToLower lower_rune fallback))) →
  (IsLocalExecutionDisabled tool = false → mode ≠ ToolSandboxModeRequire → Q InProcess) →
  adds (execute_on_backend lower_rune config backends toolTimeout tool capable args sessionId route template legacy mode
          backendName fallback ws) s (runs_at (ToolName tool) args Q).
Proof.
  intros H1 H2 H3. unfold execute_on_backend.
  destruct (CreateSandboxRequest capable args); [| by apply handleToolExecutorError_runs].
  eapply adds_bind; [by apply router_Execute_runs | | apply runs_at_app].
  intros [r | err] s1; [apply adds_ret; constructor |]. by apply handleToolExecutorError_runs.
Qed.

(** C9: a tool whose sandbox mode is [Require], and for which no execution
    route is configured, never runs anywhere but in the sandbox, whatever fails
    on the way. *)
Theorem required_sandbox_is_kept tool capable args sessionId (s : state W) :
  Sandbox tool = Some capable →
  ResolveModeDetailed config (ToolName tool) (DefaultSandboxMode capable) = ToolSandboxModeRequire →
  tryResolveConfiguredRoute config (ToolName tool) = None →
  adds (ExecuteToolWithRouting lower_rune config backends hasSandbox toolTimeout tool args sessionId) s
    (runs_at (ToolName tool) args (λ p, p = OnBackend "opensandbox")).
Proof.
  intros Hcap Hmode Hroute. unfold ExecuteToolWithRouting, TryResolveRoute. rewrite Hroute, Hcap, Hmode.
  rewrite bool_decide_eq_false_2 by done. destruct (IsOpenSandboxProviderConfigured config); [| by apply adds_ret; constructor].
  cbn [negb Backend FallbackBackend RequireWorkspace].
  rewrite (bool_decide_eq_false_2 ("opensandbox" = "")), (bool_decide_eq_false_2 ("opensandbox" = "local")) by done.
  cbn [andb]. cbv iota. repeat (case_head; [by apply adds_ret; constructor |]).
  apply execute_on_backend_runs; [reflexivity | by intros [] | done].
Qed.

(** A tool that can run in a sandbox and must not run locally is never run in
    this process. *)
Theorem disabled_local_execution_is_kept tool capable args sessionId (s : state W) :
  Sandbox tool = Some capable → IsLocalExecutionDisabled tool = true →
  adds (ExecuteToolWithRouting lower_rune config backends hasSandbox toolTimeout tool args sessionId) s
    (runs_at (ToolName tool) args (λ p, p ≠ InProcess)).
Proof.
  intros Hcap Hdis. unfold ExecuteToolWithRouting. rewrite Hcap, Hdis.
  destruct (TryResolveRoute config tool) as [[[[route template] legacy] mode] |]; [| by apply adds_ret; constructor].
  cbv zeta. case_match; [by apply adds_ret; constructor |]. rewrite andb_true_r.
  destruct (bool_decide (_ = "local")); [by apply adds_ret; constructor |]. cbn [andb]. cbv iota.
  repeat (case_head; [by apply adds_ret; constructor |]).
  apply execute_on_backend_runs; [done | done |]. by rewrite Hdis.
Qed.

(** An error of the router changes nothing else. *)
Lemma router_Execute_fails args q fallback (s : state W) :
  (∀ key r w, ∃ err w', backend_execute key r w = (inr err, w')) →
  ∃ err evs w, router_Execute lower_rune backends args q fallback s = (inr err, MkState w (trace s ++ evs)).
Proof.
  intros Hfail. assert (∀ key r (s0 : state W), ∃ err w,
    on_backend (ReqToolName q) args key r s0 =
      (inr err, MkState w (trace s0 ++ [EvRun (ReqToolName q) args (OnBackend key)]))) as Hon.
  { intros key r s0. destruct (Hfail key r (world s0)) as (err & w & He). exists err, w.
    unfold on_backend, mbind, M_bind, emit, ask. simpl. by rewrite He. }
  unfold router_Execute. case_bool_decide.
  2: { eexists _, [], (world s). rewrite app_nil_r. by destruct s. }
  destruct (Hon (ToLower lower_rune (ReqBackendName q)) q s) as (err & w & H1).
  unfold mbind, M_bind at 1. rewrite H1. case_bool_decide; [by eexists _, _, _ |].
  destruct (bool_decide _ && _); [| by eexists _, _, _]. cbv zeta.
  set (q2 := MkExecRequest _ _ _ _ _ _ _ _ _ _).
  destruct (Hon (ToLower lower_rune fallback) q2 (MkState w (trace s ++
    [EvRun (ReqToolName q) args (OnBackend (ToLower lower_rune (ReqBackendName q)))]))) as (err2 & w2 & H2).
  unfold M_bind. rewrite H2. simpl. rewrite <- app_assoc. by eexists _, _, _.
Qed.

(** A tool routed to a backend with a fallback is run in the gateway's own
    process when its backends fail, whatever sandbox mode is set for it. *)
Theorem failed_backends_run_in_process tool capable args sessionId route template q (s : state W) :
  Sandbox tool = Some capable → IsLocalExecutionDisabled tool = false →
  tryResolveConfiguredRoute config (ToolName tool) = Some (route, template) →
  FallbackBackend route ≠ "" → Backend route ≠ "local" →
  RequiresWorkspace config (Backend route) && negb (bool_decide (WorkspaceRoot config = "")) = false →
  CreateSandboxRequest capable args = inl q →
  (∀ key r w, ∃ err w', backend_execute key r w = (inr err, w')) →
  ∃ evs, trace (ExecuteToolWithRouting lower_rune config backends hasSandbox toolTimeout tool args sessionId s).2 =
    trace s ++ evs ++ [EvRun (ToolName tool) args InProcess].
Proof.
  intros Hcap Hloc Hroute Hfb Hbk Hws Hreq Hfail. unfold ExecuteToolWithRouting, TryResolveRoute.
  rewrite Hroute, Hcap, Hloc. cbv zeta. assert (Backend route ≠ "") as Hne.
  { unfold tryResolveConfiguredRoute in Hroute. intros He. destruct (ExecutionEnabled config); [| done].
    destruct (ExecutionTools config !! ToolName tool) as [r |]; [| done].
    destruct (bool_decide (TrimSpace (Backend r) = "")) eqn:Hb; [done |]. simplify_eq. by rewrite He in Hb. }
  rewrite (bool_decide_eq_false_2 (Backend route = "")), (bool_decide_eq_false_2 (Backend route = "local")), Hws by done.
  cbn [andb negb]. rewrite andb_false_r. cbv iota. unfold execute_on_backend. rewrite Hreq. cbv zeta. set (q' := MkExecRequest _ _ _ _ _ _ _ _ _ _).
  destruct (router_Execute_fails args q' (FallbackBackend route) s Hfail) as (err & evs & w & Hr).
  unfold mbind, M_bind. rewrite Hr. unfold handleToolExecutorError.
  rewrite (bool_decide_eq_false_2 (FallbackBackend route = "")), Hloc by done. simpl.
  unfold ExecuteToolWithTimeout, mbind, M_bind, emit, ask. simpl. destruct (invoke_tool _ _ _ _). simpl.
  exists evs. by rewrite app_assoc.
Qed.
End RoutingSpec.

(** ** A tool in a container *)

(** Backends that are down; tools answer their arguments. *)
Definition down_world {W} : ToolWorld W := {|
  invoke_tool _ args _ w := (inl args, w);
  backend_execute _ _ w := (inr (plain_error "connection refused"), w);
|}.

Definition code_exec (mode : ToolSandboxMode) : ITool :=
  MkTool "code_exec" "Runs code" None
    (Some (MkSandboxCapable mode (λ args, inl (MkSandboxRequest "python" "" [args] "" "" 0)) (λ _ r, SbStdout r)))
    None false.

Definition sandbox_config (provider : string) (routes : gmap string ExecutionToolRouteConfig) : GatewayConfig :=
  MkConfig true "local" ∅ routes provider {["code_exec" := MkSandboxTool "require" "" None]} 300 "" [].

Lemma required_sandbox_is_kept_witness :
  adds (W := ()) (ExecuteToolWithRouting (TW := down_world) (λ r, r) (sandbox_config "OpenSandbox" ∅) {["local"; "opensandbox"]}
    true 30 (code_exec ToolSandboxModePrefer) "{}" "s1") (MkState tt [])
    (runs_at "code_exec" "{}" (λ p, p = OnBackend "opensandbox")).
Proof.
  apply (required_sandbox_is_kept (TW := down_world) (λ r, r) (sandbox_config "OpenSandbox" ∅) {["local"; "opensandbox"]}
    true 30 (code_exec ToolSandboxModePrefer) _ "{}" "s1" (MkState tt []) eq_refl); vm_compute; reflexivity.
Defined.

Lemma failed_backends_run_in_process_witness :
  ∃ evs, trace (ExecuteToolWithRouting (TW := down_world) (λ r, r)
      (sandbox_config "OpenSandbox" {["code_exec" := MkRoute "docker" "ssh" false]}) {["local"; "docker"; "ssh"]} true 30
      (code_exec ToolSandboxModeRequire) "{}" "s1" (MkState tt [])).2 =
    [] ++ evs ++ [EvRun "code_exec" "{}" InProcess].
Proof.
  apply (failed_backends_run_in_process (TW := down_world) (λ r, r)
    (sandbox_config "OpenSandbox" {["code_exec" := MkRoute "docker" "ssh" false]}) {["local"; "docker"; "ssh"]} true 30
    (code_exec ToolSandboxModeRequire) _ "{}" "s1" (MkRoute "docker" "ssh" false) None
    (MkSandboxRequest "python" "" ["{}"] "" "" 0) (MkState tt []) eq_refl);
    try (vm_compute; reflexivity); try discriminate.
  intros key r w. by eexists _, _.
Defined.
