(* ===== verification/ToolExecutor.v ===== *)
(** The execution of one tool call: [OpenClawToolExecutor] of
    [openclaw/agent/tool_executor.go].

    [Execute] passes a call through the gates of the gateway -- routing and
    presets, governance, hooks, plan checks and approval -- runs the tool, and
    records what happened.  Each gate may end the call; [outcome] is how it
    ends.  The services of the executor (governance, hooks, plan checks,
    approval, substitution of secrets, interceptors) answer through the class
    [ExecutorWorld].  Telemetry, metrics and durations are not kept. *)

From S2P Require Import Prelude GoStrings Json ToolPolicy Effects ToolRouting.
From stdpp Require Import sorting.
Local Open Scope string_scope.
Local Open Scope list_scope.

(** ** Data *)

(** The fields of [core.Session] a call reads. *)
Record Session := MkSession {
  SessId : string;
  SessChannelId : string;
  SessSenderId : string;
  RouteToolsDisabled : bool;
  RouteAllowedTools : list string;
  SessTotalTokens : Z;
}.

(** The sets compare without case: they hold lower-case names. *)
Record ResolvedToolPreset := MkPreset {
  PresetId : string;
  PresetAllowedTools : gset string;
  PresetApprovalRequiredTools : gset string;
}.

Record ToolGovernanceContext := MkGovernanceContext {
  GcSession : Session;
  GcCallId : string;
  GcToolName : string;
  GcArgumentsJson : string;
  GcActionDescriptor : option ToolActionDescriptor;
  GcDescriptor : ToolGovernanceDescriptor;
  GcIsStreaming : bool;
}.

Record ToolHookContext := MkHookContext {
  HkSession : Session;
  HkToolName : string;
  HkArgumentsJson : string;
  HkIsStreaming : bool;
}.

Record PlanExecuteVerifyDecision := MkPlanDecision {
  PlanDecision : string;
  PlanRequiresApproval : bool;
  PlanSummary : string;
}.

(** What an invocation keeps of a governance decision. *)
Record InvocationGovernance := MkInvocationGovernance {
  GovernanceAllowed : bool;
  InvGovernanceAction : GovernanceAction;
  GovernanceReason : string;
  GovernanceUnavailable : bool;
}.
Definition governance_of (d : GovernanceDecision) : InvocationGovernance :=
  MkInvocationGovernance (Allowed d) (GAction d) (Reason d) (IsUnavailable d).

Record ToolInvocation := MkInvocation {
  CallId : string;
  InvToolName : string;
  InvArguments : string;
  Result : string;
  InvResultStatus : string;
  InvFailureCode : string;
  InvFailureMessage : string;
  InvNextStep : string;
  InvGovernance : option InvocationGovernance;
}.

Record ToolExecutionResult := MkResult {
  Invocation : ToolInvocation;
  ResultText : string;
  ResultStatus : string;
  FailureCode : string;
  FailureMessage : string;
  NextStep : string;
}.

Definition ToolResultStatusesCompleted : string := "Completed".
Definition ToolResultStatusesFailed : string := "failed".
Definition ToolResultStatusesBlocked : string := "blocked".
Definition ToolFailureCodesPresetBlocked : string := "preset_blocked".
Definition ToolFailureCodesOperatorAuthRequired : string := "operator_auth_required".
Definition ToolFailureCodesApprovalRequired : string := "approval_required".
Definition ToolFailureCodesGovernanceDenied : string := "governance_denied".
Definition ToolFailureCodesGovernanceUnavailable : string := "governance_unavailable".
Definition ToolFailureCodesBrowserBackendMissing : string := "browser_backend_missing".
Definition ToolFailureCodesTimeout : string := "timeout".
Definition ToolFailureCodesToolFailed : string := "tool_failed".

(** How a call ends: with a result, with an error, or in a nil dereference. *)
Inductive outcome :=
  | Returned (r : ToolExecutionResult)
  | Errored (e : go_error)
  | Panicked.

Record IToolHook (W : Type) := MkHook {
  HookName : string;
  BeforeExecute : ToolHookContext → W → bool * W;
  AfterExecute : ToolHookContext → string → bool → W → W;
}.
Arguments MkHook {W}. Arguments HookName {W}. Arguments BeforeExecute {W}. Arguments AfterExecute {W}.

Record IToolResultInterceptor (W : Type) := MkInterceptor {
  Order : Z;
  Intercept : string → string → string → bool → W → (string + go_error) * W;
}.
Arguments MkInterceptor {W}. Arguments Order {W}. Arguments Intercept {W}.

(** The services of an executor. *)
Class ExecutorWorld (W : Type) := {
  (** [IRedactionPipeline.Redact], and [encoding/json] on arguments *)
  Redact : string → string;
  parse_json : string → json_text;
  marshal_map : gmap string json → option string;
  (** [IToolGovernanceService] *)
  Authorize_call : ToolGovernanceContext → W → (GovernanceDecision + go_error) * W;
  RecordResult : ToolGovernanceContext → GovernanceDecision → bool → W → W;
  (** [IPlanExecuteVerifyOrchestrator] *)
  EvaluateTool : ToolGovernanceContext → bool → nat → W → (PlanExecuteVerifyDecision + go_error) * W;
  RecordApprovalDecision : bool → W → W;
  CompleteTool : ToolInvocation → W → W;
  (** [ISentinelSubstitutionService.Substitute]: what is executed, and what is
      kept *)
  Substitute : string → string → W → ((string * string) + go_error) * W;
  (** [IStreamingTool.ExecuteStreaming]: its chunks, or the error that ended it *)
  execute_streaming : ITool → string → W → (list string + go_error) * W;
  (** [ctx.Err()] is [context.Canceled] *)
  is_canceled : W → bool;
}.

Record OpenClawToolExecutor (W : Type) := MkExecutor {
  toolsByName : gmap string ITool;
  requireToolApproval : bool;
  approvalRequiredTools : gset string;
  hooks : list (IToolHook W);
  interceptors : list (IToolResultInterceptor W);
  config : GatewayConfig;
  backends : gset string;
  hasSandbox : bool;
  toolTimeout : Z;
  toolPresetResolver : option (Session → list string → option ResolvedToolPreset);
  hasAuditLog : bool;
  (** runs a meta skill of that name on that input: its answer, and the events
      of its run *)
  metaInvokeExecutor : option (Session → string → string → W → (string * list event) * W);
}.
Arguments MkExecutor {W}. Arguments toolsByName {W}. Arguments requireToolApproval {W}.
Arguments approvalRequiredTools {W}. Arguments hooks {W}. Arguments interceptors {W}. Arguments config {W}.
Arguments backends {W}. Arguments hasSandbox {W}. Arguments toolTimeout {W}. Arguments toolPresetResolver {W}.
Arguments hasAuditLog {W}. Arguments metaInvokeExecutor {W}.

(** ** Small parts *)

Definition NormalizeApprovalToolName (toolName : string) : string :=
  if bool_decide (toolName = "file_write") then "write_file" else toolName.

(** The set [NewOpenClawToolExecutor] builds from the configured names. *)
Definition approval_set (names : list string) : gset string :=
  list_to_set (omap (λ item,
    let trimmed := TrimSpace item in
    if bool_decide (trimmed = "") then None else Some (NormalizeApprovalToolName trimmed)) names).

(** [CreateDeclaration] is not implemented and panics, so an executor cannot be
    built with tools. *)
Definition CreateDeclaration (t : ITool) : go () := Panic.

Fixpoint NewOpenClawToolExecutor_declarations (tools : list ITool) : go () :=
  match tools with
  | [] => Done tt
  | t :: tools => _ ← CreateDeclaration t; NewOpenClawToolExecutor_declarations tools
  end.

Definition LooksLikeOperatorAuthFailure (message : string) : bool :=
  existsb (Contains message)
    ["operator auth"; "operator authentication"; "operator token"; "browser-session"; "account-token";
     "bootstrap token"; "current surface"].

Definition BuildFailureNextStep (toolName failureCode : string) : string :=
  if bool_decide (failureCode = ToolFailureCodesOperatorAuthRequired)
  then "Authenticate with a browser session or operator token on this surface before retrying the tool."
  else if bool_decide (failureCode = ToolFailureCodesBrowserBackendMissing)
  then "Configure a browser execution backend or sandbox, or disable the browser tool in this runtime."
  else if bool_decide (failureCode = ToolFailureCodesRuntimeCapabilityUnavailable)
  then
    if bool_decide (toolName = "shell")
    then "Configure the required sandbox or execution backend for shell, or relax the tool policy for trusted local sessions."
    else "Configure the required execution backend or sandbox for this tool, or disable the tool in this runtime."
  else "".

Definition ClassifyToolFailureCode (tool : ITool) (message : string) : string :=
  let otherwise :=
    if bool_decide (ToolName tool = "browser") then
      if Contains message "execution backend" || Contains message "Local Playwright execution is unavailable"
      then ToolFailureCodesBrowserBackendMissing else ToolFailureCodesRuntimeCapabilityUnavailable
    else if Contains message "sandbox" || Contains message "execution backend"
    then ToolFailureCodesRuntimeCapabilityUnavailable else ToolFailureCodesToolFailed in
  if LooksLikeOperatorAuthFailure message then ToolFailureCodesOperatorAuthRequired
  else
    match LocalPolicy tool with
    | Some policy =>
        if negb (LocalExecutionSupported policy) && bool_decide (message = LocalExecutionUnavailableMessage policy)
        then LocalExecutionUnavailableFailureCode policy else otherwise
    | None => otherwise
    end.

Definition BlocksPlanExecuteVerifyDecision (decision : string) : bool :=
  negb (bool_decide (decision = "proceed")) && negb (bool_decide (decision = "require_approval")).

Definition CreateImmediateResult (toolName argsJson result callId resultStatus failureCode failureMessage nextStep : string)
    (governanceDecision : option GovernanceDecision) : ToolExecutionResult :=
  MkResult
    (MkInvocation callId toolName argsJson result resultStatus failureCode failureMessage nextStep (governance_of <$> governanceDecision))
    result resultStatus failureCode failureMessage nextStep.

(** Case-insensitive membership *)
Definition set_contains (lower_rune : N → N) (val : string) (s : gset string) : bool :=
  bool_decide (ToLower lower_rune val ∈ s).

Definition IsToolAllowedForSession (lower_rune : N → N) (session : Session) (toolName : string)
    (preset : option ResolvedToolPreset) : bool :=
  if RouteToolsDisabled session then false
  else if match preset with Some p => negb (set_contains lower_rune toolName (PresetAllowedTools p)) | None => false end
  then false
  else if bool_decide (0 < length (RouteAllowedTools session)) then bool_decide (toolName ∈ RouteAllowedTools session)
  else true.

(** [skill, input, ok].  An empty skill or input is answered with [ok] still
    true: the assertion has set it. *)
Definition TryGetMetaInvokeArguments (text : string) (argsJson : json_text) : string * string * bool :=
  if bool_decide (text = "") then ("", "", false)
  else
    match text_map argsJson with
    | None => ("", "", false)
    | Some doc =>
        match doc !! "skill" with
        | Some (JStr skill) =>
            if bool_decide (skill = "") then ("", "", true)
            else
              match doc !! "input" with
              | Some (JStr input) => (skill, input, true)
              | _ => (skill, "", false)
              end
        | _ => ("", "", false)
        end
    end.

Section Executor.
Context {W : Type} {TW : ToolWorld W} {EW : ExecutorWorld W}.
Context (lower_rune : N → N).

Definition IsValidJson (value : string) : bool :=
  match text_map (parse_json value) with Some _ => true | None => false end.

Definition finish_with {A} (r : ToolExecutionResult) : M W (outcome + A) := mret (inl (Returned r)).
Definition go_on {A} (a : A) : M W (outcome + A) := mret (inr a).

(** A nil descriptor stays nil. *)
Definition ResolveToolActionDescriptor (tool : ITool) (argsJson : string) : option ToolActionDescriptor :=
  match ActionDescriptorProvider tool with
  | Some provider => provider argsJson
  | None => Some (Resolve (ToolName tool) (parse_json argsJson))
  end.

Definition catalog_resolve (tool : ITool) (d : option ToolActionDescriptor) : ToolGovernanceDescriptor :=
  CatalogResolve lower_rune (ToolName tool) (ToolDescription tool) (default zero_action d).

(** ** The gates *)

Context (o : OpenClawToolExecutor W) (session : Session) (callId : string) (isStreaming : bool).

(** A bound tool of the name called, or else the registered one. *)
Definition called_tool (toolName : string) (boundCapabilityTool : option ITool) : option ITool :=
  let registered := toolsByName o !! toolName in
  match boundCapabilityTool with
  | Some t => if bool_decide (ToolName t = toolName) then Some t else registered
  | None => registered
  end.

(** The tool of a call, and its preset. *)
Definition admit_call (toolName persistedArgsJson : string) (toolCallCount : nat) (boundCapabilityTool : option ITool)
    : M W (outcome + (ITool * option ResolvedToolPreset)) :=
  if bool_decide (toolName = "update_goal") && bool_decide (1 < toolCallCount) then
    finish_with (CreateImmediateResult toolName persistedArgsJson
      "Error: update_goal must be called alone after all other tools have completed."
      callId ToolResultStatusesBlocked ToolFailureCodesToolFailed "" "" None)
  else
    match called_tool toolName boundCapabilityTool with
    | None =>
        finish_with (CreateImmediateResult toolName persistedArgsJson "Error: Unknown tool" callId
          ToolResultStatusesFailed ToolFailureCodesToolFailed "Unknown tool."
          "Use one of the tools declared for this session." None)
    | Some tool =>
        if RouteToolsDisabled session then
          let disabledMessage := "Tool '" +:+ ToolName tool +:+ "' is disabled for this routed turn." in
          finish_with (CreateImmediateResult toolName persistedArgsJson disabledMessage callId
            ToolResultStatusesBlocked ToolFailureCodesPresetBlocked disabledMessage
            "Continue without tools for this routed turn." None)
        else
          let preset := resolver ← toolPresetResolver o; resolver session (elements (dom (toolsByName o))) in
          if negb (IsToolAllowedForSession lower_rune session (ToolName tool) preset) then
            let deniedByPreset :=
              match preset with
              | Some p => "Tool '" +:+ ToolName tool +:+ "' is not allowed for preset '" +:+ PresetId p +:+ "'."
              | None => "Tool '" +:+ ToolName tool +:+ "' is not allowed for this session."
              end in
            finish_with (CreateImmediateResult toolName persistedArgsJson deniedByPreset callId
              ToolResultStatusesBlocked ToolFailureCodesPresetBlocked deniedByPreset
              "Use a broader preset on this surface, or change the session preset if that access is intentional." None)
          else go_on (tool, preset)
    end.

(** What governance leaves of a call: the arguments to execute and to keep, and
    the description of the action. *)
Record governed := MkGoverned {
  gArgs : string;
  gPersisted : string;
  gAction : option ToolActionDescriptor;
  gDescriptor : ToolGovernanceDescriptor;
  gDecision : GovernanceDecision;
}.

Definition governance_context (tool : ITool) (persisted : string) (d : option ToolActionDescriptor)
    (gd : ToolGovernanceDescriptor) : ToolGovernanceContext :=
  MkGovernanceContext session callId (ToolName tool) persisted d gd isStreaming.

(** [RecordImmediateGovernanceAudit] *)
Definition RecordImmediateGovernanceAudit (tool : ITool) : M W () :=
  if hasAuditLog o then emit (EvAudit (ToolName tool) true) else mret tt.

Definition is_action (a b : GovernanceAction) : bool :=
  match a, b with
  | GovernanceActionAllow, GovernanceActionAllow | GovernanceActionDeny, GovernanceActionDeny
  | GovernanceActionRequireApproval, GovernanceActionRequireApproval
  | GovernanceActionRedact, GovernanceActionRedact | GovernanceActionAuditOnly, GovernanceActionAuditOnly => true
  | _, _ => false
  end.

(** The arguments to keep, as governance redacts them. *)
Definition redacted_args (persistedArgsJson : string) (decision : GovernanceDecision) : string :=
  if negb (bool_decide (RedactedArgumentsJson decision = "")) && IsValidJson (RedactedArgumentsJson decision)
  then Redact (RedactedArgumentsJson decision) else persistedArgsJson.

Definition govern_call (toolName : string) (tool : ITool) (argsJson persistedArgsJson : string)
    : M W (outcome + governed) :=
  let d := ResolveToolActionDescriptor tool persistedArgsJson in
  let gd := catalog_resolve tool d in
  answer ← ask (Authorize_call (governance_context tool persistedArgsJson d gd));
  match answer with
  | inr err => mret (inl (Errored err))
  | inl decision =>
      emit (EvGovernance decision);;
      let persisted := redacted_args persistedArgsJson decision in
      g ←?
        (if is_action (GAction decision) GovernanceActionRedact &&
            negb (bool_decide (ReplacementArgumentsJson decision = "")) then
           if negb (IsValidJson (ReplacementArgumentsJson decision)) then
             let message := "Governance returned invalid replacement tool arguments." in
             RecordImmediateGovernanceAudit tool;;
             finish_with (CreateImmediateResult toolName persisted message callId ToolResultStatusesBlocked
               ToolFailureCodesGovernanceDenied message "Review the governance sidecar redaction response." (Some decision))
           else
             let args := ReplacementArgumentsJson decision in
             let persisted := Redact args in
             let d := ResolveToolActionDescriptor tool persisted in
             go_on (MkGoverned args persisted d (catalog_resolve tool d) decision)
         else go_on (MkGoverned argsJson persisted d gd decision));
      if negb (is_action (GAction decision) GovernanceActionRequireApproval) && negb (Allowed decision) then
        let denied :=
          if bool_decide (Reason decision = "") then "Tool invocation denied by governance policy." else Reason decision in
        let code :=
          if IsUnavailable decision then ToolFailureCodesGovernanceUnavailable else ToolFailureCodesGovernanceDenied in
        let step :=
          if IsUnavailable decision
          then "Check governance sidecar availability or adjust fail-open/fail-closed policy before retrying."
          else "Adjust the request or governance policy before retrying." in
        RecordImmediateGovernanceAudit tool;;
        finish_with (CreateImmediateResult toolName (gPersisted g) denied callId ToolResultStatusesBlocked code denied step
          (Some decision))
      else go_on g
  end.

(** The hooks, in their order; the first refusal ends the call. *)
Fixpoint run_hooks (toolName : string) (g : governed) (hk : ToolHookContext) (hs : list (IToolHook W))
    : M W (outcome + ()) :=
  match hs with
  | [] => go_on tt
  | h :: hs =>
      allowed ← ask (BeforeExecute h hk);
      emit (EvHook (HookName h) allowed);;
      if (allowed : bool) then run_hooks toolName g hk hs
      else
        let denied := "Tool execution denied by hook: " +:+ HookName h in
        finish_with (CreateImmediateResult toolName (gPersisted g) denied callId ToolResultStatusesBlocked
          ToolFailureCodesToolFailed denied "" (Some (gDecision g)))
  end.

(** Whether a call needs approval, before the plan check; [None] is the
    dereference of a nil descriptor. *)
Definition requires_approval (tool : ITool) (preset : option ResolvedToolPreset) (decision : GovernanceDecision)
    (d : option ToolActionDescriptor) : option bool :=
  let normalizedToolName := NormalizeApprovalToolName (ToolName tool) in
  let explicitlyConfiguredApproval :=
    existsb (λ item, bool_decide (NormalizeApprovalToolName item = normalizedToolName))
      (ApprovalRequiredTools (config o)) in
  let presetRequiresApproval :=
    match preset with
    | Some p => set_contains lower_rune (ToolName tool) (PresetApprovalRequiredTools p)
    | None => false
    end in
  let supported := SupportsActionAwareApproval (ToolName tool) in
  defaultActionAwareApproval ←
    (if requireToolApproval o && supported then d' ← d; Some (IsMutation d' || RequiresApproval d') else Some false);
  let listedApproval :=
    requireToolApproval o &&
      (bool_decide (normalizedToolName ∈ approvalRequiredTools o) || presetRequiresApproval) in
  let innerApproval :=
    if supported && negb explicitlyConfiguredApproval && negb presetRequiresApproval
    then listedApproval || defaultActionAwareApproval else defaultActionAwareApproval in
  if is_action (GAction decision) GovernanceActionRequireApproval then Some true
  else d' ← d; Some (RequiresApproval d' || innerApproval).

(** The plan check and the approval. *)
Definition approve_call (toolName : string) (tool : ITool) (preset : option ResolvedToolPreset) (g : governed)
    (approvalCallback : option (string → string → W → bool * W)) (toolCallCount : nat) : M W (outcome + ()) :=
  match requires_approval tool preset (gDecision g) (gAction g) with
  | None => mret (inl Panicked)
  | Some requiresApproval =>
      let gc := governance_context tool (gPersisted g) (gAction g) (gDescriptor g) in
      answer ← ask (EvaluateTool gc requiresApproval toolCallCount);
      match answer with
      | inr err => mret (inl (Errored err))
      | inl pev =>
          emit (EvPlan (PlanDecision pev) (PlanRequiresApproval pev));;
          if BlocksPlanExecuteVerifyDecision (PlanDecision pev) then
            let blocked :=
              "Plan-Execute-Verify decision '" +:+ PlanDecision pev +:+ "' blocked tool execution: " +:+ PlanSummary pev in
            finish_with (CreateImmediateResult toolName (gPersisted g) (Redact blocked) callId ToolResultStatusesBlocked
              ToolFailureCodesApprovalRequired blocked "Review the linked Plan-Execute-Verify run before retrying."
              (Some (gDecision g)))
          else if negb (requiresApproval || PlanRequiresApproval pev) then go_on tt
          else
            match approvalCallback with
            | Some callback =>
                approved ← ask (callback (ToolName tool) (gPersisted g));
                emit (EvApproval (ToolName tool) (gPersisted g) approved);;
                ask (λ w, (tt, RecordApprovalDecision approved w));;
                if negb approved then
                  finish_with (CreateImmediateResult toolName (gPersisted g) "Tool execution denied by user." callId
                    ToolResultStatusesBlocked ToolFailureCodesApprovalRequired
                    "Tool execution was denied by the reviewer." "Approve the tool request to allow this action."
                    (Some (gDecision g)))
                else
                  match gAction g with
                  | None => mret (inl Panicked)
                  | Some d =>
                      if bool_decide (ApprovalFingerprint d = "") then go_on tt
                      else
                        match ResolveToolActionDescriptor tool (gPersisted g) with
                        | None => mret (inl Panicked)
                        | Some current =>
                            if bool_decide (ApprovalFingerprint current = ApprovalFingerprint d) then go_on tt
                            else
                              let message := "Tool '" +:+ ToolName tool +:+
                                "' changed after approval was requested; execution blocked." in
                              finish_with (CreateImmediateResult toolName (gPersisted g) message callId
                                ToolResultStatusesBlocked ToolFailureCodesApprovalRequired message
                                "Preview the command again and request approval for the updated fingerprint."
                                (Some (gDecision g)))
                        end
                  end
            | None =>
                ask (λ w, (tt, RecordApprovalDecision false w));;
                let message := "Tool '" +:+ ToolName tool +:+
                  "' requires approval but this session has no approval channel — auto-denied. " +:+
                  "To enable this tool: connect through the browser chat at /chat (it supports interactive approvals) " +:+
                  "or set OpenClaw:Tooling:RequireToolApproval=false for trusted local sessions." in
                finish_with (CreateImmediateResult toolName (gPersisted g) (Redact message) callId
                  ToolResultStatusesBlocked ToolFailureCodesApprovalRequired message
                  "Use an approval-capable surface such as /chat, or disable approval requirements for trusted local sessions."
                  (Some (gDecision g)))
            end
      end
  end.

(** ** Running the tool *)

(** [onDelta], when the caller streams; its error is ignored. *)
Context (onDelta : option (string → W → W)).

Fixpoint send_deltas (chunks : list string) : M W () :=
  match chunks, onDelta with
  | chunk :: chunks, Some f => emit (EvDelta chunk);; ask (λ w, (tt, f chunk w));; send_deltas chunks
  | _, _ => mret tt
  end.

Definition MaxChars : Z := 1000000.

(** The text of a stream, cut at [MaxChars] bytes. *)
Fixpoint collect_chunks (acc : bytes) (chunks : list string) : bytes :=
  match chunks with
  | [] => acc
  | chunk :: chunks =>
      if (Z.of_nat (length acc) <? MaxChars)%Z
      then collect_chunks (acc ++ take (Z.to_nat (MaxChars - Z.of_nat (length acc))) (to_bytes chunk)) chunks
      else collect_chunks acc chunks
  end.

Definition ExecuteStreamingToolCollect (tool : ITool) (argsJson : string) : M W (string + go_error) :=
  emit (EvRun (ToolName tool) argsJson AsStream);;
  answer ← ask (execute_streaming tool argsJson);
  match answer with
  | inr err => mret (inr err)
  | inl chunks =>
      let text := of_bytes (collect_chunks [] chunks) in
      let result := if (MaxChars <=? Z.of_nat (String.length text))%Z then text +:+ "…" else text in
      let redactedResult := Redact result in
      (if bool_decide (redactedResult = result) then send_deltas chunks
       else if negb (bool_decide (redactedResult = "")) then send_deltas [redactedResult] else mret tt);;
      mret (inl result)
  end.

(** What an execution leaves: the result and how it is reported. *)
Record report := MkReport {
  rResult : string;
  rStatus : string;
  rCode : string;
  rMessage : string;
  rStep : string;
  rFailed : bool;
  rPersisted : string;
  rHook : ToolHookContext;
}.

Definition disabled_by_policy (result persisted : string) (hk : ToolHookContext) : report :=
  MkReport result ToolResultStatusesBlocked ToolFailureCodesRuntimeCapabilityUnavailable result
    "Use a non-meta skill or enable meta invocation in runtime policy." true persisted hk.

Definition report_result (tool : ITool) (result persisted : string) (meta : bool) (hk : ToolHookContext) : report :=
  if (meta && Contains result "disabled by runtime policy") ||
     (bool_decide (is_Some (metaInvokeExecutor o)) && bool_decide (ToolName tool = "meta_invoke") &&
      Contains (ToLower lower_rune result) "disabled by runtime policy")
  then disabled_by_policy result persisted hk
  else MkReport result ToolResultStatusesCompleted "" "" "" false persisted hk.

Definition report_error (tool : ITool) (err : go_error) (persisted : string) (hk : ToolHookContext) : report :=
  if IsDeadline err then
    MkReport "Error: Tool execution timed out." ToolResultStatusesFailed ToolFailureCodesTimeout (Error err)
      "Retry the tool call or increase Tooling.ToolTimeoutSeconds." true persisted hk
  else
    let code := ClassifyToolFailureCode tool (Error err) in
    if bool_decide (code ∈ [ToolFailureCodesOperatorAuthRequired; ToolFailureCodesBrowserBackendMissing;
                            ToolFailureCodesRuntimeCapabilityUnavailable]) then
      let result := if HasPrefix (ToLower lower_rune (Error err)) "error:" then Error err else "Error: " +:+ Error err in
      MkReport result ToolResultStatusesBlocked code (Error err) (BuildFailureNextStep (ToolName tool) code) true persisted hk
    else MkReport "Error: Tool execution failed." ToolResultStatusesFailed code (Error err) "" true persisted hk.

Definition run_tool (tool : ITool) (g : governed) (hk : ToolHookContext) : M W (outcome + report) :=
  substituted ← ask (Substitute (ToolName tool) (gArgs g));
  match substituted with
  | inr err =>
      go_on (MkReport "Error: Tool execution failed." ToolResultStatusesFailed
        (ClassifyToolFailureCode tool (Error err)) (Error err) "" true "" hk)
  | inl (executionArgsJson, kept) =>
      let persistedArgs := Redact kept in
      let hk := MkHookContext (HkSession hk) (HkToolName hk) persistedArgs (HkIsStreaming hk) in
      let '(requestedSkill, requestedInput, ok) :=
        TryGetMetaInvokeArguments executionArgsJson (parse_json executionArgsJson) in
      let streams := match onDelta with Some _ => IsStreamingTool tool | None => false end in
      let meta :=
        if negb streams && bool_decide (ToolName tool = "meta_invoke") && ok then metaInvokeExecutor o else None in
      answer ←
        (if streams then ExecuteStreamingToolCollect tool executionArgsJson
         else
           match meta with
           | Some execute =>
               emit (EvRun (ToolName tool) executionArgsJson AsMetaSkill);;
               result ← run_within requestedSkill (execute session requestedSkill requestedInput); mret (inl result)
           | None =>
               ExecuteToolWithRouting lower_rune (config o) (backends o) (hasSandbox o) (toolTimeout o) tool executionArgsJson
                 (SessId session)
           end);
      match answer with
      | inl result => go_on (report_result tool result persistedArgs (bool_decide (is_Some meta)) hk)
      | inr err =>
          canceled ← ask (λ w, (is_canceled w, w));
          if (canceled : bool) then mret (inl (Errored canceled_error))
          else go_on (report_error tool err persistedArgs hk)
      end
  end.

(** [sort.Slice] by order.  It sorts up to twelve elements by insertion, which
    keeps interceptors of one order in their places; so does [merge_sort]. *)
#[local] Instance order_le : RelDecision (λ a b : IToolResultInterceptor W, (Order a ≤ Order b)%Z) :=
  λ a b, Z.le_dec (Order a) (Order b).

Fixpoint intercept_all (toolName persistedArgs : string) (failed : bool) (todo : list (IToolResultInterceptor W))
    (result : string) : M W string :=
  match todo with
  | [] => mret result
  | i :: todo =>
      answer ← ask (Intercept i toolName persistedArgs result failed);
      intercept_all toolName persistedArgs failed todo
        (match answer with inl result' => result' | inr _ => result end)
  end.

Fixpoint run_after_hooks (hk : ToolHookContext) (result : string) (failed : bool) (hs : list (IToolHook W)) : M W () :=
  match hs with
  | [] => mret tt
  | h :: hs =>
      emit (EvAfter (HookName h));;
      ask (λ w, (tt, AfterExecute h hk result failed w));;
      run_after_hooks hk result failed hs
  end.

(** What follows an execution, whatever its result. *)
Definition record_call (toolName : string) (tool : ITool) (g : governed) (r : report) : M W ToolExecutionResult :=
  let message := if bool_decide (rMessage r = "") then "" else Redact (rMessage r) in
  let step := if bool_decide (rStep r = "") then "" else Redact (rStep r) in
  result ← intercept_all (ToolName tool) (rPersisted r) (rFailed r)
             (merge_sort (λ a b : IToolResultInterceptor W, (Order a ≤ Order b)%Z) (interceptors o)) (Redact (rResult r));
  ask (λ w, (tt, RecordResult (governance_context tool (gPersisted g) (gAction g) (gDescriptor g)) (gDecision g)
                   (rFailed r) w));;
  (if hasAuditLog o then emit (EvAudit (ToolName tool) (rFailed r)) else mret tt);;
  run_after_hooks (rHook r) result (rFailed r) (hooks o);;
  let invocation :=
    MkInvocation callId toolName (rPersisted r) result (rStatus r) (rCode r) message step (Some (governance_of (gDecision g))) in
  ask (λ w, (tt, CompleteTool invocation w));;
  mret (MkResult invocation result (rStatus r) (rCode r) message step).

Definition Execute (toolName argsJson : string) (approvalCallback : option (string → string → W → bool * W))
    (toolCallCount : nat) (boundCapabilityTool : option ITool) : M W outcome :=
  let persistedArgsJson := Redact argsJson in
  r ← ('(tool, preset) ←? admit_call toolName persistedArgsJson toolCallCount boundCapabilityTool;
       g ←? govern_call toolName tool argsJson persistedArgsJson;
       let hk := MkHookContext session (ToolName tool) (gPersisted g) isStreaming in
       _ ←? run_hooks toolName g hk (hooks o);
       _ ←? approve_call toolName tool preset g approvalCallback toolCallCount;
       report ←? run_tool tool g hk;
       result ← record_call toolName tool g report;
       go_on result);
  mret (match r with inl out => out | inr result => Returned result end).

(** [ExecuteWithFunctionCallContent]: the arguments are written as JSON. *)
Definition arguments_json (arguments : option (gmap string json)) : string :=
  default "{}" (arguments ≫= marshal_map).

(** [ReplaceMcpTools] up to the declarations, which [CreateDeclaration] does not
    survive: the tools to add are stored once per name to remove. *)
Definition ReplaceMcpTools (toAdd : list ITool) (toRemove : list string) : res (gmap string ITool) :=
  if bool_decide (toAdd = []) || bool_decide (toRemove = []) then Fail "toAdd and toRemove are required"
  else
    Ok (foldl (λ next name,
          foldl (λ next tool, <[ToolName tool := tool]> next) (if bool_decide (name = "") then next else delete name next)
            toAdd) (toolsByName o) toRemove).
End Executor.

(** ** What a call records *)

(** A tool runs, or the model is asked. *)
Definition is_run (e : event) : bool := match e with EvRun _ _ _ | EvModel _ _ _ | EvMeta _ _ => true | _ => false end.
Definition no_run (evs : list event) : Prop := Forall (λ e, is_run e = false) evs.

Lemma no_run_nil : no_run []. Proof. constructor. Qed.
Lemma no_run_app l1 l2 : no_run l1 → no_run l2 → no_run (l1 ++ l2).
Proof. apply Forall_app_2. Qed.
Lemma no_run_one e : is_run e = false → no_run [e].
Proof. by repeat constructor. Qed.
Lemma no_run_hooks {W} (hs : list (IToolHook W)) b : no_run ((λ h, EvHook (HookName h) b) <$> hs).
Proof. apply Forall_fmap, Forall_true. done. Qed.
Lemma no_run_cons e l : is_run e = false → no_run l → no_run (e :: l).
Proof. by constructor. Qed.
#[export] Hint Resolve no_run_cons no_run_nil no_run_app no_run_one no_run_hooks : goproj.

Section Gates.
Context {W : Type} {TW : ToolWorld W} {EW : ExecutorWorld W} (lower_rune : N → N).
Context (o : OpenClawToolExecutor W) (session : Session) (callId : string) (isStreaming : bool).

(** The tool is the one the call names, and routing and preset let it through. *)
Definition admitted (toolName : string) (bound : option ITool) (tool : ITool) (preset : option ResolvedToolPreset) : Prop :=
  called_tool o toolName bound = Some tool ∧
  RouteToolsDisabled session = false ∧
  IsToolAllowedForSession lower_rune session (ToolName tool) preset = true ∧
  preset = toolPresetResolver o ≫= (λ resolver, resolver session (elements (dom (toolsByName o)))).

Lemma admit_call_yields toolName persisted n bound s :
  yields (admit_call lower_rune o session callId toolName persisted n bound) s (λ r evs, evs = [] ∧
    match r with
    | inl out => ∃ result, out = Returned result
    | inr (tool, preset) => admitted toolName bound tool preset ∧ ¬ (toolName = "update_goal" ∧ 1 < n)
    end).
Proof.
  unfold admit_call, finish_with, go_on.
  destruct (bool_decide (toolName = "update_goal") && _) eqn:Hgoal; [apply yields_ret; eauto |].
  destruct (called_tool o toolName bound) as [tool |] eqn:Htool; [| apply yields_ret; eauto].
  destruct (RouteToolsDisabled session) eqn:Hdis; [apply yields_ret; eauto |].
  destruct (IsToolAllowedForSession _ _ _ _) eqn:Hallow; simpl negb; cbv iota; apply yields_ret; [| eauto].
  split_and!; [done.. |]. intros [H1 H2]. by rewrite !bool_decide_eq_true_2 in Hgoal.
Qed.

(** The decision comes from the governance service, which has been told what
    the catalogue says of this tool, and lets the call through. *)
Definition permitted (tool : ITool) (decision : GovernanceDecision) : Prop :=
  (GAction decision = GovernanceActionRequireApproval ∨ Allowed decision = true) ∧
  ∃ gc w a, (Authorize_call gc w).1 = inl decision ∧
    GcDescriptor gc = CatalogResolve lower_rune (ToolName tool) (ToolDescription tool) a.

Lemma is_action_true a b : is_action a b = true → a = b.
Proof. by destruct a, b. Qed.

(** What the hooks, the plan check and the approval are shown of the arguments. *)
Definition kept_args (persisted : string) (decision : GovernanceDecision) : string :=
  if is_action (GAction decision) GovernanceActionRedact && negb (bool_decide (ReplacementArgumentsJson decision = ""))
  then Redact (ReplacementArgumentsJson decision) else redacted_args persisted decision.

Lemma RecordImmediateGovernanceAudit_yields tool s :
  yields (RecordImmediateGovernanceAudit o tool) s (λ _ evs, no_run evs).
Proof.
  unfold RecordImmediateGovernanceAudit. destruct (hasAuditLog o).
  - by apply yields_emit, no_run_one.
  - by apply yields_ret, no_run_nil.
Qed.

Lemma govern_call_yields toolName tool args persisted s :
  yields (govern_call lower_rune o session callId isStreaming toolName tool args persisted) s (λ r evs,
    match r with
    | inl _ => no_run evs
    | inr g => evs = [EvGovernance (gDecision g)] ∧ permitted tool (gDecision g) ∧
        (∃ text, gAction g = ResolveToolActionDescriptor tool text) ∧ gPersisted g = kept_args persisted (gDecision g)
    end).
Proof.
  unfold govern_call, finish_with, go_on. cbv zeta.
  set (gc := governance_context _ _ _ _ _ _ _).
  eapply yields_bind; [apply (yields_ask _ _ (λ r evs, evs = [] ∧ ∃ w, r = (Authorize_call gc w).1)); eauto |].
  intros [decision | err] l s1 [-> [w Hw]]; [| apply yields_ret; constructor].
  eapply yields_bind; [by apply (yields_emit _ _ (λ _ evs, evs = [EvGovernance decision])) |]. intros ? l s2 ->.
  eapply (yields_try _ _ _ (λ r evs, match r with inl _ => no_run evs | inr g => evs = [] ∧ gDecision g = decision ∧
    (∃ text, gAction g = ResolveToolActionDescriptor tool text) ∧ gPersisted g = kept_args persisted decision end)).
  - unfold kept_args. destruct (is_action _ _ && _); [case_yields |]; [| apply yields_ret; by split_and!; eauto..].
    eapply yields_bind; [apply RecordImmediateGovernanceAudit_yields |]. intros ? l s3 Hl. apply yields_ret.
    rewrite app_nil_r. exact Hl.
  - intros out l Hl. simpl. auto with goproj.
  - intros g l s3 (-> & Hg & Hact & Hkept). simpl.
    destruct (negb (is_action _ _) && negb (Allowed decision)) eqn:Hdeny.
    + eapply yields_bind; [apply RecordImmediateGovernanceAudit_yields |]. intros ? l s4 Hl. apply yields_ret.
      rewrite app_nil_r. simpl. auto with goproj.
    + apply yields_ret. rewrite Hg. split; [done |]. split; [| done]. split; [| by exists gc, w; eexists].
      apply andb_false_iff in Hdeny as [H | H]; apply negb_false_iff in H; [left; by apply is_action_true | by right].
Qed.

Lemma run_hooks_yields toolName g hk hs : ∀ s,
  yields (run_hooks callId toolName g hk hs) s (λ r evs,
    match r with
    | inl _ => no_run evs
    | inr _ => evs = ((λ h : IToolHook W, EvHook (HookName h) true) <$> hs) ∧
        Forall (λ h : IToolHook W, ∃ w, (BeforeExecute h hk w).1 = true) hs
    end).
Proof.
  induction hs as [| h hs IH]; intros s; simpl; [by apply yields_ret |].
  eapply yields_bind; [apply (yields_ask _ _ (λ r evs, evs = [] ∧ ∃ w, (BeforeExecute h hk w).1 = r)); eauto |].
  intros allowed l s1 [-> Hallowed].
  eapply yields_bind; [by apply (yields_emit _ _ (λ _ evs, evs = [EvHook (HookName h) allowed])) |]. intros ? l s2 ->.
  destruct allowed; simpl.
  - eapply yields_weaken; [apply IH |]. intros [out | u] l Hl; simpl.
    + by constructor.
    + destruct Hl as [-> Hl]. by repeat constructor.
  - apply yields_ret. by repeat constructor.
Qed.

(** The approval of a call: needed, asked for and given, or not needed. *)
Definition approved (tool : ITool) (args : string) (needed : bool) : list event :=
  if needed then [EvApproval (ToolName tool) args true] else [].

Lemma approve_call_yields toolName tool preset g cb n s :
  yields (approve_call lower_rune o session callId isStreaming toolName tool preset g cb n) s (λ r evs,
    match r with
    | inl _ => no_run evs
    | inr _ => ∃ req pd pr, requires_approval lower_rune o tool preset (gDecision g) (gAction g) = Some req ∧
        BlocksPlanExecuteVerifyDecision pd = false ∧
        evs = EvPlan pd pr :: approved tool (gPersisted g) (req || pr)
    end).
Proof.
  unfold approve_call, finish_with, go_on. destruct (requires_approval _ _ _ _ _ _) as [req |]; [| by apply yields_ret, no_run_nil].
  cbv zeta. eapply yields_bind; [apply (yields_ask _ _ (λ _ evs, evs = [])); done |]. intros [pev | err] l s1 ->.
  2: { apply yields_ret. constructor. }
  eapply yields_bind; [by apply (yields_emit _ _ (λ _ evs, evs = [EvPlan (PlanDecision pev) (PlanRequiresApproval pev)])) |].
  intros ? l s2 ->. simpl.
  destruct (BlocksPlanExecuteVerifyDecision _) eqn:Hblock; [apply yields_ret; by repeat constructor |].
  destruct (req || PlanRequiresApproval pev) eqn:Hneed; simpl negb; cbv iota.
  2: { apply yields_ret. exists req, (PlanDecision pev), (PlanRequiresApproval pev). by rewrite Hneed. }
  destruct cb as [callback |].
  2: { eapply yields_bind; [apply (yields_ask _ _ (λ _ evs, evs = [])); done |]. intros ? l s3 ->. apply yields_ret.
       by repeat constructor. }
  eapply yields_bind; [apply (yields_ask _ _ (λ _ evs, evs = [])); done |]. intros ok l s3 ->.
  eapply yields_bind; [by apply (yields_emit _ _ (λ _ evs, evs = [EvApproval (ToolName tool) (gPersisted g) ok])) |].
  intros ? l s4 ->.
  eapply yields_bind; [apply (yields_ask _ _ (λ _ evs, evs = [])); done |]. intros ? l s5 ->. simpl.
  assert (∃ req0 pd pr, Some req = Some req0 ∧ BlocksPlanExecuteVerifyDecision pd = false ∧
    [EvPlan (PlanDecision pev) (PlanRequiresApproval pev); EvApproval (ToolName tool) (gPersisted g) true] =
      EvPlan pd pr :: approved tool (gPersisted g) (req0 || pr)) as Hyes.
  { exists req, (PlanDecision pev), (PlanRequiresApproval pev). by rewrite Hneed. }
  destruct ok; simpl; [| apply yields_ret; by repeat constructor].
  destruct (gAction g); [| apply yields_ret; by repeat constructor].
  case_bool_decide; [by apply yields_ret |].
  destruct (ResolveToolActionDescriptor _ _); [| apply yields_ret; by repeat constructor].
  case_bool_decide; apply yields_ret; [done | by repeat constructor].
Qed.

(** The events of running one tool on one text; a meta skill runs only for
    [meta_invoke], and is the one the text names. *)
Definition running (name exec : string) (e : event) : Prop :=
  match e with
  | EvRun t args _ => t = name ∧ args = exec
  | EvDelta _ => True
  | EvMeta skill inner =>
      name = "meta_invoke" ∧ ∃ execute input w, metaInvokeExecutor o = Some execute ∧
        TryGetMetaInvokeArguments exec (parse_json exec) = (skill, input, true) ∧ inner = (execute session skill input w).1.2
  | _ => False
  end.

Lemma runs_at_running name exec Q evs : runs_at name exec Q evs → Forall (running name exec) evs.
Proof. intros H. eapply Forall_impl; [exact H |]. by intros e (p & -> & _). Qed.

Lemma send_deltas_yields name exec (onDelta : option (string → W → W)) chunks : ∀ s : state W,
  yields (send_deltas onDelta chunks) s (λ _ evs, Forall (running name exec) evs).
Proof.
  induction chunks as [| chunk chunks IH]; intros s; simpl; [by apply yields_ret |].
  destruct onDelta as [f |]; [| by apply yields_ret].
  eapply yields_bind; [by apply (yields_emit _ _ (λ _ evs, evs = [EvDelta chunk])) |]. intros ? l s1 ->.
  eapply yields_bind; [apply (yields_ask _ _ (λ _ evs, evs = [])); done |]. intros ? l s2 ->.
  eapply yields_weaken; [apply IH |]. intros ? l Hl. by constructor.
Qed.

(** Whatever it does, a tool's run records runs and deltas only. *)
Lemma ExecuteToolWithRouting_running tool args s :
  yields (ExecuteToolWithRouting lower_rune (config o) (backends o) (hasSandbox o) (toolTimeout o) tool args
    (SessId session)) s (λ _ evs, Forall (running (ToolName tool) args) evs).
Proof.
  apply adds_yields. eapply adds_weaken; [| apply (runs_at_running _ _ (λ _, True))].
  unfold ExecuteToolWithRouting. destruct (TryResolveRoute _ _) as [[[[route template] legacy] mode] |].
  - destruct (Sandbox tool) as [capable |]; [| by apply ExecuteToolWithTimeout_runs]. cbv zeta.
    repeat (case_head; [first [by apply ExecuteToolWithTimeout_runs | by apply adds_ret; constructor] |]).
    by apply execute_on_backend_runs.
  - case_head; [by apply adds_ret; constructor | by apply ExecuteToolWithTimeout_runs].
Qed.

Lemma run_tool_yields onDelta tool g hk s :
  yields (run_tool lower_rune o session onDelta tool g hk) s (λ r evs,
    (∃ exec, Forall (running (ToolName tool) exec) evs) ∧
    match r with inl out => out = Errored canceled_error ∧ ∃ w : W, is_canceled w = true | inr _ => True end).
Proof.
  unfold run_tool, go_on.
  eapply yields_bind; [apply (yields_ask _ _ (λ _ evs, evs = [])); done |]. intros [[exec kept] | err] l s1 ->.
  2: { apply yields_ret. split; [| done]. by exists "". }
  cbv zeta. destruct (TryGetMetaInvokeArguments _ _) as [[skill input] ok] eqn:Hinvoke.
  set (streams := match onDelta with Some _ => _ | None => _ end). clearbody streams.
  eapply yields_bind with (P := λ _ evs, Forall (running (ToolName tool) exec) evs).
  - case_yields.
    + unfold ExecuteStreamingToolCollect.
      eapply yields_bind; [by apply (yields_emit _ _ (λ _ evs, evs = [EvRun (ToolName tool) exec AsStream])) |].
      intros ? l s2 ->. eapply yields_bind; [apply (yields_ask _ _ (λ _ evs, evs = [])); done |].
      intros [chunks | err] l s3 ->; [| apply yields_ret; by repeat constructor]. cbv zeta.
      eapply yields_bind with (P := λ _ evs, Forall (running (ToolName tool) exec) evs).
      * case_yields; [apply send_deltas_yields |]. case_yields; [apply send_deltas_yields | by apply yields_ret].
      * intros ? l s4 Hl. apply yields_ret. rewrite app_nil_r. by constructor.
    + set (meta := if negb false && _ && ok then metaInvokeExecutor o else None).
      assert (∀ execute, meta = Some execute → ToolName tool = "meta_invoke" ∧ ok = true ∧ metaInvokeExecutor o = Some execute) as Hmeta.
      { intros execute. subst meta. cbn [negb andb]. case_bool_decide; [| done]. by destruct ok. }
      clearbody meta. destruct meta as [execute |]; [| apply ExecuteToolWithRouting_running].
      destruct (Hmeta execute eq_refl) as (Hname & -> & Hexec).
      eapply yields_bind; [by apply (yields_emit _ _ (λ _ evs, evs = [EvRun (ToolName tool) exec AsMetaSkill])) |].
      intros ? l s2 ->. eapply yields_bind with (P := λ _ evs, Forall (running (ToolName tool) exec) evs).
      * apply yields_within. constructor; [| done]. split; [done |]. by exists execute, input, (world s2).
      * intros ? l s3 Hl. apply yields_ret. rewrite app_nil_r. by constructor.
  - intros [result | err] l s2 Hl; [apply yields_ret; rewrite app_nil_r; eauto |].
    eapply yields_bind; [by apply (yields_ask _ _ (λ canceled evs, evs = [] ∧ canceled = is_canceled (world s2))) |].
    intros canceled l' s3 [-> Hcanceled]. destruct canceled; apply yields_ret; rewrite !app_nil_r; eauto.
Qed.

(** The audit entry and the closing hooks of a call. *)
Definition recorded (tool : ITool) (failed : bool) : list event :=
  (if hasAuditLog o then [EvAudit (ToolName tool) failed] else []) ++
  ((λ h : IToolHook W, EvAfter (HookName h)) <$> hooks o).

Lemma run_after_hooks_yields hk result failed (hs : list (IToolHook W)) : ∀ s : state W,
  yields (run_after_hooks hk result failed hs) s (λ _ evs, evs = (λ h : IToolHook W, EvAfter (HookName h)) <$> hs).
Proof.
  induction hs as [| h hs IH]; intros s; simpl; [by apply yields_ret |].
  eapply yields_bind; [by apply (yields_emit _ _ (λ _ evs, evs = [EvAfter (HookName h)])) |]. intros ? l s1 ->.
  eapply yields_bind; [apply (yields_ask _ _ (λ _ evs, evs = [])); done |]. intros ? l s2 ->.
  eapply yields_weaken; [apply IH |]. by intros ? l ->.
Qed.

Lemma intercept_all_yields toolName args failed (todo : list (IToolResultInterceptor W)) : ∀ result (s : state W),
  yields (intercept_all toolName args failed todo result) s (λ _ evs, evs = [] : Prop).
Proof.
  induction todo as [| i todo IH]; intros result s; simpl; [by apply yields_ret |].
  eapply yields_bind; [apply (yields_ask _ _ (λ _ evs, evs = [])); done |]. intros ? l s1 ->.
  eapply yields_weaken; [apply IH |]. by intros ? l ->.
Qed.

Lemma record_call_yields toolName tool g r s :
  yields (record_call o session callId isStreaming toolName tool g r) s (λ _ evs, evs = recorded tool (rFailed r)).
Proof.
  unfold record_call. cbv zeta. eapply yields_bind; [apply intercept_all_yields |]. intros result l s1 ->.
  eapply yields_bind; [apply (yields_ask _ _ (λ _ evs, evs = [])); done |]. intros ? l s2 ->.
  eapply yields_bind with (P := λ _ evs, evs = if hasAuditLog o then [EvAudit (ToolName tool) (rFailed r)] else []).
  { destruct (hasAuditLog o); [by apply yields_emit | by apply yields_ret]. }
  intros ? l s3 ->. eapply yields_bind; [apply run_after_hooks_yields |]. intros ? l s4 ->.
  eapply yields_bind; [apply (yields_ask _ _ (λ _ evs, evs = [])); done |]. intros ? l s5 ->.
  apply yields_ret. unfold recorded. simpl. by rewrite !app_nil_r.
Qed.

(** The events of a call that got past every gate: governance permits it, every
    hook allows it, the plan check does not block it, an approval is given if
    one is needed; then the tool runs, and a call that returns is audited, if
    there is an audit log, and shown to every hook.  The only error left is that
    of a cancelled context, and that call is neither. *)
Definition past_every_gate (toolName argsJson : string) (bound : option ITool) (n : nat) (out : outcome) (evs : list event) : Prop :=
  ∃ tool preset decision text req pd pr exec runs ending, let args := kept_args (Redact argsJson) decision in
    admitted toolName bound tool preset ∧ ¬ (toolName = "update_goal" ∧ 1 < n) ∧ permitted tool decision ∧
    Forall (λ h : IToolHook W, ∃ w, (BeforeExecute h (MkHookContext session (ToolName tool) args isStreaming) w).1 = true)
      (hooks o) ∧
    requires_approval lower_rune o tool preset decision (ResolveToolActionDescriptor tool text) = Some req ∧
    BlocksPlanExecuteVerifyDecision pd = false ∧ Forall (running (ToolName tool) exec) runs ∧
    evs = EvGovernance decision :: ((λ h : IToolHook W, EvHook (HookName h) true) <$> hooks o) ++
          EvPlan pd pr :: approved tool args (req || pr) ++ runs ++ ending ∧
    match out with
    | Returned _ => ∃ failed, ending = recorded tool failed
    | Errored e => ending = [] ∧ e = canceled_error ∧ ∃ w : W, is_canceled w = true
    | Panicked => False
    end.

Lemma Execute_yields onDelta toolName args cb n bound s :
  yields (Execute lower_rune o session callId isStreaming onDelta toolName args cb n bound) s
    (λ out evs, no_run evs ∨ past_every_gate toolName args bound n out evs).
Proof.
  unfold Execute, go_on. cbv zeta. eapply yields_bind with (P := λ r evs, no_run evs ∨
    past_every_gate toolName args bound n (match r with inl out => out | inr result => Returned result end) evs).
  2: { intros r l s1 Hr. apply yields_ret. by rewrite app_nil_r. }
  eapply yields_try; [apply admit_call_yields | |].
  { intros out l [-> _]. left. apply no_run_nil. }
  intros [tool preset] l s1 [-> [Hadm Hgoal]].
  eapply yields_try; [apply govern_call_yields | by intros out l Hl; left |].
  intros g l s2 (-> & Hperm & [text Htext] & Hkept). eapply yields_try; [apply run_hooks_yields | |].
  { intros out l Hl. left. simpl. auto with goproj. }
  intros ? l s3 [-> Hhooks]. eapply yields_try; [apply approve_call_yields | |].
  { intros out l Hl. left. simpl. auto with goproj. }
  intros ? l s4 (req & pd & pr & Hreq & Hblock & ->). eapply yields_try; [apply run_tool_yields | |].
  { intros out l [[exec Hl] (-> & Hcanceled)]. right.
    exists tool, preset, (gDecision g), text, req, pd, pr, exec, l, []. cbv zeta. rewrite <- Htext, <- Hkept. split_and!; try done.
    simpl. by rewrite app_nil_r. }
  intros r l s5 [[exec Hl] _]. eapply yields_bind; [apply record_call_yields |]. intros result l' s6 ->. apply yields_ret. right.
  exists tool, preset, (gDecision g), text, req, pd, pr, exec, l, (recorded tool (rFailed r)). cbv zeta. rewrite <- Htext, <- Hkept.
  split_and!; try done; [| eauto]. simpl. by rewrite app_nil_r.
Qed.

(** Past the gates, what runs does so between the approval and the record. *)
Lemma gates_run_between tool d pd pr args req runs ending e : is_run e = true →
  (ending = [] ∨ ∃ failed, ending = recorded tool failed) →
  e ∈ EvGovernance d :: ((λ h : IToolHook W, EvHook (HookName h) true) <$> hooks o) ++
      EvPlan pd pr :: approved tool args req ++ runs ++ ending → e ∈ runs.
Proof.
  intros He Hend Hin.
  assert (no_run (recorded tool true) ∧ no_run (recorded tool false)) as [Ht Hf].
  { unfold recorded, no_run. split; apply Forall_app; split; try (by destruct (hasAuditLog o); repeat constructor);
      apply Forall_fmap, Forall_true; done. }
  assert (no_run ending) as Hno by (by destruct Hend as [-> | [[] ->]]; [apply no_run_nil | ..]).
  assert (no_run (approved tool args req)) as Happ by (unfold approved; destruct req; by repeat constructor).
  assert (∀ l, no_run l → e ∉ l) as Hout.
  { intros l Hl Hel. unfold no_run in Hl. rewrite Forall_forall in Hl. specialize (Hl e Hel). congruence. }
  apply elem_of_cons in Hin as [-> | Hin]; [done |].
  apply elem_of_app in Hin as [Hin | Hin]; [by destruct (Hout _ (no_run_hooks (hooks o) true) Hin) |].
  apply elem_of_cons in Hin as [-> | Hin]; [done |]. apply elem_of_app in Hin as [Hin | Hin]; [by destruct (Hout _ Happ Hin) |].
  apply elem_of_app in Hin as [Hin | Hin]; [done | by destruct (Hout _ Hno Hin)].
Qed.

(** Whatever runs is the tool called, and every hook has allowed it on the
    arguments kept for the call. *)
Lemma Execute_runs_past_hooks onDelta toolName args cb n bound s :
  yields (Execute lower_rune o session callId isStreaming onDelta toolName args cb n bound) s (λ _ evs,
    ∀ e, e ∈ evs → is_run e = true → ∃ tool decision exec, called_tool o toolName bound = Some tool ∧
      running (ToolName tool) exec e ∧ EvGovernance decision ∈ evs ∧
      Forall (λ h : IToolHook W, ∃ w,
        (BeforeExecute h (MkHookContext session (ToolName tool) (kept_args (Redact args) decision) isStreaming) w).1 = true)
        (hooks o)).
Proof.
  eapply yields_weaken; [apply Execute_yields |]. intros out evs [Hno | Hgates] e Hin He.
  { unfold no_run in Hno. rewrite Forall_forall in Hno. specialize (Hno _ Hin). congruence. }
  destruct Hgates as (tool & preset & d & text & req & pd & pr & exec & runs & ending &
    (Htool & _) & _ & _ & Hhooks & _ & _ & Hruns & -> & Hend).
  exists tool, d, exec. split_and!; [done | | left | done].
  rewrite Forall_forall in Hruns. eapply Hruns, gates_run_between; [exact He | | exact Hin].
  destruct out as [r | err |]; [by right | left; by destruct Hend | done].
Qed.

(** A call does not ask the model. *)
Lemma Execute_asks_no_model onDelta toolName args cb n bound s :
  yields (Execute lower_rune o session callId isStreaming onDelta toolName args cb n bound) s
    (λ _ evs, model_calls evs = 0).
Proof.
  eapply yields_weaken; [apply Execute_runs_past_hooks |]. intros out evs Hruns. unfold model_calls.
  assert (Forall (λ e, match e with EvModel _ _ _ => False | _ => True end) evs) as Hall.
  { apply Forall_forall. intros e Hin. destruct e; try exact I. by destruct (Hruns _ Hin eq_refl) as (? & ? & ? & _ & ? & _). }
  clear Hruns. induction Hall as [| e evs He _ IH]; [done |]. simpl. by destruct e.
Qed.

(** C3: a call either runs nothing, or has passed every gate, in this order:
    the session's route and preset admit the tool, governance permits it, every
    hook has allowed it, the plan check has not blocked it, and an approval has
    been given if one is needed.  Then the tool runs.  If the call returns, it
    has been audited, where there is an audit log, and shown to every hook once;
    if it ends in an error, its context was cancelled, and it is neither audited
    nor shown to any hook. *)
Theorem tool_runs_only_past_every_gate onDelta toolName args cb n bound s :
  yields (Execute lower_rune o session callId isStreaming onDelta toolName args cb n bound) s
    (λ out evs, no_run evs ∨ past_every_gate toolName args bound n out evs).
Proof. apply Execute_yields. Qed.

(** While the governance sidecar does not answer, and governance is enabled
    and required for high-risk tools, no call runs, unless it is of one of the
    fourteen catalogued read-only tools. *)
Theorem silent_sidecar_stops_the_rest failClosed failOpenReadOnly onDelta tool args cb n s :
  (∀ gc w, ∃ reason, (Authorize_call gc w).1 = inl (Authorize lower_rune
     (MkGovernanceConfig true failClosed failOpenReadOnly true) (GcDescriptor gc) (NoAnswer reason))) →
  ToolName tool ∉ unattended_tools →
  yields (Execute lower_rune o session callId isStreaming onDelta (ToolName tool) args cb n (Some tool)) s
    (λ _ evs, no_run evs).
Proof.
  intros Hsilent Hname. destruct (Execute_yields onDelta (ToolName tool) args cb n (Some tool) s) as (evs & Htr & [Hno | Hgates]);
    [by exists evs |].
  destruct Hgates as (tool' & preset & decision & text & req & pd & pr & exec & runs & ending & Hadm & _ & Hperm & _).
  exfalso. destruct Hperm as [Hok (gc & w & a & Hauth & Hd)]. destruct (Hsilent gc w) as [reason Hs].
  rewrite Hs, Hd in Hauth. injection Hauth as <-.
  destruct Hadm as (Htool & _). unfold called_tool in Htool. rewrite bool_decide_eq_true_2 in Htool by done.
  injection Htool as ->. destruct Hok as [Hreq | Hallow].
  - revert Hreq. unfold Authorize, buildUnavailableDecision. simpl. by destruct (shouldFailClosed _ _).
  - by apply silent_allows_unattended in Hallow.
Qed.

(** The approval lists of the configuration and of the preset change
    nothing: with the set the constructor builds from them, a call needs approval
    exactly when governance or the action asks for it, or approvals are on and the
    tool is one of three whose actions are told apart and this action mutates. *)
Theorem approval_lists_are_ignored tool preset decision a :
  approvalRequiredTools o = approval_set (ApprovalRequiredTools (config o)) →
  Forall (λ name, TrimSpace name = name) (ApprovalRequiredTools (config o)) →
  requires_approval lower_rune o tool preset decision (Some a) =
    Some (is_action (GAction decision) GovernanceActionRequireApproval || RequiresApproval a ||
          (requireToolApproval o && SupportsActionAwareApproval (ToolName tool) && IsMutation a)).
Proof.
  intros Hset Htrim. unfold requires_approval. rewrite Hset.
  assert (NormalizeApprovalToolName (ToolName tool) ∈ approval_set (ApprovalRequiredTools (config o)) →
    existsb (λ item, bool_decide (NormalizeApprovalToolName item = NormalizeApprovalToolName (ToolName tool)))
      (ApprovalRequiredTools (config o)) = true) as Hlist.
  { unfold approval_set. intros (item & Hitem & Hin)%elem_of_list_to_set%list_elem_of_omap.
    rewrite Forall_forall in Htrim. rewrite (Htrim item Hitem) in Hin. case_bool_decide; [done |].
    injection Hin as Hin. apply existsb_exists. exists item. split; [by apply list_elem_of_In |].
    by apply bool_decide_eq_true. }
  set (listed := bool_decide (_ ∈ _)). set (explicit := existsb _ _).
  assert (listed = true → explicit = true) as Hle by (by intros H%bool_decide_eq_true%Hlist).
  clearbody listed explicit. clear Hlist Hset Htrim. destruct a as [? mutation required ? ? ?].
  destruct (match preset with Some _ => _ | None => _ end), (requireToolApproval o), explicit, listed,
    (SupportsActionAwareApproval _), (is_action _ _), required, mutation; simpl; try done;
    by specialize (Hle eq_refl).
Qed.
End Gates.

(** ** What a call is filed under *)

Section Names.
Context {W : Type} {TW : ToolWorld W} {EW : ExecutorWorld W} (lower_rune : N → N).
Context (o : OpenClawToolExecutor W) (session : Session) (callId : string) (isStreaming : bool).

Definition filed (toolName : string) (r : ToolExecutionResult) : Prop :=
  CallId (Invocation r) = callId ∧ InvToolName (Invocation r) = toolName.
Definition filed_if {A} (toolName : string) (r : outcome + A) : Prop :=
  match r with inl (Returned r) => filed toolName r | _ => True end.

Lemma admit_call_filed toolName persisted n bound :
  answers (admit_call lower_rune o session callId toolName persisted n bound) (filed_if toolName).
Proof. unfold admit_call, finish_with, go_on. answering. Qed.

Lemma govern_call_filed toolName tool args persisted :
  answers (govern_call lower_rune o session callId isStreaming toolName tool args persisted) (filed_if toolName).
Proof.
  unfold govern_call, finish_with, go_on. apply answers_bind. intros [decision | err]; [| by apply answers_ret].
  cbv zeta. apply answers_bind. intros _. apply answers_try.
  apply answers_weaken with (P := filed_if toolName); [answering |].
  intros [[r | e |] | g] H; try exact H; answering.
Qed.

Lemma run_hooks_filed toolName g hk hs : answers (run_hooks (W := W) callId toolName g hk hs) (filed_if toolName).
Proof. unfold finish_with, go_on. induction hs as [| h hs IH]; simpl; unfold finish_with, go_on; answering; exact IH. Qed.

Lemma approve_call_filed toolName tool preset g cb n :
  answers (approve_call lower_rune o session callId isStreaming toolName tool preset g cb n) (filed_if toolName).
Proof. unfold approve_call, finish_with, go_on. answering. Qed.

Lemma run_tool_filed onDelta toolName tool g hk :
  answers (run_tool lower_rune o session onDelta tool g hk) (filed_if toolName).
Proof. unfold run_tool, finish_with, go_on. cbv zeta. answering. Qed.

Lemma record_call_filed toolName tool g r :
  answers (record_call o session callId isStreaming toolName tool g r) (filed toolName).
Proof. unfold record_call. cbv zeta. answering. Qed.

(** Whatever a call returns is filed under its id and its name. *)
Lemma Execute_filed onDelta toolName args cb n bound :
  answers (Execute lower_rune o session callId isStreaming onDelta toolName args cb n bound)
    (λ out, match out with Returned r => filed toolName r | _ => True end).
Proof.
  unfold Execute, go_on. cbv zeta.
  apply answers_then with (P := λ r, match r with inl (Returned r) | inr r => filed toolName r | _ => True end).
  2: { intros [out | r] H; by apply answers_ret. }
  apply answers_try. eapply answers_weaken; [apply admit_call_filed |]. intros [[r | e |] | [tool preset]] H; try exact H. clear H.
  apply answers_try. eapply answers_weaken; [apply govern_call_filed |]. intros [[r | e |] | g] H; try exact H. clear H.
  apply answers_try. eapply answers_weaken; [apply run_hooks_filed |]. intros [[r | e |] | ?] H; try exact H. clear H.
  apply answers_try. eapply answers_weaken; [apply approve_call_filed |]. intros [[r | e |] | ?] H; try exact H. clear H.
  apply answers_try. eapply answers_weaken; [apply (run_tool_filed _ toolName) |]. intros [[r | e |] | report] H; try exact H. clear H.
  eapply answers_then; [apply record_call_filed |]. intros result H. by apply answers_ret.
Qed.
End Names.

(** ** A gateway without its sidecar *)

(** Services that let everything through, but the governance service, whose
    sidecar does not answer. *)
Definition silent_services : ExecutorWorld () := {|
  Redact text := text;
  parse_json _ := TBlank;
  marshal_map _ := Some "{}";
  Authorize_call gc w :=
    (inl (Authorize (λ r, r) (MkGovernanceConfig true false true true) (GcDescriptor gc) (NoAnswer "timeout")), w);
  RecordResult _ _ _ w := w;
  EvaluateTool _ required _ w := (inl (MkPlanDecision "proceed" required ""), w);
  RecordApprovalDecision _ w := w;
  CompleteTool _ w := w;
  Substitute _ args w := (inl (args, args), w);
  execute_streaming _ _ w := (inl [], w);
  is_canceled _ := false;
|}.

Definition plain_tool (name : string) : ITool := MkTool name "" None None None false.

Definition plain_executor (names : list string) : OpenClawToolExecutor () :=
  MkExecutor {["shell" := plain_tool "shell"; "read_file" := plain_tool "read_file"]} true (approval_set names) [] []
    (MkConfig false "local" ∅ ∅ "None" ∅ 300 "" names) {["local"]} false 30 None true None.

Definition plain_session : Session := MkSession "s1" "websocket" "u1" false [] 0.

Definition plain_call (names : list string) (tool : string) : outcome * state () :=
  Execute (TW := down_world) (EW := silent_services) (λ r, r) (plain_executor names) plain_session "c1" false None tool "{}"
    None 1 None (MkState tt []).

Lemma silent_sidecar_stops_the_rest_witness :
  yields (Execute (TW := down_world) (EW := silent_services) (λ r, r) (plain_executor []) plain_session "c1" false None
    "shell" "{}" None 1 (Some (plain_tool "shell"))) (MkState tt []) (λ _ evs, no_run evs).
Proof.
  apply (silent_sidecar_stops_the_rest (TW := down_world) (EW := silent_services) (λ r, r) (plain_executor []) plain_session
    "c1" false false true None (plain_tool "shell") "{}" None 1 (MkState tt [])).
  - intros gc w. by exists "timeout".
  - by apply (bool_decide_eq_true _); vm_compute.
Defined.

(** The catalogued reads go on, on record. *)
Example silent_read_runs :
  trace (plain_call [] "read_file").2 =
    [EvGovernance (MkDecision true GovernanceActionAuditOnly "timeout" true "" ""); EvPlan "proceed" false;
     EvRun "read_file" "{}" InProcess; EvAudit "read_file" false].
Proof. vm_compute. reflexivity. Qed.

(** A tool the operator lists as requiring approval runs without one. *)
Lemma approval_lists_are_ignored_witness :
  requires_approval (λ r, r) (plain_executor ["read_file"]) (plain_tool "read_file") None
    (NewGovernanceDecisionAllow "") (Some (described "")) = Some false.
Proof.
  apply (approval_lists_are_ignored (λ r, r) (plain_executor ["read_file"]) (plain_tool "read_file") None
    (NewGovernanceDecisionAllow "") (described "")).
  - reflexivity.
  - by repeat constructor.
Defined.
