(* ===== verification/Hooks.v ===== *)
(** The hooks of [openclaw/agent/agent.go] that decide on tool calls:
    [AutonomyHook] with its read-only mode, workspace, forbidden globs and shell
    list, and [ContractScopeHook] with the limits of a contract.

    A hook is asked with the arguments of the call as they are kept, redacted.
    The file system is that of [PathPolicy]; the home directory, the environment
    and the existence of directories are parameters too.  [fold_table] is the case
    folding of Unicode, with which names of tools and directories are compared. *)

From S2P Require Import Prelude GoStrings Json Security PathPolicy ToolPolicy Effects ToolRouting ToolExecutor.
Local Open Scope string_scope.
Local Open Scope list_scope.

(** ** Data *)

Record ToolingConfig := MkTooling {
  AutonomyMode : string;
  WorkspaceOnly : bool;
  WorkspaceRoot : string;
  ForbiddenPathGlobs : list string;
  AllowShell : bool;
  AllowedShellCommandGlobs : list string;
}.

Record AutonomyHook := MkAutonomyHook {
  hookConfig : ToolingConfig;
  (** whether the logger is not nil *)
  hookLogger : bool;
  hookWorkspaceRoot : string;
}.

Record ScopedCapability := MkScope {
  ScToolName : string;
  AllowedPaths : list string;
}.

(** The fields of a contract the hook reads; its scopes are not nil. *)
Record ContractPolicy := MkContract {
  MaxToolCalls : Z;
  ScopedCapabilities : list ScopedCapability;
}.

Record ContractScopeHook := MkContractScopeHook {
  contractResolver : option (string → option ContractPolicy);
  toolCallCounter : option (string → Z);
}.

Definition nonblank (value : string) : option string :=
  let value := TrimSpace value in if bool_decide (value = "") then None else Some value.

(** [data[prop].(string)], trimmed. *)
Definition string_argument (prop : string) (data : option (gmap string json)) : option string :=
  data ← data; match data !! prop with Some (JStr value) => nonblank value | _ => None end.

Section Hooks.
Context (lower_rune fold_table : N → N) (parse_json : string → json_text) (sprint : json → string).
Context (Getwd UserHomeDir : option string) (Getenv : string → string) (DirectoryExists : string → bool).
Context (Lstat : string → option bool) (Readlink : string → option string) (EvalSymlinks : string → eval_result).

Definition RealPath (path : string) : string := ResolveRealPath Getwd Lstat Readlink EvalSymlinks path.

Definition expandTilde (path : string) : string :=
  if HasPrefix path "~/" || bool_decide (path = "~") then
    match UserHomeDir with
    | None => path
    | Some home =>
        if bool_decide (String.length path = 1) then home else Join home (of_bytes (drop 2 (to_bytes path)))
    end
  else path.

Definition resolveWorkspaceRoot (cfg : ToolingConfig) : string :=
  if negb (WorkspaceOnly cfg) then ""
  else
    let resolved := Security.Resolve Getenv (WorkspaceRoot cfg) in
    if bool_decide (resolved = "") then ""
    else
      match Abs Getwd (expandTilde resolved) with
      | None => ""
      | Some full => if negb (DirectoryExists full) then "" else RealPath full
      end.

Definition tryExtractPathArgument (toolName arguments : string) : option string :=
  let prop :=
    if bool_decide (toolName = "git") then "cwd"
    else if bool_decide (toolName = "process") then "working_directory" else "path" in
  string_argument prop (text_map (parse_json arguments)).

(** The containment test shared by the workspace and the scoped paths. *)
Definition under (full root : string) : bool :=
  if EqualFoldRunes fold_table full root then true
  else HasPrefix full (if HasSuffix root "/" then root else root +:+ "/").

Definition isUnderWorkspace (path workspaceRoot : string) : bool := under (RealPath (expandTilde path)) workspaceRoot.

Definition tryExtractShellCommand (arguments : string) : option string :=
  string_argument "command" (text_map (parse_json arguments)).

(** *** [AutonomyHook] *)

(** A logger is replaced by the default one; a missing one stays nil. *)
Definition NewAutonomyHook (config : ToolingConfig) (logger : bool) : AutonomyHook :=
  MkAutonomyHook config logger (resolveWorkspaceRoot config).

Definition isForbiddenPath (a : AutonomyHook) (path : string) : bool :=
  let expanded := expandTilde path in
  let full := RealPath expanded in
  existsb (λ pat,
    let pat := TrimSpace pat in
    if bool_decide (pat = "") then false
    else let p := expandTilde pat in IsMatch p expanded || IsMatch p full) (ForbiddenPathGlobs (hookConfig a)).

Definition isForbiddenCommand (a : AutonomyHook) (command : string) : bool :=
  existsb (λ pat,
    let pat := TrimSpace pat in
    if bool_decide (pat = "") then false
    else
      let envelope := if HasPrefix pat "*" then pat else "*" +:+ pat in
      let envelope := if HasSuffix envelope "*" then envelope else envelope +:+ "*" in
      IsMatch envelope command) (ForbiddenPathGlobs (hookConfig a)).

Definition isShellCommandAllowed (a : AutonomyHook) (command : string) : bool :=
  let allow := AllowedShellCommandGlobs (hookConfig a) in
  if bool_decide (allow = []) then false
  else if bool_decide (allow = ["*"]) then true
  else existsb (λ pat, let pat := TrimSpace pat in if bool_decide (pat = "") then false else IsMatch pat command) allow.

(** A refusal is logged; with a nil logger that panics. *)
Definition refuse (a : AutonomyHook) : go bool := if hookLogger a then Done false else Panic.

Definition holds (test : string → bool) (value : option string) : bool :=
  match value with Some v => test v | None => false end.

Definition autonomy_mode (config : ToolingConfig) : string :=
  if bool_decide (TrimSpace (AutonomyMode config) = "") then "full"
  else ToLower lower_rune (TrimSpace (AutonomyMode config)).

Definition Autonomy_BeforeExecute (a : AutonomyHook) (toolName arguments : string) : go bool :=
  let config := hookConfig a in
  let path := tryExtractPathArgument toolName arguments in
  let cmd := tryExtractShellCommand arguments in
  if bool_decide (autonomy_mode config = "readonly") && IsMutationCapable toolName (parse_json arguments) then refuse a
  else if WorkspaceOnly config && negb (bool_decide (WorkspaceRoot config = "")) &&
          holds (λ p, negb (isUnderWorkspace p (hookWorkspaceRoot a))) path then refuse a
  else if negb (bool_decide (ForbiddenPathGlobs config = [])) && holds (isForbiddenPath a) path then refuse a
  else if negb (bool_decide (ForbiddenPathGlobs config = [])) && bool_decide (toolName = "shell") &&
          holds (isForbiddenCommand a) cmd then refuse a
  else if bool_decide (toolName = "shell") then
    if negb (AllowShell config) then Done false
    else if holds (λ c, negb (isShellCommandAllowed a c)) cmd then refuse a else Done true
  else Done true.

(** *** [ContractScopeHook] *)

Definition findToolScope (policy : ContractPolicy) (toolName : string) : option ScopedCapability :=
  snd <$> list_find (λ scope, EqualFoldRunes fold_table (ScToolName scope) toolName = true) (ScopedCapabilities policy).

Definition hasScopedFilesystemCapability (policy : ContractPolicy) : bool :=
  existsb (λ scope, negb (bool_decide (AllowedPaths scope = []))) (ScopedCapabilities policy).

Definition isFilesystemAffectingTool (toolName : string) : bool :=
  bool_decide (toolName ∈
    ["shell"; "code_exec"; "git"; "process"; "file_read"; "file_write"; "edit_file"; "apply_patch"]).

Definition tryReadStringList (root : gmap string json) (propertyName : string) : option (list string) :=
  value ← GetString sprint root propertyName; value ← nonblank value; Some [value].

Definition tryReadProcessPaths (root : gmap string json) : option (list string) :=
  match GetString sprint root "action" with
  | Some action => if bool_decide (TrimSpace action = "start") then tryReadStringList root "working_directory" else None
  | None => None
  end.

Definition tryExtractScopedPaths (toolName arguments : string) : option (list string) :=
  root ← text_map (parse_json arguments);
  if bool_decide (toolName = "git") then tryReadStringList root "cwd"
  else if bool_decide (toolName = "process") then tryReadProcessPaths root
  else if bool_decide (toolName = "shell") then None
  else tryReadStringList root "path".

Definition isPathAllowed (path : string) (allowedPaths : list string) : bool :=
  let full := RealPath (expandTilde path) in
  existsb (λ allowed, under full (RealPath (expandTilde (TrimSpace allowed)))) allowedPaths.

Definition calls_left (c : ContractPolicy) (count : Z) : bool :=
  negb ((0 <? MaxToolCalls c)%Z && (MaxToolCalls c <=? count)%Z).

Definition Contract_BeforeExecuteContext (h : ContractScopeHook) (hk : ToolHookContext) : bool :=
  match contractResolver h, toolCallCounter h with
  | Some resolve, Some counter =>
      match resolve (SessId (HkSession hk)) with
      | None => true
      | Some policy =>
          if negb (calls_left policy (counter (SessId (HkSession hk)))) then false
          else
            match findToolScope policy (HkToolName hk) with
            | None => negb (hasScopedFilesystemCapability policy && isFilesystemAffectingTool (HkToolName hk))
            | Some scope =>
                if bool_decide (AllowedPaths scope = []) then true
                else
                  match tryExtractScopedPaths (HkToolName hk) (HkArgumentsJson hk) with
                  | Some paths =>
                      forallb (λ path, let path := TrimSpace path in
                        bool_decide (path = "") || isPathAllowed path (AllowedPaths scope)) paths
                  | None => negb (bool_decide (HkToolName hk ∈ ["git"; "process"; "shell"]))
                  end
            end
      end
  | _, _ => true
  end.

(** ** As hooks of an executor *)

Definition AuditLogHook_hook {W} : IToolHook W := MkHook "AuditLog" (λ _ w, (true, w)) (λ _ _ _ w, w).

(** A panic ends the call as well. *)
Definition AutonomyHook_hook {W} (a : AutonomyHook) : IToolHook W :=
  MkHook "Autonomy"
    (λ hk w, (match Autonomy_BeforeExecute a (HkToolName hk) (HkArgumentsJson hk) with Done b => b | _ => false end, w))
    (λ _ _ _ w, w).

Definition ContractScopeHook_hook {W} (h : ContractScopeHook) : IToolHook W :=
  MkHook "ContractScope" (λ hk w, (Contract_BeforeExecuteContext h hk, w)) (λ _ _ _ w, w).
End Hooks.

(** ** Containment *)

Section Containment.
Context (lower_rune fold_table : N → N) (parse_json : string → json_text) (sprint : json → string).
Context (wd : string) (UserHomeDir : option string) (Getenv : string → string) (DirectoryExists : string → bool).
Context (Lstat : string → option bool) (Readlink : string → option string) (EvalSymlinks : string → eval_result).
Context (Hwd : IsAbs wd = true).

Local Abbreviation real := (RealPath (Some wd) Lstat Readlink EvalSymlinks).
Local Abbreviation tilde := (expandTilde UserHomeDir).
Local Abbreviation workspace := (resolveWorkspaceRoot (Some wd) UserHomeDir Getenv DirectoryExists Lstat Readlink EvalSymlinks).
Local Abbreviation autonomy_hook := (NewAutonomyHook (Some wd) UserHomeDir Getenv DirectoryExists Lstat Readlink EvalSymlinks).
Local Abbreviation autonomy := (Autonomy_BeforeExecute lower_rune fold_table parse_json (Some wd) UserHomeDir Lstat Readlink EvalSymlinks).

(** A path is [root] or is reached from it by names; it is [root] but for the
    case of letters. *)
Definition inside (root path : string) : Prop := segments root `prefix_of` segments path.
Definition differs_in_case (root path : string) : Prop := EqualFoldRunes fold_table path root = true.

Lemma RealPath_canon path : ∃ segs, Forall proper segs ∧ real path = canon segs.
Proof. by apply resolve_canon. Qed.

Lemma under_inside ps rs : Forall proper ps → Forall proper rs →
  under fold_table (canon ps) (canon rs) = true → inside (canon rs) (canon ps) ∨ differs_in_case (canon rs) (canon ps).
Proof.
  intros Hp Hr. unfold under, inside, differs_in_case. destruct (EqualFoldRunes fold_table _ _); [by right |]. intros Hpre. left.
  rewrite !segments_canon by done. apply isUnderRoot_canon; [done.. |].
  unfold isUnderRoot. rewrite !Clean_canon by done. by case_decide.
Qed.

Lemma under_real p q : under fold_table (real p) (real q) = true → inside (real q) (real p) ∨ differs_in_case (real q) (real p).
Proof.
  destruct (RealPath_canon p) as (ps & Hp & ->), (RealPath_canon q) as (rs & Hr & ->). by apply under_inside.
Qed.

(** Every absolute path is below the empty root. *)
Lemma under_empty p : under fold_table (real p) "" = true.
Proof.
  destruct (RealPath_canon p) as (ps & _ & ->). unfold under. destruct (EqualFoldRunes fold_table _ _); [done |].
  change (HasSuffix "" "/") with false. cbv iota. apply (IsAbs_canon ps).
Qed.

Lemma workspace_real cfg : workspace cfg ≠ "" → ∃ p, workspace cfg = real p.
Proof.
  unfold resolveWorkspaceRoot. destruct (negb _); [done |]. case_bool_decide; [done |].
  destruct (Abs _ _) as [full |]; [| done]. destruct (negb _); [done |]. eauto.
Qed.

Lemma autonomy_workspace cfg logger toolName arguments path :
  WorkspaceOnly cfg = true → WorkspaceRoot cfg ≠ "" → workspace cfg ≠ "" →
  autonomy (autonomy_hook cfg logger) toolName arguments = Done true →
  tryExtractPathArgument parse_json toolName arguments = Some path →
  inside (workspace cfg) (real (tilde path)) ∨ differs_in_case (workspace cfg) (real (tilde path)).
Proof.
  intros Honly Hroot Hws Hok Hpath. destruct (workspace_real cfg Hws) as [q Hq]. revert Hok.
  unfold Autonomy_BeforeExecute, refuse. simpl. rewrite Hpath, Honly, (bool_decide_eq_false_2 (WorkspaceRoot cfg = "")) by done.
  simpl. destruct (_ && IsMutationCapable _ _); [by destruct logger |].
  unfold isUnderWorkspace. rewrite Hq. destruct (under fold_table (real (tilde path)) (real q)) eqn:Hunder; simpl.
  - intros _. by apply under_real.
  - by destruct logger.
Qed.

(** The allowed paths of a contract. *)
Theorem scoped_paths_contained h hk resolve counter policy scope paths path :
  contractResolver h = Some resolve → toolCallCounter h = Some counter →
  resolve (SessId (HkSession hk)) = Some policy → findToolScope fold_table policy (HkToolName hk) = Some scope →
  AllowedPaths scope ≠ [] → tryExtractScopedPaths parse_json sprint (HkToolName hk) (HkArgumentsJson hk) = Some paths →
  Contract_BeforeExecuteContext fold_table parse_json sprint (Some wd) UserHomeDir Lstat Readlink EvalSymlinks h hk = true →
  path ∈ paths → TrimSpace path ≠ "" →
  ∃ allowed, allowed ∈ AllowedPaths scope ∧ 
    (inside (real (tilde (TrimSpace allowed))) (real (tilde (TrimSpace path))) ∨
     differs_in_case (real (tilde (TrimSpace allowed))) (real (tilde (TrimSpace path)))).
Proof.
  intros Hres Hcount Hpol Hscope Hne Hpaths. unfold Contract_BeforeExecuteContext.
  rewrite Hres, Hcount, Hpol, Hscope, Hpaths. destruct (negb _); [done |].
  rewrite bool_decide_eq_false_2 by done. intros Hall Hin Hblank. rewrite forallb_forall in Hall.
  specialize (Hall path (proj1 (list_elem_of_In _ _) Hin)). rewrite bool_decide_eq_false_2 in Hall by done.
  simpl in Hall. unfold isPathAllowed in Hall. apply existsb_exists in Hall as (allowed & Hallowed & Hunder).
  exists allowed. split; [by apply list_elem_of_In |]. by apply under_real.
Qed.

(** A workspace that does not exist restricts nothing: the hook answers
    every call as if the workspace had not been asked for. *)
Theorem missing_workspace_restricts_nothing cfg logger toolName arguments :
  resolveWorkspaceRoot (Some wd) UserHomeDir Getenv DirectoryExists Lstat Readlink EvalSymlinks cfg = "" →
  autonomy (autonomy_hook cfg logger) toolName arguments =
  autonomy (autonomy_hook (MkTooling (AutonomyMode cfg) false (WorkspaceRoot cfg) (ForbiddenPathGlobs cfg) (AllowShell cfg)
    (AllowedShellCommandGlobs cfg)) logger) toolName arguments.
Proof.
  intros Hws. unfold Autonomy_BeforeExecute, autonomy_mode, refuse, isForbiddenPath, isForbiddenCommand, isShellCommandAllowed.
  simpl. rewrite Hws.
  assert (holds (λ p, negb (isUnderWorkspace fold_table (Some wd) UserHomeDir Lstat Readlink EvalSymlinks p ""))
    (tryExtractPathArgument parse_json toolName arguments) = false) as ->; [| by rewrite andb_false_r].
  destruct (tryExtractPathArgument _ _ _) as [p |]; [| done]. simpl. unfold isUnderWorkspace. by rewrite under_empty.
Qed.

(** ** In the executor *)

Context {W : Type} {TW : ToolWorld W} {EW : ExecutorWorld W}.
Context (o : OpenClawToolExecutor W) (session : Session) (callId : string) (isStreaming : bool).

Local Abbreviation installed a := (AutonomyHook_hook lower_rune fold_table parse_json (Some wd) UserHomeDir Lstat Readlink EvalSymlinks a ∈ hooks o).

(** What runs, the hook has allowed. *)
Lemma Execute_runs_past_autonomy a onDelta toolName args cb n bound s : installed a →
  yields (Execute lower_rune o session callId isStreaming onDelta toolName args cb n bound) s (λ _ evs,
    ∀ name exec p, EvRun name exec p ∈ evs → ∃ decision, EvGovernance decision ∈ evs ∧
      autonomy a name (kept_args (Redact args) decision) = Done true).
Proof.
  intros Hin. eapply yields_weaken; [apply Execute_runs_past_hooks |]. intros out evs Hruns name exec p Hev.
  destruct (Hruns _ Hev eq_refl) as (tool & d & exec' & _ & [-> _] & Hd & Hhooks). rewrite Forall_forall in Hhooks.
  destruct (Hhooks _ Hin) as [w Hok]. simpl in Hok. exists d. split; [done |].
  by destruct (autonomy a (ToolName tool) _) as [[] | |].
Qed.

Lemma always_mutating_not_blank name : name ∈ AlwaysMutatingTools → IsBlank name = false.
Proof.
  assert (forallb (λ n, negb (IsBlank n)) AlwaysMutatingTools = true) as H by (vm_compute; reflexivity).
  intros Hin. rewrite forallb_forall in H. apply negb_true_iff, H, list_elem_of_In, Hin.
Qed.

(** With the hook in read-only mode, none of the tools that always mutate runs,
    whatever governance and approvals say. *)
Lemma Execute_readonly a onDelta toolName args cb n bound s :
  installed a → autonomy_mode lower_rune (hookConfig a) = "readonly" →
  yields (Execute lower_rune o session callId isStreaming onDelta toolName args cb n bound) s (λ _ evs,
    Forall (λ e, match e with EvRun name _ _ => name ∉ AlwaysMutatingTools | _ => True end) evs).
Proof.
  intros Hin Hmode. eapply yields_weaken; [by apply Execute_runs_past_autonomy |].
  intros out evs Hruns. apply Forall_forall. intros [| | | | name exec p | | | | |] Hev; try done. intros Hmut.
  destruct (Hruns name exec p Hev) as (d & _ & Hok). revert Hok.
  unfold Autonomy_BeforeExecute, IsMutationCapable, refuse. rewrite Hmode, always_mutating_not_blank by done.
  rewrite !bool_decide_eq_true_2 by done. simpl. by destruct (hookLogger a).
Qed.

(** C18: with the hook's workspace in force, nothing runs unless the path among
    the arguments that are kept for the call, followed through symbolic links,
    lies inside the workspace -- or is a path that differs from that of the
    workspace in the case of letters only. *)
Theorem workspace_only_is_kept cfg logger onDelta toolName args cb n bound s :
  installed (autonomy_hook cfg logger) → WorkspaceOnly cfg = true → WorkspaceRoot cfg ≠ "" → workspace cfg ≠ "" →
  yields (Execute lower_rune o session callId isStreaming onDelta toolName args cb n bound) s (λ _ evs,
    ∀ name exec p, EvRun name exec p ∈ evs → ∃ decision, EvGovernance decision ∈ evs ∧ ∀ path,
      tryExtractPathArgument parse_json name (kept_args (Redact args) decision) = Some path →
        inside (workspace cfg) (real (tilde path)) ∨ differs_in_case (workspace cfg) (real (tilde path))).
Proof.
  intros Hin Honly Hroot Hws. eapply yields_weaken; [by apply Execute_runs_past_autonomy |].
  intros out evs Hruns name exec p Hev. destruct (Hruns name exec p Hev) as (d & Hd & Hok). exists d.
  split; [done |]. intros path Hpath. by eapply autonomy_workspace.
Qed.
End Containment.

(** ** A gateway with the hook *)

Definition tooling (mode workspace : string) : ToolingConfig := MkTooling mode true workspace [] true ["git *"].

(** Every argument text names one path. *)
Definition path_arguments (path : string) (_ : string) : json_text := TDoc (JObj [("path", JStr path)]).

Definition plain_files {W} (a : AutonomyHook) (path : string) : IToolHook W :=
  AutonomyHook_hook (λ r, r) id (path_arguments path) (Some "/") None (λ _, Some false) (λ _, None) EvalTo a.

Definition new_hook (exists_ : bool) (cfg : ToolingConfig) : AutonomyHook :=
  NewAutonomyHook (Some "/") None (λ _, "") (λ _, exists_) (λ _, Some false) (λ _, None) EvalTo cfg true.

Definition hooked_executor {W} (h : IToolHook W) : OpenClawToolExecutor W :=
  MkExecutor {["write_file" := plain_tool "write_file"; "meta_invoke" := plain_tool "meta_invoke"]} false ∅ [h] []
    (MkConfig false "local" ∅ ∅ "None" ∅ 300 "" []) {["local"]} false 30 None true None.

(** Services that let everything through; of JSON they know the arguments that
    name the skill [draft]. *)
Definition open_services {W} : ExecutorWorld W := {|
  Redact text := text;
  parse_json text := if bool_decide (text = "draft") then TDoc (JObj [("skill", JStr "draft"); ("input", JStr "a story")]) else TBlank;
  marshal_map arguments := Some (if bool_decide (is_Some (arguments !! "skill")) then "draft" else "{}");
  Authorize_call _ w := (inl (NewGovernanceDecisionAllow ""), w);
  RecordResult _ _ _ w := w;
  EvaluateTool _ required _ w := (inl (MkPlanDecision "proceed" required ""), w);
  RecordApprovalDecision _ w := w;
  CompleteTool _ w := w;
  Substitute _ args w := (inl (args, args), w);
  execute_streaming _ _ w := (inl [], w);
  is_canceled _ := false;
|}.

Local Abbreviation write_call h :=
  (Execute (TW := down_world) (EW := open_services) (λ r, r) (hooked_executor h) plain_session "c1" false None "write_file" "{}"
    None 1 None (MkState tt [])).

Example read_only_refuses : trace (write_call (plain_files (new_hook true (tooling "ReadOnly" "/work")) "/work/a")).2 =
  [EvGovernance (NewGovernanceDecisionAllow ""); EvHook "Autonomy" false].
Proof. vm_compute. reflexivity. Qed.

Example workspace_lets_inside : trace (write_call (plain_files (new_hook true (tooling "" "/work")) "/work/a")).2 =
  [EvGovernance (NewGovernanceDecisionAllow ""); EvHook "Autonomy" true; EvPlan "proceed" false;
   EvRun "write_file" "{}" InProcess; EvAudit "write_file" false; EvAfter "Autonomy"].
Proof. vm_compute. reflexivity. Qed.

Example workspace_refuses_outside : trace (write_call (plain_files (new_hook true (tooling "" "/work")) "/work/../etc/passwd")).2 =
  [EvGovernance (NewGovernanceDecisionAllow ""); EvHook "Autonomy" false].
Proof. vm_compute. reflexivity. Qed.

(** Case is ignored whatever the file system: the neighbour [/WORK] passes for
    the workspace [/work] -- but nothing in it does. *)
Example neighbour_in_capitals_passes : trace (write_call (plain_files (new_hook true (tooling "" "/work")) "/WORK")).2 =
  [EvGovernance (NewGovernanceDecisionAllow ""); EvHook "Autonomy" true; EvPlan "proceed" false;
   EvRun "write_file" "{}" InProcess; EvAudit "write_file" false; EvAfter "Autonomy"].
Proof. vm_compute. reflexivity. Qed.

Example inside_capitals_refused : trace (write_call (plain_files (new_hook true (tooling "" "/work")) "/WORK/a")).2 =
  [EvGovernance (NewGovernanceDecisionAllow ""); EvHook "Autonomy" false].
Proof. vm_compute. reflexivity. Qed.

(** A write outside a workspace that does not exist. *)
Lemma missing_workspace_restricts_nothing_witness :
  Autonomy_BeforeExecute (λ r, r) id (path_arguments "/etc/passwd") (Some "/") None (λ _, Some false) (λ _, None) EvalTo
    (new_hook false (tooling "" "/work")) "write_file" "{}" = Done true.
Proof.
  unfold new_hook.
  rewrite (missing_workspace_restricts_nothing (λ r, r) id (path_arguments "/etc/passwd") "/" None (λ _, "") (λ _, false)
    (λ _, Some false) (λ _, None) EvalTo eq_refl (tooling "" "/work") true); vm_compute; reflexivity.
Defined.

Lemma workspace_only_is_kept_witness :
  yields (W := ()) (λ s, Execute (TW := down_world) (EW := open_services) (λ r, r)
      (hooked_executor (plain_files (new_hook true (tooling "" "/work")) "/work/a")) plain_session "c1" false None
      "write_file" "{}" None 1 None s) (MkState tt [])
    (λ _ evs, ∀ name exec p, EvRun name exec p ∈ evs → ∃ decision, EvGovernance decision ∈ evs ∧ ∀ path,
      tryExtractPathArgument (path_arguments "/work/a") name (kept_args (W := ()) (EW := open_services) "{}" decision) = Some path →
      let root := resolveWorkspaceRoot (Some "/") None (λ _, "") (λ _, true) (λ _, Some false) (λ _, None) EvalTo (tooling "" "/work") in
      let real := RealPath (Some "/") (λ _, Some false) (λ _, None) EvalTo (expandTilde None path) in
      inside root real ∨ differs_in_case id root real).
Proof.
  apply (workspace_only_is_kept (λ r, r) id (path_arguments "/work/a") "/" None (λ _, "") (λ _, true) (λ _, Some false)
    (λ _, None) EvalTo eq_refl (TW := down_world) (EW := open_services)
    (hooked_executor (plain_files (new_hook true (tooling "" "/work")) "/work/a")) plain_session "c1" false
    (tooling "" "/work") true None "write_file" "{}" None 1 None (MkState tt [])).
  - apply list_elem_of_here.
  - reflexivity.
  - discriminate.
  - vm_compute. discriminate.
Defined.
