(* ===== verification/AgentTurn.v ===== *)
(** One turn of the agent: [RunTurn] of [openclaw/agent/agent_runtime.go] with
    the building of the request, history trimming and compaction, tool batches,
    checkpoints ([openclaw/agent/runtime.go]), turn routing and budgets.

    The model, the stores, the goal service and the callbacks of contracts
    answer through the class [TurnWorld]; tool calls go through the executor.
    Tools and callbacks do not change the session.  Options of a request,
    metrics, logs and times are not kept; concurrent tool calls run in their
    order. *)

From S2P Require Import Prelude GoStrings Json ToolPolicy Chat Effects ToolRouting ToolExecutor.
Local Open Scope string_scope.
Local Open Scope list_scope.

(** ** Data *)

Record ChatTurn := MkTurn {
  TurnRole : string;
  TurnContent : string;
  ToolCalls : list ToolInvocation;
}.

Record SessionCheckpointToolCall := MkCheckpointCall {
  CcCallId : string;
  CcToolName : string;
  CcResultStatus : string;
  CcFailureCode : string;
  CcArgumentsBytes : Z;
  CcResultBytes : Z;
}.

(** Of the times, whether they are set. *)
Record SessionExecutionCheckpoint := MkCheckpoint {
  CheckpointId : string;
  Kind : string;
  State : string;
  Sequence : Z;
  Iteration : nat;
  HistoryCount : nat;
  PersistedAtUtc : bool;
  LastResumeAttemptAtUtc : bool;
  CompletionReason : string;
  CheckpointCalls : list SessionCheckpointToolCall;
}.

(** The fields of a session that routing sets, also as [TurnRoutingSnapshot]. *)
Record TurnRoutingSnapshot := MkSnapshot {
  ModelProfileId : string;
  PreferredModelTags : list string;
  FallbackModelProfileIds : list string;
  SystemPromptOverride : string;
  RtAllowedTools : list string;
  RtToolsDisabled : bool;
  RouteModelTier : string;
  RouteReason : string;
  ReasoningEffort : string;
  ResponseMode : string;
}.

Record TurnRoutingDecision := MkRoutingDecision {
  RdTier : string;
  RdModelProfileId : string;
  RdDirectModelFallbackProfileId : string;
  RdDisableTools : bool;
  RdAllowedTools : list string;
  RdPreferredTags : list string;
  RdReasoningLevel : string;
  RdResponsePolicy : string;
  RdImageCapableModelProfileId : string;
  RdCacheContinuitySafeguardsEnabled : bool;
  RdCacheContinuityMaxConversationTurns : Z;
  RdCacheContinuityResetOnProfileSwitch : bool;
  RdSystemPromptSuffix : string;
  RdReason : string;
}.

Record AgentSession := MkAgentSession {
  SId : string;
  SChannelId : string;
  SSenderId : string;
  SHistory : list ChatTurn;
  TotalInputTokens : Z;
  TotalOutputTokens : Z;
  HasContract : bool;
  ExecutionCheckpoint : option SessionExecutionCheckpoint;
  Route : TurnRoutingSnapshot;
}.

Definition set_history (h : list ChatTurn) (s : AgentSession) : AgentSession :=
  MkAgentSession (SId s) (SChannelId s) (SSenderId s) h (TotalInputTokens s) (TotalOutputTokens s) (HasContract s)
    (ExecutionCheckpoint s) (Route s).
Definition add_turn (t : ChatTurn) (s : AgentSession) : AgentSession := set_history (SHistory s ++ [t]) s.
Definition set_checkpoint (c : option SessionExecutionCheckpoint) (s : AgentSession) : AgentSession :=
  MkAgentSession (SId s) (SChannelId s) (SSenderId s) (SHistory s) (TotalInputTokens s) (TotalOutputTokens s)
    (HasContract s) c (Route s).
Definition set_route (r : TurnRoutingSnapshot) (s : AgentSession) : AgentSession :=
  MkAgentSession (SId s) (SChannelId s) (SSenderId s) (SHistory s) (TotalInputTokens s) (TotalOutputTokens s)
    (HasContract s) (ExecutionCheckpoint s) r.

Definition GetTotalTokens (s : AgentSession) : Z := wrap64 (TotalInputTokens s + TotalOutputTokens s).

(** The session as the executor reads it. *)
Definition tool_session (s : AgentSession) : Session :=
  MkSession (SId s) (SChannelId s) (SSenderId s) (RtToolsDisabled (Route s)) (RtAllowedTools (Route s))
    (GetTotalTokens s).

Definition AddTokenUsage (inputTokens outputTokens : Z) (s : AgentSession) : AgentSession :=
  MkAgentSession (SId s) (SChannelId s) (SSenderId s) (SHistory s) (wrap64 (TotalInputTokens s + inputTokens))
    (wrap64 (TotalOutputTokens s + outputTokens)) (HasContract s) (ExecutionCheckpoint s) (Route s).

Inductive AgentTurnStopReason := AgentTurnCompleted | AgentTurnBatchLimitReached | AgentTurnBudgetLimited.

Record AgentTurnResult := MkTurnResult {
  ResText : string;
  ShouldContinue : bool;
  StopReason : AgentTurnStopReason;
  ContinuePrompt : string;
}.

Definition CompletedAgentTurnResult (text : string) : AgentTurnResult := MkTurnResult text false AgentTurnCompleted "".

(** How a turn ends. *)
Inductive turn_end :=
  | TurnReturned (r : AgentTurnResult)
  | TurnFailed (e : go_error)
  | TurnPanicked.

Record ChatResponse := MkResponse {
  (** the input and output tokens, when the model tells *)
  Usage : option (Z * Z);
  Messages : list ChatMessage;
}.

(** A [*LlmExecutionResult] that is not nil: its response may be. *)
Record LlmExecutionResult := MkLlmResult { Response : option ChatResponse }.

(** What a turn asks of its surroundings. *)
Class TurnWorld (W : Type) := {
  (** [ILlmExecutionService.GetResponse]; its result may be nil *)
  service_response : list ChatMessage → W → (option LlmExecutionResult + go_error) * W;
  (** one call of the chat client through the circuit breaker *)
  client_response : list ChatMessage → W → (option ChatResponse + go_error) * W;
  isContractRuntimeBudgetExceeded : AgentSession → W → bool * W;
  isContractTokenBudgetExceeded : AgentSession → W → bool * W;
  recordContractTurnUsage : AgentSession → Z → Z → W → W;
  appendContractSnapshot : AgentSession → string → W → W;
  (** [ITurnRoutingPolicy.Resolve] *)
  resolve_routing : AgentSession → string → W → (option TurnRoutingDecision * option go_error) * W;
  (** the texts [TryInjectRecall], [TryInjectStructuredMemoryContext] and
      [TryInjectProfileRecall] insert *)
  recall_text : string → W → (option string + go_error) * W;
  structured_text : AgentSession → string → W → (option string + go_error) * W;
  profile_text : AgentSession → W → (option string + go_error) * W;
  (** the goal integration *)
  BuildGoalSystemPrompt : string → W → string * W;
  UpdateGoalTokenUsage : AgentSession → W → W;
  EvaluateGoalContinuation : AgentSession → nat → nat → string → W → string * W;
  (** [IMemoryStore.SaveSession] *)
  SaveSession : AgentSession → W → option go_error * W;
  new_checkpoint_id : W → string * W;
  (** [ctx.Err()] *)
  ctx_err : W → option go_error;
  (** whether a concurrent call sees that a sibling has failed *)
  sees_cancel : W → bool * W;
  (** the capacity of a slice built by that many appends *)
  append_capacity : nat → nat;
  (** [GetSystemPrompt], [BuildMetaRoutingSuffix] and [url.Parse] *)
  GetSystemPrompt : AgentSession → string → string;
  BuildMetaRoutingSuffix : string → string;
  absolute_url : string → bool;
}.

Record AgentRuntime (W : Type) := MkRuntime {
  maxIterations : nat;
  maxHistoryTurns : nat;
  retryCount : nat;
  sessionTokenBudget : Z;
  estimateTokenBudgetAdmission : bool;
  enableCompaction : bool;
  compactionThreshold : nat;
  compactionKeepRecent : nat;
  parallelToolExecution : bool;
  hasGoalIntegration : bool;
  hasLlmExecutionService : bool;
  backgroundExecutionEnabled : bool;
  toolExecutor : OpenClawToolExecutor W;
}.
Arguments MkRuntime {W}. Arguments maxIterations {W}. Arguments maxHistoryTurns {W}. Arguments retryCount {W}.
Arguments sessionTokenBudget {W}. Arguments estimateTokenBudgetAdmission {W}. Arguments enableCompaction {W}.
Arguments compactionThreshold {W}. Arguments compactionKeepRecent {W}. Arguments parallelToolExecution {W}.
Arguments hasGoalIntegration {W}. Arguments hasLlmExecutionService {W}. Arguments backgroundExecutionEnabled {W}.
Arguments toolExecutor {W}.

(** ** Checkpoints *)

Definition ManagerIsBareResumeRequest (userMessage : string) : bool :=
  let trimmed := TrimSpace userMessage in
  bool_decide (trimmed = "") || EqualFold trimmed "resume" || EqualFold trimmed "continue" || EqualFold trimmed "/resume" ||
  EqualFold trimmed "/continue".

Definition ManagerBuildCheckpointResumeUserNote (userMessage : string) : string :=
  "[Checkpoint resume user note]" +:+ newline +:+ TrimSpace userMessage +:+ newline +:+ "[/Checkpoint resume user note]".

Definition ManagerBuildCheckpointResumeInstruction (checkpoint : SessionExecutionCheckpoint) : string :=
  "[Checkpoint resume]" +:+ newline +:+ "Resume from checkpoint " +:+ CheckpointId checkpoint +:+ "." +:+ newline +:+
  "The previous assistant tool batch and tool results have already completed and are present in this conversation context." +:+
  newline +:+
  "Continue the interrupted task from those results. Do not repeat completed tool calls unless the results show that retrying is necessary." +:+
  newline +:+ "[/Checkpoint resume]" +:+ newline.

Definition ManagerMarkCheckpointCompleted (state reason : string) (s : AgentSession) : AgentSession :=
  match ExecutionCheckpoint s with
  | Some c =>
      if EqualFold (State c) "ready_to_resume" then
        set_checkpoint (Some (MkCheckpoint (CheckpointId c) (Kind c) state (Sequence c) (Iteration c) (HistoryCount c)
          (PersistedAtUtc c) (LastResumeAttemptAtUtc c) reason (CheckpointCalls c))) s
      else s
  | None => s
  end.

Definition ManagerTryGetResumableCheckpoint (s : AgentSession) : option SessionExecutionCheckpoint :=
  c ← ExecutionCheckpoint s;
  if negb (EqualFold (Kind c) "tool_batch") || negb (EqualFold (State c) "ready_to_resume") || negb (PersistedAtUtc c)
  then None
  else if negb (bool_decide (length (SHistory s) = HistoryCount c)) then None
  else
    match last (SHistory s) with
    | Some turn =>
        if negb (bool_decide (TurnContent turn = "[tool_use]")) || bool_decide (ToolCalls turn = []) then None else Some c
    | None => Some c
    end.

Definition set_persisted (p : bool) (c : SessionExecutionCheckpoint) : SessionExecutionCheckpoint :=
  MkCheckpoint (CheckpointId c) (Kind c) (State c) (Sequence c) (Iteration c) (HistoryCount c) p (LastResumeAttemptAtUtc c)
    (CompletionReason c) (CheckpointCalls c).

Definition set_resume_attempt (c : SessionExecutionCheckpoint) : SessionExecutionCheckpoint :=
  MkCheckpoint (CheckpointId c) (Kind c) (State c) (Sequence c) (Iteration c) (HistoryCount c) (PersistedAtUtc c) true
    (CompletionReason c) (CheckpointCalls c).

Definition getToolCalls (invocations : list ToolInvocation) : list SessionCheckpointToolCall :=
  (λ i, MkCheckpointCall (ToolExecutor.CallId i) (InvToolName i)
          (if bool_decide (InvResultStatus i = "") then "completed" else InvResultStatus i) (InvFailureCode i)
          (Z.of_nat (String.length (InvArguments i))) (Z.of_nat (String.length (ToolExecutor.Result i)))) <$> invocations.

Definition ResolveCheckpointCallId (invocation : ToolInvocation) (toolIndex : nat) : string :=
  if bool_decide (ToolExecutor.CallId invocation = "") then "checkpoint_call_" +:+ Itoa (Z.of_nat (S toolIndex))
  else ToolExecutor.CallId invocation.

(** ** Slices *)

Definition insert_at {A} (index : nat) (value : A) (l : list A) : list A := take index l ++ value :: drop index l.

(** [util.SlicesInsert]; the index is in range where it is used. *)
Definition SlicesInsert {A} (l : list A) (index : nat) (value : A) : list A := insert_at index value l.

(** The same on a slice [inner] that was copied from the variable [outer]: while
    the backing array has room, the elements move in the array both share, and
    [outer] keeps its length.  [room] is the capacity, [None] once the two are
    apart. *)
Definition insert_shared {A} (index : nat) (value : A) (x : list A * list A * option nat) : list A * list A * option nat :=
  let '(inner, outer, room) := x in
  let inner' := SlicesInsert inner (Nat.min index (length inner)) value in
  match room with
  | Some cap => if bool_decide (length inner < cap) then (inner', take (length outer) inner', room) else (inner', outer, None)
  | None => (inner', outer, None)
  end.

Section Runtime.
Context {W : Type} {TW : ToolWorld W} {EW : ExecutorWorld W} {AW : TurnWorld W} (lower_rune : N → N).
Context (a : AgentRuntime W).

(** A turn that has ended, with the session it leaves. *)
Definition ended : Type := turn_end * AgentSession.
Definition end_turn {A} (e : turn_end) (s : AgentSession) : M W (ended + A) := mret (inl (e, s)).
Definition complete {A} (text : string) (s : AgentSession) : M W (ended + A) :=
  end_turn (TurnReturned (CompletedAgentTurnResult text)) s.
Definition go_on {A} (x : A) : M W (ended + A) := mret (inr x).
Definition tell (f : W → W) : M W () := ask (λ w, (tt, f w)).

Definition Sorry : string := "Sorry, I'm having trouble reaching my AI provider right now. Please try again shortly.".

Definition stops (e : go_error) : bool := IsCanceled e || IsDeadline e.

(** ** Budgets *)

Definition AppendContractSnapshot (s : AgentSession) (status : string) : M W () :=
  if HasContract s then tell (appendContractSnapshot s status) else mret tt.

Definition TryRejectContractBudget (s : AgentSession) : M W (option string) :=
  if negb (HasContract s) then mret None
  else
    expired ← ask (isContractRuntimeBudgetExceeded s);
    if (expired : bool) then mret (Some "This contract has expired and can no longer execute new work.")
    else
      spent ← ask (isContractTokenBudgetExceeded s);
      mret (if (spent : bool) then Some "This contract has reached its token budget and cannot continue." else None).

(** The check that ends a turn. *)
Definition check_contract (s : AgentSession) : M W (ended + ()) :=
  rejected ← TryRejectContractBudget s;
  match rejected with
  | Some message => AppendContractSnapshot s "budget_exceeded";; complete message s
  | None => go_on tt
  end.

Definition TryRejectEstimatedBudget (s : AgentSession) (estimatedInputTokens : Z) : option string :=
  if negb (estimateTokenBudgetAdmission a) || (sessionTokenBudget a <=? 0)%Z then None
  else
    let remaining := wrap64 (sessionTokenBudget a - GetTotalTokens s) in
    if (remaining <=? 0)%Z || (estimatedInputTokens <? remaining)%Z then None
    else Some ("This session is close to its token budget. Estimated prompt tokens (" +:+ Itoa estimatedInputTokens +:+
               ") meet or exceed the remaining budget (" +:+ Itoa remaining +:+ "). Please start a new conversation.").

(** ** The model *)

(** One attempt after another, up to [more] more. *)
Fixpoint call_client (more : nat) (summary : bool) (s : AgentSession) (messages : list ChatMessage)
    (lastError : option go_error) : M W (option LlmExecutionResult + go_error) :=
  emit (EvModel summary (GetTotalTokens s) messages);;
  answer ← ask (client_response messages);
  let again e :=
    match more with
    | S more => call_client more summary s messages e
    | O => mret (inr (default (plain_error "LLM call failed with no captured exception.") e))
    end in
  match answer with
  | inr err => if stops err then mret (inr err) else again (Some err)
  | inl (Some response) => mret (inl (Some (MkLlmResult (Some response))))
  | inl None => again lastError
  end.

Definition CallLlmWithResilience (summary : bool) (s : AgentSession) (messages : list ChatMessage)
    : M W (option LlmExecutionResult + go_error) :=
  match TryRejectEstimatedBudget s (LlmExecutionEstimateInputTokens messages 0) with
  | Some admissionMessage => mret (inr (plain_error admissionMessage))
  | None =>
      if hasLlmExecutionService a then
        emit (EvModel summary (GetTotalTokens s) messages);; ask (service_response messages)
      else call_client (retryCount a) summary s messages None
  end.

(** ** The history *)

Definition TrimHistory (s : AgentSession) : AgentSession :=
  if bool_decide (length (SHistory s) < maxHistoryTurns a) then s
  else set_history (drop (length (SHistory s) - maxHistoryTurns a) (SHistory s)) s.

Definition summary_lines (turn : ChatTurn) : string :=
  if bool_decide (TurnContent turn = "[tool_use]") && negb (bool_decide (ToolCalls turn = [])) then
    foldr (λ tc text, "assistant: [called " +:+ InvToolName tc +:+ "] → " +:+ Truncate (Result tc) 200 +:+ newline +:+ text)
      "" (ToolCalls turn)
  else TurnRole turn +:+ ": " +:+ Truncate (TurnContent turn) 500 +:+ newline.

Definition summary_request (turns : list ChatTurn) : list ChatMessage :=
  [NewChatMessageWithText RoleSystem
     ("Summarize the following conversation turns into a concise context summary (2-3 sentences). " +:+
      "Focus on key decisions, facts established, and pending tasks. Output ONLY the summary.");
   NewChatMessageWithText RoleUser (foldr (λ t text, summary_lines t +:+ text) "" turns)].

Definition CompactHistory (s : AgentSession) : M W (ended + AgentSession) :=
  let n := length (SHistory s) in
  let keepCount := Nat.min (compactionKeepRecent a) (n - 2) in
  let toSummarizeCount := n - keepCount in
  if bool_decide (n ≤ compactionThreshold a)%nat || bool_decide (toSummarizeCount < 4)%nat then go_on (TrimHistory s)
  else
    answer ← CallLlmWithResilience true s (summary_request (take toSummarizeCount (SHistory s)));
    match answer with
    | inr err => if IsCanceled err then end_turn (TurnFailed err) s else go_on (TrimHistory s)
    | inl None => end_turn TurnPanicked s
    | inl (Some r) =>
        let '(summary, (input, output)) :=
          match Response r with
          | Some response => (ConcatMessagesContents (Messages response), default (0, 0)%Z (Usage response))
          | None => ("", (0, 0)%Z)
          end in
        let s := AddTokenUsage input output s in
        tell (recordContractTurnUsage s input output);;
        go_on (if bool_decide (summary = "") then TrimHistory s
               else set_history (MkTurn "systeem" ("[Previous conversation summary: " +:+ summary +:+ "]") [] ::
                                 drop toSummarizeCount (SHistory s)) s)
    end.

(** ** The request *)

(** [util.DeserializeMap] of arguments that were kept: of a text that is not that
    of an object, an empty map, and of [null] the nil map. *)
Definition DeserializeArguments (arguments : string) : option (gmap string json) :=
  match parse_json arguments with TDoc JNull => None | text => Some (DeserializeMap text) end.

Definition turn_messages (exact : bool) (turn : ChatTurn) : list ChatMessage :=
  if bool_decide (TurnRole turn = "system") && HasPrefix (TurnContent turn) "[Previous conversation summary:" then
    [NewChatMessageWithText RoleSystem (TurnContent turn)]
  else if bool_decide (TurnRole turn = "user") ||
          (bool_decide (TurnRole turn = "assistant") && negb (bool_decide (TurnContent turn = "[tool_use]"))) then
    [MkMessage (if bool_decide (TurnRole turn = "user") then RoleUser else RoleAssistant)
       (BuildTurnContents absolute_url (TurnContent turn))]
  else if bool_decide (TurnContent turn = "[tool_use]") && negb (bool_decide (ToolCalls turn = [])) then
    if exact then
      [MkMessage RoleAssistant
         (imap (λ i tc, FunctionCallContent ByPointer
            (MkCall (ResolveCheckpointCallId tc i) (InvToolName tc) (DeserializeArguments (InvArguments tc)))) (ToolCalls turn));
       MkMessage RoleTool
         (imap (λ i tc, FunctionResultContent ByPointer (ResolveCheckpointCallId tc i) (Result tc)) (ToolCalls turn))]
    else
      [NewChatMessageWithText RoleAssistant
         ("[Previous tool calls:" +:+ newline +:+
          JoinStrings ((λ tc, "- Called " +:+ InvToolName tc +:+ ": " +:+
             Truncate (if bool_decide (Result tc = "") then "(no result)" else Result tc) 200) <$> ToolCalls turn) newline +:+
          "]")]
  else [].

(** Only the last turn is given exactly. *)
Fixpoint history_messages (exactLatest : bool) (turns : list ChatTurn) : list ChatMessage :=
  match turns with
  | [] => []
  | [turn] => turn_messages exactLatest turn
  | turn :: turns => turn_messages false turn ++ history_messages exactLatest turns
  end.

Definition BuildMessages (s : AgentSession) (exactLatestToolBatch : bool) (userMessage : string) : list ChatMessage :=
  NewChatMessageWithText RoleSystem (GetSystemPrompt s userMessage) ::
  history_messages exactLatestToolBatch (drop (length (SHistory s) - maxHistoryTurns a) (SHistory s)).

(** ** Tool calls *)

Definition of_outcome {A} (s : AgentSession) (o : outcome) (f : ToolExecutionResult → M W (ended + A)) : M W (ended + A) :=
  match o with
  | Returned r => f r
  | Errored e => if stops e then end_turn (TurnFailed e) s else complete Sorry s
  | Panicked => end_turn TurnPanicked s
  end.

Definition ExecuteSingleToolCall (s : AgentSession) (cb : option (string → string → W → bool * W)) (n : nat)
    (call : function_call) : M W outcome :=
  Execute lower_rune (toolExecutor a) (tool_session s) (Chat.CallId call) false None (CallName call)
    (arguments_json (CallArguments call)) cb n None.

Definition call_result (call : function_call) (r : ToolExecutionResult) : ToolInvocation * IAIContent :=
  (Invocation r, NewFunctionResultContent (Chat.CallId call) (ResultText r)).

Fixpoint ExecuteToolCallsSequential (s : AgentSession) (cb : option (string → string → W → bool * W)) (n : nat)
    (calls : list function_call) : M W (ended + list (ToolInvocation * IAIContent)) :=
  match calls with
  | [] => go_on []
  | call :: calls =>
      o ← ExecuteSingleToolCall s cb n call;
      of_outcome s o (λ r, rest ←? ExecuteToolCallsSequential s cb n calls; go_on (call_result call r :: rest))
  end.

(** Every call runs unless it sees that another has failed; the results are read
    in the order of the calls. *)
Fixpoint run_parallel (s : AgentSession) (cb : option (string → string → W → bool * W)) (n : nat) (failed : bool)
    (calls : list function_call) : M W (list (function_call * outcome)) :=
  match calls with
  | [] => mret []
  | call :: calls =>
      canceled ← (if failed then ask sees_cancel else mret false);
      o ← (if (canceled : bool) then mret (Errored canceled_error) else ExecuteSingleToolCall s cb n call);
      rest ← run_parallel s cb n (failed || match o with Errored _ => true | _ => false end) calls;
      mret ((call, o) :: rest)
  end.

Fixpoint collect_results (s : AgentSession) (results : list (function_call * outcome))
    : M W (ended + list (ToolInvocation * IAIContent)) :=
  match results with
  | [] => go_on []
  | (call, o) :: results => of_outcome s o (λ r, rest ←? collect_results s results; go_on (call_result call r :: rest))
  end.

(** A panic in a call's goroutine ends the program. *)
Definition ExecuteToolCallsParallel (s : AgentSession) (cb : option (string → string → W → bool * W))
    (calls : list function_call) : M W (ended + list (ToolInvocation * IAIContent)) :=
  results ← run_parallel s cb (length calls) false calls;
  if existsb (λ x, match x.2 with Panicked => true | _ => false end) results then end_turn TurnPanicked s
  else collect_results s results.

Definition ExecuteToolCalls (s : AgentSession) (cb : option (string → string → W → bool * W)) (calls : list function_call)
    : M W (ended + list (ToolInvocation * IAIContent)) :=
  if parallelToolExecution a && bool_decide (1 < length calls) then ExecuteToolCallsParallel s cb calls
  else ExecuteToolCallsSequential s cb (length calls) calls.

(** ** Checkpoints of tool batches *)

(** An attempt and [more] after it; all are made, unless one is cancelled. *)
Fixpoint persist_attempts (more : nat) (c : SessionExecutionCheckpoint) (s : AgentSession)
    : M W (option go_error * AgentSession) :=
  let s := set_checkpoint (Some (set_persisted true c)) s in
  err ← ask (SaveSession s);
  match err with
  | Some e =>
      if stops e then mret (Some e, s)
      else
        let s := set_checkpoint (Some (set_persisted false c)) s in
        match more with S more => persist_attempts more c s | O => mret (Some e, s) end
  | None => match more with S more => persist_attempts more c s | O => mret (None, s) end
  end.

Definition PersistToolBatchCheckpoint (iteration : nat) (invocations : list ToolInvocation) (s : AgentSession)
    : M W (option go_error * AgentSession) :=
  if bool_decide (invocations = []) then mret (None, s)
  else
    id ← ask new_checkpoint_id;
    let sequence := match ExecutionCheckpoint s with Some c => wrap64 (1 + Sequence c) | None => 1%Z end in
    persist_attempts 2 (MkCheckpoint id "tool_batch" "ready_to_resume" sequence iteration (length (SHistory s)) false false
      "" (getToolCalls invocations)) s.

(** ** Turn routing *)

Definition CombineSystemPromptSuffixes (first second : string) : string :=
  if bool_decide (first = "") then second
  else if bool_decide (second = "") then first
  else TrimSpace first +:+ newline +:+ TrimSpace second.

Definition CombineSystemPromptOverride (original suffix : string) : string :=
  if bool_decide (suffix = "") then original
  else if bool_decide (original = "") then TrimSpace suffix
  else TrimSpace original +:+ newline +:+ TrimSpace suffix.

(** Everything but the tier goes back. *)
Definition TurnRoutingRestoreScope (snapshot : TurnRoutingSnapshot) (s : AgentSession) : AgentSession :=
  set_route (MkSnapshot (ModelProfileId snapshot) (PreferredModelTags snapshot) (FallbackModelProfileIds snapshot)
    (SystemPromptOverride snapshot) (RtAllowedTools snapshot) (RtToolsDisabled snapshot) (RouteModelTier (Route s))
    (RouteReason snapshot) (ReasoningEffort snapshot) (ResponseMode snapshot)) s.

Definition or_keep (new old : string) : string := if bool_decide (new = "") then old else new.

Definition apply_decision (d : TurnRoutingDecision) (metaRoutingSuffix : string) (r : TurnRoutingSnapshot)
    : TurnRoutingSnapshot :=
  MkSnapshot (or_keep (RdModelProfileId d) (ModelProfileId r))
    (if bool_decide (RdPreferredTags d = []) then PreferredModelTags r else RdPreferredTags d)
    (if bool_decide (RdDirectModelFallbackProfileId d = "") then FallbackModelProfileIds r
     else [RdDirectModelFallbackProfileId d])
    (CombineSystemPromptOverride (SystemPromptOverride r)
       (CombineSystemPromptSuffixes (RdSystemPromptSuffix d) metaRoutingSuffix))
    (if RdDisableTools d then []
     else if bool_decide (RdAllowedTools d = []) then RtAllowedTools r else RdAllowedTools d)
    (if RdDisableTools d then true
     else if bool_decide (RdAllowedTools d = []) then RtToolsDisabled r else false)
    (RdTier d) (RdReason d) (or_keep (RdReasoningLevel d) (ReasoningEffort r))
    (or_keep (RdResponsePolicy d) (ResponseMode r)).

(** The decision is left alone when there is one, and used when the policy
    failed. *)
Definition ApplyTurnRouting (s : AgentSession) (userMessage : string) : M W (ended + AgentSession) :=
  '(decision, err) ← ask (resolve_routing s userMessage);
  match err with
  | None => go_on s
  | Some _ =>
      match decision with
      | None => end_turn TurnPanicked s
      | Some d => go_on (set_route (apply_decision d (BuildMetaRoutingSuffix userMessage) (Route s)) s)
      end
  end.

(** ** The turn *)

(** The insertions of memories work on a variable of their own, which hides the
    one the turn goes on with. *)
Definition inject (index : nat) (text : option string) (x : list ChatMessage * list ChatMessage * option nat)
    : list ChatMessage * list ChatMessage * option nat :=
  match text with Some text => insert_shared index (NewChatMessageWithText RoleUser text) x | None => x end.

Definition texts_of (answer : option string + go_error) : option string :=
  match answer with inl text => text | inr _ => None end.

Definition stopped_by {A} (answer : A + go_error) : option go_error :=
  match answer with inr e => if stops e then Some e else None | inl _ => None end.

Definition ask_text (f : W → (option string + go_error) * W) (s : AgentSession) : M W (ended + option string) :=
  answer ← ask f;
  match stopped_by answer with Some e => end_turn (TurnFailed e) s | None => go_on (texts_of answer) end.

(** The messages the turn goes on with, of a slice with that capacity. *)
Definition injected (recall structured profile : option string) (messages : list ChatMessage) (capacity : nat)
    : list ChatMessage :=
  let memoryRecallInjected := match recall with Some _ => true | None => false end in
  let x := inject 1 recall (messages, messages, Some capacity) in
  let x := inject (if memoryRecallInjected then 2 else 1) structured x in
  (inject 2 profile x).1.2.

Definition inject_memories (s : AgentSession) (userMessage : string) (messages : list ChatMessage)
    : M W (ended + list ChatMessage) :=
  recall ←? ask_text (recall_text userMessage) s;
  structured ←? ask_text (structured_text s userMessage) s;
  profile ←? ask_text (profile_text s) s;
  go_on (injected recall structured profile messages (Nat.max (length messages) (append_capacity (length messages)))).

Definition resume_messages (c : SessionExecutionCheckpoint) (userMessage : string) (messages : list ChatMessage)
    : list ChatMessage :=
  SlicesInsert messages 1 (NewChatMessageWithText RoleSystem (ManagerBuildCheckpointResumeInstruction c)) ++
  (if ManagerIsBareResumeRequest userMessage then []
   else [NewChatMessageWithText RoleUser (ManagerBuildCheckpointResumeUserNote userMessage)]).

(** The calls that are held by pointer. *)
Definition tool_calls (messages : list ChatMessage) : list function_call :=
  flat_map (λ m, omap (λ c, match c with FunctionCallContent ByPointer call => Some call | _ => None end) (Contents m))
    messages.

(** The answer is a text: the turn is over, unless a goal goes on. *)
Definition final_response (i : nat) (text : string) (messages : list ChatMessage) (s : AgentSession)
    : M W (ended + (list ChatMessage * AgentSession)) :=
  continuationPrompt ←
    (if hasGoalIntegration a then
       tell (UpdateGoalTokenUsage s);; ask (EvaluateGoalContinuation s i (maxIterations a) text)
     else mret "");
  if bool_decide (continuationPrompt = "") then
    let s := ManagerMarkCheckpointCompleted "completed" "final_response" (add_turn (MkTurn "assistant" text []) s) in
    AppendContractSnapshot s "active";; complete text s
  else
    go_on (messages ++ [NewChatMessageWithText RoleSystem continuationPrompt],
           add_turn (MkTurn "system" ("[goal_check:" +:+ Itoa (Z.of_nat i) +:+ "] Continue working toward objective...") []) s).

Definition tool_batch (i : nat) (cb : option (string → string → W → bool * W)) (calls : list function_call)
    (messages : list ChatMessage) (s : AgentSession) : M W (ended + (list ChatMessage * AgentSession)) :=
  results ←? ExecuteToolCalls s cb calls;
  let messages := messages ++
    [MkMessage RoleAssistant (FunctionCallContent ByValue <$> calls);
     MkMessage RoleTool ((λ x, match x.2 with FunctionResultContent _ id r => FunctionResultContent ByValue id r | c => c end)
                           <$> results)] in
  let s := TrimHistory (add_turn (MkTurn "assistant" "[tool_use]" (fst <$> results)) s) in
  '(err, s) ← PersistToolBatchCheckpoint i (fst <$> results) s;
  match err with
  | Some e => if stops e then end_turn (TurnFailed e) s else complete Sorry s
  | None => go_on (messages, s)
  end.

(** One iteration of the loop. *)
Definition turn_step (i : nat) (cb : option (string → string → W → bool * W)) (messages : list ChatMessage) (s : AgentSession)
    : M W (ended + (list ChatMessage * AgentSession)) :=
  canceled ← ask (λ w, (ctx_err w, w));
  match canceled with
  | Some e => end_turn (TurnFailed e) s
  | None =>
      if (0 <? sessionTokenBudget a)%Z && (sessionTokenBudget a <=? GetTotalTokens s)%Z then
        end_turn (TurnReturned (MkTurnResult
          "You've reached the token limit for this session. Please start a new conversation." false AgentTurnBudgetLimited "")) s
      else
        _ ←? check_contract s;
        answer ← CallLlmWithResilience false s messages;
        match answer with
        | inr e => if stops e then end_turn (TurnFailed e) s else complete Sorry s
        | inl None => complete Sorry s
        | inl (Some r) =>
            match Response r with
            | None => end_turn TurnPanicked s
            | Some response =>
                let '(inputTokens, outputTokens) := default (0, 0)%Z (Usage response) in
                let s := AddTokenUsage inputTokens outputTokens s in
                tell (recordContractTurnUsage s inputTokens outputTokens);;
                _ ←? check_contract s;
                match tool_calls (Messages response) with
                | [] => final_response i (Redact (ConcatMessagesContents (Messages response))) messages s
                | calls => tool_batch i cb calls messages s
                end
            end
        end
  end.

(** The loop has run [maxIterations] times. *)
Definition batch_limit (s : AgentSession) : M W (ended + ()) :=
  let s := ManagerMarkCheckpointCompleted "failed" "max_iterations" s in
  AppendContractSnapshot s "active";;
  goal ← (if hasGoalIntegration a then ask (BuildGoalSystemPrompt (SId s)) else mret "");
  let canContinue := backgroundExecutionEnabled a in
  end_turn (TurnReturned (MkTurnResult
    (if canContinue then "I've reached the maximum number of tool iterations. Continuing in the background."
     else "I've reached the maximum number of tool iterations. Task requires more work.")
    canContinue AgentTurnBatchLimitReached
    (if negb canContinue then ""
     else if bool_decide (goal = "") then "Continue working on the task."
     else "Continue working toward the active goal."))) s.

(** [more] iterations from number [i] on. *)
Fixpoint turn_loop (more i : nat) (cb : option (string → string → W → bool * W)) (messages : list ChatMessage)
    (s : AgentSession) : M W (ended + ()) :=
  match more with
  | O => batch_limit s
  | S more => '(messages, s) ←? turn_step i cb messages s; turn_loop more (S i) cb messages s
  end.

(** What comes before the routing of the turn. *)
Definition start_turn (userMessage : string) (s : AgentSession)
    : M W (ended + (option SessionExecutionCheckpoint * AgentSession)) :=
  _ ←? check_contract s;
  match ManagerTryGetResumableCheckpoint s with
  | Some c => let c := set_resume_attempt c in go_on (Some c, set_checkpoint (Some c) s)
  | None =>
      let s := add_turn (MkTurn "user" userMessage []) s in
      s ←? (if enableCompaction a then CompactHistory s else go_on (TrimHistory s));
      go_on (None, s)
  end.

(** The request of a routed turn, and the loop. *)
Definition routed_turn (userMessage : string) (resume : option SessionExecutionCheckpoint)
    (cb : option (string → string → W → bool * W)) (s : AgentSession) : M W (ended + ()) :=
  let messages := BuildMessages s (match resume with Some _ => true | None => false end) userMessage in
  messages ←?
    (match resume with
     | Some c => go_on (resume_messages c userMessage messages)
     | None => inject_memories s userMessage messages
     end);
  goalPrompt ← (if hasGoalIntegration a then ask (BuildGoalSystemPrompt (SId s)) else mret "");
  let messages :=
    if bool_decide (goalPrompt = "") then messages
    else SlicesInsert messages 1 (NewChatMessageWithText RoleSystem goalPrompt) in
  turn_loop (maxIterations a) 0 cb messages s.

(** A computation that always ends the turn. *)
Definition ending (m : M W (ended + ())) (s : AgentSession) : M W ended :=
  r ← m; mret (match r with inl e => e | inr _ => (TurnPanicked, s) end).

(** The routing is undone however the turn ends. *)
Definition RunTurn (s : AgentSession) (userMessage : string) (cb : option (string → string → W → bool * W)) : M W ended :=
  let userMessage := Redact userMessage in
  started ← start_turn userMessage s;
  match started with
  | inl e => mret e
  | inr (resume, s) =>
      routed ← ApplyTurnRouting s userMessage;
      match routed with
      | inl e => mret e
      | inr s' =>
          '(e, s'') ← ending (routed_turn userMessage resume cb s') s';
          mret (e, TurnRoutingRestoreScope (Route s) s'')
      end
  end.

Definition Run (s : AgentSession) (userMessage : string) (cb : option (string → string → W → bool * W))
    : M W ((string + go_error) * AgentSession) :=
  '(e, s) ← RunTurn s userMessage cb;
  mret (match e with
        | TurnReturned r => (inl (ResText r), s)
        | TurnFailed e => (inr e, s)
        | TurnPanicked => (inr (plain_error "panic"), s)
        end).
End Runtime.
