(* ===== verification/MetaInvoke.v ===== *)
(** Meta skills within a turn: what [ExecuteMetaSkill] of
    [openclaw/agent/agent_runtime.go] asks of the runtime whose executor starts
    it.

    How a plan goes is modelled in [MetaRun.v]; here only what it does to tools
    and to the model matters.  A run asks for one thing after another, as the
    answers so far decide: a call of the executor ([ExecuteMetaToolStepWithPolicy],
    and the target of [ExecuteGoverned] of [openclaw/agent/capability_executor.go]),
    a script ([ExecuteSkillEntrypoint]), a request to the model, or anything else.
    So it is a tree of requests, and every tree is allowed.  A call may start
    another meta skill: [depth] is how deep they nest, and whatever returns nests
    to some depth. *)

From S2P Require Import Prelude GoStrings ToolPolicy Chat Effects ToolRouting ToolExecutor AgentTurn.
Local Open Scope string_scope.
Local Open Scope list_scope.

Section MetaInvoke.
Context {W : Type} {TW : ToolWorld W} {EW : ExecutorWorld W} {AW : TurnWorld W} (lower_rune : N → N).

Inductive meta_program :=
  | MetaOutput (text : string)
  | MetaTool (callId toolName argsJson : string) (attempt : nat) (bound : option ITool) (rest : outcome → meta_program)
  | MetaScript (command : string) (arguments : list string) (workingDirectory : string)
      (rest : ExecutionResult + go_error → meta_program)
  | MetaModel (messages : list ChatMessage) (rest : option LlmExecutionResult + go_error → meta_program)
  | MetaOther (change : W → W) (rest : W → meta_program).

(** The session as a request to the model reads it: its tokens. *)
Definition model_session (session : Session) : AgentSession :=
  MkAgentSession (SessId session) (SessChannelId session) (SessSenderId session) [] (SessTotalTokens session) 0 false None
    (MkSnapshot "" [] [] "" [] false "" "" "" "").

(** A script runs on the default backend and on no other. *)
Definition skill_request (config : GatewayConfig) (command : string) (arguments : list string) (workingDirectory : string) :
    ExecutionRequest :=
  MkExecRequest "skill_exec" (DefaultBackend config) command arguments "" workingDirectory "" 0 false true.

Fixpoint run_program (a : AgentRuntime W) (session : Session) (p : meta_program) : M W string :=
  match p with
  | MetaOutput text => mret text
  | MetaTool callId toolName argsJson attempt bound rest =>
      out ← Execute lower_rune (toolExecutor a) session callId false None toolName argsJson None attempt bound;
      run_program a session (rest out)
  | MetaScript command arguments workingDirectory rest =>
      let o := toolExecutor a in
      result ← router_Execute lower_rune (backends o) "" (skill_request (config o) command arguments workingDirectory) "";
      run_program a session (rest result)
  | MetaModel messages rest =>
      answer ← CallLlmWithResilience a false (model_session session) messages;
      run_program a session (rest answer)
  | MetaOther change rest => w ← ask (λ w, (w, change w)); run_program a session (rest w)
  end.

Definition set_executor (execute : Session → string → string → W → (string * list event) * W)
    (o : OpenClawToolExecutor W) : OpenClawToolExecutor W :=
  MkExecutor (toolsByName o) (requireToolApproval o) (approvalRequiredTools o) (hooks o) (interceptors o) (config o)
    (backends o) (hasSandbox o) (toolTimeout o) (toolPresetResolver o) (hasAuditLog o) (Some execute).

Definition with_meta (execute : Session → string → string → W → (string * list event) * W) (a : AgentRuntime W) :
    AgentRuntime W :=
  MkRuntime (maxIterations a) (maxHistoryTurns a) (retryCount a) (sessionTokenBudget a) (estimateTokenBudgetAdmission a)
    (enableCompaction a) (compactionThreshold a) (compactionKeepRecent a) (parallelToolExecution a) (hasGoalIntegration a)
    (hasLlmExecutionService a) (backgroundExecutionEnabled a) (set_executor execute (toolExecutor a)).

(** The runs of the skills by name, on their input. *)
Context (program : Session → string → string → W → meta_program).

Fixpoint ExecuteMetaSkill (depth : nat) (a : AgentRuntime W) (session : Session) (skillName input : string) (w : W) :
    (string * list event) * W :=
  match depth with
  | O => (("", []), w)
  | S depth =>
      let '(text, st) := run_program (with_meta (ExecuteMetaSkill depth a) a) session (program session skillName input w) (MkState w []) in
      ((text, trace st), world st)
  end.

(** [NewAgentRuntime] hands its executor the closure [metaExecutor]. *)
Definition NewAgentRuntime (depth : nat) (a : AgentRuntime W) : AgentRuntime W := with_meta (ExecuteMetaSkill depth a) a.
End MetaInvoke.
Arguments meta_program W : clear implicits.
