(* ===== verification/AgentTurnSpec.v ===== *)
(** What a turn of the agent guarantees.

    One pass over [RunTurn] ([RunTurn_safe]) carries any property of single
    events that tool calls and admitted requests have to the whole turn, counts
    the requests to the model, and says what of the session is left alone.  The
    theorems instantiate it: the autonomy hook, the token budget, the number of
    requests, routing.  Others compare requests: admission control, compaction
    and recalled memories. *)

From S2P Require Import Prelude GoStrings Json ToolPolicy Chat Effects ToolRouting ToolExecutor PathPolicy Hooks AgentTurn MetaInvoke.
Local Open Scope string_scope.
Local Open Scope list_scope.

(** ** Sessions and requests *)

(** What a turn leaves alone, but for the routing, which it undoes. *)
Definition kept (s s' : AgentSession) : Prop :=
  SId s' = SId s ∧ SChannelId s' = SChannelId s ∧ SSenderId s' = SSenderId s ∧ HasContract s' = HasContract s ∧
  Route s' = Route s.

#[export] Instance kept_preorder : PreOrder kept.
Proof.
  split; [done |]. intros s1 s2 s3 (? & ? & ? & ? & ?) (? & ? & ? & ? & ?). unfold kept. split_and!; congruence.
Qed.

Definition set_tier (tier : string) (r : TurnRoutingSnapshot) : TurnRoutingSnapshot :=
  MkSnapshot (ModelProfileId r) (PreferredModelTags r) (FallbackModelProfileIds r) (SystemPromptOverride r)
    (RtAllowedTools r) (RtToolsDisabled r) tier (RouteReason r) (ReasoningEffort r) (ResponseMode r).

Lemma kept_history h s : kept s (set_history h s). Proof. done. Qed.
Lemma kept_turn t s : kept s (add_turn t s). Proof. done. Qed.
Lemma kept_checkpoint c s : kept s (set_checkpoint c s). Proof. done. Qed.
Lemma kept_tokens i o s : kept s (AddTokenUsage i o s). Proof. done. Qed.
Lemma kept_mark state reason s : kept s (ManagerMarkCheckpointCompleted state reason s).
Proof. unfold ManagerMarkCheckpointCompleted. destruct (ExecutionCheckpoint s); [| done]. by destruct (EqualFold _ _). Qed.

(** A message without a text that is held by value. *)
Definition plain (m : ChatMessage) : Prop := Forall by_pointer (Contents m).

Lemma plain_text role text : plain (NewChatMessageWithText role text).
Proof. by repeat constructor. Qed.

Lemma plain_insert i m l : plain m → Forall plain l → Forall plain (SlicesInsert l i m).
Proof.
  intros Hm Hl. unfold SlicesInsert, insert_at. apply Forall_app. split; [by apply Forall_take |].
  constructor; [done | by apply Forall_drop].
Qed.

#[export] Hint Resolve kept_history kept_turn kept_checkpoint kept_tokens kept_mark plain_text plain_insert : goproj.

Section Turn.
Context {W : Type} {TW : ToolWorld W} {EW : ExecutorWorld W} {AW : TurnWorld W} (lower_rune : N → N).
Context (a : AgentRuntime W).

Lemma kept_trim s : kept s (TrimHistory a s).
Proof. unfold TrimHistory. by case_bool_decide. Qed.

Lemma turn_messages_plain exact turn : Forall plain (turn_messages (W := W) exact turn).
Proof.
  unfold turn_messages. destruct (_ && HasPrefix _ _); [by repeat constructor |].
  destruct (_ || _); [constructor; [apply BuildTurnContents_by_pointer | done] |].
  destruct (_ && negb _); [| done]. destruct exact; [| by repeat constructor].
  constructor; [| constructor; [| done]]; apply Forall_lookup; intros i c Hc; cbn [Contents] in Hc; rewrite list_lookup_imap in Hc;
    by apply fmap_Some in Hc as (tc & _ & ->).
Qed.

Lemma history_messages_plain exact turns : Forall plain (history_messages (W := W) exact turns).
Proof.
  induction turns as [| t [| t' turns] IH]; simpl; [done | apply turn_messages_plain |].
  apply Forall_app. split; [apply turn_messages_plain | exact IH].
Qed.

Lemma BuildMessages_plain s exact userMessage : Forall plain (BuildMessages a s exact userMessage).
Proof. constructor; [apply plain_text | apply history_messages_plain]. Qed.

(** ** One pass over the turn *)

Section Safe.
Context (ok : event → Prop).
Context (Hcall : ∀ session callId name args cb n st,
  safe ok 0 (Execute lower_rune (toolExecutor a) session callId false None name args cb n None) st
    (λ out, match out with Returned r => filed callId name r | _ => True end)).
Context (Hmodel : ∀ tokens request, Forall plain request →
  ((0 < sessionTokenBudget a)%Z → (tokens < sessionTokenBudget a)%Z) → ok (EvModel false tokens request)).
Context (Hsummary : ∀ tokens request, Forall plain request → ok (EvModel true tokens request)).

(** The session a computation that has ended leaves, and what holds if it has
    not. *)
Definition from {A} (s : AgentSession) (P : A → Prop) (r : ended + A) : Prop :=
  match r with inl o => kept s o.2 | inr x => P x end.

Lemma from_inl {A B} s s' (P : A → Prop) (Q : B → Prop) (e : ended) : kept s s' → from s' P (inl e) → from s Q (inl e).
Proof. destruct e as [e s'']. simpl. intros. by etransitivity. Qed.

Lemma call_client_safe more summary s messages lastError (st : state W) : ok (EvModel summary (GetTotalTokens s) messages) →
  safe ok (S more) (call_client more summary s messages lastError) st (λ _, True).
Proof.
  intros Hok. revert lastError st. induction more as [| more IH]; intros lastError st; simpl; (apply safe_emit; [done |]);
    intros s1; apply safe_ask; intros [[r |] | err] s2; try (destruct (stops err)); try (by apply safe_ret); apply IH.
Qed.

Lemma CallLlm_safe summary s messages (st : state W) : ok (EvModel summary (GetTotalTokens s) messages) →
  safe ok (S (retryCount a)) (CallLlmWithResilience a summary s messages) st (λ _, True).
Proof.
  intros Hok. unfold CallLlmWithResilience. destruct (TryRejectEstimatedBudget _ _ _); [by apply safe_ret |].
  destruct (hasLlmExecutionService a); [| by apply call_client_safe].
  eapply safe_weaken with (n := 1); [| lia | done]. apply safe_emit; [done |]. intros st'.
  apply safe_asked.
Qed.

Lemma tell_safe {A} n (f : W → W) (k : () → M W A) st Q :
  (∀ u st', safe ok n (k u) st' Q) → safe ok n (tell f ≫= k) st Q.
Proof. apply safe_ask. Qed.

Lemma snapshot_safe {A} n s status (k : () → M W A) st Q :
  (∀ u st', safe ok n (k u) st' Q) → safe ok n (AppendContractSnapshot s status ≫= k) st Q.
Proof. intros Hk. unfold AppendContractSnapshot. destruct (HasContract s); [by apply tell_safe | apply Hk]. Qed.

Lemma check_contract_safe s (st : state W) : safe ok 0 (check_contract s) st (from s (λ _, True)).
Proof.
  unfold check_contract. eapply safe_then with (P := λ _, True).
  - unfold TryRejectContractBudget. destruct (negb _); [by apply safe_ret |].
    apply safe_ask. intros [] st1; [by apply safe_ret |]. apply safe_ask. intros ? st2. by apply safe_ret.
  - intros [message |] st1 _; [| by apply safe_ret]. apply snapshot_safe. intros ? st2. by apply safe_ret.
Qed.

Lemma CompactHistory_safe s (st : state W) : safe ok (S (retryCount a)) (CompactHistory a s) st (from s (kept s)).
Proof.
  unfold CompactHistory. cbv zeta. destruct (_ || _); [apply safe_ret, kept_trim |].
  eapply safe_bind with (n1 := S (retryCount a)) (n2 := 0); [| | lia].
  - apply CallLlm_safe, Hsummary. unfold summary_request. by repeat constructor.
  - intros [[r |] | err] st1 _; [| by apply safe_ret | destruct (IsCanceled err); apply safe_ret; [done | apply kept_trim]].
    destruct (match Response r with Some _ => _ | None => _ end) as [summary [input output]].
    apply tell_safe. intros ? st2. apply safe_ret. simpl.
    case_bool_decide; [etransitivity; [| apply kept_trim] |]; done.
Qed.

(** *** Tool calls *)

(** What a call may answer, and what is made of it. *)
Definition filed_as (call : function_call) (o : outcome) : Prop :=
  match o with Returned r => filed (Chat.CallId call) (CallName call) r | _ => True end.
Definition answers_call (call : function_call) (x : ToolInvocation * IAIContent) : Prop :=
  CallId x.1 = Chat.CallId call ∧ InvToolName x.1 = CallName call ∧ by_pointer x.2.

Lemma of_outcome_safe {A} n s call o (f : ToolExecutionResult → M W (ended + A)) st (P : A → Prop) : filed_as call o →
  (∀ r, filed (Chat.CallId call) (CallName call) r → safe ok n (f r) st (from s P)) → safe ok n (of_outcome s o f) st (from s P).
Proof.
  intros Ho Hf. destruct o as [r | e |]; cbn [of_outcome]; [exact (Hf r Ho) | destruct (stops e) |]; by apply safe_ret.
Qed.

Lemma ExecuteToolCallsSequential_safe s cb n calls : ∀ st : state W,
  safe ok 0 (ExecuteToolCallsSequential lower_rune a s cb n calls) st (from s (Forall2 answers_call calls)).
Proof.
  induction calls as [| call calls IH]; intros st; simpl; [apply safe_ret; constructor |].
  eapply safe_then; [apply Hcall |]. intros o st1 Ho. apply (of_outcome_safe _ _ call); [exact Ho |]. intros r [Hid Hname].
  eapply safe_try_then; [apply IH | done |]. intros rest st2 Hrest. apply safe_ret. by constructor.
Qed.

Lemma run_parallel_safe s cb n calls : ∀ failed st,
  safe ok 0 (run_parallel lower_rune a s cb n failed calls) st (λ results, fst <$> results = calls ∧
    Forall (λ x, filed_as x.1 x.2) results).
Proof.
  induction calls as [| call calls IH]; intros failed st; simpl; [by apply safe_ret |].
  eapply safe_then with (P := λ _, True).
  { destruct failed; [| by apply safe_ret]. apply safe_asked. }
  intros canceled st1 _. eapply safe_then with (P := filed_as call).
  { destruct canceled; [by apply safe_ret | apply Hcall]. }
  intros o st2 Ho. eapply safe_then; [apply IH |]. intros rest st3 [<- Hrest]. apply safe_ret. split; [done | by constructor].
Qed.

Lemma collect_results_safe s results : Forall (λ x, filed_as x.1 x.2) results → ∀ st : state W,
  safe ok 0 (collect_results s results) st (from s (Forall2 answers_call (fst <$> results))).
Proof.
  induction 1 as [| [call o] results Ho _ IH]; intros st; simpl; [apply safe_ret; constructor |].
  apply (of_outcome_safe _ _ call); [exact Ho |]. intros r [Hid Hname]. eapply safe_try_then; [apply IH | done |].
  intros rest st2 Hrest. apply safe_ret. by constructor.
Qed.

Lemma ExecuteToolCalls_safe s cb calls (st : state W) :
  safe ok 0 (ExecuteToolCalls lower_rune a s cb calls) st (from s (Forall2 answers_call calls)).
Proof.
  unfold ExecuteToolCalls. destruct (_ && _); [| apply ExecuteToolCallsSequential_safe].
  unfold ExecuteToolCallsParallel. eapply safe_then; [apply run_parallel_safe |].
  intros results st1 [<- Hres]. destruct (existsb _ _); [by apply safe_ret | by apply collect_results_safe].
Qed.

Lemma persist_attempts_safe more c s : ∀ st : state W,
  safe ok 0 (persist_attempts more c s) st (λ r, kept s r.2).
Proof.
  induction more as [| more IH] in s |- *; intros st; simpl; apply safe_ask; intros [e |] st1;
    try destruct (stops e); try (by apply safe_ret);
    (eapply safe_weaken; [apply IH | done |]; intros r Hr; etransitivity; [| exact Hr]; done).
Qed.

Lemma PersistToolBatchCheckpoint_safe i invocations s (st : state W) :
  safe ok 0 (PersistToolBatchCheckpoint i invocations s) st (λ r, kept s r.2).
Proof.
  unfold PersistToolBatchCheckpoint. case_bool_decide; [by apply safe_ret |].
  apply safe_ask. intros id st1. apply persist_attempts_safe.
Qed.

(** *** The loop *)

(** What an iteration leaves for the next. *)
Definition next (s : AgentSession) (r : list ChatMessage * AgentSession) : Prop := Forall plain r.1 ∧ kept s r.2.

Lemma final_response_safe i text messages s (st : state W) : Forall plain messages →
  safe ok 0 (final_response a i text messages s) st (from s (next s)).
Proof.
  intros Hplain. unfold final_response. eapply safe_then with (P := λ _, True).
  { destruct (hasGoalIntegration a); [| by apply safe_ret]. apply tell_safe. intros ? st1.
    apply safe_asked. }
  intros prompt st1 _. case_bool_decide.
  - apply snapshot_safe. intros ? st2. apply safe_ret. simpl. etransitivity; [apply kept_turn | apply kept_mark].
  - apply safe_ret. split; [| done]. apply Forall_app. split; [done |]. by repeat constructor.
Qed.

Lemma tool_batch_safe i cb calls messages s (st : state W) : Forall plain messages →
  safe ok 0 (tool_batch lower_rune a i cb calls messages s) st (from s (next s)).
Proof.
  intros Hplain. unfold tool_batch. eapply safe_try_then; [apply ExecuteToolCalls_safe | done |].
  intros results st1 Hres. eapply safe_then; [apply PersistToolBatchCheckpoint_safe |].
  intros [err s'] st2 Hs'. assert (kept s s') as Hkept.
  { etransitivity; [| exact Hs']. etransitivity; [| apply kept_trim]. done. }
  destruct err as [e |]; [destruct (stops e); by apply safe_ret |]. apply safe_ret. split; [| done]. simpl.
  apply Forall_app. split; [done |]. constructor; [| constructor; [| done]].
  - apply Forall_fmap, Forall_true. done.
  - apply Forall_fmap. eapply Forall2_Forall_r; [exact Hres |]. apply Forall_true. intros call [? c] (_ & _ & Hc). by destruct c.
Qed.

Lemma turn_step_safe i cb messages s (st : state W) : Forall plain messages →
  safe ok (S (retryCount a)) (turn_step lower_rune a i cb messages s) st (from s (next s)).
Proof.
  intros Hplain. unfold turn_step. apply safe_ask. intros [e |] st1; [by apply safe_ret |].
  destruct ((0 <? _)%Z && _) eqn:Hbudget; [by apply safe_ret |].
  eapply safe_try_then; [apply check_contract_safe | done |]. intros ? st2 _.
  eapply safe_bind with (n1 := S (retryCount a)) (n2 := 0); [| | lia].
  { apply CallLlm_safe, Hmodel; [done |]. lia. }
  intros [[r |] | err] st3 _; [| by apply safe_ret | destruct (stops err); by apply safe_ret].
  destruct (Response r) as [response |]; [| by apply safe_ret]. destruct (default _ _) as [input output].
  apply tell_safe. intros ? st4. cbv zeta.
  assert (∀ r : ended + (list ChatMessage * AgentSession),
    from (AddTokenUsage input output s) (next (AddTokenUsage input output s)) r → from s (next s) r) as Hs.
  { intros [[e s'] |]; done. }
  eapply safe_try_then; [apply check_contract_safe | done |]. intros ? st5 _.
  destruct (tool_calls (Messages response)) as [| call calls].
  - eapply safe_weaken; [by apply final_response_safe | done | exact Hs].
  - eapply safe_weaken; [by apply tool_batch_safe | done | exact Hs].
Qed.

Lemma batch_limit_safe s (st : state W) : safe ok 0 (batch_limit a s) st (from s (λ _, True)).
Proof.
  unfold batch_limit. apply snapshot_safe. intros ? st1.
  eapply safe_then with (P := λ _, True).
  - destruct (hasGoalIntegration a); [| by apply safe_ret]. apply safe_asked.
  - intros goal st2 _. apply safe_ret, kept_mark.
Qed.

Lemma turn_loop_safe cb more : ∀ i messages s st, Forall plain messages →
  safe ok (more * S (retryCount a)) (turn_loop lower_rune a more i cb messages s) st (from s (λ _, True)).
Proof.
  induction more as [| more IH]; intros i messages s st Hplain; [apply batch_limit_safe |]. cbn [turn_loop].
  eapply safe_try with (n2 := more * S (retryCount a)); [by apply turn_step_safe | done | | apply Nat.le_refl]. intros [messages' s'] st1 [Hplain' Hs'].
  eapply safe_weaken; [by apply IH | done |]. intros [[e s''] |]; [| done]. simpl in *. intros. by etransitivity.
Qed.

(** *** The whole turn *)

Lemma start_turn_safe userMessage s (st : state W) :
  safe ok (if enableCompaction a then S (retryCount a) else 0) (start_turn a userMessage s) st (from s (λ r, kept s r.2)).
Proof.
  unfold start_turn. eapply safe_try_then; [apply check_contract_safe | done |]. intros ? st1 _.
  destruct (ManagerTryGetResumableCheckpoint s) as [c |]; [by apply safe_ret |]. cbv zeta.
  set (s1 := add_turn _ s). eapply safe_try with (n2 := 0) (P := from s1 (kept s1)); [| done | | by rewrite Nat.add_0_r].
  - destruct (enableCompaction a); [apply CompactHistory_safe | apply safe_ret, kept_trim].
  - intros s2 st2 Hs2. by apply safe_ret.
Qed.

Definition both_plain (x : list ChatMessage * list ChatMessage * option nat) : Prop :=
  Forall plain x.1.1 ∧ Forall plain x.1.2.

Lemma inject_plain index text x : both_plain x → both_plain (inject index text x).
Proof.
  destruct x as [[inner outer] room], text as [text |]; [| done]. intros [Hin Hout]. simpl in *.
  assert (Forall plain (SlicesInsert inner (Nat.min index (length inner)) (NewChatMessageWithText RoleUser text)))
    by auto with goproj.
  destruct room as [cap |]; [case_bool_decide |]; split; try done. by apply Forall_take.
Qed.

Lemma injected_plain recall structured profile messages capacity : Forall plain messages →
  Forall plain (injected recall structured profile messages capacity).
Proof. intros H. unfold injected. by repeat apply inject_plain. Qed.

Lemma ask_text_safe {A} f s (k : option string → M W (ended + A)) (st : state W) n P :
  (∀ text st', safe ok n (k text) st' (from s P)) → safe ok n (try_bind (ask_text f s) k) st (from s P).
Proof.
  intros Hk. eapply safe_try_then with (P := from s (λ _, True)); [| done | intros; apply Hk].
  unfold ask_text. apply safe_ask. intros answer st1. destruct (stopped_by answer); by apply safe_ret.
Qed.

Lemma inject_memories_safe s userMessage messages (st : state W) : Forall plain messages →
  safe ok 0 (inject_memories s userMessage messages) st (from s (Forall plain)).
Proof.
  intros Hplain. unfold inject_memories. repeat (apply ask_text_safe; intros).
  apply safe_ret. simpl. by apply injected_plain.
Qed.

Lemma resume_plain c userMessage messages : Forall plain messages → Forall plain (resume_messages c userMessage messages).
Proof.
  intros H. unfold resume_messages. apply Forall_app. split; [auto with goproj |].
  destruct (ManagerIsBareResumeRequest _); by repeat constructor.
Qed.

Lemma routed_turn_safe userMessage resume cb s (st : state W) :
  safe ok (maxIterations a * S (retryCount a)) (routed_turn lower_rune a userMessage resume cb s) st (from s (λ _, True)).
Proof.
  unfold routed_turn. cbv zeta. pose proof (BuildMessages_plain s) as Hbuild.
  eapply safe_try_then with (P := from s (Forall plain)); [| done |].
  - destruct resume as [c |]; [| by apply inject_memories_safe]. by apply safe_ret, resume_plain.
  - intros messages st1 Hplain. eapply safe_then with (P := λ _, True).
    { destruct (hasGoalIntegration a); [apply safe_asked | by apply safe_ret]. }
    intros goalPrompt st2 _. apply turn_loop_safe. case_bool_decide; auto with goproj.
Qed.

(** The routing is as before, all but its tier. *)
Definition undone (s s' : AgentSession) : Prop := ∃ tier, kept (set_route (set_tier tier (Route s)) s) s'.

Lemma kept_undone s s' : kept s s' → undone s s'.
Proof.
  intros (? & ? & ? & ? & HR). exists (RouteModelTier (Route s)). unfold kept. simpl. split_and!; try done.
  rewrite HR. by destruct (Route s).
Qed.

Lemma RunTurn_safe s userMessage cb (st : state W) :
  safe ok ((maxIterations a + if enableCompaction a then 1 else 0) * S (retryCount a))
    (RunTurn lower_rune a s userMessage cb) st (λ r, undone s r.2).
Proof.
  unfold RunTurn. cbv zeta.
  eapply safe_bind with (n2 := maxIterations a * S (retryCount a)); [apply start_turn_safe | |].
  2: { destruct (enableCompaction a); lia. }
  intros [o | [resume s1]] st1 Hs1; [by apply safe_ret, kept_undone |]. simpl in Hs1.
  eapply safe_then with (P := from s1 (λ s2, ∃ route, s2 = set_route route s1)).
  { unfold ApplyTurnRouting. apply safe_ask. intros [[d |] [e |]] st2; apply safe_ret; simpl; [eauto | | done |];
      exists (Route s1); by destruct s1. }
  intros [o | s2] st2 Hs2; [apply safe_ret, kept_undone; by etransitivity |]. destruct Hs2 as [route ->].
  eapply safe_bind with (n2 := 0) (P := λ r, kept (set_route route s1) r.2); [| | by rewrite Nat.add_0_r].
  - unfold ending. eapply safe_bind with (n2 := 0); [apply routed_turn_safe | | by rewrite Nat.add_0_r].
    intros [o | []] st3 Hr; by apply safe_ret.
  - intros [e s3] st3 Hs3. apply safe_ret. exists (RouteModelTier (Route s3)).
    destruct Hs1 as (? & ? & ? & ? & HR), Hs3 as (? & ? & ? & ? & HR'). unfold kept, TurnRoutingRestoreScope. simpl in *.
    rewrite HR. split_and!; try congruence. by destruct (Route s).
Qed.
End Safe.

(** Tool calls do not ask the model, so they are safe for what holds of every
    event but requests. *)
Lemma Execute_safe (ok : event → Prop) (o : OpenClawToolExecutor W) session callId name args cb n (st : state W) :
  yields (Execute lower_rune o session callId false None name args cb n None) st (λ _ evs, Forall ok evs) →
  safe ok 0 (Execute lower_rune o session callId false None name args cb n None) st
    (λ out, match out with Returned r => filed callId name r | _ => True end).
Proof.
  intros H. pose proof (Execute_filed lower_rune o session callId false None name args cb n None st) as Hfiled.
  destruct (yields_and _ _ _ _ H (Execute_asks_no_model lower_rune o session callId false None name args cb n None st))
    as (evs & Htr & Hok & Hn). exists evs. by rewrite Hn.
Qed.

Lemma Execute_records_no_request (o : OpenClawToolExecutor W) session callId name args cb n (st : state W) :
  yields (Execute lower_rune o session callId false None name args cb n None) st
    (λ _ evs, Forall (λ e, match e with EvModel _ _ _ => False | _ => True end) evs).
Proof.
  eapply yields_weaken; [apply Execute_asks_no_model |]. intros out evs. unfold model_calls.
  induction evs as [| e evs IH]; [done |]. simpl. intros H. destruct e; try (constructor; [done |]; by apply IH).
Qed.

(** ** The token budget *)

(** C5: no request a turn itself makes goes to the model once the session has
    used up its token budget; a summary of the history is the one exception.  And
    a turn itself makes at most as many requests as iterations, each with its
    retries, and one more for the summary.  What a meta skill asks of the model,
    when a tool call starts one, is recorded with its run, within [EvMeta], and is
    held to neither. *)
Theorem turn_respects_budgets s userMessage cb (st : state W) :
  yields (RunTurn lower_rune a s userMessage cb) st (λ _ evs,
    Forall (λ e, match e with
                 | EvModel false tokens _ => (0 < sessionTokenBudget a)%Z → (tokens < sessionTokenBudget a)%Z
                 | _ => True
                 end) evs ∧
    model_calls evs ≤ (maxIterations a + if enableCompaction a then 1 else 0) * S (retryCount a))%nat.
Proof.
  eapply yields_weaken.
  - apply (RunTurn_safe (λ e, match e with
      | EvModel false tokens _ => (0 < sessionTokenBudget a)%Z → (tokens < sessionTokenBudget a)%Z | _ => True end)); [| done..].
    intros. apply Execute_safe. eapply yields_weaken; [apply Execute_records_no_request |].
    intros out evs H. eapply Forall_impl; [exact H |]. by intros [].
  - by intros r evs (? & ? & _).
Qed.

(** A turn leaves the session's identity, its contract and all of its routing
    but the tier as they were, however it ends. *)
Theorem turn_undoes_routing s userMessage cb (st : state W) :
  undone s (RunTurn lower_rune a s userMessage cb st).1.2.
Proof.
  destruct (RunTurn_safe (λ _, True)) with (s := s) (userMessage := userMessage) (cb := cb) (st := st)
    as (evs & _ & _ & _ & Hr); [| done.. |].
  - intros. apply Execute_safe. eapply yields_weaken; [apply Execute_records_no_request |].
    intros out evs H. eapply Forall_impl; [exact H | done].
  - exact Hr.
Qed.

(** ** Admission control *)

Definition without_admission : AgentRuntime W :=
  MkRuntime (maxIterations a) (maxHistoryTurns a) (retryCount a) (sessionTokenBudget a) false (enableCompaction a)
    (compactionThreshold a) (compactionKeepRecent a) (parallelToolExecution a) (hasGoalIntegration a)
    (hasLlmExecutionService a) (backgroundExecutionEnabled a) (toolExecutor a).

Lemma CallLlm_admission summary s messages : Forall plain messages →
  CallLlmWithResilience a summary s messages = CallLlmWithResilience without_admission summary s messages.
Proof.
  intros Hplain. unfold CallLlmWithResilience, TryRejectEstimatedBudget, LlmExecutionEstimateInputTokens.
  rewrite pointer_messages_have_no_chars by done. change (LlmExecutionEstimateTokenCount _) with 0%Z.
  cbn [estimateTokenBudgetAdmission without_admission sessionTokenBudget negb orb].
  destruct (negb _ || _); [done |]. cbv zeta. set (remaining := wrap64 _).
  destruct (remaining <=? 0)%Z eqn:H1; [done |]. by rewrite (proj2 (Z.ltb_lt 0 remaining)) by lia.
Qed.

Lemma CompactHistory_admission s : CompactHistory a s = CompactHistory without_admission s.
Proof.
  unfold CompactHistory. cbv zeta. simpl. destruct (_ || _); [done |].
  rewrite CallLlm_admission by (by repeat constructor). reflexivity.
Qed.

Lemma start_turn_admission userMessage s : start_turn a userMessage s = start_turn without_admission userMessage s.
Proof. unfold start_turn. cbv zeta. by rewrite CompactHistory_admission. Qed.

Lemma turn_step_admission i cb messages s : Forall plain messages →
  turn_step lower_rune a i cb messages s = turn_step lower_rune without_admission i cb messages s.
Proof. intros Hplain. unfold turn_step. by rewrite CallLlm_admission. Qed.

(** Whatever is recorded, the answer is as [safe] says. *)
Lemma safe_answer {A} n (m : M W A) st (P : A → Prop) : safe (λ _, True) n m st P → P (m st).1.
Proof. by intros (evs & _ & _ & _ & H). Qed.

Lemma any_call_is_safe session callId name args cb n st :
  safe (λ _, True) 0 (Execute lower_rune (toolExecutor a) session callId false None name args cb n None) st
    (λ out, match out with Returned r => filed callId name r | _ => True end).
Proof.
  apply Execute_safe. eapply yields_weaken; [apply Execute_records_no_request |].
  intros out evs H. eapply Forall_impl; [exact H | done].
Qed.

Lemma turn_loop_admission cb more : ∀ i messages s st, Forall plain messages →
  turn_loop lower_rune a more i cb messages s st = turn_loop lower_rune without_admission more i cb messages s st.
Proof.
  induction more as [| more IH]; intros i messages s st Hplain; [done |]. cbn [turn_loop].
  pose proof (safe_answer _ _ _ _ (turn_step_safe (λ _, True) any_call_is_safe (λ _ _ _ _, I) i cb messages s st Hplain)) as Hstep.
  unfold try_bind, mbind, M_bind. rewrite <- turn_step_admission by done.
  destruct (turn_step lower_rune a i cb messages s st) as [[o | [messages' s']] st']; [done |].
  destruct Hstep as [Hplain' _]. by apply IH.
Qed.

Lemma routed_turn_admission userMessage resume cb s st :
  routed_turn lower_rune a userMessage resume cb s st = routed_turn lower_rune without_admission userMessage resume cb s st.
Proof.
  unfold routed_turn. cbv zeta. change (BuildMessages without_admission) with (BuildMessages a).
  set (built := match resume with Some c => _ | None => _ end).
  assert (from s (Forall plain) (built st).1) as Hbuilt.
  { apply (safe_answer 0). subst built. pose proof (BuildMessages_plain s) as Hb.
    destruct resume as [c |]; [apply safe_ret; by apply resume_plain | by apply inject_memories_safe]. }
  clearbody built. unfold try_bind, mbind, M_bind. destruct (built st) as [[o | messages] st1]; [done |]. simpl in Hbuilt.
  destruct (if hasGoalIntegration a then _ else _) as [goalPrompt st2]. apply turn_loop_admission.
  case_bool_decide; auto with goproj.
Qed.

(** Admission control by estimated tokens never rejects a request: a turn
    goes the same way, event by event, with it as without it. *)
Theorem admission_control_never_rejects s userMessage cb st :
  RunTurn lower_rune a s userMessage cb st = RunTurn lower_rune without_admission s userMessage cb st.
Proof.
  unfold RunTurn, ending. cbv zeta. rewrite start_turn_admission. unfold mbind, M_bind.
  destruct (start_turn _ _ _ st) as [[o | [resume s1]] st1]; [done |].
  destruct (ApplyTurnRouting s1 _ st1) as [[o | s2] st2]; [done |]. by rewrite routed_turn_admission.
Qed.

(** ** Compaction *)

Lemma history_messages_cons exact t turns : turn_messages (W := W) exact t = [] → turn_messages (W := W) false t = [] →
  history_messages (W := W) exact (t :: turns) = history_messages exact turns.
Proof. intros H1 H2. destruct turns; simpl; [done |]. by rewrite H2. Qed.

Lemma summary_is_not_sent exact text : turn_messages (W := W) exact (MkTurn "systeem" text []) = [].
Proof. unfold turn_messages. simpl. by rewrite andb_false_r. Qed.

Lemma skip_first {A} (x : A) l n : drop (length (x :: l) - n) (x :: l) = drop (length l - n) l ∨
  drop (length (x :: l) - n) (x :: l) = x :: drop (length l - n) l.
Proof.
  destruct (decide (length l < n)%nat) as [H | H].
  - right. simpl length. rewrite (proj2 (Nat.sub_0_le (S (length l)) n)), (proj2 (Nat.sub_0_le (length l) n)) by lia. done.
  - left. simpl length. by rewrite Nat.sub_succ_l by lia.
Qed.

(** Once the history has been compacted, requests hold nothing of the turns
    that were summarised, nor of the summary: only the recent turns that were
    kept. *)
Theorem compacted_turns_are_forgotten s exact userMessage st :
  let n := length (SHistory s) in
  let recent := drop (n - Nat.min (compactionKeepRecent a) (n - 2)) (SHistory s) in
  match (CompactHistory a s st).1 with
  | inl _ => True
  | inr s' =>
      SHistory s' = SHistory (TrimHistory a s) ∨
      tail (BuildMessages a s' exact userMessage) = history_messages exact (drop (length recent - maxHistoryTurns a) recent)
  end.
Proof.
  unfold CompactHistory. cbv zeta. destruct (_ || _); [by left |].
  set (recent := drop _ _). unfold mbind, M_bind.
  destruct (CallLlmWithResilience _ _ _ _ st) as [[[r |] | err] st1]; [| done | destruct (IsCanceled err); [done | by left]].
  destruct (match Response r with Some _ => _ | None => _ end) as [summary [input output]].
  unfold tell, ask. simpl. case_bool_decide; [left; unfold TrimHistory; simpl; by case_bool_decide |].
  right. unfold BuildMessages. cbn [tail SHistory set_history]. set (t := MkTurn _ _ _).
  subst recent. set (recent := drop (length (SHistory s) - Nat.min _ _) (SHistory s)).
  assert (∀ e, turn_messages (W := W) e t = []) as Ht by (intros; apply summary_is_not_sent).
  destruct (skip_first t recent (maxHistoryTurns a)) as [-> | ->]; [done |]. by apply history_messages_cons.
Qed.

(** ** Recalled memories *)

Lemma injected_recall text (messages : list ChatMessage) capacity :
  injected (Some text) None None messages capacity =
  if bool_decide (length messages < capacity)%nat
  then take (length messages) (insert_at (Nat.min 1 (length messages)) (NewChatMessageWithText RoleUser text) messages)
  else messages.
Proof. unfold injected, inject, insert_shared, SlicesInsert. cbv zeta. by case_bool_decide. Qed.

(** A recalled memory costs the request a message.  If the slice of the
    request has room to spare, the memory goes in and the last message, the
    user's, falls out; if it has none, the memory does not reach the request. *)
Theorem recalled_memory_displaces_the_last_message s userMessage text system history message st :
  (∀ w, (recall_text userMessage w).1 = inl (Some text)) →
  (∀ w, (structured_text s userMessage w).1 = inl None) → (∀ w, (profile_text s w).1 = inl None) →
  let n := length (system :: history ++ [message]) in
  (inject_memories s userMessage (system :: history ++ [message]) st).1 = inr
    (if bool_decide (n < append_capacity n)%nat then system :: NewChatMessageWithText RoleUser text :: history
     else system :: history ++ [message]).
Proof.
  intros Hr Hs Hp n. unfold inject_memories, ask_text, try_bind, mbind, M_bind, ask.
  pose proof (Hr (world st)) as H1. destruct (recall_text userMessage (world st)) as [? w1]. simpl in H1. subst. simpl.
  pose proof (Hs w1) as H2. destruct (structured_text s userMessage w1) as [? w2]. simpl in H2. subst. simpl.
  pose proof (Hp w2) as H3. destruct (profile_text s w2) as [? w3]. simpl in H3. subst. simpl.
  f_equal. rewrite injected_recall. fold n.
  rewrite (bool_decide_ext (n < Nat.max n (append_capacity n))%nat (n < append_capacity n)%nat) by lia.
  case_bool_decide; [| done]. replace (Nat.min 1 n) with 1 by (subst n; simpl; lia). subst n. unfold insert_at. simpl.
  f_equal. f_equal. rewrite length_app. simpl. rewrite Nat.add_comm. simpl. by rewrite drop_0, take_app_length.
Qed.

(** ** Checkpoints *)

(** A batch as a resumed turn is shown it. *)
Definition exact_batch (invocations : list ToolInvocation) : list ChatMessage :=
  [MkMessage RoleAssistant
     (imap (λ i tc, FunctionCallContent ByPointer
        (MkCall (ResolveCheckpointCallId tc i) (InvToolName tc) (DeserializeArguments (W := W) (InvArguments tc)))) invocations);
   MkMessage RoleTool
     (imap (λ i tc, FunctionResultContent ByPointer (ResolveCheckpointCallId tc i) (Result tc)) invocations)].

Lemma history_messages_last turns t exact :
  ∃ before, history_messages (W := W) exact (turns ++ [t]) = before ++ turn_messages exact t.
Proof.
  induction turns as [| t' turns [before IH]]; [by exists [] |].
  exists (turn_messages false t' ++ before). rewrite <- app_assoc, <- IH. by destruct turns.
Qed.

Lemma exact_batch_sent invocations : invocations ≠ [] →
  turn_messages (W := W) true (MkTurn "assistant" "[tool_use]" invocations) = exact_batch invocations.
Proof. intros H. unfold turn_messages. simpl. by rewrite bool_decide_eq_false_2. Qed.

Lemma persisted_checkpoint more c s st s' : (persist_attempts more c s st).1 = (None, s') →
  s' = set_checkpoint (Some (set_persisted true c)) s.
Proof.
  revert s st. induction more as [| more IH]; intros s st; simpl; unfold mbind, M_bind;
    destruct (ask _ st) as [[e |] st1]; try destruct (stops e); try done; try (by intros [= <-]).
  all: by intros H%IH.
Qed.

(** A trimmed history ends in its last turn, if it holds any. *)
Lemma trimmed_last s t : ∃ turns, SHistory (TrimHistory a (add_turn t s)) =
  if bool_decide (maxHistoryTurns a = 0) then [] else turns ++ [t].
Proof.
  unfold TrimHistory. cbn [SHistory add_turn set_history].
  case_bool_decide as H1; case_bool_decide as H2; [lia | eauto | exists []; cbn [SHistory set_history] |].
  - rewrite H2, Nat.sub_0_r. apply drop_all.
  - rewrite length_app in *. simpl in *. eexists. cbn [SHistory set_history]. rewrite drop_app_le by lia. reflexivity.
Qed.

End Turn.

(** ** Meta skills *)

Lemma safe_forall {W A} (ok : event → Prop) n (m : M W A) st (P : A → Prop) : safe ok n m st P → adds m st (Forall ok).
Proof. intros (evs & Htr & Hok & _). by exists evs. Qed.

Section Programs.
Context {W : Type} {TW : ToolWorld W} {EW : ExecutorWorld W} {AW : TurnWorld W} (lower_rune : N → N).
Context (a : AgentRuntime W) (session : Session) (ok : event → Prop).
Context (Hcall : ∀ callId name args n bound st,
  adds (Execute lower_rune (toolExecutor a) session callId false None name args None n bound) st (Forall ok)).
Context (Hscript : ∀ where_, ok (EvRun "skill_exec" "" where_)).
Context (Hmodel : ∀ tokens request, ok (EvModel false tokens request)).

(** Whatever is asked for, if every call of the executor, every script and every
    request is fine, so is the run. *)
Lemma run_program_adds p : ∀ st, adds (run_program lower_rune a session p) st (Forall ok).
Proof.
  assert (∀ l1 l2, Forall ok l1 → Forall ok l2 → Forall ok (l1 ++ l2)) as Happ by (intros; by apply Forall_app_2).
  induction p as [text | callId name args n bound rest IH | command args cwd rest IH | messages rest IH | change rest IH];
    intros st; cbn [run_program].
  - by apply adds_ret.
  - by eapply adds_bind; [apply Hcall | intros; apply IH |].
  - cbv zeta. eapply adds_bind; [| intros; apply IH | exact Happ].
    eapply adds_weaken; [apply (router_Execute_runs _ _ _ _ _ (λ _, True)); done |]. intros l Hl.
    eapply Forall_impl; [exact Hl |]. intros e (p & -> & _). apply Hscript.
  - by eapply adds_bind; [eapply safe_forall, CallLlm_safe, Hmodel | intros; apply IH |].
  - eapply (adds_bind _ _ _ (λ l, l = [])); [| intros; apply IH | by intros ? l2 ->]. exists []. unfold ask. simpl. by rewrite app_nil_r.
Qed.
End Programs.

(** ** The autonomy hook *)

Section ReadOnly.
Context {W : Type} {TW : ToolWorld W} {EW : ExecutorWorld W} {AW : TurnWorld W} (lower_rune fold_table : N → N).
Context (parse_json : string → json_text) (wd : string) (UserHomeDir : option string).
Context (Lstat : string → option bool) (Readlink : string → option string) (EvalSymlinks : string → eval_result).
Context (h : AutonomyHook) (Hmode : autonomy_mode lower_rune (hookConfig h) = "readonly").

Local Abbreviation hook := (AutonomyHook_hook lower_rune fold_table parse_json (Some wd) UserHomeDir Lstat Readlink EvalSymlinks h).

(** Nothing that always mutates runs in an event, meta skills included. *)
Definition harmless (e : event) : Prop := match e with EvRun name _ _ => name ∉ AlwaysMutatingTools | _ => True end.
Definition all_harmless (e : event) : Prop := Forall harmless (everything e).

Lemma harmless_all e : harmless e → match e with EvMeta _ inner => Forall all_harmless inner | _ => True end → all_harmless e.
Proof.
  intros He Hin. unfold all_harmless. destruct e; cbn [everything]; (constructor; [exact He |]); [done.. |].
  apply Forall_flat_map. exact Hin.
Qed.

(** A call is harmless if the meta skills it may start are. *)
Lemma Execute_harmless (o : OpenClawToolExecutor W) session callId name args cb n bound st :
  hook ∈ hooks o →
  (∀ execute skill input w, metaInvokeExecutor o = Some execute → Forall all_harmless (execute session skill input w).1.2) →
  yields (Execute lower_rune o session callId false None name args cb n bound) st (λ _ evs, Forall all_harmless evs).
Proof.
  intros Hin Hmeta. eapply yields_weaken; [apply yields_and; [by eapply Execute_readonly | apply Execute_runs_past_hooks] |].
  intros out evs [Hown Hruns]. rewrite Forall_forall in *. intros e He. specialize (Hown e He). apply harmless_all; [exact Hown |].
  destruct e as [| | | | | | | | | skill inner]; try done. destruct (Hruns _ He eq_refl) as (tool & d & exec & _ & Hrun & _).
  destruct Hrun as (_ & execute & input & w & Hexec & _ & ->). by apply Hmeta.
Qed.

Context (program : Session → string → string → W → meta_program W).

Lemma ExecuteMetaSkill_harmless depth (a : AgentRuntime W) session skill input w : hook ∈ hooks (toolExecutor a) →
  Forall all_harmless (ExecuteMetaSkill lower_rune program depth a session skill input w).1.2.
Proof.
  intros Hin. revert session skill input w. induction depth as [| depth IH]; intros session skill input w; [constructor |].
  cbn [ExecuteMetaSkill]. set (a' := with_meta _ a).
  destruct (run_program_adds lower_rune a' session all_harmless) with (p := program session skill input w) (st := MkState w [])
    as (evs & Htr & Hevs).
  - intros. apply adds_yields, Execute_harmless; [exact Hin |]. intros execute skill' input' w' [= <-]. apply IH.
  - intros. apply harmless_all; [| done]. intros Hm. apply (bool_decide_eq_true_2 _) in Hm. by vm_compute in Hm.
  - intros. by apply harmless_all.
  - destruct (run_program _ _ _ _ _) as [text st]. cbn [fst snd trace app] in *. by rewrite Htr.
Qed.

(** C4: with the hook in read-only mode, none of the tools that always mutate
    runs in a turn, whatever the model asks for and whatever governance,
    routing and approvals say -- not even in a meta skill that a tool call
    starts, or in one that such a skill starts in its turn. *)
Theorem readonly_turn_mutates_nothing depth (a : AgentRuntime W) s userMessage cb (st : state W) :
  hook ∈ hooks (toolExecutor a) →
  yields (RunTurn lower_rune (NewAgentRuntime lower_rune program depth a) s userMessage cb) st (λ _ evs,
    ∀ e name exec p, e ∈ evs → EvRun name exec p ∈ everything e → name ∉ AlwaysMutatingTools).
Proof.
  intros Hin.
  eapply yields_weaken; [apply (RunTurn_safe lower_rune (NewAgentRuntime lower_rune program depth a) all_harmless) |].
  - intros. apply Execute_safe, Execute_harmless; [exact Hin |]. intros execute skill input w [= <-]. by apply ExecuteMetaSkill_harmless.
  - intros. by apply harmless_all.
  - intros. by apply harmless_all.
  - intros r evs (Hall & _) e name exec p He Hrun. rewrite Forall_forall in Hall. specialize (Hall e He).
    unfold all_harmless in Hall. rewrite Forall_forall in Hall. exact (Hall _ Hrun).
Qed.
End ReadOnly.

(** ** Turns on a script *)

(** The answers the model has left to give, and the saves so far. *)
Definition script : Type := list ChatResponse * nat.

Definition scripted (recall : option string) (capacity : nat → nat) (save_fails : nat → bool) : TurnWorld script := {|
  service_response _ w := (inl None, w);
  client_response _ w := match w.1 with [] => (inr (plain_error "down"), w) | r :: rest => (inl (Some r), (rest, w.2)) end;
  isContractRuntimeBudgetExceeded _ w := (false, w);
  isContractTokenBudgetExceeded _ w := (false, w);
  recordContractTurnUsage _ _ _ w := w;
  appendContractSnapshot _ _ w := w;
  resolve_routing _ _ w := ((Some (MkRoutingDecision "premium" "" "" true [] [] "" "" "" false 0 false "" ""), None), w);
  recall_text _ w := (inl recall, w);
  structured_text _ _ w := (inl None, w);
  profile_text _ w := (inl None, w);
  BuildGoalSystemPrompt _ w := ("", w);
  UpdateGoalTokenUsage _ w := w;
  EvaluateGoalContinuation _ _ _ _ w := ("", w);
  SaveSession _ w := (if save_fails w.2 then Some (plain_error "disk full") else None, (w.1, S w.2));
  new_checkpoint_id w := ("chk_1", w);
  ctx_err _ := None;
  sees_cancel w := (false, w);
  append_capacity := capacity;
  GetSystemPrompt _ _ := "You are helpful.";
  BuildMetaRoutingSuffix _ := "";
  absolute_url _ := false;
|}.

Definition plain_route : TurnRoutingSnapshot := MkSnapshot "" [] [] "" [] false "" "" "" "".
Definition fresh_session : AgentSession := MkAgentSession "s1" "websocket" "u1" [] 0 0 false None plain_route.

Definition plain_runtime (h : IToolHook script) : AgentRuntime script :=
  MkRuntime 2 10 0 1000 true false 0 0 false false false false (hooked_executor h).

Definition answer (contents : list IAIContent) : ChatResponse := MkResponse (Some (7, 3)%Z) [MkMessage RoleAssistant contents].

Definition write_request (h : held) : IAIContent := FunctionCallContent h (MkCall "c1" "write_file" (Some ∅)).

(** A turn on these answers. *)
Definition scripted_turn (recall : option string) (capacity : nat → nat) (save_fails : nat → bool) (h : IToolHook script)
    (answers : list ChatResponse) : ended * state script :=
  RunTurn (TW := down_world) (EW := open_services) (AW := scripted recall capacity save_fails) (λ r, r) (plain_runtime h)
    fresh_session "hello" None (MkState (answers, 0) []).

Definition ends_with (text : string) (r : ended * state script) : Prop :=
  r.1.1 = TurnReturned (CompletedAgentTurnResult text).

(** A text is only found in an answer if it is held by value. *)
Example pointer_texts_are_lost :
  ends_with "hi" (scripted_turn None (λ n, n) (λ _, false) AuditLogHook_hook [answer [TextContent ByValue "hi"]]) ∧
  ends_with "" (scripted_turn None (λ n, n) (λ _, false) AuditLogHook_hook [answer [NewTextContent "hi"]]).
Proof. vm_compute. split; reflexivity. Qed.

(** A call is only made if it is held by pointer. *)
Example value_calls_are_not_made :
  filter (λ e, is_run e = true) (trace (scripted_turn None (λ n, n) (λ _, false) AuditLogHook_hook
    [answer [write_request ByValue]]).2) = [EvModel false 0 [NewChatMessageWithText RoleSystem "You are helpful.";
      NewChatMessageWithText RoleUser "hello"]].
Proof. vm_compute. reflexivity. Qed.

(** A checkpoint is saved three times, and kept only if the last time works. *)
Example checkpoints_are_saved_three_times :
  let run fails := scripted_turn None (λ n, n) fails AuditLogHook_hook
    [answer [write_request ByPointer]; answer [TextContent ByValue "done"]] in
  ends_with "done" (run (λ _, false)) ∧ (world (run (λ _, false)).2).2 = 3 ∧
  ends_with "done" (run (λ n, bool_decide (n < 2)%nat)) ∧ ends_with Sorry (run (λ n, bool_decide (n = 2))).
Proof. vm_compute. repeat split. Qed.

(** A policy that answers is not followed. *)
Example routing_decision_is_ignored :
  let '((_, s), _) := scripted_turn None (λ n, n) (λ _, false) AuditLogHook_hook [answer [TextContent ByValue "hi"]] in
  RouteModelTier (Route s) = "".
Proof. vm_compute. reflexivity. Qed.

(** Five turns of which four are summarised: the request is the system prompt and
    the last turn. *)
Example summary_is_dropped :
  let a := MkRuntime 2 10 0 1000 true true 4 1 false false false false (hooked_executor (W := script) AuditLogHook_hook) in
  let turns := (λ text, MkTurn "user" text []) <$> ["one"; "two"; "three"; "four"; "five"] in
  match (CompactHistory (AW := scripted None (λ n, n) (λ _, false)) a (set_history turns fresh_session)
    (MkState ([answer [TextContent ByValue "counting"]], 0) [])).1 with
  | inl _ => False
  | inr s =>
      SHistory s = [MkTurn "systeem" "[Previous conversation summary: counting]" []; MkTurn "user" "five" []] ∧
      BuildMessages (EW := open_services) (AW := scripted None (λ n, n) (λ _, false)) a s false "" =
        [NewChatMessageWithText RoleSystem "You are helpful."; NewChatMessageWithText RoleUser "five"]
  end.
Proof. vm_compute. split; reflexivity. Qed.

(** A skill that asks the model, and then writes a file. *)
Definition draft (_ : Session) (_ _ : string) (_ : script) : meta_program script :=
  MetaModel [NewChatMessageWithText RoleUser "Draft."] (λ _,
    MetaTool "meta:draft:1" "write_file" "{}" 0 None (λ _, MetaOutput "drafted")).

Definition draft_request : IAIContent :=
  FunctionCallContent ByPointer (MkCall "c1" "meta_invoke" (Some {["skill" := JStr "draft"]})).

Definition drafting (h : IToolHook script) : AgentRuntime script :=
  NewAgentRuntime (TW := down_world) (EW := open_services) (AW := scripted None (λ n, n) (λ _, false)) (λ r, r) draft 1
    (MkRuntime 2 10 0 10 false false 0 0 false false false false (hooked_executor h)).

Definition draft_answers : script := ([answer [draft_request]; answer [TextContent ByValue "Once upon a time"]], 0).

(** The first answer uses up the budget of ten tokens.  The skill it starts asks
    the model all the same, and its own call is governed as any other. *)
Example meta_skills_ignore_the_budget :
  filter (λ e, is_run e = true) (trace (RunTurn (TW := down_world) (EW := open_services) (AW := scripted None (λ n, n) (λ _, false))
    (λ r, r) (drafting AuditLogHook_hook) fresh_session "hello" None (MkState draft_answers [])).2) =
  [EvModel false 0 [NewChatMessageWithText RoleSystem "You are helpful."; NewChatMessageWithText RoleUser "hello"];
   EvRun "meta_invoke" "draft" AsMetaSkill;
   EvMeta "draft" [EvModel false 10 [NewChatMessageWithText RoleUser "Draft."];
     EvGovernance (NewGovernanceDecisionAllow ""); EvHook "AuditLog" true; EvPlan "proceed" false;
     EvRun "write_file" "{}" InProcess; EvAudit "write_file" false; EvAfter "AuditLog"]].
Proof. vm_compute. reflexivity. Qed.

(** In read-only mode the skill's call is refused. *)
Example meta_skills_are_read_only :
  filter (λ e, is_run e = true) (trace (RunTurn (TW := down_world) (EW := open_services) (AW := scripted None (λ n, n) (λ _, false))
    (λ r, r) (drafting (plain_files (new_hook true (tooling "ReadOnly" "/work")) "/work/a")) fresh_session "hello" None
    (MkState draft_answers [])).2) =
  [EvModel false 0 [NewChatMessageWithText RoleSystem "You are helpful."; NewChatMessageWithText RoleUser "hello"];
   EvRun "meta_invoke" "draft" AsMetaSkill;
   EvMeta "draft" [EvModel false 10 [NewChatMessageWithText RoleUser "Draft."];
     EvGovernance (NewGovernanceDecisionAllow ""); EvHook "Autonomy" false]].
Proof. vm_compute. reflexivity. Qed.

Lemma readonly_turn_mutates_nothing_witness :
  yields (RunTurn (TW := down_world) (EW := open_services) (AW := scripted None (λ n, n) (λ _, false)) (λ r, r)
      (drafting (plain_files (new_hook true (tooling "ReadOnly" "/work")) "/work/a")) fresh_session "hello" None)
    (MkState draft_answers [])
    (λ _ evs, ∀ e name exec p, e ∈ evs → EvRun name exec p ∈ everything e → name ∉ AlwaysMutatingTools).
Proof.
  apply (readonly_turn_mutates_nothing (TW := down_world) (EW := open_services) (AW := scripted None (λ n, n) (λ _, false))
    (λ r, r) id (path_arguments "/work/a") "/" None (λ _, Some false) (λ _, None) EvalTo
    (new_hook true (tooling "ReadOnly" "/work"))).
  - vm_compute. reflexivity.
  - apply list_elem_of_here.
Defined.

(** The slice of a request of two messages may have room for four: the request
    is then the system prompt and the memory. *)
Lemma recalled_memory_displaces_the_last_message_witness :
  (inject_memories (AW := scripted (Some "You like tea.") (λ n, 2 * n) (λ _, false)) fresh_session "hello"
    [NewChatMessageWithText RoleSystem "You are helpful."; NewChatMessageWithText RoleUser "hello"] (MkState ([], 0) [])).1 =
  inr [NewChatMessageWithText RoleSystem "You are helpful."; NewChatMessageWithText RoleUser "You like tea."].
Proof.
  exact (recalled_memory_displaces_the_last_message (AW := scripted (Some "You like tea.") (λ n, 2 * n) (λ _, false))
    fresh_session "hello" "You like tea." (NewChatMessageWithText RoleSystem "You are helpful.") []
    (NewChatMessageWithText RoleUser "hello") (MkState ([], 0) []) (λ _, eq_refl) (λ _, eq_refl) (λ _, eq_refl)).
Defined.
