(* ===== verification/RoutingPolicySpec.v ===== *)
(** What the routing policy guarantees: guardrails on proposals, the fall-back to
    the baseline, the most probable tier of a checked answer, the circuit and
    the slots under concurrent requests, and what of the conversation reaches
    the classifier. *)

From S2P Require Import Prelude GoStrings Json Float64 Chat Effects ToolRouting ToolExecutor Hooks TurnSignals AgentTurn AgentTurnSpec.
From S2P Require Import RoutingPolicy.
From stdpp Require Import sorting.
Local Open Scope string_scope.
Local Open Scope list_scope.

(** ** Proposals *)

(** What a decision says besides the model: all of it is the baseline's. *)
Definition same_permissions (b d : TurnRoutingDecision) : Prop :=
  RdDisableTools d = RdDisableTools b ∧ RdAllowedTools d = RdAllowedTools b ∧ RdPreferredTags d = RdPreferredTags b ∧
  RdResponsePolicy d = RdResponsePolicy b ∧ RdImageCapableModelProfileId d = RdImageCapableModelProfileId b ∧
  RdCacheContinuitySafeguardsEnabled d = RdCacheContinuitySafeguardsEnabled b ∧
  RdCacheContinuityMaxConversationTurns d = RdCacheContinuityMaxConversationTurns b ∧
  RdCacheContinuityResetOnProfileSwitch d = RdCacheContinuityResetOnProfileSwitch b ∧
  RdSystemPromptSuffix d = RdSystemPromptSuffix b.

Section Proposals.
Context (lower_rune upper_rune : N → N) (range : ∀ A, gmap string A → list (string * A)) (p : DecisionTurnRoutingPolicy).

Lemma raise_tier_range answers id threshold least tier : (tier ≤ 3)%Z → (least ≤ 3)%Z →
  (tier ≤ raise_tier answers id threshold least tier ≤ 3)%Z ∧
  (∀ v, answer_of answers id ≫= Noul = Some v → f_leb threshold v = true → least ≤ raise_tier answers id threshold least tier)%Z.
Proof.
  intros Ht Hl. unfold raise_tier. destruct (answer_of answers id ≫= Noul) as [v |]; [| split; [lia | done]].
  destruct (f_leb threshold v) eqn:Hv; [| split; [lia | intros ? [= ->]; congruence]].
  destruct (tier <? least)%Z eqn:H; split; try lia; intros; lia.
Qed.

(** The tier the rules and the answers demand of a message. *)
Definition demanded (req : TurnRoutingRequest) (resp : DecisionResponse) (tier : Z) : Prop :=
  (signal_floor (ExtractSignals lower_rune (UserMessage req) (countUserTurns req)) ≤ tier)%Z ∧
  (∀ v, answer_of (Answers resp) "high_risk" ≫= Noul = Some v → f_leb (HighRiskThreshold (config p)) v = true → 2 ≤ tier)%Z ∧
  (∀ v, answer_of (Answers resp) "requires_tools" ≫= Noul = Some v → f_leb (f_decimal 5 1) v = true → 1 ≤ tier)%Z.

Lemma guarded_tier_demanded req resp raw : (0 ≤ raw ≤ 3)%Z →
  let final := guarded_tier lower_rune upper_rune p req resp raw in (raw ≤ final ≤ 3)%Z ∧ demanded req resp final.
Proof.
  intros Hraw final. subst final. unfold guarded_tier, demanded. cbv zeta.
  set (signals := ExtractSignals _ _ _). rewrite ApplyFlagOverrides_floor by lia. pose proof (signal_floor_range signals).
  set (t1 := Z.max raw (signal_floor signals)).
  match goal with |- context [ApplyContextRule t1 ?i ?n] =>
    pose proof (ApplyContextRule_range t1 i n); set (t2 := ApplyContextRule t1 i n) in * end.
  match goal with |- context [ApplyStickyTier _ t2 ?previous ?enabled] =>
    pose proof (ApplyStickyTier_range upper_rune t2 previous enabled ltac:(lia));
    set (t3 := ApplyStickyTier _ t2 previous enabled) in * end.
  set (t4 := raise_tier _ "high_risk" _ _ _).
  destruct (raise_tier_range (Answers resp) "high_risk" (HighRiskThreshold (config p)) 2 t3) as [H2 H3]; [lia.. |]. fold t4 in H2, H3.
  destruct (raise_tier_range (Answers resp) "requires_tools" (f_decimal 5 1) 1 t4) as [H4 H5]; [lia.. |].
  split; [lia |]. split; [lia |]. split; [| exact H5]. intros v Hv Hle. specialize (H3 v Hv Hle). lia.
Qed.

(** C16: a proposal of the classifier passes every guardrail.  Its tier is the one
    chosen or a higher one, as the message's signals and the other answers
    demand; a tier below the baseline's needs the whole conversation and the
    higher confidence; the margin is kept; and all it changes of the baseline
    is the model, its fallback and the reasoning level. *)
Theorem proposals_are_guarded req baseline resp truncated d reason :
  propose lower_rune upper_rune range p req baseline resp truncated = Done (Some d, reason) →
  ∃ b answer raw final, baseline = Some b ∧ answer_of (Answers resp) "tier" = Some answer ∧
    parseTier (Choice answer) = raw ∧ RdTier d = tier_name final ∧ (0 ≤ raw ≤ final ≤ 3)%Z ∧ demanded req resp final ∧
    (raw < parseTier (Some (RdTier b)) → truncated = false ∧
       ∀ c, Confidence answer = Some c → f_ltb c (DowngradeMinConfidence (config p)) = false)%Z ∧
    (∀ c, Confidence answer = Some c → parseTier (Some (RdTier b)) ≤ raw → f_ltb c (MinConfidence (config p)) = false)%Z ∧
    f_ltb (margin range (Probabilities answer)) (MinProbabilityMargin (config p)) = false ∧
    RdModelProfileId d ≠ "" ∧ same_permissions b d.
Proof.
  unfold propose. destruct (answer_of (Answers resp) "tier") as [answer |]; [| done].
  destruct (parseTier (Choice answer) <? 0)%Z eqn:Hneg; [done |].
  destruct baseline as [b |]; [| done]. cbv zeta. set (raw := parseTier (Choice answer)) in *.
  assert (0 ≤ raw ≤ 3)%Z as Hraw.
  { subst raw. unfold parseTier in *. destruct (Choice answer); [| done]. pose proof (named_tier_range s). lia. }
  set (bt := parseTier (Some (RdTier b))). destruct (truncated && (raw <? bt)%Z) eqn:Htr; [done |].
  destruct (_ || f_ltb (margin _ _) _) eqn:Hun; [done |]. apply orb_false_iff in Hun as [Hconf Hmargin].
  destruct (guarded_tier_demanded req resp raw Hraw) as [Hrange Hdem]. set (final := guarded_tier _ _ _ _ _ _) in *.
  destruct (getTierConfig p final) as [[target |] |]; try done. case_bool_decide as Hmodel; [done |]. intros [= <- _].
  exists b, answer, raw, final. split_and!; try done; try lia.
  - intros Hlt. assert (raw <? bt = true)%Z as Hb by lia. rewrite Hb in Hconf, Htr. rewrite andb_true_r in Htr.
    split; [done |]. intros c Hc. by rewrite Hc in Hconf.
  - intros c Hc Hle. assert (raw <? bt = false)%Z as Hb by lia. by rewrite Hb, Hc in Hconf.
Qed.
End Proposals.

(** ** Checked answers *)

Definition choices : list string := ["T0"; "T1"; "T2"; "T3"; "abstain"].

Lemma isProbability_number v : isProbability v = true → is_number v.
Proof. unfold isProbability. intros [[_ H]%f_leb_number _]%andb_true_iff. exact H. Qed.

(** The greatest is at least all others. *)
Lemma max_probability_upper (l : list (string * float64)) : Forall (λ x, is_number x.2) l →
  is_number (max_probability l) ∧ ∀ x, x ∈ l → f_leb x.2 (max_probability l) = true.
Proof.
  unfold max_probability. assert (is_number f_minus_one) as H0 by done. revert H0. generalize f_minus_one as m.
  intros m Hm Hall. assert (is_number (foldl (λ m x, if f_ltb m x.2 then x.2 else m) m l) ∧
    f_leb m (foldl (λ m x, if f_ltb m x.2 then x.2 else m) m l) = true ∧
    ∀ x, x ∈ l → f_leb x.2 (foldl (λ m x, if f_ltb m x.2 then x.2 else m) m l) = true) as (H1 & _ & H2); [| done].
  revert m Hm. induction Hall as [| y l Hy Hall IH]; intros m Hm; simpl.
  - split_and!; [done | by apply f_leb_refl |]. intros x Hx. by apply not_elem_of_nil in Hx.
  - set (m' := if f_ltb m y.2 then y.2 else m).
    assert (is_number m' ∧ f_leb m m' = true ∧ f_leb y.2 m' = true) as (Hm' & Hle & Hy').
    { subst m'. destruct (f_ltb m y.2) eqn:Hlt.
      - split_and!; [done | | by apply f_leb_refl]. destruct (f_leb_total m y.2) as [| H]; [done.. |].
        by rewrite f_leb_ltb, Hlt in H.
      - split_and!; [done | by apply f_leb_refl |]. by rewrite f_leb_ltb, Hlt. }
    destruct (IH m' Hm') as (H1 & H2 & H3). split_and!; [done | by eapply f_leb_trans; [.. | exact Hle | exact H2] |].
    intros x [-> | Hx]%elem_of_cons; [by eapply f_leb_trans; [.. | exact Hy' | exact H2] | by apply H3].
Qed.

Section Checked.
Context (range : ∀ A, gmap string A → list (string * A)).
Context (Hrange : ∀ A (m : gmap string A), range A m ≡ₚ map_to_list m).

Lemma elem_of_range {A} (m : gmap string A) k v : (k, v) ∈ range A m ↔ m !! k = Some v.
Proof. by rewrite Hrange, elem_of_map_to_list. Qed.

Lemma validate_answers_each answers questions id question : validate_answers range answers questions = Ok tt →
  (id, question) ∈ questions → ∃ answer, answers !! id = Some answer ∧ validate_answer range question answer = Ok tt.
Proof.
  induction questions as [| [id' q'] questions IH]; [intros _ Hx; by apply not_elem_of_nil in Hx |].
  simpl. destruct (answers !! id') as [answer |] eqn:Ha; [| done].
  destruct (validate_answer range q' answer) as [[] | e] eqn:Hv; [| done]. intros Hrest [Heq | Hin]%elem_of_cons; [| by apply IH].
  injection Heq as -> ->. eauto.
Qed.

(** A choice that passes is one of the criteria and the most probable. *)
Lemma validate_choice_most_probable question answer criteria : QType question = "choice" →
  object_keys (Criteria question) = Some criteria → validate_answer range question answer = Ok tt →
  is_probability (Confidence answer) = true ∧
  ∃ choice prob, Choice answer = Some choice ∧ choice ∈ criteria ∧ Probabilities answer !! choice = Some prob ∧
    ∀ other q, Probabilities answer !! other = Some q → isProbability q = true ∧ f_leb q prob = true.
Proof.
  intros Hq Hcrit. unfold validate_answer. rewrite Hq. simpl. destruct (negb (bool_decide _)); [done |].
  destruct (negb (is_probability _) || _) eqn:Hconf; [done |]. apply orb_false_iff in Hconf as [Hconf _].
  apply negb_false_iff in Hconf. cbv zeta. destruct (negb (forallb _ _)) eqn:Hall; [done |].
  apply negb_false_iff in Hall. rewrite forallb_forall in Hall. destruct (f_ltb _ _); [done |].
  unfold validate_choice. rewrite Hcrit. destruct (negb (bool_decide (size _ = _))); [done |].
  destruct (negb (bool_decide (dom _ ⊆ _))) eqn:Hdom; [done |]. apply negb_false_iff, bool_decide_eq_true in Hdom.
  destruct (Choice answer) as [choice |]; [| done]. destruct (Probabilities answer !! choice) as [prob |] eqn:Hprob; [| done].
  destruct (f_ltb prob _) eqn:Hmax; [done |]. intros _. split; [done |]. exists choice, prob.
  assert (∀ other q, Probabilities answer !! other = Some q → isProbability q = true) as Hone.
  { intros other q Hin%elem_of_range. exact (Hall (other, q) (proj1 (list_elem_of_In _ _) Hin)). }
  split_and!; [done | by eapply Hdom, elem_of_dom_2 | done |]. intros other q Hother. split; [by eapply Hone |].
  destruct (max_probability_upper (range float64 (Probabilities answer))) as [Hnum Hupper].
  { apply Forall_forall. intros [k v] Hin%elem_of_range. by apply isProbability_number, (Hone k). }
  assert (is_number prob) by (by apply isProbability_number, (Hone choice)).
  assert (is_number q) by (by apply isProbability_number, (Hone other)).
  eapply f_leb_trans; [done | exact Hnum | done | apply (Hupper (other, q)); by apply elem_of_range |].
  by rewrite f_leb_ltb, Hmax.
Qed.

Lemma tier_question p state : ∃ question, Questions (buildRequest p state) !! "tier" = Some question ∧
  QType question = "choice" ∧ object_keys (Criteria question) = Some (list_to_set choices).
Proof.
  unfold buildRequest. destruct (negb _).
  - eexists. split; [vm_compute; reflexivity |]. split; [reflexivity |]. vm_compute. reflexivity.
  - eexists. split; [vm_compute; reflexivity |]. split; [reflexivity |]. vm_compute. reflexivity.
Qed.

(** C19: when the answer to a request of the policy passes the checks, the tier it
    chooses is one of those offered, is at least as probable as every other,
    and comes with a confidence. *)
Theorem checked_choice_is_most_probable p state resp :
  validate range (buildRequest p state) resp = Ok tt →
  ∃ answer choice prob, answer_of (Answers resp) "tier" = Some answer ∧ Choice answer = Some choice ∧ choice ∈ choices ∧
    is_probability (Confidence answer) = true ∧ Probabilities answer !! choice = Some prob ∧
    ∀ other q, Probabilities answer !! other = Some q → isProbability q = true ∧ f_leb q prob = true.
Proof.
  unfold validate. destruct (Answers resp) as [answers |]; [| done]. destruct (_ || _); [done |]. intros Hok.
  destruct (tier_question p state) as (question & Hq & Htype & Hkeys).
  destruct (validate_answers_each _ _ "tier" question Hok) as (answer & Ha & Hv); [by apply elem_of_range |].
  destruct (validate_choice_most_probable _ _ _ Htype Hkeys Hv) as (Hconf & choice & prob & Hc & Hin & Hp & Hall).
  exists answer, choice, prob. split_and!; try done. by apply elem_of_list_to_set in Hin.
Qed.
End Checked.

(** ** The fall-back to the baseline *)

Definition complete_tiers (pol : DynamicTurnRoutingPolicyConfig) : Prop :=
  ∃ t0 t1 t2 t3, Tiers pol = Some (MkTiers (Some t0) (Some t1) (Some t2) (Some t3)).

Section Fallback.
Context (Redact : string → string) (lower_rune upper_rune : N → N).
Context (range : ∀ A, gmap string A → list (string * A)) (p : DecisionTurnRoutingPolicy).
Context {W : Type} {RW : RoutingWorld W}.

(** Nothing is proposed, or a copy of the baseline but for the model. *)
Definition like_baseline (baseline proposed : option TurnRoutingDecision) : Prop :=
  match proposed with None => True | Some d => ∃ b, baseline = Some b ∧ same_permissions b d end.

Lemma getTierConfig_complete tier : complete_tiers (policy p) → ∃ target, getTierConfig p tier = Some (Some target).
Proof.
  intros (t0 & t1 & t2 & t3 & Heq). unfold getTierConfig. rewrite Heq. simpl.
  destruct (tier =? 0)%Z, (tier =? 1)%Z, (tier =? 2)%Z; eauto.
Qed.

Lemma propose_falls_back req b resp truncated : complete_tiers (policy p) →
  ∃ proposed reason, propose lower_rune upper_rune range p req (Some b) resp truncated = Done (proposed, reason) ∧
    like_baseline (Some b) proposed.
Proof.
  intros Htiers. unfold propose. destruct (answer_of _ _) as [answer |]; [| by do 2 eexists].
  destruct (_ <? 0)%Z; [by do 2 eexists |]. cbv zeta. destruct (truncated && _); [by do 2 eexists |].
  destruct (_ || f_ltb (margin _ _) _); [by do 2 eexists |].
  destruct (getTierConfig_complete (guarded_tier lower_rune upper_rune p req resp (parseTier (Choice answer))) Htiers) as [target ->].
  case_bool_decide; [by do 2 eexists |]. do 2 eexists. split; [reflexivity |]. eexists. split; [reflexivity |]. done.
Qed.

Lemma executeEvaluation_falls_back req b w : complete_tiers (policy p) →
  ∃ e w', executeEvaluation Redact lower_rune upper_rune range p req (Some b) w = Done (e, w') ∧ like_baseline (Some b) (Proposed e).
Proof.
  intros Htiers. unfold executeEvaluation. destruct (buildState _ _ _) as [[state truncated] | e]; [| by do 2 eexists].
  destruct (Evaluate _ w) as [[resp | [e timedOut]] w']; simpl; [| by do 2 eexists].
  destruct (negb _); [by do 2 eexists |]. destruct (propose_falls_back req b resp truncated Htiers) as (proposed & reason & -> & H).
  by do 2 eexists.
Qed.

Lemma taken_settle now e c : taken (settle p now e c) = taken c.
Proof. unfold settle. destruct (Failed e); [done |]. by destruct (_ || _). Qed.

Lemma releaseSlot_acquired now e c c' : acquireSlot p c = Some c' → taken (releaseSlot p (settle p now e c')) = taken c.
Proof.
  unfold acquireSlot, releaseSlot. destruct (slots p); [| intros [= <-]; apply taken_settle].
  case_bool_decide; [| done]. intros [= <-]. simpl. rewrite taken_settle. simpl. lia.
Qed.

Lemma ask_classifier_falls_back req b c w : complete_tiers (policy p) →
  ∃ e c' w', ask_classifier Redact lower_rune upper_rune range p req (Some b) c w = Done (e, c', w') ∧
    like_baseline (Some b) (Proposed e) ∧ taken c' = taken c.
Proof.
  intros Htiers. unfold ask_classifier. destruct (Now w) as [now w1]. destruct (circuitOpen now c); [by do 3 eexists |].
  destruct (acquireSlot p c) as [c1 |] eqn:Hacq; [| by do 3 eexists].
  destruct (executeEvaluation_falls_back req b w1 Htiers) as (e & w2 & -> & H). simpl.
  destruct (Failed e).
  - destruct (Now w2) as [now2 w3]. do 3 eexists. split; [reflexivity |]. split; [done |]. by apply releaseSlot_acquired.
  - do 3 eexists. split; [reflexivity |]. split; [done |]. by apply releaseSlot_acquired.
Qed.

(** Whatever the classifier answers, a call ends, holds no slot afterwards, and
    its decision is the baseline's or, only in active mode, one with the same
    tools, prompt, response policy and cache settings; it has no decision only
    with the error of the baseline or of the context. *)
Theorem classifier_cannot_break_routing req c w : complete_tiers (policy p) →
  (∀ b e w', baseline_Resolve req w = ((b, e), w') → e = None → b ≠ None) →
  ∃ d err c' w', Resolve Redact lower_rune upper_rune range p req c w = Done (d, err, c', w') ∧ taken c' = taken c ∧
    match (baseline_Resolve req w).1 with
    | (_, Some e) => d = None ∧ err = Some e
    | (baseline, None) =>
        (d = None ∧ err ≠ None ∧ err = context_error w') ∨
        (err = None ∧ (d = baseline ∨ mode p = "active" ∧ ∃ b d', baseline = Some b ∧ d = Some d' ∧ same_permissions b d'))
    end.
Proof.
  intros Htiers Hb. unfold Resolve. destruct (baseline_Resolve req w) as [[baseline err] w1]. simpl.
  destruct err as [err |]; [by do 4 eexists |]. destruct baseline as [b |]; [| by specialize (Hb _ _ _ eq_refl eq_refl)].
  case_bool_decide; [do 4 eexists; split; [reflexivity |]; split; [done |]; by right; split; [| left] |].
  assert (∃ e c' w', match not_asked p req with
    | Some reason => Done (MkEvaluation None reason false false, c, w1)
    | None => ask_classifier Redact lower_rune upper_rune range p req (Some b) c w1
    end = Done (e, c', w') ∧ like_baseline (Some b) (Proposed e) ∧ taken c' = taken c) as (e & c' & w' & -> & Hlike & Htaken).
  { destruct (not_asked p req); [by do 3 eexists | by apply ask_classifier_falls_back]. }
  simpl. destruct (context_error w') as [err |] eqn:Hctx.
  - do 4 eexists. split; [reflexivity |]. split; [done |]. left. by rewrite Hctx.
  - do 4 eexists. split; [reflexivity |]. split; [done |]. right. split; [done |].
    destruct (Proposed e) as [d |]; [| by left]. case_bool_decide; [right | by left]. split; [done |].
    destruct Hlike as (b' & [= <-] & Hsame). eauto.
Qed.
End Fallback.

(** ** The circuit and the slots under concurrent requests *)

Section Concurrent.
Context (p : DecisionTurnRoutingPolicy).

(** Where a call is: it saw the circuit closed, it has a slot, its end is
    recorded. *)
Inductive phase := Passed | Evaluating | Settled.
#[global] Instance phase_eq_dec : EqDecision phase.
Proof. solve_decision. Defined.

(** The policy with the calls in it, the time, and the ends of the
    evaluations, the latest first. *)
Record service := MkService {
  Circuit : circuit;
  Calls : gmap nat phase;
  Clock : Z;
  Log : list (Z * evaluation);
}.

Inductive service_step : service → service → Prop :=
  | step_time c calls t t' log : (t ≤ t')%Z → service_step (MkService c calls t log) (MkService c calls t' log)
  | step_pass c calls t log id : calls !! id = None → circuitOpen t c = false →
      service_step (MkService c calls t log) (MkService c (<[id := Passed]> calls) t log)
  | step_full c calls t log id : calls !! id = Some Passed → acquireSlot p c = None →
      service_step (MkService c calls t log) (MkService c (delete id calls) t log)
  | step_slot c c' calls t log id : calls !! id = Some Passed → acquireSlot p c = Some c' →
      service_step (MkService c calls t log) (MkService c' (<[id := Evaluating]> calls) t log)
  | step_settle c calls t log id e : calls !! id = Some Evaluating →
      service_step (MkService c calls t log) (MkService (settle p t e c) (<[id := Settled]> calls) t ((t, e) :: log))
  | step_release c calls t log id : calls !! id = Some Settled →
      service_step (MkService c calls t log) (MkService (releaseSlot p c) (delete id calls) t log).

Definition idle_service (t : Z) : service := MkService new_circuit ∅ t [].

(** The calls with a slot. *)
Definition busy (calls : gmap nat phase) : gmap nat phase := filter (λ x, x.2 ≠ Passed) calls.

Definition accepted (e : evaluation) : bool := bool_decide (Reason e = "accepted") || bool_decide (Reason e = "safety_floor").

(** Failures since the last accepted proposal. *)
Fixpoint streak (log : list (Z * evaluation)) : Z :=
  match log with
  | [] => 0
  | (_, e) :: log => if Failed e then streak log + 1 else if accepted e then 0 else streak log
  end.

(** The failures that opened the circuit. *)
Definition opens (log : list (Z * evaluation)) (t : Z) : Prop :=
  ∃ newer e older, log = newer ++ (t, e) :: older ∧ Failed e = true ∧ (CircuitFailureThreshold (config p) ≤ streak ((t, e) :: older))%Z.

Definition break_time : Z := (CircuitBreakSeconds (config p) * 10^9)%Z.

Record consistent (s : service) : Prop := {
  con_taken : taken (Circuit s) = size (busy (Calls s));
  con_slots : (size (busy (Calls s)) ≤ Z.to_nat (MaxConcurrentRequests (config p)))%nat;
  con_failures : failures (Circuit s) = wrap64 (streak (Log s));
  con_past t e : (t, e) ∈ Log s → (t ≤ Clock s)%Z;
  con_open : ∀ now, (Clock s ≤ now → Z.of_nat (length (Log s)) < 2^63 →
    circuitOpen now (Circuit s) = true ↔ ∃ t, opens (Log s) t ∧ now < t + break_time)%Z;
}.

Lemma streak_bound log : (0 ≤ streak log ≤ Z.of_nat (length log))%Z.
Proof. induction log as [| [t e] log IH]; simpl; [done |]. destruct (Failed e); [lia |]. destruct (accepted e); lia. Qed.

Lemma opens_cons log t t' e : opens ((t', e) :: log) t ↔
  opens log t ∨ (t = t' ∧ Failed e = true ∧ CircuitFailureThreshold (config p) ≤ streak ((t', e) :: log))%Z.
Proof.
  unfold opens. split.
  - intros ([| x newer] & e' & older & Heq & H); simplify_eq/=; [by right | left; by exists newer, e', older].
  - intros [(newer & e' & older & -> & H) | (-> & H)]; [by exists ((t', e) :: newer), e', older | by exists [], e, log].
Qed.

Lemma opens_past s t : consistent s → opens (Log s) t → (t ≤ Clock s)%Z.
Proof.
  intros Hs (newer & e & older & Heq & _). apply (con_past s Hs t e). rewrite Heq.
  apply elem_of_app. right. apply elem_of_cons. by left.
Qed.

Lemma busy_outside calls id : calls !! id = None ∨ calls !! id = Some Passed → busy calls !! id = None.
Proof. intros H. apply map_lookup_filter_None. destruct H as [-> | ->]; [by left | right]. intros ph [= <-]. simpl. tauto. Qed.

Lemma busy_inside calls id ph : calls !! id = Some ph → ph ≠ Passed → busy calls !! id = Some ph.
Proof. intros H Hph. by apply map_lookup_filter_Some. Qed.

Lemma busy_pass calls id : calls !! id = None → busy (<[id := Passed]> calls) = busy calls.
Proof. intros H. unfold busy. rewrite map_filter_insert_False by (simpl; tauto). by rewrite delete_id. Qed.

Lemma busy_full calls id : calls !! id = Some Passed → busy (delete id calls) = busy calls.
Proof. intros H. unfold busy. rewrite map_filter_delete. apply delete_id. by apply busy_outside; right. Qed.

Lemma busy_slot calls id : calls !! id = Some Passed → size (busy (<[id := Evaluating]> calls)) = S (size (busy calls)).
Proof. intros H. unfold busy. rewrite map_filter_insert_True, map_size_insert_None; [done | | done]. by apply busy_outside; right. Qed.

Lemma busy_settle calls id : calls !! id = Some Evaluating → size (busy (<[id := Settled]> calls)) = size (busy calls).
Proof. intros H. unfold busy. rewrite map_filter_insert_True, map_size_insert_Some; [done | | done]. by eexists; apply busy_inside. Qed.

Lemma busy_release calls id : calls !! id = Some Settled → size (busy calls) = S (size (busy (delete id calls))).
Proof.
  intros H. unfold busy. rewrite map_filter_delete, map_size_delete. pose proof (busy_inside calls id Settled H ltac:(done)) as Hb.
  unfold busy in Hb. rewrite Hb. assert (size (filter (λ x : nat * phase, x.2 ≠ Passed) calls) ≠ 0%nat); [| lia].
  apply map_size_ne_0_lookup. by exists id; eexists.
Qed.

Lemma circuitOpen_shed now c c' : openUntil c = openUntil c' → circuitOpen now c = circuitOpen now c'.
Proof. intros H. unfold circuitOpen. by rewrite H. Qed.

Lemma acquired c c' : acquireSlot p c = Some c' → failures c' = failures c ∧ openUntil c' = openUntil c.
Proof. unfold acquireSlot. destruct (slots p); [case_bool_decide; [| done] |]; by intros [= <-]. Qed.

Lemma released c : failures (releaseSlot p c) = failures c ∧ openUntil (releaseSlot p c) = openUntil c.
Proof. unfold releaseSlot. by destruct (slots p). Qed.

Context (Hlimit : (0 < MaxConcurrentRequests (config p))%Z).

Lemma slots_limit : slots p = Some (Z.to_nat (MaxConcurrentRequests (config p))).
Proof. unfold slots. by rewrite (proj2 (Z.ltb_lt _ _) Hlimit). Qed.

(** The steps that record no end. *)
Lemma consistent_quiet c c' calls calls' t log : consistent (MkService c calls t log) →
  failures c' = failures c → openUntil c' = openUntil c → taken c' = size (busy calls') →
  (size (busy calls') ≤ Z.to_nat (MaxConcurrentRequests (config p)))%nat → consistent (MkService c' calls' t log).
Proof.
  intros [_ _ Hf Hp Ho] Hfail Hopen Htaken Hslots. split; simpl in *; [done | done | congruence | done |].
  intros now. rewrite (circuitOpen_shed now c' c) by done. apply Ho.
Qed.

Lemma wrap64_add x y : wrap64 (wrap64 x + y) = wrap64 (x + y).
Proof.
  unfold wrap64. f_equal. replace ((x + 2^63) mod 2^64 - 2^63 + y + 2^63)%Z with ((x + 2^63) mod 2^64 + y)%Z by lia.
  rewrite Z.add_mod_idemp_l by lia. f_equal. lia.
Qed.

Lemma failures_settle t e c log : failures c = wrap64 (streak log) → failures (settle p t e c) = wrap64 (streak ((t, e) :: log)).
Proof.
  intros H. unfold settle. simpl. destruct (Failed e); [| fold (accepted e); by destruct (accepted e)].
  simpl. rewrite H. apply wrap64_add.
Qed.

(** The time until which the circuit is open, after an end. *)
Lemma openUntil_settle t e c log : failures c = wrap64 (streak log) → (Z.of_nat (S (length log)) < 2^63)%Z →
  openUntil (settle p t e c) =
    if Failed e && (CircuitFailureThreshold (config p) <=? streak ((t, e) :: log))%Z then (t + break_time)%Z else openUntil c.
Proof.
  intros Hf Hlen. pose proof (failures_settle t e c log Hf) as Hf'. pose proof (streak_bound ((t, e) :: log)) as Hb.
  rewrite wrap64_id in Hf' by (unfold in_int64, min_int64, max_int64; simpl length in Hb; lia).
  revert Hf'. unfold settle. destruct (Failed e); [| by destruct (_ || _)]. cbn [failures openUntil recordFailure]. by intros ->.
Qed.

Lemma consistent_settle c calls t log id e : consistent (MkService c calls t log) → calls !! id = Some Evaluating →
  consistent (MkService (settle p t e c) (<[id := Settled]> calls) t ((t, e) :: log)).
Proof.
  intros Hs Hid. pose proof (λ t, opens_past _ t Hs) as Hpast. destruct Hs as [Ht Hn Hf Hp Ho]. simpl in *. split; simpl.
  - by rewrite taken_settle, busy_settle.
  - by rewrite busy_settle.
  - by apply failures_settle.
  - intros t' e' [[= -> ->] | H]%elem_of_cons; [done | by eapply Hp].
  - intros now Hnow Hlen. specialize (Ho now Hnow ltac:(lia)). unfold circuitOpen in *.
    rewrite (openUntil_settle t e c log Hf Hlen). setoid_rewrite opens_cons.
    destruct (Failed e && _) eqn:Hopen.
    + apply andb_true_iff in Hopen as [Hfail Hle%Z.leb_le]. rewrite Z.ltb_lt. split; [by exists t; auto |].
      intros (t0 & [H%Hpast | [-> _]] & ?); lia.
    + rewrite Ho. split; [intros (t0 & ? & ?); by exists t0; auto |].
      intros (t0 & [? | (-> & Hfail & Hle%Z.leb_le)] & ?); [by exists t0 | by rewrite Hfail, Hle in Hopen].
Qed.

Lemma consistent_step s s' : service_step s s' → consistent s → consistent s'.
Proof.
  destruct 1 as [c calls t t' log Hle | c calls t log id Hid | c calls t log id Hid | c c' calls t log id Hid Hacq |
    c calls t log id e Hid | c calls t log id Hid]; intros Hs.
  - destruct Hs as [Ht Hn Hf Hp Ho]. split; simpl in *; [done.. | |].
    + intros t0 e Hin. specialize (Hp t0 e Hin). lia.
    + intros now Hnow. apply Ho. lia.
  - eapply consistent_quiet; [exact Hs | done | done | rewrite busy_pass by done; apply Hs..].
  - eapply consistent_quiet; [exact Hs | done | done | rewrite busy_full by done; apply Hs..].
  - destruct (acquired c c' Hacq) as [Hf Ho]. unfold acquireSlot in Hacq. rewrite slots_limit in Hacq.
    pose proof (con_taken _ Hs) as Ht. simpl in Ht. case_bool_decide as Hroom; [| done]. injection Hacq as <-.
    eapply consistent_quiet; [exact Hs | done | done | |]; rewrite busy_slot by done; [by simpl; f_equal | lia].
  - by apply consistent_settle.
  - destruct (released c) as [Hf Ho]. pose proof (con_taken _ Hs) as Ht. pose proof (con_slots _ Hs) as Hn. simpl in Ht, Hn.
    rewrite (busy_release calls id Hid) in Ht, Hn. eapply consistent_quiet; [exact Hs | done | done | | lia].
    unfold releaseSlot. rewrite slots_limit. simpl. lia.
Qed.

Lemma consistent_run s s' : rtc service_step s s' → consistent s → consistent s'.
Proof. induction 1 as [| s1 s2 s3 Hstep _ IH]; [done |]. intros Hs. by eapply IH, consistent_step. Qed.

(** At most [MaxConcurrentRequests] evaluations run at once, however calls
    interleave, a slot is refused only while that many run, and the circuit is
    open exactly while a failure that brought the failures since the last
    accepted proposal to the threshold is less than the break time old. *)
Theorem requests_are_limited t0 s : (0 ≤ t0)%Z → rtc service_step (idle_service t0) s →
  (size (busy (Calls s)) ≤ Z.to_nat (MaxConcurrentRequests (config p)))%nat ∧
  (acquireSlot p (Circuit s) = None ↔ size (busy (Calls s)) = Z.to_nat (MaxConcurrentRequests (config p))) ∧
  (Z.of_nat (length (Log s)) < 2^63 →
    circuitOpen (Clock s) (Circuit s) = true ↔ ∃ t, opens (Log s) t ∧ Clock s < t + break_time)%Z.
Proof.
  intros Ht0 Hrun. assert (consistent s) as Hs.
  { apply (consistent_run _ _ Hrun).
    split; simpl; [done | unfold busy; rewrite map_filter_empty, map_size_empty; lia | done | |].
    - intros t e H. by apply not_elem_of_nil in H.
    - intros now Hnow _. unfold circuitOpen. simpl. rewrite Z.ltb_lt. split; [lia |].
      intros (t & (newer & e & older & Heq & _) & _). by destruct newer. }
  split; [apply Hs |]. split.
  - unfold acquireSlot. rewrite slots_limit, (con_taken _ Hs). pose proof (con_slots _ Hs). case_bool_decide; split; try done; lia.
  - intros Hlen. by apply Hs.
Qed.
End Concurrent.

(** A call of [ask_classifier] is a run of these steps. *)
Section Run.
Context (Redact : string → string) (lower_rune upper_rune : N → N).
Context (range : ∀ A, gmap string A → list (string * A)) (p : DecisionTurnRoutingPolicy).
Context {W : Type} {RW : RoutingWorld W} (time : W → Z).
Context (Hnow : ∀ w, Now w = (time w, w)) (Hevaluate : ∀ q w, (time w ≤ time (Evaluate q w).2)%Z).

Lemma executeEvaluation_time req baseline w e w' :
  executeEvaluation Redact lower_rune upper_rune range p req baseline w = Done (e, w') → (time w ≤ time w')%Z.
Proof.
  unfold executeEvaluation. destruct (buildState _ _ _) as [[state truncated] |]; [| by intros [= <- <-]].
  pose proof (Hevaluate (buildRequest p state) w) as H. destruct (Evaluate _ w) as [answer w1]. simpl.
  destruct (evaluated _ _ _ _ _ _ _ _); [| done..]. by intros [= <- <-].
Qed.

Lemma settle_any_time t t' e c : Failed e = false → settle p t e c = settle p t' e c.
Proof. intros H. unfold settle. by rewrite H. Qed.

Lemma ask_classifier_steps req baseline c w e c' w' calls log :
  ask_classifier Redact lower_rune upper_rune range p req baseline c w = Done (e, c', w') →
  ∃ new, rtc (service_step p) (MkService c calls (time w) log) (MkService c' calls (time w') (new ++ log)).
Proof.
  unfold ask_classifier. rewrite Hnow. destruct (circuitOpen (time w) c) eqn:Hopen; [intros [= <- <- <-]; by exists [] |].
  destruct (acquireSlot p c) as [c1 |] eqn:Hacq; [| intros [= <- <- <-]; by exists []].
  destruct (executeEvaluation _ _ _ _ _ _ _ w) as [[e1 w1] | |] eqn:He; [| done..]. apply executeEvaluation_time in He. simpl.
  intros H. assert (e1 = e ∧ w1 = w' ∧ c' = releaseSlot p (settle p (time w1) e1 c1)) as (-> & -> & ->).
  { destruct (Failed e1) eqn:Hf; [rewrite Hnow in H |]; injection H as <- <- <-; [done |]. by rewrite (settle_any_time 0 (time w1)). }
  exists [(time w', e)]. set (id := fresh (dom calls)). pose proof (is_fresh (dom calls)) as Hid%not_elem_of_dom. fold id in Hid.
  eapply rtc_l; [by apply step_pass with (id := id) |].
  eapply rtc_l; [by apply step_slot with (id := id) (c' := c1); [apply lookup_insert_eq |] |].
  eapply rtc_l; [by apply step_time with (t' := time w') |].
  eapply rtc_l; [by apply step_settle with (id := id) (e := e), lookup_insert_eq |].
  eapply rtc_l; [by apply step_release with (id := id), lookup_insert_eq |].
  rewrite !insert_insert_eq, delete_insert_id by done. reflexivity.
Qed.
End Run.

(** ** What of the conversation reaches the classifier *)

Section Conversation.
Context (Redact : string → string).

Lemma plain_has_no_text m : plain m → message_text m = "".
Proof.
  unfold plain, message_text, ConcatTextContents. induction 1 as [| c l Hc _ IH]; [done |]. simpl. rewrite IH. by destruct c as [[] ? | | | |].
Qed.

Lemma plain_is_not_kept msgs : Forall plain msgs → List.filter kept_for_history msgs = [].
Proof.
  induction 1 as [| m msgs Hm _ IH]; [done |]. simpl. unfold kept_for_history at 1. rewrite (plain_has_no_text m Hm).
  rewrite bool_decide_eq_true_2 by done. by rewrite andb_false_r.
Qed.

Lemma plain_is_not_summarised msgs : Forall plain msgs →
  existsb (λ msg, HasPrefix (message_text msg) "[Previous conversation summary:" ||
                  HasPrefix (message_text msg) "[Previous tool calls:") msgs = false.
Proof. induction 1 as [| m msgs Hm _ IH]; [done |]. simpl. rewrite (plain_has_no_text m Hm). exact IH. Qed.

Lemma plain_turns req : Forall plain (RqMessages req) → UserMessage req ≠ "" →
  countUserTurns req = Z.of_nat (length (List.filter (is_role RoleUser) (RqMessages req))).
Proof.
  intros Hplain Hne. unfold countUserTurns. cbv zeta. destruct (last (RqMessages req)) as [m |] eqn:Hlast; [| done].
  assert (plain m) as Hm by (by apply (proj1 (Forall_forall _ _) Hplain), last_Some_elem_of).
  rewrite (plain_has_no_text m Hm), bool_decide_eq_false_2 by congruence. by rewrite andb_false_r.
Qed.

(** What [ApplyTurnRouting] asks the policy. *)
Definition turn_routing_request {W} {TW : ToolWorld W} {EW : ExecutorWorld W} {AW : TurnWorld W} (a : AgentRuntime W)
    (s : AgentSession) (session : RoutedSession) (exactLatestToolBatch : bool) (userMessage : string) : TurnRoutingRequest :=
  MkRoutingRequest session (BuildMessages a s exactLatestToolBatch "") userMessage.

(** Of the messages [ApplyTurnRouting] hands to the policy none reaches the
    classifier, which sees the current request alone, however much history is
    configured; the state is not marked as incomplete, and the user's messages
    count as turns with the current one, whether or not it is the last. *)
Theorem conversation_is_not_classified {W} {TW : ToolWorld W} {EW : ExecutorWorld W} {AW : TurnWorld W} (a : AgentRuntime W)
    p s session exact userMessage :
  (0 ≤ HistoryMessages (config p))%Z → userMessage ≠ "" →
  let req := turn_routing_request a s session exact userMessage in
  countUserTurns req = Z.of_nat (length (List.filter (is_role RoleUser) (RqMessages req))) ∧
  buildState Redact p req =
    if (MaxStateChars (config p) <? Z.of_nat (String.length (Redact userMessage)))%Z then Fail "request_too_large"
    else Ok (MkRoutingState (Redact userMessage) [], false).
Proof.
  intros Hhist Hne req. pose proof (BuildMessages_plain a s exact "") as Hplain.
  split; [by apply plain_turns |]. unfold buildState. subst req. cbn [turn_routing_request UserMessage RqMessages]. destruct (_ <? _)%Z; [done |].
  cbv zeta. rewrite plain_is_not_kept, plain_is_not_summarised by done. unfold without_current. simpl.
  change (Z.of_nat 0) with 0%Z. by rewrite (proj2 (Z.ltb_ge _ _) Hhist).
Qed.
End Conversation.

(** ** Witnesses *)

Definition map_order (A : Type) (m : gmap string A) : list (string * A) := map_to_list m.

Lemma map_order_perm A (m : gmap string A) : map_order A m ≡ₚ map_to_list m.
Proof. done. Qed.

Definition sample_config : DecisionRoutingConfig :=
  MkRoutingConfig "active" "https://jev.example" "jev-1" 2000 4000 6 2 3 60 (f_decimal 6 1) (f_decimal 8 1) (f_decimal 1 1)
    (f_decimal 5 1) f_zero "jev" "" "" "".

Definition sample_target (profile : string) : option DynamicTurnRoutingTierTarget := Some (MkTarget profile "" "").

Definition sample_tiers : DynamicTurnRoutingPolicyConfig :=
  MkPolicyConfig (Some (MkTiers (sample_target "small") (sample_target "medium") (sample_target "large") (sample_target "huge"))) true 8.

Definition sample_policy : DecisionTurnRoutingPolicy := MkPolicy sample_config "jev" sample_tiers "active".

Example sample_policy_is_made :
  NewDecisionTurnRoutingPolicy (λ r, r) (λ _, None) (λ _, false) sample_config sample_tiers = Fail "invalid Jev endpoint" /\
  NewDecisionTurnRoutingPolicy (λ r, r) (λ _, Some ("https", false, "", "", "jev.example")) (λ _, false) sample_config sample_tiers =
    Ok sample_policy.
Proof. vm_compute. split; reflexivity. Qed.

Definition sample_baseline : TurnRoutingDecision :=
  MkRoutingDecision "T1" "medium" "" false ["read_file"] [] "" "" "" false 0 false "be brief" "rules".

Definition sample_request : TurnRoutingRequest :=
  MkRoutingRequest (MkRoutedSession "" "" "" "") [NewChatMessageWithText RoleUser "delete the production database"]
    "delete the production database".

(** T1 with the greatest probability. *)
Definition sample_response : DecisionResponse :=
  MkDecisionResponse "jev-1"
    (Some {["tier" := MkAnswer "choice" (Some "T1") None None (Some (f_decimal 9 1))
              {["T0" := f_zero; "T1" := f_decimal 9 1; "T2" := f_decimal 1 1; "T3" := f_zero; "abstain" := f_zero]} None;
            "high_risk" := MkAnswer "noul" None None (Some (f_decimal 9 1)) None ∅ None;
            "requires_tools" := MkAnswer "noul" None None (Some (f_decimal 2 1)) None ∅ None]}) 10 10.

Definition sample_proposal : TurnRoutingDecision :=
  MkRoutingDecision "T2" "large" "" false ["read_file"] [] "" "" "" false 0 false "be brief" "jev+safety_floor".

Lemma proposals_are_guarded_witness :
  ∃ b answer raw final, Some sample_baseline = Some b ∧ answer_of (Answers sample_response) "tier" = Some answer ∧
    parseTier (Choice answer) = raw ∧ RdTier sample_proposal = tier_name final ∧ (0 ≤ raw ≤ final ≤ 3)%Z ∧
    demanded (λ r, r) sample_policy sample_request sample_response final ∧
    (raw < parseTier (Some (RdTier b)) → false = false ∧
       ∀ c, Confidence answer = Some c → f_ltb c (DowngradeMinConfidence (config sample_policy)) = false)%Z ∧
    (∀ c, Confidence answer = Some c → parseTier (Some (RdTier b)) ≤ raw → f_ltb c (MinConfidence (config sample_policy)) = false)%Z ∧
    f_ltb (margin map_order (Probabilities answer)) (MinProbabilityMargin (config sample_policy)) = false ∧
    RdModelProfileId sample_proposal ≠ "" ∧ same_permissions b sample_proposal.
Proof.
  refine (proposals_are_guarded (λ r, r) (λ r, r) map_order sample_policy sample_request (Some sample_baseline) sample_response false
    sample_proposal "safety_floor" _). vm_compute. reflexivity.
Defined.

Lemma checked_choice_is_most_probable_witness :
  validate map_order (buildRequest sample_policy (MkRoutingState "hello" [])) sample_response = Ok tt ∧
  ∃ answer choice prob, answer_of (Answers sample_response) "tier" = Some answer ∧ Choice answer = Some choice ∧
    choice ∈ choices ∧ is_probability (Confidence answer) = true ∧ Probabilities answer !! choice = Some prob ∧
    ∀ other q, Probabilities answer !! other = Some q → isProbability q = true ∧ f_leb q prob = true.
Proof.
  split; [vm_compute; reflexivity |].
  apply (checked_choice_is_most_probable map_order map_order_perm sample_policy (MkRoutingState "hello" []) sample_response).
  vm_compute. reflexivity.
Defined.

(** The classifier answers, and an hour passes at each question. *)
Definition sample_world : RoutingWorld Z := {|
  baseline_Resolve _ w := ((Some sample_baseline, None), w);
  Evaluate _ w := (inl sample_response, w + 3600 * 10^9)%Z;
  Now w := (w, w);
  context_error _ := None;
|}.

Example the_proposal_applies :
  Resolve (RW := sample_world) (λ s, s) (λ r, r) (λ r, r) map_order sample_policy
    (MkRoutingRequest (MkRoutedSession "" "" "" "") [] "delete the production database") new_circuit 5%Z =
  Done (Some sample_proposal, None, new_circuit, (5 + 3600 * 10^9)%Z).
Proof. vm_compute. reflexivity. Qed.

Lemma classifier_cannot_break_routing_witness :
  ∃ d err c' w', Resolve (RW := sample_world) (λ s, s) (λ r, r) (λ r, r) map_order sample_policy sample_request new_circuit 5%Z =
      Done (d, err, c', w') ∧ taken c' = taken new_circuit ∧
    match (baseline_Resolve (RoutingWorld := sample_world) sample_request 5%Z).1 with
    | (_, Some e) => d = None ∧ err = Some e
    | (baseline, None) =>
        (d = None ∧ err ≠ None ∧ err = context_error (RoutingWorld := sample_world) w') ∨
        (err = None ∧ (d = baseline ∨ mode sample_policy = "active" ∧ ∃ b d', baseline = Some b ∧ d = Some d' ∧ same_permissions b d'))
    end.
Proof.
  apply (classifier_cannot_break_routing (RW := sample_world) (λ s, s) (λ r, r) (λ r, r) map_order sample_policy sample_request
    new_circuit 5%Z).
  - do 4 eexists. reflexivity.
  - intros b e w' [= <- <- <-] _. discriminate.
Defined.

Lemma requests_are_limited_witness :
  let s := MkService (MkCircuit 0 0 1) {[7 := Evaluating]} 9 [] in
  (size (busy (Calls s)) ≤ 2)%nat ∧ (acquireSlot sample_policy (Circuit s) = None ↔ size (busy (Calls s)) = 2%nat) ∧
  (Z.of_nat (length (Log s)) < 2^63 →
    circuitOpen (Clock s) (Circuit s) = true ↔ ∃ t, opens sample_policy (Log s) t ∧ Clock s < t + break_time sample_policy)%Z.
Proof.
  apply (requests_are_limited sample_policy ltac:(reflexivity) 9); [lia |]. unfold idle_service.
  eapply rtc_l; [by apply step_pass with (id := 7) |].
  eapply rtc_l; [by apply step_slot with (id := 7) (c' := MkCircuit 0 0 1) |]. reflexivity.
Defined.

Lemma conversation_is_not_classified_witness :
  let a := plain_runtime AuditLogHook_hook in
  let s := set_history [MkTurn "user" "I use Go" []; MkTurn "assistant" "Noted" []; MkTurn "user" "deploy it" []] fresh_session in
  let req := turn_routing_request (TW := down_world) (EW := open_services) (AW := scripted None (λ n, n) (λ _, false)) a s
    (MkRoutedSession "" "" "" "") false "deploy it" in
  countUserTurns req = 2%Z ∧ buildState (λ t, t) sample_policy req = Ok (MkRoutingState "deploy it" [], false).
Proof.
  apply (conversation_is_not_classified (TW := down_world) (EW := open_services) (AW := scripted None (λ n, n) (λ _, false)) (λ t, t) (plain_runtime AuditLogHook_hook)
    sample_policy (set_history [MkTurn "user" "I use Go" []; MkTurn "assistant" "Noted" []; MkTurn "user" "deploy it" []]
      fresh_session) (MkRoutedSession "" "" "" "") false "deploy it"); [vm_compute; intros H; discriminate H | discriminate].
Defined.
