(* ===== verification/SessionModels.v ===== *)
(** Sessions, their token counters and branches
    ([openclaw/core/session_models.go]) and the redaction of their history
    ([RedactionPipeline] of [openclaw/core/security.go]).

    A session is a value; the code that shares sessions keeps them on a heap.
    Its counters are four pointers that [DefaultSession] sets together, and that
    no JSON has; a session points to them or has none.  Fields the modelled code
    does not touch are left out. *)

From S2P Require Import Prelude GoStrings ToolExecutor AgentTurn.
Local Open Scope string_scope.
Local Open Scope list_scope.

Inductive SessionState := SessionStateActive | SessionStatePaused | SessionStateExpired.

Record Session := MkSession {
  (** where the counters are; [None] for nil pointers *)
  Counters : option nat;
  Id : string;
  ChannelId : string;
  SenderId : string;
  LastActiveAt : Z;
  History : list ChatTurn;
  State : SessionState;
  (** the id of the contract policy, if there is one *)
  ContractPolicy : option string;
}.

Definition touch (now : Z) (s : Session) : Session :=
  MkSession (Counters s) (Id s) (ChannelId s) (SenderId s) now (History s) (State s) (ContractPolicy s).
Definition set_state (st : SessionState) (s : Session) : Session :=
  MkSession (Counters s) (Id s) (ChannelId s) (SenderId s) (LastActiveAt s) (History s) st (ContractPolicy s).
Definition set_turns (h : list ChatTurn) (s : Session) : Session :=
  MkSession (Counters s) (Id s) (ChannelId s) (SenderId s) (LastActiveAt s) h (State s) (ContractPolicy s).
(** What JSON keeps. *)
Definition without_counters (s : Session) : Session :=
  MkSession None (Id s) (ChannelId s) (SenderId s) (LastActiveAt s) (History s) (State s) (ContractPolicy s).

(** Sessions whose strings are valid UTF-8. *)
Definition encodable_call (c : ToolInvocation) : Prop :=
  Forall utf8 [CallId c; InvToolName c; InvArguments c; Result c; InvResultStatus c; InvFailureCode c; InvFailureMessage c; InvNextStep c] ∧
  match InvGovernance c with Some g => utf8 (GovernanceReason g) | None => True end.
Definition encodable_turn (t : ChatTurn) : Prop :=
  utf8 (TurnRole t) ∧ utf8 (TurnContent t) ∧ Forall encodable_call (ToolCalls t).
Definition encodable (s : Session) : Prop :=
  utf8 (Id s) ∧ utf8 (ChannelId s) ∧ utf8 (SenderId s) ∧ Forall encodable_turn (History s) ∧
  match ContractPolicy s with Some id => utf8 id | None => True end.

Record SessionBranch := MkBranch {
  BranchId : string;
  BranchSessionId : string;
  BranchName : string;
  BranchHistory : list ChatTurn;
}.

(** ** Counters *)

Record token_counters := MkCounters { totalInput : Z; totalOutput : Z; totalCacheRead : Z; totalCacheWrite : Z }.

Abbreviation counters_heap := (gmap nat token_counters).

(** [DefaultSession] at a time, with counters at a new place. *)
Definition DefaultSession (now : Z) (h : counters_heap) : Session * counters_heap :=
  let l := fresh (dom h) in
  (MkSession (Some l) "" "" "" now [] SessionStateActive None, <[l := MkCounters 0 0 0 0]> h).

(** Reading or changing a nil counter panics. *)
Definition read_counters (s : Session) (h : counters_heap) : go token_counters :=
  match Counters s with
  | Some l => match h !! l with Some c => Done c | None => Panic end
  | None => Panic
  end.

Definition add_to_counters (f : token_counters → token_counters) (s : Session) (h : counters_heap) : go counters_heap :=
  match Counters s with
  | Some l => match h !! l with Some c => Done (<[l := f c]> h) | None => Panic end
  | None => Panic
  end.

Definition GetTotalTokens (s : Session) (h : counters_heap) : go Z :=
  c ← read_counters s h; Done (wrap64 (totalInput c + totalOutput c)).

Definition AddTokenUsage (inputTokens outputTokens : Z) (s : Session) (h : counters_heap) : go counters_heap :=
  h ← (if bool_decide (inputTokens = 0%Z) then Done h
       else add_to_counters (λ c, MkCounters (wrap64 (totalInput c + inputTokens)) (totalOutput c) (totalCacheRead c) (totalCacheWrite c)) s h);
  if bool_decide (outputTokens = 0%Z) then Done h
  else add_to_counters (λ c, MkCounters (totalInput c) (wrap64 (totalOutput c + outputTokens)) (totalCacheRead c) (totalCacheWrite c)) s h.

Definition AddCacheUsage (cacheReadTokens cacheWriteTokens : Z) (s : Session) (h : counters_heap) : go counters_heap :=
  h ← (if bool_decide (cacheReadTokens = 0%Z) then Done h
       else add_to_counters (λ c, MkCounters (totalInput c) (totalOutput c) (wrap64 (totalCacheRead c + cacheReadTokens)) (totalCacheWrite c)) s h);
  if bool_decide (cacheWriteTokens = 0%Z) then Done h
  else add_to_counters (λ c, MkCounters (totalInput c) (totalOutput c) (totalCacheRead c) (wrap64 (totalCacheWrite c + cacheWriteTokens))) s h.

(** ** Redaction *)

(** What the stores need of a redaction pipeline. *)
Record IRedactionPipeline := MkRedaction {
  Redact : string → string;
  RedactSession : Session → Session;
  RedactBranch : SessionBranch → SessionBranch;
}.

Section RedactionPipeline.
(** The redactors, and the copy of [copier.Copy]. *)
Context (redactors : list (string → string)) (copier_Copy : Session → Session).

Definition redact_text (value : string) : string := if IsBlank value then "" else foldl (λ current redactor, redactor current) value redactors.

Definition redact_unless_empty (value : string) : string := if bool_decide (value = "") then value else redact_text value.

Definition redact_call (c : ToolInvocation) : ToolInvocation :=
  MkInvocation (CallId c) (InvToolName c) (redact_text (InvArguments c)) (redact_unless_empty (Result c)) (InvResultStatus c)
    (InvFailureCode c) (redact_unless_empty (InvFailureMessage c)) (redact_unless_empty (InvNextStep c)) (InvGovernance c).

Definition redact_turn (t : ChatTurn) : ChatTurn :=
  MkTurn (TurnRole t) (redact_text (TurnContent t)) (redact_call <$> ToolCalls t).

Definition RedactSessionInPlace (s : Session) : Session := set_turns (redact_turn <$> History s) s.

Definition RedactionPipeline : IRedactionPipeline :=
  MkRedaction redact_text (λ s, RedactSessionInPlace (copier_Copy s))
    (λ b, MkBranch (BranchId b) (BranchSessionId b) (BranchName b) (redact_turn <$> BranchHistory b)).
End RedactionPipeline.

Definition NoopRedactionPipeline : IRedactionPipeline := MkRedaction (λ _, "") (λ s, s) (λ b, b).

(** ** Lemmas *)

(** A session that JSON restored, or that was made without [DefaultSession],
    panics at its first tokens. *)
Lemma tokens_panic s h i o : Counters s = None → (i ≠ 0 ∨ o ≠ 0)%Z → AddTokenUsage i o s h = Panic.
Proof.
  intros Hc Hio. unfold AddTokenUsage, add_to_counters. rewrite Hc. destruct (decide (i = 0%Z)) as [Hi | Hi].
  - rewrite (bool_decide_eq_true_2 (i = 0%Z)) by done. simpl. rewrite bool_decide_eq_false_2; [done | lia].
  - by rewrite (bool_decide_eq_false_2 (i = 0%Z)).
Qed.

Lemma total_panics s h : Counters s = None → GetTotalTokens s h = Panic.
Proof. intros Hc. unfold GetTotalTokens, read_counters. by rewrite Hc. Qed.
