(* ===== verification/FileStore.v ===== *)
(** The file store of sessions, notes and branches: [FileMemoryStore] of
    [openclaw/core/memory_store.go].

    A session is written to a temporary file that is renamed, and cached; the
    cache holds pointers to sessions on a heap, which [GetSession] hands out.
    File names are the base-64 of the keys, of their SHA-256 beyond 200 bytes.
    The JSON of sessions and branches ([encoding/json] on structs) is given by
    [marshal] and [unmarshal], the letters' cases by [lower_rune]; the disk may
    refuse operations as in [Disk.v].  Locks and metrics are not modelled: an
    operation is one step. *)

From stdpp Require Import sorting.
From S2P Require Import Prelude GoStrings Encoding Disk PathPolicy ToolExecutor AgentTurn SessionModels.
Local Open Scope string_scope.
Local Open Scope list_scope.

(** ** Data *)

Record NoteIndexEntry := MkNote {
  Key : string;
  PreviewContent : string;
  SearchText : string;
  UpdatedAt : Z;
}.

(** What a store does not change. *)
Record FileMemoryStore := MkFileStore {
  sessionsPath : string;
  notesPath : string;
  branchesPath : string;
  redaction : option IRedactionPipeline;
}.

Abbreviation session_heap := (gmap nat Session).

Record store_state := MkStore {
  disk : Disk;
  heap : session_heap;
  sessionCache : gmap string nat;
  noteIndex : gmap string NoteIndexEntry;
  noteIndexInit : bool;
}.

Definition set_disk (d : Disk) (s : store_state) : store_state :=
  MkStore d (heap s) (sessionCache s) (noteIndex s) (noteIndexInit s).
Definition set_index (i : gmap string NoteIndexEntry) (init : bool) (s : store_state) : store_state :=
  MkStore (disk s) (heap s) (sessionCache s) i init.
Definition set_cache (c : gmap string nat) (s : store_state) : store_state :=
  MkStore (disk s) (heap s) c (noteIndex s) (noteIndexInit s).

(** A new object on the heap. *)
Definition alloc (x : Session) (s : store_state) : nat * store_state :=
  let l := fresh (dom (heap s)) in
  (l, MkStore (disk s) (<[l := x]> (heap s)) (sessionCache s) (noteIndex s) (noteIndexInit s)).

(** A store after a restart: the files are what is left. *)
Definition restarted (s : store_state) : store_state := MkStore (disk s) (heap s) ∅ ∅ false.

(** ** File names *)

Definition encodeKey (key : string) : string :=
  if bool_decide (200 < String.length key)%nat then of_bytes (RawURLEncode (Sum256 (to_bytes key)))
  else of_bytes (RawURLEncode (to_bytes key)).

Definition requiresKeySidecar (key : string) : bool := bool_decide (200 < String.length key)%nat.

(** The directories are made one after the other.  The limit on cached sessions
    is not kept. *)
Fixpoint make_directories (mkdir_ok : string → bool) (paths : list string) (d : Disk) : res () * Disk :=
  match paths with
  | [] => (Ok tt, d)
  | p :: paths =>
      match MkdirAll mkdir_ok d p with
      | None => (Fail ("failed to create directory " +:+ p), d)
      | Some d => make_directories mkdir_ok paths d
      end
  end.

Definition NewFileMemoryStore (mkdir_ok : string → bool) (basePath : string) (redaction : option IRedactionPipeline)
    (d : Disk) (h : session_heap) : res (FileMemoryStore * store_state) * Disk :=
  if bool_decide (basePath = "") then (Fail "basePath cannot be empty", d)
  else
    let f := MkFileStore (Join basePath "sessions") (Join basePath "notes") (Join basePath "branches") redaction in
    match make_directories mkdir_ok [sessionsPath f; notesPath f; branchesPath f] d with
    | (Fail e, d) => (Fail e, d)
    | (Ok _, d) => (Ok (f, MkStore d h ∅ ∅ false), d)
    end.

(** The lock of a session: FNV-1a over the bytes, in 32 bits. *)
Definition resolveSessionLoadStripe (sessionId : string) : Z :=
  let hash := foldl (λ h c, (Z.lxor h (Z.of_N (code c)) * 16777619) mod 2^32)%Z 2166136261%Z (to_bytes sessionId) in
  (Z.land hash 2147483647 mod 64)%Z.

Section Store.
Context (write_ok remove_ok read_ok : string → bool) (rename_ok : string → string → bool).
(** The JSON of a session and of a branch, and what it is read as. *)
Context (marshal : Session → option string) (unmarshal : string → res Session).
Context (marshal_branch : SessionBranch → option string) (unmarshal_branch : string → option SessionBranch).
Context (lower_rune : N → N).
Context (f : FileMemoryStore).

Local Abbreviation write := (WriteFile write_ok).
Local Abbreviation rename := (Rename rename_ok).

(** A file that is removed if possible. *)
Definition try_remove (path : string) (d : Disk) : Disk := default d (Remove remove_ok d path).

(** The contents of a file that can be read. *)
Definition ReadFile (path : string) (d : Disk) : option string :=
  match d !! path with Some (NFile data) => if read_ok path then Some data else None | _ => None end.

(** A temporary file is opened, filled and renamed; on an error it is removed.
    [None] for [data] is a value without JSON. *)
Definition write_atomically (ctx_err : option string) (filePath : string) (data : option string) (d : Disk) : res () * Disk :=
  let tempPath := filePath +:+ ".tmp" in
  match write d tempPath "" with
  | None => (Fail ("open " +:+ tempPath), try_remove tempPath d)
  | Some d1 =>
      match ctx_err, data with
      | Some e, _ => (Fail e, try_remove tempPath d1)
      | None, None => (Fail "json: unsupported value", try_remove tempPath d1)
      | None, Some data =>
          match write d1 tempPath data with
          | None => (Fail ("write " +:+ tempPath), try_remove tempPath d1)
          | Some d2 =>
              match rename d2 tempPath filePath with
              | None => (Fail ("rename " +:+ tempPath), try_remove tempPath d2)
              | Some d3 => (Ok tt, d3)
              end
          end
      end
  end.

(** ** Sessions *)

Definition session_path (sessionId : string) : string := Join (sessionsPath f) (encodeKey sessionId +:+ ".json").

Definition loadSessionFromFile (filePath : string) (d : Disk) : res Session :=
  match ReadFile filePath d with Some data => unmarshal data | None => Fail ("open " +:+ filePath) end.

(** The file is set aside, if possible, under a name with the time. *)
Definition quarantineCorruptSessionFile (timestamp filePath sessionId originalErr : string) (d : Disk) : string * Disk :=
  let '(quarantinePath, d') :=
    match d !! filePath with
    | Some _ =>
        let quarantinePath := filePath +:+ ".corrupt-" +:+ timestamp in
        (quarantinePath, default d (rename d filePath quarantinePath))
    | None => ("", d)
    end in
  let effectivePath := if bool_decide (quarantinePath = "") then filePath else quarantinePath in
  ("session '" +:+ sessionId +:+ "' could not be loaded because its persisted state is corrupt (Path: " +:+ effectivePath +:+
   "). Original error: " +:+ originalErr, d').

(** A nil session is no error. *)
Definition GetSession (timestamp sessionId : string) (s : store_state) : res (option nat) * store_state :=
  if IsBlank sessionId then (Ok None, s)
  else
    match sessionCache s !! sessionId with
    | Some cached => (Ok (Some cached), s)
    | None =>
        let filePath := session_path sessionId in
        match disk s !! filePath with
        | None => (Ok None, s)
        | Some _ =>
            match loadSessionFromFile filePath (disk s) with
            | Fail err =>
                let '(err, d) := quarantineCorruptSessionFile timestamp filePath sessionId err (disk s) in
                (Fail err, set_disk d s)
            | Ok session =>
                let '(l, s) := alloc session s in
                (Ok (Some l), set_cache (<[sessionId := l]> (sessionCache s)) s)
            end
        end
    end.

Definition DeleteSession (sessionId : string) (s : store_state) : res () * store_state :=
  if IsBlank sessionId then (Ok tt, s)
  else
    let s := set_cache (delete sessionId (sessionCache s)) s in
    let filePath := session_path sessionId in
    match Remove remove_ok (disk s) filePath with
    | None => (Fail ("remove " +:+ filePath), s)
    | Some d => (Ok tt, set_disk (try_remove (filePath +:+ ".tmp") d) s)
    end.

(** The cache gets a copy, redacted. *)
Definition SaveSession (ctx_err : option string) (session : Session) (s : store_state) : res () * store_state :=
  let persistedSession := match redaction f with Some r => RedactSession r session | None => session end in
  let '(r, d) := write_atomically ctx_err (session_path (Id session)) (marshal persistedSession) (disk s) in
  match r with
  | Fail e => (Fail e, set_disk d s)
  | Ok _ =>
      let '(l, s) := alloc persistedSession (set_disk d s) in
      (Ok tt, set_cache (<[Id session := l]> (sessionCache s)) s)
  end.

(** ** Notes *)

Definition note_path (key extension : string) : string := Join (notesPath f) (encodeKey key +:+ extension).

Definition LoadNote (key : string) (s : store_state) : string :=
  if IsBlank key then "" else default "" (ReadFile (note_path key ".md") (disk s)).

Definition createNoteIndexEntry (key content : string) (updatedAt : Z) : NoteIndexEntry :=
  let preview :=
    if bool_decide (4096 < String.length content)%nat && bool_decide (4096 < length (runes content))%nat
    then of_runes (take 4096 (runes content) ++ [8230%N]) else content in
  MkNote key preview (ToLower lower_rune (key +:+ of_bytes [byte 10] +:+ content)) updatedAt.

Definition persistOriginalNoteKey (key keyPath keyTempPath : string) (d : Disk) : res () * Disk :=
  if negb (requiresKeySidecar key) then (Ok tt, try_remove keyPath d)
  else
    match write d keyTempPath key with
    | None => (Fail ("open " +:+ keyTempPath), d)
    | Some d => match rename d keyTempPath keyPath with None => (Fail ("rename " +:+ keyTempPath), d) | Some d => (Ok tt, d) end
    end.

Definition upsertNoteIndexEntry (key content : string) (updatedAt : Z) (s : store_state) : store_state :=
  if noteIndexInit s then set_index (<[key := createNoteIndexEntry key content updatedAt]> (noteIndex s)) true s else s.

Definition SaveNote (now : Z) (key content : string) (s : store_state) : res () * store_state :=
  if IsBlank key then (Fail "note key cannot be empty", s)
  else
    let filePath := note_path key ".md" in
    let tempPath := filePath +:+ ".tmp" in
    let keyPath := note_path key ".key" in
    let keyTempPath := keyPath +:+ ".tmp" in
    let safeContent := match redaction f with Some r => Redact r content | None => content end in
    match write (disk s) tempPath safeContent with
    | None => (Fail ("open " +:+ tempPath), set_disk (try_remove tempPath (disk s)) s)
    | Some d =>
        match rename d tempPath filePath with
        | None => (Fail ("rename " +:+ tempPath), set_disk (try_remove tempPath d) s)
        | Some d =>
            match persistOriginalNoteKey key keyPath keyTempPath d with
            | (Fail e, d) => (Fail e, set_disk (try_remove keyTempPath d) s)
            | (Ok _, d) => (Ok tt, upsertNoteIndexEntry key safeContent now (set_disk d s))
            end
        end
    end.

Definition DeleteNote (key : string) (s : store_state) : res () * store_state :=
  if IsBlank key then (Ok tt, s)
  else
    let d := try_remove (note_path key ".key") (try_remove (note_path key ".md") (disk s)) in
    (Ok tt, set_index (delete key (noteIndex s)) (noteIndexInit s) (set_disk d s)).

(** The key of a note, from its file name. *)
Definition resolveNoteKey (encodedKey mdPath : string) (d : Disk) : string :=
  match (if bool_decide (String.length encodedKey <= 200)%nat then url_decode (to_bytes encodedKey) else None) with
  | Some decoded => of_bytes decoded
  | None => default encodedKey (ReadFile (slice_to mdPath (String.length mdPath - 3) +:+ ".key") d)
  end.

(** The modification time of a file. *)
Context (ModTime : string → Z).

(** [filepath.WalkDir] reads directories by name. *)
Fixpoint names_leb (a b : list string) : bool :=
  match a, b with
  | [], _ => true
  | _ :: _, [] => false
  | x :: a, y :: b => if bool_decide (x = y) then names_leb a b else String.leb x y
  end.

(** The files under a directory, each with the names below it and its
    contents. *)
Definition below (root path : string) : option (list string) :=
  if HasPrefix path (root +:+ "/") then Some (Split (slice_from path (S (String.length root))) sep) else None.

Definition walk_entry (root : string) (x : string * node) : option (list string * string * string) :=
  match x.2, below root x.1 with
  | NFile data, Some names => Some (names, x.1, data)
  | _, _ => None
  end.

Definition walk_order (x y : list string * string * string) : Prop := Is_true (names_leb x.1.1 y.1.1).
#[local] Instance walk_order_dec : RelDecision walk_order.
Proof. intros x y. unfold walk_order. apply _. Defined.

Definition files_below (root : string) (d : Disk) : list (list string * string * string) :=
  merge_sort walk_order (omap (walk_entry root) (map_to_list d)).

(** One file of the walk. *)
Definition index_file (d : Disk) (index : gmap string NoteIndexEntry) (x : list string * string * string)
    : gmap string NoteIndexEntry :=
  let '(names, path, _) := x in
  let name := default "" (last names) in
  if negb (HasSuffix name ".md") then index
  else
    let key := resolveNoteKey (slice_to name (String.length name - 3)) path d in
    match ReadFile path d with
    | Some content => <[key := createNoteIndexEntry key content (ModTime path)]> index
    | None => index
    end.

Definition ensureNoteIndexLoaded (ctx_err : option string) (s : store_state) : option string * store_state :=
  if noteIndexInit s then (None, s)
  else
    match disk s !! notesPath f, ctx_err with
    | None, _ => (Some ("lstat " +:+ notesPath f +:+ ": no such file or directory"), set_index ∅ false s)
    | Some _, Some e => (Some e, set_index ∅ false s)
    | Some _, None => (None, set_index (foldl (index_file (disk s)) ∅ (files_below (notesPath f) (disk s))) true s)
    end.

Definition string_order (x y : string) : Prop := Is_true (String.leb x y).
#[local] Instance string_order_dec : RelDecision string_order.
Proof. intros x y. unfold string_order. apply _. Defined.

Definition sorted_strings (l : list string) : list string := merge_sort string_order l.

Definition ListNotesWithPrefix (ctx_err : option string) (prefix : string) (s : store_state) : list string * store_state :=
  match ensureNoteIndexLoaded ctx_err s with
  | (Some _, s) => ([], s)
  | (None, s) => (sorted_strings (filter (λ k, HasPrefix k prefix) (elements (dom (noteIndex s)))), s)
  end.

(** ** Branches *)

Definition branch_path (branchId : string) : string := Join (branchesPath f) (encodeKey branchId +:+ ".json").

Definition SaveBranch (branch : SessionBranch) (s : store_state) : res () * store_state :=
  let persistedBranch := match redaction f with Some r => RedactBranch r branch | None => branch end in
  let '(r, d) := write_atomically None (branch_path (BranchId branch)) (marshal_branch persistedBranch) (disk s) in
  (r, set_disk d s).

(** Whatever is wrong with the file, there is no branch and no error. *)
Definition LoadBranch (branchId : string) (s : store_state) : option SessionBranch :=
  if IsBlank branchId then None else data ← ReadFile (branch_path branchId) (disk s); unmarshal_branch data.

Definition branch_of (sessionId : string) (d : Disk) (x : list string * string * string) : option SessionBranch :=
  match x with
  | ([name], path, _) =>
      if HasSuffix name ".json" then
        branch ← (data ← ReadFile path d; unmarshal_branch data);
        if bool_decide (BranchSessionId branch = sessionId) then Some branch else None
      else None
  | _ => None
  end.

Definition ListBranches (sessionId : string) (s : store_state) : list SessionBranch :=
  match disk s !! branchesPath f with
  | Some NDir => omap (branch_of sessionId (disk s)) (files_below (branchesPath f) (disk s))
  | _ => []
  end.

Definition DeleteBranch (branchId : string) (s : store_state) : store_state :=
  if IsBlank branchId then s else set_disk (try_remove (branch_path branchId) (disk s)) s.
End Store.
