(* ===== verification/FileStoreSpec.v ===== *)
(** What the file store promises: a saved session can be read back by the same
    process and after a restart, a save that fails leaves the last version, and
    sessions with different keys do not share files; which keys the index of
    notes has after a restart. *)

From Stdlib Require Import ZifyNat.
From stdpp Require Import sorting.
From S2P Require Import Prelude GoStrings Encoding Disk PathPolicy Paths ToolExecutor AgentTurn SessionModels FileStore.
Local Open Scope string_scope.
Local Open Scope list_scope.

Local Ltac Zify.zify_post_hook ::= Z.to_euclidean_division_equations.

(** ** File names *)

Lemma url_digit_plain n : (n < 64)%N → url_digit n ≠ sep ∧ url_digit n ≠ byte 46.
Proof.
  intros Hn. assert (forallb (λ n, bool_decide (url_digit n ≠ sep ∧ url_digit n ≠ byte 46)) (map N.of_nat (seq 0 64)) = true) as Hall
    by (vm_compute; reflexivity).
  rewrite forallb_forall in Hall. specialize (Hall n). apply bool_decide_eq_true in Hall; [done |].
  apply in_map_iff. exists (N.to_nat n). split; [apply N2Nat.id | apply in_seq; lia].
Qed.

Lemma encoded_plain l : sep ∉ RawURLEncode l ∧ byte 46 ∉ RawURLEncode l.
Proof.
  pose proof (encoded_digits l) as Hall.
  split; intros Hin; apply (proj1 (Forall_forall _ _) Hall) in Hin as (n & Hn & Heq); by destruct (url_digit_plain n Hn).
Qed.

Lemma encodeKey_bytes key : ∃ l, to_bytes (encodeKey key) = RawURLEncode l.
Proof. unfold encodeKey. case_bool_decide; rewrite to_bytes_of_bytes; eauto. Qed.

Definition extensions : list string := [".json"; ".md"; ".key"].

Lemma encoded_name_proper key ext : ext ∈ extensions → proper (encodeKey key +:+ ext).
Proof.
  intros Hext. destruct (encodeKey_bytes key) as [l Hl]. destruct (encoded_plain l) as [Hsep _]. rewrite <- Hl in Hsep.
  assert (3 ≤ String.length ext ∧ (sep ∉ to_bytes ext))%nat as [Hlen Hs].
  { assert (forallb (λ ext, bool_decide (3 ≤ String.length ext ∧ (sep ∉ to_bytes ext))%nat) extensions = true) as Hall
      by (vm_compute; reflexivity).
    rewrite forallb_forall in Hall. specialize (Hall ext). apply bool_decide_eq_true in Hall; [done | by apply list_elem_of_In]. }
  assert (3 ≤ String.length (encodeKey key +:+ ext))%nat as H3 by (rewrite <- to_bytes_length, to_bytes_append, length_app, !to_bytes_length; lia).
  unfold proper. split_and!; [by intros H; rewrite H in H3; simpl in H3; lia.. |].
  rewrite to_bytes_append, elem_of_app. tauto.
Qed.

Lemma encodeKey_inj k k' : (String.length k ≤ 200 → String.length k' ≤ 200 → encodeKey k = encodeKey k' → k = k')%nat.
Proof.
  intros H H' Heq. unfold encodeKey in Heq. rewrite !bool_decide_eq_false_2 in Heq by lia.
  apply (f_equal to_bytes) in Heq. rewrite !to_bytes_of_bytes in Heq. apply RawURLEncode_inj in Heq.
  by rewrite <- (of_bytes_to_bytes k), Heq, of_bytes_to_bytes.
Qed.

(** A directory of a store. *)
Definition directory (path : string) : Prop := ∃ segs, path = canon segs ∧ segs ≠ [] ∧ Forall proper segs.

Lemma file_path_inj dir name name' : directory dir → proper name → proper name' →
  PathPolicy.Join dir name = PathPolicy.Join dir name' → name = name'.
Proof.
  intros (segs & -> & Hne & Hall) Hn Hn' Heq. rewrite !Join_name in Heq by done.
  apply (f_equal segments) in Heq. rewrite !segments_canon in Heq by (apply Forall_app; by split; [| constructor]).
  by apply app_inv_head in Heq as [= ->].
Qed.

Lemma append_inv_tail (a b c : string) : a +:+ c = b +:+ c → a = b.
Proof.
  intros H. apply (f_equal to_bytes) in H. rewrite !to_bytes_append in H. apply app_inv_tail in H.
  by rewrite <- (of_bytes_to_bytes a), H, of_bytes_to_bytes.
Qed.

(** The bytes before the first dot of a name. *)
Lemma encoded_prefix l l' x y : (byte 46 ∉ l) → (byte 46 ∉ l') → l ++ byte 46 :: x = l' ++ byte 46 :: y → x = y.
Proof.
  revert l'. induction l as [| c l IH]; intros [| c' l'] H H' Heq; simplify_eq/=; [done | | |].
  - exfalso. apply H'. by left.
  - exfalso. apply H. by left.
  - apply not_elem_of_cons in H as [_ H]. apply not_elem_of_cons in H' as [_ H']. by eapply IH.
Qed.

(** ** Atomic writes *)

Section Spec.
Context (write_ok remove_ok read_ok : string → bool) (rename_ok : string → string → bool).

Lemma WriteFile_Some d path data d' : WriteFile write_ok d path data = Some d' → d' = <[path := NFile data]> d.
Proof. unfold WriteFile. destruct (d !! path) as [[|] |], (write_ok path); congruence. Qed.

Lemma try_remove_other path d p : p ≠ path → try_remove remove_ok path d !! p = d !! p.
Proof.
  intros Hp. unfold try_remove, Remove. destruct (d !! path); [| done]. destruct (remove_ok path); [| done]. by apply lookup_delete_ne.
Qed.

(** Only the file and its temporary file change, the file only if all went
    well. *)
Lemma write_atomically_spec ctx_err path data d r d' : write_atomically write_ok remove_ok rename_ok ctx_err path data d = (r, d') →
  (∀ p, p ≠ path → p ≠ path +:+ ".tmp" → d' !! p = d !! p) ∧
  match r with
  | Ok _ => ∃ text, data = Some text ∧ d' !! path = Some (NFile text) ∧ d' !! (path +:+ ".tmp") = None
  | Fail _ => d' !! path = d !! path
  end.
Proof.
  pose proof (tmp_differs path) as Hne. unfold write_atomically.
  destruct (WriteFile _ d _ "") as [d1 |] eqn:H1; [apply WriteFile_Some in H1 |].
  2: { intros [= <- <-]. split; [intros p _ Hp; by apply try_remove_other | by apply try_remove_other]. }
  assert (∀ e, (Fail e : res (), try_remove remove_ok (path +:+ ".tmp") d1) = (r, d') →
    (∀ p, p ≠ path → p ≠ path +:+ ".tmp" → d' !! p = d !! p) ∧
    match r with
    | Ok _ => ∃ text, data = Some text ∧ d' !! path = Some (NFile text) ∧ d' !! (path +:+ ".tmp") = None
    | Fail _ => d' !! path = d !! path
    end) as Hfail.
  { intros e [= <- <-]. subst d1. split; [intros p _ Hp |]; rewrite try_remove_other by done; by apply lookup_insert_ne. }
  destruct ctx_err as [e |]; [apply Hfail |]. destruct data as [text |]; [| apply Hfail].
  destruct (WriteFile _ d1 _ text) as [d2 |] eqn:H2; [apply WriteFile_Some in H2 | apply Hfail].
  unfold Rename. rewrite H2 at 1. rewrite lookup_insert_eq. destruct (rename_ok _ _).
  - intros [= <- <-]. subst d2 d1. split.
    + intros p Hp Ht. rewrite lookup_insert_ne, lookup_delete_ne by done. by rewrite !lookup_insert_ne by done.
    + exists text. split; [done |]. split; [apply lookup_insert_eq |].
      rewrite lookup_insert_ne by done. apply lookup_delete_eq.
  - intros [= <- <-]. subst d2 d1. split; [intros p _ Hp |]; rewrite try_remove_other by done; by rewrite !lookup_insert_ne by done.
Qed.
End Spec.

(** ** Sessions *)

Lemma Split_no_file key : byte 46 ∉ to_bytes (encodeKey key).
Proof. destruct (encodeKey_bytes key) as [l ->]. apply encoded_plain. Qed.

Section Sessions.
Context (write_ok remove_ok read_ok : string → bool) (rename_ok : string → string → bool).
Context (marshal : Session → option string) (unmarshal : string → res Session) (f : FileMemoryStore).
(** JSON keeps a session of valid UTF-8 but for its counters. *)
Context (Hjson : ∀ x text, encodable x → marshal x = Some text → unmarshal text = Ok (without_counters x)).
Context (Hdir : directory (sessionsPath f)).

Lemma session_path_inj id id' : (String.length id ≤ 200 → String.length id' ≤ 200 → session_path f id = session_path f id' → id = id')%nat.
Proof.
  intros H H' Heq. apply encodeKey_inj; [done.. |]. apply (append_inv_tail _ _ ".json").
  eapply file_path_inj; [exact Hdir | | | exact Heq]; by apply encoded_name_proper; left.
Qed.

Lemma session_path_not_temp id id' : session_path f id ≠ session_path f id' +:+ ".tmp".
Proof.
  intros Heq. unfold session_path in Heq. destruct Hdir as (segs & Hs & Hne & Hall). rewrite Hs in Heq.
  rewrite !Join_name in Heq by (done || by apply encoded_name_proper; left).
  rewrite <- !canon_snoc in Heq by done. apply (f_equal to_bytes) in Heq. rewrite !to_bytes_append in Heq.
  rewrite <- !app_assoc in Heq. do 2 apply app_inv_head in Heq.
  apply encoded_prefix in Heq; [done | apply Split_no_file..].
Qed.

Local Abbreviation save := (SaveSession write_ok remove_ok rename_ok marshal f).
Local Abbreviation get := (GetSession read_ok rename_ok unmarshal f).

(** What is stored of a session. *)
Definition stored (x : Session) : Session := match redaction f with Some r => RedactSession r x | None => x end.

Lemma alloc_fresh x s : heap s !! (alloc x s).1 = None.
Proof. apply not_elem_of_dom, is_fresh. Qed.

Lemma get_after_restart stamp id s text x : IsBlank id = false → read_ok (session_path f id) = true →
  disk s !! session_path f id = Some (NFile text) → unmarshal text = Ok x →
  ∃ l s', get stamp id (restarted s) = (Ok (Some l), s') ∧ heap s' !! l = Some x.
Proof.
  intros Hid Hread Hfile Htext. unfold GetSession. rewrite Hid. cbn [restarted sessionCache]. rewrite lookup_empty.
  cbn [restarted disk]. rewrite Hfile. unfold loadSessionFromFile, ReadFile. rewrite Hfile, Hread, Htext.
  destruct (alloc x _) as [l s'] eqn:Ha. do 2 eexists. split; [reflexivity |]. injection Ha as <- <-. apply lookup_insert_eq.
Qed.

(** C15: saving a session is atomic and isolated.  What is saved is read back by
    the same process, from the cache; if its strings are valid UTF-8, also after a
    restart, from the file, but for the counters of tokens.  A save that fails
    leaves the file and the cache as they were.  No object on the heap changes,
    and neither the file nor the cache entry of a session with another id, as
    long as both ids have at most 200 bytes; beyond, two ids can share a file. *)
Theorem saved_sessions_survive ctx_err stamp x s r s' :
  IsBlank (Id x) = false → read_ok (session_path f (Id x)) = true → save ctx_err x s = (r, s') →
  match r with
  | Ok _ => (∃ l, get stamp (Id x) s' = (Ok (Some l), s') ∧ heap s' !! l = Some (stored x)) ∧
            (encodable (stored x) → ∃ l s'', get stamp (Id x) (restarted s') = (Ok (Some l), s'') ∧ heap s'' !! l = Some (without_counters (stored x)))
  | Fail _ => disk s' !! session_path f (Id x) = disk s !! session_path f (Id x) ∧ sessionCache s' = sessionCache s
  end ∧ heap s ⊆ heap s' ∧
  ∀ id, (String.length id ≤ 200 → String.length (Id x) ≤ 200 → id ≠ Id x →
    disk s' !! session_path f id = disk s !! session_path f id ∧ sessionCache s' !! id = sessionCache s !! id)%nat.
Proof.
  intros Hid Hread. unfold SaveSession. fold (stored x).
  destruct (write_atomically _ _ _ _ _ _ (disk s)) as [r0 d] eqn:Hw. apply write_atomically_spec in Hw as [Hother Hr].
  assert (∀ id, (String.length id ≤ 200 → String.length (Id x) ≤ 200 → id ≠ Id x →
    d !! session_path f id = disk s !! session_path f id)%nat) as Hiso.
  { intros id H1 H2 H3. apply Hother; [by intros Heq%session_path_inj | apply session_path_not_temp]. }
  destruct r0 as [[] | e].
  - destruct Hr as (text & Htext & Hfile & _). intros [= <- <-]. split; [split |].
    + eexists. split; [unfold GetSession; rewrite Hid; cbn [set_cache alloc sessionCache]; by rewrite lookup_insert_eq |].
      apply lookup_insert_eq.
    + intros Henc. eapply get_after_restart; [done | done | exact Hfile | by apply Hjson].
    + split; [apply insert_subseteq; apply (alloc_fresh (stored x) (set_disk d s)) |].
      intros id H1 H2 H3. split; [by apply Hiso | by apply lookup_insert_ne].
  - intros [= <- <-]. split; [done |]. split; [done |]. intros id H1 H2 H3. split; [by apply Hiso | done].
Qed.
End Sessions.

(** A session with a long id shares its file with the one whose id is the
    SHA-256 of that id. *)
Lemma long_ids_collide f id : (200 < String.length id)%nat → session_path f (of_bytes (Sum256 (to_bytes id))) = session_path f id.
Proof.
  intros Hlong. unfold session_path. f_equal. f_equal. unfold encodeKey at 2. rewrite bool_decide_eq_true_2 by done.
  unfold encodeKey. rewrite bool_decide_eq_false_2; [by rewrite to_bytes_of_bytes |].
  rewrite <- to_bytes_length, to_bytes_of_bytes, length_Sum256. lia.
Qed.

(** ** Notes *)

Section Notes.
Context (write_ok remove_ok read_ok : string → bool) (rename_ok : string → string → bool) (lower_rune : N → N)
  (ModTime : string → Z) (f : FileMemoryStore).

(** What a note is called once its file name has been read. *)
Definition shown (key : string) : string :=
  if bool_decide (String.length key ≤ 150)%nat then key
  else if bool_decide (String.length key ≤ 200)%nat then encodeKey key
  else of_bytes (Sum256 (to_bytes key)).

Lemma url_decode_key l : of_bytes <$> url_decode (to_bytes (of_bytes (RawURLEncode l))) = Some (of_bytes l).
Proof. rewrite to_bytes_of_bytes. by rewrite url_decode_encode. Qed.

Lemma length_encoded l : String.length (of_bytes (RawURLEncode l)) = ((4 * length l + 2) / 3)%nat.
Proof. by rewrite <- to_bytes_length, to_bytes_of_bytes, length_RawURLEncode. Qed.

Lemma encodeKey_short key : (String.length key ≤ 200)%nat → encodeKey key = of_bytes (RawURLEncode (to_bytes key)).
Proof. intros H. unfold encodeKey. rewrite bool_decide_eq_false_2; [done | lia]. Qed.

Lemma encodeKey_long key : (200 < String.length key)%nat → encodeKey key = of_bytes (RawURLEncode (Sum256 (to_bytes key))).
Proof. intros H. unfold encodeKey. by rewrite bool_decide_eq_true_2. Qed.

(** No note has a file next to it with its key, unless the key is long. *)
Lemma resolve_shown key path d : (String.length key ≤ 200 → ReadFile read_ok (slice_to path (String.length path - 3) +:+ ".key") d = None)%nat →
  resolveNoteKey read_ok (encodeKey key) path d = shown key.
Proof.
  intros Hside. unfold resolveNoteKey, shown. destruct (decide (String.length key ≤ 200)%nat) as [H200 | H200].
  - rewrite (Hside H200), (encodeKey_short key H200), length_encoded, to_bytes_length. cbn [default].
    destruct (decide (String.length key ≤ 150)%nat) as [H150 | H150].
    + rewrite (bool_decide_eq_true_2 ((4 * String.length key + 2) / 3 ≤ 200)%nat) by lia.
      rewrite to_bytes_of_bytes, url_decode_encode, of_bytes_to_bytes. by rewrite bool_decide_eq_true_2.
    + rewrite (bool_decide_eq_false_2 ((4 * String.length key + 2) / 3 ≤ 200)%nat).
      * by rewrite (bool_decide_eq_false_2 (String.length key ≤ 150)%nat), (bool_decide_eq_true_2 (String.length key ≤ 200)%nat).
      * lia.
  - rewrite (bool_decide_eq_false_2 (String.length key ≤ 150)%nat), (bool_decide_eq_false_2 (String.length key ≤ 200)%nat) by lia.
    rewrite (encodeKey_long key) by lia. rewrite length_encoded, length_Sum256.
    rewrite (bool_decide_eq_true_2 ((4 * 32 + 2) / 3 ≤ 200)%nat) by lia.
    by rewrite to_bytes_of_bytes, url_decode_encode.
Qed.

Context (segs : list string) (Hnotes : notesPath f = canon segs) (Hne : segs ≠ []) (Hsegs : Forall proper segs).

Local Abbreviation path := (note_path f).

Lemma path_canon key ext : ext ∈ extensions → path key ext = canon (segs ++ [encodeKey key +:+ ext]).
Proof. intros H. unfold note_path. rewrite Hnotes. apply Join_name; [done.. |]. by apply encoded_name_proper. Qed.

Lemma path_same key ext ext' tail tail' : ext ∈ extensions → ext' ∈ extensions →
  path key ext +:+ tail = path key ext' +:+ tail' → ext +:+ tail = ext' +:+ tail'.
Proof.
  intros H H' Heq. rewrite !path_canon, <- !canon_snoc in Heq by done. apply (f_equal to_bytes) in Heq.
  rewrite !to_bytes_append, <- !app_assoc in Heq. do 3 apply app_inv_head in Heq.
  rewrite <- (of_bytes_to_bytes (ext +:+ tail)), <- (of_bytes_to_bytes (ext' +:+ tail')). f_equal. by rewrite !to_bytes_append.
Qed.

Lemma HasPrefix_append a b : HasPrefix (a +:+ b) a = true.
Proof. unfold HasPrefix. rewrite has_prefix_spec, to_bytes_append. by eexists. Qed.

Lemma slice_from_append a b : slice_from (a +:+ b) (String.length a) = b.
Proof.
  unfold slice_from. rewrite to_bytes_append, <- to_bytes_length, drop_app_length. apply of_bytes_to_bytes.
Qed.

Lemma slice_to_append a b : slice_to (a +:+ b) (String.length a) = a.
Proof.
  unfold slice_to. rewrite to_bytes_append, <- to_bytes_length, take_app_length. apply of_bytes_to_bytes.
Qed.

Lemma below_child name : proper name → below (notesPath f) (canon (segs ++ [name])) = Some [name].
Proof.
  intros (_ & _ & _ & Hsep). rewrite Hnotes, <- canon_snoc by done. unfold below.
  assert (canon segs +:+ "/" +:+ name = (canon segs +:+ "/") +:+ name) as ->.
  { rewrite <- (of_bytes_to_bytes (_ +:+ _)). symmetry. rewrite <- (of_bytes_to_bytes (_ +:+ _)). f_equal.
    by rewrite !to_bytes_append, app_assoc. }
  rewrite HasPrefix_append. f_equal. replace (S (String.length (canon segs))) with (String.length (canon segs +:+ "/")).
  - rewrite slice_from_append. unfold Split. rewrite split_bytes_none by done. simpl. by rewrite of_bytes_to_bytes.
  - rewrite <- !to_bytes_length, to_bytes_append, length_app. simpl. lia.
Qed.

Lemma elem_of_files_below root d x : x ∈ files_below root d ↔
  ∃ names p data, x = (names, p, data) ∧ d !! p = Some (NFile data) ∧ below root p = Some names.
Proof.
  unfold files_below. rewrite merge_sort_Permutation, list_elem_of_omap. split.
  - intros ([p n] & Hin%elem_of_map_to_list & Hx). unfold walk_entry in Hx. simpl in Hx.
    destruct n as [| data]; [done |]. destruct (below root p) as [names |] eqn:Hb; [| done]. injection Hx as <-. eauto 10.
  - intros (names & p & data & -> & Hd & Hb). exists (p, NFile data). split; [by apply elem_of_map_to_list |].
    unfold walk_entry. simpl. by rewrite Hb.
Qed.

(** The key under which a file is indexed. *)
Definition indexed (d : Disk) (x : list string * string * string) : option string :=
  let '(names, p, _) := x in
  let name := default "" (last names) in
  if HasSuffix name ".md" && bool_decide (is_Some (ReadFile read_ok p d))
  then Some (resolveNoteKey read_ok (slice_to name (String.length name - 3)) p d) else None.

Lemma index_dom d files k : ∀ index, k ∈ dom (foldl (index_file read_ok lower_rune ModTime d) index files) ↔
  k ∈ dom index ∨ ∃ x, x ∈ files ∧ indexed d x = Some k.
Proof.
  induction files as [| [[names p] data] files IH]; intros index; simpl.
  - split; [by left | intros [H | (x & Hx & _)]; [done | by apply not_elem_of_nil in Hx]].
  - rewrite IH. assert (k ∈ dom (index_file read_ok lower_rune ModTime d index (names, p, data)) ↔
      k ∈ dom index ∨ indexed d (names, p, data) = Some k) as ->.
    { unfold index_file, indexed. destruct (HasSuffix _ ".md"); simpl; [| naive_solver].
      destruct (ReadFile read_ok p d) as [content |]; [| rewrite bool_decide_eq_false_2 by (by intros []); naive_solver].
      rewrite bool_decide_eq_true_2 by eauto. rewrite dom_insert_L, elem_of_union, elem_of_singleton.
      split; [intros [-> | H]; auto | intros [H | [= ->]]; auto]. }
    setoid_rewrite elem_of_cons. naive_solver.
Qed.

Lemma append_empty (a : string) : a +:+ "" = a.
Proof. rewrite <- (of_bytes_to_bytes (a +:+ "")), to_bytes_append, app_nil_r. apply of_bytes_to_bytes. Qed.

Lemma path_differs key ext ext' tail tail' : ext ∈ extensions → ext' ∈ extensions → ext +:+ tail ≠ ext' +:+ tail' →
  path key ext +:+ tail ≠ path key ext' +:+ tail'.
Proof. intros H H' Hneq Heq. by apply path_same in Heq. Qed.

Lemma note_paths_differ key : let md := path key ".md" in let kp := path key ".key" in
  md ≠ kp ∧ md +:+ ".tmp" ≠ kp ∧ md ≠ kp +:+ ".tmp" ∧ md +:+ ".tmp" ≠ kp +:+ ".tmp".
Proof.
  assert (".md" ∈ extensions) by (right; left). assert (".key" ∈ extensions) by (right; right; left).
  split_and!; [rewrite <- (append_empty (path key ".md")), <- (append_empty (path key ".key")) |
    rewrite <- (append_empty (path key ".key")) | rewrite <- (append_empty (path key ".md")) |]; by apply path_differs.
Qed.

(** What is saved of a note. *)
Definition safe_content (content : string) : string := match redaction f with Some r => Redact r content | None => content end.

Lemma persist_disk key kp d d' : persistOriginalNoteKey write_ok remove_ok rename_ok key kp (kp +:+ ".tmp") d = (Ok tt, d') →
  (∀ p, p ≠ kp → p ≠ kp +:+ ".tmp" → d' !! p = d !! p) ∧
  (d !! (kp +:+ ".tmp") = None → d' !! (kp +:+ ".tmp") = None) ∧
  if requiresKeySidecar key then d' !! kp = Some (NFile key) else (d !! kp = None → d' !! kp = None).
Proof.
  pose proof (tmp_differs kp) as Ht. unfold persistOriginalNoteKey. destruct (requiresKeySidecar key); simpl.
  - destruct (WriteFile _ d _ _) as [d1 |] eqn:H1; [apply WriteFile_Some in H1 | done].
    unfold Rename. rewrite H1 at 1. rewrite lookup_insert_eq. destruct (rename_ok _ kp); [| done]. intros [= <-]. subst d1.
    split; [| split; [intros _; rewrite lookup_insert_ne by done; apply lookup_delete_eq | apply lookup_insert_eq]].
    intros p P1 P2. by rewrite lookup_insert_ne, lookup_delete_ne, lookup_insert_ne by done.
  - intros [= <-]. split; [intros p P1 _; by apply try_remove_other |]. split; [by rewrite try_remove_other |]. intros Hk. unfold try_remove, Remove. by rewrite Hk.
Qed.

Lemma disk_upsert key content now d s : disk (upsertNoteIndexEntry lower_rune key content now (set_disk d s)) = d.
Proof. unfold upsertNoteIndexEntry. by case_match. Qed.

Lemma SaveNote_disk now key content s s' : SaveNote write_ok remove_ok rename_ok lower_rune f now key content s = (Ok tt, s') →
  let md := path key ".md" in let kp := path key ".key" in
  (∀ p, p ≠ md → p ≠ md +:+ ".tmp" → p ≠ kp → p ≠ kp +:+ ".tmp" → disk s' !! p = disk s !! p) ∧
  disk s' !! md = Some (NFile (safe_content content)) ∧ disk s' !! (md +:+ ".tmp") = None ∧
  (disk s !! (kp +:+ ".tmp") = None → disk s' !! (kp +:+ ".tmp") = None) ∧
  (if requiresKeySidecar key then disk s' !! kp = Some (NFile key) else (disk s !! kp = None → disk s' !! kp = None)) ∧
  s' = upsertNoteIndexEntry lower_rune key (safe_content content) now (set_disk (disk s') s).
Proof.
  pose proof (note_paths_differ key) as (D1 & D2 & D3 & D4). cbv zeta in *. set (md := path key ".md") in *.
  set (kp := path key ".key") in *. pose proof (tmp_differs md) as D5.
  unfold SaveNote. destruct (IsBlank key); [done |]. fold md kp. fold (safe_content content).
  destruct (WriteFile _ _ _ _) as [d1 |] eqn:H1; [apply WriteFile_Some in H1 | done].
  unfold Rename at 1. rewrite H1 at 1. rewrite lookup_insert_eq. destruct (rename_ok _ md); [| done].
  set (d2 := <[md := _]> _). assert (∀ p, p ≠ md → p ≠ md +:+ ".tmp" → d2 !! p = disk s !! p) as Hd2.
  { intros p Hp Ht. subst d2 d1. by rewrite lookup_insert_ne, lookup_delete_ne, lookup_insert_ne by done. }
  destruct (persistOriginalNoteKey _ _ _ _ _ _ d2) as [[[] | e] d3] eqn:Hp; [| done]. apply persist_disk in Hp as (Hother & Hkt & Hside).
  intros [= <-]. rewrite disk_upsert. split_and!; [| | | | | done].
  - intros p P1 P2 P3 P4. rewrite Hother by done. by apply Hd2.
  - rewrite Hother by done. apply lookup_insert_eq.
  - rewrite Hother by done. subst d2. rewrite lookup_insert_ne by done. apply lookup_delete_eq.
  - intros Hk. apply Hkt. by rewrite Hd2.
  - destruct (requiresKeySidecar key); [done |]. intros Hk. apply Hside. by rewrite Hd2.
Qed.

Lemma HasSuffix_append a b : HasSuffix (a +:+ b) b = true.
Proof. unfold HasSuffix. rewrite has_prefix_spec, to_bytes_append, rev_app_distr. by eexists. Qed.

Local Abbreviation list_notes := (ListNotesWithPrefix read_ok lower_rune f ModTime None "").

Lemma merge_sort_singleton (x : string) : sorted_strings [x] = [x].
Proof. reflexivity. Qed.

Lemma path_stem key ext : ext ∈ extensions → path key ext = (canon segs +:+ "/" +:+ encodeKey key) +:+ ext.
Proof.
  intros H. rewrite path_canon, <- canon_snoc by done. rewrite <- (of_bytes_to_bytes (_ +:+ _)). symmetry.
  rewrite <- (of_bytes_to_bytes (_ +:+ _)). f_equal. by rewrite !to_bytes_append, <- !app_assoc.
Qed.

Lemma slice_extension a : slice_to (a +:+ ".md") (String.length (a +:+ ".md") - 3) = a.
Proof.
  replace (String.length (a +:+ ".md") - 3)%nat with (String.length a); [apply slice_to_append |].
  rewrite <- !to_bytes_length, to_bytes_append, length_app. simpl. lia.
Qed.

Lemma note_extensions : ".md" ∈ extensions ∧ ".key" ∈ extensions.
Proof. split; [right; left | right; right; left]. Qed.

Lemma note_indexed key d content : (∀ p, read_ok p = true) → d !! path key ".md" = Some (NFile content) →
  ((String.length key ≤ 200)%nat → d !! path key ".key" = None) →
  indexed d ([encodeKey key +:+ ".md"], path key ".md", content) = Some (shown key).
Proof.
  intros Hread Hmd Hkey. destruct note_extensions as [E1 E2]. unfold indexed. simpl. rewrite HasSuffix_append.
  assert (ReadFile read_ok (path key ".md") d = Some content) as -> by (unfold ReadFile; by rewrite Hmd, Hread).
  rewrite bool_decide_eq_true_2 by eauto. cbn [andb]. f_equal. rewrite slice_extension. apply resolve_shown. intros Hlen.
  rewrite (path_stem key ".md"), slice_extension, <- (path_stem key ".key") by done. unfold ReadFile. by rewrite Hkey.
Qed.

Lemma below_path key ext : ext ∈ extensions → below (notesPath f) (path key ext) = Some [encodeKey key +:+ ext].
Proof. intros H. rewrite path_canon by done. by apply below_child, encoded_name_proper. Qed.

(** The files of a note that is alone in its directory. *)
Lemma alone_indexed key d content : (∀ p, read_ok p = true) →
  (∀ p, HasPrefix p (notesPath f +:+ "/") = true → p ≠ path key ".md" → p ≠ path key ".key" → d !! p = None) →
  d !! path key ".md" = Some (NFile content) →
  ((String.length key ≤ 200)%nat → d !! path key ".key" = None) →
  ∀ k, (∃ x, x ∈ files_below (notesPath f) d ∧ indexed d x = Some k) ↔ k = shown key.
Proof.
  intros Hread Halone Hmd Hkey k. destruct note_extensions as [E1 E2]. split.
  - intros (x & Hx & Hk). apply elem_of_files_below in Hx as (names & p & data & -> & Hd & Hb).
    destruct (decide (p = path key ".md")) as [-> | P1].
    { rewrite below_path in Hb by done. injection Hb as <-. rewrite Hmd in Hd. injection Hd as <-.
      rewrite note_indexed in Hk by done. congruence. }
    destruct (decide (p = path key ".key")) as [-> | P2].
    { rewrite below_path in Hb by done. injection Hb as <-. unfold indexed in Hk.
      change (default "" (last [encodeKey key +:+ ".key"])) with (encodeKey key +:+ ".key") in Hk.
      assert (HasSuffix (encodeKey key +:+ ".key") ".md" = false) as Hs.
      { unfold HasSuffix. rewrite to_bytes_append, rev_app_distr. reflexivity. }
      by rewrite Hs in Hk. }
    rewrite Halone in Hd; [done | | done | done]. unfold below in Hb. by destruct (HasPrefix p _).
  - intros ->. exists ([encodeKey key +:+ ".md"], path key ".md", content). split; [| by apply note_indexed].
    apply elem_of_files_below. do 3 eexists. split; [done |]. split; [done |]. by apply below_path.
Qed.

Lemma root_differs key ext : ext ∈ extensions → notesPath f ≠ path key ext ∧ notesPath f ≠ path key ext +:+ ".tmp".
Proof.
  intros H. rewrite path_stem, Hnotes by done.
  split; intros Heq; apply (f_equal (length ∘ to_bytes)) in Heq; simpl in Heq; rewrite !to_bytes_append, !length_app in Heq;
    simpl in Heq; lia.
Qed.

Lemma listing_singleton k : sorted_strings (filter (λ k, HasPrefix k "") (elements ({[k]} : gset string))) = [k].
Proof. by rewrite elements_singleton. Qed.

(** A note keeps its key over a restart only up to 150 bytes.  The listing of
    a store whose only note was just saved shows the key; after a restart it
    shows the file's name for keys of 151 to 200 bytes, and the SHA-256 of
    longer keys, though their file of the key is there. *)
Theorem note_keys_after_restart now key content s s' :
  (∀ p, read_ok p = true) → disk s !! notesPath f = Some NDir →
  (∀ p, HasPrefix p (notesPath f +:+ "/") = true → disk s !! p = None) → noteIndex s = ∅ → noteIndexInit s = true →
  SaveNote write_ok remove_ok rename_ok lower_rune f now key content s = (Ok tt, s') →
  (list_notes s').1 = [key] ∧ (list_notes (restarted s')).1 = [shown key] ∧
  disk s' !! path key ".md" = Some (NFile (safe_content content)) ∧
  (200 < String.length key → disk s' !! path key ".key" = Some (NFile key))%nat.
Proof.
  intros Hread Hroot Hempty Hindex Hinit Hsave. apply SaveNote_disk in Hsave as (Hother & Hmd & Hmdtmp & Hkeytmp & Hside & Hs').
  destruct note_extensions as [E1 E2]. cbv zeta in *.
  assert (∀ ext tail, ext ∈ extensions → HasPrefix (path key ext +:+ tail) (notesPath f +:+ "/") = true) as Hunder.
  { intros ext tail He. rewrite path_stem, Hnotes by done. unfold HasPrefix. rewrite has_prefix_spec, !to_bytes_append.
    eexists. rewrite <- !app_assoc. reflexivity. }
  split; [| split; [| split]].
  - rewrite Hs'. unfold list_notes, ListNotesWithPrefix, ensureNoteIndexLoaded, upsertNoteIndexEntry, set_disk.
    cbn [noteIndexInit]. rewrite Hinit. cbn [set_index noteIndex noteIndexInit fst]. rewrite Hindex.
    rewrite dom_insert_L, dom_empty_L, right_id_L by apply _. apply listing_singleton.
  - unfold list_notes, ListNotesWithPrefix, ensureNoteIndexLoaded. cbn [restarted noteIndexInit disk].
    rewrite Hother by (by apply root_differs). rewrite Hroot. cbn [set_index noteIndex fst].
    assert (dom (foldl (index_file read_ok lower_rune ModTime (disk s')) ∅ (files_below (notesPath f) (disk s'))) = {[shown key]}) as ->;
      [| apply listing_singleton].
    apply set_eq. intros k. rewrite index_dom, dom_empty_L, elem_of_empty, elem_of_singleton.
    rewrite (alone_indexed key (disk s') (safe_content content)); [naive_solver | done | | done |].
    + intros p Hp P1 P2. destruct (decide (p = path key ".md" +:+ ".tmp")) as [-> | P3]; [done |].
      destruct (decide (p = path key ".key" +:+ ".tmp")) as [-> | P4]; [by apply Hkeytmp, Hempty, Hunder |]. rewrite Hother by done. by apply Hempty.
    + intros Hlen. unfold requiresKeySidecar in Hside. rewrite bool_decide_eq_false_2 in Hside by lia. apply Hside, Hempty.
      rewrite <- (append_empty (path key ".key")). by apply Hunder.
  - exact Hmd.
  - intros Hlong. unfold requiresKeySidecar in Hside. by rewrite bool_decide_eq_true_2 in Hside.
Qed.
End Notes.

(** ** Witnesses *)

Definition sample_store : FileMemoryStore := MkFileStore "/d/sessions" "/d/notes" "/d/branches" None.

Definition sample_state : store_state :=
  MkStore {["/d/sessions" := NDir; "/d/notes" := NDir; "/d/branches" := NDir]} ∅ ∅ ∅ true.

Example sample_store_is_made :
  NewFileMemoryStore (λ _, true) "/d" None ∅ ∅ =
    (Ok (sample_store, restarted sample_state), disk sample_state).
Proof. vm_compute. reflexivity. Qed.

(** A session with nothing but an id has a JSON, the id. *)
Definition plain_json (x : Session) : option string :=
  match x with MkSession _ id "" "" 0 [] SessionStateActive None => Some id | _ => None end.
Definition plain_session (text : string) : res Session := Ok (MkSession None text "" "" 0 [] SessionStateActive None).

Lemma plain_json_law x text : encodable x → plain_json x = Some text → plain_session text = Ok (without_counters x).
Proof. intros _. destruct x as [c id [| ? ?] [| ? ?] [| |] [| ? ?] [] [|]]; try done. by intros [= <-]. Qed.

Definition named_session (id : string) : Session := MkSession (Some 7) id "" "" 0 [] SessionStateActive None.

Lemma sample_directory name segs : canon segs = name → segs ≠ [] → Forall proper segs → directory name.
Proof. intros <- H1 H2. by exists segs. Qed.

Lemma saved_sessions_survive_witness :
  ∃ s', SaveSession (λ _, true) (λ _, true) (λ _ _, true) plain_json sample_store None (named_session "a/b") sample_state = (Ok tt, s') ∧
    ((∃ l, GetSession (λ _, true) (λ _ _, true) plain_session sample_store "now" "a/b" s' = (Ok (Some l), s') ∧
           heap s' !! l = Some (named_session "a/b")) ∧
     (∃ l s'', GetSession (λ _, true) (λ _ _, true) plain_session sample_store "now" "a/b" (restarted s') = (Ok (Some l), s'') ∧
           heap s'' !! l = Some (without_counters (named_session "a/b")))) ∧
    heap sample_state ⊆ heap s' ∧
    ∀ id, (String.length id ≤ 200 → 3 ≤ 200 → id ≠ "a/b" →
      disk s' !! session_path sample_store id = disk sample_state !! session_path sample_store id ∧
      sessionCache s' !! id = sessionCache sample_state !! id)%nat.
Proof.
  destruct (SaveSession (λ _, true) (λ _, true) (λ _ _, true) plain_json sample_store None (named_session "a/b") sample_state)
    as [r s'] eqn:Hs. assert (r = Ok tt) as Hr.
  { change r with (fst (r, s')). rewrite <- Hs. vm_compute. reflexivity. }
  exists s'. split; [by rewrite Hr |]. subst r.
  assert (encodable (named_session "a/b")) as Henc by (split_and!; first [constructor | vm_compute; reflexivity | exact I]).
  destruct (saved_sessions_survive (λ _, true) (λ _, true) (λ _, true) (λ _ _, true) plain_json plain_session sample_store
    plain_json_law ltac:(apply (sample_directory _ ["d"; "sessions"]); [reflexivity | discriminate |];
      repeat (constructor; [unfold proper; split_and!; try discriminate; apply (bool_decide_unpack _); vm_compute; exact I |]); constructor)
    None "now" (named_session "a/b") sample_state (Ok tt) s' eq_refl eq_refl Hs) as ([Hcache Hfile] & Hheap & Hother).
  split; [split; [exact Hcache | exact (Hfile Henc)] | split; [exact Hheap | exact Hother]].
Defined.

Definition long_key : string := of_bytes (repeat (byte 97) 151).

Lemma note_keys_after_restart_witness :
  ∃ s', SaveNote (λ _, true) (λ _, true) (λ _ _, true) (λ r, r) sample_store 5 long_key "text" sample_state = (Ok tt, s') ∧
    (ListNotesWithPrefix (λ _, true) (λ r, r) sample_store (λ _, 0%Z) None "" s').1 = [long_key] ∧
    (ListNotesWithPrefix (λ _, true) (λ r, r) sample_store (λ _, 0%Z) None "" (restarted s')).1 = [shown long_key] ∧
    disk s' !! note_path sample_store long_key ".md" = Some (NFile (safe_content sample_store "text")) ∧
    (200 < String.length long_key → disk s' !! note_path sample_store long_key ".key" = Some (NFile long_key))%nat.
Proof.
  destruct (SaveNote (λ _, true) (λ _, true) (λ _ _, true) (λ r, r) sample_store 5 long_key "text" sample_state) as [r s'] eqn:Hs.
  assert (r = Ok tt) as Hr.
  { change r with (fst (r, s')). rewrite <- Hs. vm_compute. reflexivity. }
  exists s'. split; [by rewrite Hr |]. subst r.
  refine (note_keys_after_restart (λ _, true) (λ _, true) (λ _, true) (λ _ _, true) (λ r, r) (λ _, 0%Z) sample_store ["d"; "notes"]
    eq_refl _ _ 5%Z long_key "text" sample_state s' (λ _, eq_refl) eq_refl _ eq_refl eq_refl Hs); [discriminate | |].
  - repeat (constructor; [unfold proper; split_and!; try discriminate; apply (bool_decide_unpack _); vm_compute; exact I |]). constructor.
  - intros p Hp. unfold sample_state. cbn [disk]. rewrite !lookup_insert_ne, lookup_singleton_ne; [done | ..]; intros <-;
      vm_compute in Hp; discriminate.
Defined.

Example long_keys_change : shown long_key ≠ long_key.
Proof. vm_compute. discriminate. Qed.
