(* ===== verification/Sessions.v ===== *)
(** The session manager: [openclaw/core/session.go].

    Active sessions are pointers to objects on the store's heap, with a counter
    of them beside the map; sessions that leave are saved in the background,
    from a list of pending saves.  An operation is one step;
    [SessionsSpec.v] takes removals apart.  The store is used through the class
    [IMemoryStore]; [now] is the time an operation reads; the order of a range
    over the active sessions is an argument.  The counter is a [Z]: it counts
    sessions.  Log lines and most metrics are not kept. *)

From S2P Require Import Prelude GoStrings ToolExecutor AgentTurn SessionModels FileStore.
Local Open Scope string_scope.
Local Open Scope list_scope.

(** ** The store's interface *)

(** Objects, and the operations of the store; [W] is the store with its heap. *)
Class IMemoryStore (W : Type) := {
  objects : W → session_heap;
  assign : nat → Session → W → W;
  new_object : Session → W → nat * W;
  store_GetSession : string → W → res (option nat) * W;
  store_SaveSession : Session → W → res () * W;
  store_SaveBranch : SessionBranch → W → res () * W;
  (** [None] for a nil branch *)
  store_LoadBranch : string → W → res (option SessionBranch) * W;
}.

Class MemoryStoreLaws (W : Type) {M : IMemoryStore W} := {
  (** what holds of a store that was used through its operations *)
  sound : W → Prop;
  objects_assign l x w : objects (assign l x w) = <[l := x]> (objects w);
  objects_new x w : objects (new_object x w).2 = <[(new_object x w).1 := x]> (objects w) ∧ objects w !! (new_object x w).1 = None;
  objects_get id w : objects w ⊆ objects (store_GetSession id w).2;
  get_valid id w l w' : sound w → store_GetSession id w = (Ok (Some l), w') → is_Some (objects w' !! l);
  objects_save x w : objects w ⊆ objects (store_SaveSession x w).2;
  sound_assign l x w : sound w → sound (assign l x w);
  sound_new x w : sound w → sound (new_object x w).2;
  sound_get id w : sound w → sound (store_GetSession id w).2;
  sound_save x w : sound w → sound (store_SaveSession x w).2;
}.

(** A new branch and the time in its name. *)
Definition branch_id (id branchName : string) (now_seconds : Z) : string :=
  id +:+ ":branch:" +:+ branchName +:+ ":" +:+ Itoa now_seconds.

(** ** State *)

Record SessionManager := MkManager {
  active : gmap string nat;
  activeCount : Z;
  backgroundPersists : list nat;
  evictions : Z;
  capacityRejects : Z;
}.

Definition new_manager : SessionManager := MkManager ∅ 0 [] 0 0.

Section Manager.
Context {W : Type} {M : IMemoryStore W}.
Context (timeout maxSessions : Z).
(** The order of a range over the active sessions. *)
Context (range : gmap string nat → list (string * nat)).

Definition state : Type := SessionManager * W.

(** A session leaves: it is expired and will be saved. *)
Definition expel (key : string) (l : nat) (s : state) : state :=
  let '(m, w) := s in
  (MkManager (delete key (active m)) (activeCount m - 1) (backgroundPersists m ++ [l]) (evictions m + 1) (capacityRejects m),
   match objects w !! l with Some x => assign l (set_state SessionStateExpired x) w | None => w end).

Definition expired (now : Z) (w : W) (l : nat) : bool :=
  match objects w !! l with Some x => (LastActiveAt x + timeout <? now)%Z | None => false end.

(** How many left, and the state. *)
Definition sweep_one (now : Z) (r : nat * state) (x : string * nat) : nat * state :=
  if expired now r.2.2 x.2 then (S r.1, expel x.1 x.2 r.2) else r.

Definition SweepExpiredActiveSessions (now : Z) (s : state) : nat * state :=
  foldl (sweep_one now) (0, s) (range (active s.1)).

(** The end of the year 9999, in nanoseconds from the zero time. *)
Definition far_future : Z := 315537897599999999999.

(** The key and time of the session that was active the longest time ago, and
    its object. *)
Definition older (w : W) (oldest : string * Z) (x : string * nat) : string * Z :=
  match objects w !! x.2 with
  | Some session => if (LastActiveAt session <? oldest.2)%Z then (x.1, LastActiveAt session) else oldest
  | None => oldest
  end.

Definition oldest_key (s : state) : string := (foldl (older s.2) ("", far_future) (range (active s.1))).1.

Fixpoint evict_loop (attempts : nat) (s : state) : state :=
  if (activeCount s.1 <? maxSessions)%Z then s
  else
    match attempts with
    | O => s
    | S attempts =>
        let key := oldest_key s in
        if bool_decide (key = "") then s
        else match active s.1 !! key with
             | Some l => evict_loop attempts (expel key l s)
             | None => s
             end
    end.

Definition evictLeastRecentlyActive (s : state) : state :=
  if (maxSessions <=? 0)%Z then s else evict_loop (S (Z.to_nat maxSessions)) s.

Definition full (s : state) : bool := (maxSessions <=? activeCount s.1)%Z.

Definition ensureCapacityForAdmission (now : Z) (s : state) : res () * state :=
  if (maxSessions <=? 0)%Z then (Ok tt, s)
  else
    let s := if full s then (SweepExpiredActiveSessions now s).2 else s in
    let s := if full s then evictLeastRecentlyActive s else s in
    if full s then
      let '(m, w) := s in
      (Fail ("maximum concurrent sessions limit (" +:+ Itoa maxSessions +:+ ") has been reached."),
       (MkManager (active m) (activeCount m) (backgroundPersists m) (evictions m) (capacityRejects m + 1), w))
    else (Ok tt, s).

(** An assignment through a pointer. *)
Definition update (l : nat) (f : Session → Session) (w : W) : W :=
  match objects w !! l with Some x => assign l (f x) w | None => w end.

(** [LoadOrStore] of a session that was read or made: the one that is active. *)
Definition admit_session (now : Z) (key : string) (l : nat) (s : state) : nat * state :=
  let '(m, w) := s in
  match active m !! key with
  | Some canonical => (canonical, (m, update canonical (touch now) w))
  | None => (l, (MkManager (<[key := l]> (active m)) (activeCount m + 1) (backgroundPersists m) (evictions m) (capacityRejects m), w))
  end.

(** Whether there is room is looked at, and ignored. *)
Definition GetOrCreateById (now : Z) (sessionId channelId senderId : string) (s : state) : res nat * state :=
  if bool_decide (String.length sessionId = 0) then (Fail "sessionId must be set", s)
  else
    let '(m, w) := s in
    match active m !! sessionId with
    | Some l => (Ok l, (m, update l (touch now) w))
    | None =>
        match store_GetSession sessionId w with
        | (Fail e, w) => (Fail e, (m, w))
        | (Ok (Some l), w) =>
            let w := update l (λ x, set_state SessionStateActive (touch now x)) w in
            let '(_, s) := ensureCapacityForAdmission now (m, w) in
            let '(l, s) := admit_session now sessionId l s in (Ok l, s)
        | (Ok None, w) =>
            let '(_, (m, w)) := ensureCapacityForAdmission now (m, w) in
            let '(l, w) := new_object (MkSession None sessionId channelId senderId now [] SessionStateActive None) w in
            let '(l, s) := admit_session now sessionId l (m, w) in (Ok l, s)
        end
    end.

Definition RemoveActive (sessionId : string) (s : state) : bool * state :=
  if bool_decide (String.length sessionId = 0) then (false, s)
  else
    let '(m, w) := s in
    match active m !! sessionId with
    | Some _ => (true, (MkManager (delete sessionId (active m)) (activeCount m - 1) (backgroundPersists m) (evictions m) (capacityRejects m), w))
    | None => (false, s)
    end.

Definition IsActive (sessionKey : string) (s : state) : bool := bool_decide (is_Some (active s.1 !! sessionKey)).

Definition TryGetActive (channelId senderId : string) (s : state) : res nat :=
  match active s.1 !! (channelId +:+ ":" +:+ senderId) with Some l => Ok l | None => Fail "data no exists" end.

(** The first object of the range that is looked for. *)
Definition find_active (wanted : Session → bool) (s : state) : res nat :=
  match List.find (λ x, match objects s.2 !! x.2 with Some session => wanted session | None => false end) (range (active s.1)) with
  | Some (_, l) => Ok l
  | None => Fail "data no exists"
  end.

Definition TryGetActiveById (sessionId : string) (s : state) : res nat :=
  find_active (λ x, bool_decide (Id x = sessionId)) s.

Definition TryGetActiveByContractId (contractId : string) (s : state) : res nat :=
  find_active (λ x, bool_decide (ContractPolicy x = Some contractId)) s.

Definition Load (sessionId : string) (s : state) : res (option nat) * state :=
  match active s.1 !! sessionId with
  | Some l => (Ok (Some l), s)
  | None => let '(r, w) := store_GetSession sessionId s.2 in (r, (s.1, w))
  end.

Definition ListActive (s : state) : list Session := omap (λ x, objects s.2 !! x.2) (range (active s.1)).

(** Saving, with up to three more attempts. *)
Fixpoint save_with_retries (retries : nat) (session : Session) (w : W) : res () * W :=
  match store_SaveSession session w with
  | (Fail e, w) => match retries with O => (Fail e, w) | S retries => save_with_retries retries session w end
  | r => r
  end.

(** A background save, of what the object is by then. *)
Definition run_background (s : state) : state :=
  let '(m, w) := s in
  match backgroundPersists m with
  | [] => s
  | l :: rest =>
      (MkManager (active m) (activeCount m) rest (evictions m) (capacityRejects m),
       match objects w !! l with Some x => (save_with_retries 3 x w).2 | None => w end)
  end.
End Manager.

(** ** Branches *)

(** The lock of the session is held; see [SessionLocks.v]. *)
Section Branches.
Context {W : Type} {M : IMemoryStore W}.

Definition Branch (now_seconds : Z) (session : Session) (branchName : string) (w : W) : string * res () * W :=
  let id := branch_id (Id session) branchName now_seconds in
  let '(r, w) := store_SaveBranch (MkBranch id (Id session) branchName (History session)) w in
  (id, r, w).

(** A branch that is not there is nil, which panics. *)
Definition RestoreBranch (now : Z) (l : nat) (branchId : string) (w : W) : go (bool * W) :=
  match objects w !! l with
  | None => Panic
  | Some session =>
      match store_LoadBranch branchId w with
      | (Fail _, w) => Done (false, w)
      | (Ok None, _) => Panic
      | (Ok (Some branch), w) =>
          if negb (bool_decide (BranchSessionId branch = Id session)) then Done (false, w)
          else Done (true, update l (λ x, touch now (set_turns (BranchHistory branch) x)) w)
      end
  end.

Definition summarizeTurn (turn : ChatTurn) : string :=
  let content := TrimSpace (TurnContent turn) in
  let content := if bool_decide (String.length content = 0) then TurnRole turn else content in
  let content := if bool_decide (180 < String.length content)%nat then slice_to content 180 +:+ "…" else content in
  TurnRole turn +:+ ": " +:+ content.

Fixpoint calls_equal (l r : list ToolInvocation) : bool :=
  match l, r with
  | x :: l, y :: r =>
      bool_decide (InvToolName x = InvToolName y) && bool_decide (InvArguments x = InvArguments y) && bool_decide (Result x = Result y) &&
      calls_equal l r
  | _, _ => true
  end.

Definition turnsEqual (l r : ChatTurn) : bool :=
  if negb (bool_decide (TurnRole l = TurnRole r)) || negb (bool_decide (TurnContent l = TurnContent r)) then false
  else if bool_decide (length (ToolCalls l) = 0) && bool_decide (length (ToolCalls r) = 0) then true
  else if negb (bool_decide (length (ToolCalls l) = length (ToolCalls r))) then false
  else calls_equal (ToolCalls l) (ToolCalls r).

(** How many turns from the first on are equal. *)
Fixpoint shared_prefix (l r : list ChatTurn) : nat :=
  match l, r with
  | x :: l, y :: r => if turnsEqual x y then S (shared_prefix l r) else 0
  | _, _ => 0
  end.

Record SessionDiffResponse := MkDiff {
  DiffSessionId : string;
  DiffBranchId : string;
  DiffBranchName : string;
  SharedPrefixTurns : nat;
  CurrentTurnCount : nat;
  BranchTurnCount : nat;
  CurrentOnlyTurnSummaries : list string;
  BranchOnlyTurnSummaries : list string;
}.

Definition branch_diff (session : Session) (branch : SessionBranch) : SessionDiffResponse :=
  let n := shared_prefix (History session) (BranchHistory branch) in
  MkDiff (Id session) (BranchId branch) (BranchName branch) n (length (History session)) (length (BranchHistory branch))
    (summarizeTurn <$> drop n (History session)) (summarizeTurn <$> drop n (BranchHistory branch)).

Definition BuildBranchDiff (session : Session) (branchId : string) (w : W) : go (res SessionDiffResponse * W) :=
  match store_LoadBranch branchId w with
  | (Fail e, w) => Done (Fail e, w)
  | (Ok None, _) => Panic
  | (Ok (Some branch), w) =>
      if negb (bool_decide (BranchSessionId branch = Id session)) then Done (Fail "session data error", w)
      else Done (Ok (branch_diff session branch), w)
  end.
End Branches.
