(* ===== verification/SessionsSpec.v ===== *)
(** What the session manager guarantees: the counter and the limit of active
    sessions under any sequence of operations; what it does not: saving what an
    evicted session said before it is loaded again, and counters of tokens. *)

From S2P Require Import Prelude GoStrings ToolExecutor AgentTurn SessionModels FileStore FileStoreSpec Sessions.
Local Open Scope string_scope.
Local Open Scope list_scope.

Section Capacity.
Context {W : Type} {M : IMemoryStore W} {ML : MemoryStoreLaws W}.
Context (timeout maxSessions : Z) (range : gmap string nat → list (string * nat)).
Context (Hrange : ∀ m, range m ≡ₚ map_to_list m).

(** The counter counts, the limit is kept, and every active session is an object
    that was active before the year 10000. *)
Record fits (s : SessionManager * W) : Prop := {
  fits_count : activeCount s.1 = Z.of_nat (size (active s.1));
  fits_limit : (0 < maxSessions → Z.of_nat (size (active s.1)) ≤ maxSessions)%Z;
  fits_objects k l : active s.1 !! k = Some l → ∃ x, objects s.2 !! l = Some x ∧ (LastActiveAt x < far_future)%Z;
  fits_keys : active s.1 !! "" = None;
  fits_sound : sound s.2;
}.

(** Fewer sessions are active, and objects keep their time and history. *)
Definition fewer (s s' : SessionManager * W) : Prop :=
  active s'.1 ⊆ active s.1 ∧
  ∀ l x, objects s.2 !! l = Some x → ∃ x', objects s'.2 !! l = Some x' ∧ LastActiveAt x' = LastActiveAt x ∧ History x' = History x.

Instance fewer_preorder : PreOrder fewer.
Proof.
  split; [intros s; split; eauto |]. intros a b c [H1 H2] [H3 H4]. split; [by etransitivity |].
  intros l x (y & Hy & ? & ?)%H2. destruct (H4 l y Hy) as (z & Hz & ? & ?). exists z. split_and!; congruence.
Qed.

Lemma expel_fits key l s : fits s → active s.1 !! key = Some l →
  fits (expel key l s) ∧ fewer s (expel key l s) ∧ S (size (active (expel key l s).1)) = size (active s.1) ∧
  (∀ k, k ≠ key → active (expel key l s).1 !! k = active s.1 !! k).
Proof.
  destruct s as [m w]. intros [Hc Hl Ho Hk Hw] Hkey. simpl in *. destruct (Ho _ _ Hkey) as (x & Hx & Hlast).
  assert (S (size (delete key (active m))) = size (active m)) as Hsize.
  { rewrite map_size_delete_Some by eauto. assert (size (active m) ≠ 0); [| lia]. apply map_size_ne_0_lookup. eauto. }
  unfold expel. rewrite Hx. split_and!; simpl.
  - split; simpl; [lia | lia | | rewrite lookup_delete_None; by right | by apply sound_assign].
    intros k l' Hk'. apply lookup_delete_Some in Hk' as [_ Hk']. rewrite objects_assign.
    destruct (decide (l' = l)) as [-> | Hll]; [rewrite lookup_insert_eq; by eexists | rewrite lookup_insert_ne by done; by eapply Ho].
  - split; simpl; [apply delete_subseteq |]. intros l' y Hy. rewrite objects_assign.
    destruct (decide (l' = l)) as [-> | Hll]; [rewrite lookup_insert_eq; eexists; split; [done |] | rewrite lookup_insert_ne by done; eauto].
    simpl. split; congruence.
  - done.
  - intros k Hne. by rewrite lookup_delete_ne.
Qed.

Lemma sweep_fits now l : ∀ r, fits r.2 → NoDup l.*1 → (∀ k x, (k, x) ∈ l → active r.2.1 !! k = Some x) →
  fits (foldl (sweep_one timeout now) r l).2 ∧ fewer r.2 (foldl (sweep_one timeout now) r l).2.
Proof.
  induction l as [| [key loc] l IH]; intros r Hr Hnodup Hin; [done |]. simpl in *. apply NoDup_cons in Hnodup as [Hnot Hnodup].
  assert (sweep_one timeout now r (key, loc) = if expired timeout now r.2.2 loc then (S r.1, expel key loc r.2) else r) as -> by done.
  destruct (expired timeout now r.2.2 loc).
  - destruct (expel_fits key loc r.2 Hr) as (H1 & H2 & _ & H4); [apply Hin; by left |].
    destruct (IH (S r.1, expel key loc r.2)) as [H5 H6]; [done | done | | split; [done | by etransitivity]].
    intros k x Hkx. simpl. rewrite H4; [apply Hin; by right |]. intros ->. apply Hnot. apply list_elem_of_fmap. by exists (key, x).
  - apply IH; [done | done |]. intros k x Hkx. apply Hin. by right.
Qed.

Lemma range_spec m : NoDup (range m).*1 ∧ ∀ k x, (k, x) ∈ range m → m !! k = Some x.
Proof. split; [rewrite Hrange; apply NoDup_fst_map_to_list | intros k x; by rewrite Hrange, elem_of_map_to_list]. Qed.

Lemma Sweep_fits now s : fits s →
  fits (SweepExpiredActiveSessions timeout range now s).2 ∧ fewer s (SweepExpiredActiveSessions timeout range now s).2.
Proof. intros Hs. destruct (range_spec (active s.1)) as [H1 H2]. by apply (sweep_fits now _ (0, s)). Qed.

(** Of sessions that were active before the far future one is the oldest. *)
Lemma oldest_found w l : ∀ acc, (∀ k x, (k, x) ∈ l → k ≠ "" ∧ ∃ session, objects w !! x = Some session ∧ (LastActiveAt session < far_future)%Z) →
  (acc = ("", far_future) ∨ (acc.1 ≠ "" ∧ acc.2 < far_future)%Z) →
  let r := foldl (older w) acc l in
  ((l = [] ∧ r = acc) ∨ (r.1 ≠ "" ∧ r.2 < far_future)%Z) ∧ (r.1 = acc.1 ∨ r.1 ∈ l.*1).
Proof.
  induction l as [| [k x] l IH]; intros acc Hall Hacc; simpl; [by split; left |].
  destruct (Hall k x) as (Hk & session & Hx & Hlast); [by left |].
  assert (older w acc (k, x) = if (LastActiveAt session <? acc.2)%Z then (k, LastActiveAt session) else acc) as Hstep
    by (unfold older; simpl; by rewrite Hx).
  assert ((older w acc (k, x)).1 ≠ "" ∧ (older w acc (k, x)).2 < far_future)%Z as Hnew.
  { rewrite Hstep. destruct (LastActiveAt session <? acc.2)%Z eqn:Hlt; [done |]. destruct Hacc as [-> | ?]; [simpl in Hlt; lia | done]. }
  destruct (IH (older w acc (k, x))) as [H1 H2]; [intros k' x' Hin; apply Hall; by right | by right |]. split.
  - right. destruct H1 as [[-> ->] | ?]; done.
  - destruct H2 as [-> | H2]; [| right; by right]. rewrite Hstep. destruct (_ <? _)%Z; [right; by left | by left].
Qed.

Lemma oldest_key_active s : fits s → active s.1 ≠ ∅ → oldest_key range s ≠ "" ∧ is_Some (active s.1 !! oldest_key range s).
Proof.
  intros [_ _ Ho Hk _] Hne. unfold oldest_key. destruct (range_spec (active s.1)) as [_ Hin].
  destruct (oldest_found s.2 (range (active s.1)) ("", far_future)) as [H1 H2].
  { intros k x Hkx%Hin. split; [intros ->; congruence | by eapply Ho]. }
  { by left. }
  simpl in H2. destruct H1 as [[Hnil _] | [Hkey _]].
  { exfalso. apply Hne, map_to_list_empty_iff. apply Permutation_nil_r. by rewrite <- Hrange, Hnil. }
  split; [done |]. destruct H2 as [H2 | H2]; [done |]. apply list_elem_of_fmap in H2 as ([k x] & -> & Hkx). exists x. by apply Hin.
Qed.

Lemma count_below s : fits s → ((activeCount s.1 <? maxSessions)%Z = false → 0 < maxSessions →
  Z.of_nat (size (active s.1)) = maxSessions ∧ active s.1 ≠ ∅)%Z.
Proof.
  intros [Hc Hl _ _ _] Hlt Hmax. specialize (Hl Hmax). rewrite Hc in Hlt. split; [lia |].
  intros He. apply Z.ltb_ge in Hlt. rewrite He, map_size_empty in Hlt. simpl in Hlt. lia.
Qed.

Lemma evict_fits s : fits s → (0 < maxSessions)%Z → let s' := evictLeastRecentlyActive maxSessions range s in
  fits s' ∧ fewer s s' ∧ (Z.of_nat (size (active s'.1)) < maxSessions)%Z.
Proof.
  intros Hs Hmax s'. subst s'. unfold evictLeastRecentlyActive. rewrite (proj2 (Z.leb_gt _ _) Hmax). cbn [evict_loop].
  destruct (activeCount s.1 <? maxSessions)%Z eqn:Hlt.
  { split; [done |]. split; [done |]. rewrite <- (fits_count _ Hs). lia. }
  destruct (count_below s Hs Hlt Hmax) as [Hsize Hne]. destruct (oldest_key_active s Hs Hne) as [Hk [l Hl]].
  rewrite bool_decide_eq_false_2 by done. rewrite Hl. destruct (expel_fits _ l s Hs Hl) as (H1 & H2 & H3 & _).
  set (s1 := expel _ l s) in *. assert (activeCount s1.1 <? maxSessions = true)%Z as Hlt1.
  { rewrite (fits_count _ H1). lia. }
  assert (evict_loop maxSessions range (Z.to_nat maxSessions) s1 = s1) as ->.
  { destruct (Z.to_nat maxSessions); simpl; by rewrite Hlt1. }
  split; [done |]. split; [done |]. lia.
Qed.

(** There is always room, for those who make it. *)
Lemma ensure_fits now s : fits s → let r := ensureCapacityForAdmission timeout maxSessions range now s in
  r.1 = Ok tt ∧ fits r.2 ∧ fewer s r.2 ∧ (0 < maxSessions → Z.of_nat (size (active r.2.1)) < maxSessions)%Z.
Proof.
  intros Hs r. subst r. unfold ensureCapacityForAdmission. destruct (maxSessions <=? 0)%Z eqn:Hmax.
  { split; [done |]. split; [done |]. split; [done | lia]. }
  cbv zeta. set (s1 := if full maxSessions s then (SweepExpiredActiveSessions timeout range now s).2 else s).
  assert (fits s1 ∧ fewer s s1) as [H1 H2] by (subst s1; destruct (full maxSessions s); [by apply Sweep_fits | done]).
  set (s2 := if full maxSessions s1 then evictLeastRecentlyActive maxSessions range s1 else s1).
  assert (fits s2 ∧ fewer s1 s2 ∧ (Z.of_nat (size (active s2.1)) < maxSessions)%Z) as (H3 & H4 & H5).
  { subst s2. unfold full. destruct (maxSessions <=? activeCount s1.1)%Z eqn:Hfull; [apply evict_fits; [done | lia] |].
    split; [done |]. split; [done |]. rewrite <- (fits_count _ H1). lia. }
  assert (full maxSessions s2 = false) as ->. { unfold full. rewrite (fits_count _ H3). lia. }
  split; [done |]. split; [done |]. split; [by etransitivity | done].
Qed.

Lemma update_fits l f s : fits s → (∀ x, (LastActiveAt (f x) < far_future)%Z) → fits (s.1, update l f s.2).
Proof.
  intros [Hc Hl Ho Hk Hw] Hf. split; simpl; [done | done | | done | unfold update; case_match; [by apply sound_assign | done]].
  intros k l' Hl'. destruct (Ho k l' Hl') as (x & Hx & Hlast).
  unfold update. destruct (objects s.2 !! l) as [y |] eqn:Hy; [| eauto]. rewrite objects_assign.
  destruct (decide (l' = l)) as [-> | Hne]; [rewrite lookup_insert_eq; eauto | rewrite lookup_insert_ne by done; eauto].
Qed.

Lemma extend_fits m w w' : fits (m, w) → sound w' → objects w ⊆ objects w' → fits (m, w').
Proof.
  intros [Hc Hl Ho Hk _] Hw' Hsub. split; [done | done | | done | done]. intros k l Hkl. destruct (Ho k l Hkl) as (x & Hx & ?).
  exists x. split; [by eapply lookup_weaken | done].
Qed.

Lemma admit_fits now key l s x : fits s → key ≠ "" → active s.1 !! key = None → objects s.2 !! l = Some x →
  (LastActiveAt x < far_future)%Z → (0 < maxSessions → Z.of_nat (size (active s.1)) < maxSessions)%Z →
  admit_session now key l s = (l, (MkManager (<[key := l]> (active s.1)) (activeCount s.1 + 1) (backgroundPersists s.1) (evictions s.1)
    (capacityRejects s.1), s.2)) ∧ fits (admit_session now key l s).2.
Proof.
  destruct s as [m w]. intros [Hc Hl Ho Hk Hw] Hkey Hnone Hx Hlast Hroom. simpl in *. unfold admit_session. rewrite Hnone. split; [done |].
  split; simpl.
  - rewrite map_size_insert_None by done. lia.
  - rewrite map_size_insert_None by done. lia.
  - intros k l' [[<- <-] | [_ Hk']]%lookup_insert_Some; eauto.
  - by rewrite lookup_insert_ne.
  - done.
Qed.

(** The operations, at a time. *)
Inductive operation :=
  | OpGetOrCreate (sessionId channelId senderId : string)
  | OpRemove (sessionId : string)
  | OpSweep
  | OpBackground.

Definition run_operation (now : Z) (o : operation) (s : SessionManager * W) : SessionManager * W :=
  match o with
  | OpGetOrCreate sessionId channelId senderId => (GetOrCreateById timeout maxSessions range now sessionId channelId senderId s).2
  | OpRemove sessionId => (RemoveActive sessionId s).2
  | OpSweep => (SweepExpiredActiveSessions timeout range now s).2
  | OpBackground => run_background s
  end.

Lemma fewer_none key s s' : fewer s s' → active s.1 !! key = None → active s'.1 !! key = None.
Proof. intros [Hsub _] Hnone. by eapply lookup_weaken_None. Qed.

Lemma length_nonzero (id : string) : String.length id ≠ 0 → id ≠ "".
Proof. by intros H ->. Qed.

#[local] Arguments admit_session : simpl never.

(** A session that is not active, once there is an object for it. *)
Lemma admitted now key l s x : fits s → key ≠ "" → active s.1 !! key = None → objects s.2 !! l = Some x →
  LastActiveAt x = now → (now < far_future)%Z → (0 < maxSessions → Z.of_nat (size (active s.1)) < maxSessions)%Z →
  let r := admit_session now key l s in
  r.1 = l ∧ fits r.2 ∧ active r.2.1 !! key = Some l ∧ ∃ y, objects r.2.2 !! l = Some y ∧ LastActiveAt y = now.
Proof.
  intros Hs Hkey Hnone Hx Hlast Hnow Hroom r. destruct (admit_fits now key l s x Hs Hkey Hnone Hx) as [Heq Hfits]; [lia | done |].
  subst r. split; [by rewrite Heq |]. split; [done |]. rewrite Heq. simpl. split; [apply lookup_insert_eq | eauto].
Qed.

Lemma GetOrCreate_fits now id channelId senderId s : fits s → (now < far_future)%Z →
  let r := GetOrCreateById timeout maxSessions range now id channelId senderId s in
  fits r.2 ∧
  match r.1 with
  | Ok l => active r.2.1 !! id = Some l ∧ ∃ x, objects r.2.2 !! l = Some x ∧ LastActiveAt x = now
  | Fail e => id = "" ∨ (store_GetSession id s.2).1 = Fail e ∧ active s.1 !! id = None
  end.
Proof.
  intros Hs Hnow r. subst r. unfold GetOrCreateById. case_bool_decide as Hlen.
  { split; [done |]. left. by destruct id. }
  apply length_nonzero in Hlen. destruct s as [m w]. destruct (active m !! id) as [l |] eqn:Hactive.
  { split; [by apply (update_fits l (touch now) (m, w)) |]. simpl. split; [done |].
    destruct (fits_objects _ Hs id l Hactive) as (x & Hx & _). unfold update. simpl in Hx. rewrite Hx, objects_assign, lookup_insert_eq.
    by eexists. }
  simpl. destruct (store_GetSession id w) as [r w1] eqn:Hget. pose proof (objects_get id w) as Hsub. pose proof (sound_get id w (fits_sound _ Hs)) as Hsound. rewrite Hget in Hsub, Hsound.
  simpl in Hsub, Hsound. assert (fits (m, w1)) as Hw1 by (by eapply extend_fits). destruct r as [[l |] | e]; [| | by split; [| right]].
  - destruct (get_valid id w l w1 (fits_sound _ Hs) Hget) as [x Hx]. set (f := λ x, set_state SessionStateActive (touch now x)).
    assert (fits (m, update l f w1)) as Hw2 by (by apply (update_fits l f (m, w1))).
    destruct (ensure_fits now (m, update l f w1) Hw2) as (_ & H2 & H3 & H4). set (e := ensureCapacityForAdmission _ _ _ _ _) in *.
    destruct e as [r s2]. simpl in H2, H3, H4. pose proof (fewer_none id _ _ H3 Hactive) as Hnone.
    destruct (proj2 H3 l (f x)) as (y & Hy & Hlast & _).
    { simpl. unfold update. rewrite Hx, objects_assign. apply lookup_insert_eq. }
    destruct (admitted now id l s2 y H2 Hlen Hnone Hy Hlast Hnow H4) as (Hl & H5 & H6 & H7).
    destruct (admit_session now id l s2) as [l' s3]. simpl in *. by subst l'.
  - destruct (ensure_fits now (m, w1) Hw1) as (_ & H2 & H3 & H4). set (e := ensureCapacityForAdmission _ _ _ _ _) in *.
    destruct e as [r [m2 w2]]. simpl in H2, H3, H4. pose proof (fewer_none id _ _ H3 Hactive) as Hnone. simpl in Hnone.
    set (x := MkSession _ _ _ _ _ _ _ _). destruct (objects_new x w2) as [H5 H6]. pose proof (sound_new x w2 (fits_sound _ H2)) as Hw.
    destruct (new_object x w2) as [l w3]. simpl in H5, H6, Hw.
    assert (fits (m2, w3)) as Hw3.
    { apply (extend_fits m2 w2); [done | done |]. rewrite H5. by apply insert_subseteq. }
    destruct (admitted now id l (m2, w3) x Hw3 Hlen Hnone) as (Hl & H7 & H8 & H9);
      [simpl; rewrite H5; apply lookup_insert_eq | done | done | exact H4 |].
    destruct (admit_session now id l (m2, w3)) as [l' s3]. simpl in *. by subst l'.
Qed.

Lemma save_extends n x w : objects w ⊆ objects (save_with_retries n x w).2.
Proof.
  revert w. induction n as [| n IH]; intros w; simpl; pose proof (objects_save x w) as H; destruct (store_SaveSession x w) as [[|] w'];
    simpl in *; try done. by etransitivity.
Qed.

Lemma save_sound n x w : sound w → sound (save_with_retries n x w).2.
Proof.
  revert w. induction n as [| n IH]; intros w Hw; simpl; pose proof (sound_save x w Hw) as H; destruct (store_SaveSession x w) as [[|] w'];
    simpl in *; try done. by apply IH.
Qed.

Lemma run_operation_fits now o s : (now < far_future)%Z → fits s → fits (run_operation now o s).
Proof.
  intros Hnow Hs. destruct o as [id channelId senderId | id | |]; simpl.
  - by apply GetOrCreate_fits.
  - unfold RemoveActive. case_bool_decide; [done |]. destruct s as [m w]. destruct (active m !! id) as [l |] eqn:Hid; [| done].
    destruct (expel_fits id l (m, w) Hs Hid) as ([Hc Hl Ho Hk _] & _). simpl in *.
    split; simpl in *; [done.. | | done | by apply (fits_sound _ Hs)]. intros k l' Hkl. apply lookup_delete_Some in Hkl as [_ Hkl]. by apply (fits_objects _ Hs k).
  - by apply Sweep_fits.
  - destruct s as [m w]. unfold run_background. destruct (backgroundPersists m) as [| l rest]; [done |].
    destruct Hs as [Hc Hl Ho Hk Hw]. apply (extend_fits _ w); [by split | |]; (destruct (objects w !! l); [| done]);
      [by apply save_sound | apply save_extends].
Qed.

Lemma operations_fit w ops : sound w → Forall (λ x, x.1 < far_future)%Z ops →
  fits (foldl (λ s x, run_operation x.1 x.2 s) (new_manager, w) ops).
Proof.
  intros Hw Hops. assert (fits (new_manager, w)) as H0.
  { split; simpl; [done | rewrite map_size_empty; simpl; lia | intros k l; by rewrite lookup_empty | | done]. apply lookup_empty. }
  revert H0. generalize (new_manager, w). induction Hops as [| [now o] ops Hnow _ IH]; intros s Hs; simpl; [done |].
  apply IH. by apply run_operation_fits.
Qed.

(** C10: after any operations, one after the other, the counter of active sessions
    is their number and the limit is kept, although nobody looks whether there
    is room: there always is.  A session that is asked for is active
    afterwards, unless the store fails. *)
Theorem active_sessions_are_counted w ops : sound w → Forall (λ x, x.1 < far_future)%Z ops →
  let s := foldl (λ s x, run_operation x.1 x.2 s) (new_manager, w) ops in
  activeCount s.1 = Z.of_nat (size (active s.1)) ∧ (0 < maxSessions → Z.of_nat (size (active s.1)) ≤ maxSessions)%Z ∧
  ∀ now id channelId senderId, (now < far_future)%Z → id ≠ "" →
    let r := GetOrCreateById timeout maxSessions range now id channelId senderId s in
    match r.1 with
    | Ok l => active r.2.1 !! id = Some l ∧ ∃ x, objects r.2.2 !! l = Some x ∧ LastActiveAt x = now
    | Fail e => (store_GetSession id s.2).1 = Fail e ∧ active s.1 !! id = None
    end.
Proof.
  intros Hw Hops s. pose proof (operations_fit w ops Hw Hops) as Hs. fold s in Hs.
  split; [by apply fits_count |]. split; [by apply fits_limit |]. intros now id channelId senderId Hnow Hid r.
  destruct (GetOrCreate_fits now id channelId senderId s Hs Hnow) as [_ H]. fold r in H. by destruct r.1; [| destruct H as [? | ?]].
Qed.
End Capacity.

(** ** The file store keeps sessions *)

Section File.
Context (write_ok remove_ok read_ok : string → bool) (rename_ok : string → string → bool).
Context (marshal : Session → option string) (unmarshal : string → res Session).
Context (marshal_branch : SessionBranch → option string) (unmarshal_branch : string → option SessionBranch).
Context (f : FileMemoryStore) (timestamp : string).

Definition set_heap (h : session_heap) (s : store_state) : store_state :=
  MkStore (disk s) h (sessionCache s) (noteIndex s) (noteIndexInit s).

Local Abbreviation get := (GetSession read_ok rename_ok unmarshal f timestamp).
Local Abbreviation save := (SaveSession write_ok remove_ok rename_ok marshal f None).

#[export] Instance file_store : IMemoryStore store_state := {
  objects := heap;
  assign l x s := set_heap (<[l := x]> (heap s)) s;
  new_object := alloc;
  store_GetSession := get;
  store_SaveSession := save;
  store_SaveBranch := SaveBranch write_ok remove_ok rename_ok marshal_branch f;
  store_LoadBranch id s := (Ok (LoadBranch read_ok unmarshal_branch f id s), s);
}.

(** What reading and saving do to the heap and the cache. *)
Lemma get_cases id s : let r := get id s in
  (heap r.2 = heap s ∧ sessionCache r.2 = sessionCache s ∧ ∀ l, r.1 = Ok (Some l) → sessionCache s !! id = Some l) ∨
  (∃ text x l, unmarshal text = Ok x ∧ heap s !! l = None ∧ heap r.2 = <[l := x]> (heap s) ∧
    sessionCache r.2 = <[id := l]> (sessionCache s) ∧ r.1 = Ok (Some l)).
Proof.
  intros r. subst r. unfold GetSession. destruct (IsBlank id); [by left |].
  destruct (sessionCache s !! id) as [l |] eqn:Hc; [left; split; [done |]; split; [done | by intros l' [= <-]] |].
  destruct (disk s !! _); [| by left]. unfold loadSessionFromFile. destruct (ReadFile _ _ _) as [text |].
  - destruct (unmarshal text) as [x | e] eqn:Ht.
    + right. exists text, x, (alloc x s).1. split_and!; try done. apply not_elem_of_dom, is_fresh.
    + destruct (quarantineCorruptSessionFile _ _ _ _ _ _) as [e' d]. by left.
  - destruct (quarantineCorruptSessionFile _ _ _ _ _ _) as [e' d]. by left.
Qed.

Lemma save_cases x s : let r := save x s in
  (heap r.2 = heap s ∧ sessionCache r.2 = sessionCache s) ∨
  (∃ y l, y = match redaction f with Some p => RedactSession p x | None => x end ∧ heap s !! l = None ∧
    heap r.2 = <[l := y]> (heap s) ∧ sessionCache r.2 = <[Id x := l]> (sessionCache s)).
Proof.
  intros r. subst r. unfold SaveSession. destruct (write_atomically _ _ _ _ _ _ _) as [[[] | e] d]; [| by left].
  right. do 2 eexists. split; [reflexivity |]. split; [| done]. apply not_elem_of_dom, is_fresh.
Qed.

#[export] Instance file_store_laws : MemoryStoreLaws store_state.
Proof.
  apply (Build_MemoryStoreLaws _ _ (λ s, ∀ id l, sessionCache s !! id = Some l → is_Some (heap s !! l))).
  - done.
  - intros x s. split; [done |]. apply not_elem_of_dom, is_fresh.
  - intros id s. simpl. destruct (get_cases id s) as [(-> & _) | (text & x & l & _ & Hl & -> & _)]; [done | by apply insert_subseteq].
  - intros id s l s' Hs Hget. simpl in *. pose proof (get_cases id s) as H. rewrite Hget in H. simpl in H.
    destruct H as [(-> & _ & H) | (text & x & l' & _ & Hl & -> & _ & [= ->])]; [by eapply Hs, H | rewrite lookup_insert_eq; eauto].
  - intros x s. simpl. destruct (save_cases x s) as [(-> & _) | (y & l & _ & Hl & -> & _)]; [done | by apply insert_subseteq].
  - intros l x s Hs id l' Hl'. simpl in *. destruct (decide (l' = l)) as [-> |]; [rewrite lookup_insert_eq; eauto | rewrite lookup_insert_ne by done; eauto].
  - intros x s Hs id l Hl. simpl in *. eapply lookup_weaken_is_Some; [by eapply Hs |]. apply insert_subseteq, not_elem_of_dom, is_fresh.
  - intros id s Hs id' l' Hl'. simpl in *. destruct (get_cases id s) as [(Hh & Hc & _) | (text & x & l & _ & Hl & Hh & Hc & _)];
      rewrite Hc in Hl'; rewrite Hh; [by eapply Hs |].
    apply lookup_insert_Some in Hl' as [[<- <-] | [_ Hl']]; [rewrite lookup_insert_eq; eauto |].
    eapply lookup_weaken_is_Some; [by eapply Hs | by apply insert_subseteq].
  - intros x s Hs id' l' Hl'. simpl in *. destruct (save_cases x s) as [(Hh & Hc) | (y & l & _ & Hl & Hh & Hc)];
      rewrite Hc in Hl'; rewrite Hh; [by eapply Hs |].
    apply lookup_insert_Some in Hl' as [[<- <-] | [_ Hl']]; [rewrite lookup_insert_eq; eauto |].
    eapply lookup_weaken_is_Some; [by eapply Hs | by apply insert_subseteq].
Defined.
End File.

(** ** Counters of tokens *)

Section Counted.
Context {W : Type} {M : IMemoryStore W} {ML : MemoryStoreLaws W}.
Context (timeout maxSessions : Z) (range : gmap string nat → list (string * nat)).

Definition uncounted (w : W) : Prop := ∀ l x, objects w !! l = Some x → Counters x = None.

(** The store does not make up counters. *)
Context (Hget : ∀ id w, uncounted w → uncounted (store_GetSession id w).2).
Context (Hsave : ∀ x w, Counters x = None → uncounted w → uncounted (store_SaveSession x w).2).

Lemma uncounted_assign l x w : Counters x = None → uncounted w → uncounted (assign l x w).
Proof. intros Hx Hw l' y. rewrite objects_assign. intros [[<- <-] | [_ H]]%lookup_insert_Some; [done | by eapply Hw]. Qed.

Lemma uncounted_update l f w : (∀ x, Counters (f x) = Counters x) → uncounted w → uncounted (update l f w).
Proof.
  intros Hf Hw. unfold update. destruct (objects w !! l) as [x |] eqn:Hx; [| done].
  apply uncounted_assign; [rewrite Hf; by eapply Hw | done].
Qed.

Lemma uncounted_expel key l s : uncounted s.2 → uncounted (expel key l s).2.
Proof.
  destruct s as [m w]. intros Hw. simpl. destruct (objects w !! l) as [x |] eqn:Hx; [| done].
  apply uncounted_assign; [exact (Hw l x Hx) | done].
Qed.

Lemma uncounted_sweep now s : uncounted s.2 → uncounted (SweepExpiredActiveSessions timeout range now s).2.2.
Proof.
  unfold SweepExpiredActiveSessions. generalize (range (active s.1)) as l. intros l Hs.
  assert (∀ r, uncounted r.2.2 → uncounted (foldl (sweep_one timeout now) r l).2.2) as H; [| by apply (H (0, s))].
  induction l as [| x l IH]; intros r Hr; [done |]. simpl. apply IH. unfold sweep_one.
  destruct (expired _ _ _ _); [exact (uncounted_expel x.1 x.2 r.2 Hr) | done].
Qed.

Lemma uncounted_evict n : ∀ s, uncounted s.2 → uncounted (evict_loop maxSessions range n s).2.
Proof.
  induction n as [| n IH]; intros s Hs; simpl; (destruct (_ <? _)%Z; [done |]); [done |].
  case_bool_decide; [done |]. destruct (active s.1 !! _); [| done]. by apply IH, uncounted_expel.
Qed.

Lemma uncounted_ensure now s : uncounted s.2 → uncounted (ensureCapacityForAdmission timeout maxSessions range now s).2.2.
Proof.
  intros Hs. unfold ensureCapacityForAdmission. destruct (maxSessions <=? 0)%Z; [done |]. cbv zeta.
  set (s1 := if full maxSessions s then (SweepExpiredActiveSessions timeout range now s).2 else s).
  assert (uncounted s1.2) as H1 by (subst s1; destruct (full _ _); [by apply uncounted_sweep | done]).
  set (s2 := if full maxSessions s1 then evictLeastRecentlyActive maxSessions range s1 else s1).
  assert (uncounted s2.2) as H2.
  { subst s2. destruct (full _ s1); [| done]. unfold evictLeastRecentlyActive. destruct (_ <=? _)%Z; [done | by apply uncounted_evict]. }
  destruct (full maxSessions s2), s2; done.
Qed.

Lemma uncounted_admit now key l s : uncounted s.2 → uncounted (Sessions.admit_session now key l s).2.2.
Proof.
  destruct s as [m w]. intros Hw. unfold Sessions.admit_session. destruct (active m !! key); [by apply uncounted_update | done].
Qed.

Lemma uncounted_GetOrCreate now id channelId senderId s : uncounted s.2 →
  uncounted (GetOrCreateById timeout maxSessions range now id channelId senderId s).2.2.
Proof.
  intros Hs. unfold GetOrCreateById. case_bool_decide; [done |]. destruct s as [m w]. simpl in Hs.
  destruct (active m !! id); [by apply uncounted_update |]. pose proof (Hget id w Hs) as H1.
  destruct (store_GetSession id w) as [[[l |] | e] w1]; simpl in H1; [| | done].
  - pose proof (uncounted_ensure now (m, update l (λ x, set_state SessionStateActive (touch now x)) w1)) as H2.
    destruct (ensureCapacityForAdmission _ _ _ _ _) as [r s2]. simpl in H2.
    pose proof (uncounted_admit now id l s2) as H3. destruct (Sessions.admit_session now id l s2) as [l' s3]. simpl in *.
    by apply H3, H2, uncounted_update.
  - pose proof (uncounted_ensure now (m, w1) H1) as H2. destruct (ensureCapacityForAdmission _ _ _ _ _) as [r [m2 w2]]. simpl in H2.
    set (x := MkSession _ _ _ _ _ _ _ _). destruct (objects_new x w2) as [H3 _]. destruct (new_object x w2) as [l w3]. simpl in H3.
    pose proof (uncounted_admit now id l (m2, w3)) as H4. destruct (Sessions.admit_session now id l (m2, w3)) as [l' s3]. simpl in *.
    apply H4. intros l0 y. rewrite H3. intros [[<- <-] | [_ Hy]]%lookup_insert_Some; [done | by eapply H2].
Qed.

Lemma uncounted_save n x w : Counters x = None → uncounted w → uncounted (save_with_retries n x w).2.
Proof.
  intros Hx. revert w. induction n as [| n IH]; intros w Hw; simpl; pose proof (Hsave x w Hx Hw) as H;
    destruct (store_SaveSession x w) as [[|] w']; simpl in *; try done. by apply IH.
Qed.

Lemma uncounted_operation now o s : uncounted s.2 → uncounted (run_operation timeout maxSessions range now o s).2.
Proof.
  intros Hs. destruct o as [id channelId senderId | id | |]; simpl.
  - by apply uncounted_GetOrCreate.
  - unfold RemoveActive. case_bool_decide; [done |]. destruct s as [m w]. by destruct (active m !! id).
  - by apply uncounted_sweep.
  - destruct s as [m w]. unfold run_background. destruct (backgroundPersists m) as [| l rest]; [done |]. cbn [snd] in *.
    destruct (objects w !! l) as [x |] eqn:Hx; [| done]. apply uncounted_save; [exact (Hs l x Hx) | done].
Qed.

Lemma uncounted_operations ops : ∀ s, uncounted s.2 →
  uncounted (foldl (λ s x, run_operation timeout maxSessions range x.1 x.2 s) s ops).2.
Proof. induction ops as [| [now o] ops IH]; intros s Hs; simpl; [done |]. by apply IH, uncounted_operation. Qed.
End Counted.

Section FileSessions.
Context (write_ok remove_ok read_ok : string → bool) (rename_ok : string → string → bool).
Context (marshal : Session → option string) (unmarshal : string → res Session).
Context (marshal_branch : SessionBranch → option string) (unmarshal_branch : string → option SessionBranch).
Context (f : FileMemoryStore) (timestamp : string).
Context (timeout maxSessions : Z) (range : gmap string nat → list (string * nat)).
Context (Hrange : ∀ m, range m ≡ₚ map_to_list m).
(** JSON has no counters, and redaction does not make any. *)
Context (Hjson : ∀ text x, unmarshal text = Ok x → Counters x = None).
Context (Hredaction : ∀ p x, redaction f = Some p → Counters x = None → Counters (RedactSession p x) = None).

#[local] Instance fs : IMemoryStore store_state :=
  file_store write_ok remove_ok read_ok rename_ok marshal unmarshal marshal_branch unmarshal_branch f timestamp.
#[local] Instance fs_laws : MemoryStoreLaws store_state :=
  file_store_laws write_ok remove_ok read_ok rename_ok marshal unmarshal marshal_branch unmarshal_branch f timestamp.

Lemma file_get_uncounted id (s : store_state) : uncounted s → uncounted (store_GetSession id s).2.
Proof.
  intros Hs l x. simpl. destruct (get_cases read_ok rename_ok unmarshal f timestamp id s) as [(-> & _) | (text & y & l' & Hy & _ & -> & _)];
    [apply Hs |]. intros [[<- <-] | [_ H]]%lookup_insert_Some; [by eapply Hjson | by eapply Hs].
Qed.

Lemma file_save_uncounted x (s : store_state) : Counters x = None → uncounted s → uncounted (store_SaveSession x s).2.
Proof.
  intros Hx Hs l z. simpl. destruct (save_cases write_ok remove_ok rename_ok marshal f x s) as [(-> & _) | (y & l' & -> & _ & -> & _)];
    [apply Hs |]. intros [[<- <-] | [_ H]]%lookup_insert_Some; [| by eapply Hs].
  destruct (redaction f) as [p |] eqn:Hp; [by apply (Hredaction p) | done].
Qed.

(** No session a manager on files hands out has counters of tokens: it makes
    sessions without [DefaultSession], and JSON has none.  So the first tokens
    that are added to a session, or asked for, panic. *)
Theorem managed_sessions_panic s0 ops now id channelId senderId l s' :
  heap s0 = ∅ → sessionCache s0 = ∅ → Forall (λ x, x.1 < far_future)%Z ops → (now < far_future)%Z →
  GetOrCreateById timeout maxSessions range now id channelId senderId
    (foldl (λ s x, run_operation timeout maxSessions range x.1 x.2 s) (new_manager, s0) ops) = (Ok l, s') →
  ∃ x, heap s'.2 !! l = Some x ∧ LastActiveAt x = now ∧ Counters x = None ∧
    ∀ h i o, GetTotalTokens x h = Panic ∧ ((i ≠ 0 ∨ o ≠ 0)%Z → AddTokenUsage i o x h = Panic).
Proof.
  intros Hheap Hcache Hops Hnow Hget. set (s := foldl _ _ ops) in *.
  assert (sound s0) as Hsound by (intros k l' Hl'; by rewrite Hcache, lookup_empty in Hl').
  assert (fits maxSessions s) as Hs.
  { apply operations_fit; [done | done | done]. }
  destruct (GetOrCreate_fits timeout maxSessions range Hrange now id channelId senderId s Hs Hnow) as [_ H]. rewrite Hget in H. simpl in H.
  destruct H as (_ & x & Hx & Hlast). exists x. assert (Counters x = None) as Hc.
  { assert (uncounted s.2) as Hu.
    { apply (uncounted_operations timeout maxSessions range file_get_uncounted file_save_uncounted ops (new_manager, s0)).
      intros l' y. simpl. by rewrite Hheap, lookup_empty. }
    pose proof (uncounted_GetOrCreate timeout maxSessions range file_get_uncounted now id channelId senderId s Hu) as H2.
    rewrite Hget in H2. exact (H2 l x Hx). }
  split; [done |]. split; [done |]. split; [done |]. intros h i o. split; [by apply total_panics | by apply tokens_panic].
Qed.

(** An evicted session that is asked for before it is saved is the cached copy,
    without what was said since it was saved last. *)
Lemma evicted_changes_are_lost now id channelId senderId m s lc y : fits maxSessions (m, s) → (now < far_future)%Z →
  active m !! id = None → IsBlank id = false → id ≠ "" → sessionCache s !! id = Some lc → heap s !! lc = Some y →
  ∃ s' z, GetOrCreateById timeout maxSessions range now id channelId senderId (m, s) = (Ok lc, s') ∧
    heap s'.2 !! lc = Some z ∧ History z = History y.
Proof.
  intros Hs Hnow Hactive Hblank Hid Hcache Hy. unfold GetOrCreateById. rewrite bool_decide_eq_false_2 by (by destruct id).
  rewrite Hactive. simpl. unfold GetSession. rewrite Hblank, Hcache. set (g := λ x, set_state SessionStateActive (touch now x)).
  assert (fits maxSessions (m, update lc g s)) as Hs1 by (by apply (update_fits maxSessions lc g (m, s))).
  destruct (ensure_fits timeout maxSessions range Hrange now _ Hs1) as (_ & _ & Hfewer & _).
  pose proof (fewer_none id _ _ Hfewer Hactive) as Hnone. destruct (proj2 Hfewer lc (g y)) as (z & Hz & _ & Hhist).
  { unfold update. simpl. rewrite Hy. apply lookup_insert_eq. }
  destruct (ensureCapacityForAdmission _ _ _ _ _) as [r [m2 w2]]. unfold admit_session. simpl in Hnone, Hz. rewrite Hnone.
  do 2 eexists. split; [reflexivity |]. split; [exact Hz | done].
Qed.
End FileSessions.

(** ** Removals at the same time *)

Section Races.
Context (maxSessions : Z).

(** [RemoveActive] loads the session, deletes it, and counts it down, whether or
    not it was there to delete. *)
Inductive removal := Loaded (key : string) | Deleted.

(** The active sessions, their counter, and the removals under way.  An
    admission holds the gate. *)
Record race := MkRace { keys : gset string; counter : Z; removals : gmap nat removal }.

Inductive race_step : race → race → Prop :=
  | race_admit ks n rs key : key ∉ ks → (n < maxSessions)%Z → race_step (MkRace ks n rs) (MkRace ({[key]} ∪ ks) (n + 1) rs)
  | race_load ks n rs i key : rs !! i = None → key ∈ ks → race_step (MkRace ks n rs) (MkRace ks n (<[i := Loaded key]> rs))
  | race_delete ks n rs i key : rs !! i = Some (Loaded key) → race_step (MkRace ks n rs) (MkRace (ks ∖ {[key]}) n (<[i := Deleted]> rs))
  | race_count ks n rs i : rs !! i = Some Deleted → race_step (MkRace ks n rs) (MkRace ks (n - 1) (delete i rs)).

End Races.

(** Two removals of one session count twice, and then a second session passes a
    limit of one. *)
Lemma removals_overfill : ∃ s, rtc (race_step 1) (MkRace ∅ 0 ∅) s ∧ size (keys s) = 2 ∧ counter s = 1%Z ∧ removals s = ∅.
Proof.
  exists (MkRace ({["c"]} ∪ ({["b"]} ∪ ({["a"]} ∪ ∅) ∖ {["a"]} ∖ {["a"]})) 1 ∅).
  split; [| split; [vm_compute; reflexivity | done]].
  eapply rtc_l; [by apply (race_admit 1 ∅ 0 ∅ "a") |].
  eapply rtc_l; [apply (race_load 1 _ _ _ 0 "a"); [done | set_solver] |].
  eapply rtc_l; [apply (race_load 1 _ _ _ 1 "a"); [done | set_solver] |].
  eapply rtc_l; [by apply (race_delete 1 _ _ _ 0 "a") |].
  eapply rtc_l; [by apply (race_delete 1 _ _ _ 1 "a") |].
  eapply rtc_l; [by apply (race_count 1 _ _ _ 0) |].
  eapply rtc_l; [by apply (race_count 1 _ _ _ 1) |].
  eapply rtc_l; [apply (race_admit 1 _ _ _ "b"); [set_solver | lia] |].
  eapply rtc_l; [apply (race_admit 1 _ _ _ "c"); [set_solver | lia] |].
  assert (delete 1 (delete 0 (<[1 := Deleted]> (<[0 := Deleted]> (<[1 := Loaded "a"]> (<[0 := Loaded "a"]> ∅))))) = (∅ : gmap nat removal))
    as -> by (vm_compute; reflexivity).
  reflexivity.
Qed.

(** ** Branches *)

(** Turns that are told apart neither by what is said nor by the calls. *)
Definition call_key (c : ToolInvocation) : string * string * string := (InvToolName c, InvArguments c, Result c).
Definition alike (x y : ChatTurn) : Prop :=
  TurnRole x = TurnRole y ∧ TurnContent x = TurnContent y ∧ call_key <$> ToolCalls x = call_key <$> ToolCalls y.

Lemma calls_equal_spec l r : length l = length r → calls_equal l r = true ↔ call_key <$> l = call_key <$> r.
Proof.
  revert r. induction l as [| x l IH]; intros [| y r] Hlen; try done. injection Hlen as Hlen. cbn [calls_equal].
  rewrite !andb_true_iff, !bool_decide_eq_true, (IH r Hlen), !fmap_cons. split.
  - intros [[[H1 H2] H3] H4]. f_equal; [| exact H4]. unfold call_key. by rewrite H1, H2, H3.
  - intros [= H1 H2 H3 H4]. done.
Qed.

Lemma turnsEqual_spec x y : turnsEqual x y = true ↔ alike x y.
Proof.
  assert (turnsEqual x y = bool_decide (TurnRole x = TurnRole y) && bool_decide (TurnContent x = TurnContent y) &&
    bool_decide (length (ToolCalls x) = length (ToolCalls y)) && calls_equal (ToolCalls x) (ToolCalls y)) as ->.
  { unfold turnsEqual. destruct (bool_decide (TurnRole x = _)), (bool_decide (TurnContent x = _)); try done. simpl.
    by destruct (ToolCalls x), (ToolCalls y); [| | | simpl; destruct (bool_decide (S _ = S _))]. }
  unfold alike. rewrite !andb_true_iff, !bool_decide_eq_true. split.
  - intros [[[H1 H2] H3] H4]. by rewrite calls_equal_spec in H4.
  - intros (H1 & H2 & H3). assert (length (ToolCalls x) = length (ToolCalls y)) as Hlen.
    { apply (f_equal length) in H3. by rewrite !length_fmap in H3. }
    by rewrite calls_equal_spec.
Qed.

(** A diff of a session and a branch finds the longest common beginning: the
    turns before it are alike, the next ones, if there are any, are not, and
    the summaries are those of all turns after it. *)
Theorem branch_diff_is_common_prefix session branch :
  let d := branch_diff session branch in let n := SharedPrefixTurns d in
  Forall2 alike (take n (History session)) (take n (BranchHistory branch)) ∧
  (∀ x y, History session !! n = Some x → BranchHistory branch !! n = Some y → ¬ alike x y) ∧
  n + length (CurrentOnlyTurnSummaries d) = CurrentTurnCount d ∧ n + length (BranchOnlyTurnSummaries d) = BranchTurnCount d ∧
  CurrentOnlyTurnSummaries d = drop n (summarizeTurn <$> History session).
Proof.
  cbv zeta. unfold branch_diff. cbn [SharedPrefixTurns CurrentOnlyTurnSummaries BranchOnlyTurnSummaries CurrentTurnCount BranchTurnCount].
  assert (∀ l r, let n := shared_prefix l r in Forall2 alike (take n l) (take n r) ∧
    (∀ x y, l !! n = Some x → r !! n = Some y → ¬ alike x y) ∧ n ≤ length l ∧ n ≤ length r)%nat as H.
  { induction l as [| x l IH]; intros [| y r]; simpl; try (split_and!; [constructor | done | lia | lia]).
    destruct (turnsEqual x y) eqn:Heq; simpl.
    - apply turnsEqual_spec in Heq. destruct (IH r) as (H1 & H2 & H3 & H4). split_and!; [by constructor | done | lia | lia].
    - split_and!; [constructor | | lia | lia]. intros ? ? [= <-] [= <-] Halike%turnsEqual_spec. congruence. }
  destruct (H (History session) (BranchHistory branch)) as (H1 & H2 & H3 & H4). split; [done |]. split; [done |].
  rewrite !length_fmap, !length_drop. split; [lia |]. split; [lia |]. by rewrite fmap_drop.
Qed.

(** ** Witnesses *)

Definition sample_fs : IMemoryStore store_state :=
  file_store (λ _, true) (λ _, true) (λ _, true) (λ _ _, true) plain_json plain_session (λ _, None) (λ _, None) sample_store "now".
Definition sample_fs_laws : MemoryStoreLaws store_state (M := sample_fs) :=
  file_store_laws (λ _, true) (λ _, true) (λ _, true) (λ _ _, true) plain_json plain_session (λ _, None) (λ _, None) sample_store "now".

#[local] Existing Instances sample_fs sample_fs_laws.

Definition sample_operations : list (Z * operation) :=
  [(1, OpGetOrCreate "a" "web" "ann"); (2, OpGetOrCreate "b" "web" "bob"); (3, OpGetOrCreate "c" "web" "cat"); (4, OpBackground);
   (5, OpRemove "b")]%Z.

Definition sample_run : SessionManager * store_state :=
  foldl (λ s x, run_operation 100 2 map_to_list x.1 x.2 s) (new_manager, sample_state) sample_operations.

(** "a" was evicted for "c". *)
Example sample_run_evicts :
  evictions sample_run.1 = 1%Z /\ activeCount sample_run.1 = 1%Z /\ bool_decide (is_Some (active sample_run.1 !! "c")) = true.
Proof. vm_compute. repeat split. Qed.

Lemma active_sessions_are_counted_witness :
  activeCount sample_run.1 = Z.of_nat (size (active sample_run.1)) ∧ (0 < 2 → Z.of_nat (size (active sample_run.1)) ≤ 2)%Z ∧
  ∀ now id channelId senderId, (now < far_future)%Z → id ≠ "" →
    let r := GetOrCreateById 100 2 map_to_list now id channelId senderId sample_run in
    match r.1 with
    | Ok l => active r.2.1 !! id = Some l ∧ ∃ x, objects r.2.2 !! l = Some x ∧ LastActiveAt x = now
    | Fail e => (store_GetSession id sample_run.2).1 = Fail e ∧ active sample_run.1 !! id = None
    end.
Proof.
  apply (active_sessions_are_counted 100 2 map_to_list (λ m, reflexivity _) sample_state sample_operations).
  - intros id l H. vm_compute in H. discriminate.
  - repeat constructor.
Defined.

Lemma managed_sessions_panic_witness :
  ∃ l s', GetOrCreateById 100 2 map_to_list 9 "a" "web" "ann" sample_run = (Ok l, s') ∧
    ∃ x, heap s'.2 !! l = Some x ∧ LastActiveAt x = 9%Z ∧ Counters x = None ∧
      ∀ h i o, GetTotalTokens x h = Panic ∧ ((i ≠ 0 ∨ o ≠ 0)%Z → AddTokenUsage i o x h = Panic).
Proof.
  destruct (GetOrCreateById 100 2 map_to_list 9 "a" "web" "ann" sample_run) as [[l | e] s'] eqn:Hget.
  2: { exfalso. apply (f_equal fst) in Hget. vm_compute in Hget. discriminate. }
  exists l, s'. split; [done |].
  apply (managed_sessions_panic (λ _, true) (λ _, true) (λ _, true) (λ _ _, true) plain_json plain_session (λ _, None) (λ _, None)
    sample_store "now" 100 2 map_to_list (λ m, reflexivity _)) with (s0 := sample_state) (ops := sample_operations) (id := "a")
    (channelId := "web") (senderId := "ann"); [by intros text x [= <-] | done | done | done | repeat constructor | done | exact Hget].
Defined.
