(* ===== verification/SessionLocks.v ===== *)
(** The locks of sessions: [AcquireSessionLock], [Persist],
    [CleanupSessionLocksOnce], [DisposeSessionLocks] and [SessionLockLease] of
    [openclaw/core/session.go].

    A lock is a channel of one place, its gate, which is full while the lock is
    held; leases are numbered.  At most one lease of a session is live; clean-up
    removes nothing; and [Persist] waits for the lock exactly when its caller
    holds it. *)

From S2P Require Import Prelude GoStrings ToolExecutor AgentTurn SessionModels FileStore FileStoreSpec Sessions SessionsSpec.
Local Open Scope string_scope.
Local Open Scope list_scope.

Record gate := MkGate { taken : bool; closed : bool }.

Record lock_state := MkLocks {
  sessionLocks : gmap string nat;
  gates : gmap nat gate;
  lockLastUsed : gmap string Z;
  (** the leases that are not disposed, with their session and gate *)
  leases : gmap nat (string * nat);
}.

Definition no_locks : lock_state := MkLocks ∅ ∅ ∅ ∅.

Definition set_gate (g : nat) (x : gate) (s : lock_state) : lock_state :=
  MkLocks (sessionLocks s) (<[g := x]> (gates s)) (lockLastUsed s) (leases s).
Definition set_last_used (k : string) (t : Z) (s : lock_state) : lock_state :=
  MkLocks (sessionLocks s) (gates s) (<[k := t]> (lockLastUsed s)) (leases s).

(** ** Operations *)

(** [LoadOrStore] of a new gate. *)
Definition get_gate (sessionId : string) (s : lock_state) : nat * lock_state :=
  match sessionLocks s !! sessionId with
  | Some g => (g, s)
  | None =>
      let g := fresh (dom (gates s)) in
      (g, MkLocks (<[sessionId := g]> (sessionLocks s)) (<[g := MkGate false false]> (gates s)) (lockLastUsed s) (leases s))
  end.

(** The wait for the gate: a lease, an error if the context is done, or no end.
    [unlucky] is the choice if both could be. *)
Definition enter_gate (now : Z) (cancelled unlucky : bool) (sessionId : string) (g : nat) (s : lock_state)
    : go (res nat * lock_state) :=
  match gates s !! g with
  | None => Deadlock
  | Some x =>
      if cancelled && (unlucky || taken x && negb (closed x)) then Done (Fail "context canceled", s)
      else if closed x then Panic
      else if taken x then Deadlock
      else
        let lease := fresh (dom (leases s)) in
        Done (Ok lease, MkLocks (sessionLocks s) (<[g := MkGate true false]> (gates s)) (<[sessionId := now]> (lockLastUsed s))
          (<[lease := (sessionId, g)]> (leases s)))
  end.

Definition AcquireSessionLock (now : Z) (cancelled unlucky : bool) (sessionId : string) (s : lock_state)
    : go (res nat * lock_state) :=
  if bool_decide (String.length sessionId = 0) then Done (Fail "sessionId must be set", s)
  else let '(g, s) := get_gate sessionId s in enter_gate now cancelled unlucky sessionId g s.

(** Only the first time. *)
Definition Dispose (now : Z) (lease : nat) (s : lock_state) : lock_state :=
  match leases s !! lease with
  | None => s
  | Some (sessionId, g) =>
      MkLocks (sessionLocks s) (alter (λ x, MkGate false (closed x)) g (gates s)) (<[sessionId := now]> (lockLastUsed s))
        (delete lease (leases s))
  end.

Definition Persist {W} {M : IMemoryStore W} (now : Z) (cancelled unlucky : bool) (session : option Session) (sessionLockHeld : bool)
    (s : lock_state) (w : W) : go (res () * lock_state * W) :=
  match session with
  | None => Done (Fail "session can not be nil", s, w)
  | Some session =>
      s ← (if sessionLockHeld then
             '(r, s) ← AcquireSessionLock now cancelled unlucky (Id session) s;
             Done (match r with Ok lease => Dispose now lease s | Fail _ => s end)
           else Done s);
      let '(r, w) := save_with_retries 3 session w in
      Done (r, s, w)
  end.

Section Cleanup.
Context (IsActive : string → bool).

(** One lock: it was just used. *)
Definition cleanup_lock (now orphanThreshold : Z) (s : lock_state) (x : string * nat) : lock_state :=
  let '(key, g) := x in
  let s := set_last_used key now s in
  if IsActive key then set_last_used key now s
  else
    let lastUsed := default now (lockLastUsed s !! key) in
    if (now - lastUsed <=? orphanThreshold)%Z then s
    else
      match gates s !! g with
      | Some (MkGate false false) =>
          if IsActive key then set_last_used key now s
          else
            match sessionLocks s !! key with
            | Some actual =>
                MkLocks (delete key (sessionLocks s)) (<[actual := MkGate true true]> (gates s)) (delete key (lockLastUsed s)) (leases s)
            | None => s
            end
      | _ => s
      end.

Definition CleanupSessionLocksOnce (now orphanThreshold : Z) (s : lock_state) : lock_state :=
  foldl (cleanup_lock now orphanThreshold) s (map_to_list (sessionLocks s)).
End Cleanup.

Definition dispose_lock (s : lock_state) (x : string * nat) : lock_state :=
  MkLocks (delete x.1 (sessionLocks s)) (alter (λ g, MkGate (taken g) true) x.2 (gates s)) (lockLastUsed s) (leases s).

Definition DisposeSessionLocks (s : lock_state) : lock_state :=
  let s := foldl dispose_lock s (map_to_list (sessionLocks s)) in
  MkLocks (sessionLocks s) (gates s) ∅ (leases s).

(** ** Clean-up removes nothing *)

Lemma cleanup_lock_keeps IsActive now threshold s x : (0 ≤ threshold)%Z → let s' := cleanup_lock IsActive now threshold s x in
  sessionLocks s' = sessionLocks s ∧ gates s' = gates s ∧ leases s' = leases s.
Proof.
  intros Ht s'. subst s'. destruct x as [key g]. unfold cleanup_lock. destruct (IsActive key); [done |]. cbv zeta.
  cbn [set_last_used lockLastUsed]. rewrite lookup_insert_eq. simpl. by rewrite (proj2 (Z.leb_le _ _)) by lia.
Qed.

Lemma cleanup_keeps IsActive now threshold s : (0 ≤ threshold)%Z → let s' := CleanupSessionLocksOnce IsActive now threshold s in
  sessionLocks s' = sessionLocks s ∧ gates s' = gates s ∧ leases s' = leases s.
Proof.
  intros Ht s'. subst s'. unfold CleanupSessionLocksOnce. generalize (map_to_list (sessionLocks s)) as l. intros l. revert s.
  induction l as [| x l IH]; intros s; [done |]. simpl. destruct (IH (cleanup_lock IsActive now threshold s x)) as (H1 & H2 & H3).
  destruct (cleanup_lock_keeps IsActive now threshold s x Ht) as (H4 & H5 & H6). split_and!; congruence.
Qed.

(** ** Mutual exclusion *)

(** The locks and the callers that wait, with the gates they got. *)
Definition lock_system : Type := lock_state * list (string * nat).

Inductive lock_step : lock_system → lock_system → Prop :=
  | step_arrive sid g s s' arrived : get_gate sid s = (g, s') → lock_step (s, arrived) (s', (sid, g) :: arrived)
  | step_enter now cancelled unlucky sid g s s' arrived r : (sid, g) ∈ arrived →
      enter_gate now cancelled unlucky sid g s = Done (r, s') → lock_step (s, arrived) (s', arrived)
  | step_dispose now lease s arrived : lock_step (s, arrived) (Dispose now lease s, arrived)
  | step_cleanup IsActive now threshold s arrived : (0 ≤ threshold)%Z →
      lock_step (s, arrived) (CleanupSessionLocksOnce IsActive now threshold s, arrived).

(** A gate is full exactly while one live lease has it. *)
Record locks_ok (x : lock_system) : Prop := {
  lo_arrived sid g : (sid, g) ∈ x.2 → sessionLocks x.1 !! sid = Some g;
  lo_gates sid g : sessionLocks x.1 !! sid = Some g → is_Some (gates x.1 !! g);
  lo_own sid sid' g : sessionLocks x.1 !! sid = Some g → sessionLocks x.1 !! sid' = Some g → sid = sid';
  lo_open g y : gates x.1 !! g = Some y → closed y = false;
  lo_lease i sid g : leases x.1 !! i = Some (sid, g) → sessionLocks x.1 !! sid = Some g ∧ gates x.1 !! g = Some (MkGate true false);
  lo_once i j sid sid' g : leases x.1 !! i = Some (sid, g) → leases x.1 !! j = Some (sid', g) → i = j;
  lo_taken g : gates x.1 !! g = Some (MkGate true false) → ∃ i sid, leases x.1 !! i = Some (sid, g);
}.

Lemma arrive_ok sid g s s' arrived : get_gate sid s = (g, s') → locks_ok (s, arrived) → locks_ok (s', (sid, g) :: arrived).
Proof.
  intros Hget [Ha Hg Ho Hop Hl Hone Ht]. simpl in *. unfold get_gate in Hget. destruct (sessionLocks s !! sid) as [g' |] eqn:Hsid.
  { injection Hget as <- <-. split; simpl; eauto. intros sid' g [[= -> ->] | H]%elem_of_cons; eauto. }
  injection Hget as <- <-. set (g := fresh (dom (gates s))). assert (gates s !! g = None) as Hfresh by apply not_elem_of_dom, is_fresh.
  assert (∀ sid', sessionLocks s !! sid' ≠ Some g) as Hnew.
  { intros sid' H. destruct (Hg _ _ H) as [y Hy]. congruence. }
  split; simpl.
  - intros sid' g' [[= -> ->] | H]%elem_of_cons; [apply lookup_insert_eq |]. apply Ha in H.
    rewrite lookup_insert_ne; [done | intros ->; congruence].
  - intros sid' g' [[<- <-] | [_ H]]%lookup_insert_Some; [rewrite lookup_insert_eq; eauto |].
    destruct (decide (g' = g)) as [-> |]; [rewrite lookup_insert_eq; eauto | rewrite lookup_insert_ne by done; eauto].
  - intros sid1 sid2 g' [[<- <-] | [Hn H1]]%lookup_insert_Some [[<- Hg'] | [Hn2 H2]]%lookup_insert_Some; subst; try done.
    + by destruct (Hnew sid2).
    + by destruct (Hnew sid1).
    + by eapply Ho.
  - intros g' y [[<- <-] | [_ H]]%lookup_insert_Some; eauto.
  - intros i sid' g' H. destruct (Hl i sid' g' H) as [H1 H2]. split.
    + rewrite lookup_insert_ne; [done | intros ->; congruence].
    + rewrite lookup_insert_ne; [done | intros <-; congruence].
  - done.
  - intros g' [[<- [=]] | [_ H]]%lookup_insert_Some; eauto.
Qed.

Lemma enter_ok now cancelled unlucky sid g s s' arrived r : (sid, g) ∈ arrived →
  enter_gate now cancelled unlucky sid g s = Done (r, s') → locks_ok (s, arrived) → locks_ok (s', arrived).
Proof.
  intros Hin Henter Hs. pose proof Hs as [Ha Hg Ho Hop Hl Hone Ht]. simpl in *. unfold enter_gate in Henter.
  destruct (gates s !! g) as [[tk cl] |] eqn:Hgate; [| done]. simpl in Henter. assert (cl = false) as -> by exact (Hop g _ Hgate).
  destruct (cancelled && _); [by injection Henter as <- <- |]. destruct tk; [done |]. injection Henter as <- <-.
  set (i := fresh (dom (leases s))). assert (leases s !! i = None) as Hfresh by apply not_elem_of_dom, is_fresh.
  assert (∀ j sid', leases s !! j ≠ Some (sid', g)) as Hfree.
  { intros j sid' H. apply Hl in H as [_ H]. congruence. }
  split; simpl; [done | | done | | | |].
  - intros sid' g' H. destruct (decide (g' = g)) as [-> |]; [rewrite lookup_insert_eq; eauto | rewrite lookup_insert_ne by done; eauto].
  - intros g' y [[<- <-] | [_ H]]%lookup_insert_Some; eauto.
  - intros j sid' g' [[<- [= <- <-]] | [_ H]]%lookup_insert_Some; [rewrite lookup_insert_eq; auto |].
    destruct (Hl _ _ _ H) as [H1 H2]. split; [done |]. rewrite lookup_insert_ne; [done |]. intros ->. by destruct (Hfree j sid').
  - intros j k sid1 sid2 g' [[<- [= <- <-]] | [Hn1 H1]]%lookup_insert_Some [[<- Heq] | [Hn2 H2]]%lookup_insert_Some; try done.
    + by destruct (Hfree k sid2).
    + injection Heq as <- <-. by destruct (Hfree j sid1).
    + by eapply Hone.
  - intros g' [[<- _] | [_ H]]%lookup_insert_Some; [exists i, sid; apply lookup_insert_eq |].
    destruct (Ht _ H) as (j & sid' & Hj). exists j, sid'. rewrite lookup_insert_ne; [done | intros <-; congruence].
Qed.

Lemma dispose_ok now lease s arrived : locks_ok (s, arrived) → locks_ok (Dispose now lease s, arrived).
Proof.
  intros Hs. pose proof Hs as [Ha Hg Ho Hop Hl Hone Ht]. simpl in *. unfold Dispose.
  destruct (leases s !! lease) as [[sid g] |] eqn:Hlease; [| done]. destruct (Hl _ _ _ Hlease) as [H1 H2].
  assert (alter (λ x, MkGate false (closed x)) g (gates s) = <[g := MkGate false false]> (gates s)) as ->.
  { apply map_eq. intros k. destruct (decide (k = g)) as [-> |];
      [by rewrite lookup_alter_eq, H2, lookup_insert_eq | by rewrite lookup_alter_ne, lookup_insert_ne]. }
  split; simpl; [done | | done | | | |].
  - intros sid' g' H. destruct (decide (g' = g)) as [-> |]; [rewrite lookup_insert_eq; eauto | rewrite lookup_insert_ne by done; eauto].
  - intros g' y [[<- <-] | [_ H]]%lookup_insert_Some; eauto.
  - intros j sid' g' [Hj H]%lookup_delete_Some. destruct (Hl _ _ _ H) as [H3 H4]. split; [done |].
    rewrite lookup_insert_ne; [done |]. intros <-. apply Hj. by eapply Hone.
  - intros j k sid1 sid2 g' [_ H3]%lookup_delete_Some [_ H4]%lookup_delete_Some. by eapply Hone.
  - intros g' [[_ [=]] | [Hg' H]]%lookup_insert_Some. destruct (Ht _ H) as (j & sid' & Hj). exists j, sid'.
    rewrite lookup_delete_ne; [done |]. intros <-. congruence.
Qed.

Lemma locks_step_ok x y : lock_step x y → locks_ok x → locks_ok y.
Proof.
  destruct 1 as [sid g s s' arrived Hget | now cancelled unlucky sid g s s' arrived r Hin Henter | now lease s arrived |
    IsActive now threshold s arrived Ht]; [by eapply arrive_ok | by eapply enter_ok | by apply dispose_ok |].
  destruct (cleanup_keeps IsActive now threshold s Ht) as (H1 & H2 & H3). intros [Ha Hg Ho Hop Hl Hone Htk].
  split; simpl in *; rewrite ?H1, ?H2, ?H3; done.
Qed.

Lemma locks_run_ok s : rtc lock_step (no_locks, []) s → locks_ok s.
Proof.
  intros Hrun. assert (locks_ok (no_locks, [])) as H0.
  { split; simpl; [intros sid g H; by inversion H | ..]; intros; simplify_map_eq. }
  revert H0. induction Hrun as [| x y z Hstep _ IH]; [done |]. intros Hx. by eapply IH, locks_step_ok.
Qed.

Definition held (s : lock_state) (sessionId : string) : Prop := ∃ i g, leases s !! i = Some (sessionId, g).

Lemma acquire_spec now unlucky sid s arrived : locks_ok (s, arrived) → sid ≠ "" →
  (held s sid → AcquireSessionLock now false unlucky sid s = Deadlock) ∧
  (¬ held s sid → ∃ lease s', AcquireSessionLock now false unlucky sid s = Done (Ok lease, s')).
Proof.
  intros Hs Hsid. pose proof Hs as [Ha Hg Ho Hop Hl Hone Ht]. simpl in *.
  unfold AcquireSessionLock. rewrite bool_decide_eq_false_2 by (by destruct sid). split.
  - intros (i & g & Hi). destruct (Hl i sid g Hi) as [H1 H2]. unfold get_gate. rewrite H1. unfold enter_gate. by rewrite H2.
  - intros Hfree. unfold get_gate. destruct (sessionLocks s !! sid) as [g |] eqn:Hlock.
    + destruct (Hg sid g Hlock) as [[tk cl] Hgate]. assert (cl = false) as -> by exact (Hop g _ Hgate).
      unfold enter_gate. rewrite Hgate. simpl. destruct tk; [| eauto]. exfalso. destruct (Ht g Hgate) as (i & sid' & Hi).
      destruct (Hl _ _ _ Hi) as [H1 _]. rewrite (Ho sid sid' g) in Hfree by done. apply Hfree. by exists i, g.
    + unfold enter_gate. cbn [gates]. rewrite lookup_insert_eq. simpl. eauto.
Qed.

(** C20: the lock of a session excludes: however callers arrive, wait, give up,
    release, release twice and locks are cleaned up, at most one lease of a
    session is live, and the lock is to be had exactly when none is. *)
Theorem session_locks_exclude s arrived : rtc lock_step (no_locks, []) (s, arrived) →
  (∀ i j sid g g', leases s !! i = Some (sid, g) → leases s !! j = Some (sid, g') → i = j) ∧
  ∀ now unlucky sid, sid ≠ "" →
    (held s sid → AcquireSessionLock now false unlucky sid s = Deadlock) ∧
    (¬ held s sid → ∃ lease s', AcquireSessionLock now false unlucky sid s = Done (Ok lease, s')).
Proof.
  intros Hs%locks_run_ok. split; [| intros now unlucky sid Hsid; by eapply acquire_spec].
  intros i j sid g g' Hi Hj. destruct (lo_lease _ Hs i sid g Hi) as [H1 _], (lo_lease _ Hs j sid g' Hj) as [H2 _].
  simpl in H1, H2. assert (g = g') as <- by congruence. by eapply (lo_once _ Hs).
Qed.

(** [Persist] uses the lock the wrong way round.  Told that its caller holds
    the lock it waits for it, and so for ever; told that nobody does it saves
    without it. *)
Theorem persist_waits_for_its_caller {W} {M : IMemoryStore W} s arrived now unlucky session w :
  rtc lock_step (no_locks, []) (s, arrived) → Id session ≠ "" →
  (held s (Id session) → Persist now false unlucky (Some session) true s w = Deadlock) ∧
  Persist now false unlucky (Some session) false s w =
    Done ((save_with_retries 3 session w).1, s, (save_with_retries 3 session w).2).
Proof.
  intros Hs%locks_run_ok Hid. split.
  - intros Hheld. destruct (acquire_spec now unlucky (Id session) s arrived Hs Hid) as [H _]. unfold Persist. by rewrite H.
  - unfold Persist. by destruct (save_with_retries 3 session w) as [r w'].
Qed.

(** A caller that waits while the locks are disposed sends on a closed gate. *)
Lemma disposed_gates_panic now unlucky sid g s : gates s !! g = Some (MkGate true true) → enter_gate now false unlucky sid g s = Panic.
Proof. intros H. unfold enter_gate. by rewrite H. Qed.

(** ** Witnesses *)

Definition one_lock : lock_state :=
  MkLocks {["s1" := 0]} {[0 := MkGate true false]} {["s1" := 5%Z]} {[0 := ("s1", 0)]}.

Lemma one_lock_reached : rtc lock_step (no_locks, []) (one_lock, [("s1", 0)]).
Proof.
  eapply rtc_l; [by apply (step_arrive "s1" 0) |].
  eapply rtc_l; [eapply (step_enter 5 false false "s1" 0); [by left | reflexivity] |]. reflexivity.
Qed.

Lemma session_locks_exclude_witness :
  (∀ i j sid g g', leases one_lock !! i = Some (sid, g) → leases one_lock !! j = Some (sid, g') → i = j) ∧
  ∀ now unlucky sid, sid ≠ "" →
    (held one_lock sid → AcquireSessionLock now false unlucky sid one_lock = Deadlock) ∧
    (¬ held one_lock sid → ∃ lease s', AcquireSessionLock now false unlucky sid one_lock = Done (Ok lease, s')).
Proof. apply (session_locks_exclude one_lock [("s1", 0)] one_lock_reached). Defined.

Lemma persist_waits_for_its_caller_witness :
  (held one_lock "s1" → Persist (M := sample_fs) 9 false false (Some (named_session "s1")) true one_lock sample_state = Deadlock) ∧
  Persist (M := sample_fs) 9 false false (Some (named_session "s1")) false one_lock sample_state =
    Done ((save_with_retries (M := sample_fs) 3 (named_session "s1") sample_state).1, one_lock,
          (save_with_retries (M := sample_fs) 3 (named_session "s1") sample_state).2) ∧
  held one_lock "s1".
Proof.
  destruct (persist_waits_for_its_caller (M := sample_fs) one_lock [("s1", 0)] 9 false (named_session "s1") sample_state one_lock_reached)
    as [H1 H2]; [discriminate |]. split; [exact H1 |]. split; [exact H2 |]. exists 0, 0. reflexivity.
Defined.
